(* ===== verification/_CoqProject ===== *)
-Q . S2P
Prelude.v
Mem32.v
DeltaQueue.v
Liballoc.v
LiballocRep.v
LiballocPlace.v
LiballocProofs.v
LiballocSearch.v
LiballocMalloc.v
LiballocFree.v
LiballocUse.v
LiballocSpec.v
Errno.v
Strerror.v
Rand.v
CString.v
Strto.v
StrtoProofs.v
Strdup.v
Semaphore.v
PteOsal.v
PteSem.v
PteMutex.v
BitArray.v
Paging.v
PagingProofs.v
Memmap.v
PhysAlloc.v
Disk.v
DiskProofs.v
Process.v
ProcessProofs.v
ProcessKill.v
ProcessInv.v
ProcessSpec.v
Pipe.v
Crc32.v
CircularBuffer.v
Paths.v
Vfs.v
VfsProofs.v
Ext2.v
Ext2Write.v
Ext2Lemmas.v
Ext2Dir.v
Ext2Typed.v
Ext2Blocks.v
Ext2Proofs.v
Ext2Spec.v
Hoare.v
Utf8.v
Clock.v
ClockProofs.v
Terminal.v
TerminalProofs.v
TextScreen.v
TerminalShow.v
FileCalls.v
FileCallsProofs.v
Tar.v
TarProofs.v
DiskCache.v
DiskCacheProofs.v
AddressSpace.v
SpaceMemory.v
SpaceInv.v
SpaceLoad.v
SpaceSwitch.v
SpaceLife.v
SpaceClone.v
SpaceUser.v
SpaceSpec.v
Printf.v
PrintfProofs.v
MessageBus.v
Keyboard.v
Env.v
Mbr.v
Elf.v
StringView.v
