(* ===== verification/Prelude.v ===== *)
(** * A verification of the core of LudOS

    LudOS is a kernel for 32-bit x86 machines in C++ ([kern/]), with a C library of its own
    ([libc/]), a thread library for programs ([userland/external/pthread-embedded], whose OS
    layer is LudOS's) and some programs.  This development models the parts of it that keep
    state and make decisions, as executable functions, and proves what they promise.

    ** The program and its model

    - _Memory of programs_: [libc/liballoc/liballoc.c] is the heap of the kernel and of the
      programs.  [Mem32] is the memory of the machine, byte by byte; [Liballoc] runs the
      allocator on it, with its regions and blocks in that memory.  [LiballocRep],
      [LiballocPlace], [LiballocProofs], [LiballocSearch], [LiballocMalloc], [LiballocFree] and
      [LiballocUse] relate the memory to lists of regions and blocks; [LiballocSpec] has the
      theorems: blocks are aligned, inside their region and apart from one another, [free]
      undoes [malloc], [realloc] moves the bytes, a double free is reported.
    - _Memory of the machine_: [BitArray] ([utils/bitarray.hpp], behind the class [BitSet]),
      [Paging] and [PagingProofs] ([i686/mem/paging.cpp]: page tables, virtual pages),
      [Memmap] ([i686/mem/mmap.cpp]), [PhysAlloc] ([i686/mem/physallocator.cpp], the memory
      map of the boot loader).
    - _Memory of the processes_: [AddressSpace] ([tasking/process_pagemapping.cpp], the loading of
      programs and the memory of [clone] in [i686/tasking/process.cpp]) runs on the page tables
      and the page allocator, with the bytes of physical memory.  [SpaceMemory] has the pages the
      kernel maps for a moment, [SpaceInv] the invariant, [SpaceLoad], [SpaceSwitch],
      [SpaceLife], [SpaceClone] and [SpaceUser] carry it through the operations; [SpaceSpec] has
      the theorems.
    - _Processes_: [DeltaQueue] ([utils/deltaqueue.hpp], the sleep queue), [Process]
      ([tasking/process.cpp], [tasking/scheduler.cpp], [i686/tasking/process.cpp] and the
      system calls on processes): the table of processes, descriptors, clone, signals, kill,
      wait and the scheduler are operations of a state-and-fault monad.  [ProcessProofs],
      [ProcessKill] and [ProcessInv] carry the invariant of the process tree through every
      operation; [ProcessSpec] has the theorems.
    - _Semaphores and threads_: [Semaphore] ([tasking/semaphore.cpp] as a step relation over
      interleaved threads), [PteOsal] (the OS layer of the thread library), [PteSem] (its POSIX
      semaphores) and [PteMutex] (its mutexes, as an interleaving of the steps of lock and
      unlock, over the kernel's semaphore: mutual exclusion, and progress of the waiters while
      no lock is timed).
    - _Storage and files_: [Disk] and [DiskProofs] ([drivers/storage/disk.cpp]: byte access
      over the class [SectorDevice], with memory disks and slices as instances), [DiskCache] and
      [DiskCacheProofs] ([drivers/storage/diskcache.cpp], over the same class), [Mbr]
      ([fs/mbr/mbr.cpp]: partitions as slices of a disk), [Pipe]
      ([fs/pipe.cpp]), [Paths] ([fs/pathutils.hpp], [utils/stlutils.hpp]), [Vfs] and
      [VfsProofs] ([fs/vfs.cpp], [fs/fsutils.cpp]: the tree, mount points, links, the search of
      a path by the kernel and by a program), [Ext2] and [Ext2Write] ([fs/ext2/]), with
      [Ext2Lemmas], [Ext2Dir], [Ext2Typed], [Ext2Blocks], [Ext2Proofs] and [Ext2Spec].  An ext2
      file system runs on any instance of the class [ByteDisk], which the disks over sectors
      are; its one shared block buffer is part of its state, and the spans that alias it are
      modelled as such.  [FileCalls] and [FileCallsProofs] ([syscalls/Linux/fs/]: open, read,
      write, seek, pipes and the directories of a process, and the links that go to their
      targets), over the class [Files] of the functions of a node and the laws [ReadLaws] of
      regular files.  [Tar] and [TarProofs] ([fs/tar/]: the archive, its nodes and their
      tree), which is an instance of both.
    - _Terminal_: [Utf8] ([kern/unicode/]), [Terminal] ([kern/terminal/]: the line being
      written, the history, escape codes, the title) over the class [Display] of its
      displays, whose laws are [DisplayBounds] (what a display may be asked to draw) and
      [DisplayCells] (what is then seen); [TerminalProofs] has the invariant of every
      operation, [TextScreen] the text mode of the VGA as an instance, [TerminalShow] what is
      on the screen.
    - _Keyboard and messages_: [MessageBus] ([libk++/include/messagebus.hpp]: handlers by type of
      event, which may send in turn), [Keyboard] ([drivers/kbd/] and
      [i686/pc/devices/ps2keyboard.cpp]: scan codes, positions, keys, characters, lights and the
      commands of [global_init.cpp], as handlers of the bus).
    - _Start_: [Env] ([utils/env.cpp]: the command line, and the level of the log), [Elf]
      ([kern/elf/]: the sections and symbols of the kernel).
    - _Time_: [Clock] and [ClockProofs] ([kern/time/], [i686/pc/devices/rtc.hpp]: dates, the
      clock of the board and the callbacks of the timer).
    - _C library and utilities_: [Errno], [Strerror], [Rand], [CString] (memory and string
      routines), [Strto] and [StrtoProofs] (numbers), [Strdup], [Crc32] ([utils/crc32.hpp] and
      [ipow]), [CircularBuffer]; [Printf] ([libc/stdio/printf.cpp]: the formatter over any sink,
      [snprintf], [fprintf]).  [PrintfProofs] says what a format means (its module [PrintfSpec]) and
      shows that this is what is printed, what the sinks do with it ([PrintfSinks]) and that
      printed numbers are read back by the functions of [Strto] ([PrintfParse]).  [StringView]
      ([libk++/include/kstring/kstring_view.tpp]) has the views of strings in memory, and [tokenize] over
      them.

    ** How it is modelled

    A machine integer is a [Z] with its wrap-around written out ([uwrap], [swrap]).  An
    operation returns an [outcome]: a value, or the [fault] that stops the kernel (a failed
    assertion, a panic, an access outside an object).  State is threaded by the monad [M].
    Shared memory is explicit: the heap, the physical memory, tables that are shared between
    processes, the block buffer of a file system.  Code that can be interleaved is a step
    relation or a turn-by-turn function, and its theorems quantify over the interleavings.

    Recursion that is not structural takes fuel, and [OutOfFuel] or an early end is the value
    of a fuel that was too small.  The theorems exclude it: the loop over the years of
    [from_unix] has 140 units, more than the years of a 32-bit time; [Tar.read_dir] needs one
    more unit than the archive has entries; the searches of [Liballoc] take
    [malloc_fuel], a unit per region and block, and are proved to end; [find_next_pid] has one
    unit per process; [kill] ends with one unit, as the default action of the signal it sends to
    the parent is to ignore it; [read_directory] one per byte (a record has at least 8), [ipow] 33 for
    exponents below 2^32, [tokenize] one per character; the formatter has one unit per character
    of the format, and its digit loops 65 and 66 for numbers below 2^64; events of the keyboard are nested
    three deep; [Vfs.find] and [Vfs.path] take fuel
    linear in the length of the path, stated in [find_path] and [user_find_spec];
    [Elf.string_at] takes the length of the longest name and one unit more.

    ** What the theorems show

    - Invariants: the process tree ([process_tree_invariant]), mutual exclusion, the safety of
      the semaphores, the rights behind every open descriptor of a node ([access_control]), the
      isolation of the memory of the processes from the boot on ([spaces_isolated]).
    - Bounds and termination: a terminal draws inside of its display while the cursor is not moved on lines
      as long as the screen ([terminal_in_bounds]), [snprintf] ends for every format and never writes outside
      of its buffer when the formatter gets through ([snprintf_in_bounds]), the loops of the calendar end ([from_unix_spec]), a callback of
      the timer runs once ([callback_runs_once]).
    - Functional behaviour, with the errors: the allocators, the scheduler and the end of
      processes, clone, mapping of pages, writes to disks, the allocation of ext2 blocks, the
      blocks of ext2 files ([data_block_spec]), reads of a mounted archive ([tar_seek_then_read]), the
      search of paths, the cells of the screen that show a page of the history, the text of
      formats, what is typed and lit after any bytes of the keyboard ([typing_spec]), partitions,
      the symbol of an address.
    - Round trips: inodes and directories of ext2, paths of nodes, printed numbers, archives, UTF-8,
      dates, the command line.
    - Refinement and equivalence: a cached disk as a disk, the tokens of a string in memory as those of
      its list of characters ([tokenize_refines]), the table-driven checksum, the sleep queue as a sorted list,
      pipes as queues of messages that are read one by one, the circular buffer.
    - Where the code does not do what it means to, the theorem states what it does: a killed
      sleeper stops the kernel, and so does a killed task of the kernel (in [process_tree_invariant]); a second signal to a zombie
      ([second_kill_steals_child]), timed locks ([timed_lock_loses_wakeup]), links to files without rights
      ([link_bypasses_rights]), runs of pages over the end of a region (in [alloc_virtual_page_spec]), the first terminal
      ([null_terminal_off_screen]), [.] and [..] in the path of a program, ext2 directories of more
      than a block, ext2 writes behind a table of blocks, [fprintf] of long texts, a second mapping
      of the keyboard, half a signature of a boot record, searches of string views.

    ** What is not modelled

    The other drivers, interrupts, task switches and the set-up of the processor act on hardware and are
    assembly in part.  The shell and the logs are output.  Vendored code (libc++, ACPICA, the
    emulator, images) is only called.  [Time::epoch] is an argument; [is_power_of], which
    compares floating-point logarithms, is a parameter of [Ext2Write], and so is the text of a
    [double] of [Printf]: the precision of [ftoa] in x87 registers depends on the compiler.  What a handler does
    with a line of the terminal is not followed.  The file systems of devices and processes,
    and the rest of the thread library (conditions, barriers, read-write locks) are left; so are the resizing of ext2 files and the superblock copies, whose operations
    are defined but have only the theorem on types.

    This file: machine integers, outcomes, the state-and-fault monad, and shared lemmas. *)
From stdpp Require Import base list gmap strings.
From Stdlib Require Import ZArith Lia.

Open Scope Z_scope.

(** ** Machine integers

    A [w]-bit unsigned integer is a [Z] in [[0, 2^w)]; the C conversions are
    written out as reductions modulo [2^w]. *)

Definition uwrap (w z : Z) : Z := z mod 2 ^ w.
Definition swrap (w z : Z) : Z := (z + 2 ^ (w - 1)) mod 2 ^ w - 2 ^ (w - 1).

Declare Scope ludos_scope.
Delimit Scope ludos_scope with ludos.
Abbreviation u8 := (uwrap 8).
Abbreviation u16 := (uwrap 16).
Abbreviation u32 := (uwrap 32).
Abbreviation u64 := (uwrap 64).
Abbreviation s8 := (swrap 8).
Abbreviation s32 := (swrap 32).
Abbreviation s64 := (swrap 64).
Open Scope ludos_scope.

(** C truth values of integers. *)
Definition Ztrue (z : Z) : bool := negb (z =? 0).
Definition b2z (b : bool) : Z := if b then 1 else 0.

(** ** Outcomes

    A kernel operation either returns or stops the machine: a failed [assert],
    a [panic], an access outside the storage the model gives an object.
    [OutOfFuel] is not a behaviour of the code: it is the value of a loop whose
    bound was too small, and the theorems about loops exclude it. *)

Inductive fault : Type :=
  | AssertFailed
  | Panic
  | BadAccess
  | OutOfFuel.

#[export] Instance fault_eq_dec : EqDecision fault.
Proof. solve_decision. Defined.

Inductive outcome (A : Type) : Type :=
  | Done (a : A)
  | Fault (f : fault).
Arguments Done {A} a.
Arguments Fault {A} f.

#[export] Instance outcome_eq_dec {A} `{EqDecision A} : EqDecision (outcome A).
Proof. solve_decision. Defined.

#[export] Instance outcome_ret : MRet outcome := fun A a => Done a.
#[export] Instance outcome_bind : MBind outcome :=
  fun A B k m => match m with Done a => k a | Fault f => Fault f end.

(** The outcome of an operation that the code is known to finish. *)
Definition completes {A} (o : outcome A) : Prop := exists a, o = Done a.

(** ** The state-and-fault monad *)

Definition M (S A : Type) : Type := S -> outcome (A * S).

#[export] Instance M_ret {S} : MRet (M S) := fun A a s => Done (a, s).
#[export] Instance M_bind {S} : MBind (M S) :=
  fun A B k m s => match m s with Done (a, s') => k a s' | Fault f => Fault f end.

Definition get {S} : M S S := fun s => Done (s, s).
Definition gets {S A} (f : S -> A) : M S A := fun s => Done (f s, s).
Definition put {S} (s : S) : M S unit := fun _ => Done (tt, s).
Definition modify {S} (f : S -> S) : M S unit := fun s => Done (tt, f s).
Definition fail {S A} (f : fault) : M S A := fun _ => Fault f.

(** [assert(b)] of the source: the kernel stops when [b] is false. *)
Definition assert_ {S} (b : bool) : M S unit := if b then mret tt else fail AssertFailed.
Definition when {S} (b : bool) (m : M S unit) : M S unit := if b then m else mret tt.

(** [for (x : l) body]. *)
Fixpoint for_each {S A} (l : list A) (body : A -> M S unit) : M S unit :=
  match l with
  | [] => mret tt
  | x :: l' => body x ;; for_each l' body
  end.

(** [for (x : l) body] whose body may [return r]: [Some r] leaves the loop. *)
Fixpoint for_ret {S A R} (l : list A) (body : A -> M S (option R)) : M S (option R) :=
  match l with
  | [] => mret None
  | x :: l' => r ← body x; match r with Some v => mret (Some v) | None => for_ret l' body end
  end.

(** ** Lemmas on machine integers *)

Lemma uwrap_small w z : 0 <= z < 2 ^ w -> uwrap w z = z.
Proof. apply Z.mod_small. Qed.

Lemma uwrap_range w z : 0 <= w -> 0 <= uwrap w z < 2 ^ w.
Proof. intros. apply Z.mod_pos_bound, Z.pow_pos_nonneg; lia. Qed.

Lemma uwrap_idem w z : uwrap w (uwrap w z) = uwrap w z.
Proof. unfold uwrap. apply Z.mod_mod_divide, Z.divide_refl. Qed.

Lemma swrap_small w z : 0 < w -> - 2 ^ (w - 1) <= z < 2 ^ (w - 1) -> swrap w z = z.
Proof.
  intros Hw Hz. unfold swrap.
  assert (2 ^ w = 2 * 2 ^ (w - 1)) as E.
  { replace w with (1 + (w - 1)) at 1 by lia. by rewrite Z.pow_add_r by lia. }
  rewrite Z.mod_small; lia.
Qed.

Lemma swrap_range w z : 0 < w -> - 2 ^ (w - 1) <= swrap w z < 2 ^ (w - 1).
Proof.
  intros Hw. unfold swrap.
  assert (2 ^ w = 2 * 2 ^ (w - 1)) as E.
  { replace w with (1 + (w - 1)) at 1 by lia. by rewrite Z.pow_add_r by lia. }
  assert (0 < 2 ^ (w - 1)) by (apply Z.pow_pos_nonneg; lia).
  pose proof (Z.mod_pos_bound (z + 2 ^ (w - 1)) (2 ^ w)). lia.
Qed.

(** Rewrite away the wrap-arounds of values [lia] knows to be in range. *)
Ltac usimp :=
  repeat match goal with
    | |- context [uwrap ?w ?z] => rewrite (uwrap_small w z) by lia
    | |- context [swrap ?w ?z] => rewrite (swrap_small w z) by lia
    end.
Tactic Notation "usimp" "in" hyp(H) :=
  repeat match type of H with
    | context [uwrap ?w ?z] => rewrite (uwrap_small w z) in H by lia
    | context [swrap ?w ?z] => rewrite (swrap_small w z) in H by lia
    end.

(** ** Lemmas on lists *)

Lemma filter_none {A} (P : A -> Prop) `{!forall x, Decision (P x)} (l : list A) :
  Forall (fun x => ¬ P x) l -> filter P l = [].
Proof. induction 1; [done|]. by rewrite filter_cons_False. Qed.

Lemma filter_all {A} (P : A -> Prop) `{!forall x, Decision (P x)} (l : list A) :
  Forall P l -> filter P l = l.
Proof. induction 1; [done|]. rewrite filter_cons_True by done. by f_equal. Qed.

(** ** Running the monad, one step at a time *)

Lemma run_ret {S A} (a : A) (s : S) : (mret a : M S A) s = Done (a, s).
Proof. reflexivity. Qed.

Lemma run_bind_ret {S A B} (a : A) (k : A -> M S B) s : (mret a ≫= k) s = k a s.
Proof. reflexivity. Qed.

Lemma run_bind_gets {S A B} (f : S -> A) (k : A -> M S B) s : (gets f ≫= k) s = k (f s) s.
Proof. reflexivity. Qed.

Lemma run_bind_modify {S B} (f : S -> S) (k : unit -> M S B) s : (modify f ≫= k) s = k tt (f s).
Proof. reflexivity. Qed.

Lemma run_bind_bind {S A B C} (m : M S A) (f : A -> M S B) (k : B -> M S C) s :
  ((m ≫= f) ≫= k) s = (m ≫= (fun a => f a ≫= k)) s.
Proof. unfold mbind, M_bind. by destruct (m s) as [[? ?]|?]. Qed.

Lemma bind_done {S A B} (m : M S A) (k : A -> M S B) s b s' :
  (m ≫= k) s = Done (b, s') -> exists a s1, m s = Done (a, s1) /\ k a s1 = Done (b, s').
Proof. unfold mbind, M_bind. destruct (m s) as [[a s1]|]; [eauto|done]. Qed.

Lemma run_bind_done {S A B} (m : M S A) (k : A -> M S B) s a s' :
  m s = Done (a, s') -> (m ≫= k) s = k a s'.
Proof. unfold mbind, M_bind. by intros ->. Qed.

Lemma run_bind_ext {S A B} (m : M S A) (k1 k2 : A -> M S B) s :
  (forall a s', k1 a s' = k2 a s') -> (m ≫= k1) s = (m ≫= k2) s.
Proof. intros H. unfold mbind, M_bind. by destruct (m s) as [[? ?]|?]. Qed.

Lemma run_bind_fault {S A B} (m : M S A) (k : A -> M S B) s f :
  m s = Fault f -> (m ≫= k) s = Fault f.
Proof. unfold mbind, M_bind. by intros ->. Qed.

Lemma run_when_true {S B} (m : M S unit) (k : unit -> M S B) s : (when true m ≫= k) s = (m ≫= k) s.
Proof. reflexivity. Qed.

Lemma run_when_false {S B} (m : M S unit) (k : unit -> M S B) s : (when false m ≫= k) s = k tt s.
Proof. reflexivity. Qed.

Lemma run_assert_true {S B} (k : unit -> M S B) s : (assert_ true ≫= k) s = k tt s.
Proof. reflexivity. Qed.
