(* ===== verification/Mem32.v ===== *)
(** * Mem32: byte-addressed memory of the 32-bit machine

    The memory the C code reads and writes through pointers: a map from
    addresses to bytes, with little-endian 32-bit loads and stores.  A byte the
    map does not hold reads as 0; no theorem depends on that value. *)
From stdpp Require Import base gmap list.
From Stdlib Require Import ZArith Lia.
From S2P Require Import Prelude.

Abbreviation memory := (gmap Z Z).

Definition load8 (m : memory) (a : Z) : Z := u8 (default 0 (m !! a)).
Definition store8 (m : memory) (a v : Z) : memory := <[a := u8 v]> m.

Definition load32 (m : memory) (a : Z) : Z :=
  load8 m a + 2 ^ 8 * load8 m (a + 1) + 2 ^ 16 * load8 m (a + 2) + 2 ^ 24 * load8 m (a + 3).
Definition store32 (m : memory) (a v : Z) : memory :=
  store8 (store8 (store8 (store8 m a v) (a + 1) (v / 2 ^ 8)) (a + 2) (v / 2 ^ 16)) (a + 3) (v / 2 ^ 24).

(** [m'] and [m] hold the same bytes on [[lo, hi)]. *)
Definition agree_on (m m' : memory) (lo hi : Z) : Prop :=
  forall a, lo <= a < hi -> load8 m' a = load8 m a.

(** [m'] and [m] hold the same bytes outside [[lo, hi)]. *)
Definition agree_off (m m' : memory) (lo hi : Z) : Prop :=
  forall a, a < lo \/ hi <= a -> load8 m' a = load8 m a.

Lemma load8_store8_eq m a v : load8 (store8 m a v) a = u8 v.
Proof. unfold load8, store8. rewrite lookup_insert_eq. apply uwrap_idem. Qed.

Lemma load8_range m a : 0 <= load8 m a < 256.
Proof. unfold load8. by apply (uwrap_range 8). Qed.

Lemma load8_store8_ne m a b v : a <> b -> load8 (store8 m a v) b = load8 m b.
Proof. intros. unfold load8, store8. by rewrite lookup_insert_ne. Qed.

Lemma load8_store32_ne m a b v : b < a \/ a + 4 <= b -> load8 (store32 m a v) b = load8 m b.
Proof. intros. unfold store32. by rewrite !load8_store8_ne by lia. Qed.

Lemma load32_store32_eq m a v : 0 <= v < 2 ^ 32 -> load32 (store32 m a v) a = v.
Proof.
  intros Hv. unfold load32, store32.
  rewrite load8_store8_eq.
  rewrite (load8_store8_ne _ (a + 3) (a + 2)), load8_store8_eq by lia.
  rewrite (load8_store8_ne _ (a + 3) (a + 1)), (load8_store8_ne _ (a + 2) (a + 1)), load8_store8_eq by lia.
  rewrite (load8_store8_ne _ (a + 3) a), (load8_store8_ne _ (a + 2) a), (load8_store8_ne _ (a + 1) a), load8_store8_eq by lia.
  unfold uwrap. Z.div_mod_to_equations. lia.
Qed.

Lemma load32_store32_ne m a b v : b + 4 <= a \/ a + 4 <= b -> load32 (store32 m a v) b = load32 m b.
Proof. intros. unfold load32. by rewrite !load8_store32_ne by lia. Qed.

Lemma load32_agree_on m m' lo hi a :
  agree_on m m' lo hi -> lo <= a -> a + 4 <= hi -> load32 m' a = load32 m a.
Proof. intros H ??. unfold load32. by rewrite !H by lia. Qed.

Lemma agree_on_store32 m a v lo hi : a + 4 <= lo \/ hi <= a -> agree_on m (store32 m a v) lo hi.
Proof. intros ? b ?. apply load8_store32_ne. lia. Qed.

Lemma agree_on_refl m lo hi : agree_on m m lo hi.
Proof. by intros a ?. Qed.

Lemma agree_on_trans m1 m2 m3 lo hi :
  agree_on m1 m2 lo hi -> agree_on m2 m3 lo hi -> agree_on m1 m3 lo hi.
Proof. intros H1 H2 a Ha. by rewrite H2, H1. Qed.

Lemma agree_on_sub m m' lo hi lo' hi' :
  agree_on m m' lo hi -> lo <= lo' -> hi' <= hi -> agree_on m m' lo' hi'.
Proof. intros H ?? a ?. apply H. lia. Qed.

Lemma agree_off_on m m' lo hi lo' hi' :
  agree_off m m' lo hi -> hi' <= lo \/ hi <= lo' -> agree_on m m' lo' hi'.
Proof. intros H ? a ?. apply H. lia. Qed.

Create HintDb mem.
#[export] Hint Resolve agree_on_refl : mem.
