(* ===== verification/DeltaQueue.v ===== *)
(** * DeltaQueue: the queue of relative deadlines behind [sleep]

    Models [kern/utils/deltaqueue.hpp].  The queue stores, for each element,
    the delay that separates it from its predecessor; the abstract view
    ([deadlines]) is the list of absolute deadlines.  The theorems say that
    [insert] is insertion into the sorted list of deadlines (after the elements
    with the same deadline) and that [decrease] removes exactly the elements
    whose deadline has passed. *)
From stdpp Require Import base list sets.
From Stdlib Require Import ZArith Lia Sorted.
From S2P Require Import Prelude.

Module DeltaQueue.
Section Queue.
Context {T : Type}.

(** [std::list<std::pair<T, S>> m_list], with [S = uint64_t]. *)
Abbreviation delta_list := (list (T * Z)).

(** [decrease(duration)]: the elements handed to [m_pop_callback], in order,
    and the list left.  [duration >= 0] always holds (unsigned); the [return]
    of the loop is taken exactly when the front was not popped. *)
Fixpoint decrease (m_list : delta_list) (duration : Z) : list T * delta_list :=
  match m_list with
  | [] => ([], [])
  | (el, old_value) :: rest =>
      if old_value <=? duration then
        let (popped, left) := decrease rest (u64 (duration - old_value)) in
        (el :: popped, left)
      else ([], (el, u64 (old_value - duration)) :: rest)
  end.

(** [insert(el, sleep_duration)]: walk past the entries whose delay fits in the
    remaining duration, emplace, and shorten the delay of the next entry. *)
Fixpoint insert (el : T) (sleep_duration : Z) (m_list : delta_list) : delta_list :=
  match m_list with
  | [] => [(el, sleep_duration)]
  | (x, d) :: rest =>
      if sleep_duration <? d
      then (el, sleep_duration) :: (x, u64 (d - sleep_duration)) :: rest
      else (x, d) :: insert el (u64 (sleep_duration - d)) rest
  end.

(** [find(el)]. *)
Fixpoint find `{EqDecision T} (el : T) (m_list : delta_list) : bool :=
  match m_list with
  | [] => false
  | (x, _) :: rest => if decide (x = el) then true else find el rest
  end.

(** [elements()]. *)
Definition elements (m_list : delta_list) : list T := map fst m_list.

(** ** Abstract view *)

(** The absolute deadline of every element, counted from [base]. *)
Fixpoint deadlines (base : Z) (l : delta_list) : delta_list :=
  match l with
  | [] => []
  | (x, d) :: rest => (x, base + d) :: deadlines (base + d) rest
  end.

Definition due (t : Z) (p : T * Z) : Prop := p.2 <= t.
#[export] Instance due_dec t p : Decision (due t p).
Proof. unfold due. apply _. Defined.

(** Every stored delay is a value of [uint64_t]. *)
Definition wf (l : delta_list) : Prop := Forall (fun p => 0 <= p.2 < 2 ^ 64) l.

(** ** Lemmas *)

Lemma deadlines_ge base l p : wf l -> p ∈ deadlines base l -> base <= p.2.
Proof.
  intros Hwf. revert base. induction Hwf as [|[x d] l Hd Hl IH]; intros base Hp; simpl in *.
  - set_solver.
  - apply elem_of_cons in Hp as [-> | Hp]; simpl; [lia|]. specialize (IH _ Hp). lia.
Qed.

Lemma deadlines_none_due base t l :
  wf l -> t < base -> filter (due t) (deadlines base l) = [].
Proof.
  intros Hwf Ht. apply filter_none, Forall_forall. intros p Hp.
  pose proof (deadlines_ge _ _ _ Hwf Hp). unfold due. lia.
Qed.

Lemma deadlines_all_late base t l :
  wf l -> t < base -> filter (fun p => ¬ due t p) (deadlines base l) = deadlines base l.
Proof.
  intros Hwf Ht. apply filter_all, Forall_forall. intros p Hp.
  pose proof (deadlines_ge _ _ _ Hwf Hp). unfold due. lia.
Qed.

Lemma deadlines_shift base k l :
  deadlines (base + k) l = (fun p => (p.1, p.2 + k)) <$> deadlines base l.
Proof.
  revert base. induction l as [|[x d] l IH]; intros base; [done|]. simpl.
  rewrite <- IH. f_equal; [f_equal; lia | f_equal; lia].
Qed.

Lemma deadlines_elements base l : map fst (deadlines base l) = elements l.
Proof.
  revert base. induction l as [|[x d] l IH]; intros base; [done|]. simpl. by rewrite IH.
Qed.

Lemma insert_wf el t l : wf l -> 0 <= t < 2 ^ 64 -> wf (insert el t l).
Proof.
  intros Hwf. revert t. induction Hwf as [|[x d] l Hd Hl IH]; intros t Ht; simpl in *.
  - by apply Forall_singleton.
  - destruct (Z.ltb_spec t d).
    + constructor; [done|]. constructor; [|done]. apply uwrap_range. lia.
    + constructor; [done|]. apply IH. apply uwrap_range. lia.
Qed.

Lemma decrease_wf l t : wf l -> wf (decrease l t).2.
Proof.
  intros Hwf. revert t.
  induction Hwf as [|[x d] l Hd Hl IH]; intros t; simpl in *; [constructor|].
  destruct (d <=? t).
  - specialize (IH (u64 (t - d))). by destruct (decrease l (u64 (t - d))).
  - constructor; [|done]. apply uwrap_range. lia.
Qed.

Lemma insert_deadlines base el t l :
  wf l -> 0 <= t < 2 ^ 64 ->
  deadlines base (insert el t l) =
    filter (due (base + t)) (deadlines base l) ++
    (el, base + t) :: filter (fun p => ¬ due (base + t) p) (deadlines base l).
Proof.
  intros Hwf. revert base t.
  induction Hwf as [|[x d] l Hd Hl IH]; intros base t Ht; [done|]; simpl in *.
  destruct (Z.ltb_spec t d); simpl.
  - usimp. rewrite filter_cons_False by (unfold due; simpl; lia).
    rewrite filter_cons_True by (unfold due; simpl; lia).
    rewrite deadlines_none_due, deadlines_all_late by (done || lia). simpl.
    do 2 f_equal; [f_equal; lia | f_equal; lia].
  - usimp. rewrite filter_cons_True by (unfold due; simpl; lia).
    rewrite filter_cons_False by (unfold due; simpl; lia).
    rewrite IH by lia. replace (base + d + (t - d)) with (base + t) by lia. done.
Qed.

Lemma decrease_deadlines base t l :
  wf l -> 0 <= t < 2 ^ 64 ->
  (decrease l t).1 = map fst (filter (due (base + t)) (deadlines base l)) /\
  deadlines (base + t) (decrease l t).2 =
    filter (fun p => ¬ due (base + t) p) (deadlines base l).
Proof.
  intros Hwf. revert base t.
  induction Hwf as [|[x d] l Hd Hl IH]; intros base t Ht; [done|]; simpl in *.
  destruct (Z.leb_spec d t); simpl.
  - usimp. rewrite filter_cons_True by (unfold due; simpl; lia).
    rewrite filter_cons_False by (unfold due; simpl; lia).
    destruct (IH (base + d) (t - d)) as [IH1 IH2]; [lia|].
    replace (base + d + (t - d)) with (base + t) in IH1, IH2 by lia.
    destruct (decrease l (t - d)). simpl in *. by rewrite IH1, IH2.
  - usimp. rewrite filter_cons_False by (unfold due; simpl; lia).
    rewrite filter_cons_True by (unfold due; simpl; lia).
    rewrite deadlines_none_due, deadlines_all_late by (done || lia). simpl.
    split; [done|]. f_equal; [f_equal; lia | f_equal; lia].
Qed.

Lemma decrease_split l t1 t2 :
  wf l -> 0 <= t1 -> 0 <= t2 -> t1 + t2 < 2 ^ 64 ->
  decrease l (t1 + t2) =
    let (p1, l1) := decrease l t1 in
    let (p2, l2) := decrease l1 t2 in (p1 ++ p2, l2).
Proof.
  intros Hwf. revert t1 t2.
  induction Hwf as [|[x d] l Hd Hl IH]; intros t1 t2 H1 H2 H3; [done|]. simpl in *.
  destruct (Z.leb_spec d t1).
  - rewrite (proj2 (Z.leb_le d (t1 + t2))) by lia.
    usimp. replace (t1 + t2 - d) with ((t1 - d) + t2) by lia.
    rewrite IH by lia. destruct (decrease l (t1 - d)) as [p1 l1].
    by destruct (decrease l1 t2).
  - usimp. simpl. destruct (Z.leb_spec (d - t1) t2).
    + rewrite (proj2 (Z.leb_le d (t1 + t2))) by lia. usimp.
      replace (t2 - (d - t1)) with (t1 + t2 - d) by lia. by destruct (decrease l _).
    + rewrite (proj2 (Z.leb_gt d (t1 + t2))) by lia. usimp. do 3 f_equal. lia.
Qed.

(** [insert] is insertion into the list of absolute deadlines: the
    new element goes after every element that is due at the same time or
    before and in front of the later ones, and no other deadline moves. *)
Theorem insert_is_sorted_insertion (el : T) (t : Z) (l : delta_list) :
  wf l -> 0 <= t < 2 ^ 64 ->
  wf (insert el t l) /\
  deadlines 0 (insert el t l) =
    filter (due t) (deadlines 0 l) ++ (el, t) :: filter (fun p => ¬ due t p) (deadlines 0 l).
Proof. intros Hwf Ht. split; [by apply insert_wf | by apply (insert_deadlines 0)]. Qed.

(** C40: [decrease(t)] pops exactly the elements whose deadline is at
    most [t], in deadline order, leaves the others with their deadlines moved
    by [t], and two successive ticks act like one tick of the summed length. *)
Theorem decrease_pops_due (l : delta_list) (t1 t2 : Z) :
  wf l -> 0 <= t1 -> 0 <= t2 -> t1 + t2 < 2 ^ 64 ->
  (decrease l t1).1 = map fst (filter (due t1) (deadlines 0 l)) /\
  deadlines t1 (decrease l t1).2 = filter (fun p => ¬ due t1 p) (deadlines 0 l) /\
  decrease l (t1 + t2) =
    ((decrease l t1).1 ++ (decrease (decrease l t1).2 t2).1,
     (decrease (decrease l t1).2 t2).2).
Proof.
  intros Hwf H1 H2 H3.
  destruct (decrease_deadlines 0 t1 l) as [D1 D2]; [done|lia|].
  split_and!; [done|done|]. rewrite decrease_split by done.
  destruct (decrease l t1) as [p1 l1]. simpl. by destruct (decrease l1 t2).
Qed.
End Queue.

(** ** Witnesses *)

Definition sample_queue : list (nat * Z) := [(1%nat, 5); (2%nat, 0); (3%nat, 7)].

Lemma sample_queue_wf : wf sample_queue.
Proof. repeat (constructor; [simpl; lia|]). constructor. Qed.

Lemma insert_is_sorted_insertion_witness :
  wf (insert 9%nat 5 sample_queue) /\
  deadlines 0 (insert 9%nat 5 sample_queue) =
    [(1%nat, 5); (2%nat, 5); (9%nat, 5); (3%nat, 12)].
Proof.
  destruct (insert_is_sorted_insertion 9%nat 5 sample_queue) as [H E];
    [apply sample_queue_wf | lia |].
  split; [exact H |]. rewrite E. reflexivity.
Defined.

Lemma decrease_pops_due_witness :
  (decrease sample_queue 6).1 = [1%nat; 2%nat] /\
  decrease sample_queue (6 + 6) = ([1%nat; 2%nat; 3%nat], []).
Proof.
  destruct (decrease_pops_due sample_queue 6 6) as (P & _ & E);
    [apply sample_queue_wf | lia | lia | lia |].
  split; [rewrite P; reflexivity | rewrite E; reflexivity].
Defined.
End DeltaQueue.
