(* ===== verification/Liballoc.v ===== *)
(** * Liballoc: the kernel and userland heap allocator

    Models [libc/liballoc/liballoc.c] over the byte memory of [Mem32]: the
    [liballoc_major] and [liballoc_minor] headers are the six 32-bit words the C
    structures are, the linked lists are links in memory, and the arithmetic
    on sizes and pointers is the 32-bit arithmetic of the code.  The pages come
    from the hooks of [liballoc.h], the interface [PageSource]. *)
From stdpp Require Import base gmap list.
From Stdlib Require Import ZArith Lia.
From S2P Require Import Prelude Mem32.

(** ** The hooks [liballoc_alloc] and [liballoc_free]

    [os_alloc] may change the bytes of the pages it hands out (the kernel fills
    them with a pattern), nothing else; it returns 0 for NULL. *)
Class PageSource (OS : Type) := {
  os_alloc : Z -> memory -> OS -> outcome (Z * memory * OS);
  os_free : Z -> Z -> memory -> OS -> outcome (memory * OS);
  os_regions : OS -> list (Z * Z);
  os_wf : OS -> Prop;
}.

Definition page_bytes (pages : Z) : Z := pages * 4096.

Definition regions_disjoint (r1 r2 : Z * Z) : Prop :=
  r1.1 + page_bytes r1.2 <= r2.1 \/ r2.1 + page_bytes r2.2 <= r1.1.

(** What [liballoc.h] promises of the hooks. *)
Class PageSourceLaws (OS : Type) `{PageSource OS} := {
  os_alloc_ok pages m s a m' s' :
    os_wf s -> 0 < pages < 2 ^ 20 -> os_alloc pages m s = Done (a, m', s') ->
    os_wf s' /\
    ((a = 0 /\ m' = m /\ os_regions s' = os_regions s) \/
     (0 < a /\ a mod 4096 = 0 /\ a + page_bytes pages < 2 ^ 32 /\
      Forall (regions_disjoint (a, pages)) (os_regions s) /\
      os_regions s' ≡ₚ (a, pages) :: os_regions s /\
      agree_off m m' a (a + page_bytes pages)));
  os_alloc_fault pages m s f :
    os_wf s -> 0 < pages < 2 ^ 20 -> os_alloc pages m s = Fault f -> f = Panic;
  os_free_ok a pages m s rest :
    os_wf s -> os_regions s ≡ₚ (a, pages) :: rest ->
    exists m' s', os_free a pages m s = Done (m', s') /\ os_wf s' /\
      os_regions s' ≡ₚ rest /\ agree_off m m' a (a + page_bytes pages);
}.

Module Liballoc.

(** ** Constants and layout *)

Definition ALIGN_INFO : Z := 16.
Definition LIBALLOC_MAGIC : Z := 0xc001c0de.
Definition LIBALLOC_DEAD : Z := 0xdeaddead.
Definition l_pageSize : Z := 4096.
Definition l_pageCount : Z := 16.

(** [sizeof(struct liballoc_major)] and [sizeof(struct liballoc_minor)]. *)
Definition sizeof_major : Z := 24.
Definition sizeof_minor : Z := 24.

(** Offsets of the fields of [struct liballoc_major]. *)
Inductive major_field := Mj_prev | Mj_next | Mj_pages | Mj_size | Mj_usage | Mj_first.
Definition major_off (f : major_field) : Z :=
  match f with
  | Mj_prev => 0 | Mj_next => 4 | Mj_pages => 8
  | Mj_size => 12 | Mj_usage => 16 | Mj_first => 20
  end.

(** Offsets of the fields of [struct liballoc_minor]. *)
Inductive minor_field := Mn_prev | Mn_next | Mn_block | Mn_magic | Mn_size | Mn_req_size.
Definition minor_off (f : minor_field) : Z :=
  match f with
  | Mn_prev => 0 | Mn_next => 4 | Mn_block => 8
  | Mn_magic => 12 | Mn_size => 16 | Mn_req_size => 20
  end.

Section Allocator.
Context {OS : Type} `{PageSource OS}.

(** The static variables of liballoc.c, the memory and the page source. *)
Record heap := mkHeap {
  mem : memory;
  l_memRoot : Z;
  l_bestBet : Z;
  l_allocated : Z;
  l_inuse : Z;
  l_max_inuse : Z;
  l_warningCount : Z;
  l_errorCount : Z;
  l_possibleOverruns : Z;
  l_locked : bool;
  l_os : OS;
}.

Definition set_mem (f : memory -> memory) (h : heap) : heap :=
  mkHeap (f (mem h)) (l_memRoot h) (l_bestBet h) (l_allocated h) (l_inuse h) (l_max_inuse h)
    (l_warningCount h) (l_errorCount h) (l_possibleOverruns h) (l_locked h) (l_os h).
Definition set_root (v : Z) (h : heap) : heap :=
  mkHeap (mem h) v (l_bestBet h) (l_allocated h) (l_inuse h) (l_max_inuse h)
    (l_warningCount h) (l_errorCount h) (l_possibleOverruns h) (l_locked h) (l_os h).
Definition set_best (v : Z) (h : heap) : heap :=
  mkHeap (mem h) (l_memRoot h) v (l_allocated h) (l_inuse h) (l_max_inuse h)
    (l_warningCount h) (l_errorCount h) (l_possibleOverruns h) (l_locked h) (l_os h).
Definition set_allocated (v : Z) (h : heap) : heap :=
  mkHeap (mem h) (l_memRoot h) (l_bestBet h) v (l_inuse h) (l_max_inuse h)
    (l_warningCount h) (l_errorCount h) (l_possibleOverruns h) (l_locked h) (l_os h).
Definition set_inuse (v : Z) (h : heap) : heap :=
  mkHeap (mem h) (l_memRoot h) (l_bestBet h) (l_allocated h) v (l_max_inuse h)
    (l_warningCount h) (l_errorCount h) (l_possibleOverruns h) (l_locked h) (l_os h).
Definition set_max_inuse (v : Z) (h : heap) : heap :=
  mkHeap (mem h) (l_memRoot h) (l_bestBet h) (l_allocated h) (l_inuse h) v
    (l_warningCount h) (l_errorCount h) (l_possibleOverruns h) (l_locked h) (l_os h).
Definition set_counts (w e o : Z) (h : heap) : heap :=
  mkHeap (mem h) (l_memRoot h) (l_bestBet h) (l_allocated h) (l_inuse h) (l_max_inuse h)
    w e o (l_locked h) (l_os h).
Definition set_locked (b : bool) (h : heap) : heap :=
  mkHeap (mem h) (l_memRoot h) (l_bestBet h) (l_allocated h) (l_inuse h) (l_max_inuse h)
    (l_warningCount h) (l_errorCount h) (l_possibleOverruns h) b (l_os h).
Definition set_mem_os (m : memory) (s : OS) (h : heap) : heap :=
  mkHeap m (l_memRoot h) (l_bestBet h) (l_allocated h) (l_inuse h) (l_max_inuse h)
    (l_warningCount h) (l_errorCount h) (l_possibleOverruns h) (l_locked h) s.

(** Loads and stores through pointers. *)
Definition ld (a : Z) : M heap Z := gets (fun h => load32 (mem h) a).
Definition st (a v : Z) : M heap unit := modify (set_mem (fun m => store32 m a v)).
Definition maj_get (a : Z) (f : major_field) : M heap Z := ld (a + major_off f).
Definition maj_set (a : Z) (f : major_field) (v : Z) : M heap unit := st (a + major_off f) v.
Definition min_get (a : Z) (f : minor_field) : M heap Z := ld (a + minor_off f).
Definition min_set (a : Z) (f : minor_field) (v : Z) : M heap unit := st (a + minor_off f) v.

Definition warning : M heap unit :=
  modify (fun h => set_counts (s64 (l_warningCount h + 1)) (l_errorCount h) (l_possibleOverruns h) h).

(** [liballoc_lock] and [liballoc_unlock]: the lock is not recursive, taking it
    twice never returns. *)
Definition liballoc_lock : M heap unit :=
  b ← gets l_locked; if (b : bool) then fail OutOfFuel else modify (set_locked true).
Definition liballoc_unlock : M heap unit := modify (set_locked false).

(** The hook calls. *)
Definition liballoc_alloc (pages : Z) : M heap Z := fun h =>
  match os_alloc pages (mem h) (l_os h) with
  | Done (a, m, s) => Done (a, set_mem_os m s h)
  | Fault f => Fault f
  end.
Definition liballoc_free (a pages : Z) : M heap unit := fun h =>
  match os_free a pages (mem h) (l_os h) with
  | Done (m, s) => Done (tt, set_mem_os m s h)
  | Fault f => Fault f
  end.

(** ** Helper functions *)

(** [liballoc_memset(s, c, n)]; a write through NULL faults. *)
Fixpoint memset_bytes (n : nat) (s c : Z) (m : memory) : memory :=
  match n with
  | O => m
  | S k => memset_bytes k (s + 1) c (store8 m s c)
  end.
Definition liballoc_memset (s c n : Z) : M heap unit :=
  if (s =? 0) && (0 <? n) then fail BadAccess
  else modify (set_mem (memset_bytes (Z.to_nat n) s c)).

(** [liballoc_memcpy(s1, s2, n)]: whole words, then the remaining bytes. *)
Fixpoint memcpy_words (k : nat) (dest src : Z) (m : memory) : memory :=
  match k with
  | O => m
  | S k' => memcpy_words k' (dest + 4) (src + 4) (store32 m dest (load32 m src))
  end.
Fixpoint memcpy_bytes (k : nat) (dest src : Z) (m : memory) : memory :=
  match k with
  | O => m
  | S k' => memcpy_bytes k' (dest + 1) (src + 1) (store8 m dest (load8 m src))
  end.
Definition memcpy_mem (s1 s2 n : Z) (m : memory) : memory :=
  let w := n / 4 in
  memcpy_bytes (Z.to_nat (n mod 4)) (s1 + 4 * w) (s2 + 4 * w)
    (memcpy_words (Z.to_nat w) s1 s2 m).
Definition liballoc_memcpy (s1 s2 n : Z) : M heap unit :=
  if ((s1 =? 0) || (s2 =? 0)) && (0 <? n) then fail BadAccess
  else modify (set_mem (memcpy_mem s1 s2 n)).

(** The macro [ALIGN(ptr, alignment)]: the aligned pointer. *)
Definition align_diff (ptr alignment : Z) : Z :=
  let d := Z.land ptr (u32 (alignment - 1)) in
  if d =? 0 then 0 else u32 (alignment - d).
Definition ALIGN (p alignment : Z) : M heap Z :=
  let ptr := u32 (p + ALIGN_INFO) in
  let diff := align_diff ptr alignment in
  let ptr := u32 (ptr + diff) in
  st (u32 (ptr - ALIGN_INFO)) diff ;;
  assert_ (Z.land ptr (u32 (alignment - 1)) =? 0) ;;
  mret ptr.

(** The macro [UNALIGN(ptr)]. *)
Definition UNALIGN (ptr : Z) : M heap Z :=
  diff ← ld (u32 (ptr - ALIGN_INFO));
  mret (u32 (u32 (ptr - diff) - ALIGN_INFO)).

(** ** [allocate_new_page] *)

Definition pages_for (size : Z) : Z :=
  let st := u32 (u32 (size + sizeof_major) + sizeof_minor) in
  let st := if st mod l_pageSize =? 0 then st / l_pageSize else st / l_pageSize + 1 in
  if st <? l_pageCount then l_pageCount else st.

Definition allocate_new_page (size : Z) : M heap Z :=
  let st := pages_for size in
  maj ← liballoc_alloc st;
  if maj =? 0 then warning ;; mret 0
  else
    maj_set maj Mj_prev 0 ;;
    maj_set maj Mj_next 0 ;;
    maj_set maj Mj_pages st ;;
    maj_set maj Mj_size (u32 (st * l_pageSize)) ;;
    maj_set maj Mj_usage sizeof_major ;;
    maj_set maj Mj_first 0 ;;
    sz ← maj_get maj Mj_size;
    modify (fun h => set_allocated (u64 (l_allocated h + sz)) h) ;;
    mret maj.

(** ** [malloc_align] *)

(** The bookkeeping shared by the placement cases: [maj->usage] and [l_inuse]. *)
Definition charge (maj size : Z) : M heap unit :=
  u ← maj_get maj Mj_usage;
  maj_set maj Mj_usage (u32 (u + u32 (size + sizeof_minor))) ;;
  modify (fun h => set_inuse (u64 (l_inuse h + size)) h).
Definition bump_max : M heap unit :=
  modify (fun h => set_max_inuse (if l_max_inuse h <? l_inuse h then l_inuse h else l_max_inuse h) h).

(** CASE 2: a brand new block. *)
Definition place_first (maj size req_size alignment : Z) : M heap Z :=
  maj_set maj Mj_first (u32 (maj + sizeof_major)) ;;
  first ← maj_get maj Mj_first;
  min_set first Mn_magic LIBALLOC_MAGIC ;;
  min_set first Mn_prev 0 ;;
  min_set first Mn_next 0 ;;
  min_set first Mn_block maj ;;
  min_set first Mn_size size ;;
  min_set first Mn_req_size req_size ;;
  charge maj size ;; bump_max ;;
  ALIGN (u32 (first + sizeof_minor)) alignment.

(** CASE 3: squeeze in front of the first minor. *)
Definition place_front (maj size req_size alignment : Z) : M heap Z :=
  first ← maj_get maj Mj_first;
  min_set first Mn_prev (u32 (maj + sizeof_major)) ;;
  p ← min_get first Mn_prev;
  min_set p Mn_next first ;;
  maj_set maj Mj_first p ;;
  min_set p Mn_magic LIBALLOC_MAGIC ;;
  min_set p Mn_prev 0 ;;
  min_set p Mn_block maj ;;
  min_set p Mn_size size ;;
  min_set p Mn_req_size req_size ;;
  charge maj size ;; bump_max ;;
  ALIGN (u32 (p + sizeof_minor)) alignment.

(** CASE 4.1: after the last minor. *)
Definition place_last (maj min size req_size alignment : Z) : M heap Z :=
  msize ← min_get min Mn_size;
  min_set min Mn_next (u32 (u32 (min + sizeof_minor) + msize)) ;;
  next ← min_get min Mn_next;
  min_set next Mn_prev min ;;
  min_set next Mn_next 0 ;;
  min_set next Mn_magic LIBALLOC_MAGIC ;;
  min_set next Mn_block maj ;;
  min_set next Mn_size size ;;
  min_set next Mn_req_size req_size ;;
  charge maj size ;; bump_max ;;
  ALIGN (u32 (next + sizeof_minor)) alignment.

(** CASE 4.2: between two minors. *)
Definition place_between (maj min size req_size alignment : Z) : M heap Z :=
  msize ← min_get min Mn_size;
  let new_min := u32 (u32 (min + sizeof_minor) + msize) in
  next ← min_get min Mn_next;
  min_set new_min Mn_magic LIBALLOC_MAGIC ;;
  min_set new_min Mn_next next ;;
  min_set new_min Mn_prev min ;;
  min_set new_min Mn_size size ;;
  min_set new_min Mn_req_size req_size ;;
  min_set new_min Mn_block maj ;;
  min_set next Mn_prev new_min ;;
  min_set min Mn_next new_min ;;
  charge maj size ;;
  ALIGN (u32 (new_min + sizeof_minor)) alignment.

(** CASE 4: the loop over the minors of a block. *)
Fixpoint search_minors (fuel : nat) (maj min size req_size alignment : Z) : M heap (option Z) :=
  match fuel with
  | O => fail OutOfFuel
  | S fuel =>
      if min =? 0 then mret None else
      next ← min_get min Mn_next;
      msize ← min_get min Mn_size;
      majsize ← maj_get maj Mj_size;
      let diff :=
        if next =? 0
        then u32 (u32 (u32 (u32 (maj + majsize) - min) - sizeof_minor) - msize)
        else u32 (u32 (u32 (next - min) - sizeof_minor) - msize) in
      if u32 (size + sizeof_minor) <=? diff then
        p ← (if next =? 0 then place_last maj min size req_size alignment
             else place_between maj min size req_size alignment);
        mret (Some p)
      else search_minors fuel maj next size req_size alignment
  end.

(** CASES 2 to 4: place the request in [maj] if there is room. *)
Definition place_in (fuel : nat) (maj size req_size alignment : Z) : M heap (option Z) :=
  first ← maj_get maj Mj_first;
  if first =? 0 then p ← place_first maj size req_size alignment; mret (Some p)
  else
    let diff := u32 (u32 (first - maj) - sizeof_major) in
    if u32 (size + sizeof_minor) <=? diff then
      p ← place_front maj size req_size alignment; mret (Some p)
    else search_minors fuel maj first size req_size alignment.

(** The loop over the majors, with the best-bet bookkeeping, CASE 1 and CASE 5;
    [bestSize] is the [unsigned long long] of the code. *)
Fixpoint search_majors (fuel : nat) (maj : Z) (startedBet : bool) (bestSize : Z)
    (size req_size alignment : Z) : M heap Z :=
  match fuel with
  | O => fail OutOfFuel
  | S fuel' =>
      if maj =? 0 then mret 0 else
      msize ← maj_get maj Mj_size;
      usage ← maj_get maj Mj_usage;
      let diff := u32 (msize - usage) in
      when (bestSize <? diff) (modify (set_best maj)) ;;
      let bestSize := if bestSize <? diff then diff else bestSize in
      let continue_at maj := search_majors fuel' maj startedBet bestSize size req_size alignment in
      let restart :=
        root ← gets l_memRoot; search_majors fuel' root false bestSize size req_size alignment in
      let place maj : M heap Z :=
        r ← place_in fuel maj size req_size alignment;
        match r with
        | Some p => mret p
        | None =>
            next ← maj_get maj Mj_next;
            if negb (next =? 0) then continue_at next
            else if startedBet then restart
            else
              new ← allocate_new_page size;
              maj_set maj Mj_next new ;;
              if new =? 0 then mret 0 else
              maj_set new Mj_prev maj ;;
              continue_at new
        end in
      if diff <? u32 (size + sizeof_minor) then
        next ← maj_get maj Mj_next;
        if negb (next =? 0) then continue_at next
        else if startedBet then restart
        else
          new ← allocate_new_page size;
          maj_set maj Mj_next new ;;
          if new =? 0 then mret 0 else
          maj_set new Mj_prev maj ;;
          place new
      else place maj
  end.

(** The body of [malloc_align] once the size is known to be non-zero: the root
    block, the best bet, the search; NULL when no page can be had. *)
Definition malloc_sized (fuel : nat) (size req_size alignment : Z) : M heap Z :=
  root ← gets l_memRoot;
  ok ← (if root =? 0 then
          new ← allocate_new_page size; modify (set_root new) ;; mret (negb (new =? 0))
        else mret true);
  if negb ok then liballoc_unlock ;; mret 0 else
  root ← gets l_memRoot;
  best ← gets l_bestBet;
  p ← (if best =? 0 then search_majors fuel root false 0 size req_size alignment
       else
         bsize ← maj_get best Mj_size;
         busage ← maj_get best Mj_usage;
         let bestSize := u32 (bsize - busage) in
         if u32 (size + sizeof_minor) <? bestSize
         then search_majors fuel best true bestSize size req_size alignment
         else search_majors fuel root false bestSize size req_size alignment);
  liballoc_unlock ;; mret p.

Definition malloc_align (fuel : nat) (req_size alignment : Z) : M heap Z :=
  assert_ (1 <? alignment) ;;
  let size := u32 (req_size + u32 (alignment + ALIGN_INFO)) in
  liballoc_lock ;;
  if size =? 0 then
    warning ;; liballoc_unlock ;;
    (* return malloc(1), that is malloc_align(1, sizeof(uintptr_t)) *)
    liballoc_lock ;;
    malloc_sized fuel (u32 (1 + u32 (4 + ALIGN_INFO))) 1 4
  else malloc_sized fuel size req_size alignment.

Definition malloc (fuel : nat) (req_size : Z) : M heap Z := malloc_align fuel req_size 4.

(** ** [free] *)

(** The [magic] of a header that is not live: one error, and a possible overrun
    when one to three low bytes still match. *)
Definition bad_magic (magic : Z) : M heap unit :=
  modify (fun h =>
    let overrun :=
      (Z.land magic 0xFFFFFF =? Z.land LIBALLOC_MAGIC 0xFFFFFF) ||
      (Z.land magic 0xFFFF =? Z.land LIBALLOC_MAGIC 0xFFFF) ||
      (Z.land magic 0xFF =? Z.land LIBALLOC_MAGIC 0xFF) in
    set_counts (l_warningCount h) (s64 (l_errorCount h + 1))
      (if overrun then s64 (l_possibleOverruns h + 1) else l_possibleOverruns h) h).

(** Unlink a minor that is being freed. *)
Definition unlink_minor (maj min : Z) : M heap unit :=
  next ← min_get min Mn_next;
  prev ← min_get min Mn_prev;
  when (negb (next =? 0)) (min_set next Mn_prev prev) ;;
  when (negb (prev =? 0)) (min_set prev Mn_next next) ;;
  when (prev =? 0) (maj_set maj Mj_first next).

(** Give an empty block back to the system. *)
Definition release_major (maj : Z) : M heap unit :=
  next ← maj_get maj Mj_next;
  prev ← maj_get maj Mj_prev;
  root ← gets l_memRoot;
  when (root =? maj) (modify (set_root next)) ;;
  best ← gets l_bestBet;
  when (best =? maj) (modify (set_best 0)) ;;
  when (negb (prev =? 0)) (maj_set prev Mj_next next) ;;
  when (negb (next =? 0)) (maj_set next Mj_prev prev) ;;
  size ← maj_get maj Mj_size;
  modify (fun h => set_allocated (u64 (l_allocated h - size)) h) ;;
  pages ← maj_get maj Mj_pages;
  liballoc_free maj pages.

(** The best bet moves to a block that has become roomier. *)
Definition update_best (maj : Z) : M heap unit :=
  best ← gets l_bestBet;
  if best =? 0 then mret tt else
  bsize ← maj_get best Mj_size;
  busage ← maj_get best Mj_usage;
  msize ← maj_get maj Mj_size;
  musage ← maj_get maj Mj_usage;
  when (s32 (bsize - busage) <? s32 (msize - musage)) (modify (set_best maj)).

Definition free (ptr : Z) : M heap unit :=
  if ptr =? 0 then warning else
  ptr ← UNALIGN ptr;
  liballoc_lock ;;
  let min := u32 (ptr - sizeof_minor) in
  magic ← min_get min Mn_magic;
  if negb (magic =? LIBALLOC_MAGIC) then bad_magic magic ;; liballoc_unlock
  else
    maj ← min_get min Mn_block;
    size ← min_get min Mn_size;
    modify (fun h => set_inuse (u64 (l_inuse h - size)) h) ;;
    usage ← maj_get maj Mj_usage;
    maj_set maj Mj_usage (u32 (usage - u32 (size + sizeof_minor))) ;;
    min_set min Mn_magic LIBALLOC_DEAD ;;
    unlink_minor maj min ;;
    first ← maj_get maj Mj_first;
    (if first =? 0 then release_major maj else update_best maj) ;;
    liballoc_unlock.

(** ** [calloc] and [realloc] *)

Definition calloc (fuel : nat) (nobj size : Z) : M heap Z :=
  let real_size := s32 (u32 (nobj * size)) in
  p ← malloc fuel (u32 real_size);
  liballoc_memset p 0 (u32 real_size) ;;
  mret p.

Definition realloc (fuel : nat) (p size : Z) : M heap Z :=
  if size =? 0 then free p ;; mret 0
  else if p =? 0 then malloc fuel size
  else
    ptr ← UNALIGN p;
    liballoc_lock ;;
    let min := u32 (ptr - sizeof_minor) in
    magic ← min_get min Mn_magic;
    if negb (magic =? LIBALLOC_MAGIC) then bad_magic magic ;; liballoc_unlock ;; mret 0
    else
      real_size ← min_get min Mn_req_size;
      if size <=? real_size then
        min_set min Mn_req_size size ;; liballoc_unlock ;; mret p
      else
        liballoc_unlock ;;
        ptr ← malloc fuel size;
        liballoc_memcpy ptr p real_size ;;
        free p ;;
        mret ptr.
End Allocator.
Arguments heap OS : clear implicits.
End Liballoc.
