(* ===== verification/LiballocRep.v ===== *)
(** * LiballocRep: what a liballoc heap in memory represents

    The abstract view of the heap of [Liballoc]: a list of regions (the major
    blocks), each with the address-ordered list of its allocated blocks (the
    minors).  [regs] says that the memory holds the doubly linked lists of
    headers for such a list; [gapped] describes one region while a block is
    being linked in or out, and the lemmas below are the effect of each single
    store the code makes. *)
From stdpp Require Import base gmap list sets.
From Stdlib Require Import ZArith Lia.
From S2P Require Import Prelude Mem32 Liballoc.
Import Liballoc.

Module LiballocRep.

(** An allocated block: the address of its header, the size of its payload and
    the size that was requested. *)
Record blk := Blk { b_addr : Z; b_size : Z; b_req : Z }.
Definition b_end (b : blk) : Z := b_addr b + 24 + b_size b.

(** A major block. *)
Record region := Region { r_base : Z; r_pages : Z; r_blks : list blk }.
Definition r_end (r : region) : Z := r_base r + page_bytes (r_pages r).

Definition hd_addr (l : list blk) (n : Z) : Z := match l with [] => n | b :: _ => b_addr b end.
Definition last_addr (l : list blk) (p : Z) : Z := match last l with Some b => b_addr b | None => p end.
Definition end_of (l : list blk) (lo : Z) : Z := match last l with Some b => b_end b | None => lo end.
Definition hd_base (rs : list region) (n : Z) : Z := match rs with [] => n | r :: _ => r_base r end.
Definition last_base (rs : list region) (p : Z) : Z :=
  match last rs with Some r => r_base r | None => p end.

Definition sizes (l : list blk) : Z := foldr (fun b acc => b_size b + acc) 0 l.
Definition usage_of (l : list blk) : Z := foldr (fun b acc => b_size b + 24 + acc) 24 l.
Definition all_blks (rs : list region) : list blk := rs ≫= r_blks.
Definition total_pages (rs : list region) : Z := foldr (fun r acc => page_bytes (r_pages r) + acc) 0 rs.

(** The blocks of a region lie in [[lo, hi)], in address order, without overlap. *)
Fixpoint fits (lo hi : Z) (l : list blk) : Prop :=
  match l with
  | [] => lo <= hi
  | b :: l' => lo <= b_addr b /\ 0 <= b_size b < 2 ^ 32 /\ 0 <= b_req b < 2 ^ 32 /\ fits (b_end b) hi l'
  end.

(** The header of [b] in memory. *)
Definition minor_at (m : memory) (maj prev : Z) (b : blk) (next : Z) : Prop :=
  load32 m (b_addr b + 0) = prev /\ load32 m (b_addr b + 4) = next /\
  load32 m (b_addr b + 8) = maj /\ load32 m (b_addr b + 12) = LIBALLOC_MAGIC /\
  load32 m (b_addr b + 16) = b_size b /\ load32 m (b_addr b + 20) = b_req b.

(** A doubly linked segment of minors from [prev] to [next]. *)
Fixpoint seg (m : memory) (maj prev : Z) (l : list blk) (next : Z) : Prop :=
  match l with
  | [] => True
  | b :: l' => minor_at m maj prev b (hd_addr l' next) /\ seg m maj (b_addr b) l' next
  end.

(** The header of a major. *)
Definition major_at (m : memory) (base prev next pages usage first : Z) : Prop :=
  load32 m (base + 0) = prev /\ load32 m (base + 4) = next /\ load32 m (base + 8) = pages /\
  load32 m (base + 12) = page_bytes pages /\ load32 m (base + 16) = usage /\
  load32 m (base + 20) = first.

Definition region_at (m : memory) (prev : Z) (r : region) (next : Z) : Prop :=
  major_at m (r_base r) prev next (r_pages r) (usage_of (r_blks r)) (hd_addr (r_blks r) 0) /\
  seg m (r_base r) 0 (r_blks r) 0.

Definition region_ok (r : region) : Prop :=
  0 < r_base r /\ r_base r mod 4096 = 0 /\ 0 < r_pages r < 2 ^ 20 /\ r_end r < 2 ^ 32 /\
  fits (r_base r + 24) (r_end r) (r_blks r).

(** The doubly linked list of majors. *)
Fixpoint regs (m : memory) (prev : Z) (rs : list region) (next : Z) : Prop :=
  match rs with
  | [] => True
  | r :: rs' => region_at m prev r (hd_base rs' next) /\ regs m (r_base r) rs' next
  end.

Definition r_apart (r1 r2 : region) : Prop := r_end r1 <= r_base r2 \/ r_end r2 <= r_base r1.
Fixpoint apart (rs : list region) : Prop :=
  match rs with
  | [] => True
  | r :: rs' => Forall (r_apart r) rs' /\ apart rs'
  end.

(** A region with a gap [[glo, ghi)] between the blocks [b1] and [b2]; [n1] is
    the [next] of the last block of [b1] and [p2] the [prev] of the first block
    of [b2].  Outside the region, and in the payloads, the bytes are those of
    [m0]. *)
Definition gapped (m0 m : memory) (r : region) (prev next usage first : Z)
    (b1 : list blk) (n1 p2 : Z) (b2 : list blk) (glo ghi : Z) : Prop :=
  major_at m (r_base r) prev next (r_pages r) usage first /\
  seg m (r_base r) 0 b1 n1 /\ seg m (r_base r) p2 b2 0 /\
  fits (r_base r + 24) glo b1 /\ fits ghi (r_end r) b2 /\
  agree_off m0 m (r_base r) (r_end r) /\
  Forall (fun b => agree_on m0 m (b_addr b + 24) (b_end b)) (b1 ++ b2).

(** ** Lists of blocks *)

Lemma hd_addr_app l1 l2 n : hd_addr (l1 ++ l2) n = hd_addr l1 (hd_addr l2 n).
Proof. by destruct l1. Qed.

Lemma last_addr_snoc l b p : last_addr (l ++ [b]) p = b_addr b.
Proof. unfold last_addr. by rewrite last_snoc. Qed.

Lemma last_addr_cons b l p : last_addr (b :: l) p = last_addr l (b_addr b).
Proof. unfold last_addr. rewrite last_cons. by destruct (last l). Qed.

Lemma end_of_cons b l lo : end_of (b :: l) lo = end_of l (b_end b).
Proof. unfold end_of. rewrite last_cons. by destruct (last l). Qed.

Lemma end_of_snoc l b lo : end_of (l ++ [b]) lo = b_end b.
Proof. unfold end_of. by rewrite last_snoc. Qed.

Lemma seg_app m maj prev l1 l2 next :
  seg m maj prev (l1 ++ l2) next <->
  seg m maj prev l1 (hd_addr l2 next) /\ seg m maj (last_addr l1 prev) l2 next.
Proof.
  revert prev. induction l1 as [|b l1 IH]; intros prev; simpl.
  - unfold last_addr. simpl. tauto.
  - rewrite IH, hd_addr_app, last_addr_cons. tauto.
Qed.

Lemma fits_app lo hi l1 l2 :
  fits lo hi (l1 ++ l2) <-> fits lo (end_of l1 lo) l1 /\ fits (end_of l1 lo) hi l2.
Proof.
  revert lo. induction l1 as [|b l1 IH]; intros lo; simpl.
  - unfold end_of. simpl. intuition lia.
  - rewrite IH, end_of_cons. tauto.
Qed.

Lemma fits_le lo hi l : fits lo hi l -> lo <= hi.
Proof.
  revert lo. induction l as [|b l IH]; simpl; [done|].
  intros lo (? & ? & ? & F). apply IH in F. unfold b_end in F. lia.
Qed.

Lemma fits_weaken lo hi lo' hi' l : fits lo hi l -> lo' <= lo -> hi <= hi' -> fits lo' hi' l.
Proof.
  revert lo lo'. induction l as [|b l IH]; simpl; intros lo lo'; [lia|].
  intros (? & ? & ? & F) ??. split_and!; try lia. eapply IH; [done|lia|lia].
Qed.

Lemma fits_bounds lo hi l :
  fits lo hi l -> Forall (fun b => lo <= b_addr b /\ b_end b <= hi /\ 0 <= b_size b < 2 ^ 32) l.
Proof.
  revert lo. induction l as [|b l IH]; simpl; intros lo; [constructor|].
  intros (? & ? & ? & F). constructor.
  - pose proof (fits_le _ _ _ F). lia.
  - eapply Forall_impl; [by eapply IH|]. simpl. unfold b_end. intros b' (? & ? & ?). lia.
Qed.

Lemma usage_of_app l1 l2 : usage_of (l1 ++ l2) = usage_of l1 + usage_of l2 - 24.
Proof. unfold usage_of. induction l1; simpl; lia. Qed.

Lemma usage_of_insert l1 b l2 : usage_of (l1 ++ b :: l2) = usage_of (l1 ++ l2) + (b_size b + 24).
Proof. rewrite !usage_of_app. simpl. unfold usage_of. lia. Qed.

Lemma usage_of_fits lo hi l : fits lo hi l -> 24 <= usage_of l <= 24 + (hi - lo).
Proof.
  revert lo. unfold usage_of. induction l as [|b l IH]; simpl; intros lo; [lia|].
  intros (? & ? & ? & F). apply IH in F. unfold b_end in F. lia.
Qed.

Lemma sizes_app l1 l2 : sizes (l1 ++ l2) = sizes l1 + sizes l2.
Proof. unfold sizes. induction l1; simpl; lia. Qed.

(** ** Frames *)

Lemma minor_at_agree m m' maj prev b next :
  agree_on m m' (b_addr b) (b_addr b + 24) -> minor_at m maj prev b next -> minor_at m' maj prev b next.
Proof.
  intros A (? & ? & ? & ? & ? & ?). unfold minor_at.
  rewrite !(load32_agree_on _ _ _ _ _ A) by lia. done.
Qed.

Lemma seg_agree m m' maj prev l next :
  Forall (fun b => agree_on m m' (b_addr b) (b_addr b + 24)) l ->
  seg m maj prev l next -> seg m' maj prev l next.
Proof.
  intros F. revert prev. induction F as [|b l A F IH]; intros prev; simpl; [done|].
  intros [H S]. split; [by eapply minor_at_agree | by apply IH].
Qed.

Lemma fits_agree m m' lo hi l :
  fits lo hi l -> agree_on m m' lo hi ->
  Forall (fun b => agree_on m m' (b_addr b) (b_addr b + 24)) l.
Proof.
  intros F A. eapply Forall_impl; [by eapply fits_bounds|]. simpl. unfold b_end.
  intros b (? & ? & ?). eapply agree_on_sub; [done|lia|lia].
Qed.

Lemma seg_store m maj prev l next lo hi x v :
  fits lo hi l -> x + 4 <= lo \/ hi <= x ->
  seg m maj prev l next -> seg (store32 m x v) maj prev l next.
Proof. intros F ?. eapply seg_agree, fits_agree; [done|]. by apply agree_on_store32. Qed.

Lemma major_at_agree m m' base prev next pages usage first :
  agree_on m m' base (base + 24) ->
  major_at m base prev next pages usage first -> major_at m' base prev next pages usage first.
Proof.
  intros A (? & ? & ? & ? & ? & ?). unfold major_at.
  rewrite !(load32_agree_on _ _ _ _ _ A) by lia. done.
Qed.

Lemma region_at_agree m m' prev r next :
  region_ok r -> agree_on m m' (r_base r) (r_end r) -> region_at m prev r next -> region_at m' prev r next.
Proof.
  intros (? & ? & ? & ? & F) A [Hm Hs]. pose proof (fits_le _ _ _ F). split.
  - eapply major_at_agree; [|done]. eapply agree_on_sub; [done|lia|lia].
  - eapply seg_agree; [|done]. eapply fits_agree; [done|]. eapply agree_on_sub; [done|lia|lia].
Qed.

Lemma regs_agree m m' prev rs next :
  Forall region_ok rs -> Forall (fun r => agree_on m m' (r_base r) (r_end r)) rs ->
  regs m prev rs next -> regs m' prev rs next.
Proof.
  intros O. revert prev. induction O as [|r rs Hr O IH]; intros prev A; simpl; [done|].
  inversion A; subst. intros [H S]. split; [by eapply region_at_agree | by apply IH].
Qed.

Lemma hd_base_app l1 l2 n : hd_base (l1 ++ l2) n = hd_base l1 (hd_base l2 n).
Proof. by destruct l1. Qed.

Lemma last_base_cons r l p : last_base (r :: l) p = last_base l (r_base r).
Proof. unfold last_base. rewrite last_cons. by destruct (last l). Qed.

Lemma regs_app m prev l1 l2 next :
  regs m prev (l1 ++ l2) next <->
  regs m prev l1 (hd_base l2 next) /\ regs m (last_base l1 prev) l2 next.
Proof.
  revert prev. induction l1 as [|r l1 IH]; intros prev; simpl.
  - unfold last_base. simpl. tauto.
  - rewrite IH, hd_base_app, last_base_cons. tauto.
Qed.

Lemma r_apart_sym r1 r2 : r_apart r1 r2 -> r_apart r2 r1.
Proof. unfold r_apart. tauto. Qed.

Lemma apart_app l1 l2 :
  apart (l1 ++ l2) <-> apart l1 /\ apart l2 /\ Forall (fun r => Forall (r_apart r) l2) l1.
Proof.
  induction l1 as [|r l1 IH]; simpl; [intuition constructor|].
  rewrite IH, Forall_app, Forall_cons. tauto.
Qed.

Lemma apart_middle l1 r l2 : apart (l1 ++ r :: l2) -> Forall (r_apart r) (l1 ++ l2).
Proof.
  rewrite apart_app. simpl. intros (_ & [H2 _] & H1). apply Forall_app. split; [|done].
  eapply Forall_impl; [done|]. simpl. intros r' F. inversion F; subst. by apply r_apart_sym.
Qed.

(** ** One region under modification *)

Lemma hd_addr_default l n n' : l <> [] -> hd_addr l n = hd_addr l n'.
Proof. by destruct l. Qed.

Lemma hd_addr_fits lo hi l : fits lo hi l -> lo <= hd_addr l hi /\ fits (hd_addr l hi) hi l.
Proof. destruct l; simpl; [lia|]. intros (? & ? & ? & F). split; [lia|]. split_and!; try done; lia. Qed.

Lemma gapped_open m r prev next b1 b2 :
  region_ok r -> r_blks r = b1 ++ b2 -> region_at m prev r next ->
  gapped m m r prev next (usage_of (b1 ++ b2)) (hd_addr (b1 ++ b2) 0)
    b1 (hd_addr b2 0) (last_addr b1 0) b2 (end_of b1 (r_base r + 24)) (hd_addr b2 (r_end r)).
Proof.
  intros (? & ? & ? & ? & F) E [Hm Hs]. rewrite E in *.
  apply fits_app in F as [F1 F2]. apply seg_app in Hs as [S1 S2].
  split_and!; try done.
  - by apply (hd_addr_fits _ _ _ F2).
  - by apply Forall_true.
Qed.

Lemma gapped_open_at m r prev next b1 b b2 :
  region_ok r -> r_blks r = b1 ++ b :: b2 -> region_at m prev r next ->
  minor_at m (r_base r) (last_addr b1 0) b (hd_addr b2 0) /\
  end_of b1 (r_base r + 24) <= b_addr b /\ 0 <= b_size b < 2 ^ 32 /\
  gapped m m r prev next (usage_of (b1 ++ b :: b2)) (hd_addr (b1 ++ b :: b2) 0)
    b1 (b_addr b) (b_addr b) b2 (b_addr b) (b_end b).
Proof.
  intros (? & ? & ? & ? & F) E [Hm Hs]. rewrite E in *.
  apply fits_app in F as [F1 F2]. apply seg_app in Hs as [S1 S2].
  simpl in F2, S2. destruct F2 as (? & ? & ? & F2), S2 as [Sb S2].
  unfold gapped. split_and!; try done; try lia.
  - eapply fits_weaken; [done|lia|lia].
  - by apply Forall_true.
Qed.

Lemma gapped_store m0 m r prev next usage first b1 n1 p2 b2 glo ghi x v :
  gapped m0 m r prev next usage first b1 n1 p2 b2 glo ghi ->
  glo <= x -> x + 4 <= ghi ->
  gapped m0 (store32 m x v) r prev next usage first b1 n1 p2 b2 glo ghi.
Proof.
  intros (M & S1 & S2 & F1 & F2 & A & P) ??.
  pose proof (fits_le _ _ _ F1). pose proof (fits_le _ _ _ F2). split_and!; try done.
  - eapply major_at_agree; [|done]. apply agree_on_store32. lia.
  - eapply seg_store; [done|lia|done].
  - eapply seg_store; [done|lia|done].
  - intros a ?. rewrite load8_store32_ne by lia. by apply A.
  - eapply Forall_impl; [apply Forall_and; split; [exact P|]|].
    + apply Forall_app; split; (eapply Forall_impl; [by eapply fits_bounds|]); simpl.
      * intros b (?&?&?). instantiate (1 := fun b => b_end b <= glo \/ ghi <= b_addr b). simpl. lia.
      * intros b (?&?&?). simpl. lia.
    + simpl. intros b [P1 P2]. eapply agree_on_trans; [done|]. apply agree_on_store32. unfold b_end in *. lia.
Qed.

(** A store that hits neither the payloads nor the memory outside the region. *)
Lemma gapped_rest m0 m r x v b1 b2 :
  agree_off m0 m (r_base r) (r_end r) ->
  r_base r <= x -> x + 4 <= r_end r ->
  Forall (fun b => agree_on m0 m (b_addr b + 24) (b_end b)) (b1 ++ b2) ->
  Forall (fun b => x + 4 <= b_addr b + 24 \/ b_end b <= x) (b1 ++ b2) ->
  agree_off m0 (store32 m x v) (r_base r) (r_end r) /\
  Forall (fun b => agree_on m0 (store32 m x v) (b_addr b + 24) (b_end b)) (b1 ++ b2).
Proof.
  intros A ?? P Q. split.
  - intros a ?. rewrite load8_store32_ne by lia. by apply A.
  - eapply Forall_impl; [apply Forall_and; split; [exact P | exact Q]|]. simpl.
    intros b [P1 P2]. eapply agree_on_trans; [done|]. apply agree_on_store32. lia.
Qed.

Lemma fits_payload_off lo hi l x :
  fits lo hi l -> x + 4 <= lo + 24 \/ hi <= x -> Forall (fun b => x + 4 <= b_addr b + 24 \/ b_end b <= x) l.
Proof.
  intros F ?. eapply Forall_impl; [by eapply fits_bounds|]. simpl. intros b (?&?&?). lia.
Qed.

Lemma gapped_set_usage m0 m r prev next usage first b1 n1 p2 b2 glo ghi v :
  gapped m0 m r prev next usage first b1 n1 p2 b2 glo ghi -> glo <= ghi -> 0 <= v < 2 ^ 32 ->
  gapped m0 (store32 m (r_base r + 16) v) r prev next v first b1 n1 p2 b2 glo ghi.
Proof.
  intros (M & S1 & S2 & F1 & F2 & A & P) ??.
  pose proof (fits_le _ _ _ F1). pose proof (fits_le _ _ _ F2).
  destruct (gapped_rest m0 m r (r_base r + 16) v b1 b2) as [Ao Po]; try done; try lia.
  { apply Forall_app. split; eapply fits_payload_off; try done; lia. }
  destruct M as (? & ? & ? & ? & ? & ?). split_and!; try done.
  - unfold major_at. rewrite load32_store32_eq by done. rewrite !load32_store32_ne by lia. done.
  - eapply seg_store; [done|lia|done].
  - eapply seg_store; [done|lia|done].
Qed.

Lemma gapped_set_first m0 m r prev next usage first b1 n1 p2 b2 glo ghi v :
  gapped m0 m r prev next usage first b1 n1 p2 b2 glo ghi -> glo <= ghi -> 0 <= v < 2 ^ 32 ->
  gapped m0 (store32 m (r_base r + 20) v) r prev next usage v b1 n1 p2 b2 glo ghi.
Proof.
  intros (M & S1 & S2 & F1 & F2 & A & P) ??.
  pose proof (fits_le _ _ _ F1). pose proof (fits_le _ _ _ F2).
  destruct (gapped_rest m0 m r (r_base r + 20) v b1 b2) as [Ao Po]; try done; try lia.
  { apply Forall_app. split; eapply fits_payload_off; try done; lia. }
  destruct M as (? & ? & ? & ? & ? & ?). split_and!; try done.
  - unfold major_at. rewrite load32_store32_eq by done. rewrite !load32_store32_ne by lia. done.
  - eapply seg_store; [done|lia|done].
  - eapply seg_store; [done|lia|done].
Qed.

Lemma gapped_set_next m0 m r prev next usage first l b n1 p2 b2 glo ghi v :
  gapped m0 m r prev next usage first (l ++ [b]) n1 p2 b2 glo ghi -> glo <= ghi -> 0 <= v < 2 ^ 32 ->
  gapped m0 (store32 m (b_addr b + 4) v) r prev next usage first (l ++ [b]) v p2 b2 glo ghi.
Proof.
  intros (M & S1 & S2 & F1 & F2 & A & P) ??.
  pose proof (fits_le _ _ _ F2). pose proof F1 as F1'.
  apply fits_app in F1' as [Fl Fb]. simpl in Fb. destruct Fb as (? & ? & ? & Hend).
  unfold b_end in Hend. pose proof (fits_le _ _ _ Fl).
  apply seg_app in S1 as [Sl Sb]. simpl in Sb. destruct Sb as [Sb _].
  destruct (gapped_rest m0 m r (b_addr b + 4) v (l ++ [b]) b2) as [Ao Po]; try done; try lia.
  { rewrite !Forall_app. split_and!.
    - eapply fits_payload_off; [done|lia].
    - apply Forall_singleton. lia.
    - eapply fits_payload_off; [done|lia]. }
  split_and!; try done.
  - eapply major_at_agree; [|done]. apply agree_on_store32. lia.
  - apply seg_app. split; [eapply seg_store; [done|lia|done]|]. simpl. split; [|done].
    destruct Sb as (? & ? & ? & ? & ? & ?). unfold minor_at.
    rewrite load32_store32_eq by done. rewrite !load32_store32_ne by lia. done.
  - eapply seg_store; [done|lia|done].
Qed.

Lemma gapped_set_prev m0 m r prev next usage first b1 n1 p2 b l glo ghi v :
  gapped m0 m r prev next usage first b1 n1 p2 (b :: l) glo ghi -> glo <= ghi -> 0 <= v < 2 ^ 32 ->
  gapped m0 (store32 m (b_addr b + 0) v) r prev next usage first b1 n1 v (b :: l) glo ghi.
Proof.
  intros (M & S1 & S2 & F1 & F2 & A & P) ??.
  pose proof (fits_le _ _ _ F1). pose proof (fits_le _ _ _ F2).
  pose proof F2 as (? & ? & ? & Fl). pose proof (fits_le _ _ _ Fl) as Hend. unfold b_end in Hend.
  destruct S2 as [Sb Sl].
  destruct (gapped_rest m0 m r (b_addr b + 0) v b1 (b :: l)) as [Ao Po]; try done; try lia.
  { rewrite Forall_app, Forall_cons. unfold b_end in *. split_and!.
    - eapply fits_payload_off; [done|lia].
    - lia.
    - eapply fits_payload_off; [done|lia]. }
  assert (seg (store32 m (b_addr b + 0) v) (r_base r) v (b :: l) 0) as S2.
  { split; [|unfold b_end in *; eapply seg_store; [done|lia|done]].
    destruct Sb as (? & ? & ? & ? & ? & ?). unfold minor_at.
    rewrite load32_store32_eq by done. rewrite !load32_store32_ne by lia. done. }
  unfold gapped. split; [|split; [|split; [exact S2|split_and!; done]]].
  - eapply major_at_agree; [|done]. apply agree_on_store32. lia.
  - eapply seg_store; [done|lia|done].
Qed.

Lemma gapped_close m0 m r prev next b1 nb b2 glo ghi :
  gapped m0 m r prev next (usage_of (b1 ++ nb :: b2)) (hd_addr (b1 ++ nb :: b2) 0)
    b1 (b_addr nb) (b_addr nb) b2 glo ghi ->
  minor_at m (r_base r) (last_addr b1 0) nb (hd_addr b2 0) ->
  region_at m prev (Region (r_base r) (r_pages r) (b1 ++ nb :: b2)) next.
Proof.
  intros (M & S1 & S2 & _) N. split; [done|]. simpl. apply seg_app. split; [done|]. by split.
Qed.

Lemma gapped_close_removed m0 m r prev next b1 b2 glo ghi :
  gapped m0 m r prev next (usage_of (b1 ++ b2)) (hd_addr (b1 ++ b2) 0)
    b1 (hd_addr b2 0) (last_addr b1 0) b2 glo ghi ->
  region_at m prev (Region (r_base r) (r_pages r) (b1 ++ b2)) next.
Proof. intros (M & S1 & S2 & _). split; [done|]. by apply seg_app. Qed.

Lemma fits_insert lo hi b1 nb b2 :
  fits lo hi (b1 ++ b2) -> end_of b1 lo <= b_addr nb -> b_end nb <= hd_addr b2 hi ->
  0 <= b_size nb < 2 ^ 32 -> 0 <= b_req nb < 2 ^ 32 -> fits lo hi (b1 ++ nb :: b2).
Proof.
  intros F ????. apply fits_app in F as [F1 F2]. apply fits_app. split; [done|].
  simpl. split_and!; try lia. apply hd_addr_fits in F2 as [_ F2].
  eapply fits_weaken; [done|lia|lia].
Qed.

Lemma fits_remove lo hi b1 b b2 : fits lo hi (b1 ++ b :: b2) -> fits lo hi (b1 ++ b2).
Proof.
  rewrite !fits_app. simpl. intros (F1 & ? & ? & ? & F2). split; [done|].
  eapply fits_weaken; [done|unfold b_end; lia|lia].
Qed.
End LiballocRep.
