(* ===== verification/LiballocPlace.v ===== *)
(** * LiballocPlace: the four placement cases of [malloc_align]

    Each of [place_first], [place_front], [place_last] and [place_between]
    links one new block into a region: the lemmas say that the region then
    represents the old blocks plus the new one, that only that region's bytes
    changed, and none of the payloads already handed out. *)
From stdpp Require Import base gmap list sets.
From Stdlib Require Import ZArith Lia.
From S2P Require Import Prelude Mem32 Liballoc LiballocRep.
Import Liballoc LiballocRep.

Module LiballocPlace.

#[local] Opaque load32 store32 uwrap.

Ltac hsimp_goal :=
  cbn [mem l_memRoot l_bestBet l_allocated l_inuse l_max_inuse l_warningCount l_errorCount
    l_possibleOverruns l_locked l_os set_mem set_root set_best set_allocated set_inuse
    set_max_inuse set_counts set_locked set_mem_os].
Ltac hsimp_all :=
  cbn [mem l_memRoot l_bestBet l_allocated l_inuse l_max_inuse l_warningCount l_errorCount
    l_possibleOverruns l_locked l_os set_mem set_root set_best set_allocated set_inuse
    set_max_inuse set_counts set_locked set_mem_os] in *.
Tactic Notation "hsimp" := hsimp_goal.
Tactic Notation "hsimp" "in" "*" := hsimp_all.

Ltac ldsimp := repeat first [rewrite load32_store32_eq by lia | rewrite load32_store32_ne by lia].

(** ** Running loads and stores *)

Section Run.
Context {OS : Type} `{PageSource OS} {B : Type}.
Implicit Types h : heap OS.
Lemma run_bind_ld a (k : Z -> M (heap OS) B) h : (ld a ≫= k) h = k (load32 (mem h) a) h.
Proof. reflexivity. Qed.
Lemma run_bind_st a v (k : unit -> M (heap OS) B) h :
  (st a v ≫= k) h = k tt (set_mem (fun m => store32 m a v) h).
Proof. reflexivity. Qed.
Lemma run_bind_maj_get a f (k : Z -> M (heap OS) B) h :
  (maj_get a f ≫= k) h = k (load32 (mem h) (a + major_off f)) h.
Proof. reflexivity. Qed.
Lemma run_bind_min_get a f (k : Z -> M (heap OS) B) h :
  (min_get a f ≫= k) h = k (load32 (mem h) (a + minor_off f)) h.
Proof. reflexivity. Qed.
Lemma run_bind_maj_set a f v (k : unit -> M (heap OS) B) h :
  (maj_set a f v ≫= k) h = k tt (set_mem (fun m => store32 m (a + major_off f) v) h).
Proof. reflexivity. Qed.
Lemma run_bind_min_set a f v (k : unit -> M (heap OS) B) h :
  (min_set a f v ≫= k) h = k tt (set_mem (fun m => store32 m (a + minor_off f) v) h).
Proof. reflexivity. Qed.
End Run.

(** Symbolic execution of the monadic code, by rewriting. *)
Ltac exec :=
  repeat first
    [ rewrite run_bind_bind | rewrite run_bind_ret | rewrite run_bind_ld | rewrite run_bind_st
    | rewrite run_bind_maj_get | rewrite run_bind_maj_set | rewrite run_bind_min_get
    | rewrite run_bind_min_set | rewrite run_bind_gets | rewrite run_bind_modify
    | rewrite run_when_true | rewrite run_when_false | rewrite run_assert_true ];
  cbn [major_off minor_off]; hsimp_goal.

(** ** Alignment *)

Lemma land_pow2 x k : 0 <= k -> Z.land x (2 ^ k - 1) = x mod 2 ^ k.
Proof. intros. rewrite <- Z.land_ones by done. by rewrite Z.ones_equiv. Qed.

Lemma align_diff_spec ptr k :
  1 <= k < 32 -> 0 <= ptr ->
  0 <= align_diff ptr (2 ^ k) < 2 ^ k /\ (ptr + align_diff ptr (2 ^ k)) mod 2 ^ k = 0.
Proof.
  intros Hk Hp. unfold align_diff.
  assert (0 < 2 ^ k < 2 ^ 32).
  { split; [apply Z.pow_pos_nonneg; lia | apply Z.pow_lt_mono_r; lia]. }
  rewrite (uwrap_small 32 (2 ^ k - 1)) by lia. rewrite land_pow2 by lia.
  pose proof (Z.mod_pos_bound ptr (2 ^ k)).
  destruct (Z.eqb_spec (ptr mod 2 ^ k) 0) as [E|E].
  - rewrite Z.add_0_r. lia.
  - rewrite uwrap_small by lia. split; [lia|].
    rewrite (Z.div_mod ptr (2 ^ k)) at 1 by lia.
    replace (2 ^ k * (ptr / 2 ^ k) + ptr mod 2 ^ k + (2 ^ k - ptr mod 2 ^ k))
      with ((ptr / 2 ^ k + 1) * 2 ^ k) by lia.
    apply Z.mod_mul. lia.
Qed.

Section Place.
Context {OS : Type} `{PageSource OS}.

Lemma ALIGN_ok (h : heap OS) p k :
  1 <= k < 32 -> 0 <= p -> p + 16 + 2 ^ k < 2 ^ 32 ->
  exists diff, 0 <= diff < 2 ^ k /\ (p + 16 + diff) mod 2 ^ k = 0 /\
    ALIGN p (2 ^ k) h = Done (p + 16 + diff, set_mem (fun m => store32 m (p + diff) diff) h).
Proof.
  intros Hk Hp Hb. exists (align_diff (p + 16) (2 ^ k)).
  destruct (align_diff_spec (p + 16) k) as [D1 D2]; [lia|lia|].
  split_and!; try lia; try done.
  unfold ALIGN, ALIGN_INFO. rewrite (uwrap_small 32 (p + 16)) by lia. usimp.
  replace (p + 16 + align_diff (p + 16) (2 ^ k) - 16) with (p + align_diff (p + 16) (2 ^ k)) by lia.
  rewrite land_pow2 by lia. rewrite D2. done.
Qed.

(** What a successful placement of [nb] between [b1] and [b2] means: [q] is the
    pointer handed out. *)
Definition handed_out (h' : heap OS) (nb : blk) (alignment q : Z) : Prop :=
  q mod alignment = 0 /\ b_addr nb + 40 <= q /\ q + b_req nb < b_end nb /\
  load32 (mem h') (q - 16) = q - 16 - (b_addr nb + 24).

Definition placed (h h' : heap OS) (r : region) (prev next : Z) (b1 : list blk) (nb : blk)
    (b2 : list blk) (alignment q : Z) : Prop :=
  region_at (mem h') prev (Region (r_base r) (r_pages r) (b1 ++ nb :: b2)) next /\
  agree_off (mem h) (mem h') (r_base r) (r_end r) /\
  Forall (fun b => agree_on (mem h) (mem h') (b_addr b + 24) (b_end b)) (b1 ++ b2) /\
  handed_out h' nb alignment q /\
  l_memRoot h' = l_memRoot h /\ l_bestBet h' = l_bestBet h /\ l_allocated h' = l_allocated h /\
  l_inuse h' = u64 (l_inuse h + b_size nb) /\ l_locked h' = l_locked h /\ l_os h' = l_os h.

(** The end of every placement case: charge the block, then align. *)
Lemma finish_ok (h0 h : heap OS) (bump : M (heap OS) unit) r prev next b1 nb b2 glo ghi k :
  (forall h1, exists h2, bump h1 = Done (tt, h2) /\ mem h2 = mem h1 /\
     l_memRoot h2 = l_memRoot h1 /\ l_bestBet h2 = l_bestBet h1 /\ l_allocated h2 = l_allocated h1 /\
     l_inuse h2 = l_inuse h1 /\ l_locked h2 = l_locked h1 /\ l_os h2 = l_os h1) ->
  0 < r_base r -> r_end r < 2 ^ 32 ->
  gapped (mem h0) (mem h) r prev next (usage_of (b1 ++ b2)) (hd_addr (b1 ++ nb :: b2) 0)
    b1 (b_addr nb) (b_addr nb) b2 glo ghi ->
  minor_at (mem h) (r_base r) (last_addr b1 0) nb (hd_addr b2 0) ->
  glo <= b_addr nb -> b_end nb <= ghi -> 0 <= b_req nb -> 1 <= k < 32 ->
  b_size nb = b_req nb + 2 ^ k + 16 ->
  l_memRoot h = l_memRoot h0 -> l_bestBet h = l_bestBet h0 -> l_allocated h = l_allocated h0 ->
  l_inuse h = l_inuse h0 -> l_locked h = l_locked h0 -> l_os h = l_os h0 ->
  exists q h', (charge (r_base r) (b_size nb) ;; bump ;; ALIGN (u32 (b_addr nb + sizeof_minor)) (2 ^ k)) h
    = Done (q, h') /\ placed h0 h' r prev next b1 nb b2 (2 ^ k) q.
Proof.
  intros Hbump Hb0 Hend G N Hlo Hhi Hreq Hk Hsz E1 E2 E3 E4 E5 E6.
  assert (0 < 2 ^ k < 2 ^ 32) as Hpk.
  { split; [apply Z.pow_pos_nonneg; lia | apply Z.pow_lt_mono_r; lia]. }
  pose proof G as (M & S1 & S2 & F1 & F2 & A & P).
  pose proof (fits_le _ _ _ F1). pose proof (fits_le _ _ _ F2). unfold b_end in Hhi.
  pose proof (usage_of_fits _ _ _ F1). pose proof (usage_of_fits _ _ _ F2).
  pose proof (usage_of_app b1 b2) as Hu.
  assert (load32 (mem h) (r_base r + 16) = usage_of (b1 ++ b2)) as Lu by apply M.
  (* the charge *)
  unfold charge. exec. rewrite Lu. unfold sizeof_minor. rewrite (uwrap_small 32 (b_size nb + 24)) by lia.
  rewrite (uwrap_small 32 (usage_of (b1 ++ b2) + (b_size nb + 24))) by lia.
  apply (gapped_set_usage _ _ _ _ _ _ _ _ _ _ _ _ _ (usage_of (b1 ++ b2) + (b_size nb + 24))) in G;
    [|lia|lia].
  assert (minor_at (store32 (mem h) (r_base r + 16) (usage_of (b1 ++ b2) + (b_size nb + 24)))
            (r_base r) (last_addr b1 0) nb (hd_addr b2 0)) as N'.
  { eapply minor_at_agree; [|done]. apply agree_on_store32. lia. }
  match goal with |- context [(bump ≫= _) ?s] =>
    destruct (Hbump s) as (h2 & Eb & Em & B1 & B2 & B3 & B4 & B5 & B6) end.
  rewrite (run_bind_done _ _ _ _ _ Eb). clear Eb.
  hsimp in *.
  rewrite (uwrap_small 32 (b_addr nb + 24)) by lia.
  destruct (ALIGN_ok h2 (b_addr nb + 24) k) as (diff & Hd & Hm & ->); [lia|lia|lia|].
  eexists _, _. split; [reflexivity|].
  unfold placed, handed_out. hsimp.
  rewrite Em.
  apply (gapped_store _ _ _ _ _ _ _ _ _ _ _ _ _ (b_addr nb + 24 + diff) diff) in G; [|lia|lia].
  split_and!; try congruence; try lia.
  - eapply (gapped_close (mem h0)); [rewrite usage_of_insert; exact G|].
    eapply minor_at_agree; [|done]. apply agree_on_store32. lia.
  - apply G.
  - apply G.
  - unfold b_end. lia.
  - replace (b_addr nb + 24 + 16 + diff - 16) with (b_addr nb + 24 + diff) by lia.
    rewrite load32_store32_eq by lia. lia.
Qed.

Lemma bump_max_ok : forall h1 : heap OS, exists h2, bump_max h1 = Done (tt, h2) /\ mem h2 = mem h1 /\
  l_memRoot h2 = l_memRoot h1 /\ l_bestBet h2 = l_bestBet h1 /\ l_allocated h2 = l_allocated h1 /\
  l_inuse h2 = l_inuse h1 /\ l_locked h2 = l_locked h1 /\ l_os h2 = l_os h1.
Proof. intros h1. unfold bump_max. exec. eexists. split; [reflexivity|done]. Qed.

Lemma no_bump_ok : forall h1 : heap OS, exists h2, (mret tt : M _ unit) h1 = Done (tt, h2) /\ mem h2 = mem h1 /\
  l_memRoot h2 = l_memRoot h1 /\ l_bestBet h2 = l_bestBet h1 /\ l_allocated h2 = l_allocated h1 /\
  l_inuse h2 = l_inuse h1 /\ l_locked h2 = l_locked h1 /\ l_os h2 = l_os h1.
Proof. intros h1. by exists h1. Qed.

(** The stores of a new header into the gap. *)
Ltac gap_stores G :=
  repeat match goal with
    | |- gapped _ (store32 ?m ?x ?v) _ _ _ _ _ _ _ _ _ _ _ => apply gapped_store; [|lia|lia]
    end; exact G.

Lemma place_first_ok (h : heap OS) r prev next size req k :
  region_ok r -> region_at (mem h) prev r next -> r_blks r = [] ->
  r_base r + 48 + size <= r_end r -> size = req + 2 ^ k + 16 -> 0 <= req -> 1 <= k < 32 ->
  exists q h', place_first (r_base r) size req (2 ^ k) h = Done (q, h') /\
    placed h h' r prev next [] (Blk (r_base r + 24) size req) [] (2 ^ k) q.
Proof.
  intros Hok Hat E Hfit Hsz Hreq Hk.
  assert (0 < 2 ^ k) by (apply Z.pow_pos_nonneg; lia).
  pose proof (gapped_open _ _ _ _ [] [] Hok E Hat) as G. simpl in G.
  pose proof Hok as (? & ? & ? & ? & ?).
  unfold place_first. exec. unfold sizeof_major. rewrite (uwrap_small 32 (r_base r + 24)) by lia. ldsimp.
  apply (finish_ok _ _ bump_max r prev next [] (Blk (r_base r + 24) size req) []
           (r_base r + 24) (r_end r) k bump_max_ok); try done; try lia; hsimp.
  - simpl. unfold hd_addr, last_addr, end_of in G. simpl in G.
    repeat (apply gapped_store; [|lia|lia]). eapply gapped_set_first; [|lia|lia].
    destruct G as (M & _ & _ & F1 & F2 & A & P). split_and!; done.
  - unfold minor_at. simpl. unfold LIBALLOC_MAGIC. by ldsimp.
  - unfold b_end. simpl. lia.
Qed.

Lemma gapped_any_next m0 m r prev next usage first n1 n1' p2 b2 glo ghi :
  gapped m0 m r prev next usage first [] n1 p2 b2 glo ghi ->
  gapped m0 m r prev next usage first [] n1' p2 b2 glo ghi.
Proof. done. Qed.

Lemma gapped_any_prev m0 m r prev next usage first b1 n1 p2 p2' glo ghi :
  gapped m0 m r prev next usage first b1 n1 p2 [] glo ghi ->
  gapped m0 m r prev next usage first b1 n1 p2' [] glo ghi.
Proof. done. Qed.

Lemma place_front_ok (h : heap OS) r prev next b l size req k :
  region_ok r -> region_at (mem h) prev r next -> r_blks r = b :: l ->
  r_base r + 48 + size <= b_addr b -> size = req + 2 ^ k + 16 -> 0 <= req -> 1 <= k < 32 ->
  exists q h', place_front (r_base r) size req (2 ^ k) h = Done (q, h') /\
    placed h h' r prev next [] (Blk (r_base r + 24) size req) (b :: l) (2 ^ k) q.
Proof.
  intros Hok Hat E Hfit Hsz Hreq Hk.
  assert (0 < 2 ^ k) by (apply Z.pow_pos_nonneg; lia).
  pose proof (gapped_open _ _ _ _ [] (b :: l) Hok E Hat) as G. simpl in G.
  pose proof Hok as (? & ? & ? & ? & F). rewrite E in F. simpl in F. destruct F as (? & ? & ? & F).
  pose proof (fits_le _ _ _ F) as Fe. unfold b_end in Fe.
  assert (load32 (mem h) (r_base r + 20) = b_addr b) as L1.
  { destruct Hat as [M _]. rewrite E in M. apply M. }
  unfold place_front. exec. rewrite L1. unfold sizeof_major.
  rewrite (uwrap_small 32 (r_base r + 24)) by lia. exec. ldsimp.
  apply (finish_ok _ _ bump_max r prev next [] (Blk (r_base r + 24) size req) (b :: l)
           (r_base r + 24) (b_addr b) k bump_max_ok); try done; try lia; hsimp.
  - simpl. unfold last_addr, end_of in G. simpl in G.
    repeat (apply gapped_store; [|lia|lia]). eapply gapped_set_first; [|lia|lia].
    apply gapped_store; [|lia|lia]. eapply gapped_set_prev; [|lia|lia].
    eapply gapped_any_next. exact G.
  - unfold minor_at. simpl. unfold LIBALLOC_MAGIC. ldsimp. split_and!; done.
  - unfold b_end. simpl. lia.
Qed.

(** The header of a block in the middle of a region. *)
Lemma region_minor_at m prev r next l b l2 :
  region_at m prev r next -> r_blks r = (l ++ [b]) ++ l2 ->
  minor_at m (r_base r) (last_addr l 0) b (hd_addr l2 0).
Proof.
  intros [_ S] E. rewrite E, <- app_assoc in S. apply seg_app in S as [_ S]. simpl in S. apply S.
Qed.

Lemma place_last_ok (h : heap OS) r prev next l b size req k :
  region_ok r -> region_at (mem h) prev r next -> r_blks r = l ++ [b] ->
  b_end b + 24 + size <= r_end r -> size = req + 2 ^ k + 16 -> 0 <= req -> 1 <= k < 32 ->
  exists q h', place_last (r_base r) (b_addr b) size req (2 ^ k) h = Done (q, h') /\
    placed h h' r prev next (l ++ [b]) (Blk (b_end b) size req) [] (2 ^ k) q.
Proof.
  intros Hok Hat E Hfit Hsz Hreq Hk.
  assert (0 < 2 ^ k) by (apply Z.pow_pos_nonneg; lia).
  assert (r_blks r = (l ++ [b]) ++ []) as E' by by rewrite app_nil_r.
  pose proof (gapped_open _ _ _ _ _ _ Hok E' Hat) as G.
  pose proof Hok as (? & ? & ? & ? & F). rewrite E in F. apply fits_app in F as [F1 F2].
  pose proof (fits_le _ _ _ F1). destruct F2 as (? & ? & ? & Fe). unfold b_end in *. simpl in Fe.
  pose proof (region_minor_at _ _ _ _ _ _ _ Hat E') as (_ & _ & _ & _ & L1 & _).
  unfold place_last. exec. rewrite L1. unfold sizeof_minor. usimp. ldsimp.
  rewrite hd_addr_app in G. simpl in G. rewrite end_of_snoc, last_addr_snoc, app_nil_r in G. unfold b_end in G.
  apply (finish_ok _ _ bump_max r prev next (l ++ [b]) (Blk (b_addr b + 24 + b_size b) size req) []
           (b_addr b + 24 + b_size b) (r_end r) k bump_max_ok); try done; try lia; hsimp.
  - rewrite app_nil_r, hd_addr_app. simpl.
    repeat (apply gapped_store; [|lia|lia]). eapply gapped_set_next; [|lia|lia].
    eapply gapped_any_prev. rewrite (hd_addr_default _ _ 0); [exact G|]. by destruct l.
  - unfold minor_at. simpl. unfold LIBALLOC_MAGIC. rewrite last_addr_snoc. ldsimp. split_and!; done.
Qed.

Lemma charge_no_bump (h : heap OS) maj size (k : M (heap OS) Z) :
  (charge maj size ;; k) h = (charge maj size ;; mret tt ;; k) h.
Proof. reflexivity. Qed.

Lemma place_between_ok (h : heap OS) r prev next l b c l2 size req k :
  region_ok r -> region_at (mem h) prev r next -> r_blks r = (l ++ [b]) ++ c :: l2 ->
  b_end b + 24 + size <= b_addr c -> size = req + 2 ^ k + 16 -> 0 <= req -> 1 <= k < 32 ->
  exists q h', place_between (r_base r) (b_addr b) size req (2 ^ k) h = Done (q, h') /\
    placed h h' r prev next (l ++ [b]) (Blk (b_end b) size req) (c :: l2) (2 ^ k) q.
Proof.
  intros Hok Hat E Hfit Hsz Hreq Hk.
  assert (0 < 2 ^ k) by (apply Z.pow_pos_nonneg; lia).
  pose proof (gapped_open _ _ _ _ _ _ Hok E Hat) as G.
  pose proof Hok as (? & ? & ? & ? & F). rewrite E in F. apply fits_app in F as [F1 F2].
  pose proof F1 as F1'. rewrite end_of_snoc in F1', F2. apply fits_app in F1' as [F1' Fb].
  pose proof (fits_le _ _ _ F1'). destruct Fb as (? & ? & ? & _). destruct F2 as (? & ? & ? & F2).
  pose proof (fits_le _ _ _ F2) as Fe. unfold b_end in *.
  pose proof (region_minor_at _ _ _ _ _ _ _ Hat E) as (_ & L0 & _ & _ & L1 & _). simpl in L0.
  unfold place_between. exec. rewrite L0, L1.
  rewrite (uwrap_small 32 (b_addr b + sizeof_minor)) by (unfold sizeof_minor; lia).
  rewrite (uwrap_small 32 (b_addr b + sizeof_minor + b_size b)) by (unfold sizeof_minor; lia).
  change (b_addr b + sizeof_minor) with (b_addr b + 24).
  rewrite charge_no_bump. hsimp.
  rewrite end_of_snoc, last_addr_snoc in G. unfold b_end in G. simpl in G.
  apply (finish_ok _ _ (mret tt) r prev next (l ++ [b]) (Blk (b_addr b + 24 + b_size b) size req) (c :: l2)
           (b_addr b + 24 + b_size b) (b_addr c) k no_bump_ok); try done; try lia; hsimp.
  - rewrite hd_addr_app. simpl. eapply gapped_set_next; [|lia|lia]. eapply gapped_set_prev; [|lia|lia].
    repeat (apply gapped_store; [|lia|lia]).
    rewrite hd_addr_app in G. simpl in G.
    rewrite (hd_addr_default _ _ (b_addr c)); [exact G|]. by destruct l.
  - unfold minor_at. simpl. unfold LIBALLOC_MAGIC. rewrite last_addr_snoc. ldsimp. split_and!; done.
Qed.
End Place.
End LiballocPlace.
