(* ===== verification/LiballocProofs.v ===== *)
(** * LiballocProofs: invariant, safety and termination of the allocator

    [hinv h rs] is the heap invariant: the memory of [h] holds the linked lists
    of the regions [rs], the regions are those obtained from the page source,
    and the statistics are the sums they claim to be.  [malloc_align] and [free]
    preserve it; the theorems say what they do to the set of allocated blocks. *)
From stdpp Require Import base gmap list sets.
From Stdlib Require Import ZArith Lia.
From S2P Require Import Prelude Mem32 Liballoc LiballocRep LiballocPlace.
Import Liballoc LiballocRep LiballocPlace.

Module LiballocProofs.
#[local] Opaque load32 store32 uwrap.

Section Proofs.
Context {OS : Type} `{PageSourceLaws OS}.
Implicit Types h : heap OS.

Definition os_view (rs : list region) : list (Z * Z) := map (fun r => (r_base r, r_pages r)) rs.

Record hinv (h : heap OS) (rs : list region) (locked : bool) : Prop := {
  hi_root : l_memRoot h = hd_base rs 0;
  hi_regs : regs (mem h) 0 rs 0;
  hi_ok : Forall region_ok rs;
  hi_apart : apart rs;
  hi_best : l_bestBet h = 0 \/ l_bestBet h ∈ map r_base rs;
  hi_lock : l_locked h = locked;
  hi_os : os_wf (l_os h);
  hi_view : os_regions (l_os h) ≡ₚ os_view rs;
  hi_inuse : l_inuse h = u64 (sizes (all_blks rs));
  hi_alloc : l_allocated h = u64 (total_pages rs);
}.

(** The payloads of the blocks [l] are the same in [h] and [h']. *)
Definition payloads_kept (h h' : heap OS) (l : list blk) : Prop :=
  Forall (fun b => agree_on (mem h) (mem h') (b_addr b + 24) (b_end b)) l.

(** The outcome of a placement in region [r]. *)
Definition placed_in (h h' : heap OS) (r : region) (prev next size req alignment q : Z) : Prop :=
  exists b1 b2 a, r_blks r = b1 ++ b2 /\
    end_of b1 (r_base r + 24) <= a /\ a + 24 + size <= hd_addr b2 (r_end r) /\
    placed h h' r prev next b1 (Blk a size req) b2 alignment q.

(** The request: its size includes the alignment slack and fits in the address
    space with room for the headers and the rounding to pages. *)
Definition request (size req k : Z) : Prop :=
  size = req + 2 ^ k + 16 /\ 0 <= req /\ 1 <= k < 32 /\ size + 48 <= 2 ^ 32 - 4096.

Lemma request_range size req k : request size req k -> 0 < 2 ^ k /\ 16 < size < 2 ^ 32 - 4096 /\ 0 <= req < 2 ^ 32.
Proof.
  intros (? & ? & ? & ?). assert (0 < 2 ^ k) by (apply Z.pow_pos_nonneg; lia). lia.
Qed.

(** ** The search in one block *)

Lemma search_minors_ok h r prev next size req k :
  region_ok r -> region_at (mem h) prev r next -> request size req k ->
  forall l2 l1 fuel, r_blks r = l1 ++ l2 -> (length l2 < fuel)%nat ->
  search_minors fuel (r_base r) (hd_addr l2 0) size req (2 ^ k) h = Done (None, h) \/
  exists q h', search_minors fuel (r_base r) (hd_addr l2 0) size req (2 ^ k) h = Done (Some q, h') /\
    placed_in h h' r prev next size req (2 ^ k) q.
Proof.
  intros Hok Hat Hrq. pose proof (request_range _ _ _ Hrq) as (? & ? & ?).
  pose proof Hok as (? & ? & ? & ? & F). destruct Hrq as (? & ? & ? & ?).
  induction l2 as [|b l2 IH]; intros l1 [|fuel] E Hf; try (simpl in Hf; lia); [by left|].
  assert (r_blks r = (l1 ++ [b]) ++ l2) as E' by by rewrite <- app_assoc.
  pose proof F as Fa. rewrite E in Fa. apply fits_app in Fa as [Fl Fr]. simpl in Fr.
  destruct Fr as (? & ? & ? & Fr). pose proof (fits_le _ _ _ Fl). pose proof (fits_le _ _ _ Fr).
  pose proof (region_minor_at _ _ _ _ _ _ _ Hat E') as (_ & L1 & _ & _ & L2 & _).
  assert (load32 (mem h) (r_base r + 12) = page_bytes (r_pages r)) as L3 by apply Hat.
  unfold b_end in *. cbn [search_minors hd_addr].
  rewrite (proj2 (Z.eqb_neq (b_addr b) 0)) by lia.
  exec. rewrite L1, L2, L3. unfold sizeof_minor. rewrite (uwrap_small 32 (size + 24)) by lia.
  destruct l2 as [|c l2]; cbn [hd_addr] in *.
  - rewrite Z.eqb_refl. change (r_base r + page_bytes (r_pages r)) with (r_end r) in *. usimp.
    destruct (Z.leb_spec (size + 24) (r_end r - b_addr b - 24 - b_size b)).
    + right. rewrite app_nil_r in E'.
      destruct (place_last_ok h r prev next l1 b size req k) as (q & h' & Ep & P);
        try done; unfold b_end in *; try lia.
      rewrite (run_bind_done _ _ _ _ _ Ep). exists q, h'. split; [done|].
      exists (l1 ++ [b]), [], (b_end b). rewrite end_of_snoc, app_nil_r. unfold b_end in *. simpl.
      split_and!; try done; try lia.
    + left. destruct fuel; [simpl in *; lia|done].
  - simpl in Fr. destruct Fr as (? & ? & ? & Fr). pose proof (fits_le _ _ _ Fr). unfold b_end in *.
    rewrite (proj2 (Z.eqb_neq (b_addr c) 0)) by lia. usimp.
    destruct (Z.leb_spec (size + 24) (b_addr c - b_addr b - 24 - b_size b)).
    + right. destruct (place_between_ok h r prev next l1 b c l2 size req k) as (q & h' & Ep & P);
        try done; unfold b_end in *; try lia.
      rewrite (run_bind_done _ _ _ _ _ Ep). exists q, h'. split; [done|].
      exists (l1 ++ [b]), (c :: l2), (b_end b). rewrite end_of_snoc. unfold b_end in *. simpl.
      split_and!; try done; try lia.
    + apply (IH (l1 ++ [b])); [done|simpl in *; lia].
Qed.

Lemma place_in_ok h r prev next size req k fuel :
  region_ok r -> region_at (mem h) prev r next -> request size req k ->
  (r_blks r = [] -> r_base r + 48 + size <= r_end r) -> (length (r_blks r) < fuel)%nat ->
  (r_blks r <> [] /\ place_in fuel (r_base r) size req (2 ^ k) h = Done (None, h)) \/
  exists q h', place_in fuel (r_base r) size req (2 ^ k) h = Done (Some q, h') /\
    placed_in h h' r prev next size req (2 ^ k) q.
Proof.
  intros Hok Hat Hrq Hroom Hf. pose proof (request_range _ _ _ Hrq) as (? & ? & ?).
  pose proof Hrq as (? & ? & ? & ?). pose proof Hok as (? & ? & ? & ? & F).
  assert (load32 (mem h) (r_base r + 20) = hd_addr (r_blks r) 0) as L1 by apply Hat.
  unfold place_in. exec. rewrite L1. unfold sizeof_major, sizeof_minor.
  destruct (r_blks r) as [|b l] eqn:E; cbn [hd_addr].
  - rewrite Z.eqb_refl. right.
    destruct (place_first_ok h r prev next size req k) as (q & h' & Ep & P); try done; [by apply Hroom|].
    rewrite (run_bind_done _ _ _ _ _ Ep). exists q, h'. split; [done|].
    exists [], [], (r_base r + 24). simpl. unfold end_of. simpl. specialize (Hroom eq_refl).
    split_and!; try done; lia.
  - pose proof F as (? & ? & ? & Fr). pose proof (fits_le _ _ _ Fr). unfold b_end in *.
    rewrite (proj2 (Z.eqb_neq (b_addr b) 0)) by lia. usimp.
    destruct (Z.leb_spec (size + 24) (b_addr b - r_base r - 24)).
    + right. destruct (place_front_ok h r prev next b l size req k) as (q & h' & Ep & P); try done; [lia|].
      rewrite (run_bind_done _ _ _ _ _ Ep). exists q, h'. split; [done|].
      exists [], (b :: l), (r_base r + 24). simpl. unfold end_of. simpl. split_and!; try done; lia.
    + destruct (search_minors_ok h r prev next size req k Hok Hat Hrq (b :: l) [] fuel) as [Es|Hs];
        [by rewrite E|done|by left|by right].
Qed.

(** ** The list of regions *)

Lemma regs_middle m l1 r l2 :
  regs m 0 (l1 ++ r :: l2) 0 <->
  regs m 0 l1 (r_base r) /\ region_at m (last_base l1 0) r (hd_base l2 0) /\ regs m (r_base r) l2 0.
Proof. rewrite regs_app. simpl. tauto. Qed.

Lemma all_blks_middle l1 r l2 : all_blks (l1 ++ r :: l2) = all_blks l1 ++ r_blks r ++ all_blks l2.
Proof. unfold all_blks. by rewrite bind_app, bind_cons. Qed.

Lemma sizes_perm l l' : l ≡ₚ l' -> sizes l = sizes l'.
Proof. unfold sizes. induction 1; simpl; lia. Qed.

(** Blocks of regions apart from [r] are not touched by changes inside [r]. *)
Lemma apart_payloads_kept m m' r rs :
  agree_off m m' (r_base r) (r_end r) -> Forall (r_apart r) rs -> Forall region_ok rs ->
  Forall (fun b => agree_on m m' (b_addr b + 24) (b_end b)) (all_blks rs).
Proof.
  intros A F O. unfold all_blks. induction F as [|r' rs Hr F IH]; [constructor|].
  inversion O as [|? ? Hok O']; subst. rewrite bind_cons, Forall_app. split; [|by apply IH].
  destruct Hok as (? & ? & ? & ? & Ff).
  eapply Forall_impl; [by eapply fits_bounds|]. simpl. intros b (? & ? & ?).
  eapply agree_off_on; [done|]. unfold r_apart in Hr. lia.
Qed.

Lemma apart_regions_kept m m' r rs :
  agree_off m m' (r_base r) (r_end r) -> Forall (r_apart r) rs ->
  Forall (fun r => agree_on m m' (r_base r) (r_end r)) rs.
Proof.
  intros A F. eapply Forall_impl; [done|]. simpl. intros r' Hr.
  eapply agree_off_on; [done|]. unfold r_apart in Hr. lia.
Qed.

Lemma Forall_r_apart_blks r blks rs :
  Forall (r_apart r) rs -> Forall (r_apart (Region (r_base r) (r_pages r) blks)) rs.
Proof. done. Qed.

(** Replace the blocks of one region, the rest of the list being untouched. *)
Lemma regs_update m m' l1 r l2 blks :
  Forall region_ok (l1 ++ r :: l2) -> apart (l1 ++ r :: l2) ->
  regs m 0 (l1 ++ r :: l2) 0 ->
  agree_off m m' (r_base r) (r_end r) ->
  region_at m' (last_base l1 0) (Region (r_base r) (r_pages r) blks) (hd_base l2 0) ->
  regs m' 0 (l1 ++ Region (r_base r) (r_pages r) blks :: l2) 0.
Proof.
  intros O Ap R A Hat. apply regs_middle in R as (R1 & _ & R2). apply regs_middle. simpl.
  apply Forall_app in O as [O1 O2]. inversion O2; subst.
  pose proof (apart_middle _ _ _ Ap) as F. apply Forall_app in F as [F1 F2].
  split_and!; [|done|].
  - eapply regs_agree; [done| |done]. by eapply apart_regions_kept.
  - eapply regs_agree; [done| |done]. by eapply apart_regions_kept.
Qed.

Lemma apart_update l1 r l2 blks :
  apart (l1 ++ r :: l2) -> apart (l1 ++ Region (r_base r) (r_pages r) blks :: l2).
Proof.
  rewrite !apart_app. simpl. intros (? & [? ?] & F). split_and!; try done.
  eapply Forall_impl; [done|]. simpl. intros r' F'. inversion F'; subst. by constructor.
Qed.

Lemma os_view_update l1 r l2 blks :
  os_view (l1 ++ Region (r_base r) (r_pages r) blks :: l2) = os_view (l1 ++ r :: l2).
Proof. unfold os_view. by rewrite !map_app. Qed.

Lemma bases_update l1 r l2 blks :
  map r_base (l1 ++ Region (r_base r) (r_pages r) blks :: l2) = map r_base (l1 ++ r :: l2).
Proof. by rewrite !map_app. Qed.

Lemma total_pages_app l1 l2 : total_pages (l1 ++ l2) = total_pages l1 + total_pages l2.
Proof. unfold total_pages. induction l1; simpl; lia. Qed.

Lemma total_pages_update l1 r l2 blks :
  total_pages (l1 ++ Region (r_base r) (r_pages r) blks :: l2) = total_pages (l1 ++ r :: l2).
Proof. by rewrite !total_pages_app. Qed.

Lemma hd_base_update l1 r l2 blks :
  hd_base (l1 ++ Region (r_base r) (r_pages r) blks :: l2) 0 = hd_base (l1 ++ r :: l2) 0.
Proof. by destruct l1. Qed.

Lemma u64_add a b : u64 (u64 a + b) = u64 (a + b).
Proof. with_strategy transparent [uwrap] unfold uwrap. by rewrite Zplus_mod_idemp_l. Qed.

(** A placement in a region keeps the invariant and adds one block. *)
Lemma hinv_placed h h' l1 r l2 lk size req k q :
  hinv h (l1 ++ r :: l2) lk -> request size req k ->
  placed_in h h' r (last_base l1 0) (hd_base l2 0) size req (2 ^ k) q ->
  exists rs' nb, hinv h' rs' lk /\ all_blks rs' ≡ₚ nb :: all_blks (l1 ++ r :: l2) /\
    b_size nb = size /\ b_req nb = req /\ handed_out h' nb (2 ^ k) q /\
    payloads_kept h h' (all_blks (l1 ++ r :: l2)).
Proof.
  intros I Hrq (b1 & b2 & a & E & Hlo & Hhi & P).
  pose proof (request_range _ _ _ Hrq) as (? & ? & ?). destruct I.
  destruct P as (Hat & A & Pk & HO & E1 & E2 & E3 & E4 & E5 & E6).
  set (nb := Blk a size req) in *.
  exists (l1 ++ Region (r_base r) (r_pages r) (b1 ++ nb :: b2) :: l2), nb.
  assert (all_blks (l1 ++ Region (r_base r) (r_pages r) (b1 ++ nb :: b2) :: l2)
            ≡ₚ nb :: all_blks (l1 ++ r :: l2)) as Hp.
  { rewrite !all_blks_middle, E. simpl. rewrite <- !app_assoc. simpl.
    by rewrite !(Permutation_middle _ _ nb). }
  split_and!; try done.
  - split; rewrite ?hd_base_update, ?os_view_update, ?bases_update, ?total_pages_update; try congruence.
    + by eapply regs_update.
    + apply Forall_app in hi_ok0 as [O1 O2]. inversion O2 as [|? ? Hr O2']; subst.
      apply Forall_app. split; [done|]. constructor; [|done].
      destruct Hr as (? & ? & ? & ? & F). rewrite E in F. split_and!; try done; try (simpl; lia).
      apply fits_insert; try done; simpl; lia.
    + by apply apart_update.
    + rewrite E4, hi_inuse0, u64_add. rewrite (sizes_perm _ _ Hp). simpl. f_equal. lia.
  - unfold payloads_kept. rewrite all_blks_middle, E.
    pose proof (apart_middle _ _ _ hi_apart0) as F. apply Forall_app in F as [F1 F2].
    apply Forall_app in hi_ok0 as [O1 O2]. inversion O2; subst.
    rewrite !Forall_app. rewrite Forall_app in Pk. destruct Pk.
    split_and!; try done; by eapply apart_payloads_kept.
Qed.

(** ** New pages *)

Lemma pages_for_ok size :
  0 <= size -> size + 48 <= 2 ^ 32 - 4096 ->
  0 < pages_for size < 2 ^ 20 /\ size + 48 <= page_bytes (pages_for size).
Proof.
  intros ??. unfold pages_for, sizeof_major, sizeof_minor, l_pageSize, l_pageCount, page_bytes.
  rewrite (uwrap_small 32 (size + 24)) by lia. rewrite uwrap_small by lia.
  replace (size + 24 + 24) with (size + 48) by lia.
  pose proof (Z.div_mod (size + 48) 4096). pose proof (Z.mod_pos_bound (size + 48) 4096).
  destruct (Z.eqb_spec ((size + 48) mod 4096) 0);
    match goal with |- context [if ?x <? 16 then _ else _] => destruct (Z.ltb_spec x 16) end; lia.
Qed.

(** The state changes of [allocate_new_page] apart from memory and pages. *)
Definition same_lists (h h' : heap OS) : Prop :=
  l_memRoot h' = l_memRoot h /\ l_bestBet h' = l_bestBet h /\ l_inuse h' = l_inuse h /\
  l_locked h' = l_locked h.

Lemma allocate_new_page_ok h rs lk size :
  hinv h rs lk -> 0 <= size -> size + 48 <= 2 ^ 32 - 4096 ->
  allocate_new_page size h = Fault Panic \/
  (exists h', allocate_new_page size h = Done (0, h') /\ hinv h' rs lk /\ mem h' = mem h /\
     l_bestBet h' = l_bestBet h) \/
  (exists h' r, allocate_new_page size h = Done (r_base r, h') /\ r_blks r = [] /\ region_ok r /\
     r_base r + 48 + size <= r_end r /\ region_at (mem h') 0 r 0 /\
     Forall (r_apart r) rs /\ agree_off (mem h) (mem h') (r_base r) (r_end r) /\
     same_lists h h' /\ os_wf (l_os h') /\ os_regions (l_os h') ≡ₚ os_view (r :: rs) /\
     l_allocated h' = u64 (page_bytes (r_pages r) + total_pages rs)).
Proof.
  intros I H1 H2. destruct (pages_for_ok size H1 H2) as [Hp Hb]. pose proof I as I'. destruct I.
  unfold allocate_new_page. cbv zeta. set (st := pages_for size) in *.
  destruct (os_alloc st (mem h) (l_os h)) as [[[a m'] s']|f] eqn:Ea.
  2: { left. unfold liballoc_alloc, mbind, M_bind. rewrite Ea. f_equal.
       by eapply (os_alloc_fault st (mem h) (l_os h)). }
  right. assert (liballoc_alloc st h = Done (a, set_mem_os m' s' h)) as Er.
  { unfold liballoc_alloc. by rewrite Ea. }
  rewrite (run_bind_done _ _ _ _ _ Er).
  destruct (os_alloc_ok st (mem h) (l_os h) a m' s') as [Hwf [(-> & -> & Hr)|(Ha & Hal & Hend & Hd & Hr & Hag)]];
    try done.
  - left. rewrite Z.eqb_refl. eexists. split; [reflexivity|]. hsimp. split_and!; try done.
    split; hsimp; try done. by rewrite Hr.
  - right. rewrite (proj2 (Z.eqb_neq a 0)) by lia. exec.
    assert (page_bytes st = st * 4096) as Eb by done.
    unfold l_pageSize, sizeof_major. usimp. ldsimp.
    eexists _, (Region a st []). cbn [r_base r_pages r_blks]. split; [reflexivity|]. hsimp.
    change (r_end (Region a st [])) with (a + page_bytes st).
    split_and!; try done; try lia.
    + unfold region_ok. simpl. unfold r_end. simpl. lia.
    + split; [|done]. unfold major_at. simpl. ldsimp. split_and!; try done; lia.
    + assert (Forall (regions_disjoint (a, st)) (os_view rs)) as F.
      { rewrite <- hi_view0. done. }
      unfold os_view in F. apply (proj1 (List.Forall_map _ _ _)) in F. exact F.
    + intros x ?. rewrite !load8_store32_ne by lia. by apply Hag.
    + simpl. rewrite Hr. by rewrite hi_view0.
    + rewrite hi_alloc0, u64_add. f_equal. rewrite Eb. lia.
Qed.

(** Link a fresh region after the last one. *)
Lemma region_set_next m prev r next n :
  region_ok r -> 0 <= n < 2 ^ 32 -> region_at m prev r next ->
  region_at (store32 m (r_base r + 4) n) prev r n.
Proof.
  intros (? & ? & ? & ? & F) Hn [M S]. split.
  - destruct M as (? & ? & ? & ? & ? & ?). unfold major_at. ldsimp. done.
  - eapply seg_store; [done|lia|done].
Qed.

Lemma region_set_prev m prev r next n :
  region_ok r -> 0 <= n < 2 ^ 32 -> region_at m prev r next ->
  region_at (store32 m (r_base r + 0) n) n r next.
Proof.
  intros (? & ? & ? & ? & F) Hn [M S]. split.
  - destruct M as (? & ? & ? & ? & ? & ?). unfold major_at. ldsimp. done.
  - eapply seg_store; [done|lia|done].
Qed.

Lemma region_store_apart m prev r next r' x v :
  region_ok r -> r_apart r' r -> r_base r' <= x -> x + 4 <= r_end r' ->
  region_at m prev r next -> region_at (store32 m x v) prev r next.
Proof.
  intros Hok Ha ??. eapply region_at_agree; [done|]. apply agree_on_store32. unfold r_apart in Ha. lia.
Qed.

Lemma region_ok_size r : region_ok r -> r_base r + 24 <= r_end r /\ 0 < r_base r < 2 ^ 32.
Proof. intros (? & ? & ? & ? & F). apply fits_le in F. lia. Qed.

Lemma regs_store_apart m prev rs next r' x v :
  Forall region_ok rs -> Forall (r_apart r') rs -> r_base r' <= x -> x + 4 <= r_end r' ->
  regs m prev rs next -> regs (store32 m x v) prev rs next.
Proof.
  intros O A ??. eapply regs_agree; [done|]. eapply Forall_impl; [done|]. simpl. intros r Hr.
  apply agree_on_store32. unfold r_apart in Hr. lia.
Qed.

(** The heap after [maj->next = new; new->prev = maj]. *)
Definition linked (h1 : heap OS) (maj new : Z) : heap OS :=
  set_mem (fun m => store32 m (new + 0) maj) (set_mem (fun m => store32 m (maj + 4) new) h1).

Lemma hinv_linked h h1 l1 r n lk :
  hinv h (l1 ++ [r]) lk -> r_blks n = [] -> region_ok n -> region_at (mem h1) 0 n 0 ->
  Forall (r_apart n) (l1 ++ [r]) -> agree_off (mem h) (mem h1) (r_base n) (r_end n) ->
  same_lists h h1 -> os_wf (l_os h1) -> os_regions (l_os h1) ≡ₚ os_view (n :: l1 ++ [r]) ->
  l_allocated h1 = u64 (page_bytes (r_pages n) + total_pages (l1 ++ [r])) ->
  hinv (linked h1 (r_base r) (r_base n)) ((l1 ++ [r]) ++ [n]) lk /\
  payloads_kept h (linked h1 (r_base r) (r_base n)) (all_blks (l1 ++ [r])) /\
  all_blks ((l1 ++ [r]) ++ [n]) = all_blks (l1 ++ [r]).
Proof.
  intros I En Hn Hat Hap Hag (S1 & S2 & S3 & S4) Hwf Hview Halloc. destruct I.
  assert (all_blks ((l1 ++ [r]) ++ [n]) = all_blks (l1 ++ [r])) as Eb.
  { unfold all_blks. rewrite !bind_app, !bind_cons, En. simpl. by rewrite app_nil_r. }
  pose proof hi_ok0 as O. apply Forall_app in O as [O1 O2]. inversion O2 as [|? ? Hr _]; subst.
  pose proof (region_ok_size _ Hr). pose proof (region_ok_size _ Hn).
  pose proof Hap as Hap'. apply Forall_app in Hap' as [Ha1 Ha2]. inversion Ha2 as [|? ? Har _]; subst.
  pose proof (apart_middle _ _ [] hi_apart0) as Hmid. rewrite app_nil_r in Hmid.
  assert (regs (mem h1) 0 (l1 ++ [r]) 0) as R.
  { eapply regs_agree; [done| |done]. by eapply apart_regions_kept. }
  apply regs_middle in R as (R1 & R2 & _). simpl in R2.
  split; [|split; [|done]].
  - unfold linked. split; hsimp; rewrite ?Eb; try congruence.
    + rewrite S1, hi_root0. by rewrite (hd_base_app (l1 ++ [r])), (hd_base_app l1), (hd_base_app l1).
    + apply regs_middle. simpl. replace (last_base (l1 ++ [r]) 0) with (r_base r).
      2: { unfold last_base. by rewrite last_snoc. }
      split_and!; [|apply region_set_prev with 0; try done; try lia|done].
      * apply regs_app. simpl. split; [|split; [apply region_store_apart with n; try done; try lia|done]].
        -- eapply (regs_store_apart _ _ _ _ n); [done|done|lia|lia|]. eapply (regs_store_apart _ _ _ _ r); try done; lia.
        -- eapply region_set_next; try done. lia.
      * eapply region_store_apart with r; try done; try lia.
    + apply Forall_app. split; [done|]. by constructor.
    + apply apart_app. split_and!; [done|by split|]. eapply Forall_impl; [exact Hap|]. simpl.
      intros r' ?. constructor; [by apply r_apart_sym|constructor].
    + rewrite S2. destruct hi_best0; [by left|right]. rewrite map_app, elem_of_app. by left.
    + rewrite Hview. unfold os_view. rewrite (map_app _ (l1 ++ [r])). apply Permutation_cons_append.
    + rewrite Halloc. f_equal. rewrite (total_pages_app _ [n]). unfold total_pages at 3. simpl. lia.
  - pose proof (apart_payloads_kept _ _ _ _ Hag Hap hi_ok0) as Pk. unfold payloads_kept, linked. hsimp.
    rewrite Forall_forall in Pk |- *. intros b Hb x Hx. rewrite !load8_store32_ne; [by apply (Pk _ Hb)| |].
    all: apply list_elem_of_bind in Hb as (r' & Hb & Hr'); rewrite Forall_forall in hi_ok0, Hap, Hmid.
    all: pose proof (hi_ok0 _ Hr') as (? & ? & ? & ? & F'); pose proof (fits_bounds _ _ _ F') as Fb;
         rewrite Forall_forall in Fb; specialize (Fb _ Hb); simpl in Fb.
    + apply elem_of_app in Hr' as [Hr'|Hr'].
      * specialize (Hmid _ Hr'). unfold r_apart in Hmid. lia.
      * apply list_elem_of_singleton in Hr' as ->. lia.
    + specialize (Hap _ Hr'). unfold r_apart in Hap. lia.
Qed.
End Proofs.
End LiballocProofs.
