(* ===== verification/LiballocSearch.v ===== *)
(** * LiballocSearch: the search over the major blocks

    [search_majors] walks the list of blocks, restarts once from the root when it
    began at the best bet, and extends the list with new pages when nothing
    fits.  The lemmas show that it ends, and that it ends with the invariant:
    either one new block was placed, or NULL is returned with no block changed,
    or the page source stopped the machine. *)
From stdpp Require Import base gmap list sets.
From Stdlib Require Import ZArith Lia.
From S2P Require Import Prelude Mem32 Liballoc LiballocRep LiballocPlace LiballocProofs.
Import Liballoc LiballocRep LiballocPlace LiballocProofs.

Module LiballocSearch.
#[local] Opaque load32 store32 uwrap.

Section Search.
Context {OS : Type} `{PageSourceLaws OS}.
Implicit Types h : heap OS.

(** One more block is allocated and handed out at [q]. *)
Definition allocated (h h' : heap OS) (rs : list region) (lk : bool) (size req k q : Z) : Prop :=
  exists rs' nb, hinv h' rs' lk /\ all_blks rs' ≡ₚ nb :: all_blks rs /\
    b_size nb = size /\ b_req nb = req /\ handed_out h' nb (2 ^ k) q /\
    payloads_kept h h' (all_blks rs).

(** NULL: the same blocks are allocated. *)
Definition refused (h h' : heap OS) (rs : list region) (lk : bool) : Prop :=
  exists rs', hinv h' rs' lk /\ all_blks rs' = all_blks rs /\ payloads_kept h h' (all_blks rs).

Definition alloc_result (h : heap OS) (rs : list region) (lk : bool) (size req k : Z)
    (o : outcome (Z * heap OS)) : Prop :=
  o = Fault Panic \/
  (exists h', o = Done (0, h') /\ refused h h' rs lk) \/
  (exists q h', o = Done (q, h') /\ allocated h h' rs lk size req k q).

Lemma payloads_kept_refl h h' l : mem h' = mem h -> payloads_kept h h' l.
Proof. intros E. unfold payloads_kept. rewrite E. by apply Forall_true. Qed.

Lemma payloads_kept_trans h1 h2 h3 l : payloads_kept h1 h2 l -> payloads_kept h2 h3 l -> payloads_kept h1 h3 l.
Proof.
  intros P1 P2. eapply Forall_impl; [apply Forall_and; split; [exact P1|exact P2]|].
  simpl. intros b [? ?]. by eapply agree_on_trans.
Qed.

(** A result from an intermediate heap is a result from the first one. *)
Lemma alloc_result_trans h h1 rs rs1 lk size req k o :
  all_blks rs1 = all_blks rs -> payloads_kept h h1 (all_blks rs) ->
  alloc_result h1 rs1 lk size req k o -> alloc_result h rs lk size req k o.
Proof.
  intros E P [->|[(h' & -> & rs' & ? & ? & ?)|(q & h' & -> & rs' & nb & ? & ? & ? & ? & ? & ?)]].
  - by left.
  - right; left. eexists. split; [done|]. exists rs'. rewrite <- E in *.
    split_and!; try done. by eapply payloads_kept_trans.
  - right; right. eexists _, _. split; [done|]. exists rs', nb. rewrite <- E in *.
    split_and!; try done. by eapply payloads_kept_trans.
Qed.

Lemma hinv_region h l1 r l2 lk :
  hinv h (l1 ++ r :: l2) lk ->
  region_ok r /\ region_at (mem h) (last_base l1 0) r (hd_base l2 0).
Proof.
  intros I. destruct I. apply Forall_app in hi_ok0 as [_ O]. inversion O; subst.
  split; [done|]. by apply regs_middle in hi_regs0 as (_ & ? & _).
Qed.

(** The words of the header the search reads. *)
Lemma hinv_header h l1 r l2 lk :
  hinv h (l1 ++ r :: l2) lk ->
  load32 (mem h) (r_base r + 4) = hd_base l2 0 /\
  load32 (mem h) (r_base r + 12) = page_bytes (r_pages r) /\
  load32 (mem h) (r_base r + 16) = usage_of (r_blks r) /\
  24 <= usage_of (r_blks r) <= page_bytes (r_pages r) /\
  page_bytes (r_pages r) < 2 ^ 32 /\ 0 < r_base r < 2 ^ 32.
Proof.
  intros I. apply hinv_region in I as [(? & ? & ? & ? & F) [M _]].
  destruct M as (? & ? & ? & ? & ? & ?). pose proof (usage_of_fits _ _ _ F) as U.
  unfold r_end in *. split_and!; try done; lia.
Qed.

Lemma hinv_set_best h l1 r l2 lk :
  hinv h (l1 ++ r :: l2) lk -> hinv (set_best (r_base r) h) (l1 ++ r :: l2) lk.
Proof.
  intros []. split; hsimp; try done. right. rewrite map_app, elem_of_app. right. apply list_elem_of_here.
Qed.

Lemma place_in_result h l1 r l2 lk size req k fuel :
  hinv h (l1 ++ r :: l2) lk -> request size req k ->
  size + 24 <= page_bytes (r_pages r) - usage_of (r_blks r) -> (length (r_blks r) < fuel)%nat ->
  (r_blks r <> [] /\ place_in fuel (r_base r) size req (2 ^ k) h = Done (None, h)) \/
  exists q h', place_in fuel (r_base r) size req (2 ^ k) h = Done (Some q, h') /\
    allocated h h' (l1 ++ r :: l2) lk size req k q.
Proof.
  intros I Hrq Hroom Hf. destruct (hinv_region _ _ _ _ _ I) as [Hok Hat].
  destruct (place_in_ok h r _ _ size req k fuel Hok Hat Hrq) as [?|(q & h' & E & P)]; [|done|by left|].
  - intros E. rewrite E in Hroom. unfold usage_of, r_end in *. simpl in Hroom. lia.
  - right. exists q, h'. split; [done|]. by eapply hinv_placed.
Qed.

(** The search started at a block with no minors and enough room. *)
Lemma search_fresh fuel h l1 r l2 lk bet best size req k :
  hinv h (l1 ++ r :: l2) lk -> request size req k -> r_blks r = [] ->
  r_base r + 48 + size <= r_end r ->
  alloc_result h (l1 ++ r :: l2) lk size req k
    (search_majors (S fuel) (r_base r) bet best size req (2 ^ k) h).
Proof.
  intros I Hrq En Hroom. destruct (hinv_header _ _ _ _ _ I) as (L1 & L2 & L3 & ? & ? & ?).
  pose proof (request_range _ _ _ Hrq) as (? & ? & ?). rewrite En in L3.
  unfold r_end, usage_of in *. simpl in L3.
  cbn [search_majors]. rewrite (proj2 (Z.eqb_neq (r_base r) 0)) by lia. exec. rewrite L2, L3.
  unfold sizeof_minor. usimp. set (b := best <? _).
  set (h2 := if b then set_best (r_base r) h else h).
  assert (hinv h2 (l1 ++ r :: l2) lk) as I2 by (subst h2; destruct b; [by apply hinv_set_best|done]).
  eapply alloc_result_trans with (h1 := h2) (rs1 := l1 ++ r :: l2); [done| |].
  { apply payloads_kept_refl. subst h2. by destruct b. }
  assert (forall A (k : unit -> M (heap OS) A), (when b (modify (set_best (r_base r))) ≫= k) h = k tt h2) as Ew.
  { intros. subst h2. by destruct b. }
  rewrite Ew. rewrite (proj2 (Z.ltb_ge _ _)) by lia.
  destruct (place_in_result h2 l1 r l2 lk size req k (S fuel) I2 Hrq) as [[? _]|(q & h' & E & P)].
  - rewrite En. unfold usage_of. simpl. lia.
  - rewrite En. simpl. lia.
  - done.
  - rewrite (run_bind_done _ _ _ _ _ E). right; right. eauto.
Qed.

(** Payloads are apart from the header words of every region. *)
Lemma payload_off_header l1 d l2 b :
  Forall region_ok (l1 ++ d :: l2) -> apart (l1 ++ d :: l2) -> b ∈ all_blks (l1 ++ d :: l2) ->
  r_base d + 24 <= b_addr b + 24 \/ b_end b <= r_base d.
Proof.
  intros O Ap Hb. apply list_elem_of_bind in Hb as (r & Hb & Hr).
  pose proof (apart_middle _ _ _ Ap) as A. rewrite Forall_forall in O, A.
  pose proof (O _ Hr) as (? & ? & ? & ? & F). apply fits_bounds in F. rewrite Forall_forall in F.
  specialize (F _ Hb). simpl in F. assert (region_ok d) as Hd by (apply O, elem_of_app; right; left).
  apply region_ok_size in Hd. specialize (A r). rewrite elem_of_app in A.
  rewrite elem_of_app, elem_of_cons in Hr. unfold r_apart in A.
  destruct Hr as [Hr|[->|Hr]]; [specialize (A (or_introl Hr))| |specialize (A (or_intror Hr))]; lia.
Qed.

(** A store of 0 in the [next] of the last block. *)
Lemma hinv_end_again h l1 r lk :
  hinv h (l1 ++ [r]) lk ->
  hinv (set_mem (fun m => store32 m (r_base r + 4) 0) h) (l1 ++ [r]) lk /\
  payloads_kept h (set_mem (fun m => store32 m (r_base r + 4) 0) h) (all_blks (l1 ++ [r])).
Proof.
  intros I. destruct (hinv_region _ _ _ _ _ I) as [Hr Hat]. destruct I.
  pose proof (region_ok_size _ Hr). pose proof (apart_middle _ _ [] hi_apart0) as Hmid.
  rewrite app_nil_r in Hmid. split.
  - split; hsimp; try done. apply regs_middle in hi_regs0 as (R1 & R2 & _).
    apply Forall_app in hi_ok0 as [O1 _].
    apply regs_middle. split; [|split; [|done]].
    + eapply (regs_store_apart _ _ _ _ r); try done; lia.
    + simpl. eapply region_set_next; try done.
  - unfold payloads_kept. apply Forall_forall. intros b Hb x Hx. hsimp.
    pose proof (payload_off_header _ _ _ _ hi_ok0 hi_apart0 Hb). by rewrite load8_store32_ne by lia.
Qed.

(** Extending the list after its last block. *)
Lemma extend_result h l1 r lk size req k (K : Z -> M (heap OS) Z) :
  hinv h (l1 ++ [r]) lk -> request size req k ->
  (forall h' n, hinv h' ((l1 ++ [r]) ++ [n]) lk -> r_blks n = [] -> r_base n + 48 + size <= r_end n ->
     alloc_result h' ((l1 ++ [r]) ++ [n]) lk size req k (K (r_base n) h')) ->
  alloc_result h (l1 ++ [r]) lk size req k
    ((new ← allocate_new_page size;
      maj_set (r_base r) Mj_next new ;;
      if new =? 0 then mret 0 else maj_set new Mj_prev (r_base r) ;; K new) h).
Proof.
  intros I Hrq HK. pose proof (request_range _ _ _ Hrq) as (? & ? & ?).
  destruct Hrq as (_ & _ & _ & ?).
  destruct (allocate_new_page_ok h _ lk size I) as [E|[(h' & E & I' & Em & _)|
    (h' & n & E & En & Hn & Hroom & Hat & Hap & Hag & Hsl & Hwf & Hv & Ha)]]; try lia.
  - left. by rewrite (run_bind_fault _ _ _ _ E).
  - rewrite (run_bind_done _ _ _ _ _ E). exec. rewrite Z.eqb_refl, run_ret.
    destruct (hinv_end_again _ _ _ _ I') as [I2 P2].
    right; left. eexists. split; [done|]. exists (l1 ++ [r]). split_and!; try done.
    eapply payloads_kept_trans; [|done]. by apply payloads_kept_refl.
  - rewrite (run_bind_done _ _ _ _ _ E). exec.
    destruct (hinv_linked h h' l1 r n lk) as (I2 & P2 & Eb); try done.
    rewrite (proj2 (Z.eqb_neq (r_base n) 0)) by (destruct Hn as [? _]; lia). exec.
    eapply alloc_result_trans; [exact Eb|exact P2|]. apply HK; done.
Qed.

(** The number of iterations a search needs: the blocks ahead, the whole list
    once more after a start at the best bet, and the minors of one block. *)
Definition search_cost (l1 : list region) (r : region) (l2 : list region) (bet : bool) : nat :=
  length (r :: l2) + (if bet then length (l1 ++ r :: l2) else 0) + S (length (all_blks (l1 ++ r :: l2))).

Lemma blks_length l1 r l2 : (length (r_blks r) <= length (all_blks (l1 ++ r :: l2)))%nat.
Proof. rewrite all_blks_middle, !length_app. lia. Qed.

Lemma search_majors_ok size req k :
  request size req k -> forall fuel h l1 r l2 bet best lk,
  hinv h (l1 ++ r :: l2) lk -> (search_cost l1 r l2 bet <= fuel)%nat ->
  alloc_result h (l1 ++ r :: l2) lk size req k
    (search_majors fuel (r_base r) bet best size req (2 ^ k) h).
Proof.
  intros Hrq. pose proof (request_range _ _ _ Hrq) as (? & ? & ?).
  induction fuel as [|fuel IH]; intros h l1 r l2 bet best lk I Hf; unfold search_cost in Hf; [simpl in Hf; lia|].
  destruct (hinv_header _ _ _ _ _ I) as (L1 & L2 & L3 & ? & ? & ?).
  pose proof (blks_length l1 r l2) as Hlen.
  cbn [search_majors]. rewrite (proj2 (Z.eqb_neq (r_base r) 0)) by lia. exec. rewrite L2, L3.
  unfold sizeof_minor. usimp. set (b := best <? _). set (best' := if b then _ else best).
  set (h2 := if b then set_best (r_base r) h else h).
  assert (hinv h2 (l1 ++ r :: l2) lk) as I2 by (subst h2; destruct b; [by apply hinv_set_best|done]).
  assert (mem h2 = mem h) as Em by (subst h2; by destruct b).
  eapply alloc_result_trans with (h1 := h2) (rs1 := l1 ++ r :: l2); [done|by apply payloads_kept_refl|].
  assert (forall A (k : unit -> M (heap OS) A), (when b (modify (set_best (r_base r))) ≫= k) h = k tt h2) as Ew.
  { intros. subst h2. by destruct b. }
  rewrite Ew. clear Ew.
  (* the continuations at the end of the list and after a failed placement *)
  assert (forall c l2', l2 = c :: l2' ->
    alloc_result h2 (l1 ++ r :: l2) lk size req k
      (search_majors fuel (r_base c) bet best' size req (2 ^ k) h2)) as Hnext.
  { intros c l2' ->. rewrite (cons_middle r l1 (c :: l2')), app_assoc in I2 |- *.
    apply IH; [done|]. unfold search_cost. simpl in *. rewrite <- app_assoc. simpl. destruct bet; lia. }
  assert (bet = true ->
    alloc_result h2 (l1 ++ r :: l2) lk size req k
      ((root ← gets l_memRoot; search_majors fuel root false best' size req (2 ^ k)) h2)) as Hrestart.
  { intros ->. rewrite run_bind_gets. rewrite (hi_root _ _ _ I2).
    destruct (l1 ++ r :: l2) as [|c rs] eqn:E; [by destruct l1|]. simpl.
    apply (IH h2 [] c rs); [done|]. unfold search_cost. simpl in *. lia. }
  destruct (Z.ltb_spec (page_bytes (r_pages r) - usage_of (r_blks r)) (size + 24)) as [Hno|Hroom].
  - exec. rewrite Em, L1. destruct l2 as [|c l2']; cbn [hd_base].
    + rewrite Z.eqb_refl. simpl negb. cbv iota. destruct bet; [by apply Hrestart|].
      apply (extend_result h2 l1 r lk size req k); [done|done|]. clear Hnext Hrestart.
      intros h' n I' En Hn.
      destruct (place_in_result h' (l1 ++ [r]) n [] lk size req k (S fuel) I' Hrq) as [[? _]|(q & h'' & E & P)].
      * rewrite En. unfold usage_of, r_end in *. simpl. lia.
      * rewrite En. simpl. lia.
      * done.
      * rewrite (run_bind_done _ _ _ _ _ E). right; right. eauto.
    + pose proof (region_ok_size c) as Hc. rewrite (proj2 (Z.eqb_neq (r_base c) 0)).
      2: { intros Ec. pose proof (hi_ok _ _ _ I2) as O. rewrite Forall_app, !Forall_cons in O.
           destruct O as (_ & _ & [Hb _] & _). lia. }
      simpl negb. cbv iota. by apply (Hnext c l2').
  - destruct (place_in_result h2 l1 r l2 lk size req k (S fuel) I2 Hrq) as [[_ E]|(q & h' & E & P)]; [lia|lia| |].
    2: { rewrite (run_bind_done _ _ _ _ _ E). right; right. eauto. }
    rewrite (run_bind_done _ _ _ _ _ E). exec. rewrite Em, L1. destruct l2 as [|c l2']; cbn [hd_base].
    + rewrite Z.eqb_refl. simpl negb. cbv iota. destruct bet; [by apply Hrestart|].
      apply (extend_result h2 l1 r lk size req k); [done|done|].
      intros h' n I' En Hn. destruct fuel as [|fuel]; [simpl in Hf; lia|].
      by apply search_fresh.
    + rewrite (proj2 (Z.eqb_neq (r_base c) 0)).
      2: { intros Ec. pose proof (hi_ok _ _ _ I2) as O. rewrite Forall_app, !Forall_cons in O.
           destruct O as (_ & _ & [Hb _] & _). lia. }
      simpl negb. cbv iota. by apply (Hnext c l2').
Qed.
End Search.
End LiballocSearch.
