(* ===== verification/LiballocMalloc.v ===== *)
(** * LiballocMalloc: [malloc_align], [malloc] *)
From stdpp Require Import base gmap list sets.
From Stdlib Require Import ZArith Lia.
From S2P Require Import Prelude Mem32 Liballoc LiballocRep LiballocPlace LiballocProofs.
From S2P Require Import LiballocSearch.
Import Liballoc LiballocRep LiballocPlace LiballocProofs LiballocSearch.

Module LiballocMalloc.
#[local] Opaque load32 store32 uwrap.

Section Malloc.
Context {OS : Type} `{PageSourceLaws OS}.
Implicit Types h : heap OS.

(** Enough iterations for any request on the heap [rs]. *)
Definition malloc_fuel (rs : list region) : nat := 2 * length rs + length (all_blks rs) + 4.

Lemma hinv_set_locked h rs lk lk' : hinv h rs lk -> hinv (set_locked lk' h) rs lk'.
Proof. intros []. split; hsimp; done. Qed.

(** The lock changes neither the lists nor the memory. *)
Lemma alloc_result_unlock h rs size req k (m : M (heap OS) Z) h0 :
  alloc_result h rs true size req k (m h0) ->
  alloc_result h rs false size req k ((p ← m; liballoc_unlock ;; mret p) h0).
Proof.
  intros [E|[(h' & E & rs' & I & ? & ?)|(q & h' & E & rs' & nb & I & ? & ? & ? & ? & ?)]].
  - left. by rewrite (run_bind_fault _ _ _ _ E).
  - right; left. rewrite (run_bind_done _ _ _ _ _ E). eexists. split; [reflexivity|].
    exists rs'. split_and!; try done. by eapply hinv_set_locked.
  - right; right. rewrite (run_bind_done _ _ _ _ _ E). eexists _, _. split; [reflexivity|].
    exists rs', nb. split_and!; try done. by eapply hinv_set_locked.
Qed.

(** The first block of an empty heap becomes the root. *)
Lemma hinv_first h h1 n lk :
  hinv h [] lk -> r_blks n = [] -> region_ok n -> region_at (mem h1) 0 n 0 ->
  same_lists h h1 -> os_wf (l_os h1) -> os_regions (l_os h1) ≡ₚ os_view [n] ->
  l_allocated h1 = u64 (page_bytes (r_pages n) + total_pages []) ->
  hinv (set_root (r_base n) h1) [n] lk.
Proof.
  intros [] En Hn Hat (S1 & S2 & S3 & S4) Hwf Hv Ha. split; hsimp; try done; try congruence.
  - by constructor.
  - left. destruct hi_best0 as [?|Hin]; [congruence|]. by apply not_elem_of_nil in Hin.
  - rewrite S3, hi_inuse0. unfold all_blks. by rewrite bind_cons, En.
Qed.

(** The search from the best bet or from the root. *)
Lemma search_from_best fuel h rs size req k :
  hinv h rs true -> rs <> [] -> request size req k ->
  (2 * length rs + length (all_blks rs) < fuel)%nat ->
  alloc_result h rs true size req k
    ((root ← gets l_memRoot;
      best ← gets l_bestBet;
      if best =? 0 then search_majors fuel root false 0 size req (2 ^ k)
      else
        bsize ← maj_get best Mj_size;
        busage ← maj_get best Mj_usage;
        if u32 (size + sizeof_minor) <? u32 (bsize - busage)
        then search_majors fuel best true (u32 (bsize - busage)) size req (2 ^ k)
        else search_majors fuel root false (u32 (bsize - busage)) size req (2 ^ k)) h).
Proof.
  intros I Hne Hrq Hf. exec. rewrite (hi_root _ _ _ I).
  assert (forall best, alloc_result h rs true size req k
            (search_majors fuel (hd_base rs 0) false best size req (2 ^ k) h)) as Hroot.
  { intros best. destruct rs as [|r rs]; [done|]. apply (search_majors_ok _ _ _ Hrq fuel h [] r rs); [done|].
    unfold search_cost, malloc_fuel in *. simpl in *. lia. }
  destruct (Z.eqb_spec (l_bestBet h) 0); [done|]. exec.
  case_match; [|done].
  destruct (hi_best _ _ _ I) as [|Hin]; [done|].
  apply list_elem_of_fmap in Hin as (r & -> & Hr). apply list_elem_of_split in Hr as (l1 & l2 & ->).
  apply (search_majors_ok _ _ _ Hrq); [done|].
  unfold search_cost, malloc_fuel in *. rewrite length_app in *. simpl in *. lia.
Qed.

Lemma malloc_sized_ok fuel h rs size req k :
  hinv h rs true -> request size req k -> (malloc_fuel rs <= fuel)%nat ->
  alloc_result h rs false size req k (malloc_sized fuel size req (2 ^ k) h).
Proof.
  intros I Hrq Hf. pose proof (request_range _ _ _ Hrq) as (? & ? & ?).
  unfold malloc_sized. exec. rewrite (hi_root _ _ _ I).
  destruct rs as [|r rs]; cbn [hd_base].
  - rewrite Z.eqb_refl.
    destruct (allocate_new_page_ok h [] true size I) as [E|[(h' & E & I' & Em & _)|
      (h' & n & E & En & Hn & Hroom & Hat & Hap & Hag & Hsl & Hwf & Hv & Ha)]];
      try (destruct Hrq; lia).
    + left. rewrite (run_bind_fault _ _ _ Panic); [done|]. by rewrite (run_bind_fault _ _ _ _ E).
    + exec. rewrite (run_bind_done _ _ _ _ _ E). exec. rewrite Z.eqb_refl.
      right; left. eexists. split; [reflexivity|]. exists []. split_and!; [|done|constructor].
      destruct I'. split; hsimp; done.
    + exec. rewrite (run_bind_done _ _ _ _ _ E). exec.
      rewrite (proj2 (Z.eqb_neq (r_base n) 0)) by (destruct Hn as [? _]; lia).
      pose proof (hinv_first h h' n true I En Hn Hat Hsl Hwf Hv Ha) as I2. simpl negb. cbv iota.
      eapply alloc_result_trans with (h1 := set_root (r_base n) h') (rs1 := [n]).
      * unfold all_blks. by rewrite bind_cons, En.
      * constructor.
      * pose proof (search_from_best fuel _ [n] size req k I2) as R.
        rewrite !run_bind_gets in R.
        apply alloc_result_unlock. apply R; try done.
        unfold malloc_fuel, all_blks in *. rewrite bind_cons, En. simpl in *. lia.
  - rewrite (proj2 (Z.eqb_neq (r_base r) 0)).
    2: { pose proof (hi_ok _ _ _ I) as O. inversion O as [|? ? [? _]]; subst. lia. }
    pose proof (search_from_best fuel _ (r :: rs) size req k I) as R. exec. simpl negb. cbv iota.
    rewrite !run_bind_gets in R.
    apply alloc_result_unlock. apply R; [done|done|]. unfold malloc_fuel in Hf. simpl in *. lia.
Qed.

(** [malloc_align] of a request that fits the address space. *)
Lemma malloc_align_ok fuel h rs req k :
  hinv h rs false -> 0 <= req -> 1 <= k < 32 -> req + 2 ^ k + 64 <= 2 ^ 32 - 4096 ->
  (malloc_fuel rs <= fuel)%nat ->
  alloc_result h rs false (req + 2 ^ k + 16) req k (malloc_align fuel req (2 ^ k) h).
Proof.
  intros I Hreq Hk Hb Hf. assert (1 < 2 ^ k) by (apply Z.pow_gt_1; lia).
  unfold malloc_align, ALIGN_INFO. rewrite (proj2 (Z.ltb_lt 1 (2 ^ k))) by lia. exec. usimp.
  replace (req + (2 ^ k + 16)) with (req + 2 ^ k + 16) by lia.
  rewrite (proj2 (Z.eqb_neq (req + 2 ^ k + 16) 0)) by lia.
  unfold liballoc_lock. exec. rewrite (hi_lock _ _ _ I). exec.
  eapply alloc_result_trans with (h1 := set_locked true h); [done|by apply payloads_kept_refl|].
  apply malloc_sized_ok; [by eapply hinv_set_locked| |done]. unfold request. lia.
Qed.
End Malloc.
End LiballocMalloc.
