(* ===== verification/LiballocFree.v ===== *)
(** * LiballocFree: [free] *)
From stdpp Require Import base gmap list sets.
From Stdlib Require Import ZArith Lia.
From S2P Require Import Prelude Mem32 Liballoc LiballocRep LiballocPlace LiballocProofs.
From S2P Require Import LiballocSearch LiballocMalloc.
Import Liballoc LiballocRep LiballocPlace LiballocProofs LiballocSearch LiballocMalloc.

Module LiballocFree.
#[local] Opaque load32 store32 uwrap.

Section Free.
Context {OS : Type} `{PageSourceLaws OS}.
Implicit Types h : heap OS.

(** [h'] is [h] with another memory. *)
Definition only_mem (h h' : heap OS) : Prop := h' = set_mem (fun _ => mem h') h.

Lemma only_mem_store h a v : only_mem h (set_mem (fun m => store32 m a v) h).
Proof. done. Qed.

Lemma only_mem_trans h1 h2 h3 : only_mem h1 h2 -> only_mem h2 h3 -> only_mem h1 h3.
Proof. unfold only_mem. intros E ->. by rewrite E. Qed.

Lemma u64_sub a b : u64 (u64 a - b) = u64 (a - b).
Proof. with_strategy transparent [uwrap] unfold uwrap. by rewrite Zminus_mod_idemp_l. Qed.

(** ** Unlinking *)

Lemma gap_addresses m0 m r prev next U first b1 n1 p2 b2 glo ghi :
  gapped m0 m r prev next U first b1 n1 p2 b2 glo ghi -> region_ok r -> glo <= ghi ->
  (forall l d, b1 = l ++ [d] -> 0 < b_addr d < 2 ^ 32 /\ b_addr d + 24 <= glo) /\
  (forall c l, b2 = c :: l -> 0 < b_addr c < 2 ^ 32 /\ ghi <= b_addr c) /\
  r_base r + 24 <= glo.
Proof.
  intros (_ & _ & _ & F1 & F2 & _) (? & ? & ? & ? & _) ?.
  pose proof (fits_le _ _ _ F1). pose proof (fits_le _ _ _ F2).
  apply fits_bounds in F1, F2. split_and!; [| |done].
  - intros l d ->. rewrite Forall_app, Forall_singleton in F1. unfold b_end in F1. lia.
  - intros c l ->. rewrite Forall_cons in F2. unfold b_end in F2. lia.
Qed.

Lemma unlink_minor_ok h m0 r prev next U b1 b b2 :
  region_ok r ->
  gapped m0 (mem h) r prev next U (hd_addr (b1 ++ b :: b2) 0) b1 (b_addr b) (b_addr b) b2 (b_addr b) (b_end b) ->
  0 <= b_size b ->
  load32 (mem h) (b_addr b + 0) = last_addr b1 0 -> load32 (mem h) (b_addr b + 4) = hd_addr b2 0 ->
  exists h', unlink_minor (r_base r) (b_addr b) h = Done (tt, h') /\ only_mem h h' /\
    gapped m0 (mem h') r prev next U (hd_addr (b1 ++ b2) 0) b1 (hd_addr b2 0) (last_addr b1 0) b2
      (b_addr b) (b_end b) /\ agree_on (mem h) (mem h') (b_addr b) (b_end b).
Proof.
  intros Hok G Hs L1 L2. assert (b_addr b <= b_end b) by (unfold b_end; lia).
  destruct (gap_addresses _ _ _ _ _ _ _ _ _ _ _ _ _ G Hok) as (A1 & A2 & A3); [done|].
  unfold unlink_minor. exec. rewrite L1, L2.
  (* the [prev] of the next block *)
  assert (exists h1, (forall (k : unit -> M (heap OS) unit),
      (when (negb (hd_addr b2 0 =? 0)) (min_set (hd_addr b2 0) Mn_prev (last_addr b1 0)) ≫= k) h = k tt h1) /\
    only_mem h h1 /\
    gapped m0 (mem h1) r prev next U (hd_addr (b1 ++ b :: b2) 0) b1 (b_addr b) (last_addr b1 0) b2
      (b_addr b) (b_end b) /\ agree_on (mem h) (mem h1) (b_addr b) (b_end b)) as (h1 & E1 & O1 & G1 & Q1).
  { destruct b2 as [|c l]; cbn [hd_addr].
    - exists h. rewrite Z.eqb_refl. split_and!; [done|by destruct h|done|apply agree_on_refl].
    - pose proof (A2 _ _ eq_refl). rewrite (proj2 (Z.eqb_neq (b_addr c) 0)) by lia.
      eexists. split_and!; [reflexivity|apply only_mem_store| |apply agree_on_store32; simpl; lia]. hsimp. eapply gapped_set_prev; [done|lia|].
      destruct b1 as [|d l' _] using rev_ind; [done|]. rewrite last_addr_snoc.
      pose proof (A1 _ _ eq_refl). lia. }
  rewrite E1. clear E1.
  assert (0 <= hd_addr b2 0 < 2 ^ 32) as Hn.
  { destruct b2 as [|c l]; [done|]. pose proof (A2 _ _ eq_refl). simpl. lia. }
  destruct b1 as [|d l _] using rev_ind.
  - unfold last_addr at 1 2. simpl last. cbv iota. rewrite Z.eqb_refl.
    eexists. split_and!; [reflexivity| | |eapply agree_on_trans; [exact Q1|apply agree_on_store32; simpl; lia]].
    + eapply only_mem_trans; [exact O1|apply only_mem_store].
    + hsimp. cbn [app]. eapply (gapped_set_first _ _ _ _ _ _ _ [] (hd_addr b2 0)) in G1; done.
  - rewrite last_addr_snoc in *. pose proof (A1 _ _ eq_refl).
    rewrite (proj2 (Z.eqb_neq (b_addr d) 0)) by lia.
    eexists. split_and!; [reflexivity| | |eapply agree_on_trans; [exact Q1|apply agree_on_store32; simpl; lia]].
    + eapply only_mem_trans; [exact O1|apply only_mem_store].
    + hsimp. rewrite <- !app_assoc in *. simpl in *.
      replace (hd_addr (l ++ d :: b2) 0) with (hd_addr (l ++ d :: b :: b2) 0) by by destruct l.
      eapply gapped_set_next in G1; [done|done|done].
Qed.

(** ** Giving a block back *)

Lemma regs_set_last_next m prev l d n0 n :
  Forall region_ok (l ++ [d]) -> Forall (r_apart d) l -> 0 <= n < 2 ^ 32 ->
  regs m prev (l ++ [d]) n0 -> regs (store32 m (r_base d + 4) n) prev (l ++ [d]) n.
Proof.
  intros O A Hn R. apply Forall_app in O as [O1 O2]. inversion O2 as [|? ? Hd _]; subst.
  pose proof (region_ok_size _ Hd). rewrite regs_app in R |- *. simpl in *. destruct R as (R1 & R2 & _).
  split_and!; [|by eapply region_set_next|done].
  eapply (regs_store_apart _ _ _ _ d); try done; lia.
Qed.

Lemma regs_set_first_prev m prev c l n v :
  Forall region_ok (c :: l) -> Forall (r_apart c) l -> 0 <= v < 2 ^ 32 ->
  regs m prev (c :: l) n -> regs (store32 m (r_base c + 0) v) v (c :: l) n.
Proof.
  intros O A Hn [R1 R2]. inversion O as [|? ? Hc O']; subst.
  pose proof (region_ok_size _ Hc). simpl. split; [by eapply region_set_prev|].
  eapply (regs_store_apart _ _ _ _ c); try done; lia.
Qed.

(** Unlinking a region from the list: the two stores around it. *)
Definition bypass (m : memory) (l1 l2 : list region) : memory :=
  let m1 := match last l1 with Some d => store32 m (r_base d + 4) (hd_base l2 0) | None => m end in
  match l2 with c :: _ => store32 m1 (r_base c + 0) (last_base l1 0) | [] => m1 end.

Lemma base_range rs r : Forall region_ok rs -> r ∈ rs -> 0 < r_base r < 2 ^ 32.
Proof. intros O Hr. rewrite Forall_forall in O. by apply O, region_ok_size in Hr as [_ ?]. Qed.

Lemma base_bounds l :
  Forall region_ok l -> 0 <= hd_base l 0 < 2 ^ 32 /\ 0 <= last_base l 0 < 2 ^ 32.
Proof.
  intros O. split.
  - destruct l as [|c l]; [done|]. pose proof (base_range _ c O (list_elem_of_here _ _)). simpl. lia.
  - unfold last_base. destruct (last l) as [d|] eqn:E; [|done].
    apply last_Some_elem_of in E. pose proof (base_range _ _ O E). lia.
Qed.

Lemma bypass_ok m l1 r l2 :
  Forall region_ok (l1 ++ r :: l2) -> apart (l1 ++ r :: l2) -> regs m 0 (l1 ++ r :: l2) 0 ->
  regs (bypass m l1 l2) 0 (l1 ++ l2) 0.
Proof.
  intros O Ap R. apply regs_middle in R as (R1 & _ & R2).
  rewrite Forall_app, Forall_cons in O. destruct O as (O1 & Hr & O2).
  apply apart_app in Ap as (Ap1 & [_ Ap2] & Ap12).
  destruct (base_bounds l1 O1) as [_ B1], (base_bounds l2 O2) as [B2 _].
  assert (Forall (fun d => Forall (r_apart d) l2) l1) as X.
  { eapply Forall_impl; [exact Ap12|]. simpl. intros d F. by inversion F. }
  assert (regs (match last l1 with Some d => store32 m (r_base d + 4) (hd_base l2 0) | None => m end)
            0 l1 (hd_base l2 0) /\
          regs (match last l1 with Some d => store32 m (r_base d + 4) (hd_base l2 0) | None => m end)
            (r_base r) l2 0) as [Q1 Q2].
  { destruct l1 as [|d l _] using rev_ind; [done|]. rewrite last_snoc.
    pose proof (apart_middle _ _ [] Ap1) as A. rewrite app_nil_r in A. split.
    - by eapply regs_set_last_next.
    - rewrite Forall_app, Forall_singleton in X. destruct X as [_ X].
      rewrite Forall_app, Forall_singleton in O1. destruct O1 as [_ Od]. apply region_ok_size in Od.
      eapply (regs_store_apart _ _ _ _ d); try done; lia. }
  unfold bypass. apply regs_app. destruct l2 as [|c l2]; [done|]. simpl in Ap2. destruct Ap2 as [Ac _].
  split; [|by eapply regs_set_first_prev].
  pose proof (proj1 (Forall_cons _ _ _) O2) as [Oc _]. apply region_ok_size in Oc.
  eapply (regs_store_apart _ _ _ _ c); try done; try lia.
  eapply Forall_impl; [exact X|]. simpl. intros d F. inversion F; subst. by apply r_apart_sym.
Qed.

Lemma remaining_ok l1 r l2 :
  Forall region_ok (l1 ++ r :: l2) -> apart (l1 ++ r :: l2) ->
  Forall region_ok (l1 ++ l2) /\ apart (l1 ++ l2).
Proof.
  rewrite !Forall_app, Forall_cons, !apart_app. simpl. intros (? & ? & ?) (? & [? ?] & Ap).
  split_and!; try done. eapply Forall_impl; [exact Ap|]. simpl. intros ? F. by inversion F.
Qed.

(** The header words changed around an unlinked region hold no payload. *)
Lemma bypass_payloads m l1 r l2 b :
  Forall region_ok (l1 ++ r :: l2) -> apart (l1 ++ r :: l2) -> b ∈ all_blks (l1 ++ l2) ->
  agree_on m (bypass m l1 l2) (b_addr b + 24) (b_end b).
Proof.
  intros O Ap Hb.
  assert (forall l d l', l1 ++ l2 = l ++ d :: l' -> r_base d + 24 <= b_addr b + 24 \/ b_end b <= r_base d) as K.
  { intros l d l' E. destruct (remaining_ok _ _ _ O Ap) as [O' Ap']. rewrite E in *.
    by eapply payload_off_header. }
  unfold bypass. intros x Hx.
  assert (load8 (match last l1 with Some d => store32 m (r_base d + 4) (hd_base l2 0) | None => m end) x
          = load8 m x) as E1.
  { destruct l1 as [|d l _] using rev_ind; [done|]. rewrite last_snoc.
    destruct (K l d l2); [by rewrite <- app_assoc| |]; by rewrite load8_store32_ne by lia. }
  destruct l2 as [|c l2]; [done|].
  destruct (K l1 c l2 eq_refl); rewrite load8_store32_ne by lia; exact E1.
Qed.

Lemma bypass_region m l1 r l2 :
  Forall region_ok (l1 ++ r :: l2) -> apart (l1 ++ r :: l2) ->
  agree_on m (bypass m l1 l2) (r_base r) (r_end r).
Proof.
  intros O Ap. pose proof (apart_middle _ _ _ Ap) as A. destruct (remaining_ok _ _ _ O Ap) as [O' _].
  rewrite Forall_app in O', A. destruct O' as [O1 O2], A as [A1 A2].
  intros x Hx. unfold bypass.
  assert (load8 (match last l1 with Some d => store32 m (r_base d + 4) (hd_base l2 0) | None => m end) x
          = load8 m x) as E1.
  { destruct l1 as [|d l _] using rev_ind; [done|]. rewrite last_snoc.
    rewrite Forall_app, Forall_singleton in A1, O1. destruct A1 as [_ Ad], O1 as [_ Od].
    apply region_ok_size in Od. unfold r_apart in Ad. by rewrite load8_store32_ne by lia. }
  destruct l2 as [|c l2]; [done|]. rewrite Forall_cons in A2, O2. destruct A2 as [Ac _], O2 as [Oc _].
  apply region_ok_size in Oc. unfold r_apart in Ac. by rewrite load8_store32_ne by lia.
Qed.

(** The two conditional stores of [release_major] are [bypass]. *)
Lemma run_bypass {B} h l1 l2 (k : unit -> M (heap OS) B) :
  Forall region_ok l1 -> Forall region_ok l2 ->
  (when (negb (last_base l1 0 =? 0)) (maj_set (last_base l1 0) Mj_next (hd_base l2 0)) ;;
   when (negb (hd_base l2 0 =? 0)) (maj_set (hd_base l2 0) Mj_prev (last_base l1 0)) ≫= k) h =
  k tt (set_mem (fun m => bypass m l1 l2) h).
Proof.
  intros O1 O2. unfold bypass.
  assert (forall (j : unit -> M (heap OS) B),
    (when (negb (last_base l1 0 =? 0)) (maj_set (last_base l1 0) Mj_next (hd_base l2 0)) ≫= j) h =
    j tt (set_mem (fun m => match last l1 with Some d => store32 m (r_base d + 4) (hd_base l2 0) | None => m end) h)) as E.
  { intros j. unfold last_base at 1 2. destruct (last l1) as [d|] eqn:E.
    - apply last_Some_elem_of in E. pose proof (base_range _ _ O1 E).
      by rewrite (proj2 (Z.eqb_neq (r_base d) 0)) by lia.
    - rewrite Z.eqb_refl. by destruct h. }
  rewrite E. destruct l2 as [|c l2]; simpl hd_base.
  - rewrite Z.eqb_refl. done.
  - pose proof (base_range _ c O2 (list_elem_of_here _ _)).
    by rewrite (proj2 (Z.eqb_neq (r_base c) 0)) by lia.
Qed.

Lemma apart_base_ne l1 r l2 :
  Forall region_ok (l1 ++ r :: l2) -> apart (l1 ++ r :: l2) -> r_base r ∉ map r_base (l1 ++ l2).
Proof.
  intros O Ap Hin. apply list_elem_of_fmap in Hin as (d & E & Hd).
  pose proof (apart_middle _ _ _ Ap) as A. rewrite Forall_forall in A. specialize (A _ Hd).
  destruct (remaining_ok _ _ _ O Ap) as [O' _]. rewrite Forall_forall in O'.
  specialize (O' _ Hd). apply region_ok_size in O'.
  apply Forall_app in O as [_ O]. inversion O as [|? ? Hr _]; subst. apply region_ok_size in Hr.
  unfold r_apart in A. lia.
Qed.

Lemma run_when_modify {B} (b : bool) (f : heap OS -> heap OS) (k : unit -> M (heap OS) B) h :
  (when b (modify f) ≫= k) h = k tt (if b then f h else h).
Proof. by destruct b. Qed.

Lemma release_major_ok h l1 r l2 lk :
  hinv h (l1 ++ r :: l2) lk -> r_blks r = [] ->
  exists h', release_major (r_base r) h = Done (tt, h') /\ hinv h' (l1 ++ l2) lk /\
    payloads_kept h h' (all_blks (l1 ++ l2)).
Proof.
  intros I En. pose proof (hinv_header _ _ _ _ _ I) as (L1 & L2 & L3 & ? & ? & ?).
  destruct (hinv_region _ _ _ _ _ I) as [Hok [(L0 & _ & Lp & _) _]]. destruct I.
  pose proof (apart_base_ne _ _ _ hi_ok0 hi_apart0) as Hne.
  destruct (remaining_ok _ _ _ hi_ok0 hi_apart0) as [O' A'].
  pose proof (bypass_ok _ _ _ _ hi_ok0 hi_apart0 hi_regs0) as R'.
  pose proof (apart_middle _ _ _ hi_apart0) as Hmid.
  pose proof (fun m b => bypass_payloads m l1 r l2 b hi_ok0 hi_apart0) as Pk.
  pose proof hi_ok0 as O. rewrite Forall_app, Forall_cons in O. destruct O as (O1 & Or & O2).
  assert (os_regions (l_os h) ≡ₚ (r_base r, r_pages r) :: os_view (l1 ++ l2)) as Hv.
  { rewrite hi_view0. unfold os_view. rewrite !map_app. simpl. by rewrite Permutation_middle. }
  unfold release_major. exec. rewrite L1, L0. rewrite run_when_modify. exec. rewrite run_when_modify.
  rewrite run_bypass by done. exec.
  set (h2 := if l_bestBet _ =? r_base r then _ else _).
  set (root' := if l_memRoot h =? r_base r then hd_base l2 0 else l_memRoot h).
  set (best' := if l_bestBet h =? r_base r then 0 else l_bestBet h).
  assert (h2 = set_best best' (set_root root' h)) as E2.
  { subst h2 root' best'. destruct (l_memRoot h =? r_base r); hsimp;
      destruct (l_bestBet h =? r_base r); by destruct h. }
  rewrite E2. clear E2 h2. hsimp.
  assert (agree_on (mem h) (bypass (mem h) l1 l2) (r_base r) (r_end r)) as Ag by (by apply bypass_region).
  pose proof (region_ok_size _ Hok).
  rewrite !(load32_agree_on _ _ _ _ _ Ag) by lia. rewrite L2, Lp.
  set (h3 := set_allocated _ _).
  destruct (os_free_ok (r_base r) (r_pages r) (mem h3) (l_os h3) (os_view (l1 ++ l2)))
    as (m' & s' & Ef & Hwf & Hvv & Hag); [done|done|].
  unfold liballoc_free. rewrite Ef. eexists. split; [reflexivity|]. subst h3. hsimp in *. split.
  - split; hsimp; try done.
    + subst root'. rewrite hi_root0. destruct l1 as [|d l1]; simpl; [by rewrite Z.eqb_refl|].
      rewrite (proj2 (Z.eqb_neq (r_base d) (r_base r))); [done|].
      intros E. apply Hne. rewrite <- E. simpl. left.
    + eapply regs_agree; [done| |done]. by eapply apart_regions_kept.
    + subst best'. destruct (Z.eqb_spec (l_bestBet h) (r_base r)) as [|Hb]; [by left|].
      destruct hi_best0 as [|Hin]; [by left|]. right.
      rewrite map_app in Hin |- *. simpl in Hin. set_unfold. intuition.
    + rewrite hi_inuse0. f_equal. f_equal. rewrite all_blks_middle, En. simpl. unfold all_blks. by rewrite bind_app.
    + rewrite hi_alloc0. rewrite !total_pages_app. simpl. rewrite u64_sub. f_equal. lia.
  - apply Forall_forall. intros b Hb. hsimp. eapply agree_on_trans; [by apply Pk|].
    pose proof (apart_payloads_kept _ _ _ _ Hag Hmid O') as Q. rewrite Forall_forall in Q. by apply Q.
Qed.

Lemma update_best_ok h l1 r l2 lk :
  hinv h (l1 ++ r :: l2) lk ->
  exists h', update_best (r_base r) h = Done (tt, h') /\ hinv h' (l1 ++ r :: l2) lk /\ mem h' = mem h.
Proof.
  intros I. unfold update_best. exec. destruct (l_bestBet h =? 0); [by exists h|]. exec.
  unfold when. case_match; [|by exists h]. eexists. split; [reflexivity|]. split; [|done].
  by apply hinv_set_best.
Qed.

(** The pointer [q] was handed out for the block [b]. *)
Definition points_to (h : heap OS) (b : blk) (q : Z) : Prop :=
  b_addr b + 40 <= q /\ q + b_req b <= b_end b /\ load32 (mem h) (q - 16) = q - 16 - (b_addr b + 24).

Lemma unalign_ok h b q :
  points_to h b q -> 0 <= b_addr b -> 0 <= b_req b -> b_end b < 2 ^ 32 ->
  UNALIGN q h = Done (b_addr b + 24, h).
Proof.
  intros (? & ? & L) ???. unfold UNALIGN, ALIGN_INFO. rewrite (uwrap_small 32 (q - 16)) by lia.
  exec. rewrite L. rewrite run_ret. do 2 f_equal. rewrite (uwrap_small 32 (q - _)) by lia.
  rewrite uwrap_small by lia. lia.
Qed.

(** The state once the block [b] is unlinked, before its region is looked at. *)
Lemma unlinked_ok {B} h l1 r l2 b1 b b2 lk :
  hinv h (l1 ++ r :: l2) lk -> r_blks r = b1 ++ b :: b2 ->
  let r' := Region (r_base r) (r_pages r) (b1 ++ b2) in
  exists h', (forall k : unit -> M (heap OS) B,
      (modify (fun h => set_inuse (u64 (l_inuse h - b_size b)) h) ;;
       usage ← maj_get (r_base r) Mj_usage;
       maj_set (r_base r) Mj_usage (u32 (usage - u32 (b_size b + sizeof_minor))) ;;
       min_set (b_addr b) Mn_magic LIBALLOC_DEAD ;;
       unlink_minor (r_base r) (b_addr b) ≫= k) h = k tt h') /\
    hinv h' (l1 ++ r' :: l2) lk /\ payloads_kept h h' (all_blks (l1 ++ r' :: l2)) /\
    load32 (mem h') (b_addr b + 12) = LIBALLOC_DEAD /\
    agree_on (mem h) (mem h') (b_addr b + 24) (b_end b).
Proof.
  intros I E r'. destruct (hinv_region _ _ _ _ _ I) as [Hok Hat].
  destruct (gapped_open_at _ _ _ _ _ _ _ Hok E Hat) as (Mb & Hlo & Hs & G).
  pose proof Hat as [(_ & _ & _ & _ & Lu & _) _]. rewrite E in Lu.
  pose proof Hok as (? & ? & ? & ? & F). pose proof (usage_of_fits _ _ _ F) as U.
  rewrite E in U, F. pose proof (fits_remove _ _ _ _ _ F) as F'. pose proof (usage_of_fits _ _ _ F') as U'.
  rewrite usage_of_insert in U. unfold r_end in *.
  assert (b_addr b <= b_end b) by (unfold b_end; lia).
  destruct Mb as (P0 & P1 & _). pose proof (fits_bounds _ _ _ F) as Fb.
  rewrite Forall_app, Forall_cons in Fb. destruct Fb as (_ & (? & ? & ?) & _).
  set (h1 := set_mem (fun m => store32 (store32 m (r_base r + 16) (usage_of (b1 ++ b2))) (b_addr b + 12) LIBALLOC_DEAD)
    (set_inuse (u64 (l_inuse h - b_size b)) h)).
  destruct (unlink_minor_ok h1 (mem h) r (last_base l1 0) (hd_base l2 0) (usage_of (b1 ++ b2)) b1 b b2)
    as (h' & Eu & Om & G' & Ab); [done| | |..].
  { subst h1. hsimp. apply gapped_store; unfold b_end in *; [|lia|lia].
    eapply gapped_set_usage; [done|unfold b_end; lia|unfold page_bytes in *; lia]. }
  { lia. }
  { subst h1. hsimp. by ldsimp. }
  { subst h1. hsimp. by ldsimp. }
  exists h'. split; [|split; [|split; [|split]]].
  - intros k. exec. rewrite Lu, usage_of_insert. unfold sizeof_minor. unfold page_bytes in *.
    rewrite (uwrap_small 32 (b_size b + 24)) by lia. rewrite uwrap_small by lia.
    replace (usage_of (b1 ++ b2) + (b_size b + 24) - (b_size b + 24)) with (usage_of (b1 ++ b2)) by lia.
    exact (run_bind_done _ _ _ _ _ Eu).
  - pose proof (gapped_close_removed _ _ _ _ _ _ _ _ _ G') as Hr'. subst r'.
    destruct G' as (_ & _ & _ & _ & _ & Ao & _). rewrite Om. destruct I.
    split; hsimp; rewrite ?hd_base_update, ?os_view_update, ?bases_update, ?total_pages_update; try done.
    + by eapply regs_update.
    + apply Forall_app in hi_ok0 as [O1 O2]. apply Forall_app. split; [done|].
      inversion O2; subst. constructor; [|done].
      unfold region_ok, r_end. simpl. split_and!; try done; lia.
    + by apply apart_update.
    + subst h1. hsimp. rewrite hi_inuse0, u64_sub. f_equal. rewrite !all_blks_middle, E. simpl. rewrite !sizes_app. simpl. lia.
  - destruct G' as (_ & _ & _ & _ & _ & Ao & Pk). unfold payloads_kept.
    destruct I. pose proof (apart_middle _ _ _ hi_apart0) as A. apply Forall_app in A as [A1 A2].
    apply Forall_app in hi_ok0 as [O1 O2]. inversion O2; subst.
    subst r'. rewrite all_blks_middle. cbn [r_blks]. rewrite !Forall_app. rewrite Forall_app in Pk. destruct Pk.
    split_and!; try done; by eapply apart_payloads_kept.
  - rewrite (load32_agree_on _ _ _ _ _ Ab) by (unfold b_end; lia). subst h1. hsimp. by rewrite load32_store32_eq.
  - intros x Hx. rewrite Ab by lia. subst h1. hsimp.
    rewrite !load8_store32_ne by (unfold b_end in *; lia). done.
Qed.

(** [free] up to the point where the block is unlinked. *)
Lemma free_run h l1 r l2 b1 b b2 q :
  hinv h (l1 ++ r :: l2) false -> r_blks r = b1 ++ b :: b2 -> points_to h b q ->
  let r' := Region (r_base r) (r_pages r) (b1 ++ b2) in
  exists h1, free q h =
      ((if hd_addr (b1 ++ b2) 0 =? 0 then release_major (r_base r) else update_best (r_base r)) ;;
       liballoc_unlock) h1 /\
    hinv h1 (l1 ++ r' :: l2) true /\ payloads_kept h h1 (all_blks (l1 ++ r' :: l2)) /\
    load32 (mem h1) (b_addr b + 12) = LIBALLOC_DEAD /\
    agree_on (mem h) (mem h1) (b_addr b + 24) (b_end b).
Proof.
  intros I E Hq r'. destruct (hinv_region _ _ _ _ _ I) as [Hok Hat].
  pose proof Hok as (? & ? & ? & ? & F). rewrite E in F.
  pose proof F as F2. apply fits_app in F2 as [F1 F2]. simpl in F2. destruct F2 as (? & ? & ? & F2).
  apply fits_le in F1. apply fits_le in F2. pose proof Hq as (? & ? & ?).
  assert (b_end b = b_addr b + 24 + b_size b) as Eb by done.
  unfold free. rewrite (proj2 (Z.eqb_neq q 0)) by lia.
  rewrite (run_bind_done _ _ _ _ _ (unalign_ok h b q Hq ltac:(lia) ltac:(lia) ltac:(lia))).
  unfold liballoc_lock. exec. rewrite (hi_lock _ _ _ I). exec. unfold sizeof_minor.
  rewrite (uwrap_small 32 (b_addr b + 24 - 24)) by lia. replace (b_addr b + 24 - 24) with (b_addr b) by lia.
  destruct (gapped_open_at _ _ _ _ _ _ _ Hok E Hat) as ((_ & _ & Lb & Lm & Ls & _) & _).
  rewrite Lm, Z.eqb_refl. cbn [negb].
  rewrite !run_bind_min_get. cbn [minor_off]. hsimp. rewrite Lb, Ls.
  set (h0 := set_locked true h).
  assert (hinv h0 (l1 ++ r :: l2) true) as I0 by (by eapply hinv_set_locked).
  destruct (unlinked_ok (B := unit) h0 l1 r l2 b1 b b2 true I0 E) as (h1 & E1 & I1 & Pk1 & Dd & Ag).
  exists h1. fold sizeof_minor. rewrite E1. split; [|done].
  destruct (hinv_region _ _ _ _ _ I1) as [_ [(_ & _ & _ & _ & _ & Lf) _]].
  rewrite run_bind_maj_get. cbn [major_off]. cbn [r_base r_blks] in Lf. by rewrite Lf.
Qed.

(** [free] of a pointer that was handed out. *)
Lemma free_ok h rs b q :
  hinv h rs false -> b ∈ all_blks rs -> points_to h b q ->
  exists h' rs', free q h = Done (tt, h') /\ hinv h' rs' false /\ all_blks rs ≡ₚ b :: all_blks rs' /\
    payloads_kept h h' (all_blks rs').
Proof.
  intros I Hb Hq. apply list_elem_of_bind in Hb as (r & Hb & Hr).
  apply list_elem_of_split in Hr as (l1 & l2 & ->). apply list_elem_of_split in Hb as (b1 & b2 & E).
  destruct (free_run _ _ _ _ _ _ _ _ I E Hq) as (h1 & -> & I1 & Pk1 & _).
  set (r' := Region (r_base r) (r_pages r) (b1 ++ b2)) in *.
  assert (all_blks (l1 ++ r :: l2) ≡ₚ b :: all_blks (l1 ++ r' :: l2)) as Hp.
  { rewrite !all_blks_middle, E. simpl. rewrite <- !app_assoc. simpl. by rewrite !Permutation_middle. }
  destruct (hinv_region _ _ _ _ _ I1) as [Hok1 _].
  change (r_base r) with (r_base r'). destruct (b1 ++ b2) as [|c bs] eqn:Eb12; cbn [hd_addr].
  - rewrite Z.eqb_refl. destruct (release_major_ok h1 l1 r' l2 true I1 eq_refl) as (h2 & E2 & I2 & Pk2).
    rewrite (run_bind_done _ _ _ _ _ E2). eexists _, (l1 ++ l2). split; [reflexivity|].
    assert (all_blks (l1 ++ r' :: l2) = all_blks (l1 ++ l2)) as Ea.
    { rewrite all_blks_middle. simpl. unfold all_blks. by rewrite bind_app. }
    rewrite Ea in *. split_and!; [by eapply hinv_set_locked|done|].
    by eapply (payloads_kept_trans _ h1).
  - assert (0 < b_addr c) as Hc by (destruct Hok1 as (? & ? & ? & ? & F3); simpl in *; lia).
    rewrite (proj2 (Z.eqb_neq (b_addr c) 0)) by lia.
    destruct (update_best_ok h1 l1 r' l2 true I1) as (h2 & E2 & I2 & Em).
    rewrite (run_bind_done _ _ _ _ _ E2). eexists _, (l1 ++ r' :: l2). split; [reflexivity|].
    split_and!; [by eapply hinv_set_locked|done|].
    eapply (payloads_kept_trans _ h1); [done|]. by apply payloads_kept_refl.
Qed.

(** While its region holds another block, a freed block keeps a dead header. *)
Lemma free_leaves_dead h l1 r l2 b1 b b2 q :
  hinv h (l1 ++ r :: l2) false -> r_blks r = b1 ++ b :: b2 -> b1 ++ b2 <> [] -> points_to h b q ->
  exists h', free q h = Done (tt, h') /\ l_locked h' = false /\
    load32 (mem h') (b_addr b + 12) = LIBALLOC_DEAD /\ points_to h' b q.
Proof.
  intros I E Hne Hq. destruct (free_run _ _ _ _ _ _ _ _ I E Hq) as (h1 & -> & I1 & _ & Dd & Ag).
  set (r' := Region (r_base r) (r_pages r) (b1 ++ b2)) in *.
  destruct (hinv_region _ _ _ _ _ I1) as [Hok1 _].
  destruct (hinv_region _ _ _ _ _ I) as [(_ & _ & _ & _ & F) _].
  change (r_base r) with (r_base r'). destruct (b1 ++ b2) as [|c bs] eqn:Eb12; [done|]. cbn [hd_addr].
  assert (0 < b_addr c) as Hc by (destruct Hok1 as (? & ? & ? & ? & F3); simpl in *; lia).
  rewrite (proj2 (Z.eqb_neq (b_addr c) 0)) by lia.
  destruct (update_best_ok h1 l1 r' l2 true I1) as (h2 & E2 & I2 & Em).
  rewrite (run_bind_done _ _ _ _ _ E2). eexists. split; [reflexivity|]. hsimp. rewrite Em.
  split_and!; [done|done|]. rewrite E in F. apply fits_app in F as [_ F]. simpl in F.
  destruct F as (_ & _ & ? & _). destruct Hq as (? & ? & L). split_and!; try done.
  hsimp. rewrite Em. rewrite <- L. eapply load32_agree_on; [done|lia|lia].
Qed.

(** [free] of a pointer whose header is not live touches only the counters. *)
Lemma free_not_live h b q :
  l_locked h = false -> points_to h b q -> 0 <= b_addr b -> 0 <= b_req b -> b_end b < 2 ^ 32 ->
  load32 (mem h) (b_addr b + 12) <> LIBALLOC_MAGIC ->
  exists over, free q h = Done (tt, set_counts (l_warningCount h) (s64 (l_errorCount h + 1)) over h).
Proof.
  intros Hl Hq ??? Hm. pose proof Hq as (? & ? & _). unfold free. rewrite (proj2 (Z.eqb_neq q 0)) by lia.
  rewrite (run_bind_done _ _ _ _ _ (unalign_ok h b q Hq ltac:(lia) ltac:(lia) ltac:(lia))).
  unfold liballoc_lock. exec. rewrite Hl. exec. unfold sizeof_minor.
  rewrite (uwrap_small 32 (b_addr b + 24 - 24)) by lia. replace (b_addr b + 24 - 24) with (b_addr b) by lia.
  rewrite (proj2 (Z.eqb_neq _ _) Hm). cbn [negb]. unfold bad_magic. exec.
  unfold liballoc_unlock, modify. hsimp. destruct h. cbn in Hl. subst. eexists. reflexivity.
Qed.
End Free.
End LiballocFree.
