(* ===== verification/LiballocUse.v ===== *)
(** * LiballocUse: the allocator as its clients see it

    Blocks handed out do not overlap; a client that writes only inside the
    payload it was given keeps the invariant; [calloc] and [realloc] are clients
    of [malloc] and [free] of that kind. *)
From stdpp Require Import base gmap list sets.
From Stdlib Require Import ZArith Lia.
From S2P Require Import Prelude Mem32 Liballoc LiballocRep LiballocPlace LiballocProofs.
From S2P Require Import LiballocSearch LiballocMalloc LiballocFree.
Import Liballoc LiballocRep LiballocPlace LiballocProofs LiballocSearch LiballocMalloc LiballocFree.

Module LiballocUse.
#[local] Opaque load32 store32 uwrap.

(** Two blocks do not overlap, headers included. *)
Definition b_apart (b1 b2 : blk) : Prop := b_end b1 <= b_addr b2 \/ b_end b2 <= b_addr b1.

Fixpoint pairwise (l : list blk) : Prop :=
  match l with
  | [] => True
  | b :: l' => Forall (b_apart b) l' /\ pairwise l'
  end.

Lemma b_apart_sym b1 b2 : b_apart b1 b2 -> b_apart b2 b1.
Proof. unfold b_apart. tauto. Qed.

Lemma pairwise_app l1 l2 :
  pairwise (l1 ++ l2) <-> pairwise l1 /\ pairwise l2 /\ Forall (fun b => Forall (b_apart b) l2) l1.
Proof.
  induction l1 as [|b l1 IH]; simpl; [intuition constructor|].
  rewrite IH, Forall_app, Forall_cons. tauto.
Qed.

Lemma pairwise_perm l l' : l ≡ₚ l' -> pairwise l -> pairwise l'.
Proof.
  induction 1 as [|b l l' Hp IH|b c l|]; simpl; [done| | |by auto].
  - intros [F P]. split; [by rewrite <- Hp|by apply IH].
  - rewrite !Forall_cons. intros ((? & ?) & ? & ?). split_and!; try done; by apply b_apart_sym.
Qed.

Lemma fits_pairwise lo hi l : fits lo hi l -> pairwise l.
Proof.
  revert lo. induction l as [|b l IH]; simpl; intros lo; [done|].
  intros (? & ? & ? & F). split; [|by eapply IH].
  eapply Forall_impl; [by eapply fits_bounds|]. simpl. intros c (? & ? & ?). left. done.
Qed.

Lemma region_blk_bounds r b :
  region_ok r -> b ∈ r_blks r -> r_base r + 24 <= b_addr b /\ b_end b <= r_end r /\ 0 <= b_size b < 2 ^ 32.
Proof.
  intros (? & ? & ? & ? & F) Hb. apply fits_bounds in F. rewrite Forall_forall in F. by apply F.
Qed.

Lemma regions_pairwise rs : Forall region_ok rs -> apart rs -> pairwise (all_blks rs).
Proof.
  unfold all_blks. induction rs as [|r rs IH]; simpl; [done|]. intros O [A1 A2]. inversion O as [|? ? Hr O']; subst.
  apply pairwise_app. split_and!; [by apply (fits_pairwise (r_base r + 24) (r_end r)); apply Hr|by apply IH|].
  apply Forall_forall. intros b Hb. apply Forall_forall. intros c Hc.
  apply list_elem_of_bind in Hc as (r' & Hc & Hr'). rewrite Forall_forall in A1, O'.
  pose proof (region_blk_bounds _ _ Hr Hb). pose proof (region_blk_bounds _ _ (O' _ Hr') Hc).
  specialize (A1 _ Hr'). unfold r_apart in A1. unfold b_apart, b_end in *. lia.
Qed.

Section Use.
Context {OS : Type} `{PageSourceLaws OS}.
Implicit Types h : heap OS.

Lemma hinv_pairwise h rs lk : hinv h rs lk -> pairwise (all_blks rs).
Proof. intros []. by apply regions_pairwise. Qed.

(** ** Writing in a payload *)

Lemma regs_agree_headers m m' prev rs next :
  Forall (fun r => agree_on m m' (r_base r) (r_base r + 24)) rs ->
  Forall (fun b => agree_on m m' (b_addr b) (b_addr b + 24)) (all_blks rs) ->
  regs m prev rs next -> regs m' prev rs next.
Proof.
  revert prev. unfold all_blks. induction rs as [|r rs IH]; intros prev; [done|].
  rewrite Forall_cons, bind_cons, Forall_app. intros [A1 A2] [B1 B2] [[M S] R]. split; [split|by apply IH].
  - by eapply major_at_agree.
  - by eapply seg_agree.
Qed.

(** The payload of an allocated block is apart from all headers and from the
    other payloads. *)
Lemma payload_apart rs b :
  Forall region_ok rs -> apart rs -> b ∈ all_blks rs ->
  Forall (fun r => r_base r + 24 <= b_addr b + 24 \/ b_end b <= r_base r) rs /\
  Forall (fun c => c = b \/ b_apart b c) (all_blks rs).
Proof.
  intros O A Hb. split.
  - apply Forall_forall. intros r Hr. apply list_elem_of_split in Hr as (l1 & l2 & ->).
    by eapply payload_off_header.
  - pose proof (regions_pairwise _ O A) as P. apply list_elem_of_split in Hb as (l1 & l2 & E).
    rewrite E in *. apply pairwise_app in P as (_ & [P1 _] & P2).
    rewrite Forall_app, Forall_cons. split_and!; [|by left|].
    + eapply Forall_impl; [exact P2|]. simpl. intros c F. inversion F; subst. right. by apply b_apart_sym.
    + eapply Forall_impl; [exact P1|]. simpl. by right.
Qed.

Lemma hinv_payload_write h rs lk b lo hi m' :
  hinv h rs lk -> b ∈ all_blks rs -> b_addr b + 24 <= lo -> hi <= b_end b -> agree_off (mem h) m' lo hi ->
  hinv (set_mem (fun _ => m') h) rs lk.
Proof.
  intros I Hb ?? Ag. destruct I. destruct (payload_apart _ _ hi_ok0 hi_apart0 Hb) as [Fr Fb].
  assert (Forall (fun b => 0 <= b_size b) (all_blks rs)) as Hs.
  { apply Forall_forall. intros c Hc. apply list_elem_of_bind in Hc as (r' & Hc & Hr').
    rewrite Forall_forall in hi_ok0. by apply (region_blk_bounds _ _ (hi_ok0 _ Hr')) in Hc as (_ & _ & [? _]). }
  split; hsimp; try done. eapply regs_agree_headers; [| |done].
  - eapply Forall_impl; [exact Fr|]. simpl. intros r ?. eapply agree_off_on; [done|]. lia.
  - eapply Forall_impl; [apply Forall_and; split; [exact Fb|exact Hs]|]. simpl. intros c [[->|Hc] Hcs].
    + eapply agree_off_on; [done|]. lia.
    + eapply agree_off_on; [done|]. unfold b_apart, b_end in *. lia.
Qed.

Lemma payload_write_kept h rs lk b lo hi m' :
  hinv h rs lk -> b ∈ all_blks rs -> b_addr b + 24 <= lo -> hi <= b_end b -> agree_off (mem h) m' lo hi ->
  Forall (fun c => c = b \/ agree_on (mem h) m' (b_addr c + 24) (b_end c)) (all_blks rs).
Proof.
  intros I Hb ?? Ag. destruct I. destruct (payload_apart _ _ hi_ok0 hi_apart0 Hb) as [_ Fb].
  assert (0 <= b_size b).
  { apply list_elem_of_bind in Hb as (r' & Hc & Hr').
    rewrite Forall_forall in hi_ok0. by apply (region_blk_bounds _ _ (hi_ok0 _ Hr')) in Hc as (_ & _ & [? _]). }
  eapply Forall_impl; [exact Fb|]. simpl. intros c [->|Hc]; [by left|right].
  eapply agree_off_on; [done|]. unfold b_apart, b_end in *. lia.
Qed.

(** ** [liballoc_memset] and [liballoc_memcpy] *)

Lemma memset_bytes_spec n s c m x :
  load8 (memset_bytes n s c m) x = if decide (s <= x < s + Z.of_nat n) then u8 c else load8 m x.
Proof.
  revert s m. induction n as [|n IH]; intros s m; cbn [memset_bytes].
  - rewrite decide_False by lia. done.
  - rewrite IH. destruct (decide (x = s)) as [->|].
    + rewrite decide_False by lia. rewrite decide_True by lia. apply load8_store8_eq.
    + rewrite load8_store8_ne by lia. case_decide; case_decide; (done || lia).
Qed.

Lemma load8_store32_load32 m d s i :
  0 <= i < 4 -> load8 (store32 m d (load32 m s)) (d + i) = load8 m (s + i).
Proof.
  intros Hi. pose proof (load8_range m s). pose proof (load8_range m (s + 1)).
  pose proof (load8_range m (s + 2)). pose proof (load8_range m (s + 3)).
  with_strategy transparent [store32 load32] unfold store32, load32.
  assert (i = 0 \/ i = 1 \/ i = 2 \/ i = 3) as [->|[->|[->| ->]]] by lia;
    rewrite ?Z.add_0_r; repeat (rewrite load8_store8_ne by lia); rewrite load8_store8_eq;
    with_strategy transparent [uwrap] unfold uwrap; Z.div_mod_to_equations; lia.
Qed.

Lemma memcpy_words_spec k d s m x :
  d + 4 * Z.of_nat k <= s \/ s + 4 * Z.of_nat k <= d ->
  load8 (memcpy_words k d s m) x =
    if decide (d <= x < d + 4 * Z.of_nat k) then load8 m (s + (x - d)) else load8 m x.
Proof.
  revert d s m. induction k as [|k IH]; intros d s m Hd; cbn [memcpy_words].
  - rewrite decide_False by lia. done.
  - rewrite IH by lia. destruct (decide (d <= x < d + 4)).
    + rewrite decide_False by lia. rewrite decide_True by lia.
      replace x with (d + (x - d)) at 1 by lia. by rewrite load8_store32_load32 by lia.
    + case_decide; case_decide; try lia; rewrite load8_store32_ne by lia; f_equal; lia.
Qed.

Lemma memcpy_bytes_spec k d s m x :
  d + Z.of_nat k <= s \/ s + Z.of_nat k <= d ->
  load8 (memcpy_bytes k d s m) x =
    if decide (d <= x < d + Z.of_nat k) then load8 m (s + (x - d)) else load8 m x.
Proof.
  revert d s m. induction k as [|k IH]; intros d s m Hd; cbn [memcpy_bytes].
  - rewrite decide_False by lia. done.
  - rewrite IH by lia. destruct (decide (x = d)) as [->|].
    + rewrite decide_False by lia. rewrite decide_True by lia. rewrite load8_store8_eq.
      rewrite Z.sub_diag, Z.add_0_r. pose proof (load8_range m s). by rewrite uwrap_small.
    + case_decide; case_decide; try lia; rewrite load8_store8_ne by lia; f_equal; lia.
Qed.

Lemma memcpy_mem_spec d s n m x :
  0 <= n -> d + n <= s \/ s + n <= d ->
  load8 (memcpy_mem d s n m) x = if decide (d <= x < d + n) then load8 m (s + (x - d)) else load8 m x.
Proof.
  intros Hn Hd. unfold memcpy_mem. pose proof (Z.div_mod n 4). pose proof (Z.mod_pos_bound n 4).
  rewrite memcpy_bytes_spec by lia. rewrite !memcpy_words_spec by lia. rewrite !Z2Nat.id by lia.
  repeat case_decide; try lia; f_equal; lia.
Qed.
End Use.
End LiballocUse.
