(* ===== verification/LiballocSpec.v ===== *)
(** * LiballocSpec: what [malloc], [free], [calloc] and [realloc] promise

    The theorems about [libc/liballoc/liballoc.c].  The pages come from any
    source that satisfies [PageSourceLaws]; [bump_source] is one such source,
    used to evaluate the allocator on concrete heaps. *)
From stdpp Require Import base gmap list sets.
From Stdlib Require Import ZArith Lia.
From S2P Require Import Prelude Mem32 Liballoc LiballocRep LiballocPlace LiballocProofs.
From S2P Require Import LiballocSearch LiballocMalloc LiballocFree LiballocUse.
Import Liballoc LiballocRep LiballocPlace LiballocProofs LiballocSearch LiballocMalloc LiballocFree LiballocUse.

Module LiballocSpec.

(** ** A page source

    Pages are taken above every page in use, from 1 MiB up; NULL when the
    address space is exhausted. *)
Definition bump_top (s : list (Z * Z)) : Z :=
  foldr (fun r t => Z.max (r.1 + page_bytes r.2) t) 0x100000 s.
Definition remove_pair (r : Z * Z) (s : list (Z * Z)) : list (Z * Z) :=
  match list_find (fun x => x = r) s with Some (i, _) => delete i s | None => s end.

#[export] Instance bump_source : PageSource (list (Z * Z)) := {
  os_alloc pages m s :=
    let a := bump_top s in
    if a + page_bytes pages <? 2 ^ 32 then Done (a, m, (a, pages) :: s) else Done (0, m, s);
  os_free a pages m s := Done (m, remove_pair (a, pages) s);
  os_regions s := s;
  os_wf s := Forall (fun r => r.1 mod 4096 = 0 /\ 0 <= r.2) s;
}.

Lemma bump_top_bound s : 0x100000 <= bump_top s /\ Forall (fun r => r.1 + page_bytes r.2 <= bump_top s) s.
Proof.
  unfold bump_top. induction s as [|r s [IH1 IH2]]; simpl; [split; [lia|constructor]|].
  split; [lia|]. constructor; [lia|]. eapply Forall_impl; [exact IH2|]. simpl. lia.
Qed.

Lemma bump_top_aligned s : Forall (fun r => r.1 mod 4096 = 0 /\ 0 <= r.2) s -> bump_top s mod 4096 = 0.
Proof.
  unfold bump_top, page_bytes. induction 1 as [|r s [E _] _ IH]; simpl; [done|].
  destruct (Z.max_spec (r.1 + r.2 * 4096) (foldr (fun r t => Z.max (r.1 + r.2 * 4096) t) 0x100000 s))
    as [[_ ->]|[_ ->]]; [done|]. by rewrite Z.mod_add.
Qed.

#[export] Instance bump_source_laws : PageSourceLaws (list (Z * Z)).
Proof.
  split.
  - intros pages m s a m' s' W Hp. simpl. destruct (bump_top_bound s) as [B1 B2].
    case_match eqn:E; intros [= <- <- <-].
    + apply Z.ltb_lt in E. split; [constructor; [simpl; split; [by apply bump_top_aligned|lia]|done]|].
      right. split_and!; try done; try lia; [by apply bump_top_aligned|].
      eapply Forall_impl; [exact B2|]. intros r ?. right. simpl in *. done.
    + split; [done|]. left. done.
  - intros pages m s f W Hp. simpl. by case_match.
  - intros a pages m s rest W Hr. simpl in *. eexists _, _. split; [reflexivity|].
    assert ((a, pages) ∈ s) as Hin by (rewrite Hr; left).
    assert (remove_pair (a, pages) s ≡ₚ rest) as Hp.
    { unfold remove_pair. destruct (list_find_elem_of (fun x => x = (a, pages)) s _ Hin eq_refl) as [[i x] E].
      rewrite E. apply list_find_Some in E as (Ei & -> & _).
      apply (inj (cons (a, pages))). rewrite <- Hr. symmetry. by apply delete_Permutation. }
    split_and!; [|done|by intros x _].
    rewrite Hp. rewrite Hr in W. by inversion W.
Qed.

(** The heap before the first call. *)
Definition heap0 : heap (list (Z * Z)) := mkHeap ∅ 0 0 0 0 0 0 0 0 false [].

Lemma heap0_hinv : hinv heap0 [] false.
Proof. split; try done; try constructor. done. Qed.

(** A heap with two blocks, and what it represents. *)
Definition demo : heap (list (Z * Z)) := Eval vm_compute in
  match (malloc 10 100 ≫= fun _ => malloc 10 200) heap0 with Done (_, h) => h | Fault _ => heap0 end.
Definition demo_blk1 : blk := Blk 0x100018 120 100.
Definition demo_blk2 : blk := Blk 0x1000a8 220 200.
Definition demo_regions : list region := [Region 0x100000 16 [demo_blk1; demo_blk2]].

Lemma demo_hinv : hinv demo demo_regions false.
Proof.
  split.
  - vm_compute. reflexivity.
  - unfold demo_regions. cbn [regs hd_base]. unfold region_at. cbn [seg hd_addr r_blks r_base r_pages].
    unfold major_at, minor_at. split_and!; try exact Logic.I; vm_compute; reflexivity.
  - repeat constructor; vm_compute; done.
  - repeat constructor.
  - right. change (l_bestBet demo) with 0x100000. apply list_elem_of_here.
  - vm_compute. reflexivity.
  - repeat constructor; vm_compute; done.
  - change (os_regions (l_os demo)) with [(0x100000, 16)]. done.
  - vm_compute. reflexivity.
  - vm_compute. reflexivity.
Qed.

Section Claims.
Context {OS : Type} `{PageSourceLaws OS}.
Implicit Types h : heap OS.

(** What a call of an allocation function that asked for [req] bytes aligned on
    [2 ^ k] may do to the allocated blocks [rs]: fail with NULL and no change,
    or hand out [q], a fresh block apart from every other one. *)
Definition alloc_contract (h h' : heap OS) (rs : list region) (req k q : Z) : Prop :=
  exists rs', hinv h' rs' false /\ payloads_kept h h' (all_blks rs) /\
    ((q = 0 /\ all_blks rs' = all_blks rs) \/
     exists nb, all_blks rs' ≡ₚ nb :: all_blks rs /\ b_req nb = req /\ q mod 2 ^ k = 0 /\
       points_to h' nb q /\ Forall (b_apart nb) (all_blks rs)).

Lemma allocated_contract h h' rs size req k q :
  allocated h h' rs false size req k q -> alloc_contract h h' rs req k q.
Proof.
  intros (rs' & nb & I & Hp & _ & E & (Ha & ? & ? & L) & Pk). exists rs'. split_and!; try done.
  right. exists nb. split_and!; try done; [by split_and!; [|lia|]|].
  pose proof (pairwise_perm _ _ Hp (hinv_pairwise _ _ _ I)) as P. apply P.
Qed.

(** C6: [malloc_align] ends for every request that fits the address space; it
    keeps the heap invariant and the contents of all allocated blocks, and
    returns either NULL with the same blocks allocated, or a pointer aligned as
    asked to a new block of the requested size that overlaps no other block.  The
    only other outcome is the page source stopping the machine. *)
Theorem malloc_align_spec fuel h rs req k :
  hinv h rs false -> 0 <= req -> 1 <= k < 32 -> req + 2 ^ k + 64 <= 2 ^ 32 - 4096 ->
  (malloc_fuel rs <= fuel)%nat ->
  malloc_align fuel req (2 ^ k) h = Fault Panic \/
  exists q h', malloc_align fuel req (2 ^ k) h = Done (q, h') /\ alloc_contract h h' rs req k q.
Proof.
  intros I ????. destruct (malloc_align_ok fuel h rs req k I)
    as [E|[(h' & E & rs' & ? & ? & ?)|(q & h' & E & Ha)]]; try done; [by left|right|right].
  - exists 0, h'. split; [done|]. exists rs'. split_and!; try done. by left.
  - exists q, h'. split; [done|]. by eapply allocated_contract.
Qed.

(** C7: [free] of a pointer to an allocated block ends, keeps the invariant,
    removes exactly that block and changes no byte of any other payload; a
    region left empty goes back to the page source. *)
Theorem free_spec h rs b q :
  hinv h rs false -> b ∈ all_blks rs -> points_to h b q ->
  exists h' rs', free q h = Done (tt, h') /\ hinv h' rs' false /\ all_blks rs ≡ₚ b :: all_blks rs' /\
    payloads_kept h h' (all_blks rs').
Proof. apply free_ok. Qed.

(** a [malloc] that succeeds followed by the [free] of its result leaves the
    blocks that were allocated before, with their contents. *)
Theorem malloc_free_roundtrip fuel h rs req q h1 :
  hinv h rs false -> 0 <= req -> req + 68 <= 2 ^ 32 - 4096 -> (malloc_fuel rs <= fuel)%nat ->
  malloc fuel req h = Done (q, h1) -> q <> 0 ->
  exists h2 rs2, free q h1 = Done (tt, h2) /\ hinv h2 rs2 false /\ all_blks rs2 ≡ₚ all_blks rs /\
    payloads_kept h h2 (all_blks rs).
Proof.
  intros I ??? E Hq. destruct (malloc_align_ok fuel h rs req 2 I)
    as [E'|[(h' & E' & _)|(q' & h' & E' & Ha)]]; try done; try lia;
    change (2 ^ 2) with 4 in E'; unfold malloc in E; rewrite E' in E; [done|congruence|].
  injection E as -> ->. destruct Ha as (rs1 & nb & I1 & Hp & _ & _ & (_ & ? & ? & L) & Pk).
  assert (nb ∈ all_blks rs1) as Hin by (rewrite Hp; left).
  destruct (free_ok h1 rs1 nb q I1 Hin) as (h2 & rs2 & Ef & I2 & Hp2 & Pk2); [by split_and!; [|lia|]|].
  exists h2, rs2. assert (all_blks rs2 ≡ₚ all_blks rs) as Hr by (apply (inj (cons nb)); by rewrite <- Hp2, Hp).
  split_and!; try done. eapply payloads_kept_trans; [exact Pk|]. unfold payloads_kept in *. by rewrite <- Hr.
Qed.

(** a second [free] of the same pointer, while its region still holds another
    block, changes nothing but the error counters. *)
Theorem double_free_detected h l1 r l2 b1 b b2 q :
  hinv h (l1 ++ r :: l2) false -> r_blks r = b1 ++ b :: b2 -> b1 ++ b2 <> [] -> points_to h b q ->
  exists h1 over, free q h = Done (tt, h1) /\
    free q h1 = Done (tt, set_counts (l_warningCount h1) (s64 (l_errorCount h1 + 1)) over h1).
Proof.
  intros I E Hne Hq. destruct (free_leaves_dead h l1 r l2 b1 b b2 q I E Hne Hq) as (h1 & Ef & Hl & Dd & Hq1).
  destruct (hinv_region _ _ _ _ _ I) as [Hok _]. pose proof Hok as (? & ? & ? & ? & F). rewrite E in F.
  assert (0 <= b_req b) by (apply fits_app in F as [_ F]; simpl in F; lia).
  assert (b ∈ r_blks r) as Hb by (rewrite E; apply elem_of_app; right; left).
  pose proof (region_blk_bounds _ _ Hok Hb).
  destruct (free_not_live h1 b q) as [over Ef2]; try done; try lia; [by rewrite Dd|].
  by exists h1, over.
Qed.

(** The outcomes of an allocation used by [calloc] and [realloc]. *)
Lemma malloc_ok fuel h rs req :
  hinv h rs false -> 0 <= req -> req + 68 <= 2 ^ 32 - 4096 -> (malloc_fuel rs <= fuel)%nat ->
  alloc_result h rs false (req + 4 + 16) req 2 (malloc fuel req h).
Proof. intros. apply (malloc_align_ok fuel h rs req 2); try done. change (2 ^ 2) with 4. lia. Qed.

Lemma handed_out_nonzero h rs lk nb q alignment :
  hinv h rs lk -> nb ∈ all_blks rs -> handed_out h nb alignment q -> 0 < q /\ q + b_req nb < 2 ^ 32.
Proof.
  intros [] Hb (_ & ? & ? & _). apply list_elem_of_bind in Hb as (r & Hb & Hr).
  rewrite Forall_forall in hi_ok0. pose proof (hi_ok0 _ Hr) as Hok.
  pose proof (region_blk_bounds _ _ Hok Hb). destruct Hok as (? & ? & ? & ? & _). lia.
Qed.

(** A change of the bytes of the payload of [nb] keeps the other payloads. *)
Lemma others_kept h rs lk nb rest lo hi m' :
  hinv h rs lk -> all_blks rs ≡ₚ nb :: rest -> b_addr nb + 24 <= lo -> hi <= b_end nb -> lo <= hi ->
  agree_off (mem h) m' lo hi -> payloads_kept h (set_mem (fun _ => m') h) rest.
Proof.
  intros I Hp ??? Ag. pose proof (pairwise_perm _ _ Hp (hinv_pairwise _ _ _ I)) as [P _].
  eapply Forall_impl; [exact P|]. simpl. intros c Hc. eapply agree_off_on; [exact Ag|].
  unfold b_apart, b_end in *. lia.
Qed.

(** A pointer stays valid while the payload it points into is kept. *)
Lemma points_to_kept h h' b q :
  points_to h b q -> 0 <= b_req b -> agree_on (mem h) (mem h') (b_addr b + 24) (b_end b) -> points_to h' b q.
Proof.
  intros (? & ? & L) ? A. split_and!; try done. rewrite <- L. eapply load32_agree_on; [done|lia|lia].
Qed.

Lemma blk_bounds h rs lk b :
  hinv h rs lk -> b ∈ all_blks rs ->
  0 < b_addr b /\ 0 <= b_size b /\ 0 <= b_req b < 2 ^ 32 /\ b_end b < 2 ^ 32 /\
  load32 (mem h) (b_addr b + 12) = LIBALLOC_MAGIC /\ load32 (mem h) (b_addr b + 20) = b_req b.
Proof.
  intros I Hb. apply list_elem_of_bind in Hb as (r & Hb & Hr).
  apply list_elem_of_split in Hr as (l1 & l2 & ->).
  destruct (hinv_region _ _ _ _ _ I) as [Hok Hat]. pose proof (region_blk_bounds _ _ Hok Hb).
  apply list_elem_of_split in Hb as (b1 & b2 & E).
  destruct (gapped_open_at _ _ _ _ _ _ _ Hok E Hat) as ((_ & _ & _ & ? & _ & ?) & _).
  destruct Hok as (? & ? & ? & ? & F). rewrite E in F. apply fits_app in F as [_ F]. simpl in F.
  split_and!; try done; lia.
Qed.

(** [calloc] either stops (the page source panics, or there is no memory and
    the result of [malloc] is dereferenced unchecked) or returns a new block
    whose [nobj * size] bytes are all zero, every other block being unchanged. *)
Theorem calloc_zeroes fuel h rs nobj size :
  hinv h rs false -> 0 < nobj * size < 2 ^ 31 -> (malloc_fuel rs <= fuel)%nat ->
  calloc fuel nobj size h = Fault Panic \/ calloc fuel nobj size h = Fault BadAccess \/
  exists q h' rs' nb, calloc fuel nobj size h = Done (q, h') /\ hinv h' rs' false /\
    all_blks rs' ≡ₚ nb :: all_blks rs /\ b_req nb = nobj * size /\
    b_addr nb + 40 <= q /\ q + nobj * size <= b_end nb /\
    (forall x, q <= x < q + nobj * size -> load8 (mem h') x = 0) /\
    payloads_kept h h' (all_blks rs).
Proof.
  intros I Hn Hf. unfold calloc. rewrite (uwrap_small 32 (nobj * size)) by lia.
  rewrite (swrap_small 32 (nobj * size)) by lia. rewrite (uwrap_small 32 (nobj * size)) by lia.
  destruct (malloc_ok fuel h rs (nobj * size) I)
    as [E|[(h' & E & _)|(q & h1 & E & rs1 & nb & I1 & Hp & _ & Er & Ho & Pk)]]; try lia.
  - left. by rewrite (run_bind_fault _ _ _ _ E).
  - right; left. rewrite (run_bind_done _ _ _ _ _ E). unfold liballoc_memset.
    rewrite Z.eqb_refl, (proj2 (Z.ltb_lt 0 (nobj * size))) by lia. done.
  - right; right. rewrite (run_bind_done _ _ _ _ _ E). unfold liballoc_memset.
    assert (nb ∈ all_blks rs1) as Hin by (rewrite Hp; left).
    pose proof (handed_out_nonzero _ _ _ _ _ _ I1 Hin Ho) as [Hq _].
    rewrite (proj2 (Z.eqb_neq q 0)) by lia. destruct Ho as (_ & ? & ? & _).
    assert (agree_off (mem h1) (memset_bytes (Z.to_nat (nobj * size)) q 0 (mem h1)) q (q + nobj * size)) as Ag.
    { intros x Hx. rewrite memset_bytes_spec, decide_False by lia. done. }
    eexists q, _, rs1, nb. split; [reflexivity|].
    split_and!; try done.
    + eapply (hinv_payload_write _ _ _ nb _ _ _ I1 Hin) in Ag; [done|lia|lia].
    + lia.
    + intros x Hx. cbn. rewrite memset_bytes_spec, decide_True by lia. done.
    + eapply payloads_kept_trans; [exact Pk|].
      eapply (others_kept _ rs1 _ nb _ q (q + nobj * size)); try done; lia.
Qed.

(** The part of [realloc] before the new block is asked for. *)
Lemma realloc_header fuel h rs b p size :
  hinv h rs false -> b ∈ all_blks rs -> points_to h b p -> b_req b < size ->
  realloc fuel p size h =
    (ptr ← malloc fuel size; liballoc_memcpy ptr p (b_req b) ;; free p ;; mret ptr) h.
Proof.
  intros I Hb Hq Hs. destruct (blk_bounds _ _ _ _ I Hb) as (? & ? & ? & ? & Lm & Lr).
  pose proof Hq as (? & ? & _). unfold realloc. rewrite (proj2 (Z.eqb_neq size 0)) by lia.
  rewrite (proj2 (Z.eqb_neq p 0)) by lia.
  rewrite (run_bind_done _ _ _ _ _ (unalign_ok h b p Hq ltac:(lia) ltac:(lia) ltac:(lia))).
  unfold liballoc_lock. rewrite run_bind_bind, run_bind_gets, (hi_lock _ _ _ I).
  rewrite run_bind_modify, run_bind_min_get. unfold sizeof_minor.
  rewrite (uwrap_small 32 (b_addr b + 24 - 24)) by lia. replace (b_addr b + 24 - 24) with (b_addr b) by lia.
  cbn [minor_off mem set_locked]. rewrite Lm, Z.eqb_refl. cbn [negb]. rewrite run_bind_min_get.
  cbn [minor_off mem set_locked]. rewrite Lr. rewrite (proj2 (Z.leb_gt size (b_req b))) by lia.
  unfold liballoc_unlock. rewrite run_bind_modify. f_equal. pose proof (hi_lock _ _ _ I).
  destruct h. cbn in *. by subst.
Qed.

(** [realloc] to a larger size either stops (no memory: the result of
    [malloc] is used unchecked) or moves the block: the new block holds the bytes
    of the old one, the old one is free, and the other blocks are unchanged. *)
Theorem realloc_moves fuel h rs b p size rest :
  hinv h rs false -> all_blks rs ≡ₚ b :: rest -> points_to h b p -> 0 < b_req b < size ->
  size + 68 <= 2 ^ 32 - 4096 -> (malloc_fuel rs <= fuel)%nat ->
  realloc fuel p size h = Fault Panic \/ realloc fuel p size h = Fault BadAccess \/
  exists q h' rs' nb, realloc fuel p size h = Done (q, h') /\ hinv h' rs' false /\
    all_blks rs' ≡ₚ nb :: rest /\ b_req nb = size /\ points_to h' nb q /\
    (forall i, 0 <= i < b_req b -> load8 (mem h') (q + i) = load8 (mem h) (p + i)) /\
    payloads_kept h h' rest.
Proof.
  intros I Hp Hq Hs Hm Hf. assert (b ∈ all_blks rs) as Hb by (rewrite Hp; left).
  rewrite (realloc_header fuel h rs b p size I Hb Hq) by lia.
  destruct (malloc_ok fuel h rs size I)
    as [E|[(h' & E & _)|(q & h1 & E & rs1 & nb & I1 & Hp1 & _ & Er & Ho & Pk)]]; try lia.
  - left. by rewrite (run_bind_fault _ _ _ _ E).
  - right; left. rewrite (run_bind_done _ _ _ _ _ E). unfold liballoc_memcpy.
    rewrite Z.eqb_refl, (proj2 (Z.ltb_lt 0 (b_req b))) by lia. done.
  - right; right. rewrite (run_bind_done _ _ _ _ _ E). unfold liballoc_memcpy.
    assert (nb ∈ all_blks rs1) as Hin by (rewrite Hp1; left).
    pose proof (handed_out_nonzero _ _ _ _ _ _ I1 Hin Ho) as [? _].
    destruct (blk_bounds _ _ _ _ I Hb) as (? & ? & ? & ? & _). pose proof Hq as (? & ? & _).
    rewrite (proj2 (Z.eqb_neq q 0)), (proj2 (Z.eqb_neq p 0)) by lia. cbn [orb andb].
    rewrite run_bind_modify. set (h2 := set_mem _ h1). destruct Ho as (_ & ? & ? & Ld).
    assert (b_apart nb b) as Hab.
    { pose proof (pairwise_perm _ _ Hp1 (hinv_pairwise _ _ _ I1)) as [P _].
      rewrite Forall_forall in P. by apply P. }
    assert (agree_off (mem h1) (mem h2) q (q + b_req b)) as Ag.
    { intros x Hx. cbn. rewrite memcpy_mem_spec, decide_False by (unfold b_apart, b_end in *; lia). done. }
    assert (hinv h2 rs1 false) as I2 by (eapply (hinv_payload_write _ _ _ nb _ _ _ I1 Hin) in Ag; [done|lia|lia]).
    assert (payloads_kept h1 h2 (all_blks rs)) as Pk2 by (eapply (others_kept _ rs1 _ nb _ q (q + b_req b)); try done; lia).
    pose proof (payloads_kept_trans _ _ _ _ Pk Pk2) as Pk12.
    assert (b ∈ all_blks rs1) as Hb1 by (rewrite Hp1; by right).
    destruct (free_ok h2 rs1 b p I2 Hb1) as (h3 & rs3 & Ef & I3 & Hp3 & Pk3).
    { eapply points_to_kept; [exact Hq|lia|]. unfold payloads_kept in Pk12. rewrite Forall_forall in Pk12.
      by apply Pk12. }
    rewrite (run_bind_done _ _ _ _ _ Ef). exists q, h3, rs3, nb. split; [done|].
    assert (all_blks rs3 ≡ₚ nb :: rest) as Hr.
    { apply (inj (cons b)). rewrite <- Hp3, Hp1, Hp. apply Permutation_swap. }
    unfold payloads_kept in Pk3. rewrite Hr, Forall_cons in Pk3. destruct Pk3 as [Pn Pk3].
    split_and!; try done.
    + eapply points_to_kept; [|lia|exact Pn]. split_and!; try done; [lia|]. rewrite <- Ld.
      apply (load32_agree_on _ _ (q - 16) q); [|lia|lia]. eapply agree_off_on; [exact Ag|lia].
    + intros i Hi. rewrite Pn by lia. cbn. rewrite memcpy_mem_spec by (unfold b_apart, b_end in *; lia).
      rewrite decide_True by lia. replace (q + i - q) with i by lia.
      unfold payloads_kept in Pk. rewrite Forall_forall in Pk. apply (Pk _ Hb). lia.
    + eapply payloads_kept_trans; [|exact Pk3]. unfold payloads_kept in *.
      rewrite Hp, Forall_cons in Pk12. apply Pk12.
Qed.
End Claims.

(** the size computation of [malloc_align] is 32 bits wide.  A request within
    20 bytes of the end of the address space wraps: [malloc(0xFFFFFFF0)] hands out
    a block whose payload has 4 bytes. *)
Theorem malloc_size_wraps :
  exists q h', malloc 10 0xFFFFFFF0 heap0 = Done (q, h') /\ q <> 0 /\
    load32 (mem h') (l_memRoot h' + sizeof_major + minor_off Mn_size) = 4 /\
    load32 (mem h') (l_memRoot h' + sizeof_major + minor_off Mn_req_size) = 0xFFFFFFF0.
Proof. eexists _, _. split; [vm_compute; reflexivity|]. split_and!; [done|vm_compute; reflexivity..]. Qed.

(** ** Witnesses *)

Lemma malloc_align_spec_witness :
  malloc_align 4 100 (2 ^ 4) heap0 = Fault Panic \/
  exists q h', malloc_align 4 100 (2 ^ 4) heap0 = Done (q, h') /\ alloc_contract heap0 h' [] 100 4 q.
Proof.
  apply (malloc_align_spec 4 heap0 [] 100 4); [apply heap0_hinv|lia|lia|lia|].
  vm_compute. lia.
Defined.

Lemma demo_points_to : points_to demo demo_blk1 0x100040.
Proof. unfold points_to. split_and!; vm_compute; done. Qed.

Lemma free_spec_witness :
  exists h' rs', free 0x100040 demo = Done (tt, h') /\ hinv h' rs' false /\
    all_blks demo_regions ≡ₚ demo_blk1 :: all_blks rs' /\ payloads_kept demo h' (all_blks rs').
Proof. apply (free_spec demo demo_regions demo_blk1 0x100040 demo_hinv); [left|apply demo_points_to]. Defined.

Lemma malloc_free_roundtrip_witness :
  exists q h1 h2 rs2, malloc 10 100 heap0 = Done (q, h1) /\ q <> 0 /\
    free q h1 = Done (tt, h2) /\ hinv h2 rs2 false /\ all_blks rs2 ≡ₚ all_blks [].
Proof.
  eexists _, _. eassert (malloc 10 100 heap0 = Done _) as E by (vm_compute; reflexivity).
  destruct (malloc_free_roundtrip 10 heap0 [] 100 _ _ heap0_hinv ltac:(lia) ltac:(lia) ltac:(vm_compute; lia) E
    ltac:(done)) as (h2 & rs2 & Ef & I2 & Hp & _).
  exists h2, rs2. split_and!; [exact E|done|exact Ef|exact I2|exact Hp].
Defined.

Lemma double_free_detected_witness :
  exists h1 over, free 0x100040 demo = Done (tt, h1) /\
    free 0x100040 h1 = Done (tt, set_counts (l_warningCount h1) (s64 (l_errorCount h1 + 1)) over h1).
Proof.
  apply (double_free_detected demo [] (Region 0x100000 16 [demo_blk1; demo_blk2]) [] [] demo_blk1 [demo_blk2]);
    [apply demo_hinv|reflexivity|done|apply demo_points_to].
Defined.

Lemma calloc_zeroes_witness :
  calloc 10 4 8 demo = Fault Panic \/ calloc 10 4 8 demo = Fault BadAccess \/
  exists q h' rs' nb, calloc 10 4 8 demo = Done (q, h') /\ hinv h' rs' false /\
    all_blks rs' ≡ₚ nb :: all_blks demo_regions /\ b_req nb = 4 * 8 /\
    b_addr nb + 40 <= q /\ q + 4 * 8 <= b_end nb /\
    (forall x, q <= x < q + 4 * 8 -> load8 (mem h') x = 0) /\
    payloads_kept demo h' (all_blks demo_regions).
Proof. apply (calloc_zeroes 10 demo demo_regions 4 8); [apply demo_hinv|lia|vm_compute; lia]. Defined.

Lemma realloc_moves_witness :
  realloc 10 0x100040 5000 demo = Fault Panic \/ realloc 10 0x100040 5000 demo = Fault BadAccess \/
  exists q h' rs' nb, realloc 10 0x100040 5000 demo = Done (q, h') /\ hinv h' rs' false /\
    all_blks rs' ≡ₚ nb :: [demo_blk2] /\ b_req nb = 5000 /\ points_to h' nb q /\
    (forall i, 0 <= i < 100 -> load8 (mem h') (q + i) = load8 (mem demo) (0x100040 + i)) /\
    payloads_kept demo h' [demo_blk2].
Proof.
  apply (realloc_moves 10 demo demo_regions demo_blk1 0x100040 5000 [demo_blk2]);
    [apply demo_hinv|reflexivity|apply demo_points_to|simpl; lia|lia|vm_compute; lia].
Defined.
End LiballocSpec.
