(* ===== verification/Errno.v ===== *)
(** * Errno: the error numbers of [libc/errno.h] *)
From stdpp Require Import base list.
From Stdlib Require Import ZArith.
From S2P Require Import Prelude.

Module Errno.
Definition EOK : Z := 0.
Definition EPERM : Z := 1.
Definition ENOENT : Z := 2.
Definition ESRCH : Z := 3.
Definition EINTR : Z := 4.
Definition EIO : Z := 5.
Definition ENXIO : Z := 6.
Definition E2BIG : Z := 7.
Definition ENOEXEC : Z := 8.
Definition EBADF : Z := 9.
Definition ECHILD : Z := 10.
Definition EAGAIN : Z := 11.
Definition ENOMEM : Z := 12.
Definition EACCES : Z := 13.
Definition EFAULT : Z := 14.
Definition ENOTBLK : Z := 15.
Definition EBUSY : Z := 16.
Definition EEXIST : Z := 17.
Definition EXDEV : Z := 18.
Definition ENODEV : Z := 19.
Definition ENOTDIR : Z := 20.
Definition EISDIR : Z := 21.
Definition EINVAL : Z := 22.
Definition ENFILE : Z := 23.
Definition EMFILE : Z := 24.
Definition ENOTTY : Z := 25.
Definition ETXTBSY : Z := 26.
Definition EFBIG : Z := 27.
Definition ENOSPC : Z := 28.
Definition ESPIPE : Z := 29.
Definition EROFS : Z := 30.
Definition EMLINK : Z := 31.
Definition EPIPE : Z := 32.
Definition EDOM : Z := 33.
Definition ERANGE : Z := 34.
Definition EDEADLK : Z := 35.
Definition ENAMETOOLONG : Z := 36.
Definition ENOLCK : Z := 37.
Definition ENOSYS : Z := 38.
Definition ENOTEMPTY : Z := 39.
Definition ELOOP : Z := 40.
Definition EWOULDBLOCK : Z := EAGAIN.
Definition ENOMSG : Z := 42.
Definition EIDRM : Z := 43.
Definition ECHRNG : Z := 44.
Definition EL2NSYNC : Z := 45.
Definition EL3HLT : Z := 46.
Definition EL3RST : Z := 47.
Definition ELNRNG : Z := 48.
Definition EUNATCH : Z := 49.
Definition ENOCSI : Z := 50.
Definition EL2HLT : Z := 51.
Definition EBADE : Z := 52.
Definition EBADR : Z := 53.
Definition EXFULL : Z := 54.
Definition ENOANO : Z := 55.
Definition EBADRQC : Z := 56.
Definition EBADSLT : Z := 57.
Definition EDEADLOCK : Z := EDEADLK.
Definition EBFONT : Z := 59.
Definition ENOSTR : Z := 60.
Definition ENODATA : Z := 61.
Definition ETIME : Z := 62.
Definition ENOSR : Z := 63.
Definition ENONET : Z := 64.
Definition ENOPKG : Z := 65.
Definition EREMOTE : Z := 66.
Definition ENOLINK : Z := 67.
Definition EADV : Z := 68.
Definition ESRMNT : Z := 69.
Definition ECOMM : Z := 70.
Definition EPROTO : Z := 71.
Definition EMULTIHOP : Z := 72.
Definition EDOTDOT : Z := 73.
Definition EBADMSG : Z := 74.
Definition EOVERFLOW : Z := 75.
Definition ENOTUNIQ : Z := 76.
Definition EBADFD : Z := 77.
Definition EREMCHG : Z := 78.
Definition ELIBACC : Z := 79.
Definition ELIBBAD : Z := 80.
Definition ELIBSCN : Z := 81.
Definition ELIBMAX : Z := 82.
Definition ELIBEXEC : Z := 83.
Definition EILSEQ : Z := 84.
Definition ERESTART : Z := 85.
Definition ESTRPIPE : Z := 86.
Definition EUSERS : Z := 87.
Definition ENOTSOCK : Z := 88.
Definition EDESTADDRREQ : Z := 89.
Definition EMSGSIZE : Z := 90.
Definition EPROTOTYPE : Z := 91.
Definition ENOPROTOOPT : Z := 92.
Definition EPROTONOSUPPORT : Z := 93.
Definition ESOCKTNOSUPPORT : Z := 94.
Definition EOPNOTSUPP : Z := 95.
Definition EPFNOSUPPORT : Z := 96.
Definition EAFNOSUPPORT : Z := 97.
Definition EADDRINUSE : Z := 98.
Definition EADDRNOTAVAIL : Z := 99.
Definition ENETDOWN : Z := 100.
Definition ENETUNREACH : Z := 101.
Definition ENETRESET : Z := 102.
Definition ECONNABORTED : Z := 103.
Definition ECONNRESET : Z := 104.
Definition ENOBUFS : Z := 105.
Definition EISCONN : Z := 106.
Definition ENOTCONN : Z := 107.
Definition ESHUTDOWN : Z := 108.
Definition ETOOMANYREFS : Z := 109.
Definition ETIMEDOUT : Z := 110.
Definition ECONNREFUSED : Z := 111.
Definition EHOSTDOWN : Z := 112.
Definition EHOSTUNREACH : Z := 113.
Definition EALREADY : Z := 114.
Definition EINPROGRESS : Z := 115.
Definition ESTALE : Z := 116.
Definition EUCLEAN : Z := 117.
Definition ENOTNAM : Z := 118.
Definition ENAVAIL : Z := 119.
Definition EISNAM : Z := 120.
Definition EREMOTEIO : Z := 121.
Definition EDQUOT : Z := 122.
Definition ENOMEDIUM : Z := 123.
Definition EMEDIUMTYPE : Z := 124.
Definition ECANCELED : Z := 125.
Definition ENOKEY : Z := 126.
Definition EKEYEXPIRED : Z := 127.
Definition EKEYREVOKED : Z := 128.
Definition EKEYREJECTED : Z := 129.
Definition EOWNERDEAD : Z := 130.
Definition ENOTRECOVERABLE : Z := 131.
Definition ENOTSUP : Z := 134.
Definition ENOSHARE : Z := 136.
Definition ECASECLASH : Z := 137.

(** Every error number the header defines, in the order of the header. *)
Definition errno_codes : list Z :=
  [EOK; EPERM; ENOENT; ESRCH; EINTR; EIO; ENXIO; E2BIG;
   ENOEXEC; EBADF; ECHILD; EAGAIN; ENOMEM; EACCES; EFAULT; ENOTBLK;
   EBUSY; EEXIST; EXDEV; ENODEV; ENOTDIR; EISDIR; EINVAL; ENFILE;
   EMFILE; ENOTTY; ETXTBSY; EFBIG; ENOSPC; ESPIPE; EROFS; EMLINK;
   EPIPE; EDOM; ERANGE; EDEADLK; ENAMETOOLONG; ENOLCK; ENOSYS; ENOTEMPTY;
   ELOOP; EWOULDBLOCK; ENOMSG; EIDRM; ECHRNG; EL2NSYNC; EL3HLT; EL3RST;
   ELNRNG; EUNATCH; ENOCSI; EL2HLT; EBADE; EBADR; EXFULL; ENOANO;
   EBADRQC; EBADSLT; EDEADLOCK; EBFONT; ENOSTR; ENODATA; ETIME; ENOSR;
   ENONET; ENOPKG; EREMOTE; ENOLINK; EADV; ESRMNT; ECOMM; EPROTO;
   EMULTIHOP; EDOTDOT; EBADMSG; EOVERFLOW; ENOTUNIQ; EBADFD; EREMCHG; ELIBACC;
   ELIBBAD; ELIBSCN; ELIBMAX; ELIBEXEC; EILSEQ; ERESTART; ESTRPIPE; EUSERS;
   ENOTSOCK; EDESTADDRREQ; EMSGSIZE; EPROTOTYPE; ENOPROTOOPT; EPROTONOSUPPORT; ESOCKTNOSUPPORT; EOPNOTSUPP;
   EPFNOSUPPORT; EAFNOSUPPORT; EADDRINUSE; EADDRNOTAVAIL; ENETDOWN; ENETUNREACH; ENETRESET; ECONNABORTED;
   ECONNRESET; ENOBUFS; EISCONN; ENOTCONN; ESHUTDOWN; ETOOMANYREFS; ETIMEDOUT; ECONNREFUSED;
   EHOSTDOWN; EHOSTUNREACH; EALREADY; EINPROGRESS; ESTALE; EUCLEAN; ENOTNAM; ENAVAIL;
   EISNAM; EREMOTEIO; EDQUOT; ENOMEDIUM; EMEDIUMTYPE; ECANCELED; ENOKEY; EKEYEXPIRED;
   EKEYREVOKED; EKEYREJECTED; EOWNERDEAD; ENOTRECOVERABLE; ENOTSUP; ENOSHARE; ECASECLASH].
End Errno.
