(* ===== verification/Strerror.v ===== *)
(** * Strerror: the messages of [libc/string/srterror.c]

    The [switch] of [_strerror_r] is the table of its cases, in the four parts
    the source is cut into here; a case whose macro [libc/errno.h] does not define
    ([ENMFILE]), or whose value another case already has ([EWOULDBLOCK]), is
    removed by the preprocessor. *)
From stdpp Require Import base list strings.
From Stdlib Require Import ZArith Lia.
From S2P Require Import Prelude Errno.
Import Errno.

Module Strerror.
Open Scope string_scope.

Definition strerror_cases_1 : list (Z * string) :=
  [(0, "Success");
   (EPERM, "Not owner");
   (ENOENT, "No such file or directory");
   (ESRCH, "No such process");
   (EINTR, "Interrupted system call");
   (EIO, "I/O error");
   (ENXIO, "No such device or address");
   (E2BIG, "Arg list too long");
   (ENOEXEC, "Exec format error");
   (EALREADY, "Socket already connected");
   (EBADF, "Bad file number");
   (ECHILD, "No children");
   (EDESTADDRREQ, "Destination address required");
   (EAGAIN, "No more processes");
   (ENOMEM, "Not enough space");
   (EACCES, "Permission denied");
   (EFAULT, "Bad address");
   (ENOTBLK, "Block device required");
   (EBUSY, "Device or resource busy");
   (EEXIST, "File exists");
   (EXDEV, "Cross-device link");
   (ENODEV, "No such device");
   (ENOTDIR, "Not a directory")].
Definition strerror_cases_2 : list (Z * string) :=
  [(EHOSTDOWN, "Host is down");
   (EINPROGRESS, "Connection already in progress");
   (EISDIR, "Is a directory");
   (EINVAL, "Invalid argument");
   (ENETDOWN, "Network interface is not configured");
   (ENFILE, "Too many open files in system");
   (EMFILE, "Too many open files");
   (ENOTTY, "Not a character device");
   (ETXTBSY, "Text file busy");
   (EFBIG, "File too large");
   (EHOSTUNREACH, "Host is unreachable");
   (ENOSPC, "No space left on device");
   (ENOTSUP, "Not supported");
   (ESPIPE, "Illegal seek");
   (EROFS, "Read-only file system");
   (EMLINK, "Too many links");
   (EPIPE, "Broken pipe");
   (EDOM, "Math argument");
   (ERANGE, "Result too large");
   (ENOMSG, "No message of desired type");
   (EIDRM, "Identifier removed");
   (EDEADLK, "Deadlock");
   (ENOLCK, "No lock")].
Definition strerror_cases_3 : list (Z * string) :=
  [(ENOSTR, "Not a stream");
   (ETIME, "Stream ioctl timeout");
   (ENOSR, "No stream resources");
   (ENONET, "Machine is not on the network");
   (ENOPKG, "No package");
   (EREMOTE, "Resource is remote");
   (ENOLINK, "Virtual circuit is gone");
   (EADV, "Advertise error");
   (ESRMNT, "Srmount error");
   (ECOMM, "Communication error");
   (EPROTO, "Protocol error");
   (EPROTONOSUPPORT, "Unknown protocol");
   (EMULTIHOP, "Multihop attempted");
   (EBADMSG, "Bad message");
   (ELIBACC, "Cannot access a needed shared library");
   (ELIBBAD, "Accessing a corrupted shared library");
   (ELIBSCN, ".lib section in a.out corrupted");
   (ELIBMAX, "Attempting to link in more shared libraries than system limit");
   (ELIBEXEC, "Cannot exec a shared library directly");
   (ENOSYS, "Function not implemented");
   (ENOTEMPTY, "Directory not empty");
   (ENAMETOOLONG, "File or path name too long");
   (ELOOP, "Too many symbolic links")].
Definition strerror_cases_4 : list (Z * string) :=
  [(ENOBUFS, "No buffer space available");
   (EAFNOSUPPORT, "Address family not supported by protocol family");
   (EPROTOTYPE, "Protocol wrong type for socket");
   (ENOTSOCK, "Socket operation on non-socket");
   (ENOPROTOOPT, "Protocol not available");
   (ESHUTDOWN, "Can't send after socket shutdown");
   (ECONNREFUSED, "Connection refused");
   (EADDRINUSE, "Address already in use");
   (ECONNABORTED, "Software caused connection abort");
   (ENOTCONN, "Socket is not connected");
   (ESOCKTNOSUPPORT, "Socket type not supported");
   (EISCONN, "Socket is already connected");
   (ECANCELED, "Operation canceled");
   (ENOTRECOVERABLE, "State not recoverable");
   (EOWNERDEAD, "Previous owner died");
   (ESTRPIPE, "Streams pipe error");
   (EOPNOTSUPP, "Operation not supported on socket");
   (EMSGSIZE, "Message too long");
   (ETIMEDOUT, "Connection timed out")].

Definition strerror_cases : list (Z * string) :=
  (strerror_cases_1 ++ strerror_cases_2 ++ strerror_cases_3 ++ strerror_cases_4)%list.

(** [switch (errnum)]: the first case with that label, else [default]. *)
Fixpoint switch (errnum : Z) (cases : list (Z * string)) : string :=
  match cases with
  | [] => ""
  | (label, message) :: cases' => if (errnum =? label)%Z then message else switch errnum cases'
  end.

Definition _strerror_r (errnum : Z) : string := switch errnum strerror_cases.
Definition strerror (errnum : Z) : string := _strerror_r errnum.

(** The error numbers of the header that have no message. *)
Definition no_message : list Z :=
  [ECHRNG; EL2NSYNC; EL3HLT; EL3RST; ELNRNG; EUNATCH; ENOCSI; EL2HLT; EBADE; EBADR; EXFULL; ENOANO;
   EBADRQC; EBADSLT; EBFONT; ENODATA; EDOTDOT; EOVERFLOW; ENOTUNIQ; EBADFD; EREMCHG; EILSEQ; ERESTART;
   EUSERS; EPFNOSUPPORT; EADDRNOTAVAIL; ENETUNREACH; ENETRESET; ECONNRESET; ETOOMANYREFS; ESTALE;
   EUCLEAN; ENOTNAM; ENAVAIL; EISNAM; EREMOTEIO; EDQUOT; ENOMEDIUM; EMEDIUMTYPE; ENOKEY; EKEYEXPIRED;
   EKEYREVOKED; EKEYREJECTED; ENOSHARE; ECASECLASH].

Lemma switch_first errnum cases i label message :
  NoDup (map fst cases) -> cases !! i = Some (label, message) -> errnum = label ->
  switch errnum cases = message.
Proof.
  intros Hn Hi ->. revert i Hi. induction cases as [|[l m] cases IH]; intros i Hi; [done|].
  simpl in *. inversion Hn as [|? ? Hnot Hn']; subst. destruct i as [|i]; simpl in Hi.
  - injection Hi as -> ->. by rewrite Z.eqb_refl.
  - destruct (Z.eqb_spec label l) as [->|]; [|by eapply IH].
    exfalso. apply Hnot. apply list_elem_of_fmap. exists (l, message). split; [done|].
    by eapply list_elem_of_lookup_2.
Qed.

Lemma switch_default errnum cases : errnum ∉ map fst cases -> switch errnum cases = "".
Proof.
  induction cases as [|[l m] cases IH]; simpl; [done|]. rewrite not_elem_of_cons. intros [Hne Hin].
  rewrite (proj2 (Z.eqb_neq errnum l)) by done. by apply IH.
Qed.

Lemma labels_nodup : NoDup (map fst strerror_cases).
Proof. apply (bool_decide_unpack _). vm_compute. exact Logic.I. Qed.

(** the labels of the [switch] are distinct, so that each case is reachable and
    yields its own message; every other number yields the empty string. *)
Theorem strerror_switch errnum :
  (forall i message, strerror_cases !! i = Some (errnum, message) -> strerror errnum = message) /\
  (errnum ∉ map fst strerror_cases -> strerror errnum = "").
Proof.
  split.
  - intros i message Hi. by eapply (switch_first errnum strerror_cases i errnum); [apply labels_nodup| |].
  - apply switch_default.
Qed.

(** of the error numbers [libc/errno.h] defines, exactly those of [no_message]
    have the empty string for a message. *)
Theorem strerror_covers_errno :
  Forall (fun code => strerror code = "" <-> code ∈ no_message) errno_codes.
Proof.
  apply (bool_decide_unpack _). vm_compute. exact Logic.I.
Qed.

End Strerror.
