(* ===== verification/Rand.v ===== *)
(** * Rand: the pseudo-random numbers of [libc/rand.c]

    [unsigned long] and [long] are 32 bits wide.  The state [next] is passed
    explicitly; a generator returns its result and the new state. *)
From stdpp Require Import base list.
From Stdlib Require Import ZArith Lia Znumtheory.
From S2P Require Import Prelude.

Module Rand.

Definition do_rand (ctx : Z) : Z * Z :=
  let hi := s32 (ctx / 127773) in
  let lo := s32 (ctx mod 127773) in
  let x := s32 (s32 (16807 * lo) - s32 (2836 * hi)) in
  let x := if x <? 0 then s32 (x + 0x7fffffff) else x in
  (s32 (x - 1), u32 x).

Definition rand_r (ctx : Z) : Z * Z :=
  let val := u32 (ctx mod 0x7ffffffe + 1) in
  let '(r, val) := do_rand val in
  (r, u32 (val - 1)).

(** The initial value of the static variable [next]. *)
Definition next0 : Z := 2.
Definition rand (next : Z) : Z * Z := do_rand next.
Definition srand (seed : Z) : Z := u32 (u32 seed mod 0x7ffffffe + 1).

(** The numbers [n] successive calls of [rand] return. *)
Fixpoint rands (n : nat) (next : Z) : list Z :=
  match n with
  | O => []
  | S n => let '(r, next) := rand next in r :: rands n next
  end.

(** The generator of Park and Miller. *)
Definition modulus : Z := 2 ^ 31 - 1.
Definition park_miller (x : Z) : Z := (7 ^ 5 * x) mod modulus.

Lemma multiplier_invertible x : 1 <= x < modulus -> park_miller x <> 0.
Proof.
  intros Hx E. apply Z.mod_divide in E; [|done]. apply Z.gauss in E; [|reflexivity].
  destruct E as [k E]. unfold modulus in *. nia.
Qed.

Lemma park_miller_range x : 1 <= x < modulus -> 1 <= park_miller x < modulus.
Proof.
  intros Hx. pose proof (multiplier_invertible x Hx). unfold park_miller in *.
  pose proof (Z.mod_pos_bound (7 ^ 5 * x) modulus). unfold modulus in *. lia.
Qed.

Lemma do_rand_eq x : 1 <= x < modulus -> do_rand x = (park_miller x - 1, park_miller x).
Proof.
  intros Hx. pose proof (park_miller_range x Hx) as R. unfold do_rand.
  pose proof (Z.div_mod x 127773). pose proof (Z.mod_pos_bound x 127773).
  assert (0 <= x / 127773 <= 16807) by (unfold modulus in *; lia).
  set (hi := x / 127773) in *. set (lo := x mod 127773) in *. cbv zeta.
  usimp.
  set (y := if 16807 * lo - 2836 * hi <? 0 then _ else _).
  assert (park_miller x = y) as E.
  { subst y. unfold park_miller, modulus in *. change (7 ^ 5) with 16807.
    destruct (Z.ltb_spec (16807 * lo - 2836 * hi) 0).
    - rewrite swrap_small by lia. symmetry. apply (Z.mod_unique_pos _ _ (hi - 1)); lia.
    - symmetry. apply (Z.mod_unique_pos _ _ hi); lia. }
  rewrite <- E. unfold modulus in *. usimp. done.
Qed.

(** on every state in [[1, 2^31 - 2]] the schedule of Schrage computes
    [7^5 * x mod (2^31 - 1)] without leaving 32 bits: the new state is again in
    that range, and the number returned is one less. *)
Theorem do_rand_park_miller x :
  1 <= x < modulus ->
  do_rand x = (park_miller x - 1, park_miller x) /\ 1 <= park_miller x < modulus.
Proof. intros Hx. split; [by apply do_rand_eq | by apply park_miller_range]. Qed.

Lemma srand_range seed : 1 <= srand seed < modulus.
Proof.
  unfold srand, modulus. pose proof (Z.mod_pos_bound (u32 seed) 0x7ffffffe).
  rewrite uwrap_small; lia.
Qed.

Lemma rands_range n x : 1 <= x < modulus -> Forall (fun r => 0 <= r <= 0x7ffffffd) (rands n x).
Proof.
  revert x. induction n as [|n IH]; intros x Hx; cbn [rands]; [constructor|].
  unfold rand. rewrite do_rand_eq by done. pose proof (park_miller_range x Hx).
  constructor; [unfold modulus in *; lia|]. by apply IH.
Qed.

(** after [srand] with any seed, and from the initial state, all numbers that
    [rand] returns lie in [[0, 0x7ffffffd]]; so do the numbers of [rand_r]. *)
Theorem rand_bounds n seed ctx :
  Forall (fun r => 0 <= r <= 0x7ffffffd) (rands n (srand seed)) /\
  Forall (fun r => 0 <= r <= 0x7ffffffd) (rands n next0) /\
  0 <= (rand_r ctx).1 <= 0x7ffffffd /\ 0 <= (rand_r ctx).2 <= 0x7ffffffd.
Proof.
  split; [apply rands_range, srand_range|]. split; [by apply rands_range|].
  unfold rand_r. pose proof (Z.mod_pos_bound ctx 0x7ffffffe).
  rewrite (uwrap_small 32 (ctx mod 0x7ffffffe + 1)) by lia.
  assert (1 <= ctx mod 0x7ffffffe + 1 < modulus) as Hc by (unfold modulus; lia).
  rewrite do_rand_eq by done. pose proof (park_miller_range _ Hc) as R.
  unfold modulus in R. cbn [fst snd]. rewrite uwrap_small by lia. lia.
Qed.

Lemma do_rand_park_miller_witness :
  do_rand 2 = (33613, 33614) /\ do_rand 2 = (park_miller 2 - 1, park_miller 2) /\ 1 <= park_miller 2 < modulus.
Proof. split; [reflexivity|]. apply (do_rand_park_miller 2). unfold modulus. lia. Defined.
End Rand.
