(* ===== verification/CString.v ===== *)
(** * CString: the memory and string functions of [libc/string]

    The functions work on the byte memory of [Mem32].  A loop that ends at a
    terminating zero takes a fuel argument; the theorems give the fuel that is
    enough.  [char] is signed, [size_t] and [wchar_t] are 32 bits wide. *)
From stdpp Require Import base gmap list.
From Stdlib Require Import ZArith Lia.
From S2P Require Import Prelude Mem32.

Module CString.

(** ** Memory blocks *)

(** [for (i = 0; i < size; i++) dst[i] = src[i]], from index [i] on. *)
Fixpoint copy_up (n : nat) (dst src : Z) (m : memory) : memory :=
  match n with
  | O => m
  | S n => copy_up n (dst + 1) (src + 1) (store8 m dst (load8 m src))
  end.
(** [for (i = size; i != 0; i--) dst[i-1] = src[i-1]]. *)
Fixpoint copy_down (n : nat) (dst src : Z) (m : memory) : memory :=
  match n with
  | O => m
  | S n => copy_down n dst src (store8 m (dst + Z.of_nat n) (load8 m (src + Z.of_nat n)))
  end.

Definition _naive_memcpy (dst src size : Z) (m : memory) : memory := copy_up (Z.to_nat size) dst src m.

Definition memmove (dst src size : Z) (m : memory) : memory :=
  if dst <? src then copy_up (Z.to_nat size) dst src m else copy_down (Z.to_nat size) dst src m.

Fixpoint memcmp_loop (n : nat) (a b : Z) (m : memory) : Z :=
  match n with
  | O => 0
  | S n =>
      if load8 m a <? load8 m b then -1
      else if load8 m b <? load8 m a then 1
      else memcmp_loop n (a + 1) (b + 1) m
  end.
Definition memcmp (a b size : Z) (m : memory) : Z := memcmp_loop (Z.to_nat size) a b m.

(** [memchr]: a pointer to the byte, or 0. *)
Fixpoint memchr_loop (n : nat) (p c : Z) (m : memory) : Z :=
  match n with
  | O => 0
  | S n => if negb (load8 m p =? u8 c) then memchr_loop n (p + 1) c m else p
  end.
Definition memchr (s c n : Z) (m : memory) : Z := memchr_loop (Z.to_nat n) s c m.

(** ** Strings *)

Fixpoint strlen_loop (fuel : nat) (str len : Z) (m : memory) : outcome Z :=
  match fuel with
  | O => Fault OutOfFuel
  | S fuel => if load8 m (str + len) =? 0 then Done len else strlen_loop fuel str (len + 1) m
  end.
Definition strlen (fuel : nat) (str : Z) (m : memory) : outcome Z := strlen_loop fuel str 0 m.

Fixpoint strcpy (fuel : nat) (dest src : Z) (m : memory) : outcome memory :=
  match fuel with
  | O => Fault OutOfFuel
  | S fuel =>
      let c := load8 m src in
      let m := store8 m dest c in
      if c =? 0 then Done m else strcpy fuel (dest + 1) (src + 1) m
  end.

Fixpoint strncpy_loop (n : nat) (dest src : Z) (m : memory) : memory :=
  match n with
  | O => m
  | S n =>
      let c := load8 m src in
      let m := store8 m dest c in
      if c =? 0 then m else strncpy_loop n (dest + 1) (src + 1) m
  end.
Definition strncpy (dest src n : Z) (m : memory) : memory := strncpy_loop (Z.to_nat n) dest src m.

Definition char_at (m : memory) (a : Z) : Z := s8 (load8 m a).

Fixpoint strcmp (fuel : nat) (str1 str2 : Z) (m : memory) : outcome Z :=
  match fuel with
  | O => Fault OutOfFuel
  | S fuel =>
      if negb (char_at m str1 =? char_at m str2)
      then Done (if char_at m str1 <? char_at m str2 then -1 else 1)
      else
        let str1 := str1 + 1 in
        let str2 := str2 + 1 in
        if negb (char_at m str1 =? 0) && negb (char_at m str2 =? 0) then strcmp fuel str1 str2 m
        else Done (char_at m str1 - char_at m str2)
  end.

Fixpoint strncmp_loop (fuel : nat) (str1 str2 i n : Z) (m : memory) : outcome Z :=
  match fuel with
  | O => Fault OutOfFuel
  | S fuel =>
      if negb (char_at m str1 =? char_at m str2)
      then Done (if char_at m str1 <? char_at m str2 then -1 else 1)
      else
        let str1 := str1 + 1 in
        let str2 := str2 + 1 in
        let i := u32 (i + 1) in
        if i =? n then Done 0
        else if negb (char_at m str1 =? 0) && negb (char_at m str2 =? 0)
        then strncmp_loop fuel str1 str2 i n m
        else Done (char_at m str1 - char_at m str2)
  end.
Definition strncmp (fuel : nat) (str1 str2 n : Z) (m : memory) : outcome Z :=
  strncmp_loop fuel str1 str2 0 n m.

Definition strcat (fuel : nat) (destination source : Z) (m : memory) : outcome memory :=
  dest_len ← strlen fuel destination m;
  src_len ← strlen fuel source m;
  let m := copy_up (Z.to_nat src_len) (destination + dest_len) source m in
  mret (store8 m (destination + dest_len + src_len) 0).

(** [strncat]: [n] is unsigned, the test [--n < 0] is never true. *)
Fixpoint strncat_loop (fuel : nat) (s1 s2 n : Z) (m : memory) : outcome memory :=
  match fuel with
  | O => Fault OutOfFuel
  | S fuel =>
      let c := load8 m s2 in
      let m := store8 m s1 c in
      if c =? 0 then Done m
      else
        let n := u32 (n - 1) in
        if n <? 0 then Done (store8 m s1 0) else strncat_loop fuel (s1 + 1) (s2 + 1) n m
  end.
Definition strncat (fuel : nat) (s1 s2 n : Z) (m : memory) : outcome memory :=
  len ← strlen fuel s1 m; strncat_loop fuel (s1 + len) s2 n m.

(** [strstr(s1, s2)] of the source: the first occurrence of [s1] in [s2]. *)
Fixpoint match_at (fuel : nat) (s1 s2 j i : Z) (m : memory) : outcome bool :=
  match fuel with
  | O => Fault OutOfFuel
  | S fuel =>
      if load8 m (s1 + (j - i)) =? 0 then Done true
      else if load8 m (s2 + j) =? load8 m (s1 + (j - i)) then match_at fuel s1 s2 (j + 1) i m
      else Done false
  end.
Fixpoint strstr_loop (fuel : nat) (s1 s2 i : Z) (m : memory) : outcome Z :=
  match fuel with
  | O => Fault OutOfFuel
  | S fuel' =>
      if load8 m (s2 + i) =? 0 then Done 0
      else
        flag ← (if load8 m (s2 + i) =? load8 m (s1 + 0) then match_at fuel s1 s2 i i m else Done false);
        if (flag : bool) then Done (s2 + i) else strstr_loop fuel' s1 s2 (i + 1) m
  end.
Definition strstr (fuel : nat) (s1 s2 : Z) (m : memory) : outcome Z :=
  if (s2 =? 0) || (s1 =? 0) then Done 0 else strstr_loop fuel s1 s2 0 m.

(** ** Wide characters

    Pointers to [wchar_t] are byte addresses; [d - s] counts elements. *)
Fixpoint wmemcpy_loop (n : nat) (d s : Z) (m : memory) : memory :=
  match n with
  | O => m
  | S n => wmemcpy_loop n (d + 4) (s + 4) (store32 m d (load32 m s))
  end.
Definition wmemcpy (d s n : Z) (m : memory) : memory := wmemcpy_loop (Z.to_nat n) d s m.

Fixpoint wcopy_down (n : nat) (d s : Z) (m : memory) : memory :=
  match n with
  | O => m
  | S n => wcopy_down n d s (store32 m (d + 4 * Z.of_nat n) (load32 m (s + 4 * Z.of_nat n)))
  end.
Definition wmemmove (d s n : Z) (m : memory) : memory :=
  if u32 (Z.quot (d - s) 4) <? n then wcopy_down (Z.to_nat n) d s m else wmemcpy d s n m.

Fixpoint wmemset_loop (n : nat) (d c : Z) (m : memory) : memory :=
  match n with
  | O => m
  | S n => wmemset_loop n (d + 4) c (store32 m d c)
  end.
Definition wmemset (d c n : Z) (m : memory) : memory := wmemset_loop (Z.to_nat n) d c m.

(** [wchar_t] is [unsigned int]: the difference is taken modulo [2^32] and returned
    as an [int]. *)
Fixpoint wmemcmp_loop (n : nat) (l r : Z) (m : memory) : Z :=
  match n with
  | O => 0
  | S n' =>
      if load32 m l =? load32 m r then wmemcmp_loop n' (l + 4) (r + 4) m
      else s32 (u32 (load32 m l - load32 m r))
  end.
Definition wmemcmp (l r n : Z) (m : memory) : Z := wmemcmp_loop (Z.to_nat n) l r m.

Fixpoint wmemchr_loop (n : nat) (s c : Z) (m : memory) : Z :=
  match n with
  | O => 0
  | S n => if negb (load32 m s =? u32 c) then wmemchr_loop n (s + 4) c m else s
  end.
Definition wmemchr (s c n : Z) (m : memory) : Z := wmemchr_loop (Z.to_nat n) s c m.

(** ** Strings in memory *)

(** The bytes [l] and a terminating zero lie at [a]. *)
Fixpoint cstring (m : memory) (a : Z) (l : list Z) : Prop :=
  match l with
  | [] => load8 m a = 0
  | c :: l' => load8 m a = c /\ c <> 0 /\ cstring m (a + 1) l'
  end.

(** The lexicographic order of two strings of signed characters, as the sign of
    [strcmp]. *)
Fixpoint str_order (l1 l2 : list Z) : comparison :=
  match l1, l2 with
  | [], [] => Eq
  | [], c :: _ => if s8 c <? 0 then Gt else Lt
  | c :: _, [] => if s8 c <? 0 then Lt else Gt
  | c1 :: l1, c2 :: l2 => if s8 c1 =? s8 c2 then str_order l1 l2 else if s8 c1 <? s8 c2 then Lt else Gt
  end.

Lemma copy_up_spec n d s m x :
  d <= s \/ s + Z.of_nat n <= d ->
  load8 (copy_up n d s m) x =
    if decide (d <= x < d + Z.of_nat n) then load8 m (s + (x - d)) else load8 m x.
Proof.
  revert d s m. induction n as [|n IH]; intros d s m Hd; cbn [copy_up].
  - rewrite decide_False by lia. done.
  - rewrite IH by lia. destruct (decide (x = d)) as [->|].
    + rewrite decide_False by lia. rewrite decide_True by lia. rewrite load8_store8_eq.
      rewrite Z.sub_diag, Z.add_0_r. pose proof (load8_range m s). by rewrite uwrap_small.
    + case_decide; case_decide; try lia; rewrite load8_store8_ne by lia; f_equal; lia.
Qed.

Lemma copy_down_spec n d s m x :
  s <= d -> load8 (copy_down n d s m) x =
    if decide (d <= x < d + Z.of_nat n) then load8 m (s + (x - d)) else load8 m x.
Proof.
  revert m. induction n as [|n IH]; intros m Hd; cbn [copy_down].
  - rewrite decide_False by lia. done.
  - rewrite IH by lia. destruct (decide (x = d + Z.of_nat n)) as [->|].
    + rewrite decide_False by lia. rewrite decide_True by lia. rewrite load8_store8_eq.
      pose proof (load8_range m (s + Z.of_nat n)). rewrite uwrap_small by lia. f_equal. lia.
    + case_decide; case_decide; try lia; rewrite load8_store8_ne by lia; f_equal; lia.
Qed.

(** [memmove] copies [size] bytes whatever the overlap of the two blocks: the
    destination holds the bytes the source had, and nothing else changes. *)
Theorem memmove_spec dst src size m x :
  0 <= size ->
  load8 (memmove dst src size m) x =
    if decide (dst <= x < dst + size) then load8 m (src + (x - dst)) else load8 m x.
Proof.
  intros Hs. unfold memmove. destruct (Z.ltb_spec dst src).
  - rewrite copy_up_spec by lia. by rewrite Z2Nat.id.
  - rewrite copy_down_spec by lia. by rewrite Z2Nat.id.
Qed.

Lemma load8_store32_cell m d v i :
  0 <= i < 4 -> load8 (store32 m d v) (d + i) = u8 (v / 2 ^ (8 * i)).
Proof.
  intros Hi. unfold store32.
  assert (i = 0 \/ i = 1 \/ i = 2 \/ i = 3) as [->|[->|[->| ->]]] by lia;
    rewrite ?Z.add_0_r; repeat (rewrite load8_store8_ne by lia); rewrite load8_store8_eq; try done.
  by rewrite Z.div_1_r.
Qed.

Lemma load32_range m a : 0 <= load32 m a < 2 ^ 32.
Proof.
  unfold load32. pose proof (load8_range m a). pose proof (load8_range m (a + 1)).
  pose proof (load8_range m (a + 2)). pose proof (load8_range m (a + 3)). lia.
Qed.

Lemma wmemcpy_spec n d s m x :
  d <= s \/ s + 4 * Z.of_nat n <= d -> (d - s) mod 4 = 0 -> 0 <= x ->
  load32 (wmemcpy_loop n d s m) (d + 4 * x) =
    if decide (x < Z.of_nat n) then load32 m (s + 4 * x) else load32 m (d + 4 * x).
Proof.
  revert d s m x. induction n as [|n IH]; intros d s m x Hd Hm Hx; cbn [wmemcpy_loop].
  - rewrite decide_False by lia. done.
  - destruct (decide (x = 0)) as [->|].
    + rewrite decide_True by lia. rewrite Z.mul_0_r, !Z.add_0_r.
      assert (forall k d' m', d + 4 <= d' -> load32 (wmemcpy_loop k d' (s + (d' - d)) m') d = load32 m' d) as F.
      { induction k as [|k IHk]; intros d' m' Hd'; cbn [wmemcpy_loop]; [done|].
        replace (s + (d' - d) + 4) with (s + (d' + 4 - d)) by lia. rewrite IHk by lia.
        by rewrite load32_store32_ne by lia. }
      specialize (F n (d + 4) (store32 m d (load32 m s))). replace (s + (d + 4 - d)) with (s + 4) in F by lia.
      rewrite F by lia. apply load32_store32_eq, load32_range.
    + replace (d + 4 * x) with (d + 4 + 4 * (x - 1)) by lia.
      assert ((d + 4 - (s + 4)) mod 4 = 0) by (replace (d + 4 - (s + 4)) with (d - s) by lia; done).
      rewrite IH by lia. apply Z.mod_divide in Hm as [k Hk]; [|lia].
      case_decide; case_decide; try lia; rewrite load32_store32_ne by lia; f_equal; lia.
Qed.

Lemma wcopy_down_spec n d s m x :
  s <= d -> (d - s) mod 4 = 0 -> 0 <= x ->
  load32 (wcopy_down n d s m) (d + 4 * x) =
    if decide (x < Z.of_nat n) then load32 m (s + 4 * x) else load32 m (d + 4 * x).
Proof.
  revert m. induction n as [|n IH]; intros m Hd Hm Hx; cbn [wcopy_down].
  - rewrite decide_False by lia. done.
  - rewrite IH by lia. apply Z.mod_divide in Hm as [k Hk]; [|lia].
    destruct (decide (x = Z.of_nat n)) as [->|].
    + rewrite decide_False by lia. rewrite decide_True by lia. apply load32_store32_eq, load32_range.
    + case_decide; case_decide; try lia; by rewrite load32_store32_ne by lia.
Qed.

(** [wmemmove] copies [n] wide characters whatever the overlap, between
    pointers of the same alignment. *)
Theorem wmemmove_spec d s n m x :
  0 <= d < 2 ^ 32 -> 0 <= s < 2 ^ 32 -> 0 <= n < 2 ^ 30 -> s + 4 * n <= 2 ^ 32 -> (d - s) mod 4 = 0 -> 0 <= x ->
  load32 (wmemmove d s n m) (d + 4 * x) =
    if decide (x < n) then load32 m (s + 4 * x) else load32 m (d + 4 * x).
Proof.
  intros Hd Hs Hn He Hm Hx. unfold wmemmove, wmemcpy.
  pose proof Hm as [k Hk]%Z.mod_divide; [|lia].
  replace (Z.quot (d - s) 4) with k by (rewrite Hk, Z.quot_mul; lia).
  destruct (Z_lt_le_dec k 0).
  - assert (u32 k = k + 2 ^ 32) as Eu.
    { unfold uwrap. rewrite <- (Z.mod_add k 1) by lia. apply Z.mod_small. lia. }
    rewrite Eu, (proj2 (Z.ltb_ge _ _)) by lia. rewrite wmemcpy_spec by lia. by rewrite Z2Nat.id by lia.
  - rewrite (uwrap_small 32 k) by lia. destruct (Z.ltb_spec k n).
    + rewrite wcopy_down_spec by lia. by rewrite Z2Nat.id by lia.
    + rewrite wmemcpy_spec by lia. by rewrite Z2Nat.id by lia.
Qed.

Lemma memchr_loop_spec n p c m :
  0 < p ->
  (memchr_loop n p c m = 0 /\ forall i, 0 <= i < Z.of_nat n -> load8 m (p + i) <> u8 c) \/
  exists i, 0 <= i < Z.of_nat n /\ memchr_loop n p c m = p + i /\ load8 m (p + i) = u8 c /\
    forall j, 0 <= j < i -> load8 m (p + j) <> u8 c.
Proof.
  revert p. induction n as [|n IH]; intros p Hp; cbn [memchr_loop]; [left; split; [done|lia]|].
  destruct (Z.eqb_spec (load8 m p) (u8 c)) as [E|E]; cbn [negb].
  - right. exists 0. rewrite Z.add_0_r. split_and!; try done; lia.
  - destruct (IH (p + 1)) as [[-> Hno]|(i & Hi & -> & Hat & Hno)]; [lia| |].
    + left. split; [done|]. intros i Hi. destruct (decide (i = 0)) as [->|]; [by rewrite Z.add_0_r|].
      replace (p + i) with (p + 1 + (i - 1)) by lia. apply Hno. lia.
    + right. exists (i + 1). replace (p + (i + 1)) with (p + 1 + i) by lia. split_and!; try done; try lia.
      intros j Hj. destruct (decide (j = 0)) as [->|]; [by rewrite Z.add_0_r|].
      replace (p + j) with (p + 1 + (j - 1)) by lia. apply Hno. lia.
Qed.

(** [memchr] returns a pointer to the first of the [n] bytes equal to [c], and 0
    when there is none. *)
Theorem memchr_spec s c n m :
  0 < s -> 0 <= n ->
  (memchr s c n m = 0 /\ forall i, 0 <= i < n -> load8 m (s + i) <> u8 c) \/
  exists i, 0 <= i < n /\ memchr s c n m = s + i /\ load8 m (s + i) = u8 c /\
    forall j, 0 <= j < i -> load8 m (s + j) <> u8 c.
Proof.
  intros Hs Hn. unfold memchr. destruct (memchr_loop_spec (Z.to_nat n) s c m Hs) as [[-> H]|(i & H & ?)].
  - left. rewrite Z2Nat.id in H by lia. done.
  - right. exists i. rewrite Z2Nat.id in H by lia. done.
Qed.

Lemma strlen_loop_spec fuel str len l m :
  cstring m (str + len) l -> (length l < fuel)%nat ->
  strlen_loop fuel str len m = Done (len + Z.of_nat (length l)).
Proof.
  revert len l. induction fuel as [|fuel IH]; intros len [|c l] Hs Hf; simpl in Hf; try lia; cbn [strlen_loop].
  - simpl in Hs. rewrite Hs. simpl. by rewrite Z.add_0_r.
  - destruct Hs as (-> & Hc & Hs). rewrite (proj2 (Z.eqb_neq c 0)) by done.
    rewrite (IH (len + 1) l); [f_equal; simpl; lia|by rewrite Z.add_assoc|lia].
Qed.

Lemma cstring_agree m m' a l :
  agree_on m m' a (a + Z.of_nat (length l) + 1) -> cstring m a l -> cstring m' a l.
Proof.
  revert a. induction l as [|c l IH]; intros a Ag; simpl.
  - by rewrite Ag by (simpl; lia).
  - intros (H1 & H2 & H3). rewrite Ag by (simpl; lia). split_and!; try done. apply IH; [|done].
    eapply agree_on_sub; [done|lia|simpl; lia].
Qed.

Lemma cstring_bytes m a l : cstring m a l -> Forall (fun c => 0 < c < 256) l.
Proof.
  revert a. induction l as [|c l IH]; intros a; simpl; [constructor|].
  intros (E & Hc & Hs). pose proof (load8_range m a). constructor; [lia|by eapply IH].
Qed.

Lemma strcpy_ok fuel dest src l m :
  cstring m src l -> (length l < fuel)%nat ->
  dest + Z.of_nat (length l) + 1 <= src \/ src + Z.of_nat (length l) + 1 <= dest ->
  exists m', strcpy fuel dest src m = Done m' /\ cstring m' dest l /\
    agree_off m m' dest (dest + Z.of_nat (length l) + 1).
Proof.
  revert dest src m l. induction fuel as [|fuel IH]; intros dest src m [|c l] Hs Hf Ho;
    simpl in Hf; try lia; cbn [strcpy]; simpl in Hs.
  - rewrite Hs. simpl. eexists. split; [reflexivity|]. split; [by rewrite load8_store8_eq|].
    intros x Hx. simpl in Hx. rewrite load8_store8_ne by lia. done.
  - destruct Hs as (E & Hc & Hs). rewrite E, (proj2 (Z.eqb_neq c 0)) by done. cbn [length] in *.
    destruct (IH (dest + 1) (src + 1) (store8 m dest c) l) as (m' & Er & Hd & Ag); [|lia|lia|].
    { eapply cstring_agree; [|exact Hs]. intros x Hx. apply load8_store8_ne. lia. }
    exists m'. split; [done|]. split.
    + simpl. split_and!; try done. rewrite Ag by lia. rewrite load8_store8_eq. apply uwrap_small.
      rewrite <- E. apply load8_range.
    + intros x Hx. rewrite Ag by lia. apply load8_store8_ne. lia.
Qed.

(** [strlen] and [strcpy] end within the length of the string: [strlen] counts
    its characters, [strcpy] copies them with the terminating zero and writes
    nothing else, when the blocks do not overlap. *)
Theorem strcpy_spec fuel dest src l m :
  cstring m src l -> (length l < fuel)%nat ->
  dest + Z.of_nat (length l) + 1 <= src \/ src + Z.of_nat (length l) + 1 <= dest ->
  strlen fuel src m = Done (Z.of_nat (length l)) /\
  exists m', strcpy fuel dest src m = Done m' /\ cstring m' dest l /\ cstring m' src l /\
    agree_off m m' dest (dest + Z.of_nat (length l) + 1).
Proof.
  intros Hs Hf Ho. split.
  - unfold strlen. by rewrite (strlen_loop_spec fuel src 0 l) by (rewrite ?Z.add_0_r; done).
  - destruct (strcpy_ok fuel dest src l m Hs Hf Ho) as (m' & E & Hd & Ag). exists m'. split_and!; try done.
    eapply cstring_agree; [|exact Hs]. eapply agree_off_on; [exact Ag|lia].
Qed.

Lemma s8_zero c : 0 <= c < 256 -> s8 c = 0 -> c = 0.
Proof. unfold swrap. intros Hc. Z.div_mod_to_equations. lia. Qed.

Lemma cstring_char m a l : cstring m a l ->
  char_at m a = match l with [] => 0 | c :: _ => s8 c end /\
  (char_at m a =? 0) = match l with [] => true | _ :: _ => false end.
Proof.
  intros Hs. destruct l as [|c l]; simpl in Hs; unfold char_at.
  - by rewrite Hs.
  - destruct Hs as (<- & Hc & _). split; [done|]. apply Z.eqb_neq. intros E. apply Hc.
    by apply s8_zero in E; [|apply load8_range].
Qed.

Lemma strcmp_loop_spec fuel str1 str2 l1 l2 m :
  cstring m str1 l1 -> cstring m str2 l2 -> l1 <> [] \/ l2 <> [] -> (length l1 + 1 < fuel)%nat ->
  exists r, strcmp fuel str1 str2 m = Done r /\ (r ?= 0) = str_order l1 l2.
Proof.
  revert str1 str2 l1 l2. induction fuel as [|fuel IH]; intros str1 str2 l1 l2 H1 H2 Hne Hf; [lia|].
  destruct (cstring_char _ _ _ H1) as [E1 Z1], (cstring_char _ _ _ H2) as [E2 Z2].
  cbn [strcmp]. rewrite E1, E2.
  assert (forall x y, x <> y -> exists r, Done (if x <? y then -1 else 1) = Done r /\
            (r ?= 0) = if x <? y then Lt else Gt) as Diff.
  { intros x y _. exists (if x <? y then -1 else 1). split; [done|]. by destruct (x <? y). }
  destruct l1 as [|c1 l1], l2 as [|c2 l2]; cbn [str_order].
  - by destruct Hne.
  - rewrite Z.eqb_sym, <- E2, Z2. cbn [negb]. rewrite E2. destruct (Diff 0 (s8 c2)) as (r & Er & Eo).
    { rewrite <- E2. intros E. rewrite <- E in Z2. done. }
    exists r. split; [done|]. rewrite Eo. apply Z.eqb_neq in Z2. rewrite E2 in Z2.
    destruct (Z.ltb_spec 0 (s8 c2)), (Z.ltb_spec (s8 c2) 0); (done || lia).
  - rewrite <- E1, Z1. cbn [negb]. rewrite E1. exists (if s8 c1 <? 0 then -1 else 1). split; [done|].
    by destruct (s8 c1 <? 0).
  - destruct (Z.eqb_spec (s8 c1) (s8 c2)) as [Ec|Ec]; cbn [negb].
    2: { destruct (Diff (s8 c1) (s8 c2) Ec) as (r & Er & Eo). by exists r. }
    simpl in H1, H2. destruct H1 as (_ & _ & H1), H2 as (_ & _ & H2).
    destruct (cstring_char _ _ _ H1) as [F1 Y1], (cstring_char _ _ _ H2) as [F2 Y2]. rewrite Y1, Y2.
    destruct l1 as [|d1 l1], l2 as [|d2 l2]; cbn [negb andb].
    + exists (char_at m (str1 + 1) - char_at m (str2 + 1)). rewrite F1, F2. done.
    + eexists. split; [reflexivity|]. rewrite F1, F2. cbn [str_order]. apply Z.eqb_neq in Y2. rewrite F2 in Y2.
      destruct (Z.ltb_spec (s8 d2) 0); [apply Z.compare_gt_iff; lia|apply Z.compare_lt_iff; lia].
    + eexists. split; [reflexivity|]. rewrite F1, F2. cbn [str_order]. apply Z.eqb_neq in Y1. rewrite F1 in Y1.
      destruct (Z.ltb_spec (s8 d1) 0); [apply Z.compare_lt_iff; lia|apply Z.compare_gt_iff; lia].
    + apply IH; try done; [by left|simpl in *; lia].
Qed.

(** [strcmp] of two strings, not both empty, ends and its sign is their
    lexicographic order as signed characters. *)
Theorem strcmp_spec fuel str1 str2 l1 l2 m :
  cstring m str1 l1 -> cstring m str2 l2 -> l1 <> [] \/ l2 <> [] -> (length l1 + 1 < fuel)%nat ->
  exists r, strcmp fuel str1 str2 m = Done r /\ (r ?= 0) = str_order l1 l2.
Proof. apply strcmp_loop_spec. Qed.

(** on two empty strings [strcmp] reads the bytes behind the terminating zeros:
    its result is their difference, not 0. *)
Theorem strcmp_empty_overrun :
  exists m, cstring m 100 [] /\ cstring m 200 [] /\ strcmp 3 100 200 m = Done 1.
Proof.
  exists (store8 ∅ 101 1). split_and!; vm_compute; done.
Qed.

Lemma strncat_loop_ignores_n fuel s1 s2 n n' m :
  strncat_loop fuel s1 s2 n m = strncat_loop fuel s1 s2 n' m.
Proof.
  revert s1 s2 n n' m. induction fuel as [|fuel IH]; intros; cbn [strncat_loop]; [done|].
  destruct (_ =? 0); [done|].
  rewrite !(proj2 (Z.ltb_ge (u32 _) 0)) by (by apply uwrap_range). apply IH.
Qed.

(** [strncat] does not honour its bound: [n] is unsigned, so that the test
    [--n < 0] never holds and the result is the same for every [n]. *)
Theorem strncat_ignores_n fuel s1 s2 n n' m : strncat fuel s1 s2 n m = strncat fuel s1 s2 n' m.
Proof.
  unfold strncat. destruct (strlen fuel s1 m) as [len|]; [|done]. apply strncat_loop_ignores_n.
Qed.

(** ** Witnesses *)

(** "ab" at 100, "abc" at 200. *)
Definition sample_mem : memory :=
  copy_up 0 0 0 (<[100 := 97]> (<[101 := 98]> (<[200 := 97]> (<[201 := 98]> (<[202 := 99]> ∅))))).

Lemma memmove_spec_witness :
  load8 (memmove 101 100 2 sample_mem) 102 =
    if decide (101 <= 102 < 101 + 2) then load8 sample_mem (100 + (102 - 101)) else load8 sample_mem 102.
Proof. apply (memmove_spec 101 100 2 sample_mem 102). lia. Defined.

Lemma wmemmove_spec_witness :
  load32 (wmemmove 104 100 2 sample_mem) (104 + 4 * 1) =
    if decide (1 < 2) then load32 sample_mem (100 + 4 * 1) else load32 sample_mem (104 + 4 * 1).
Proof. apply (wmemmove_spec 104 100 2 sample_mem 1); (lia || reflexivity). Defined.

Lemma memchr_spec_witness :
  (memchr 100 98 3 sample_mem = 0 /\ forall i, 0 <= i < 3 -> load8 sample_mem (100 + i) <> u8 98) \/
  exists i, 0 <= i < 3 /\ memchr 100 98 3 sample_mem = 100 + i /\ load8 sample_mem (100 + i) = u8 98 /\
    forall j, 0 <= j < i -> load8 sample_mem (100 + j) <> u8 98.
Proof. apply (memchr_spec 100 98 3 sample_mem); lia. Defined.

Lemma strcpy_spec_witness :
  strlen 5 200 sample_mem = Done 3 /\
  exists m', strcpy 5 300 200 sample_mem = Done m' /\ cstring m' 300 [97; 98; 99] /\ cstring m' 200 [97; 98; 99] /\
    agree_off sample_mem m' 300 304.
Proof.
  apply (strcpy_spec 5 300 200 [97; 98; 99] sample_mem); [|simpl; lia|simpl; lia].
  vm_compute. split_and!; done.
Defined.

Lemma strcmp_spec_witness :
  exists r, strcmp 9 100 200 sample_mem = Done r /\ (r ?= 0) = Lt.
Proof.
  apply (strcmp_spec 9 100 200 [97; 98] [97; 98; 99] sample_mem);
    [vm_compute; split_and!; done|vm_compute; split_and!; done|by left|simpl; lia].
Defined.
End CString.
