(* ===== verification/Strto.v ===== *)
(** * Strto: numbers and strings

    [libc/string/strtod.c], [libc/atoi.cpp], [libc/itoa.cpp] and [libc/ctype.h].  A C
    string is the list of its characters before the terminating zero; the
    pointer left in [endptr] is the list of the characters that remain.
    [long long] arithmetic wraps modulo [2^64]; [long double] is the 80-bit format
    of the x87, [spec_float] with 64 bits of precision. *)
From stdpp Require Import base list.
From Stdlib Require Import ZArith Lia SpecFloat.
From S2P Require Import Prelude.

Module Strto.

(** ** [ctype.h]: the argument is the unsigned 32-bit [char32_t] *)

Definition _ASCIIRANGE (c start len : Z) : bool := u32 (c - start) <? len.
Definition isupper (c : Z) : bool := _ASCIIRANGE c 0x41 26.
Definition isdigit (c : Z) : bool := _ASCIIRANGE c 0x30 10.
Definition isspace (c : Z) : bool := _ASCIIRANGE c 0x9 5 || (u32 c =? 0x20).
Definition tolower (c : Z) : Z := if isupper c then u32 (c + 0x20) else u32 c.

(** [*str]: the first character, or the terminating zero. *)
Definition cur (str : list Z) : Z := match str with [] => 0 | c :: _ => c end.

(** ** [strtoll] and [wcstoll] *)

(** "0123456789abcdefghijklmnopqrstuvwxyz" with its terminating zero. *)
Definition alphabet : list Z :=
  [48; 49; 50; 51; 52; 53; 54; 55; 56; 57; 97; 98; 99; 100; 101; 102; 103; 104; 105; 106; 107; 108; 109;
   110; 111; 112; 113; 114; 115; 116; 117; 118; 119; 120; 121; 122; 0].
(** The bytes of the wide literal: four per character. *)
Definition wide_alphabet : list Z := alphabet ≫= fun c => [c; 0; 0; 0].

(** [memchr(l, c, n) - l]. *)
Fixpoint memchr (l : list Z) (c : Z) (n : nat) : option Z :=
  match n, l with
  | S n, x :: l => if x =? u8 c then Some 0 else i ← memchr l c n; Some (i + 1)
  | _, _ => None
  end.

Fixpoint skip_spaces (str : list Z) : list Z :=
  match str with
  | c :: str' => if isspace c then skip_spaces str' else str
  | [] => []
  end.

Definition parse_sign (str : list Z) : bool * list Z :=
  match str with
  | c :: str' => if c =? 45 then (true, str') else if c =? 43 then (false, str') else (false, str)
  | [] => (false, [])
  end.

(** The prefixes "0x" and "0". *)
Definition parse_prefix (base : Z) (str : list Z) : Z * list Z :=
  let '(base, str) :=
    if (base =? 0) || (base =? 16) then
      match str with
      | c0 :: c1 :: str' => if (c0 =? 48) && (c1 =? 120) then (16, str') else (base, str)
      | _ => (base, str)
      end
    else (base, str) in
  let base := if base =? 0 then (if cur str =? 48 then 8 else base) else base in
  (if base =? 0 then 10 else base, str).

(** The digits; [index] is [idx - alphabet] for the character type at hand. *)
Fixpoint parse_digits (index : Z -> Z -> option Z) (base : Z) (str : list Z) (val : Z) : Z * list Z :=
  match str with
  | [] => (val, [])
  | c :: str' =>
      match index base c with
      | None => (val, str)
      | Some i => parse_digits index base str' (s64 (s64 (val * base) + i))
      end
  end.

Definition index_narrow (base c : Z) : option Z := memchr alphabet (tolower c) (Z.to_nat base).
(** In [wcstoll] the byte-wise [memchr] searches the first [base] bytes of the wide
    literal. *)
Definition index_wide (base c : Z) : option Z :=
  i ← memchr wide_alphabet (tolower c) (Z.to_nat base); Some (Z.quot i 4).

Definition strtoll_gen (index : Z -> Z -> option Z) (str : list Z) (base : Z) : Z * option (list Z) :=
  if negb (base =? 0) && ((base <? 2) || (36 <? base)) then (0, None)
  else
    let str := skip_spaces str in
    let '(neg, str) := parse_sign str in
    let '(base, str) := parse_prefix base str in
    let '(val, str) := parse_digits index base str 0 in
    ((if (neg : bool) then s64 (- val) else val), Some str).

Definition strtoll : list Z -> Z -> Z * option (list Z) := strtoll_gen index_narrow.
Definition wcstoll : list Z -> Z -> Z * option (list Z) := strtoll_gen index_wide.

(** The conversions of the result. *)
Definition with_result (f : Z -> Z) (r : Z * option (list Z)) : Z * option (list Z) := (f r.1, r.2).
Definition strtoull (str : list Z) (base : Z) := with_result (uwrap 64) (strtoll str base).
Definition strtol (str : list Z) (base : Z) := with_result (swrap 32) (strtoll str base).
Definition wcstoull (str : list Z) (base : Z) := with_result (uwrap 64) (wcstoll str base).
Definition wcstol (str : list Z) (base : Z) := with_result (swrap 32) (wcstoll str base).
Definition wcstoul (str : list Z) (base : Z) := with_result (uwrap 32) (wcstoll str base).
Definition strtoul (str : list Z) (base : Z) := with_result (uwrap 32) (strtoll str base).

(** ** [atoi] and [itoa] *)

Fixpoint atoi_loop (str : list Z) (value : Z) : Z :=
  match str with
  | c :: str' => if isdigit c then atoi_loop str' (s64 (s64 (value * 10) + (c - 48))) else value
  | [] => value
  end.
Definition atoi (str : list Z) : Z :=
  let '(sign, str) :=
    match str with
    | c :: str' => if c =? 45 then (-1, str') else if c =? 43 then (1, str') else (1, str)
    | [] => (1, [])
    end in
  s64 (atoi_loop str 0 * sign).

(** [while (v || tp == tmp)]: the digits, least significant first, in [tmp]. *)
Definition digit_char (i : Z) : Z := if i <? 10 then i + 48 else i + 97 - 10.
Fixpoint itoa_loop (fuel : nat) (v radix : Z) (tmp : list Z) : outcome (list Z) :=
  match fuel with
  | O => Fault OutOfFuel
  | S fuel =>
      if negb (v =? 0) || bool_decide (tmp = [])
      then itoa_loop fuel (v / radix) radix (digit_char (v mod radix) :: tmp)
      else Done tmp
  end.
(** The characters written to [sp]; the pushed list is already reversed. *)
Definition itoa (value radix : Z) : outcome (list Z) :=
  let sign := (radix =? 10) && (value <? 0) in
  let v := if (sign : bool) then u64 (s64 (- value)) else u64 value in
  tmp ← itoa_loop 66 v radix [];
  mret (if (sign : bool) then 45 :: tmp else tmp).

(** ** [strtold] *)

Abbreviation long_double := spec_float.
Definition ld_prec : Z := 64.
Definition ld_emax : Z := 16384.
Definition ld_of_Z (n : Z) : long_double := binary_normalize ld_prec ld_emax n 0 false.
Definition ld_add : long_double -> long_double -> long_double := SFadd ld_prec ld_emax.
Definition ld_sub : long_double -> long_double -> long_double := SFsub ld_prec ld_emax.
Definition ld_mul : long_double -> long_double -> long_double := SFmul ld_prec ld_emax.
Definition ld_div : long_double -> long_double -> long_double := SFdiv ld_prec ld_emax.
Definition ld_eqb : long_double -> long_double -> bool := SFeqb.
Definition ld_zero : long_double := S754_zero false.

(** The local variables of the scanning loop. *)
Record scan := mkScan {
  result : long_double;
  signedResult : Z;
  signedExponent : Z;
  decimals : Z;
  isExponent : bool;
  hasExponent : bool;
  hasResult : bool;
  exponent : long_double;
}.
Definition scan0 : scan := mkScan ld_zero 0 0 0 false false false ld_zero.

(** One iteration of [for (; '\0' != (c = *str); ++str)]; [None] is [break]. *)
Definition scan_digit (s : scan) (digit : Z) : scan :=
  if isExponent s then
    mkScan (result s) (signedResult s) (signedExponent s) (decimals s) (isExponent s) true (hasResult s)
      (ld_add (ld_mul (ld_of_Z 10) (exponent s)) (ld_of_Z digit))
  else if decimals s =? 0 then
    mkScan (ld_add (ld_mul (ld_of_Z 10) (result s)) (ld_of_Z digit)) (signedResult s) (signedExponent s)
      (decimals s) (isExponent s) (hasExponent s) true (exponent s)
  else
    mkScan (ld_add (result s) (ld_div (ld_of_Z digit) (ld_of_Z (decimals s)))) (signedResult s)
      (signedExponent s) (s32 (decimals s * 10)) (isExponent s) (hasExponent s) (hasResult s) (exponent s).

Definition scan_char (s : scan) (c : Z) : option scan :=
  if (48 <=? c) && (c <=? 57) then Some (scan_digit s (c - 48))
  else if c =? 46 then
    if negb (hasResult s) then None else if isExponent s then None
    else if negb (decimals s =? 0) then None
    else Some (mkScan (result s) (signedResult s) (signedExponent s) 10 (isExponent s) (hasExponent s)
                 (hasResult s) (exponent s))
  else if (c =? 45) || (c =? 43) then
    if isExponent s then
      if negb (signedExponent s =? 0) || negb (ld_eqb (exponent s) ld_zero) then None
      else Some (mkScan (result s) (signedResult s) c (decimals s) (isExponent s) (hasExponent s)
                   (hasResult s) (exponent s))
    else
      if negb (signedResult s =? 0) || negb (ld_eqb (result s) ld_zero) then None
      else Some (mkScan (result s) c (signedExponent s) (decimals s) (isExponent s) (hasExponent s)
                   (hasResult s) (exponent s))
  else if c =? 69 then
    if negb (hasResult s) then None else if isExponent s then None
    else Some (mkScan (result s) (signedResult s) (signedExponent s) (decimals s) true (hasExponent s)
                 (hasResult s) (exponent s))
  else None.

(** The loop: the state, the characters read (last first) and those that remain. *)
Fixpoint scan_loop (s : scan) (before str : list Z) : scan * list Z * list Z :=
  match str with
  | [] => (s, before, [])
  | c :: str' =>
      match scan_char s c with
      | None => (s, before, str)
      | Some s' => scan_loop s' (c :: before) str'
      end
  end.

(** [while (cur str <> 'E') --str]. *)
Fixpoint back_to_E (before str : list Z) : list Z * list Z :=
  if cur str =? 69 then (before, str)
  else match before with
       | [] => ([], str)
       | c :: before' => back_to_E before' (c :: str)
       end.

(** [for (; exponent != 0; --exponent)]. *)
Fixpoint scale (fuel : nat) (negative : bool) (exponent result : long_double) : outcome long_double :=
  match fuel with
  | O => Fault OutOfFuel
  | S fuel =>
      if ld_eqb exponent ld_zero then Done result
      else scale fuel negative (ld_sub exponent (ld_of_Z 1))
             (if negative then ld_div result (ld_of_Z 10) else ld_mul result (ld_of_Z 10))
  end.

Definition strtold (fuel : nat) (str : list Z) : outcome (long_double * list Z) :=
  let '(s, before, str) := scan_loop scan0 [] str in
  let '(before, str) := if isExponent s && negb (hasExponent s) then back_to_E before str else (before, str) in
  let str := if negb (hasResult s) && negb (signedResult s =? 0)
             then match before with c :: _ => c :: str | [] => str end else str in
  r ← scale fuel (signedExponent s =? 45) (exponent s) (result s);
  mret (if (signedResult s =? 45) && negb (ld_eqb r ld_zero) then SFopp r else r, str).

(** The body of [wcstold] is the same text over [wchar_t]. *)
Definition wcstold : nat -> list Z -> outcome (long_double * list Z) := strtold.

(** Conversions of the result to [double] and [float]. *)
Definition ld_round (prec emax : Z) (x : long_double) : spec_float :=
  match x with
  | S754_finite s m e => binary_normalize prec emax (if s then Z.neg m else Z.pos m) e s
  | _ => x
  end.
Definition to_double (r : outcome (long_double * list Z)) : outcome (spec_float * list Z) :=
  x ← r; mret (ld_round 53 1024 x.1, x.2).
Definition to_float (r : outcome (long_double * list Z)) : outcome (spec_float * list Z) :=
  x ← r; mret (ld_round 24 128 x.1, x.2).
Definition strtod (fuel : nat) (str : list Z) := to_double (strtold fuel str).
Definition strtof (fuel : nat) (str : list Z) := to_float (strtold fuel str).
Definition wcstod (fuel : nat) (str : list Z) := to_double (wcstold fuel str).
Definition wcstof (fuel : nat) (str : list Z) := to_float (wcstold fuel str).
End Strto.
