(* ===== verification/StrtoProofs.v ===== *)
(** * StrtoProofs: properties of the number conversions of [Strto] *)
From stdpp Require Import base list.
From Stdlib Require Import ZArith Lia SpecFloat.
From S2P Require Import Prelude Strto.
Import Strto.

Module StrtoProofs.

(** The value of the digits [ds], most significant first, after [v]. *)
Definition value_from (base v : Z) (ds : list Z) : Z := fold_left (fun v d => v * base + d) ds v.

Lemma value_from_snoc base v ds d : value_from base v (ds ++ [d]) = value_from base v ds * base + d.
Proof. unfold value_from. by rewrite fold_left_app. Qed.

(** ** Wrap-around *)

Lemma swrap_congr w a b : (a - b) mod 2 ^ w = 0 -> 0 < w -> swrap w a = swrap w b.
Proof.
  intros E Hw. unfold swrap. f_equal. assert (0 < 2 ^ w) by (apply Z.pow_pos_nonneg; lia).
  apply Z.mod_divide in E as [k Hk]; [|lia].
  replace (a + 2 ^ (w - 1)) with (b + 2 ^ (w - 1) + k * 2 ^ w) by lia. by rewrite Z.mod_add by lia.
Qed.

Lemma swrap_mod w a : 0 < w -> exists k, swrap w a = a + k * 2 ^ w.
Proof.
  intros Hw. unfold swrap. assert (0 < 2 ^ w) by (apply Z.pow_pos_nonneg; lia).
  exists (- ((a + 2 ^ (w - 1)) / 2 ^ w)). pose proof (Z.div_mod (a + 2 ^ (w - 1)) (2 ^ w)). lia.
Qed.

Lemma s64_step v base d : s64 (s64 (s64 v * base) + d) = s64 (v * base + d).
Proof.
  apply swrap_congr; [|lia].
  destruct (swrap_mod 64 v) as [k Hk]; [lia|]. destruct (swrap_mod 64 (s64 v * base)) as [j Hj]; [lia|].
  rewrite Hj, Hk. apply Z.mod_divide; [lia|]. exists (k * base + j). ring.
Qed.

Lemma s64_opp v : s64 (- s64 v) = s64 (- v).
Proof.
  apply swrap_congr; [|lia]. destruct (swrap_mod 64 v) as [k Hk]; [lia|]. rewrite Hk.
  apply Z.mod_divide; [lia|]. exists (- k). ring.
Qed.

Lemma s64_u64 v : s64 (u64 v) = s64 v.
Proof.
  apply swrap_congr; [|lia]. unfold uwrap. pose proof (Z.div_mod v (2 ^ 64)).
  apply Z.mod_divide; [lia|]. exists (- (v / 2 ^ 64)). lia.
Qed.

(** ** Digits *)

Lemma digit_table :
  forallb (fun b => forallb (fun d => bool_decide (index_narrow b (digit_char d) = Some d)) (seqZ 0 b))
    (seqZ 2 35) = true.
Proof. vm_compute. reflexivity. Qed.

Lemma index_narrow_digit base d : 2 <= base <= 36 -> 0 <= d < base -> index_narrow base (digit_char d) = Some d.
Proof.
  intros Hb Hd. pose proof digit_table as T. rewrite forallb_forall in T.
  specialize (T base). rewrite <- list_elem_of_In, elem_of_seqZ in T. specialize (T ltac:(lia)).
  rewrite forallb_forall in T. specialize (T d). rewrite <- list_elem_of_In, elem_of_seqZ in T.
  specialize (T ltac:(lia)). by apply bool_decide_eq_true in T.
Qed.

(** No digit character is a space, a sign or, below base 34, an 'x'. *)
Lemma digit_char_range d : 0 <= d < 36 ->
  isspace (digit_char d) = false /\ (digit_char d =? 45) = false /\ (digit_char d =? 43) = false /\
  (d < 33 -> digit_char d <> 120) /\ (digit_char d = 48 -> d = 0).
Proof.
  intros Hd.
  assert (forallb (fun d => negb (isspace (digit_char d)) && negb (digit_char d =? 45) &&
    negb (digit_char d =? 43)) (seqZ 0 36) = true) as T by (vm_compute; reflexivity).
  rewrite forallb_forall in T. specialize (T d). rewrite <- list_elem_of_In, elem_of_seqZ in T.
  specialize (T ltac:(lia)). apply andb_true_iff in T as [T T3]. apply andb_true_iff in T as [T1 T2].
  apply negb_true_iff in T1, T2, T3. split_and!; try done;
    unfold digit_char; destruct (Z.ltb_spec d 10); lia.
Qed.

(** The characters [rest] do not continue a number in [base]. *)
Definition not_digit (base : Z) (rest : list Z) : Prop :=
  match rest with [] => True | c :: _ => index_narrow base c = None end.

Lemma parse_digits_spec base ds rest v :
  2 <= base <= 36 -> Forall (fun d => 0 <= d < base) ds -> not_digit base rest ->
  parse_digits index_narrow base (map digit_char ds ++ rest) (s64 v) = (s64 (value_from base v ds), rest).
Proof.
  intros Hb F Hr. revert v. induction F as [|d ds Hd F IH]; intros v; simpl.
  - destruct rest as [|c rest]; simpl; [done|]. simpl in Hr. by rewrite Hr.
  - rewrite index_narrow_digit by done. rewrite s64_step. rewrite IH. done.
Qed.

(** ** [itoa] *)

Lemma itoa_loop_spec radix n : forall v tmp fuel,
  2 <= radix -> 0 <= v < 2 ^ Z.of_nat n -> (tmp = [] -> (0 < n)%nat) -> (n < fuel)%nat ->
  exists ds, itoa_loop fuel v radix tmp = Done (map digit_char ds ++ tmp) /\
    Forall (fun d => 0 <= d < radix) ds /\ value_from radix 0 ds = v /\
    (length ds <= n)%nat /\ (tmp = [] -> ds <> []).
Proof.
  induction n as [|n IH]; intros v tmp [|fuel] Hr Hv Ht Hf; try lia; cbn [itoa_loop].
  - assert (v = 0) as -> by (simpl in Hv; lia). destruct tmp as [|c tmp]; [specialize (Ht eq_refl); lia|].
    exists []. rewrite bool_decide_false by done. simpl. split_and!; try done; lia.
  - destruct (negb (v =? 0) || bool_decide (tmp = [])) eqn:E.
    + assert (0 <= v / radix < 2 ^ Z.of_nat n) as Hq.
      { split; [apply Z.div_pos; lia|]. rewrite Nat2Z.inj_succ, Z.pow_succ_r in Hv by lia.
        apply Z.div_lt_upper_bound; [lia|]. nia. }
      destruct (IH (v / radix) (digit_char (v mod radix) :: tmp) fuel Hr Hq) as (ds & Ed & F & Ev & Hl & _);
        [done|lia|].
      exists (ds ++ [v mod radix]). rewrite Ed. split_and!.
      * rewrite map_app. simpl. by rewrite <- app_assoc.
      * apply Forall_app. split; [done|]. constructor; [apply Z.mod_pos_bound; lia|constructor].
      * rewrite value_from_snoc, Ev. pose proof (Z.div_mod v radix). lia.
      * rewrite length_app. simpl. lia.
      * intros _ Hnil. by destruct ds.
    + apply orb_false_iff in E as [E1 E2]. apply negb_false_iff, Z.eqb_eq in E1 as ->.
      apply bool_decide_eq_false in E2. exists []. split_and!; try done. simpl. lia.
Qed.

Lemma itoa_magnitude radix v : 2 <= radix -> 0 <= v < 2 ^ 64 ->
  exists ds, itoa_loop 66 v radix [] = Done (map digit_char ds) /\
    Forall (fun d => 0 <= d < radix) ds /\ value_from radix 0 ds = v /\ (length ds <= 64)%nat /\ ds <> [].
Proof.
  intros Hr Hv. destruct (itoa_loop_spec radix 64 v [] 66) as (ds & E & F & Ev & Hl & Hn); try done; try lia.
  exists ds. rewrite app_nil_r in E. split_and!; try done. by apply Hn.
Qed.

(** ** [strtoll] on signs, prefixes and digits *)

Lemma skip_spaces_app spaces str :
  Forall (fun c => isspace c = true) spaces -> skip_spaces (spaces ++ str) = skip_spaces str.
Proof. induction 1 as [|c spaces Hc F IH]; simpl; [done|]. by rewrite Hc. Qed.

Lemma parse_prefix_digits base ds rest :
  2 <= base <= 36 -> Forall (fun d => 0 <= d < base) ds -> ds <> [] ->
  (base = 16 -> ds = [0] -> cur rest <> 120) ->
  parse_prefix base (map digit_char ds ++ rest) = (base, map digit_char ds ++ rest).
Proof.
  intros Hb F Hn Hx. unfold parse_prefix. assert ((base =? 0) = false) as E0 by (apply Z.eqb_neq; lia). rewrite E0. cbn [orb].
  destruct (Z.eqb_spec base 16) as [->|]; [|cbv iota zeta; rewrite E0; cbv iota; by rewrite E0].
  destruct ds as [|d ds]; [done|]. inversion F as [|? ? Hd F']; subst.
  destruct (digit_char_range d) as (_ & _ & _ & _ & Hz); [lia|]. cbn [map app].
  destruct ds as [|d' ds]; cbn [map app].
  - destruct rest as [|c rest]; [done|]. destruct (Z.eqb_spec (digit_char d) 48) as [E|]; [|done].
    rewrite (Hz E) in *. destruct (Z.eqb_spec c 120) as [->|]; [|done]. by destruct (Hx eq_refl eq_refl).
  - inversion F'; subst. destruct (digit_char_range d') as (_ & _ & _ & Hd' & _); [lia|].
    rewrite (proj2 (Z.eqb_neq (digit_char d') 120)) by (apply Hd'; lia). by rewrite andb_false_r.
Qed.

Lemma strtoll_sign base (neg plus : bool) ds rest spaces :
  2 <= base <= 36 -> Forall (fun c => isspace c = true) spaces ->
  Forall (fun d => 0 <= d < base) ds -> ds <> [] -> not_digit base rest ->
  (base = 16 -> ds = [0] -> cur rest <> 120) ->
  strtoll (spaces ++ (if neg then [45] else if plus then [43] else []) ++ map digit_char ds ++ rest) base =
    (if neg then s64 (- value_from base 0 ds) else s64 (value_from base 0 ds), Some rest).
Proof.
  intros Hb Hs F Hn Hr Hx. unfold strtoll, strtoll_gen.
  rewrite (proj2 (Z.ltb_ge base 2)), (proj2 (Z.ltb_ge 36 base)), andb_false_r by lia.
  rewrite skip_spaces_app by done.
  assert (skip_spaces ((if neg then [45] else if plus then [43] else []) ++ map digit_char ds ++ rest) =
            (if neg then [45] else if plus then [43] else []) ++ map digit_char ds ++ rest /\
          parse_sign ((if neg then [45] else if plus then [43] else []) ++ map digit_char ds ++ rest) =
            (neg, map digit_char ds ++ rest)) as [-> ->].
  { destruct neg; [done|]. destruct plus; [done|]. destruct ds as [|d ds]; [done|].
    inversion F; subst. destruct (digit_char_range d) as (E1 & E2 & E3 & _); [lia|].
    simpl. by rewrite E1, E2, E3. }
  rewrite parse_prefix_digits by done.
  change 0 with (s64 0) at 1. rewrite parse_digits_spec by done.
  destruct neg; [|done]. by rewrite s64_opp.
Qed.

(** [strtoll] reads the longest number in the base: blanks, an optional sign,
    the digits, and it leaves [endptr] at the first character that is not a digit;
    the value is exact modulo [2^64], hence exact whenever it fits. *)
Theorem strtoll_parses base (neg plus : bool) spaces ds rest :
  2 <= base <= 36 -> Forall (fun c => isspace c = true) spaces ->
  Forall (fun d => 0 <= d < base) ds -> ds <> [] -> not_digit base rest ->
  (base = 16 -> ds = [0] -> cur rest <> 120) ->
  strtoll (spaces ++ (if neg then [45] else if plus then [43] else []) ++ map digit_char ds ++ rest) base =
    (if neg then s64 (- value_from base 0 ds) else s64 (value_from base 0 ds), Some rest).
Proof. apply strtoll_sign. Qed.

(** [itoa] writes at most 65 characters for every 64-bit value and radix 2 to
    36, and [strtoll] reads the same value back from them. *)
Theorem itoa_strtoll_roundtrip value radix :
  2 <= radix <= 36 -> - 2 ^ 63 <= value < 2 ^ 63 ->
  exists str, itoa value radix = Done str /\ (length str <= 65)%nat /\ strtoll str radix = (value, Some []).
Proof.
  intros Hr Hv. unfold itoa.
  set (neg := (radix =? 10) && (value <? 0)).
  set (v := if neg then u64 (s64 (- value)) else u64 value).
  assert (0 <= v < 2 ^ 64) as Hvr by (subst v; destruct neg; by apply uwrap_range).
  destruct (itoa_magnitude radix v) as (ds & E & F & Ev & Hl & Hn); [lia|done|]. rewrite E.
  eexists. split; [reflexivity|]. split; [destruct neg; simpl; rewrite length_map; lia|].
  pose proof (strtoll_sign radix neg false ds [] []) as P. rewrite app_nil_r in P. cbn [app] in P.
  replace (if neg then 45 :: map digit_char ds else map digit_char ds)
    with ((if neg then [45] else []) ++ map digit_char ds) by by destruct neg.
  rewrite P by done. rewrite Ev. f_equal. subst v. destruct neg.
  - rewrite <- s64_opp, s64_u64, (swrap_small 64 (s64 (- value))) by (try lia; by apply swrap_range).
    rewrite s64_opp, Z.opp_involutive. by apply swrap_small.
  - rewrite s64_u64. by apply swrap_small.
Qed.

(** [wcstoll] searches bytes where it means wide characters: in base 10 it
    takes only the digits 0, 1 and 2, so that [L"42"] is read as 0 with [endptr] at
    its first character. *)
Theorem wcstoll_misses_digits :
  wcstoll [52; 50] 10 = (0, Some [52; 50]) /\ wcstoll [50; 49] 10 = (21, Some []) /\
  Forall (fun d => index_wide 10 (digit_char d) = None <-> 3 <= d) (seqZ 0 10).
Proof.
  split; [reflexivity|]. split; [reflexivity|].
  apply (bool_decide_unpack _). vm_compute. exact Logic.I.
Qed.

(** ** [strtold] *)

(** The characters that [strtold] may accept. *)
Definition ends_number (rest : list Z) : Prop :=
  match rest with
  | [] => True
  | c :: _ => ~ (48 <= c <= 57) /\ c <> 46 /\ c <> 45 /\ c <> 43 /\ c <> 69
  end.

Definition horner (ds : list Z) (r : long_double) : long_double :=
  fold_left (fun acc d => ld_add (ld_mul (ld_of_Z 10) acc) (ld_of_Z d)) ds r.

Lemma scan_loop_digits r sg hr before ds rest :
  Forall (fun d => 0 <= d <= 9) ds -> ends_number rest ->
  scan_loop (mkScan r sg 0 0 false false hr ld_zero) before (map (fun d => d + 48) ds ++ rest) =
    (mkScan (horner ds r) sg 0 0 false false (hr || negb (bool_decide (ds = []))) ld_zero,
     rev (map (fun d => d + 48) ds) ++ before, rest).
Proof.
  intros F He. revert r hr before. induction F as [|d ds Hd F IH]; intros r hr before; cbn [map app].
  - rewrite orb_false_r. destruct rest as [|c rest]; [done|]. cbn [scan_loop].
    destruct He as (H1 & H2 & H3 & H4 & H5). unfold scan_char.
    rewrite (proj2 (andb_false_iff _ _)) by (rewrite !Z.leb_gt; lia).
    by rewrite !(proj2 (Z.eqb_neq c _)) by done.
  - cbn [scan_loop]. unfold scan_char at 1. rewrite (proj2 (Z.leb_le 48 _)), (proj2 (Z.leb_le _ 57)) by lia.
    cbn [andb]. replace (d + 48 - 48) with d by lia. unfold scan_digit. cbn. rewrite IH.
    cbn [rev]. rewrite <- app_assoc. cbn [app]. f_equal. f_equal. by rewrite orb_true_r.
Qed.

(** on a decimal integer [strtold] ends at once: its value is the Horner sum of
    the digits in [long double] arithmetic and [endptr] is at the first character
    that cannot continue a number. *)
Theorem strtold_integer fuel ds rest :
  Forall (fun d => 0 <= d <= 9) ds -> ds <> [] -> ends_number rest -> (0 < fuel)%nat ->
  strtold fuel (map (fun d => d + 48) ds ++ rest) = Done (horner ds ld_zero, rest).
Proof.
  intros F Hn He Hf. unfold strtold, scan0. rewrite scan_loop_digits by done.
  rewrite (bool_decide_false (ds = [])) by done. cbn [isExponent hasExponent hasResult signedResult andb orb negb].
  destruct fuel as [|fuel]; [lia|]. reflexivity.
Qed.

Lemma scale_stuck fuel neg e r : ld_eqb e ld_zero = false -> ld_sub e (ld_of_Z 1) = e -> scale fuel neg e r = Fault OutOfFuel.
Proof.
  intros H1 H2. revert r. induction fuel as [|fuel IH]; intros r; cbn [scale]; [done|].
  rewrite H1, H2. apply IH.
Qed.

(** an exponent beyond [2^64] makes [strtold] loop for ever: [--exponent] no
    longer changes the [long double], whatever the number of iterations. *)
Theorem strtold_diverges fuel :
  strtold fuel ([49; 69] ++ replicate 21 57) = Fault OutOfFuel.
Proof.
  unfold strtold. set (sl := scan_loop _ _ _). vm_compute in sl. subst sl. cbv iota beta.
  cbn [isExponent hasExponent hasResult signedResult signedExponent exponent result andb negb].
  rewrite scale_stuck; [done|vm_compute; reflexivity..].
Qed.

(** a sign after a zero is accepted: ["0-5"] is read whole, as -5. *)
Theorem strtold_inner_sign :
  strtold 1 [48; 45; 53] = Done (SFopp (ld_of_Z 5), []).
Proof. vm_compute. reflexivity. Qed.

(** ** Witnesses *)

Lemma strtoll_parses_witness : strtoll [32; 45; 52; 50; 120] 10 = (-42, Some [120]).
Proof.
  apply (strtoll_parses 10 true false [32] [4; 2] [120]); [lia|by constructor| |done|done|done].
  - repeat (apply Forall_cons; split; [lia|]). constructor.
Defined.

Lemma itoa_strtoll_roundtrip_witness :
  exists str, itoa (-120) 10 = Done str /\ (length str <= 65)%nat /\ strtoll str 10 = (-120, Some []).
Proof. apply (itoa_strtoll_roundtrip (-120) 10); lia. Defined.

Lemma strtold_integer_witness : strtold 1 [52; 50; 32] = Done (horner [4; 2] ld_zero, [32]).
Proof.
  apply (strtold_integer 1 [4; 2] [32]); [|done| |lia].
  - repeat (apply Forall_cons; split; [lia|]). constructor.
  - simpl. lia.
Defined.
End StrtoProofs.
