(* ===== verification/Strdup.v ===== *)
(** * Strdup: [strdup] and [posix_memalign], clients of the allocator

    [libc/string/strdup.c] and [libc/string/memalign.c] over [Liballoc] and
    [CString]. *)
From stdpp Require Import base gmap list sets.
From Stdlib Require Import ZArith Lia.
From S2P Require Import Prelude Mem32 CString Liballoc LiballocRep LiballocPlace.
From S2P Require Import LiballocProofs LiballocSearch LiballocMalloc LiballocFree LiballocUse LiballocSpec.
Import Liballoc LiballocRep LiballocPlace LiballocProofs LiballocSearch LiballocMalloc LiballocFree.
Import LiballocUse LiballocSpec.

Module Strdup.

Section Model.
Context {OS : Type} `{PageSource OS}.

(** [strdup(str1)]; [strcpy] through NULL faults. *)
Definition strdup (fuel : nat) (str1 : Z) : M (heap OS) Z := fun h =>
  match CString.strlen fuel str1 (mem h) with
  | Fault f => Fault f
  | Done len =>
      match malloc fuel len h with
      | Fault f => Fault f
      | Done (str, h1) =>
          if str =? 0 then Fault BadAccess
          else match CString.strcpy fuel str str1 (mem h1) with
               | Fault f => Fault f
               | Done m => Done (str, set_mem (fun _ => m) h1)
               end
      end
  end.

(** [posix_memalign(res, align, len)]: the pointer left in [res] and the result. *)
Definition posix_memalign (fuel : nat) (align len : Z) : M (heap OS) (Z * Z) :=
  res ← malloc_align fuel len align; mret (res, 0).
End Model.

Section Proofs.
Context {OS : Type} `{PageSourceLaws OS}.
Implicit Types h : heap OS.

Lemma payload_cstring h h' b a l :
  agree_on (mem h) (mem h') (b_addr b + 24) (b_end b) ->
  b_addr b + 24 <= a -> a + Z.of_nat (length l) + 1 <= b_end b ->
  CString.cstring (mem h) a l -> CString.cstring (mem h') a l.
Proof. intros A ??. apply CString.cstring_agree. eapply agree_on_sub; [exact A|lia|lia]. Qed.

(** The alignment slack of a block of [malloc]: at least one byte lies between the
    end of the request and the end of the block. *)
Lemma malloc_slack fuel h rs req :
  hinv h rs false -> 0 <= req -> req + 68 <= 2 ^ 32 - 4096 -> (malloc_fuel rs <= fuel)%nat ->
  malloc fuel req h = Fault Panic \/
  (exists h', malloc fuel req h = Done (0, h')) \/
  exists q h' rs' nb, malloc fuel req h = Done (q, h') /\ hinv h' rs' false /\
    all_blks rs' ≡ₚ nb :: all_blks rs /\ b_req nb = req /\ 0 < q /\ b_addr nb + 40 <= q /\
    q + req + 1 <= b_end nb /\ payloads_kept h h' (all_blks rs).
Proof.
  intros I H1 H2 H3. destruct (malloc_ok fuel h rs req I)
    as [E|[(h' & E & _)|(q & h' & E & rs' & nb & I' & Hp & Es & Er & Ho & Pk)]]; try done.
  - by left.
  - right; left. by exists h'.
  - right; right. exists q, h', rs', nb.
    assert (nb ∈ all_blks rs') as Hin by (rewrite Hp; left).
    pose proof (handed_out_nonzero _ _ _ _ _ _ I' Hin Ho) as [? _].
    pose proof (blk_bounds _ _ _ _ I' Hin) as (? & _).
    destruct Ho as (_ & ? & ? & _). split_and!; try done. lia.
Qed.

(** [strdup] asks for [strlen] bytes and copies one more, the terminating zero.
    The byte past the request always lands in the alignment slack of the block:
    when the call returns, the copy is a whole string, the heap invariant holds
    and no other block has changed; when there is no memory it writes through
    NULL. *)
Theorem strdup_spec fuel h rs b str1 l :
  hinv h rs false -> b ∈ all_blks rs -> CString.cstring (mem h) str1 l ->
  b_addr b + 24 <= str1 -> str1 + Z.of_nat (length l) + 1 <= b_end b ->
  Z.of_nat (length l) + 68 <= 2 ^ 32 - 4096 -> (malloc_fuel rs + length l < fuel)%nat ->
  strdup fuel str1 h = Fault Panic \/ strdup fuel str1 h = Fault BadAccess \/
  exists q h' rs' nb, strdup fuel str1 h = Done (q, h') /\ hinv h' rs' false /\
    all_blks rs' ≡ₚ nb :: all_blks rs /\ CString.cstring (mem h') q l /\
    b_req nb = Z.of_nat (length l) /\ b_addr nb + 40 <= q /\ q + Z.of_nat (length l) + 1 <= b_end nb /\
    payloads_kept h h' (all_blks rs).
Proof.
  intros I Hb Hs Hlo Hhi Hm Hf. unfold strdup, CString.strlen.
  rewrite (CString.strlen_loop_spec fuel str1 0 l) by (rewrite ?Z.add_0_r; done || lia). rewrite Z.add_0_l.
  destruct (malloc_slack fuel h rs (Z.of_nat (length l)) I)
    as [E|[(h' & E)|(q & h1 & rs1 & nb & E & I1 & Hp & Er & Hq & Hq1 & Hq2 & Pk)]]; try lia; rewrite E.
  - by left.
  - right; left. by rewrite Z.eqb_refl.
  - right; right. rewrite (proj2 (Z.eqb_neq q 0)) by lia.
    assert (nb ∈ all_blks rs1) as Hin by (rewrite Hp; left).
    assert (b_apart nb b) as Hab.
    { pose proof (pairwise_perm _ _ Hp (hinv_pairwise _ _ _ I1)) as [P _].
      rewrite Forall_forall in P. by apply P. }
    assert (CString.cstring (mem h1) str1 l) as Hs1.
    { unfold payloads_kept in Pk. rewrite Forall_forall in Pk.
      eapply (payload_cstring h h1 b); try done. by apply Pk. }
    destruct (CString.strcpy_ok fuel q str1 l (mem h1)) as (m' & Ec & Hc & Ag);
      [done|lia|unfold b_apart, b_end in *; lia|].
    rewrite Ec. exists q, (set_mem (fun _ => m') h1), rs1, nb. split_and!; try done.
    + eapply (hinv_payload_write _ _ _ nb q (q + Z.of_nat (length l) + 1)); try done; lia.
    + eapply payloads_kept_trans; [exact Pk|].
      eapply (others_kept _ rs1 _ nb _ q (q + Z.of_nat (length l) + 1)); try done; lia.
Qed.
End Proofs.

(** "hi" written at the start of the first block of [demo]. *)
Definition hi_heap : heap (list (Z * Z)) :=
  set_mem (fun m => store8 (store8 (store8 m 0x100040 104) 0x100041 105) 0x100042 0) demo.

Lemma hi_heap_hinv : hinv hi_heap demo_regions false.
Proof.
  apply (hinv_payload_write demo demo_regions false demo_blk1 0x100040 0x100043); [apply demo_hinv|left| | |].
  - vm_compute. done.
  - vm_compute. done.
  - intros x Hx. rewrite !load8_store8_ne by lia. done.
Qed.

Lemma strdup_spec_witness :
  strdup 20 0x100040 hi_heap = Fault Panic \/ strdup 20 0x100040 hi_heap = Fault BadAccess \/
  exists q h' rs' nb, strdup 20 0x100040 hi_heap = Done (q, h') /\ hinv h' rs' false /\
    all_blks rs' ≡ₚ nb :: all_blks demo_regions /\ CString.cstring (mem h') q [104; 105] /\
    b_req nb = 2 /\ b_addr nb + 40 <= q /\ q + 2 + 1 <= b_end nb /\
    payloads_kept hi_heap h' (all_blks demo_regions).
Proof.
  apply (strdup_spec 20 hi_heap demo_regions demo_blk1 0x100040 [104; 105]);
    [apply hi_heap_hinv|left|vm_compute; split_and!; done|vm_compute; done|vm_compute; done|simpl; lia|vm_compute; lia].
Defined.
End Strdup.
