(* ===== verification/Semaphore.v ===== *)
(** * Semaphore: kernel semaphores and their system calls

    [kern/tasking/semaphore.cpp] and [kern/syscalls/LudOS/tasking/semaphores.cpp].
    The body of [Semaphore::wait] gives up the processor in the middle: it is two
    steps, [wait_begin] up to [tasking::schedule()] and [wait_end] when the process
    runs again.  Each step is atomic (the spin lock is held, and a process runs
    [wait_end] only once its status is [Active] again).  The counter is an [int]; no
    run of the kernel comes near its bounds and it is an integer here. *)
From stdpp Require Import base gmap list.
From Stdlib Require Import ZArith Lia.
From S2P Require Import Prelude Errno.
Import Errno.

Module Semaphore.

Inductive status := Active | IOWait.
#[export] Instance status_eq_dec : EqDecision status.
Proof. solve_decision. Defined.

(** [struct wait_entry], with the status of its process. *)
Record wait_entry := Entry { proc : Z; timed_out : bool; proc_status : status }.

Record semaphore := mkSem { counter : Z; wait_list : list wait_entry }.

Definition Semaphore (value : Z) : semaphore := mkSem value [].

(** [wait] up to the call of the scheduler: the new state and [reschedule]. *)
Definition wait_begin (pid : Z) (s : semaphore) : bool * semaphore :=
  let reschedule := counter s <=? 0 in
  (reschedule,
   mkSem (counter s - 1)
     (if reschedule then wait_list s ++ [Entry pid false IOWait] else wait_list s)).

(** The rest of [wait]: the entry of the process is erased, the result is [EOK] or
    [ETIMEDOUT]. *)
Fixpoint take_entry (pid : Z) (l : list wait_entry) : option (wait_entry * list wait_entry) :=
  match l with
  | [] => None
  | e :: l' =>
      if proc e =? pid then Some (e, l')
      else match take_entry pid l' with Some (e', r) => Some (e', e :: r) | None => None end
  end.
Definition wait_end (pid : Z) (s : semaphore) : option (Z * semaphore) :=
  match take_entry pid (wait_list s) with
  | Some (e, l) =>
      if bool_decide (proc_status e = Active)
      then Some (if timed_out e then ETIMEDOUT else EOK, mkSem (counter s) l)
      else None
  | None => None
  end.

Definition try_wait (s : semaphore) : bool * semaphore :=
  if counter s <=? 0 then (false, s) else (true, mkSem (counter s - 1) (wait_list s)).

Definition count (s : semaphore) : Z := counter s.

(** [post]: the process at the front becomes active; its entry stays. *)
Definition post (s : semaphore) : semaphore :=
  mkSem (counter s + 1)
    (match wait_list s with
     | [] => []
     | e :: l => Entry (proc e) (timed_out e) Active :: l
     end).

(** [remove_timed_out_process], called when the sleep queue wakes the process. *)
Fixpoint mark_timed_out (pid : Z) (l : list wait_entry) : option (list wait_entry) :=
  match l with
  | [] => None
  | e :: l' =>
      if proc e =? pid then Some (Entry (proc e) true Active :: l')
      else match mark_timed_out pid l' with Some r => Some (e :: r) | None => None end
  end.
Definition remove_timed_out_process (pid : Z) (s : semaphore) : option semaphore :=
  match mark_timed_out pid (wait_list s) with
  | Some l => Some (mkSem (counter s) l)
  | None => None
  end.

(** The destructor asserts that nobody waits. *)
Definition destructor_ok (s : semaphore) : bool := bool_decide (wait_list s = []).

(** ** Runs

    [acquired] and [posted] are ghost counters: the number of calls of [wait] and
    [try_wait] that succeeded, and of calls of [post]. *)
Record run := mkRun { sem : semaphore; acquired : Z; posted : Z }.

Inductive step : run -> run -> Prop :=
  | step_wait_now pid s s' a p :
      wait_begin pid s = (false, s') -> step (mkRun s a p) (mkRun s' (a + 1) p)
  | step_wait_block pid s s' a p :
      pid ∉ map proc (wait_list s) ->
      wait_begin pid s = (true, s') -> step (mkRun s a p) (mkRun s' a p)
  | step_wait_done pid s s' a p :
      wait_end pid s = Some (EOK, s') -> step (mkRun s a p) (mkRun s' (a + 1) p)
  | step_wait_timeout pid s s' a p :
      wait_end pid s = Some (ETIMEDOUT, s') -> step (mkRun s a p) (mkRun s' a p)
  | step_try s s' a p :
      try_wait s = (true, s') -> step (mkRun s a p) (mkRun s' (a + 1) p)
  | step_post s a p : step (mkRun s a p) (mkRun (post s) a (p + 1))
  | step_timeout pid s s' a p :
      remove_timed_out_process pid s = Some s' -> step (mkRun s a p) (mkRun s' a p).

Inductive reachable (value : Z) : run -> Prop :=
  | reach_init : reachable value (mkRun (Semaphore value) 0 0)
  | reach_step r r' : reachable value r -> step r r' -> reachable value r'.

(** ** The table of semaphores of the system calls *)

Abbreviation sem_list := (list (option semaphore)).

Definition get_sem (id : Z) (l : sem_list) : option semaphore :=
  if Z.of_nat (length l) <=? id then None else mjoin (l !! Z.to_nat id).

Fixpoint create_new_sem (value : Z) (l : sem_list) : Z * sem_list :=
  match l with
  | [] => (0, [Some (Semaphore value)])
  | None :: l' => (0, Some (Semaphore value) :: l')
  | Some s :: l' => let '(id, l') := create_new_sem value l' in (id + 1, Some s :: l')
  end.

Definition destroy_sem (id : Z) (l : sem_list) : outcome sem_list :=
  match get_sem id l with
  | None => Fault AssertFailed
  | Some s => if destructor_ok s then Done (<[Z.to_nat id := None]> l) else Fault AssertFailed
  end.

(** The calls return 0 or minus an error number.  [check] is the result of
    [user_ptr::check] on the pointer arguments. *)
Definition sys_lud_sem_init (check : bool) (pshared value : Z) (l : sem_list) : Z * option Z * sem_list :=
  if negb (pshared =? 0) then (- ENOSYS, None, l)
  else if negb check then (- EFAULT, None, l)
  else let '(id, l) := create_new_sem value l in (EOK, Some id, l).

Definition sys_lud_sem_destroy (check : bool) (id : Z) (l : sem_list) : outcome (Z * sem_list) :=
  if negb check then Done (- EFAULT, l)
  else match get_sem id l with
       | None => Done (- EINVAL, l)
       | Some _ => l ← destroy_sem id l; mret (EOK, l)
       end.

Definition sys_lud_sem_post (check : bool) (id : Z) (l : sem_list) : Z * sem_list :=
  if negb check then (- EFAULT, l)
  else match get_sem id l with
       | None => (- EINVAL, l)
       | Some s => (EOK, <[Z.to_nat id := Some (post s)]> l)
       end.

(** [sys_lud_sem_wait] up to the point where the caller may block. *)
Definition sys_lud_sem_wait (check : bool) (pid id : Z) (l : sem_list) : Z * bool * sem_list :=
  if negb check then (- EFAULT, false, l)
  else match get_sem id l with
       | None => (- EINVAL, false, l)
       | Some s => let '(block, s') := wait_begin pid s in (EOK, block, <[Z.to_nat id := Some s']> l)
       end.

Definition sys_lud_sem_trywait (check : bool) (id : Z) (l : sem_list) : Z * sem_list :=
  if negb check then (- EFAULT, l)
  else match get_sem id l with
       | None => (- EINVAL, l)
       | Some s => let '(ok, s') := try_wait s in
                   (if ok then EOK else - EAGAIN, <[Z.to_nat id := Some s']> l)
       end.

(** The ticks [sys_lud_sem_timedwait] waits for; [tv_sec] and [tv_nsec] are those of the
    argument, [clock_speed] the ticks per microsecond. *)
Definition timedwait_ticks (clock_speed tv_sec tv_nsec : Z) : Z :=
  u64 (Z.quot tv_nsec 1000 * clock_speed + tv_sec * (clock_speed * 1000000)).

Definition sys_lud_sem_getvalue (check : bool) (id : Z) (l : sem_list) : Z * option Z :=
  if negb check then (- EFAULT, None)
  else match get_sem id l with
       | None => (- EINVAL, None)
       | Some s => (EOK, Some (count s))
       end.

(** ** Lemmas *)

(** The waiters that a [post] has woken and that have not timed out. *)
Definition woken (e : wait_entry) : bool := bool_decide (proc_status e = Active) && negb (timed_out e).
Definition n_woken (l : list wait_entry) : Z := Z.of_nat (length (filter (fun e => woken e = true) l)).

Lemma n_woken_cons e l : n_woken (e :: l) = (if woken e then 1 else 0) + n_woken l.
Proof.
  unfold n_woken. destruct (woken e) eqn:E;
    [rewrite filter_cons_True by done|rewrite filter_cons_False by congruence]; simpl; lia.
Qed.

Lemma n_woken_app l1 l2 : n_woken (l1 ++ l2) = n_woken l1 + n_woken l2.
Proof. induction l1 as [|e l1 IH]; [done|]. cbn [app]. rewrite !n_woken_cons, IH. lia. Qed.

Lemma n_woken_nonneg l : 0 <= n_woken l.
Proof. unfold n_woken. lia. Qed.

Lemma take_entry_woken pid l e l' :
  take_entry pid l = Some (e, l') -> n_woken l = (if woken e then 1 else 0) + n_woken l'.
Proof.
  revert e l'. induction l as [|x l IH]; intros e l'; cbn [take_entry]; [done|].
  destruct (proc x =? pid).
  - intros [= -> ->]. apply n_woken_cons.
  - destruct (take_entry pid l) as [[e0 r]|]; [|done]. intros [= -> <-].
    rewrite !n_woken_cons, (IH e r) by done. lia.
Qed.

Lemma take_entry_length pid l e l' : take_entry pid l = Some (e, l') -> length l = S (length l').
Proof.
  revert e l'. induction l as [|x l IH]; intros e l'; cbn [take_entry]; [done|].
  destruct (proc x =? pid); [by intros [= -> ->]|].
  destruct (take_entry pid l) as [[e0 r]|]; [|done]. intros [= -> <-]. simpl. by rewrite (IH e r).
Qed.

Lemma mark_timed_out_woken pid l l' :
  mark_timed_out pid l = Some l' -> n_woken l' <= n_woken l /\ length l' = length l.
Proof.
  revert l'. induction l as [|x l IH]; intros l'; cbn [mark_timed_out]; [done|].
  destruct (proc x =? pid).
  - intros [= <-]. rewrite !n_woken_cons. assert (woken (Entry (proc x) true Active) = false) as -> by done.
    split; [|done]. destruct (woken x); lia.
  - destruct (mark_timed_out pid l) as [r|]; [|done]. intros [= <-]. rewrite !n_woken_cons.
    destruct (IH r eq_refl) as [??]. simpl. lia.
Qed.

Lemma wait_end_inv pid s r s' :
  wait_end pid s = Some (r, s') -> counter s' = counter s /\
    exists e, take_entry pid (wait_list s) = Some (e, wait_list s') /\ proc_status e = Active /\
      r = if timed_out e then ETIMEDOUT else EOK.
Proof.
  unfold wait_end. destruct (take_entry pid (wait_list s)) as [[e l]|]; [|done].
  case_bool_decide; [|done]. intros [= <- <-]. split; [done|]. by exists e.
Qed.

(** The invariant of a run: units are never handed out twice. *)
Definition sem_safe (value : Z) (r : run) : Prop :=
  counter (sem r) + acquired r + Z.of_nat (length (wait_list (sem r))) <= value + posted r /\
  acquired r + n_woken (wait_list (sem r)) <= value + posted r.

Lemma n_woken_le l : n_woken l <= Z.of_nat (length l).
Proof. induction l as [|e l IH]; [done|]. rewrite n_woken_cons. simpl. destruct (woken e); lia. Qed.

Lemma post_woken s : n_woken (wait_list (post s)) <= n_woken (wait_list s) + 1 /\
  length (wait_list (post s)) = length (wait_list s).
Proof.
  unfold post. simpl. destruct (wait_list s) as [|e l]; [split; [done|done]|]. rewrite !n_woken_cons. simpl.
  split; [|done]. unfold woken at 1. simpl. pose proof (n_woken_nonneg l). destruct (timed_out e), (woken e); simpl; lia.
Qed.

Lemma step_safe value r r' : sem_safe value r -> step r r' -> sem_safe value r'.
Proof.
  intros [I1 I2] St. unfold sem_safe. destruct St as [pid s s' a p E|pid s s' a p _ E|pid s s' a p E|pid s s' a p E|s s' a p E|s a p|pid s s' a p E];
    cbn [sem acquired posted] in *; pose proof (n_woken_le (wait_list s)).
  - injection E as E <-. apply Z.leb_gt in E. cbn [counter wait_list].
    rewrite (proj2 (Z.leb_gt (counter s) 0)) by lia. lia.
  - injection E as E <-. cbn [counter wait_list]. rewrite E, length_app, n_woken_app, n_woken_cons. simpl. unfold n_woken at 2.
    simpl. lia.
  - apply wait_end_inv in E as (-> & e & Et & Ha & Er). pose proof (take_entry_woken _ _ _ _ Et) as W.
    pose proof (take_entry_length _ _ _ _ Et) as L. rewrite L in I1. rewrite W in I2.
    destruct (timed_out e) eqn:To; [done|]. unfold woken in I2. rewrite Ha, To in I2. simpl in I2. lia.
  - apply wait_end_inv in E as (-> & e & Et & Ha & Er). pose proof (take_entry_woken _ _ _ _ Et) as W.
    pose proof (take_entry_length _ _ _ _ Et) as L. rewrite L in I1. rewrite W in I2.
    destruct (woken e); lia.
  - unfold try_wait in E. destruct (Z.leb_spec (counter s) 0); [done|]. injection E as <-. cbn [counter wait_list]. lia.
  - destruct (post_woken s) as [W L]. rewrite L. simpl counter. lia.
  - unfold remove_timed_out_process in E. destruct (mark_timed_out pid (wait_list s)) as [l|] eqn:Em; [|done].
    injection E as <-. apply mark_timed_out_woken in Em as [W L]. cbn [counter wait_list]. rewrite L. lia.
Qed.

(** in every interleaving of [wait], [try_wait], [post] and timeouts, the number of
    waits that have succeeded never exceeds the initial value plus the number of
    posts: a semaphore of value 1 is a lock. *)
Theorem semaphore_safety value r :
  0 <= value -> reachable value r -> acquired r <= value + posted r.
Proof.
  intros Hv Hr. assert (sem_safe value r) as [_ I].
  { induction Hr as [|r r' Hr IH St]; [|by eapply step_safe].
    split; simpl; [lia|]. unfold n_woken. simpl. lia. }
  pose proof (n_woken_nonneg (wait_list (sem r))). lia.
Qed.

(** wake-ups can be lost.  [post] leaves the entry it wakes at the front of the list,
    so a second [post] before that process has run wakes the same process again: two
    processes wait, two units are posted, and one process stays blocked although a
    unit is left for it. *)
Theorem lost_wakeup :
  exists r, reachable 0 r /\ posted r = 2 /\ acquired r = 1 /\
    sem r = mkSem 0 [Entry 2 false IOWait].
Proof.
  exists (mkRun (mkSem 0 [Entry 2 false IOWait]) 1 2). split; [|split_and!; reflexivity].
  eapply reach_step; [eapply reach_step; [eapply reach_step; [eapply reach_step; [eapply reach_step; [apply reach_init|]|]|]|]|].
  - apply (step_wait_block 1); [by apply not_elem_of_nil|reflexivity].
  - apply (step_wait_block 2); [simpl; rewrite list_elem_of_singleton; lia|reflexivity].
  - apply step_post.
  - apply step_post.
  - apply (step_wait_done 1). reflexivity.
Qed.

(** a wait that times out keeps the unit it took: after the timeout a [post] leaves
    the counter at 0, and the next wait blocks with the posted unit unused. *)
Theorem timeout_loses_unit :
  exists r, reachable 0 r /\ posted r = 1 /\ acquired r = 0 /\ sem r = mkSem 0 [].
Proof.
  exists (mkRun (mkSem 0 []) 0 1). split; [|split_and!; reflexivity].
  eapply reach_step; [eapply reach_step; [eapply reach_step; [eapply reach_step; [apply reach_init|]|]|]|].
  - apply (step_wait_block 1); [by apply not_elem_of_nil|reflexivity].
  - apply (step_timeout 1). reflexivity.
  - apply (step_wait_timeout 1). reflexivity.
  - apply step_post.
Qed.

Lemma get_sem_cons j x (l : sem_list) : 0 <= j -> get_sem (j + 1) (x :: l) = get_sem j l.
Proof.
  intros Hj. unfold get_sem. simpl length.
  destruct (Z.leb_spec (Z.of_nat (length l)) j).
  - rewrite (proj2 (Z.leb_le _ _)) by lia. done.
  - rewrite (proj2 (Z.leb_gt _ _)) by lia. replace (Z.to_nat (j + 1)) with (S (Z.to_nat j)) by lia. done.
Qed.

Lemma get_sem_zero x (l : sem_list) : get_sem 0 (x :: l) = x.
Proof. unfold get_sem. rewrite (proj2 (Z.leb_gt _ _)) by (simpl; lia). done. Qed.

(** [create_new_sem] hands out an identifier that names no semaphore, which then
    names the new one; every other identifier keeps its semaphore. *)
Theorem create_new_sem_fresh value l id l' :
  create_new_sem value l = (id, l') ->
  0 <= id /\ get_sem id l = None /\ get_sem id l' = Some (Semaphore value) /\
  forall j, 0 <= j -> j <> id -> get_sem j l' = get_sem j l.
Proof.
  revert id l'. induction l as [|[s|] l IH]; intros id l'; cbn [create_new_sem].
  - intros [= <- <-]. split_and!; [lia|done|done|]. intros j Hj Hne.
    replace j with (j - 1 + 1) by lia. rewrite get_sem_cons by lia. unfold get_sem. simpl.
    by rewrite !(proj2 (Z.leb_le 0 _)) by lia.
  - destruct (create_new_sem value l) as [i r] eqn:E. intros [= <- <-].
    destruct (IH i r eq_refl) as (Hi & H1 & H2 & H3). split_and!; [lia|by rewrite get_sem_cons|by rewrite get_sem_cons|].
    intros j Hj Hne. destruct (decide (j = 0)) as [->|]; [by rewrite !get_sem_zero|].
    replace j with (j - 1 + 1) by lia. rewrite !get_sem_cons by lia. apply H3; lia.
  - intros [= <- <-]. split_and!; [lia|done|done|]. intros j Hj Hne.
    replace j with (j - 1 + 1) by lia. by rewrite !get_sem_cons by lia.
Qed.

Lemma semaphore_safety_witness : 1 <= 1 + 0.
Proof.
  apply (semaphore_safety 1 (mkRun (mkSem 0 []) 1 0)); [lia|].
  eapply reach_step; [apply reach_init|]. apply (step_wait_now 7). reflexivity.
Defined.

Lemma create_new_sem_fresh_witness :
  get_sem 1 [Some (Semaphore 3); Some (Semaphore 5)] = Some (Semaphore 5) /\
  get_sem 0 [Some (Semaphore 3); Some (Semaphore 5)] = get_sem 0 [Some (Semaphore 3); None].
Proof.
  destruct (create_new_sem_fresh 5 [Some (Semaphore 3); None] 1 [Some (Semaphore 3); Some (Semaphore 5)] eq_refl)
    as (_ & _ & H2 & H3).
  split; [exact H2|apply H3; lia].
Defined.
End Semaphore.
