(* ===== verification/PteOsal.v ===== *)
(** * PteOsal: the LudOS port of the thread library

    [userland/external/pthread-embedded/platform/ludos/pte_osal.c], the layer
    between the POSIX threads library and the kernel.  The state is the table of
    threads, the kernel's table of semaphores, the counter of TLS keys and the TLS
    page of the running thread.  Stacks come from an allocator of which only the
    two operations are used, the interface [StackAlloc].  A call that would block
    the caller returns [Blocked]. *)
From stdpp Require Import base gmap list.
From Stdlib Require Import ZArith Lia.
From S2P Require Import Prelude Errno Semaphore.
Import Errno Semaphore.

Class StackAlloc (A : Type) := {
  stack_malloc : Z -> A -> Z * A;
  stack_free : Z -> A -> A;
}.

Module PteOsal.

Inductive pte_osResult :=
  | PTE_OS_OK | PTE_OS_NO_RESOURCES | PTE_OS_GENERAL_FAILURE
  | PTE_OS_TIMEOUT | PTE_OS_INTERRUPTED | PTE_OS_INVALID_PARAM.
#[export] Instance pte_osResult_eq_dec : EqDecision pte_osResult.
Proof. solve_decision. Defined.

(** The outcome of a call that may block. *)
Inductive call (A : Type) := Returns (a : A) | Blocked.
Arguments Returns {A} a.
Arguments Blocked {A}.

Record thread_data := mkThread {
  entryPoint : Z; argv : Z; stack : Z; stack_size : Z; pid : Z;
  start_sem : Z; cancel_sem : Z; done : Z; used : bool; handle_id : Z;
}.
(** A slot after [calloc] or [memset]. *)
Definition thread0 : thread_data := mkThread 0 0 0 0 0 0 0 0 false 0.

Section Osal.
Context {A : Type} `{StackAlloc A}.

Record osal := mkOsal {
  thread_list : list thread_data;
  thread_count : Z;
  tls_key_count : Z;
  sems : sem_list;
  tls : gmap Z Z;        (* word [key] of the TLS page of the running thread *)
  self : Z;              (* gettid() of the running thread *)
  exited : list Z;       (* threads that have called exit() *)
  killed : list (Z * Z); (* signals sent with kill() *)
  alloc : A;
}.
Definition thread_capacity (o : osal) : Z := Z.of_nat (length (thread_list o)).

Definition set_threads (l : list thread_data) (o : osal) : osal :=
  mkOsal l (thread_count o) (tls_key_count o) (sems o) (tls o) (self o) (exited o) (killed o) (alloc o).
Definition set_count (n : Z) (o : osal) : osal :=
  mkOsal (thread_list o) n (tls_key_count o) (sems o) (tls o) (self o) (exited o) (killed o) (alloc o).
Definition set_keys (n : Z) (o : osal) : osal :=
  mkOsal (thread_list o) (thread_count o) n (sems o) (tls o) (self o) (exited o) (killed o) (alloc o).
Definition set_sems (l : sem_list) (o : osal) : osal :=
  mkOsal (thread_list o) (thread_count o) (tls_key_count o) l (tls o) (self o) (exited o) (killed o) (alloc o).
Definition set_tls (t : gmap Z Z) (o : osal) : osal :=
  mkOsal (thread_list o) (thread_count o) (tls_key_count o) (sems o) t (self o) (exited o) (killed o) (alloc o).
Definition set_exited (l : list Z) (o : osal) : osal :=
  mkOsal (thread_list o) (thread_count o) (tls_key_count o) (sems o) (tls o) (self o) l (killed o) (alloc o).
Definition set_killed (l : list (Z * Z)) (o : osal) : osal :=
  mkOsal (thread_list o) (thread_count o) (tls_key_count o) (sems o) (tls o) (self o) (exited o) l (alloc o).
Definition set_alloc (a : A) (o : osal) : osal :=
  mkOsal (thread_list o) (thread_count o) (tls_key_count o) (sems o) (tls o) (self o) (exited o) (killed o) a.

(** ** System calls

    The user pointers passed to the kernel are valid; a negative result is the
    error number. *)
Definition lud_sem_init (value : Z) : M osal (Z * Z) :=
  l ← gets sems;
  match sys_lud_sem_init true 0 value l with
  | (r, Some id, l) => modify (set_sems l) ;; mret (r, id)
  | (r, None, l) => mret (r, 0)
  end.
Definition lud_sem_destroy (id : Z) : M osal Z := fun o =>
  match sys_lud_sem_destroy true id (sems o) with
  | Done (r, l) => Done (r, set_sems l o)
  | Fault f => Fault f
  end.
Definition lud_sem_post (id : Z) : M osal Z :=
  l ← gets sems; let '(r, l) := sys_lud_sem_post true id l in modify (set_sems l) ;; mret r.
Definition lud_sem_trywait (id : Z) : M osal Z :=
  l ← gets sems; let '(r, l) := sys_lud_sem_trywait true id l in modify (set_sems l) ;; mret r.
Definition lud_sem_wait (id : Z) : M osal (call Z) :=
  l ← gets sems; me ← gets self;
  let '(r, block, l) := sys_lud_sem_wait true me id l in
  modify (set_sems l) ;; mret (if (block : bool) then Blocked else Returns r).
Definition lud_sem_getvalue (id : Z) : M osal (Z * Z) :=
  l ← gets sems;
  match sys_lud_sem_getvalue true id l with (r, Some v) => mret (r, v) | (r, None) => mret (r, 0) end.

(** ** Semaphores and mutexes of the library *)

Definition pte_osMutexCreate : M osal (pte_osResult * Z) :=
  r ← lud_sem_init 1;
  mret (if negb (r.1 =? 0) then (PTE_OS_NO_RESOURCES, r.2) else (PTE_OS_OK, r.2)).
Definition pte_osMutexDelete (handle : Z) : M osal pte_osResult :=
  r ← lud_sem_destroy handle; mret (if negb (r =? 0) then PTE_OS_GENERAL_FAILURE else PTE_OS_OK).
Definition pte_osMutexLock (handle : Z) : M osal (call pte_osResult) :=
  r ← lud_sem_wait handle;
  mret (match r with
        | Blocked => Blocked
        | Returns r => Returns (if negb (r =? 0) then PTE_OS_GENERAL_FAILURE else PTE_OS_OK)
        end).
(** [lud_sem_timedwait] returned [r] with [errno]; on success the function falls off
    its end and its value is [undef]. *)
Definition pte_osMutexTimedLock (undef : pte_osResult) (r errno : Z) : pte_osResult :=
  if r <? 0 then (if errno =? ETIMEDOUT then PTE_OS_TIMEOUT else PTE_OS_GENERAL_FAILURE) else undef.
Definition pte_osMutexUnlock (handle : Z) : M osal pte_osResult :=
  r ← lud_sem_post handle; mret (if negb (r =? 0) then PTE_OS_GENERAL_FAILURE else PTE_OS_OK).

Definition pte_osSemaphoreCreate (initialValue : Z) : M osal (pte_osResult * Z) :=
  r ← lud_sem_init (u32 initialValue);
  mret (if r.1 <? 0 then (PTE_OS_GENERAL_FAILURE, r.2) else (PTE_OS_OK, r.2)).
Definition pte_osSemaphoreDelete (handle : Z) : M osal pte_osResult :=
  r ← lud_sem_destroy handle; mret (if r <? 0 then PTE_OS_GENERAL_FAILURE else PTE_OS_OK).
Fixpoint post_loop (n : nat) (handle : Z) : M osal pte_osResult :=
  match n with
  | O => mret PTE_OS_OK
  | S n => r ← lud_sem_post handle; if r <? 0 then mret PTE_OS_GENERAL_FAILURE else post_loop n handle
  end.
Definition pte_osSemaphorePost (handle count : Z) : M osal pte_osResult := post_loop (Z.to_nat count) handle.

(** [pTimeoutMsecs]: none, zero (do not block) or a number of milliseconds; a timed
    wait that cannot be served at once blocks. *)
Definition pte_osSemaphorePend (handle : Z) (pTimeoutMsecs : option Z) : M osal (call pte_osResult) :=
  match pTimeoutMsecs with
  | Some t =>
      if negb (t =? 0) then
        r ← lud_sem_wait handle;
        mret (match r with
              | Blocked => Blocked
              | Returns r => Returns (if r <? 0 then PTE_OS_GENERAL_FAILURE else PTE_OS_OK)
              end)
      else
        r ← lud_sem_trywait handle;
        mret (Returns (if (r <? 0) && (r =? - EAGAIN) then PTE_OS_TIMEOUT else PTE_OS_OK))
  | None =>
      r ← lud_sem_wait handle;
      mret (match r with
            | Blocked => Blocked
            | Returns r => Returns (if r <? 0 then PTE_OS_GENERAL_FAILURE else PTE_OS_OK)
            end)
  end.

(** ** The table of threads *)

Fixpoint first_unused (i : Z) (l : list thread_data) : option Z :=
  match l with
  | [] => None
  | t :: l' => if negb (used t) then Some i else first_unused (i + 1) l'
  end.
Fixpoint find_free_pid (fuel : nat) : M osal Z :=
  match fuel with
  | O => fail OutOfFuel
  | S fuel =>
      l ← gets thread_list;
      match first_unused 0 l with
      | Some i => mret i
      | None => modify (fun o => set_threads (thread_list o ++ replicate 16 thread0) o) ;; find_free_pid fuel
      end
  end.

(** [&thread_list[id]]: an access outside the table faults. *)
Definition get_thread (id : Z) : M osal thread_data := fun o =>
  if (0 <=? id) && (id <? thread_capacity o)
  then match thread_list o !! Z.to_nat id with Some t => Done (t, o) | None => Fault BadAccess end
  else Fault BadAccess.
Definition put_thread (id : Z) (t : thread_data) : M osal unit :=
  modify (fun o => set_threads (<[Z.to_nat id := t]> (thread_list o)) o).

Definition alloc_structure (size : Z) : M osal Z :=
  id ← find_free_pid 2;
  entry ← get_thread id;
  assert_ (negb (used entry)) ;;
  a ← gets alloc;
  let '(p, a) := stack_malloc size a in
  modify (set_alloc a) ;;
  s1 ← pte_osSemaphoreCreate 0;
  s2 ← pte_osSemaphoreCreate 0;
  put_thread id (mkThread (entryPoint entry) (argv entry) p size (pid entry) s1.2 s2.2 (done entry) true id) ;;
  modify (fun o => set_count (thread_count o + 1) o) ;;
  mret id.

(** The first slot with that [pid]; the slot must be in use. *)
Fixpoint find_pid (i p : Z) (l : list thread_data) : option (Z * thread_data) :=
  match l with
  | [] => None
  | t :: l' => if pid t =? p then Some (i, t) else find_pid (i + 1) p l'
  end.
Definition get_structure (p : Z) : M osal Z :=
  l ← gets thread_list;
  match find_pid 0 p l with
  | Some (i, t) => assert_ (used t) ;; mret i
  | None => mret (-1)
  end.

Definition delete_structure (id : Z) : M osal unit :=
  cap ← gets thread_capacity;
  assert_ (u32 id <? cap) ;;
  data ← get_thread id;
  assert_ (used data) ;;
  assert_ (handle_id data =? id) ;;
  pte_osSemaphoreDelete (start_sem data) ;;
  pte_osSemaphoreDelete (cancel_sem data) ;;
  modify (fun o => set_alloc (stack_free (stack data) (alloc o)) o) ;;
  put_thread id (mkThread (entryPoint data) (argv data) (stack data) (stack_size data) (-1)
                   (start_sem data) (cancel_sem data) (done data) false (handle_id data)) ;;
  modify (fun o => set_count (thread_count o - 1) o).

(** ** Threads *)

Definition gettid : M osal Z := gets self.
Definition pte_osThreadGetHandle : M osal Z := gettid.
(** [exit(0)] of the running thread. *)
Definition exit_thread : M osal unit := modify (fun o => set_exited (self o :: exited o) o).
Definition kill (tid sig : Z) : M osal unit := modify (fun o => set_killed ((tid, sig) :: killed o) o).

(** [thread_entry_stub] up to the wait for the resume command. *)
Definition thread_entry_stub : M osal (call pte_osResult) :=
  me ← pte_osThreadGetHandle;
  th_id ← get_structure me;
  assert_ (0 <=? th_id) ;;
  handle ← get_thread th_id;
  assert_ (used handle) ;;
  assert_ (done handle =? 0) ;;
  assert_ (pid handle =? me) ;;
  modify (set_tls ∅) ;;
  pte_osSemaphorePend (start_sem handle) None.

(** [self_destruct]; the mutex that guards the shared stack is free here. *)
Definition self_destruct : M osal unit :=
  me ← pte_osThreadGetHandle;
  id ← get_structure me;
  delete_structure id ;;
  exit_thread.

Definition pte_osInit : M osal pte_osResult :=
  modify (set_threads (replicate 16 thread0)) ;;
  modify (set_tls ∅) ;;
  modify (set_keys 0) ;;
  id ← alloc_structure 0;
  if id <? 0 then mret PTE_OS_NO_RESOURCES else
  assert_ (id =? 0) ;;
  t ← get_thread id;
  me ← gettid;
  put_thread id (mkThread (entryPoint t) (argv t) (stack t) (stack_size t) me (start_sem t) (cancel_sem t)
                   (done t) (used t) (handle_id t)) ;;
  mret PTE_OS_OK.

(** [pte_osThreadCreate] before [clone]: the slot of the new thread. *)
Definition thread_create_begin (entry stackSize arg : Z) : M osal Z :=
  let stackSize := if stackSize <? 0x1000 then 0x1000 else stackSize in
  id ← alloc_structure stackSize;
  if id <? 0 then mret id else
  handle ← get_thread id;
  assert_ (used handle) ;;
  put_thread id (mkThread entry arg (stack handle) (stack_size handle) (pid handle) (start_sem handle)
                   (cancel_sem handle) 0 (used handle) (handle_id handle)) ;;
  mret id.
(** [pte_osThreadCreate] after [clone] returned [ret]; [set_ok] is the outcome of
    [pte_osThreadSetPriority]. *)
Definition thread_create_end (id ret : Z) (set_ok : bool) : M osal (pte_osResult * Z) :=
  if ret <? 0 then delete_structure id ;; mret (PTE_OS_NO_RESOURCES, 0)
  else
    handle ← get_thread id;
    put_thread id (mkThread (entryPoint handle) (argv handle) (stack handle) (stack_size handle) ret
                     (start_sem handle) (cancel_sem handle) (done handle) (used handle) (handle_id handle)) ;;
    assert_ set_ok ;;
    mret (PTE_OS_OK, ret).
Definition pte_osThreadCreate (entry stackSize arg ret : Z) (set_ok : bool) : M osal (pte_osResult * Z) :=
  id ← thread_create_begin entry stackSize arg;
  if id <? 0 then mret (PTE_OS_NO_RESOURCES, 0) else thread_create_end id ret set_ok.

Definition pte_osThreadStart (handle : Z) : M osal pte_osResult :=
  th_id ← get_structure handle;
  if th_id <? 0 then mret PTE_OS_INVALID_PARAM else
  t ← get_thread th_id;
  pte_osSemaphorePost (start_sem t) 1.

Definition pte_osThreadDelete (handle : Z) : M osal pte_osResult :=
  me ← gettid;
  assert_ (negb (handle =? me)) ;;
  th_id ← get_structure handle;
  if th_id <? 0 then mret PTE_OS_INVALID_PARAM else
  t ← get_thread th_id;
  assert_ (negb (done t =? 0)) ;;
  delete_structure (handle_id t) ;;
  mret PTE_OS_OK.

Definition set_done (th_id : Z) : M osal unit :=
  t ← get_thread th_id;
  put_thread th_id (mkThread (entryPoint t) (argv t) (stack t) (stack_size t) (pid t) (start_sem t)
                      (cancel_sem t) 1 (used t) (handle_id t)).

Definition SIGTERM : Z := 15.
Definition pte_osThreadExitAndDelete (handle : Z) : M osal pte_osResult :=
  me ← gettid;
  if handle =? me then self_destruct ;; mret PTE_OS_OK else
  th_id ← get_structure handle;
  if th_id <? 0 then mret PTE_OS_INVALID_PARAM else
  set_done th_id ;;
  kill handle SIGTERM ;;
  pte_osThreadDelete handle ;;
  mret PTE_OS_OK.

Definition pte_osThreadExit : M osal unit :=
  me ← pte_osThreadGetHandle;
  th_id ← get_structure me;
  assert_ (0 <=? th_id) ;;
  set_done th_id ;;
  exit_thread.

(** One iteration of the loop of [pte_osThreadWaitForEnd]: [None] yields and loops.
    [self_id] is the slot of the caller, if it has one. *)
Definition wait_for_end_step (th_id : Z) (self_id : option Z) : M osal (option pte_osResult) :=
  data ← get_thread th_id;
  if negb (done data =? 0) then mret (Some PTE_OS_OK) else
  match self_id with
  | None => mret None
  | Some i =>
      t ← get_thread i;
      v ← lud_sem_getvalue (cancel_sem t);
      if v.1 =? 0 then (if 0 <? v.2 then mret (Some PTE_OS_INTERRUPTED) else mret None)
      else mret (Some PTE_OS_GENERAL_FAILURE)
  end.

Fixpoint wait_for_end_loop (env : list (osal -> osal)) (th_id : Z) (self_id : option Z) : M osal pte_osResult :=
  match env with
  | [] => fail OutOfFuel
  | others :: env =>
      r ← wait_for_end_step th_id self_id;
      match r with
      | Some r => mret r
      | None => modify others ;; wait_for_end_loop env th_id self_id
      end
  end.
(** [env] is what the other threads do during each yield. *)
Definition pte_osThreadWaitForEnd (env : list (osal -> osal)) (tid : Z) : M osal pte_osResult :=
  th_id ← get_structure tid;
  if th_id <? 0 then mret PTE_OS_INVALID_PARAM else
  me ← gettid;
  self_th_id ← get_structure me;
  wait_for_end_loop env th_id (if 0 <=? self_th_id then Some self_th_id else None).

Definition pte_osThreadCancel (handle : Z) : M osal pte_osResult :=
  th_id ← get_structure handle;
  assert_ (0 <=? th_id) ;;
  t ← get_thread th_id;
  pte_osSemaphorePost (cancel_sem t) 1 ;;
  mret PTE_OS_OK.

Definition pte_osThreadCheckCancel (handle : Z) : M osal pte_osResult :=
  th_id ← get_structure handle;
  assert_ (0 <=? th_id) ;;
  t ← get_thread th_id;
  v ← lud_sem_getvalue (cancel_sem t);
  mret (if negb (v.2 =? 0) then PTE_OS_INTERRUPTED else PTE_OS_OK).

(** The request [pte_osThreadSleep] passes to [nanosleep]. *)
Definition pte_osThreadSleep (msecs : Z) : Z * Z := (msecs / 1000, msecs mod 1000 * 1000000).

Definition OS_DEFAULT_PRIO : Z := 20.
Definition OS_MIN_PRIO : Z := 1.
Definition OS_MAX_PRIO : Z := 40.

(** ** The cancellable wait

    One iteration of the loop, with the clock reading [now] in milliseconds.  The
    poll of the semaphore comes before the test of the timeout. *)
Definition millis (tv_sec tv_nsec : Z) : Z := u32 (tv_sec * 1000 + Z.quot tv_nsec 1000000).
Definition pend_step (semHandle cancel_sem_id start_millisec now : Z) (pTimeout : option Z) :
    M osal (option pte_osResult) :=
  status ← lud_sem_trywait semHandle;
  match pTimeout with
  | Some t => if t <? u32 (now - start_millisec) then mret (Some PTE_OS_TIMEOUT) else
      if status =? 0 then mret (Some PTE_OS_OK)
      else
        v ← lud_sem_getvalue cancel_sem_id;
        if v.1 =? 0 then (if 0 <? v.2 then mret (Some PTE_OS_INTERRUPTED) else mret None)
        else mret (Some PTE_OS_GENERAL_FAILURE)
  | None =>
      if status =? 0 then mret (Some PTE_OS_OK)
      else
        v ← lud_sem_getvalue cancel_sem_id;
        if v.1 =? 0 then (if 0 <? v.2 then mret (Some PTE_OS_INTERRUPTED) else mret None)
        else mret (Some PTE_OS_GENERAL_FAILURE)
  end.
(** The loop over the clock readings, other threads acting between iterations
    through [env]. *)
Fixpoint pend_loop (env : list (Z * (osal -> osal))) (semHandle cancel_sem_id start_millisec : Z)
    (pTimeout : option Z) : M osal pte_osResult :=
  match env with
  | [] => fail OutOfFuel
  | (now, others) :: env =>
      r ← pend_step semHandle cancel_sem_id start_millisec now pTimeout;
      match r with
      | Some r => mret r
      | None => modify others ;; pend_loop env semHandle cancel_sem_id start_millisec pTimeout
      end
  end.
Definition pte_osSemaphoreCancellablePend (env : list (Z * (osal -> osal))) (semHandle start : Z)
    (pTimeout : option Z) : M osal pte_osResult :=
  me ← pte_osThreadGetHandle;
  th_id ← get_structure me;
  assert_ (0 <=? th_id) ;;
  data ← get_thread th_id;
  pend_loop env semHandle (cancel_sem data) start pTimeout.

(** ** Atomic operations on an [int]: the result and the new value *)
Definition pte_osAtomicExchange (targ val : Z) : Z * Z := (targ, val).
Definition pte_osAtomicCompareExchange (dest exchange comp : Z) : Z * Z :=
  if dest =? comp then (comp, exchange) else (dest, dest).
Definition pte_osAtomicExchangeAdd (addend value : Z) : Z * Z := (addend, s32 (addend + value)).
Definition pte_osAtomicDecrement (dest : Z) : Z * Z := (s32 (dest - 1), s32 (dest - 1)).
Definition pte_osAtomicIncrement (dest : Z) : Z * Z := (s32 (dest + 1), s32 (dest + 1)).

(** ** Thread-local storage *)
Definition pte_osTlsSetValue (key value : Z) : M osal pte_osResult :=
  n ← gets tls_key_count;
  assert_ (key <? n) ;;
  modify (fun o => set_tls (<[key := u32 value]> (tls o)) o) ;;
  mret PTE_OS_OK.
Definition pte_osTlsGetValue (key : Z) : M osal Z :=
  n ← gets tls_key_count;
  assert_ (key <? n) ;;
  gets (fun o => default 0 (tls o !! key)).
Definition pte_osTlsAlloc : M osal (pte_osResult * Z) :=
  key ← gets tls_key_count;
  modify (set_keys (u32 (key + 1))) ;;
  n ← gets tls_key_count;
  assert_ (n <? 0x1000 / 4) ;;
  pte_osTlsSetValue key 0 ;;
  mret (PTE_OS_OK, key).
Definition pte_osTlsFree (index : Z) : M osal pte_osResult :=
  pte_osTlsSetValue index 0 ;; mret PTE_OS_OK.

(** [ftime]: the fields of [struct timeb] from a clock reading. *)
Definition ftime (tv_sec tv_nsec : Z) : Z * Z := (tv_sec, Z.quot tv_nsec 1000000).

(** ** The table of threads: invariant *)

Definition n_used (l : list thread_data) : Z := Z.of_nat (length (filter (fun t => used t = true) l)).

(** A slot in use knows its own index, and [thread_count] counts the slots in use. *)
Definition table_ok (o : osal) : Prop :=
  (forall i t, thread_list o !! i = Some t -> used t = true -> handle_id t = Z.of_nat i) /\
  thread_count o = n_used (thread_list o).

Lemma n_used_cons t l : n_used (t :: l) = (if used t then 1 else 0) + n_used l.
Proof.
  unfold n_used. destruct (used t) eqn:E;
    [rewrite filter_cons_True by done|rewrite filter_cons_False by congruence]; simpl; lia.
Qed.

Lemma n_used_insert l i t t' :
  l !! i = Some t -> n_used (<[i := t']> l) = n_used l - (if used t then 1 else 0) + (if used t' then 1 else 0).
Proof.
  revert i. induction l as [|x l IH]; intros [|i] Hi; simpl in Hi; try done.
  - injection Hi as ->. change (<[0%nat := t']> (t :: l)) with (t' :: l). rewrite !n_used_cons. lia.
  - change (<[S i := t']> (x :: l)) with (x :: <[i := t']> l). rewrite !n_used_cons, (IH i Hi). lia.
Qed.

Lemma n_used_fresh k : n_used (replicate k thread0) = 0.
Proof. induction k as [|k IH]; [done|]. cbn [replicate]. rewrite n_used_cons, IH. done. Qed.

Lemma n_used_app l1 l2 : n_used (l1 ++ l2) = n_used l1 + n_used l2.
Proof. unfold n_used. rewrite filter_app, length_app. lia. Qed.

Lemma first_unused_spec i l :
  match first_unused i l with
  | Some j => i <= j /\ exists t, l !! Z.to_nat (j - i) = Some t /\ used t = false /\
      forall k t', (Z.of_nat k < j - i) -> l !! k = Some t' -> used t' = true
  | None => Forall (fun t => used t = true) l
  end.
Proof.
  revert i. induction l as [|t l IH]; intros i; cbn [first_unused]; [constructor|].
  destruct (used t) eqn:E; cbn [negb].
  - specialize (IH (i + 1)). destruct (first_unused (i + 1) l) as [j|]; [|by constructor].
    destruct IH as (Hj & t' & Ht & Hu & Hb). split; [lia|]. exists t'.
    replace (Z.to_nat (j - i)) with (S (Z.to_nat (j - (i + 1)))) by lia. split_and!; [done|done|].
    intros [|k] t'' Hk Hl; simpl in Hl; [congruence|]. apply (Hb k); [lia|done].
  - split; [lia|]. exists t. rewrite Z.sub_diag. split_and!; [done|done|]. intros; lia.
Qed.

(** The slots a search for a free one leaves: the table, grown by 16 if it was full. *)
Definition grown (l : list thread_data) : list thread_data :=
  match first_unused 0 l with Some _ => l | None => l ++ replicate 16 thread0 end.

Lemma find_free_pid_ok o :
  exists i t, find_free_pid 2 o = Done (Z.of_nat i, set_threads (grown (thread_list o)) o) /\
    grown (thread_list o) !! i = Some t /\ used t = false.
Proof.
  unfold grown. cbn [find_free_pid]. rewrite run_bind_gets.
  pose proof (first_unused_spec 0 (thread_list o)) as P.
  destruct (first_unused 0 (thread_list o)) as [j|] eqn:E.
  - destruct P as (Hj & t & Ht & Hu & _). rewrite Z.sub_0_r in Ht. exists (Z.to_nat j), t. rewrite Z2Nat.id by lia.
    split_and!; try done. by destruct o.
  - rewrite run_bind_modify, run_bind_gets. cbn [thread_list set_threads].
    assert (forall i l, Forall (fun t => used t = true) l ->
      first_unused i (l ++ replicate 16 thread0) = Some (i + Z.of_nat (length l))) as F.
    { intros i l Hl. revert i. induction Hl as [|t l Ht Hl IHl]; intros i; simpl; [f_equal; lia|].
      rewrite Ht. simpl. rewrite IHl. f_equal. lia. }
    rewrite F by done. exists (length (thread_list o)), thread0. split_and!; try done.
    rewrite lookup_app_r by lia. rewrite Nat.sub_diag. done.
Qed.

Lemma semaphore_create_run v o :
  exists id l', create_new_sem (u32 v) (sems o) = (id, l') /\
    pte_osSemaphoreCreate v o = Done ((PTE_OS_OK, id), set_sems l' o).
Proof.
  unfold pte_osSemaphoreCreate, lud_sem_init, sys_lud_sem_init. cbn [negb Z.eqb].
  destruct (create_new_sem (u32 v) (sems o)) as [id l'] eqn:E. exists id, l'. split; [done|].
  rewrite run_bind_bind, run_bind_gets. cbn. rewrite E. done.
Qed.

(** [alloc_structure] in one piece. *)
Lemma alloc_structure_run size o :
  exists i t p a s1 s2 l,
    grown (thread_list o) !! i = Some t /\ used t = false /\
    alloc_structure size o = Done (Z.of_nat i,
      mkOsal (<[i := mkThread (entryPoint t) (argv t) p size (pid t) s1 s2 (done t) true (Z.of_nat i)]>
                (grown (thread_list o)))
        (thread_count o + 1) (tls_key_count o) l (tls o) (self o) (exited o) (killed o) a).
Proof.
  destruct (find_free_pid_ok o) as (i & t & Ef & Ht & Hu).
  unfold alloc_structure. rewrite (run_bind_done _ _ _ _ _ Ef).
  set (o1 := set_threads _ o) in *.
  assert (get_thread (Z.of_nat i) o1 = Done (t, o1)) as Eg.
  { unfold get_thread, thread_capacity. subst o1. cbn [thread_list set_threads].
    assert (i < length (grown (thread_list o)))%nat by (by eapply lookup_lt_Some).
    rewrite (proj2 (Z.leb_le _ _)), (proj2 (Z.ltb_lt _ _)) by lia. cbn [andb]. by rewrite Nat2Z.id, Ht. }
  rewrite (run_bind_done _ _ _ _ _ Eg). rewrite Hu. cbn [negb]. rewrite run_assert_true, run_bind_gets.
  destruct (stack_malloc size (alloc o1)) as [p a]. rewrite run_bind_modify.
  destruct (semaphore_create_run 0 (set_alloc a o1)) as (s1 & l1 & _ & E1). rewrite (run_bind_done _ _ _ _ _ E1).
  match goal with |- context [(_ ≫= _) ?s] => destruct (semaphore_create_run 0 s) as (s2 & l2 & _ & E2) end.
  rewrite (run_bind_done _ _ _ _ _ E2). cbn [snd].
  exists i, t, p, a, s1, s2, l2. split_and!; [done|done|].
  unfold put_thread. rewrite run_bind_modify, run_bind_modify, run_ret. rewrite Nat2Z.id. done.
Qed.

Lemma grown_ok o : table_ok o ->
  (forall i t, grown (thread_list o) !! i = Some t -> used t = true -> handle_id t = Z.of_nat i) /\
  thread_count o = n_used (grown (thread_list o)).
Proof.
  intros [T1 T2]. unfold grown. destruct (first_unused 0 (thread_list o)); [done|]. split.
  - intros i t Hi Hu. apply lookup_app_Some in Hi as [Hi|[_ Hi]]; [by apply T1|].
    apply lookup_replicate in Hi as [-> _]. done.
  - rewrite n_used_app, n_used_fresh. lia.
Qed.

(** [alloc_structure] always finds a slot: it returns an index that was not in use,
    growing the table by 16 slots when it is full, marks it used with its own index as
    handle, and keeps the invariant of the table; no other slot changes. *)
Theorem alloc_structure_spec size o :
  table_ok o ->
  exists i t o', alloc_structure size o = Done (Z.of_nat i, o') /\ table_ok o' /\
    grown (thread_list o) !! i = Some t /\ used t = false /\
    (forall j, j <> i -> thread_list o' !! j = grown (thread_list o) !! j) /\
    exists t', thread_list o' !! i = Some t' /\ used t' = true /\ handle_id t' = Z.of_nat i /\
      stack_size t' = size /\ thread_count o' = thread_count o + 1.
Proof.
  intros T. destruct (grown_ok o T) as [G1 G2].
  destruct (alloc_structure_run size o) as (i & t & p & a & s1 & s2 & l & Ht & Hu & E).
  assert (i < length (grown (thread_list o)))%nat as Hlt by (by eapply lookup_lt_Some).
  eexists i, t, _. split; [exact E|]. cbn [thread_list thread_count]. split_and!; try done.
  - split; cbn [thread_list thread_count].
    + intros j t' Hj Hu'. destruct (decide (j = i)) as [->|].
      * rewrite list_lookup_insert_eq in Hj by done. injection Hj as <-. done.
      * rewrite list_lookup_insert_ne in Hj by done. by apply G1.
    + rewrite (n_used_insert _ _ t) by done. rewrite Hu. cbn. lia.
  - intros j Hj. by rewrite list_lookup_insert_ne.
  - eexists. rewrite list_lookup_insert_eq by done. split; [reflexivity|]. done.
Qed.

(** ** Deleting a thread *)

(** Nobody waits on the semaphore [id]. *)
Definition no_waiters (id : Z) (l : sem_list) : Prop :=
  match get_sem id l with Some s => wait_list s = [] | None => True end.

Lemma semaphore_delete_run id o :
  no_waiters id (sems o) ->
  exists r l', pte_osSemaphoreDelete id o = Done (r, set_sems l' o) /\
    forall j, no_waiters j (sems o) -> no_waiters j l'.
Proof.
  unfold no_waiters. intros Hn.
  unfold pte_osSemaphoreDelete, lud_sem_destroy, sys_lud_sem_destroy, mbind, M_bind. cbn [negb].
  destruct (get_sem id (sems o)) as [s|] eqn:E.
  - unfold destroy_sem. rewrite E. unfold destructor_ok. rewrite bool_decide_true by done. cbn.
    eexists _, _. split; [reflexivity|]. intros j Hj. revert Hj. unfold get_sem. rewrite length_insert.
    destruct (Z.of_nat (length (sems o)) <=? j); [done|]. destruct (decide (Z.to_nat j = Z.to_nat id)) as [->|].
    + destruct (decide (Z.to_nat id < length (sems o))%nat).
      * by rewrite list_lookup_insert_eq.
      * by rewrite list_insert_ge by lia.
    + by rewrite list_lookup_insert_ne by done.
  - cbn. eexists _, (sems o). split; [by destruct o|done].
Qed.

(** [delete_structure] of a slot in use, on whose semaphores nobody waits, frees it:
    the invariant of the table holds, the slot can be handed out again, its thread
    identifier can no longer be looked up there, and no other slot changes. *)
Theorem delete_structure_spec o i t :
  table_ok o -> thread_list o !! i = Some t -> used t = true -> Z.of_nat i < 2 ^ 32 ->
  no_waiters (start_sem t) (sems o) -> no_waiters (cancel_sem t) (sems o) ->
  exists o', delete_structure (Z.of_nat i) o = Done (tt, o') /\ table_ok o' /\
    (exists t', thread_list o' !! i = Some t' /\ used t' = false /\ pid t' = -1) /\
    (forall j, j <> i -> thread_list o' !! j = thread_list o !! j) /\
    thread_count o' = thread_count o - 1.
Proof.
  intros [T1 T2] Ht Hu Hi W1 W2. unfold delete_structure.
  assert (i < length (thread_list o))%nat as Hlt by (by eapply lookup_lt_Some).
  rewrite run_bind_gets. unfold thread_capacity. rewrite uwrap_small by lia.
  rewrite (proj2 (Z.ltb_lt _ _)) by lia. rewrite run_assert_true.
  assert (get_thread (Z.of_nat i) o = Done (t, o)) as Eg.
  { unfold get_thread, thread_capacity.
    rewrite (proj2 (Z.leb_le _ _)), (proj2 (Z.ltb_lt _ _)) by lia. cbn [andb]. by rewrite Nat2Z.id, Ht. }
  rewrite (run_bind_done _ _ _ _ _ Eg), Hu, run_assert_true, (T1 _ _ Ht Hu), Z.eqb_refl, run_assert_true.
  destruct (semaphore_delete_run _ o W1) as (r1 & l1 & E1 & K1). rewrite (run_bind_done _ _ _ _ _ E1).
  destruct (semaphore_delete_run (cancel_sem t) (set_sems l1 o)) as (r2 & l2 & E2 & _); [by apply K1|].
  rewrite (run_bind_done _ _ _ _ _ E2). unfold put_thread. rewrite !run_bind_modify. rewrite Nat2Z.id.
  eexists. split; [reflexivity|]. cbn [thread_list thread_count set_count set_threads set_alloc set_sems].
  split_and!; try done.
  - split; cbn [thread_list thread_count set_count set_threads set_alloc set_sems].
    + intros j t' Hj Hu'. destruct (decide (j = i)) as [->|].
      * rewrite list_lookup_insert_eq in Hj by done. injection Hj as <-. done.
      * rewrite list_lookup_insert_ne in Hj by done. by apply T1.
    + rewrite (n_used_insert _ _ t) by done. rewrite Hu. cbn. lia.
  - eexists. rewrite list_lookup_insert_eq by done. split; [reflexivity|]. done.
  - intros j Hj. by rewrite list_lookup_insert_ne.
Qed.

Lemma find_pid_none i p l : Forall (fun t => pid t <> p) l -> find_pid i p l = None.
Proof.
  intros F. revert i. induction F as [|t l Ht F IH]; intros i; cbn [find_pid]; [done|].
  rewrite (proj2 (Z.eqb_neq _ _) Ht). apply IH.
Qed.

Lemma Forall_insert_same {X} (P : X -> Prop) l i x : Forall P l -> P x -> Forall P (<[i := x]> l).
Proof. intros F Hx. apply Forall_insert; done. Qed.

(** The slots after the first half of [pte_osThreadCreate] hold no identifier that was
    not there before, but 0. *)
Lemma thread_create_begin_pids o entry stackSize arg child :
  child <> 0 -> Forall (fun t => pid t <> child) (thread_list o) ->
  exists id o1, thread_create_begin entry stackSize arg o = Done (id, o1) /\
    Forall (fun t => pid t <> child) (thread_list o1).
Proof.
  intros H0 F. unfold thread_create_begin. set (size := if stackSize <? 0x1000 then 0x1000 else stackSize).
  destruct (alloc_structure_run size o) as (i & t & p & a & s1 & s2 & l & Ht & Hu & E).
  assert (Forall (fun t => pid t <> child) (grown (thread_list o))) as G.
  { unfold grown. destruct (first_unused 0 (thread_list o)); [done|]. apply Forall_app. split; [done|].
    apply Forall_replicate. simpl. lia. }
  assert (i < length (grown (thread_list o)))%nat as Hlt by (by eapply lookup_lt_Some).
  assert (pid t <> child) as Hp by (by eapply (Forall_lookup_1 _ _ _ _ G)).
  rewrite (run_bind_done _ _ _ _ _ E). rewrite (proj2 (Z.ltb_ge _ _)) by lia.
  match type of E with _ = Done (_, ?s) => set (o' := s) in * end.
  assert (thread_list o' !! i = Some (mkThread (entryPoint t) (argv t) p size (pid t) s1 s2 (done t) true (Z.of_nat i))) as Hl.
  { subst o'. cbn [thread_list]. by rewrite list_lookup_insert_eq. }
  assert (get_thread (Z.of_nat i) o' = Done (mkThread (entryPoint t) (argv t) p size (pid t) s1 s2 (done t) true (Z.of_nat i), o')) as Eg.
  { unfold get_thread, thread_capacity. assert (i < length (thread_list o'))%nat by (by eapply lookup_lt_Some).
    rewrite (proj2 (Z.leb_le _ _)), (proj2 (Z.ltb_lt _ _)) by lia. cbn [andb]. by rewrite Nat2Z.id, Hl. }
  rewrite (run_bind_done _ _ _ _ _ Eg). cbn [used]. rewrite run_assert_true. unfold put_thread.
  rewrite run_bind_modify, run_ret. eexists _, _. split; [reflexivity|]. cbn [thread_list set_threads].
  apply Forall_insert_same; [|done]. subst o'. cbn [thread_list]. by apply Forall_insert_same.
Qed.

(** the thread that [clone] starts looks its own identifier up in the table, and the
    creator stores it there only after [clone] has returned: a child with a new
    identifier that is scheduled in between fails an assertion. *)
Theorem thread_entry_race o entry stackSize arg child :
  child <> 0 -> Forall (fun t => pid t <> child) (thread_list o) ->
  exists id o1, thread_create_begin entry stackSize arg o = Done (id, o1) /\
    thread_entry_stub
      (mkOsal (thread_list o1) (thread_count o1) (tls_key_count o1) (sems o1) (tls o1) child (exited o1)
         (killed o1) (alloc o1)) = Fault AssertFailed.
Proof.
  intros H0 F. destruct (thread_create_begin_pids o entry stackSize arg child H0 F) as (id & o1 & E & F1).
  exists id, o1. split; [done|]. unfold thread_entry_stub, pte_osThreadGetHandle, gettid. rewrite run_bind_gets.
  unfold get_structure. rewrite run_bind_bind, run_bind_gets. cbn [thread_list self].
  by rewrite find_pid_none.
Qed.

(** [pte_osSemaphoreCancellablePend] polls the semaphore before it tests the
    timeout: when the time is up, a unit taken by the poll is lost and the caller
    is told [PTE_OS_TIMEOUT]. *)
Theorem pend_timeout_takes_unit o semHandle cancel start now t s :
  0 <= semHandle -> get_sem semHandle (sems o) = Some s -> 0 < counter s -> t < u32 (now - start) ->
  exists o', pend_step semHandle cancel start now (Some t) o = Done (Some PTE_OS_TIMEOUT, o') /\
    get_sem semHandle (sems o') = Some (mkSem (counter s - 1) (wait_list s)).
Proof.
  intros Hh Hg Hc Ht. unfold pend_step, lud_sem_trywait. rewrite run_bind_bind, run_bind_gets.
  unfold sys_lud_sem_trywait. cbn [negb]. rewrite Hg. unfold try_wait.
  rewrite (proj2 (Z.leb_gt _ _)) by lia. rewrite run_bind_bind, run_bind_modify, run_bind_ret.
  rewrite (proj2 (Z.ltb_lt _ _) Ht). eexists. split; [reflexivity|]. cbn [sems set_sems].
  unfold get_sem in *. rewrite length_insert. destruct (Z.leb_spec (Z.of_nat (length (sems o))) semHandle); [done|].
  rewrite list_lookup_insert_eq by lia. done.
Qed.

(** thread-local storage: the value set under an allocated key is read back, other
    keys keep their values, and a new key is one that was never handed out, with
    value 0. *)
Theorem tls_set_get o key value key' :
  key < tls_key_count o -> key' < tls_key_count o -> 0 <= value < 2 ^ 32 ->
  exists o', pte_osTlsSetValue key value o = Done (PTE_OS_OK, o') /\
    pte_osTlsGetValue key o' = Done (value, o') /\
    (key' <> key -> exists v, pte_osTlsGetValue key' o = Done (v, o) /\ pte_osTlsGetValue key' o' = Done (v, o')) /\
    (tls_key_count o + 1 < 1024 -> 0 <= tls_key_count o -> exists o2,
       pte_osTlsAlloc o' = Done ((PTE_OS_OK, tls_key_count o), o2) /\
       pte_osTlsGetValue (tls_key_count o) o2 = Done (0, o2) /\ pte_osTlsGetValue key o2 = Done (value, o2)).
Proof.
  intros Hk Hk' Hv. unfold pte_osTlsSetValue, pte_osTlsGetValue. eexists.
  rewrite run_bind_gets, (proj2 (Z.ltb_lt _ _) Hk), run_assert_true, run_bind_modify. split; [reflexivity|].
  rewrite uwrap_small by done. split; [|split].
  - rewrite run_bind_gets. cbn [tls_key_count set_tls]. rewrite (proj2 (Z.ltb_lt _ _) Hk), run_assert_true.
    unfold gets. cbn [tls set_tls]. by rewrite lookup_insert_eq.
  - intros Hne. eexists. rewrite !run_bind_gets. cbn [tls_key_count set_tls].
    rewrite (proj2 (Z.ltb_lt _ _) Hk'), !run_assert_true. split; [reflexivity|].
    unfold gets. cbn [tls set_tls]. by rewrite lookup_insert_ne.
  - intros Hn H0. unfold pte_osTlsAlloc. rewrite run_bind_gets, run_bind_modify, run_bind_gets.
    cbn [tls_key_count set_tls set_keys]. rewrite uwrap_small by lia. change (0x1000 / 4) with 1024.
    rewrite (proj2 (Z.ltb_lt _ _) Hn), run_assert_true. unfold pte_osTlsSetValue.
    rewrite run_bind_bind, run_bind_gets. cbn [tls_key_count set_tls set_keys].
    assert ((tls_key_count o <? tls_key_count o + 1) = true) as E by (apply Z.ltb_lt; lia).
    assert ((key <? tls_key_count o + 1) = true) as E' by (apply Z.ltb_lt; lia).
    rewrite E, run_bind_bind, run_assert_true, run_bind_bind, run_bind_modify, run_bind_ret, run_ret.
    eexists. split; [reflexivity|]. rewrite !run_bind_gets. cbn [tls_key_count set_tls set_keys tls].
    rewrite E, E', !run_assert_true. unfold gets. cbn [tls set_tls set_keys].
    by rewrite lookup_insert_eq, lookup_insert_ne, lookup_insert_eq by lia.
Qed.
End Osal.
Arguments osal A : clear implicits.

(** ** Witnesses *)

(** Stacks taken one after the other. *)
#[export] Instance bump_stacks : StackAlloc Z := {
  stack_malloc size a := (a, a + size);
  stack_free _ a := a;
}.
Definition osal0 : osal Z := mkOsal (replicate 16 thread0) 0 3 [] ∅ 1 [] [] 0x200000.
Definition osal1 : osal Z := match alloc_structure 0x1000 osal0 with Done (_, o) => o | Fault _ => osal0 end.

Lemma osal0_ok : table_ok osal0.
Proof.
  split; [|reflexivity]. intros i t Hi. apply lookup_replicate in Hi as [-> _]. done.
Qed.

Lemma alloc_structure_spec_witness :
  exists i o', alloc_structure 0x1000 osal0 = Done (Z.of_nat i, o') /\ table_ok o'.
Proof.
  destruct (alloc_structure_spec 0x1000 osal0 osal0_ok) as (i & t & o' & E & T & _). by exists i, o'.
Defined.

Lemma osal1_ok : table_ok osal1.
Proof.
  split; [|vm_compute; reflexivity]. intros [|i] t; [by intros [= <-]|].
  change (thread_list osal1 !! S i) with (replicate 15 thread0 !! i).
  intros Hi. apply lookup_replicate in Hi as [-> _]. done.
Qed.

Lemma delete_structure_spec_witness :
  exists o', delete_structure 0 osal1 = Done (tt, o') /\ table_ok o'.
Proof.
  destruct (delete_structure_spec osal1 0 _ osal1_ok eq_refl eq_refl ltac:(lia) eq_refl eq_refl)
    as (o' & E & T & _).
  by exists o'.
Defined.

Lemma thread_entry_race_witness :
  exists id o1, thread_create_begin 7 0x1000 9 osal1 = Done (id, o1) /\
    thread_entry_stub
      (mkOsal (thread_list o1) (thread_count o1) (tls_key_count o1) (sems o1) (tls o1) 42 (exited o1)
         (killed o1) (alloc o1)) = Fault AssertFailed.
Proof. apply (thread_entry_race osal1 7 0x1000 9 42); [lia|]. repeat constructor; done. Defined.

Lemma pend_timeout_takes_unit_witness :
  exists o', pend_step 0 1 0 100 (Some 50)
      (set_sems [Some (Semaphore 1); Some (Semaphore 0)] osal0) = Done (Some PTE_OS_TIMEOUT, o') /\
    get_sem 0 (sems o') = Some (mkSem 0 []).
Proof.
  apply (pend_timeout_takes_unit (set_sems [Some (Semaphore 1); Some (Semaphore 0)] osal0) 0 1 0 100 50 (Semaphore 1));
    (reflexivity || lia).
Defined.

Lemma tls_set_get_witness :
  exists o', pte_osTlsSetValue 1 77 osal0 = Done (PTE_OS_OK, o') /\ pte_osTlsGetValue 1 o' = Done (77, o').
Proof.
  destruct (tls_set_get osal0 1 77 2 ltac:(reflexivity) ltac:(reflexivity) ltac:(lia)) as (o' & E & G & _).
  by exists o'.
Defined.
End PteOsal.
