(* ===== verification/PteSem.v ===== *)
(** * PteSem: POSIX semaphores of the thread library

    [userland/external/pthread-embedded/sem_*.c].  A semaphore has its own [value],
    negative when threads wait, and an OS semaphore on which they block; [tokens]
    is the count of the latter.  The code between the lock and the unlock of
    [s->lock] is one atomic step; a wait that must block is two steps, before and
    after the wait for the OS semaphore. *)
From stdpp Require Import base list.
From Stdlib Require Import ZArith Lia.
From S2P Require Import Prelude Errno Semaphore PteOsal.
Import Errno PteOsal.

Module PteSem.

Definition SEM_VALUE_MAX : Z := 2 ^ 31 - 1.

(** [struct sem_t_] with the count of its OS semaphore; [None] is a NULL [sem_t]. *)
Record sem_t := mkSemT { value : Z; tokens : Z }.

(** The return value and [errno]; [errno] 0 is "not set". *)
Definition ret (result : Z) : Z * Z := if negb (result =? 0) then (-1, result) else (0, 0).

(** [calloc_ok], [mutex_ok] and [os_ok]: whether the allocation, the mutex and the OS
    semaphore could be had. *)
Definition sem_init (calloc_ok mutex_ok os_ok : bool) (pshared v : Z) : Z * Z * option sem_t :=
  if negb (pshared =? 0) then (ret EPERM, None)
  else if SEM_VALUE_MAX <? v then (ret EINVAL, None)
  else if negb calloc_ok then (ret ENOMEM, None)
  else if mutex_ok then
    if os_ok then (ret 0, Some (mkSemT v 0)) else (ret ENOSPC, None)
  else (ret ENOSPC, None).

(** [delete_ok]: the OS semaphore could be deleted. *)
Definition sem_destroy (delete_ok : bool) (s : option sem_t) : Z * Z * option sem_t :=
  match s with
  | None => (ret EINVAL, None)
  | Some s =>
      if value s <? 0 then (ret EBUSY, Some s)
      else if negb delete_ok then (ret EINVAL, Some s)
      else (ret 0, None)
  end.

(** [os_ok]: the outcome of [pte_osSemaphorePost]; the OS semaphore is posted whether or
    not a thread waits. *)
Definition sem_post (os_ok : bool) (s : option sem_t) : Z * Z * option sem_t :=
  match s with
  | None => (ret EINVAL, None)
  | Some s =>
      if value s <? SEM_VALUE_MAX then
        let t := if os_ok then tokens s + 1 else tokens s in
        let v := value s + 1 in
        if (v <=? 0) && negb os_ok then (ret EINVAL, Some (mkSemT (v - 1) t))
        else (ret 0, Some (mkSemT v t))
      else (ret ERANGE, Some s)
  end.

Definition sem_post_multiple (count : Z) (s : option sem_t) : Z * Z * option sem_t :=
  match s with
  | None => (ret EINVAL, None)
  | Some s =>
      if count <=? 0 then (ret EINVAL, Some s)
      else if value s <=? SEM_VALUE_MAX - count then
        let waiters := - value s in
        let t := if 0 <? waiters then tokens s + (if waiters <=? count then waiters else count) else tokens s in
        (ret 0, Some (mkSemT (value s + count) t))
      else (ret ERANGE, Some s)
  end.

Definition sem_trywait (s : option sem_t) : Z * Z * option sem_t :=
  match s with
  | None => (ret EINVAL, None)
  | Some s => if 0 <? value s then (ret 0, Some (mkSemT (value s - 1) (tokens s))) else (ret EAGAIN, Some s)
  end.

(** [sem_wait] up to the point where the thread must wait: [None] for the result. *)
Definition sem_wait_begin (s : option sem_t) : option (Z * Z) * option sem_t :=
  match s with
  | None => (Some (ret EINVAL), None)
  | Some s =>
      let v := value s - 1 in
      (if v <? 0 then None else Some (ret 0), Some (mkSemT v (tokens s)))
  end.

(** [pte_cancellable_wait]: the error number for the result of the OS call.  A thread
    that is cancelled does not return from it ([None]); [canceling] says that its
    cancellation is already under way. *)
Definition pte_cancellable_wait (is_pthread canceling : bool) (osResult : pte_osResult) : option Z :=
  match osResult with
  | PTE_OS_OK => Some 0
  | PTE_OS_TIMEOUT => Some ETIMEDOUT
  | PTE_OS_INTERRUPTED => if is_pthread && negb canceling then None else Some EINVAL
  | _ => Some EINVAL
  end.

(** The wait for the OS semaphore succeeded. *)
Definition os_pend (s : sem_t) : option sem_t :=
  if 0 <? tokens s then Some (mkSemT (value s) (tokens s - 1)) else None.

(** [pte_sem_wait_cleanup], run when the wait was cancelled or failed. *)
Definition pte_sem_wait_cleanup (s : sem_t) : sem_t :=
  match os_pend s with Some s' => s' | None => mkSemT (value s + 1) (tokens s) end.

(** [pte_sem_timedwait_cleanup]: the result becomes 0 when a token was there. *)
Definition pte_sem_timedwait_cleanup (result : Z) (s : sem_t) : Z * sem_t :=
  match os_pend s with Some s' => (0, s') | None => (result, mkSemT (value s + 1) (tokens s)) end.

(** [sem_wait] after [pte_cancellable_wait] returned [result]. *)
Definition sem_wait_end (result : Z) (s : sem_t) : Z * Z * sem_t :=
  (ret result, if negb (result =? 0) then pte_sem_wait_cleanup s else s).
Definition sem_timedwait_end (result : Z) (s : sem_t) : Z * Z * sem_t :=
  if negb (result =? 0)
  then let '(result, s) := pte_sem_timedwait_cleanup result s in (ret result, s)
  else (ret 0, s).
(** [sem_wait_nocancel] ignores the outcome of its wait. *)
Definition sem_wait_nocancel_end (s : sem_t) : Z * Z * sem_t := (ret 0, s).

Definition sem_getvalue (s : option sem_t) : Z * Z * option Z :=
  match s with
  | None => (-1, EINVAL, None)
  | Some s => (0, 0, Some (value s))
  end.

(** [pte_relmillisecs]: the milliseconds from now to [abstime]; the current time in
    milliseconds is kept in a 32-bit [long]. *)
Definition pte_relmillisecs (abs_sec abs_nsec now_sec now_millitm : Z) : Z :=
  let tmpAbs := s64 (abs_sec * 1000 + Z.quot (abs_nsec + 500000) 1000000) in
  let tmpCurr := s32 (s32 (now_sec * 1000) + now_millitm) in
  if tmpCurr <? tmpAbs then
    let milliseconds := u32 (tmpAbs - tmpCurr) in
    if milliseconds =? 0xFFFFFFFF then milliseconds - 1 else milliseconds
  else 0.

(** ** Runs

    [waiting]: threads between the two halves of a wait; [acquired], [posted]: ghost
    counters. *)
Record run := mkRun { s : sem_t; waiting : Z; acquired : Z; posted : Z }.

(** The steps of a semaphore; [single] allows [sem_post], otherwise posts are made with
    [sem_post_multiple]. *)
Inductive step (single : bool) : run -> run -> Prop :=
  | st_wait_now x x' w a p :
      sem_wait_begin (Some x) = (Some (ret 0), Some x') -> step single (mkRun x w a p) (mkRun x' w (a + 1) p)
  | st_wait_block x x' w a p :
      sem_wait_begin (Some x) = (None, Some x') -> step single (mkRun x w a p) (mkRun x' (w + 1) a p)
  | st_wake x x' w a p :
      0 < w -> os_pend x = Some x' -> step single (mkRun x w a p) (mkRun x' (w - 1) (a + 1) p)
  | st_cancel_taken x x' w a p :
      0 < w -> os_pend x = Some x' -> step single (mkRun x w a p) (mkRun (pte_sem_wait_cleanup x) (w - 1) (a + 1) p)
  | st_cancel x w a p :
      0 < w -> os_pend x = None -> step single (mkRun x w a p) (mkRun (pte_sem_wait_cleanup x) (w - 1) a p)
  | st_try x x' w a p :
      sem_trywait (Some x) = (ret 0, Some x') -> step single (mkRun x w a p) (mkRun x' w (a + 1) p)
  | st_post_multiple count x x' w a p :
      sem_post_multiple count (Some x) = (ret 0, Some x') ->
      step single (mkRun x w a p) (mkRun x' w a (p + count))
  | st_post x x' w a p :
      single = true -> sem_post true (Some x) = (ret 0, Some x') ->
      step single (mkRun x w a p) (mkRun x' w a (p + 1)).

Inductive reachable (single : bool) (v : Z) : run -> Prop :=
  | reach_init : reachable single v (mkRun (mkSemT v 0) 0 0 0)
  | reach_step r r' : reachable single v r -> step single r r' -> reachable single v r'.

(** The value counts what is left; the waiters without a token are [- value]. *)
Definition sem_ok (v : Z) (r : run) : Prop :=
  value (s r) = v + posted r - acquired r - waiting r /\
  waiting r - tokens (s r) = Z.max 0 (- value (s r)) /\ 0 <= tokens (s r).

Lemma os_pend_inv x x' : os_pend x = Some x' -> 0 < tokens x /\ x' = mkSemT (value x) (tokens x - 1).
Proof. unfold os_pend. destruct (Z.ltb_spec 0 (tokens x)); [|done]. by intros [= <-]. Qed.

Lemma os_pend_none x : os_pend x = None -> tokens x <= 0.
Proof. unfold os_pend. by destruct (Z.ltb_spec 0 (tokens x)). Qed.

Lemma step_ok v r r' : sem_ok v r -> step false r r' -> sem_ok v r'.
Proof.
  intros (I1 & I2 & I3) St. unfold sem_ok.
  destruct St as [x x' w a p E|x x' w a p E|x x' w a p Hw E|x x' w a p Hw E|x w a p Hw E|x x' w a p E|count x x' w a p E|];
    cbn [s waiting acquired posted] in *; [..|done].
  - cbn in E. destruct (Z.ltb_spec (value x - 1) 0); [done|]. injection E as <-. cbn [value tokens]. lia.
  - cbn in E. destruct (Z.ltb_spec (value x - 1) 0); [|done]. injection E as <-. cbn [value tokens]. lia.
  - apply os_pend_inv in E as [Ht ->]. cbn [value tokens]. lia.
  - unfold pte_sem_wait_cleanup. rewrite E. apply os_pend_inv in E as [Ht ->]. cbn [value tokens]. lia.
  - unfold pte_sem_wait_cleanup. rewrite E. apply os_pend_none in E. cbn [value tokens]. lia.
  - cbn in E. destruct (Z.ltb_spec 0 (value x)); [|done]. injection E as <-. cbn [value tokens]. lia.
  - cbn in E. destruct (Z.leb_spec count 0); [done|]. destruct (Z.leb_spec (value x) (SEM_VALUE_MAX - count)); [|done].
    injection E as <-. cbn [value tokens].
    destruct (Z.ltb_spec 0 (- value x)); [destruct (Z.leb_spec (- value x) count)|]; lia.
Qed.

(** with posts made by [sem_post_multiple], in every interleaving of waits,
    cancellations, [sem_trywait] and posts, no more units are taken than the initial
    value plus the posts; and a thread is left waiting without a token only when
    nothing is left to take. *)
Theorem sem_post_multiple_safe v r :
  0 <= v -> reachable false v r ->
  acquired r <= v + posted r /\ (tokens (s r) < waiting r -> acquired r + tokens (s r) = v + posted r).
Proof.
  intros Hv Hr. assert (sem_ok v r) as (I1 & I2 & I3).
  { induction Hr as [|r r' Hr IH St]; [|by eapply step_ok]. unfold sem_ok. simpl. lia. }
  lia.
Qed.

(** [sem_post] posts the OS semaphore even when no thread waits, and the token stays:
    from value 0, one [sem_post] lets two calls of [sem_wait] succeed. *)
Theorem sem_post_overcounts :
  exists r, reachable true 0 r /\ posted r = 1 /\ acquired r = 2 /\ waiting r = 0.
Proof.
  exists (mkRun (mkSemT (-1) 0) 0 2 1). split; [|done].
  eapply reach_step; [eapply reach_step; [eapply reach_step; [eapply reach_step; [apply reach_init|]|]|]|].
  - apply st_post; reflexivity.
  - apply st_wait_now. reflexivity.
  - apply st_wait_block. reflexivity.
  - apply (st_wake _ (mkSemT (-1) 1) (mkSemT (-1) 0) 1 1 1); [lia|reflexivity].
Qed.

Lemma s32_mod a : exists k, s32 a = a + k * 2 ^ 32.
Proof.
  unfold swrap. exists (- ((a + 2 ^ (32 - 1)) / 2 ^ 32)). pose proof (Z.div_mod (a + 2 ^ (32 - 1)) (2 ^ 32)). lia.
Qed.

(** for a deadline ahead of now by less than [2^31] milliseconds, at a date past 24
    days after the epoch, the timeout is the distance to the deadline; but the clock
    reading is cut to 32 bits, and a deadline in the past gives a timeout of almost
    [2^32] milliseconds instead of 0. *)
Theorem relmillisecs_wraps abs_sec now_sec :
  2 ^ 31 <= abs_sec * 1000 -> abs_sec * 1000 < 2 ^ 62 -> 0 <= now_sec ->
  (0 <= abs_sec * 1000 - now_sec * 1000 < 2 ^ 31 ->
   pte_relmillisecs abs_sec 0 now_sec 0 = abs_sec * 1000 - now_sec * 1000) /\
  (- 2 ^ 31 < abs_sec * 1000 - now_sec * 1000 < -1 ->
   pte_relmillisecs abs_sec 0 now_sec 0 = 2 ^ 32 + (abs_sec * 1000 - now_sec * 1000)).
Proof.
  intros H1 H2 H3. unfold pte_relmillisecs. change (Z.quot (0 + 500000) 1000000) with 0.
  rewrite Z.add_0_r, (swrap_small 64) by lia. rewrite Z.add_0_r.
  rewrite (swrap_small 32 (s32 _)) by (try lia; by apply swrap_range).
  pose proof (swrap_range 32 (now_sec * 1000) ltac:(lia)) as R.
  destruct (s32_mod (now_sec * 1000)) as [k Hk].
  rewrite (proj2 (Z.ltb_lt _ _)) by lia. rewrite Hk.
  assert (forall d, d = abs_sec * 1000 - now_sec * 1000 -> u32 (abs_sec * 1000 - (now_sec * 1000 + k * 2 ^ 32)) = u32 d) as E.
  { intros d ->. unfold uwrap. rewrite <- (Z.mod_add _ k) by lia. f_equal. lia. }
  rewrite (E _ eq_refl). split; intros Hd.
  - rewrite uwrap_small by lia. rewrite (proj2 (Z.eqb_neq _ _)) by lia. done.
  - assert (u32 (abs_sec * 1000 - now_sec * 1000) = 2 ^ 32 + (abs_sec * 1000 - now_sec * 1000)) as ->.
    { unfold uwrap. rewrite <- (Z.mod_add _ 1) by lia. rewrite Z.mod_small; lia. }
    rewrite (proj2 (Z.eqb_neq _ _)) by lia. done.
Qed.

Lemma sem_post_multiple_safe_witness : 1 <= 0 + 2.
Proof.
  apply (sem_post_multiple_safe 0 (mkRun (mkSemT 1 0) 0 1 2)); [lia|].
  eapply reach_step; [eapply reach_step; [apply reach_init|]|].
  - apply (st_post_multiple _ 2). reflexivity.
  - apply st_wait_now. reflexivity.
Defined.

Lemma relmillisecs_wraps_witness :
  pte_relmillisecs 1500000001 0 1500000000 0 = 1000 /\ pte_relmillisecs 1500000000 0 1500000001 0 = 2 ^ 32 - 1000.
Proof.
  split; [apply (relmillisecs_wraps 1500000001 1500000000); lia|apply (relmillisecs_wraps 1500000000 1500000001); lia].
Defined.
End PteSem.
