(* ===== verification/PteMutex.v ===== *)
(** * PteMutex: mutexes of the thread library

    [userland/external/pthread-embedded/pthread_mutex_*.c].  The word [lock_idx] is 0
    when the mutex is free, 1 when it is held and -1 when it is held and threads may
    wait for the OS semaphore [handle], the kernel's semaphore of [Semaphore].  Each atomic
    exchange and each step of the semaphore is one step here, so that all interleavings of the
    threads, which are processes of the kernel, are runs of the model; the holder's
    plain writes of [recursive_count] and [ownerThread] go with its exchange (another
    thread only compares [ownerThread] with itself, and is never the one written). *)
From stdpp Require Import base list fin_maps.
From Stdlib Require Import ZArith Lia.
From S2P Require Import Prelude Errno Semaphore PteOsal PteSem.
Import Errno PteOsal.

Module PteMutex.

Inductive mutex_kind := PTHREAD_MUTEX_NORMAL | PTHREAD_MUTEX_RECURSIVE | PTHREAD_MUTEX_ERRORCHECK.
#[export] Instance mutex_kind_eq_dec : EqDecision mutex_kind.
Proof. solve_decision. Defined.

(** [struct pthread_mutex_t_]. *)
Record mutex := mkMutex {
  kind : mutex_kind;
  lock_idx : Z;
  recursive_count : Z;
  ownerThread : option Z;
  handle : Semaphore.semaphore;
}.
Definition set_lock (v : Z) (m : mutex) : mutex :=
  mkMutex (kind m) v (recursive_count m) (ownerThread m) (handle m).
Definition set_owner (rc : Z) (o : option Z) (m : mutex) : mutex :=
  mkMutex (kind m) (lock_idx m) rc o (handle m).
Definition set_handle (s : Semaphore.semaphore) (m : mutex) : mutex :=
  mkMutex (kind m) (lock_idx m) (recursive_count m) (ownerThread m) s.
Definition new_mutex (k : mutex_kind) : mutex := mkMutex k 0 0 None (Semaphore.Semaphore 0).

(** [pthread_mutex_init]; [attr] is the kind of the attribute object, if any. *)
Definition pthread_mutex_init (calloc_ok : bool) (attr : option mutex_kind) : Z * option mutex :=
  if negb calloc_ok then (ENOMEM, None)
  else (0, Some (new_mutex (default PTHREAD_MUTEX_NORMAL attr))).

(** The value of a [pthread_mutex_t] variable. *)
Inductive mutex_var :=
  | NullMutex
  | StaticMutex (k : mutex_kind)
  | InitMutex (m : mutex).

(** [pte_mutex_check_need_init], under the lock of the library. *)
Definition pte_mutex_check_need_init (calloc_ok : bool) (v : mutex_var) : Z * mutex_var :=
  match v with
  | StaticMutex k =>
      match pthread_mutex_init calloc_ok (if bool_decide (k = PTHREAD_MUTEX_NORMAL) then None else Some k) with
      | (r, Some m) => (r, InitMutex m)
      | (r, None) => (r, NullMutex)
      end
  | NullMutex => (EINVAL, NullMutex)
  | InitMutex m => (0, InitMutex m)
  end.

(** What the next action of a thread inside the library is. *)
Inductive next := Return (result : Z) | Spin | Pend | Post.

(** The first exchange of [pthread_mutex_lock]. *)
Definition lock_enter (self : Z) (m : mutex) : next * mutex :=
  match kind m with
  | PTHREAD_MUTEX_NORMAL => (if negb (lock_idx m =? 0) then Spin else Return 0, set_lock 1 m)
  | _ =>
      if lock_idx m =? 0 then (Return 0, set_owner 1 (Some self) (set_lock 1 m))
      else if bool_decide (ownerThread m = Some self) then
        if bool_decide (kind m = PTHREAD_MUTEX_RECURSIVE)
        then (Return 0, set_owner (recursive_count m + 1) (ownerThread m) m)
        else (Return EDEADLK, m)
      else (Spin, m)
  end.

(** One turn of [while (PTE_ATOMIC_EXCHANGE(&mx->lock_idx, -1) != 0)]. *)
Definition lock_spin (self : Z) (m : mutex) : next * mutex :=
  if negb (lock_idx m =? 0) then (Pend, set_lock (-1) m)
  else (Return 0,
        match kind m with
        | PTHREAD_MUTEX_NORMAL => set_lock (-1) m
        | _ => set_owner 1 (Some self) (set_lock (-1) m)
        end).

Definition pthread_mutex_trylock (self : Z) (m : mutex) : Z * mutex :=
  if lock_idx m =? 0 then
    (0, match kind m with
        | PTHREAD_MUTEX_NORMAL => set_lock 1 m
        | _ => set_owner 1 (Some self) (set_lock 1 m)
        end)
  else if bool_decide (kind m = PTHREAD_MUTEX_RECURSIVE) && bool_decide (ownerThread m = Some self)
  then (0, set_owner (recursive_count m + 1) (ownerThread m) m)
  else (EBUSY, m).

(** [pthread_mutex_unlock] up to the post of the OS semaphore. *)
Definition unlock_begin (self : Z) (m : mutex) : next * mutex :=
  match kind m with
  | PTHREAD_MUTEX_NORMAL =>
      (if negb (lock_idx m =? 0) then (if lock_idx m <? 0 then Post else Return 0) else Return EPERM,
       set_lock 0 m)
  | _ =>
      if bool_decide (ownerThread m = Some self) then
        let rc := if bool_decide (kind m = PTHREAD_MUTEX_RECURSIVE) then recursive_count m - 1 else recursive_count m in
        if negb (bool_decide (kind m = PTHREAD_MUTEX_RECURSIVE)) || (rc =? 0)
        then (if lock_idx m <? 0 then Post else Return 0, set_owner rc None (set_lock 0 m))
        else (Return 0, set_owner rc (ownerThread m) m)
      else (Return EPERM, m)
  end.
(** [pte_osSemaphorePost]. *)
Definition unlock_post (m : mutex) : mutex := set_handle (Semaphore.post (handle m)) m.

(** [pthread_mutex_destroy] of an initialised mutex, run by one thread alone. *)
Definition pthread_mutex_destroy (self : Z) (m : mutex) : Z * mutex_var :=
  let '(result, m1) := pthread_mutex_trylock self m in
  if result =? 0 then
    if negb (bool_decide (kind m1 = PTHREAD_MUTEX_RECURSIVE)) || (recursive_count m1 =? 1) then
      match unlock_begin self m1 with
      | (Return r, m2) => if r =? 0 then (0, NullMutex) else (r, InitMutex m2)
      | (_, _) => (0, NullMutex)
      end
    else (EBUSY, InitMutex (set_owner (recursive_count m1 - 1) (ownerThread m1) m1))
  else (result, InitMutex m1).
(** The operations on a variable.  A destroyed mutex is a NULL pointer, which
    [pthread_mutex_lock] tests for and the others dereference; a static one that was
    never used is just cleared by [pthread_mutex_destroy]. *)
Definition mutex_var_destroy (self : Z) (v : mutex_var) : outcome (Z * mutex_var) :=
  match v with
  | NullMutex => Fault BadAccess
  | StaticMutex _ => Done (0, NullMutex)
  | InitMutex m => Done (pthread_mutex_destroy self m)
  end.
Definition mutex_var_unlock (self : Z) (v : mutex_var) : outcome (next * mutex_var) :=
  match v with
  | NullMutex => Fault BadAccess
  | StaticMutex _ => Done (Return EINVAL, v)
  | InitMutex m => let '(n, m) := unlock_begin self m in Done (n, InitMutex m)
  end.
Definition mutex_var_trylock (calloc_ok : bool) (self : Z) (v : mutex_var) : outcome (Z * mutex_var) :=
  match v with
  | NullMutex => Fault BadAccess
  | _ =>
      match pte_mutex_check_need_init calloc_ok v with
      | (0, InitMutex m) => let '(r, m) := pthread_mutex_trylock self m in Done (r, InitMutex m)
      | (result, v) => Done (result, v)
      end
  end.

(** [pte_timed_eventwait]; [pend] is the OS call with its timeout in milliseconds.  Only
    a timeout is an error: after any other failure the caller goes on. *)
Definition pte_timed_eventwait (pend : option Z -> pte_osResult) (abstime : option (Z * Z)) (now : Z * Z) : Z :=
  let status := match abstime with
                | None => pend None
                | Some (sec, nsec) => pend (Some (PteSem.pte_relmillisecs sec nsec now.1 now.2))
                end in
  if bool_decide (status = PTE_OS_TIMEOUT) then ETIMEDOUT else 0.

(** The body of the loop of [pthread_mutex_lock] after its wait ended with [status] ... *)
Definition lock_waited (status : pte_osResult) : next :=
  if negb (bool_decide (status = PTE_OS_OK)) then Return EINVAL else Spin.
(** ... and that of [pthread_mutex_timedlock], which is the same function but for its wait. *)
Definition timedlock_waited (abstime : option (Z * Z)) (now : Z * Z) (status : pte_osResult) : next :=
  let result := pte_timed_eventwait (fun _ => status) abstime now in
  if negb (result =? 0) then Return result else Spin.

(** The result of [pte_osSemaphorePend] when the wait in the kernel returned [r]. *)
Definition pend_status (r : Z) : pte_osResult :=
  if r =? EOK then PTE_OS_OK else if r =? ETIMEDOUT then PTE_OS_TIMEOUT else PTE_OS_GENERAL_FAILURE.

(** [pthread_mutex_lock] of a variable, up to its first exchange. *)
Definition pthread_mutex_lock (calloc_ok : bool) (self : Z) (v : mutex_var) : next * mutex_var :=
  match v with
  | NullMutex => (Return EINVAL, v)
  | _ =>
      match pte_mutex_check_need_init calloc_ok v with
      | (0, InitMutex m) => let '(n, m) := lock_enter self m in (n, InitMutex m)
      | (result, v) => (Return result, v)
      end
  end.

(** ** Runs *)

(** Where a thread is: out of the library, before an exchange of the loop, before the wait for the semaphore, in
    the list of its waiters, with the mutex, before the post. *)
Inductive pc := Idle | AtSpin | AtPend | AtWait | Critical | AtPost.
#[export] Instance pc_eq_dec : EqDecision pc.
Proof. solve_decision. Defined.

Record sys := mkSys { mx : mutex; pcs : Z -> pc }.
Definition upd (f : Z -> pc) (t : Z) (p : pc) : Z -> pc := fun t' => if decide (t' = t) then p else f t'.

(** How the wait of a lock or of a timed lock goes on; [timed] tells whether threads use timed locks. *)
Inductive waited (timed : bool) (status : pte_osResult) : next -> Prop :=
  | w_lock : waited timed status (lock_waited status)
  | w_timed abstime now : timed = true -> waited timed status (timedlock_waited abstime now status).
Definition goes_to (n : next) : pc := match n with Return _ => Idle | _ => AtSpin end.

Inductive step (timed : bool) : sys -> sys -> Prop :=
  | st_enter_ok t m m' f :
      f t = Idle -> lock_enter t m = (Return 0, m') -> step timed (mkSys m f) (mkSys m' (upd f t Critical))
  | st_enter_spin t m m' f :
      f t = Idle -> lock_enter t m = (Spin, m') -> step timed (mkSys m f) (mkSys m' (upd f t AtSpin))
  | st_relock t m m' f r :
      f t = Critical -> kind m <> PTHREAD_MUTEX_NORMAL -> lock_enter t m = (Return r, m') ->
      step timed (mkSys m f) (mkSys m' f)
  | st_spin_ok t m m' f :
      f t = AtSpin -> lock_spin t m = (Return 0, m') -> step timed (mkSys m f) (mkSys m' (upd f t Critical))
  | st_spin_wait t m m' f :
      f t = AtSpin -> lock_spin t m = (Pend, m') -> step timed (mkSys m f) (mkSys m' (upd f t AtPend))
  | st_wait_now t m h f n :
      f t = AtPend -> Semaphore.wait_begin t (handle m) = (false, h) -> waited timed PTE_OS_OK n ->
      step timed (mkSys m f) (mkSys (set_handle h m) (upd f t (goes_to n)))
  | st_wait_block t m h f :
      f t = AtPend -> Semaphore.wait_begin t (handle m) = (true, h) ->
      step timed (mkSys m f) (mkSys (set_handle h m) (upd f t AtWait))
  | st_wait_end t m h f r n :
      f t = AtWait -> Semaphore.wait_end t (handle m) = Some (r, h) -> waited timed (pend_status r) n ->
      step timed (mkSys m f) (mkSys (set_handle h m) (upd f t (goes_to n)))
  | st_timeout t m h f :
      timed = true -> f t = AtWait -> Semaphore.remove_timed_out_process t (handle m) = Some h ->
      step timed (mkSys m f) (mkSys (set_handle h m) f)
  | st_poll t m h f b n :
      timed = true -> f t = AtPend -> Semaphore.try_wait (handle m) = (b, h) ->
      waited timed (if b then PTE_OS_OK else PTE_OS_TIMEOUT) n ->
      step timed (mkSys m f) (mkSys (set_handle h m) (upd f t (goes_to n)))
  | st_wait_fails t m f n :
      timed = true -> f t = AtPend -> waited timed PTE_OS_GENERAL_FAILURE n ->
      step timed (mkSys m f) (mkSys m (upd f t (goes_to n)))
  | st_try t m m' f :
      f t = Idle -> pthread_mutex_trylock t m = (0, m') -> step timed (mkSys m f) (mkSys m' (upd f t Critical))
  | st_try_held t m m' f r :
      f t = Critical -> pthread_mutex_trylock t m = (r, m') -> step timed (mkSys m f) (mkSys m' f)
  | st_unlock t m m' f :
      f t = Critical -> unlock_begin t m = (Return 0, m') ->
      step timed (mkSys m f) (mkSys m' (if lock_idx m' =? 0 then upd f t Idle else f))
  | st_unlock_post t m m' f :
      f t = Critical -> unlock_begin t m = (Post, m') -> step timed (mkSys m f) (mkSys m' (upd f t AtPost))
  | st_post t m f :
      f t = AtPost -> step timed (mkSys m f) (mkSys (unlock_post m) (upd f t Idle)).

Inductive reachable (timed : bool) (k : mutex_kind) : sys -> Prop :=
  | reach_init : reachable timed k (mkSys (new_mutex k) (fun _ => Idle))
  | reach_step s s' : reachable timed k s -> step timed s s' -> reachable timed k s'.

(** The holder: at most one thread is in its critical section, and some thread is
    exactly when [lock_idx] is not 0; a mutex with an owner names the holder. *)
Record mutex_inv (s : sys) : Prop := {
  mi_free : lock_idx (mx s) = 0 -> forall t, pcs s t <> Critical;
  mi_held : lock_idx (mx s) <> 0 -> exists t, pcs s t = Critical;
  mi_one t1 t2 : pcs s t1 = Critical -> pcs s t2 = Critical -> t1 = t2;
  mi_owner : kind (mx s) <> PTHREAD_MUTEX_NORMAL -> forall t, pcs s t = Critical -> ownerThread (mx s) = Some t;
  mi_no_owner : lock_idx (mx s) = 0 \/ kind (mx s) = PTHREAD_MUTEX_NORMAL -> ownerThread (mx s) = None;
  mi_count : kind (mx s) = PTHREAD_MUTEX_RECURSIVE -> lock_idx (mx s) <> 0 -> 1 <= recursive_count (mx s);
}.

(** ** Mutual exclusion *)

(** The changes a step makes to the mutex: the thread takes it, ... *)
Definition acquires (t : Z) (m m' : mutex) : Prop :=
  lock_idx m = 0 /\ lock_idx m' <> 0 /\ kind m' = kind m /\
  (kind m = PTHREAD_MUTEX_NORMAL -> ownerThread m' = ownerThread m) /\
  (kind m <> PTHREAD_MUTEX_NORMAL -> ownerThread m' = Some t /\ recursive_count m' = 1).
(** ... nobody takes or leaves it, ... *)
Definition keeps (m m' : mutex) : Prop :=
  (lock_idx m = 0 -> lock_idx m' = 0) /\ (lock_idx m' = 0 -> lock_idx m = 0) /\
  kind m' = kind m /\ ownerThread m' = ownerThread m /\
  (1 <= recursive_count m -> kind m = PTHREAD_MUTEX_RECURSIVE -> 1 <= recursive_count m').
(** ... or the holder leaves it. *)
Definition releases (m m' : mutex) : Prop :=
  lock_idx m' = 0 /\ kind m' = kind m /\
  (kind m = PTHREAD_MUTEX_NORMAL -> ownerThread m' = ownerThread m) /\
  (kind m <> PTHREAD_MUTEX_NORMAL -> ownerThread m' = None).

Lemma upd_self f t p : upd f t p t = p.
Proof. unfold upd. by rewrite decide_True. Qed.
Lemma upd_ne f t p t' : t' <> t -> upd f t p t' = f t'.
Proof. intros; unfold upd. by rewrite decide_False. Qed.
Lemma upd_inv f t p t' q : upd f t p t' = q -> (t' = t /\ p = q) \/ (t' <> t /\ f t' = q).
Proof. unfold upd. case_decide; auto. Qed.

Ltac upd_cases :=
  repeat match goal with H : upd _ _ _ _ = _ |- _ => apply upd_inv in H as [[-> ?]|[? H]] end.

Lemma inv_acquire t m m' f :
  mutex_inv (mkSys m f) -> acquires t m m' -> mutex_inv (mkSys m' (upd f t Critical)).
Proof.
  intros [Hf Hh H1 Ho Hi Hc] (L & L' & K & On & Oo); cbn in *.
  pose proof (Hf L) as Hno.
  split; cbn.
  - congruence.
  - intros _. exists t. apply upd_self.
  - intros t1 t2 A B. upd_cases; try congruence; by edestruct Hno.
  - rewrite K. intros Kn u A. upd_cases; [by apply Oo|by edestruct Hno].
  - rewrite K. intros [?|E]; [congruence|]. rewrite On by done. by apply Hi; left.
  - rewrite K. intros E _. destruct Oo as [_ ->]; [congruence|lia].
Qed.

Lemma inv_keep m m' f : mutex_inv (mkSys m f) -> keeps m m' -> mutex_inv (mkSys m' f).
Proof.
  intros [Hf Hh H1 Ho Hi Hc] (L & L' & K & O & R); cbn in *.
  split; cbn; rewrite ?K, ?O; auto.
  - intros [?|?]; apply Hi; auto.
  - intros E N. apply R; auto.
Qed.

Lemma inv_move t p m f :
  mutex_inv (mkSys m f) -> f t <> Critical -> p <> Critical -> mutex_inv (mkSys m (upd f t p)).
Proof.
  intros [Hf Hh H1 Ho Hi Hc] F P; cbn in *.
  assert (E : forall u, upd f t p u = Critical -> f u = Critical).
  { intros u A. upd_cases; [done|done]. }
  split; cbn; auto.
  - intros A u B%E. by eapply Hf.
  - intros A. destruct (Hh A) as [u Hu]. exists u. rewrite upd_ne; [done|congruence].
Qed.

Lemma inv_wait t p m m' f :
  mutex_inv (mkSys m f) -> f t <> Critical -> p <> Critical -> keeps m m' -> mutex_inv (mkSys m' (upd f t p)).
Proof. intros I F P K. apply inv_move; auto. by eapply inv_keep. Qed.

Lemma inv_release t p m m' f :
  mutex_inv (mkSys m f) -> f t = Critical -> p <> Critical -> releases m m' -> mutex_inv (mkSys m' (upd f t p)).
Proof.
  intros [Hf Hh H1 Ho Hi Hc] F P (L & K & On & O); cbn in *.
  assert (E : forall u, upd f t p u <> Critical).
  { intros u A. upd_cases; [done|]. by eapply H1 in F; [|exact A]. }
  split; cbn; try congruence.
  intros _. destruct (decide (kind m = PTHREAD_MUTEX_NORMAL)) as [N|N]; [|by apply O].
  rewrite On by done. auto.
Qed.

(** What each operation does, in these terms. *)
Ltac op_cases := intros;
  unfold lock_enter, lock_spin, pthread_mutex_trylock, unlock_begin, acquires, keeps, releases in *;
  repeat (case_bool_decide || case_match); simplify_eq;
  cbn [negb orb andb kind lock_idx ownerThread recursive_count handle set_lock set_owner set_handle unlock_post] in *;
  rewrite ?Z.eqb_eq, ?Z.eqb_neq, ?Z.ltb_lt, ?Z.ltb_ge in *; try done.

Lemma lock_enter_ok t m m' : lock_enter t m = (Return 0, m') -> ownerThread m <> Some t -> acquires t m m'.
Proof. op_cases; repeat split; auto; try congruence; lia. Qed.

Lemma lock_enter_spin t m m' : lock_enter t m = (Spin, m') -> keeps m m'.
Proof. op_cases; repeat split; auto; try congruence; lia. Qed.
Lemma lock_enter_again t m m' r :
  kind m <> PTHREAD_MUTEX_NORMAL -> ownerThread m = Some t -> lock_idx m <> 0 ->
  lock_enter t m = (Return r, m') -> keeps m m'.
Proof. op_cases; repeat split; auto; try congruence; lia. Qed.
Lemma lock_spin_ok t m m' : lock_spin t m = (Return 0, m') -> acquires t m m'.
Proof. op_cases; repeat split; auto; try congruence; lia. Qed.
Lemma lock_spin_wait t m m' : lock_spin t m = (Pend, m') -> keeps m m'.
Proof. op_cases; repeat split; auto; try congruence; lia. Qed.
Lemma set_handle_keeps h m : keeps m (set_handle h m).
Proof. op_cases. Qed.
Lemma trylock_held t m r m' : lock_idx m <> 0 -> pthread_mutex_trylock t m = (r, m') -> keeps m m'.
Proof. op_cases; repeat split; auto; try congruence; lia. Qed.
Lemma goes_to_outside n : goes_to n <> Critical.
Proof. by destruct n. Qed.
Lemma trylock_ok t m m' : ownerThread m <> Some t -> pthread_mutex_trylock t m = (0, m') -> acquires t m m'.
Proof. op_cases; repeat split; auto; try congruence; lia. Qed.
Lemma unlock_post_keeps m : keeps m (unlock_post m).
Proof. op_cases; repeat split; auto; try congruence; lia. Qed.
Lemma unlock_begin_post t m m' : unlock_begin t m = (Post, m') -> releases m m' /\ lock_idx m < 0.
Proof. op_cases; repeat split; auto; try congruence; lia. Qed.
Lemma unlock_begin_ok t m m' :
  unlock_begin t m = (Return 0, m') -> lock_idx m <> 0 ->
  (kind m = PTHREAD_MUTEX_RECURSIVE -> 1 <= recursive_count m) ->
  (releases m m' /\ 0 < lock_idx m) \/ (keeps m m' /\ lock_idx m' = lock_idx m).
Proof. op_cases; (right; repeat split; auto; congruence || lia) || (left; repeat split; auto; congruence || lia). Qed.

Lemma inv_not_owner m f t : mutex_inv (mkSys m f) -> f t <> Critical -> ownerThread m <> Some t.
Proof.
  intros I F O. destruct (decide (lock_idx m = 0 \/ kind m = PTHREAD_MUTEX_NORMAL)) as [E|E].
  - pose proof (mi_no_owner _ I E). cbn in *. congruence.
  - destruct (mi_held _ I) as [u Hu]; [naive_solver|].
    pose proof (mi_owner _ I ltac:(naive_solver) u Hu). cbn in *. congruence.
Qed.
Lemma inv_critical m f t : mutex_inv (mkSys m f) -> f t = Critical -> lock_idx m <> 0.
Proof. intros I F L. by eapply (mi_free _ I). Qed.

Lemma inv_step timed s s' : mutex_inv s -> step timed s s' -> mutex_inv s'.
Proof.
  intros I St. pose proof goes_to_outside. pose proof set_handle_keeps.
  destruct St as [t m m' f F E|t m m' f F E|t m m' f r F K E|t m m' f F E|t m m' f F E
    |t m h f n F E W|t m h f F E|t m h f r n F E W|t m h f T F E|t m h f b n T F E W|t m f n T F W
    |t m m' f F E|t m m' f r F E|t m m' f F E|t m m' f F E|t m f F].
  - eapply inv_acquire; [done|]. eapply lock_enter_ok; [done|]. eapply inv_not_owner; [done|congruence].
  - eapply inv_wait; [done|congruence|done|]. by eapply lock_enter_spin.
  - eapply inv_keep; [done|]. eapply lock_enter_again; [done| |by eapply inv_critical|done].
    by apply (mi_owner _ I).
  - eapply inv_acquire; [done|]. by eapply lock_spin_ok.
  - eapply inv_wait; [done|congruence|done|]. by eapply lock_spin_wait.
  - eapply inv_wait; [done|congruence|auto|auto].
  - eapply inv_wait; [done|congruence|done|auto].
  - eapply inv_wait; [done|congruence|auto|auto].
  - eapply inv_keep; [done|auto].
  - eapply inv_wait; [done|congruence|auto|auto].
  - eapply inv_move; [done|congruence|auto].
  - eapply inv_acquire; [done|]. eapply trylock_ok; [|done]. eapply inv_not_owner; [done|congruence].
  - eapply inv_keep; [done|]. eapply trylock_held; [by eapply inv_critical|done].
  - pose proof (inv_critical _ _ _ I F) as L.
    destruct (unlock_begin_ok _ _ _ E L) as [[R _]|[K Q]].
    + intros. by apply (mi_count _ I).
    + destruct R as [L' R]. rewrite L'. by eapply inv_release; [..|split].
    + rewrite Q. rewrite (proj2 (Z.eqb_neq _ _) L). by eapply inv_keep.
  - eapply inv_release; [done|done|done|]. by eapply unlock_begin_post.
  - eapply inv_wait; [done|congruence|done|]. apply unlock_post_keeps.
Qed.

Lemma reachable_inv timed k s : reachable timed k s -> mutex_inv s.
Proof.
  induction 1; [|by eapply inv_step].
  by split; cbn.
Qed.

(** ** No waiter is forgotten, without timeouts *)

Abbreviation waiters := (fun m => map Semaphore.proc (Semaphore.wait_list (handle m))).
Definition woken (l : list Semaphore.wait_entry) : bool :=
  match l with e :: _ => (match Semaphore.proc_status e with Semaphore.Active => true | Semaphore.IOWait => false end) | [] => false end.

(** The list of the semaphore: it has the threads that wait, once each; nobody times out and only the first can
    have been woken up; and the units posted cover the wait that is about to end. *)
Record queue_ok (s : sys) : Prop := {
  q_waits t : pcs s t = AtWait <-> t ∈ waiters (mx s);
  q_nodup : NoDup (waiters (mx s));
  q_timeouts : Forall (fun e => Semaphore.timed_out e = false) (Semaphore.wait_list (handle (mx s)));
  q_front : Forall (fun e => Semaphore.proc_status e = Semaphore.IOWait) (tail (Semaphore.wait_list (handle (mx s))));
  q_count : (if woken (Semaphore.wait_list (handle (mx s))) then 1 else 0) <=
    Semaphore.counter (handle (mx s)) + Z.of_nat (length (Semaphore.wait_list (handle (mx s))));
}.
(** Somebody will post the semaphore, or was woken up. *)
Definition wakes (s : sys) : Prop :=
  lock_idx (mx s) = -1 \/ (exists t, pcs s t = AtSpin \/ pcs s t = AtPost) \/ woken (Semaphore.wait_list (handle (mx s))) = true.
Definition no_lost_wakeup (s : sys) : Prop :=
  (Semaphore.wait_list (handle (mx s)) <> [] -> wakes s) /\
  forall t, pcs s t = AtPend -> wakes s \/ 0 < Semaphore.counter (handle (mx s)).

Lemma queue_other m m' f t p : queue_ok (mkSys m f) -> handle m' = handle m -> f t <> AtWait -> p <> AtWait -> queue_ok (mkSys m' (upd f t p)).
Proof.
  intros [Q1 Q2 Q3 Q4 Q5] H F P. cbn in *. split; cbn; rewrite H; try done. intros t'. rewrite <- Q1. unfold upd. case_decide; [by subst|done].
Qed.
Lemma queue_same m m' f : queue_ok (mkSys m f) -> handle m' = handle m -> queue_ok (mkSys m' f).
Proof. intros [] H. cbn in *. by split; cbn; rewrite H. Qed.

(** A step that leaves the semaphore alone. *)
Lemma wakes_other m m' f t p :
  f t <> AtSpin -> f t <> AtPost -> lock_idx m <> -1 \/ lock_idx m' = -1 -> handle m' = handle m ->
  wakes (mkSys m f) -> wakes (mkSys m' (upd f t p)).
Proof.
  unfold wakes; cbn. intros A B L -> [W|[[u W]|W]].
  - left. by destruct L.
  - right; left. exists u. rewrite upd_ne; [done|intros ->; destruct W; congruence].
  - right; by right.
Qed.
Lemma lost_other m m' f t p :
  no_lost_wakeup (mkSys m f) -> f t <> AtSpin -> f t <> AtPost -> p <> AtPend -> lock_idx m <> -1 \/ lock_idx m' = -1 ->
  handle m' = handle m -> no_lost_wakeup (mkSys m' (upd f t p)).
Proof.
  intros [N1 N2] A B P L H. cbn in *. split; cbn; rewrite H.
  - intros X. by eapply wakes_other, N1.
  - intros u U. upd_cases; [done|]. destruct (N2 u U) as [W|W]; [left; by eapply wakes_other|by right].
Qed.
Lemma lost_wakes s : wakes s -> no_lost_wakeup s.
Proof. split; auto. Qed.

Lemma lock_spin_sets t m r m' : lock_spin t m = (r, m') -> lock_idx m' = -1.
Proof. op_cases. Qed.
Lemma op_handle t m r m' : lock_enter t m = (r, m') \/ unlock_begin t m = (r, m') \/ lock_spin t m = (r, m') -> handle m' = handle m.
Proof. intros [?|[?|?]]; op_cases. Qed.
Lemma trylock_handle t m r m' : pthread_mutex_trylock t m = (r, m') -> handle m' = handle m.
Proof. op_cases. Qed.
Lemma trylock_lock t m r m' : lock_idx m <> 0 -> pthread_mutex_trylock t m = (r, m') -> lock_idx m' = lock_idx m.
Proof. op_cases. Qed.
Lemma relock_lock t m r m' : kind m <> PTHREAD_MUTEX_NORMAL -> lock_idx m <> 0 -> ownerThread m = Some t ->
  lock_enter t m = (Return r, m') -> lock_idx m' = lock_idx m.
Proof. op_cases. Qed.

Lemma take_entry_in t l e l' : Semaphore.take_entry t l = Some (e, l') -> e ∈ l /\ Semaphore.proc e = t.
Proof.
  revert e l'. induction l as [|x l IH]; intros e l'; cbn [Semaphore.take_entry]; [done|].
  destruct (Z.eqb_spec (Semaphore.proc x) t); [intros [= <- <-]; split; [left|done]|].
  destruct (Semaphore.take_entry t l) as [[y r]|]; [|done]. intros [= <- <-]. destruct (IH y r eq_refl). split; [by right|done].
Qed.
(** Only the first of the list can end its wait. *)
Lemma wait_end_front t h r h' : Forall (fun e => Semaphore.proc_status e = Semaphore.IOWait) (tail (Semaphore.wait_list h)) ->
  Forall (fun e => Semaphore.timed_out e = false) (Semaphore.wait_list h) -> Semaphore.wait_end t h = Some (r, h') ->
  r = EOK /\ Semaphore.counter h' = Semaphore.counter h /\ woken (Semaphore.wait_list h) = true /\
  exists e, Semaphore.proc e = t /\ Semaphore.wait_list h = e :: Semaphore.wait_list h'.
Proof.
  intros Fr Ti E. apply Semaphore.wait_end_inv in E as (C & e & T & A & ->).
  destruct (take_entry_in _ _ _ _ T) as [In Pe].
  assert (Semaphore.timed_out e = false) as -> by (rewrite Forall_forall in Ti; by apply Ti).
  destruct (Semaphore.wait_list h) as [|x l]; [done|]. cbn [Semaphore.take_entry tail] in *.
  destruct (Z.eqb_spec (Semaphore.proc x) t).
  - injection T as <- <-. split_and!; try done; [cbn; by rewrite A|by exists x].
  - destruct (Semaphore.take_entry t l) as [[y l']|] eqn:T'; [|done]. injection T as <- <-.
    destruct (take_entry_in _ _ _ _ T') as [In' _]. rewrite Forall_forall in Fr. rewrite Fr in A; done.
Qed.

Lemma waited_ok n : waited false PTE_OS_OK n -> goes_to n = AtSpin.
Proof. by inversion 1. Qed.

Lemma queue_step s s' : mutex_inv s -> queue_ok s -> no_lost_wakeup s -> step false s s' -> queue_ok s' /\ no_lost_wakeup s'.
Proof.
  intros I Q N St. destruct St as [t m m' f F E|t m m' f F E|t m m' f r F K E|t m m' f F E|t m m' f F E
    |t m h f n F E W|t m h f F E|t m h f r n F E W|t m h f T F E|t m h f b n T F E W|t m f n T F W
    |t m m' f F E|t m m' f r F E|t m m' f F E|t m m' f F E|t m f F]; try done.
  - assert (handle m' = handle m) as H by (eapply op_handle; eauto).
    assert (A : acquires t m m') by (eapply lock_enter_ok; [done|]; eapply inv_not_owner; [done|congruence]). destruct A as [L _].
    split; [by eapply queue_other; [..|congruence|]|eapply lost_other; try eassumption; try congruence; left; lia].
  - assert (handle m' = handle m) as H by (eapply op_handle; eauto). split; [by eapply queue_other; [..|congruence|]|].
    apply lost_wakes. right; left. exists t. left. apply upd_self.
  - assert (handle m' = handle m) as H by (eapply op_handle; eauto). split; [by eapply queue_same|].
    assert (lock_idx m' = lock_idx m) as L by (eapply relock_lock; [done|by eapply inv_critical|by apply (mi_owner _ I)|done]).
    unfold no_lost_wakeup, wakes in *. cbn in *. by rewrite H, L.
  - assert (handle m' = handle m) as H by (eapply op_handle; eauto). split; [by eapply queue_other; [..|congruence|]|].
    apply lost_wakes. left. by eapply lock_spin_sets.
  - assert (handle m' = handle m) as H by (eapply op_handle; eauto). split; [by eapply queue_other; [..|congruence|]|].
    apply lost_wakes. left. by eapply lock_spin_sets.
  - rewrite (waited_ok _ W). split; [|apply lost_wakes; right; left; exists t; left; apply upd_self].
    injection E as E <-. apply Z.leb_gt in E. destruct Q as [Q1 Q2 Q3 Q4 Q5]. cbn in *. split; cbn; rewrite ?(proj2 (Z.leb_gt _ _) E); try done.
    + intros t'. rewrite <- Q1. unfold upd. case_decide; [subst; by rewrite F|done].
    + destruct (woken _) eqn:Wk; [|lia]. destruct (Semaphore.wait_list (handle m)); [done|cbn [length] in *; lia].
  - pose proof (proj2 N t F) as Np. injection E as E <-. destruct Q as [Q1 Q2 Q3 Q4 Q5]. cbn in *.
    assert (Nt : t ∉ map Semaphore.proc (Semaphore.wait_list (handle m))) by (intros X%Q1; congruence).
    assert (Wa : woken (Semaphore.wait_list (handle m) ++ [Semaphore.Entry t false Semaphore.IOWait]) = woken (Semaphore.wait_list (handle m)))
      by (by destruct (Semaphore.wait_list (handle m))).
    split; [split; cbn; rewrite ?E|].
    + intros t'. rewrite map_app, elem_of_app, <- Q1. cbn. rewrite list_elem_of_singleton. unfold upd. case_decide; [subst; tauto|tauto].
    + rewrite map_app. apply NoDup_app. split_and!; [done| |apply NoDup_singleton]. intros x Hx ->%list_elem_of_singleton. done.
    + apply Forall_app. split; [done|by constructor].
    + destruct (Semaphore.wait_list (handle m)); [constructor|]. cbn in *. apply Forall_app. split; [done|by constructor].
    + rewrite Wa, length_app. cbn. lia.
    + apply lost_wakes. apply Z.leb_le in E. destruct Np as [Np|Np]; [|lia]. unfold wakes in *. cbn in *.
      rewrite (proj2 (Z.leb_le _ _) E), Wa. destruct Np as [Np|[[u Np]|Np]]; [by left|right; left|by right; right].
      exists u. rewrite upd_ne; [done|intros ->; destruct Np; congruence].
  - destruct Q as [Q1 Q2 Q3 Q4 Q5]. cbn in *. destruct (wait_end_front t (handle m) r h Q4 Q3 E) as (-> & C & Wk & e & Pe & L).
    rewrite (waited_ok _ W). split; [|apply lost_wakes; right; left; exists t; left; apply upd_self]. rewrite L in *. cbn in *.
    apply NoDup_cons in Q2 as [Ne Q2]. rewrite Pe in *. apply Forall_cons in Q3 as [_ Q3]. split; cbn; try done.
    + intros t'. specialize (Q1 t'). rewrite elem_of_cons in Q1. unfold upd. case_decide as D; [subst t'; split; [done|by intros ?]|]. tauto.
    + by apply Forall_tail.
    + assert (woken (Semaphore.wait_list h) = false) as ->; [|rewrite Wk in Q5; lia].
      destruct (Semaphore.wait_list h) as [|y l]; [done|]. apply Forall_cons in Q4 as [Q4 _]. cbn. by rewrite Q4.
  - assert (handle m' = handle m) as H by (by eapply trylock_handle).
    assert (A : acquires t m m') by (eapply trylock_ok; [|done]; eapply inv_not_owner; [done|congruence]). destruct A as [L _].
    split; [by eapply queue_other; [..|congruence|]|eapply lost_other; try eassumption; try congruence; left; lia].
  - assert (handle m' = handle m) as H by (by eapply trylock_handle). split; [by eapply queue_same|].
    assert (lock_idx m' = lock_idx m) as L by (eapply trylock_lock; [by eapply inv_critical|done]).
    unfold no_lost_wakeup, wakes in *. cbn in *. by rewrite H, L.
  - assert (handle m' = handle m) as H by (eapply op_handle; eauto). pose proof (inv_critical _ _ _ I F) as L.
    destruct (unlock_begin_ok _ _ _ E L) as [[R P]|[K Q']].
    + intros. by apply (mi_count _ I).
    + destruct R as [L' R]. rewrite L'. cbn. split; [by eapply queue_other; [..|congruence|]|].
      eapply lost_other; try eassumption; try congruence. left; lia.
    + rewrite Q', (proj2 (Z.eqb_neq _ _) L). split; [by eapply queue_same|].
      unfold no_lost_wakeup, wakes in *. cbn in *. by rewrite H, Q'.
  - assert (handle m' = handle m) as H by (eapply op_handle; eauto). split; [by eapply queue_other; [..|congruence|]|].
    apply lost_wakes. right; left. exists t. right. apply upd_self.
  - destruct Q as [Q1 Q2 Q3 Q4 Q5]. cbn in *.
    assert (Pr : map Semaphore.proc (Semaphore.wait_list (Semaphore.post (handle m))) = map Semaphore.proc (Semaphore.wait_list (handle m)))
      by (cbn; by destruct (Semaphore.wait_list (handle m))).
    split; [split|split]; cbn [mx pcs unlock_post handle set_handle]; rewrite ?Pr.
    + intros t'. rewrite <- Q1. unfold upd. case_decide; [subst; by rewrite F|done].
    + done.
    + cbn. destruct (Semaphore.wait_list (handle m)); [done|]. apply Forall_cons in Q3 as [Q3 Q3']. by constructor.
    + cbn. by destruct (Semaphore.wait_list (handle m)).
    + cbn. destruct (Semaphore.wait_list (handle m)) as [|e l]; cbn in *; [lia|]. destruct (Semaphore.proc_status e); lia.
    + cbn. intros X. right; right. cbn. by destruct (Semaphore.wait_list (handle m)).
    + intros u _. cbn. destruct (Semaphore.wait_list (handle m)) as [|e l] eqn:Ew; [right; cbn in Q5; lia|]. left. right; right. cbn. by rewrite Ew.
Qed.

Lemma reachable_queue k s : reachable false k s -> queue_ok s /\ no_lost_wakeup s.
Proof.
  induction 1 as [|s s' R [Q N] St]; [|apply (queue_step s); try done; by eapply reachable_inv].
  split; [|split; cbn; [done|done]]. split; cbn; try done; [|constructor]. intros t. split; [done|]. by intros ?%not_elem_of_nil.
Qed.

(** ** Properties *)

(** C8: mutual exclusion for the three kinds of mutex, over all interleavings of lock,
    timed lock, try-lock and unlock, whatever the waits for the semaphore give: at most one thread is between its lock and its
    unlock, the word [lock_idx] is 0 exactly when none is, and a recursive or
    error-checking mutex names that thread as its owner. *)
Theorem mutex_mutual_exclusion (timed : bool) (k : mutex_kind) (s : sys) :
  reachable timed k s ->
  (forall t1 t2, pcs s t1 = Critical -> pcs s t2 = Critical -> t1 = t2) /\
  (lock_idx (mx s) = 0 <-> forall t, pcs s t <> Critical) /\
  (forall t, kind (mx s) <> PTHREAD_MUTEX_NORMAL -> pcs s t = Critical -> ownerThread (mx s) = Some t).
Proof.
  intros I%reachable_inv. split_and!; [apply I| |intros; by apply I].
  split; [apply I|]. intros F. destruct (decide (lock_idx (mx s) = 0)) as [|N]; [done|].
  destruct (mi_held _ I N) as [t C]. by edestruct F.
Qed.

(** The thread was woken up and can leave the list of the semaphore. *)
Definition can_leave (t : Z) (m : mutex) : Prop := exists h, Semaphore.wait_end t (handle m) = Some (EOK, h).

(** C9: no lost wake-up, while no thread uses a timed lock: in every reachable state with a thread that is about to wait for
    the kernel's semaphore or is in its list, the semaphore has a unit for the first, or the second was woken up, or another thread
    is about to retry or to post, or has the mutex and will post, or was woken up.  (With a timed lock this fails,
    see [timed_lock_loses_wakeup].) *)
Theorem mutex_waiter_progress (k : mutex_kind) (s : sys) (t : Z) :
  reachable false k s -> pcs s t = AtPend \/ pcs s t = AtWait ->
  (pcs s t = AtPend /\ 0 < Semaphore.counter (handle (mx s))) \/ (pcs s t = AtWait /\ can_leave t (mx s)) \/
  exists t', t' <> t /\ (pcs s t' = AtSpin \/ pcs s t' = AtPost \/ (pcs s t' = Critical /\ lock_idx (mx s) = -1) \/
    (pcs s t' = AtWait /\ can_leave t' (mx s))).
Proof.
  intros R P. pose proof (reachable_inv _ _ _ R) as I. destruct (reachable_queue _ _ R) as [Q [N1 N2]].
  assert (wakes s \/ (pcs s t = AtPend /\ 0 < Semaphore.counter (handle (mx s)))) as [W|W]; [| |by left].
  { destruct P as [P|P]; [destruct (N2 t P); auto|left]. apply N1. apply (q_waits _ Q) in P. intros X. rewrite X in P. by apply not_elem_of_nil in P. }
  destruct W as [W|[[u W]|W]].
  - right; right. destruct (mi_held _ I) as [u C]; [lia|]. exists u.
    split; [intros ->; by destruct P; congruence|auto].
  - right; right. exists u. split; [intros ->; destruct P, W; congruence|]. destruct W; auto.
  - destruct (Semaphore.wait_list (handle (mx s))) as [|e l] eqn:L; [done|]. cbn in W. destruct (Semaphore.proc_status e) eqn:Se; [|done].
    assert (pcs s (Semaphore.proc e) = AtWait) as A by (apply (q_waits _ Q); rewrite L; left).
    assert (can_leave (Semaphore.proc e) (mx s)) as C.
    { pose proof (q_timeouts _ Q) as Ti. rewrite L in Ti. apply Forall_cons in Ti as [Ti _]. unfold can_leave, Semaphore.wait_end. rewrite L.
      cbn [Semaphore.take_entry]. rewrite Z.eqb_refl, Se, Ti. rewrite bool_decide_true by done. by eexists. }
    right. destruct (decide (Semaphore.proc e = t)) as [<-|Ne]; [by left|right]. exists (Semaphore.proc e). split; [done|auto].
Qed.

(** A run: thread 1 locks, thread 2 finds the mutex taken, and waits in the list of the semaphore. *)
Definition contended (k : mutex_kind) : sys :=
  let m1 := snd (lock_enter 1 (new_mutex k)) in
  let m2 := snd (lock_spin 2 (snd (lock_enter 2 m1))) in
  mkSys (set_handle (snd (Semaphore.wait_begin 2 (handle m2))) m2)
    (upd (upd (upd (upd (fun _ => Idle) 1 Critical) 2 AtSpin) 2 AtPend) 2 AtWait).
Lemma contended_reachable timed k : reachable timed k (contended k).
Proof.
  eapply reach_step; [eapply reach_step; [eapply reach_step; [eapply reach_step; [apply reach_init|]|]|]|].
  - apply (st_enter_ok timed 1 _ (snd (lock_enter 1 (new_mutex k)))); destruct k; reflexivity.
  - apply (st_enter_spin timed 2 _ (snd (lock_enter 2 (snd (lock_enter 1 (new_mutex k)))))); destruct k; reflexivity.
  - apply (st_spin_wait timed 2 _ (snd (lock_spin 2 (snd (lock_enter 2 (snd (lock_enter 1 (new_mutex k)))))))); destruct k; reflexivity.
  - apply (st_wait_block timed 2); destruct k; reflexivity.
Qed.
Lemma mutex_mutual_exclusion_witness :
  lock_idx (mx (contended PTHREAD_MUTEX_RECURSIVE)) = -1 /\
  (forall t1 t2, pcs (contended PTHREAD_MUTEX_RECURSIVE) t1 = Critical ->
     pcs (contended PTHREAD_MUTEX_RECURSIVE) t2 = Critical -> t1 = t2).
Proof.
  split; [reflexivity|].
  apply (mutex_mutual_exclusion true PTHREAD_MUTEX_RECURSIVE _ (contended_reachable true PTHREAD_MUTEX_RECURSIVE)).
Defined.
Lemma mutex_waiter_progress_witness :
  let s := contended PTHREAD_MUTEX_NORMAL in
  (pcs s 2 = AtPend /\ 0 < Semaphore.counter (handle (mx s))) \/ (pcs s 2 = AtWait /\ can_leave 2 (mx s)) \/
  exists t', t' <> 2 /\ (pcs s t' = AtSpin \/ pcs s t' = AtPost \/ (pcs s t' = Critical /\ lock_idx (mx s) = -1) \/
    (pcs s t' = AtWait /\ can_leave t' (mx s))).
Proof.
  apply (mutex_waiter_progress PTHREAD_MUTEX_NORMAL _ 2 (contended_reachable false PTHREAD_MUTEX_NORMAL)). right. reflexivity.
Defined.

(** A wait that times out keeps the unit it took from the counter of the kernel's semaphore.  Thread 2 gives up a timed lock;
    thread 3 finds the mutex taken and, before it waits, thread 1 unlocks and posts: the counter gets back to 0
    only, and thread 3 then blocks although the mutex is free and every other thread is out of the library. *)
Theorem timed_lock_loses_wakeup :
  exists s, reachable true PTHREAD_MUTEX_NORMAL s /\ pcs s 3 = AtWait /\ ~ can_leave 3 (mx s) /\
    lock_idx (mx s) = 0 /\ forall t, t <> 3 -> pcs s t = Idle.
Proof.
  set (sem c l := Semaphore.mkSem c l). set (mu i c l := mkMutex PTHREAD_MUTEX_NORMAL i 0 None (sem c l)).
  set (f := upd (upd (upd (upd (upd (upd (upd (upd (upd (upd (fun _ => Idle) 1 Critical) 2 AtSpin) 2 AtPend) 2 AtWait) 2 Idle)
    3 AtSpin) 3 AtPend) 1 AtPost) 1 Idle) 3 AtWait).
  exists (mkSys (mu 0 (-1) [Semaphore.Entry 3 false Semaphore.IOWait]) f). split.
  - eapply reach_step; [eapply reach_step; [eapply reach_step; [eapply reach_step; [eapply reach_step; [eapply reach_step;
      [eapply reach_step; [apply (contended_reachable true PTHREAD_MUTEX_NORMAL)|]|]|]|]|]|]|].
    + apply (st_timeout true 2); reflexivity.
    + apply (st_wait_end true 2 _ (sem (-1) []) _ ETIMEDOUT (Return ETIMEDOUT)); [reflexivity|reflexivity|].
      apply (w_timed true PTE_OS_TIMEOUT (Some (0, 0)) (0, 0) eq_refl).
    + apply (st_enter_spin true 3 _ (mu 1 (-1) [])); reflexivity.
    + apply (st_spin_wait true 3 _ (mu (-1) (-1) [])); reflexivity.
    + apply (st_unlock_post true 1 _ (mu 0 (-1) [])); reflexivity.
    + apply (st_post true 1); reflexivity.
    + exact (st_wait_block true 3 (unlock_post (mu 0 (-1) [])) (sem (-1) [Semaphore.Entry 3 false Semaphore.IOWait]) _ eq_refl eq_refl).
  - split_and!; try reflexivity.
    + intros [h E]. discriminate.
    + intros t Ht. cbn. unfold f, upd. destruct (decide (t = 3)); [done|]. destruct (decide (t = 1)); [done|]. by destruct (decide (t = 2)).
Qed.
End PteMutex.
