(* ===== verification/BitArray.v ===== *)
(** * BitArray: arrays of bits in machine words

    [kern/utils/bitarray.hpp]: [bitarray<Size, IntType>] keeps its bits in [numvals]
    words of [w] bits.  An access outside the words is outside the object.  The class
    [BitSet] is what the array promises to its clients. *)
From stdpp Require Import base list.
From Stdlib Require Import ZArith Lia.
From S2P Require Import Prelude.

(** A set of bits [0 .. bs_size - 1]; [bs_bit] is its abstract value. *)
Class BitSet (B : Type) := {
  bs_size : B -> Z;
  bs_bit : B -> Z -> bool;
  bs_get : Z -> B -> outcome bool;
  bs_set : Z -> bool -> B -> outcome B;
  bs_get_spec b i : 0 <= i < bs_size b -> bs_get i b = Done (bs_bit b i);
  bs_set_spec b i v :
    0 <= i < bs_size b ->
    exists b', bs_set i v b = Done b' /\ bs_size b' = bs_size b /\
      forall j, 0 <= j < bs_size b -> bs_bit b' j = if decide (j = i) then v else bs_bit b j;
}.

Module BitArray.
(** The words [m_vals]. *)
Abbreviation bitarray := (list Z).

Section words.
Context (w : Z).

Definition numvals (size : Z) : Z := (size + w - 1) / w.
Definition bitarray0 (size : Z) : bitarray := replicate (Z.to_nat (numvals size)) 0.

(** The mask [IntType(1) << bitnum]. *)
Definition mask (bitnum : Z) : Z := uwrap w (Z.shiftl 1 bitnum).

(** [bitref::operator bool] and [operator [] const]. *)
Definition get (bitnum : Z) (a : bitarray) : outcome bool :=
  match a !! Z.to_nat (bitnum / w) with
  | Some val => Done (negb (Z.land val (mask (bitnum mod w)) =? 0))
  | None => Fault BadAccess
  end.

(** [bitref::operator =]. *)
Definition assign (val m : Z) (v : bool) : Z :=
  if v then Z.lor val m else Z.land val (uwrap w (Z.lnot m)).
Definition set (bitnum : Z) (v : bool) (a : bitarray) : outcome bitarray :=
  match a !! Z.to_nat (bitnum / w) with
  | Some val => Done (<[Z.to_nat (bitnum / w) := assign val (mask (bitnum mod w)) v]> a)
  | None => Fault BadAccess
  end.

(** ** Correctness *)

Definition size (a : bitarray) : Z := w * Z.of_nat (length a).
Definition bit (a : bitarray) (i : Z) : bool := Z.testbit (default 0 (a !! Z.to_nat (i / w))) (i mod w).

Context (Hw : 0 < w).

Lemma mask_bit k i : 0 <= k < w -> Z.testbit (mask k) i = (i =? k).
Proof using Hw.
  intros Hk. unfold mask, uwrap. rewrite Z.shiftl_1_l.
  rewrite Z.mod_small.
  - destruct (Z.eqb_spec i k) as [-> |]; [apply Z.pow2_bits_true; lia|apply Z.pow2_bits_false; lia].
  - split; [apply Z.pow_nonneg; lia|]. apply Z.pow_lt_mono_r; lia.
Qed.

Lemma mask_test v k : 0 <= k < w -> negb (Z.land v (mask k) =? 0) = Z.testbit v k.
Proof using Hw.
  intros Hk. destruct (Z.testbit v k) eqn:E.
  - apply negb_true_iff, Z.eqb_neq. intros H.
    assert (Z.testbit (Z.land v (mask k)) k = false) as A by (rewrite H; apply Z.bits_0).
    rewrite Z.land_spec, E, mask_bit, Z.eqb_refl in A; done.
  - apply negb_false_iff, Z.eqb_eq. apply Z.bits_inj'. intros n Hn.
    rewrite Z.land_spec, mask_bit, Z.bits_0 by done. destruct (Z.eqb_spec n k); subst; by rewrite ?E, ?andb_false_r.
Qed.

Lemma assign_bit v k b i : 0 <= k < w -> 0 <= i < w ->
  Z.testbit (assign v (mask k) b) i = if i =? k then b else Z.testbit v i.
Proof using Hw.
  intros Hk Hi. unfold assign. destruct b.
  - rewrite Z.lor_spec, mask_bit by done. destruct (i =? k); [by rewrite orb_true_r|by rewrite orb_false_r].
  - unfold uwrap. rewrite Z.land_spec, Z.mod_pow2_bits_low, Z.lnot_spec, mask_bit by lia.
    destruct (i =? k); [by rewrite andb_false_r|by rewrite andb_true_r].
Qed.

Lemma index_lt i (a : bitarray) : 0 <= i < size a -> is_Some (a !! Z.to_nat (i / w)).
Proof using Hw.
  unfold size. intros H. apply lookup_lt_is_Some.
  assert (0 <= i / w) by (apply Z.div_pos; lia).
  assert (i / w < Z.of_nat (length a)) by (apply Z.div_lt_upper_bound; lia). lia.
Qed.

Lemma get_spec (a : bitarray) i : 0 <= i < size a -> get i a = Done (bit a i).
Proof using Hw.
  intros H. unfold get, bit. destruct (index_lt i a H) as [v ->]. cbn. do 2 f_equal.
  apply mask_test, Z.mod_pos_bound, Hw.
Qed.

Lemma same_word i j : 0 <= i -> 0 <= j -> Z.to_nat (j / w) = Z.to_nat (i / w) -> j / w = i / w.
Proof using Hw. intros. assert (0 <= i / w /\ 0 <= j / w) by (split; apply Z.div_pos; lia). lia. Qed.

Lemma set_spec (a : bitarray) i v : 0 <= i < size a ->
  exists a', set i v a = Done a' /\ size a' = size a /\
    forall j, 0 <= j < size a -> bit a' j = if decide (j = i) then v else bit a j.
Proof using Hw.
  intros H. unfold set. destruct (index_lt i a H) as [val E]. rewrite E. eexists. split; [done|].
  split; [unfold size; by rewrite length_insert|]. intros j Hj. unfold bit.
  pose proof (Z.mod_pos_bound i w Hw). pose proof (Z.mod_pos_bound j w Hw).
  destruct (decide (Z.to_nat (j / w) = Z.to_nat (i / w))) as [Q|Q].
  - rewrite Q, list_lookup_insert_eq by (by apply lookup_lt_Some in E). rewrite E. cbn.
    rewrite assign_bit by done. apply same_word in Q; [|lia|lia].
    destruct (Z.eqb_spec (j mod w) (i mod w)) as [R|R]; case_decide as D; subst; try done.
    exfalso. apply D. rewrite (Z.div_mod j w), (Z.div_mod i w), Q, R by lia. done.
  - rewrite list_lookup_insert_ne by done. by rewrite decide_False by (intros ->; done).
Qed.
End words.

(** [bitarray<Size, uint32_t>] is a set of bits. *)
#[global] Instance bitarray32 : BitSet bitarray := {
  bs_size := size 32; bs_bit := bit 32; bs_get := get 32; bs_set := set 32;
  bs_get_spec := fun b i => get_spec 32 ltac:(lia) b i;
  bs_set_spec := fun b i v => set_spec 32 ltac:(lia) b i v;
}.

(** reading a bit of an array with words of [w] bits gives what was last written to
    it, and what was there before for every other bit; both are defined exactly for the
    bits the words hold. *)
Theorem bitarray_get_set (w : Z) (a : bitarray) (i : Z) (v : bool) :
  0 < w -> 0 <= i -> 
  (i < size w a -> exists a', set w i v a = Done a' /\
     forall j, 0 <= j < size w a -> get w j a' = if decide (j = i) then Done v else get w j a) /\
  (size w a <= i -> set w i v a = Fault BadAccess /\ get w i a = Fault BadAccess).
Proof.
  intros Hw Hi. split.
  - intros H. destruct (set_spec w Hw a i v) as (a' & E & S & B); [lia|]. exists a'. split; [done|].
    intros j Hj. rewrite (get_spec w Hw a') by lia. rewrite B by done. case_decide; [done|].
    by rewrite (get_spec w Hw a).
  - intros H. assert (a !! Z.to_nat (i / w) = None) as E.
    { apply lookup_ge_None_2. unfold size in H.
      assert (Z.of_nat (length a) <= i / w) by (apply Z.div_le_lower_bound; lia). lia. }
    unfold set, get. by rewrite E.
Qed.
Lemma bitarray_get_set_witness :
  exists a', set 32 70 true (bitarray0 32 96) = Done a' /\
    forall j, 0 <= j < size 32 (bitarray0 32 96) ->
      get 32 j a' = if decide (j = 70) then Done true else get 32 j (bitarray0 32 96).
Proof. apply (bitarray_get_set 32 (bitarray0 32 96) 70 true); [lia|lia|]. vm_compute. reflexivity. Defined.
End BitArray.
