(* ===== verification/Paging.v ===== *)
(** * Paging: the page tables of the kernel

    [kern/i686/mem/paging.cpp].  [kernel_info] holds 1024 page tables one after the
    other, so that the entry of a virtual address is the one its page number indexes
    (lemma [page_entry_flat]); the last directory entry maps the directory itself, and
    addresses from [0xFFC00000] up are not used with these functions.  The bits of an
    entry that only the processor writes are left out. *)
From stdpp Require Import base list.
From Stdlib Require Import ZArith Lia.
From S2P Require Import Prelude.

Module Paging.

Definition KERNEL_VIRTUAL_BASE : Z := 0xC0000000.
Definition USER_VIRTUAL_BASE : Z := 0x08000000.
Definition page_size : Z := 0x1000.
Definition ram_maxpage : Z := 1024 * 1023.

(** [Memory::MmapFlags]. *)
Definition Read : Z := 1.
Definition Write : Z := 2.
Definition User : Z := 4.
Definition Uncached : Z := 8.
Definition WriteThrough : Z := 16.
Definition Executable : Z := 32.
Definition Sentinel : Z := 64.
Definition has (flags f : Z) : bool := Ztrue (Z.land flags f).

Record PTEntry := mkPTE {
  present : bool; write : bool; user : bool; wt : bool; cd : bool; os_claimed : bool; phys_addr : Z;
}.
Definition pte0 : PTEntry := mkPTE false false false false false false 0.
Definition set_claimed (b : bool) (e : PTEntry) : PTEntry :=
  mkPTE (present e) (write e) (user e) (wt e) (cd e) b (phys_addr e).

(** The page tables, and the static variables of [alloc_virtual_page]. *)
Record paging := mkPaging { entries : Z -> PTEntry; user_last_pos : Z; kernel_last_pos : Z }.
Definition set_entries (f : Z -> PTEntry) (p : paging) : paging := mkPaging f (user_last_pos p) (kernel_last_pos p).
Definition upd (i : Z) (x : PTEntry) (f : Z -> PTEntry) : Z -> PTEntry := fun j => if j =? i then x else f j.
Definition put_entry (i : Z) (x : PTEntry) : M paging unit := modify (fun p => set_entries (upd i x (entries p)) p).

(** ** Where the entry of an address is

    [tables] is the virtual address of [kernel_info.page_tables]. *)

(** The lambda [get_addr] subtracts from a pointer to 4-byte objects. *)
Definition get_addr (addr : Z) : Z := u32 (addr - 4 * KERNEL_VIRTUAL_BASE).
(** [page_directory[i].pt_addr], a field of 20 bits. *)
Definition pt_addr (tables i : Z) : Z :=
  uwrap 20 (Z.shiftr (u32 (get_addr (tables + i * page_size) - KERNEL_VIRTUAL_BASE)) 12).
(** The address [page_entry] returns. *)
Definition page_entry_addr (tables addr : Z) : Z :=
  let pdindex := Z.shiftr addr 22 in
  let ptindex := Z.land (Z.shiftr addr 12) 0x3FF in
  u32 (u32 (Z.shiftl (pt_addr tables pdindex) 12 + KERNEL_VIRTUAL_BASE) + 4 * ptindex).
Definition page_entry (addr : Z) : Z := Z.shiftr addr 12.

(** ** Mapping *)

Definition map_page (p_addr v_addr flags : Z) : M paging unit :=
  let i := page_entry v_addr in
  e ← gets (fun p => entries p i);
  assert_ (negb (present e)) ;;
  put_entry i (mkPTE (negb (has flags Sentinel)) (has flags Write) (has flags User)
                 (has flags WriteThrough) (has flags Uncached) true (Z.shiftr p_addr 12)).

Inductive ReleaseFlags := FreePage | KeepClaimed.
#[export] Instance ReleaseFlags_eq_dec : EqDecision ReleaseFlags.
Proof. solve_decision. Defined.

Fixpoint release_loop (n : nat) (i : Z) (flags : ReleaseFlags) : M paging unit :=
  match n with
  | O => mret tt
  | S n =>
      e ← gets (fun p => entries p i);
      assert_ (os_claimed e) ;;
      assert_ (bool_decide (flags = FreePage)) ;;
      put_entry i (mkPTE false (write e) (user e) (wt e) (cd e) false (phys_addr e)) ;;
      release_loop n (i + 1) flags
  end.
Definition release_virtual_page (v_addr number : Z) (flags : ReleaseFlags) : M paging bool :=
  release_loop (Z.to_nat number) (page_entry v_addr) flags ;; mret true.
Definition unmap_page (v_addr : Z) : M paging unit := release_virtual_page v_addr 1 FreePage ;; mret tt.

Definition pages_of (size : Z) : Z := size / page_size + (if Ztrue (size mod page_size) then 1 else 0).

Fixpoint identity_map_loop (n : nat) (addr flags : Z) : M paging unit :=
  match n with
  | O => mret tt
  | S n =>
      e ← gets (fun p => entries p (page_entry addr));
      put_entry (page_entry addr) (set_claimed true e) ;;
      map_page addr addr flags ;;
      identity_map_loop n (u32 (addr + page_size)) flags
  end.
Definition identity_map (p_addr size flags : Z) : M paging unit :=
  identity_map_loop (Z.to_nat (pages_of size)) p_addr flags.

Definition physical_address (v_addr : Z) (p : paging) : Z :=
  let offset := Z.land v_addr 0xFFF in
  let entry := entries p (page_entry v_addr) in
  if negb (present entry) then v_addr else u32 (u32 (Z.shiftl (phys_addr entry) 12) + offset).

Definition is_mapped (v_addr : Z) (p : paging) : bool := present (entries p (page_entry v_addr)).

Fixpoint check_user_loop (n : nat) (i : Z) (p : paging) : bool :=
  match n with
  | O => true
  | S n => if negb (present (entries p i)) || negb (user (entries p i)) then false else check_user_loop n (i + 1) p
  end.
Definition check_user_ptr (v_addr size : Z) (p : paging) : bool :=
  check_user_loop (Z.to_nat (pages_of size)) (page_entry v_addr) p.

Definition unmap_user_space : M paging unit :=
  modify (fun p => set_entries (fun i => if (0 <=? i) && (i <? KERNEL_VIRTUAL_BASE / page_size) then pte0 else entries p i) p).

(** [map_kernel] on cleared tables: the pages of [0 .. kernel_physical_end + page_size]. *)
Definition map_kernel (kernel_physical_end : Z) (f : Z -> PTEntry) : Z -> PTEntry := fun i =>
  let k := i - KERNEL_VIRTUAL_BASE / page_size in
  if (0 <=? k) && (k * page_size <=? kernel_physical_end + page_size)
  then mkPTE true true true (wt (f i)) (cd (f i)) true k else f i.
Definition create_paging_info (kernel_physical_end : Z) : paging :=
  mkPaging (map_kernel kernel_physical_end (fun _ => pte0)) (USER_VIRTUAL_BASE / page_size)
    (KERNEL_VIRTUAL_BASE / page_size).

(** ** Allocation of virtual pages *)

(** The end of the [for] loop: a run at [addr] that ends at page [i], or the values of
    [addr] and [counter], which the next turn of [goto loop] starts with. *)
Inductive scanned := Run (addr i : Z) | NoRun (addr counter : Z).

Fixpoint scan (n : nat) (i number addr counter : Z) (f : Z -> PTEntry) : outcome scanned :=
  match n with
  | O => Done (NoRun addr counter)
  | S n =>
      if negb (os_claimed (f i)) then
        if present (f i) then Fault AssertFailed
        else
          let addr := if counter =? 0 then i else addr in
          let counter := counter + 1 in
          if counter =? number then Done (Run addr i) else scan n (i + 1) number addr counter f
      else if 0 =? number then Done (Run addr i) else scan n (i + 1) number addr 0 f
  end.

Fixpoint claim (n : nat) (j : Z) (f : Z -> PTEntry) : Z -> PTEntry :=
  match n with
  | O => f
  | S n => claim n (j + 1) (upd j (set_claimed true (f j)) f)
  end.

Definition base (user : bool) : Z := (if user then USER_VIRTUAL_BASE else KERNEL_VIRTUAL_BASE) / page_size.
Definition limit (user : bool) : Z := if user then KERNEL_VIRTUAL_BASE / page_size else ram_maxpage.
Definition last_pos (user : bool) (p : paging) : Z := if user then user_last_pos p else kernel_last_pos p.
Definition set_last_pos (user : bool) (v : Z) (p : paging) : paging :=
  if user then mkPaging (entries p) v (kernel_last_pos p) else mkPaging (entries p) (user_last_pos p) v.

Definition take_run (user : bool) (number addr i : Z) : M paging Z :=
  modify (set_last_pos user i) ;;
  modify (fun p => set_entries (claim (Z.to_nat number) addr (entries p)) p) ;;
  mret (u32 (addr * page_size)).

Definition alloc_virtual_page (number : Z) (user : bool) : M paging Z :=
  assert_ (negb (number =? 0)) ;;
  p ← get;
  match scan (Z.to_nat (limit user - last_pos user p)) (last_pos user p) number 0 0 (entries p) with
  | Fault f => fail f
  | Done (Run addr i) => take_run user number addr i
  | Done (NoRun addr counter) =>
      if negb (last_pos user p =? base user) then
        modify (set_last_pos user (base user)) ;;
        match scan (Z.to_nat (limit user - base user)) (base user) number addr counter (entries p) with
        | Fault f => fail f
        | Done (Run addr i) => take_run user number addr i
        | Done (NoRun _ _) => fail Panic
        end
      else fail Panic
  end.
End Paging.
