(* ===== verification/PagingProofs.v ===== *)
(** * PagingProofs: what the page tables promise *)
From stdpp Require Import base list.
From Stdlib Require Import ZArith Lia.
From S2P Require Import Prelude Paging.
Import Paging.

Module PagingProofs.

(** A present entry is claimed, and the search positions are in their regions. *)
Record pt_inv (p : paging) : Prop := {
  pi_claimed i : present (entries p i) = true -> os_claimed (entries p i) = true;
  pi_last u : base u <= last_pos u p <= limit u;
}.

Definition free_run (a n : Z) (f : Z -> PTEntry) : Prop := forall j, a <= j < a + n -> os_claimed (f j) = false.

(** ** The address of an entry *)

Lemma shiftr_div a k : 0 <= k -> Z.shiftr a k = a / 2 ^ k.
Proof. apply Z.shiftr_div_pow2. Qed.

Lemma page_entry_flat tables addr :
  KERNEL_VIRTUAL_BASE <= tables -> tables + 1024 * page_size <= 2 ^ 32 -> tables mod page_size = 0 ->
  0 <= addr < 1023 * 2 ^ 22 -> page_entry_addr tables addr = tables + 4 * page_entry addr.
Proof.
  unfold page_entry, page_entry_addr, pt_addr, get_addr, KERNEL_VIRTUAL_BASE, page_size. intros H1 H2 H3 H4.
  change 0x3FF with (Z.ones 10). rewrite Z.land_ones by lia. rewrite !shiftr_div by lia.
  assert (0 <= addr / 2 ^ 22 < 1023) as Q by (split; [apply Z.div_pos|apply Z.div_lt_upper_bound]; lia).
  set (q := addr / 2 ^ 22) in *.
  assert (u32 (tables + q * 0x1000 - 4 * 0xC0000000) = tables + q * 0x1000) as ->.
  { unfold uwrap. replace (tables + q * 0x1000 - 4 * 0xC0000000) with (tables + q * 0x1000 + (-3) * 2 ^ 32) by lia.
    rewrite Z.mod_add by lia. apply Z.mod_small. lia. }
  rewrite (uwrap_small 32 (tables + q * 0x1000 - 0xC0000000)) by lia.
  pose proof (Z.div_mod tables 0x1000 ltac:(lia)) as T. rewrite H3 in T.
  assert ((tables + q * 0x1000 - 0xC0000000) / 2 ^ 12 = tables / 0x1000 + q - 0xC0000) as ->.
  { rewrite T at 1. replace (0x1000 * (tables / 0x1000) + 0 + q * 0x1000 - 0xC0000000)
      with ((tables / 0x1000 + q - 0xC0000) * 2 ^ 12) by lia. apply Z.div_mul. lia. }
  rewrite (uwrap_small 20) by lia. rewrite Z.shiftl_mul_pow2 by lia.
  rewrite (uwrap_small 32 ((_ * _) + _)) by lia.
  assert (addr / 2 ^ 12 = 1024 * q + (addr / 2 ^ 12) mod 2 ^ 10) as E.
  { pose proof (Z.div_mod (addr / 2 ^ 12) (2 ^ 10) ltac:(lia)) as D.
    rewrite Z.div_div in D by lia. change (2 ^ 12 * 2 ^ 10) with (2 ^ 22) in D. unfold q. lia. }
  pose proof (Z.mod_pos_bound (addr / 2 ^ 12) (2 ^ 10) ltac:(lia)).
  rewrite uwrap_small by lia. lia.
Qed.

(** ** The search *)

Lemma scan_spec n : forall i number addr counter f,
  0 < number -> 0 <= counter < number ->
  (forall j, present (f j) = true -> os_claimed (f j) = true) ->
  (0 < counter -> addr + counter = i /\ free_run addr counter f) ->
  let start := if counter =? 0 then i else addr in
  match scan n i number addr counter f with
  | Fault _ => False
  | Done (Run a k) => start <= a /\ a + number = k + 1 /\ i <= k < i + Z.of_nat n /\ free_run a number f
  | Done (NoRun a c) =>
      0 <= c < number /\ (0 < c -> start <= a /\ a + c = i + Z.of_nat n /\ free_run a c f) /\
      forall a', start <= a' -> a' + number <= i + Z.of_nat n -> ~ free_run a' number f
  end.
Proof.
  induction n as [|n IH]; intros i number addr counter f Hn Hc Hp Hr start; cbn [scan].
  - split_and!; try done; try lia.
    + intros Hc'. destruct Hr as [W W']; [lia|]. unfold start. rewrite (proj2 (Z.eqb_neq _ _)) by lia.
      split_and!; [lia|lia|done].
    + intros a' A B Hf. unfold start in A. destruct (Z.eqb_spec counter 0); [lia|]. destruct Hr; lia.
  - destruct (os_claimed (f i)) eqn:E; cbn [negb].
    + rewrite (proj2 (Z.eqb_neq 0 number)) by lia.
      specialize (IH (i + 1) number addr 0 f Hn ltac:(lia) Hp ltac:(lia)). cbn [Z.eqb] in IH.
      assert (Hs : start <= i) by (unfold start; destruct (Z.eqb_spec counter 0); [lia|destruct Hr; lia]).
      destruct (scan n (i + 1) number addr 0 f) as [[a k|a c]|]; [| |done].
      * destruct IH as (A & B & C & D). split_and!; try done; lia.
      * destruct IH as (A & B & D). split_and!; try done; try lia.
        -- intros P. destruct (B P) as (? & ? & ?). split_and!; [lia|lia|done].
        -- intros a' P Q Hf. destruct (decide (i + 1 <= a')) as [R|R]; [by apply (D a'); try lia|].
           rewrite (Hf i) in E; [done|]. unfold start in P. destruct (Z.eqb_spec counter 0); [lia|].
           destruct Hr as [W _]; lia.
    + destruct (present (f i)) eqn:P; [apply Hp in P; congruence|].
      set (addr' := if counter =? 0 then i else addr).
      assert (Hr' : addr' + (counter + 1) = i + 1 /\ free_run addr' (counter + 1) f).
      { unfold addr'. destruct (Z.eqb_spec counter 0) as [Z|Z].
        - split; [lia|]. intros j J. by replace j with i by lia.
        - destruct Hr as [W W']; [lia|]. split; [lia|]. intros j J.
          destruct (decide (j = i)) as [-> |]; [done|]. apply W'. lia. }
      destruct (Z.eqb_spec (counter + 1) number) as [N|N].
      * destruct Hr' as [W W']. rewrite N in *. unfold start. split_and!; try done; lia.
      * specialize (IH (i + 1) number addr' (counter + 1) f Hn ltac:(lia) Hp ltac:(done)).
        cbv zeta in IH. rewrite (proj2 (Z.eqb_neq (counter + 1) 0)) in IH by lia.
        destruct (scan n (i + 1) number addr' (counter + 1) f) as [[a k|a c]|]; [| |done].
        -- destruct IH as (A & B & C & D). unfold start. split_and!; try done; unfold addr' in A; lia.
        -- destruct IH as (A & B & D). split_and!; try done; try lia.
           ++ intros Q. destruct (B Q) as (? & ? & ?). split_and!; [done|lia|done].
           ++ intros a' Q R. apply D; [|lia]. unfold start in Q. unfold addr'. lia.
Qed.

(** The second turn of [goto loop], which starts with the [counter] pages of the first:
    unless it meets a claimed page, it stops short of [number] pages. *)
Lemma rescan_spec n : forall i number addr counter f,
  0 < counter < number -> (forall j, present (f j) = true -> os_claimed (f j) = true) ->
  match scan n i number addr counter f with
  | Fault _ => False
  | Done (Run a k) =>
      (a = addr /\ k = i + (number - counter) - 1 /\ number - counter <= Z.of_nat n /\ free_run i (number - counter) f) \/
      (i <= a /\ a + number = k + 1 /\ k < i + Z.of_nat n /\ free_run a number f)
  | Done (NoRun _ _) =>
      (number - counter <= Z.of_nat n -> ~ free_run i (number - counter) f) /\
      forall a, i <= a -> a + number <= i + Z.of_nat n -> ~ free_run a number f
  end.
Proof.
  induction n as [|n IH]; intros i number addr counter f Hc Hp; cbn [scan].
  - split; lia.
  - destruct (os_claimed (f i)) eqn:E; cbn [negb].
    + rewrite (proj2 (Z.eqb_neq 0 number)) by lia.
      pose proof (scan_spec n (i + 1) number addr 0 f ltac:(lia) ltac:(lia) Hp ltac:(lia)) as S. cbn [Z.eqb] in S.
      destruct (scan n (i + 1) number addr 0 f) as [[a k|a c]|]; [| |done].
      * right. destruct S as (A & B & C & D). split_and!; try done; lia.
      * destruct S as (_ & _ & D). split.
        -- intros _ Hf. rewrite (Hf i) in E; [done|lia].
        -- intros a' P Q Hf. destruct (decide (i + 1 <= a')) as [R|R]; [by apply (D a'); try lia|].
           rewrite (Hf i) in E; [done|lia].
    + destruct (present (f i)) eqn:P; [apply Hp in P; congruence|].
      rewrite (proj2 (Z.eqb_neq counter 0)) by lia.
      assert (R : forall m, free_run (i + 1) m f -> free_run i (m + 1) f).
      { intros m Hf j J. destruct (decide (j = i)) as [-> |]; [done|apply Hf; lia]. }
      destruct (Z.eqb_spec (counter + 1) number) as [N|N].
      * left. split_and!; try done; try lia. intros j J. by replace j with i by lia.
      * specialize (IH (i + 1) number addr (counter + 1) f ltac:(lia) Hp).
        destruct (scan n (i + 1) number addr (counter + 1) f) as [[a k|a c]|]; [| |done].
        -- destruct IH as [(A & B & C & D)|(A & B & C & D)]; [left|right]; split_and!; try done; try lia.
           apply R in D. by replace (number - counter) with (number - (counter + 1) + 1) by lia.
        -- destruct IH as [A B].
           assert (Z : number - counter <= Z.of_nat (S n) -> ~ free_run i (number - counter) f).
           { intros L Hf. apply A; [lia|]. intros j J. apply Hf. lia. }
           split; [done|]. intros a' Q L Hf. destruct (decide (a' = i)) as [-> |]; [|apply (B a'); [lia|lia|done]].
           apply Z; [lia|]. intros j J. apply Hf. lia.
Qed.

Lemma claim_spec n : forall j f i,
  claim n j f i = if bool_decide (j <= i < j + Z.of_nat n) then set_claimed true (f i) else f i.
Proof.
  induction n as [|n IH]; intros j f i; cbn [claim].
  - rewrite bool_decide_false by lia. done.
  - rewrite IH. unfold upd. destruct (Z.eqb_spec i j) as [-> |N].
    + rewrite (bool_decide_false (j + 1 <= j < _)) by lia. rewrite bool_decide_true by lia. done.
    + destruct (decide (j <= i < j + Z.of_nat (S n))).
      * rewrite !bool_decide_true by lia. done.
      * rewrite !bool_decide_false by lia. done.
Qed.

(** What a successful [alloc_virtual_page] does to the tables. *)
Definition allocated (u : bool) (number a : Z) (p p' : paging) : Prop :=
  base u <= a /\ a + number <= limit u /\ free_run a number (entries p) /\
  (forall i, entries p' i = if bool_decide (a <= i < a + number) then set_claimed true (entries p i) else entries p i) /\
  pt_inv p'.

Lemma last_pos_set u v p : last_pos u (set_last_pos u v p) = v.
Proof. by destruct u. Qed.
Lemma last_pos_set_ne u u' v p : u' <> u -> last_pos u' (set_last_pos u v p) = last_pos u' p.
Proof. by destruct u, u'. Qed.
Lemma entries_set_last u v p : entries (set_last_pos u v p) = entries p.
Proof. by destruct u. Qed.
Lemma last_pos_set_entries u f p : last_pos u (set_entries f p) = last_pos u p.
Proof. by destruct u. Qed.
Lemma base_limit u : 0 <= base u < limit u /\ limit u <= 2 ^ 20.
Proof. destruct u; split_and!; by vm_compute. Qed.

Lemma take_run_spec u number a i q p :
  pt_inv p -> entries q = entries p -> (forall v, v <> u -> last_pos v q = last_pos v p) ->
  base u <= a -> a + number = i + 1 -> i < limit u -> 0 < number -> free_run a number (entries p) ->
  exists p', take_run u number a i q = Done (a * page_size, p') /\ allocated u number a p p'.
Proof.
  intros I E L B N K Hn F. unfold take_run. rewrite !run_bind_modify, run_ret.
  pose proof (base_limit u).
  rewrite uwrap_small by (unfold page_size; lia). eexists. split; [done|].
  assert (C : forall k, entries (set_entries (claim (Z.to_nat number) a (entries (set_last_pos u i q))) (set_last_pos u i q)) k
    = if bool_decide (a <= k < a + number) then set_claimed true (entries p k) else entries p k).
  { intros k. cbn. rewrite entries_set_last, claim_spec, E. by replace (Z.of_nat (Z.to_nat number)) with number by lia. }
  split_and!; [done|lia|done|exact C|]. split.
  - intros k. rewrite C. case_bool_decide; [done|]. apply I.
  - intros v. rewrite last_pos_set_entries. destruct (decide (v = u)) as [-> |V].
    + rewrite last_pos_set. lia.
    + rewrite last_pos_set_ne, L by done. apply I.
Qed.

(** The search reached the end of the region with [c] free pages counted, went on from
    its base and found the missing ones there: the range that starts with the last [c]
    pages of the region is handed out and claimed, and so reaches beyond the region. *)
Definition wrapped_run (u : bool) (number c : Z) (p p' : paging) : Prop :=
  last_pos u p <> base u /\ 0 < c < number /\ last_pos u p <= limit u - c /\ base u + (number - c) <= limit u /\
  free_run (limit u - c) c (entries p) /\ free_run (base u) (number - c) (entries p) /\
  forall i, entries p' i = if bool_decide (limit u - c <= i < limit u - c + number)
    then set_claimed true (entries p i) else entries p i.

Lemma alloc_virtual_page_cases u number p :
  pt_inv p -> 0 < number ->
  (exists a p', alloc_virtual_page number u p = Done (a * page_size, p') /\ allocated u number a p p') \/
  (alloc_virtual_page number u p = Fault Panic /\
   forall a, base u <= a -> a + number <= limit u -> ~ free_run a number (entries p)) \/
  (exists c p', alloc_virtual_page number u p = Done ((limit u - c) * page_size, p') /\ wrapped_run u number c p p').
Proof.
  intros I Hn. unfold alloc_virtual_page. rewrite (proj2 (Z.eqb_neq number 0)) by lia. cbn [negb].
  rewrite run_assert_true. rewrite (run_bind_done get _ p p p) by done.
  pose proof (pi_last _ I u) as L. pose proof (base_limit u) as BL.
  pose proof (scan_spec (Z.to_nat (limit u - last_pos u p)) (last_pos u p) number 0 0 (entries p)
    Hn ltac:(lia) (pi_claimed _ I) ltac:(lia)) as S1. cbn [Z.eqb] in S1.
  destruct (scan _ (last_pos u p) _ _ _ _) as [[a k|a c]|]; [| |done].
  { left. destruct S1 as (A & B & C & D). exists a. apply take_run_spec; auto; lia. }
  destruct S1 as (A & B & D). destruct (Z.eqb_spec (last_pos u p) (base u)) as [E|E]; cbn [negb].
  { right; left. split; [done|]. intros a' P Q. apply D; lia. }
  rewrite run_bind_modify.
  assert (T : forall a k, base u <= a -> a + number = k + 1 -> k < limit u -> free_run a number (entries p) ->
    exists a0 p', take_run u number a k (set_last_pos u (base u) p) = Done (a0 * page_size, p') /\ allocated u number a0 p p').
  { intros a0 k ????. exists a0. apply take_run_spec; auto; [apply entries_set_last|intros; by apply last_pos_set_ne]. }
  destruct (decide (c = 0)) as [-> |Hc].
  - pose proof (scan_spec (Z.to_nat (limit u - base u)) (base u) number a 0 (entries p)
      Hn ltac:(lia) (pi_claimed _ I) ltac:(lia)) as S2. cbn [Z.eqb] in S2.
    destruct (scan _ (base u) _ _ _ _) as [[a' k|a' c']|]; [| |done].
    + left. destruct S2 as (? & ? & ? & ?). apply (T a' k); auto; lia.
    + right; left. split; [done|]. intros a'' P Q. apply S2; lia.
  - destruct (B ltac:(lia)) as (B1 & B2 & B3). rewrite Z2Nat.id in B2 by lia.
    pose proof (rescan_spec (Z.to_nat (limit u - base u)) (base u) number a c (entries p) ltac:(lia) (pi_claimed _ I)) as S2.
    destruct (scan _ (base u) _ _ _ _) as [[a' k|a' c']|]; [| |done].
    + destruct S2 as [(-> & -> & S3 & S4)|(? & ? & ? & ?)]; [right; right|left; apply (T a' k); auto; lia].
      assert (a = limit u - c) as -> by lia. exists c. unfold take_run. rewrite !run_bind_modify, run_ret.
      rewrite uwrap_small by (unfold page_size; lia). eexists. split; [done|]. split_and!; try done; try lia.
      intros i. cbn. rewrite !entries_set_last, claim_spec. by rewrite Z2Nat.id by lia.
    + right; left. split; [done|]. intros a'' P Q. apply S2; lia.
Qed.

(** The cases in which the search cannot run over the end of its region: one page is
    asked for, the search starts at the base, or the page at the base is claimed. *)
Definition sound_search (u : bool) (number : Z) (p : paging) : Prop :=
  number = 1 \/ last_pos u p = base u \/ os_claimed (entries p (base u)) = true.

Lemma alloc_virtual_page_run u number p :
  pt_inv p -> 0 < number -> sound_search u number p ->
  (exists a p', alloc_virtual_page number u p = Done (a * page_size, p') /\ allocated u number a p p') \/
  (alloc_virtual_page number u p = Fault Panic /\
   forall a, base u <= a -> a + number <= limit u -> ~ free_run a number (entries p)).
Proof.
  intros I Hn T. destruct (alloc_virtual_page_cases u number p I Hn) as [C|[C|(c & p' & E & W)]]; [by left|by right|].
  destruct W as (W1 & W2 & _ & _ & _ & W3 & _). exfalso. destruct T as [T|[T|T]]; [lia|done|].
  rewrite (W3 (base u)) in T; [done|lia].
Qed.

(** The tables of a kernel that has been mapped: well formed, and the first page of the
    kernel's region, where its image starts, is present. *)
Record kernel_inv (p : paging) : Prop := {
  ki_pt : pt_inv p;
  ki_base : present (entries p (base false)) = true;
}.
Lemma kernel_inv_sound p number : kernel_inv p -> sound_search false number p.
Proof. intros K. right; right. apply (pi_claimed _ (ki_pt _ K)), K. Qed.
Lemma create_paging_info_inv e : 0 <= e -> kernel_inv (create_paging_info e).
Proof.
  intros H. split; [split|].
  - intros i. unfold create_paging_info, map_kernel. cbn [entries]. by case_match.
  - by intros [].
  - unfold create_paging_info, map_kernel. cbn [entries]. change (base false) with (KERNEL_VIRTUAL_BASE / page_size).
    rewrite Z.sub_diag. cbn [Z.leb Z.compare andb Z.mul]. rewrite (proj2 (Z.leb_le _ _)); [done|unfold page_size; lia].
Qed.

(** ** Properties *)

(** C14: [alloc_virtual_page], whatever the tables and the number of pages: either it
    hands out [number] consecutive pages of its region that nobody had claimed, claims
    exactly these and keeps the tables well formed; or it panics, and then the region has
    no such run; or the search ran over the end of the region with [c] free pages counted
    and took the first pages of the region for the rest, and the range it hands out
    starts with the last [c] pages of the region and reaches beyond it (the counter is
    not reset before [goto loop]).  The third case needs more than one page, a search that did
    not start at the base, and a free page at the base: it never occurs in the kernel's
    region, whose first page [map_kernel] claims, and [alloc_wrapped_run] shows it in the
    user's.  The search ends in every case. *)
Theorem alloc_virtual_page_spec (u : bool) (number : Z) (p : paging) :
  pt_inv p -> 0 < number ->
  (exists a p', alloc_virtual_page number u p = Done (a * page_size, p') /\
     base u <= a /\ a + number <= limit u /\ free_run a number (entries p) /\
     (forall i, entries p' i =
        if bool_decide (a <= i < a + number) then set_claimed true (entries p i) else entries p i) /\
     pt_inv p') \/
  (alloc_virtual_page number u p = Fault Panic /\
   forall a, base u <= a -> a + number <= limit u -> ~ free_run a number (entries p)) \/
  (exists c p', alloc_virtual_page number u p = Done ((limit u - c) * page_size, p') /\
     last_pos u p <> base u /\ 0 < c < number /\ last_pos u p <= limit u - c /\ base u + (number - c) <= limit u /\
     free_run (limit u - c) c (entries p) /\ free_run (base u) (number - c) (entries p) /\
     forall i, entries p' i = if bool_decide (limit u - c <= i < limit u - c + number)
       then set_claimed true (entries p i) else entries p i).
Proof. intros I Hn. exact (alloc_virtual_page_cases u number p I Hn). Qed.

(** User tables with only the first and the last page of the region unclaimed
    (0x8000 and 0xBFFFF). *)
Definition wrapped : paging :=
  mkPaging (fun i => if (i =? 0x8000) || (i =? 0xBFFFF) then pte0 else mkPTE true true true false false true i)
    0xBFFFF 0xC0000.
(** the counter of the search is not reset when it starts again from the base of the
    region: a free page at its end and one at its start are taken for a run of two, and
    a range is handed out whose second page is the first page of the kernel. *)
Theorem alloc_wrapped_run :
  exists p', alloc_virtual_page 2 true wrapped = Done (0xBFFFF * page_size, p') /\
    pt_inv wrapped /\ present (entries wrapped 0xC0000) = true /\ limit true = 0xC0000.
Proof.
  eexists. split; [vm_compute; reflexivity|]. split_and!; [|reflexivity|reflexivity].
  split; [|by intros []].
  intros i. unfold wrapped. cbn. by destruct ((i =? 0x8000) || (i =? 0xBFFFF)).
Qed.

Lemma check_user_loop_spec n : forall i p,
  check_user_loop n i p = true <->
  forall j, i <= j < i + Z.of_nat n -> present (entries p j) = true /\ user (entries p j) = true.
Proof.
  induction n as [|n IH]; intros i p; cbn [check_user_loop].
  - split; [intros _ j; lia|done].
  - destruct (present (entries p i)) eqn:P, (user (entries p i)) eqn:U; cbn [negb orb].
    1: rewrite IH; split; [intros H j J|intros H j J; apply H; lia];
       destruct (decide (j = i)) as [-> |]; [done|apply H; lia].
    all: split; [done|intros H; destruct (H i); [lia|congruence]].
Qed.

Lemma pages_of_div size : 0 <= size -> pages_of size = (size + (page_size - 1)) / page_size.
Proof.
  intros H. unfold pages_of, Ztrue, page_size in *. pose proof (Z.div_mod size 0x1000 ltac:(lia)) as D.
  pose proof (Z.mod_pos_bound size 0x1000 ltac:(lia)) as B.
  destruct (Z.eqb_spec (size mod 0x1000) 0) as [E|E]; cbn [negb].
  - apply (Z.div_unique _ _ _ (0x1000 - 1)); lia.
  - apply (Z.div_unique _ _ _ (size mod 0x1000 - 1)); lia.
Qed.
Lemma pages_of_bounds size : 0 <= size -> page_size * (pages_of size - 1) < size <= page_size * pages_of size \/ (size = 0 /\ pages_of size = 0).
Proof.
  intros H. rewrite pages_of_div by done. unfold page_size.
  pose proof (Z.div_mod (size + (0x1000 - 1)) 0x1000 ltac:(lia)).
  pose proof (Z.mod_pos_bound (size + (0x1000 - 1)) 0x1000 ltac:(lia)). lia.
Qed.

(** for a pointer at the start of a page, [check_user_ptr] accepts exactly the ranges
    all of whose bytes are on present user pages; in general it checks as many pages as
    [size] fills from the page of the pointer on, so that the last page of a range that
    starts inside a page can be left out. *)
Theorem check_user_ptr_spec (v_addr size : Z) (p : paging) :
  0 <= v_addr -> 0 <= size ->
  (v_addr mod page_size = 0 ->
   check_user_ptr v_addr size p = true <->
   forall a, v_addr <= a < v_addr + size ->
     present (entries p (page_entry a)) = true /\ user (entries p (page_entry a)) = true) /\
  (check_user_ptr v_addr size p = true <->
   forall j, page_entry v_addr <= j < page_entry v_addr + pages_of size ->
     present (entries p j) = true /\ user (entries p j) = true).
Proof.
  intros Hv Hs. pose proof (pages_of_bounds size Hs) as B.
  assert (G : check_user_ptr v_addr size p = true <->
   forall j, page_entry v_addr <= j < page_entry v_addr + pages_of size ->
     present (entries p j) = true /\ user (entries p j) = true).
  { unfold check_user_ptr. rewrite check_user_loop_spec. rewrite Z2Nat.id by (unfold page_size in *; lia). done. }
  split; [|exact G]. intros A. rewrite G. unfold page_entry, page_size in *.
  pose proof (Z.div_mod v_addr 0x1000 ltac:(lia)) as D. rewrite A in D.
  split; intros H x Hx.
  - apply H. rewrite !shiftr_div by lia. change (2 ^ 12) with 0x1000.
    split; [apply Z.div_le_mono; lia|]. apply Z.div_lt_upper_bound; lia.
  - rewrite shiftr_div in Hx by lia. change (2 ^ 12) with 0x1000 in Hx.
    specialize (H (0x1000 * x)). rewrite shiftr_div in H by lia. change (2 ^ 12) with 0x1000 in H.
    rewrite Z.mul_comm, Z.div_mul in H by lia. apply H. lia.
Qed.

(** The kernel's tables after 5 pages were handed out: the search starts inside the region. *)
Definition used_tables : paging :=
  match alloc_virtual_page 5 false (create_paging_info 0x400000) with Done (_, p) => p | Fault _ => create_paging_info 0 end.
Lemma used_tables_inv : pt_inv used_tables /\ last_pos false used_tables = 0xC0406.
Proof.
  split; [|vm_compute; reflexivity]. unfold used_tables.
  destruct (alloc_virtual_page_run false 5 (create_paging_info 0x400000) (ki_pt _ (create_paging_info_inv 0x400000 ltac:(lia)))
    ltac:(lia) ltac:(by right; left)) as [(a & p & E & A)|[E _]]; rewrite E; [apply A|apply create_paging_info_inv; lia].
Qed.
Lemma alloc_virtual_page_spec_witness :
  exists a p', alloc_virtual_page 3 false used_tables = Done (a * page_size, p') /\
     base false <= a /\ a + 3 <= limit false /\ free_run a 3 (entries used_tables) /\
     (forall i, entries p' i = if bool_decide (a <= i < a + 3)
        then set_claimed true (entries used_tables i) else entries used_tables i) /\ pt_inv p'.
Proof.
  destruct (alloc_virtual_page_spec false 3 used_tables (proj1 used_tables_inv) ltac:(lia))
    as [H|[[H _]|(c & p' & _ & _ & W & _ & _ & _ & F & _)]]; [exact H|exfalso|exfalso].
  { assert (match alloc_virtual_page 3 false used_tables with Done _ => true | Fault _ => false end = true) as G
      by (vm_compute; reflexivity). rewrite H in G. discriminate. }
  specialize (F (base false)). assert (os_claimed (entries used_tables (base false)) = true) as G by (vm_compute; reflexivity).
  rewrite F in G; [discriminate|lia].
Defined.

(** One user page at [0x2000]. *)
Definition one_user_page : paging :=
  mkPaging (fun i => if i =? 2 then mkPTE true true true false false true 7 else pte0) 0x8000 0xC0000.
Lemma check_user_ptr_spec_witness :
  (check_user_ptr 0x2000 4096 one_user_page = true /\
   forall a, 0x2000 <= a < 0x2000 + 4096 ->
     present (entries one_user_page (page_entry a)) = true /\ user (entries one_user_page (page_entry a)) = true) /\
  (check_user_ptr 0x2FFF 2 one_user_page = true /\ present (entries one_user_page (page_entry 0x3000)) = false).
Proof.
  split; split; try reflexivity.
  apply (proj1 (check_user_ptr_spec 0x2000 4096 one_user_page ltac:(lia) ltac:(lia))); reflexivity.
Defined.
End PagingProofs.
