(* ===== verification/Memmap.v ===== *)
(** * Memmap: mapping of physical ranges

    [kern/i686/mem/mmap.cpp]: [Memory::mmap], [Memory::unmap] and [Memory::remap_page]
    on top of the page tables; the other members of [Memory] just call [Paging] and the
    page allocator. *)
From stdpp Require Import base list.
From Stdlib Require Import ZArith Lia.
From S2P Require Import Prelude Paging PagingProofs.
Import Paging PagingProofs.

Module Memmap.

Fixpoint mmap_loop (n : nat) (p_addr v_addr flags : Z) : M paging unit :=
  match n with
  | O => mret tt
  | S n =>
      map_page p_addr v_addr flags ;;
      mmap_loop n (u32 (p_addr + page_size)) (u32 (v_addr + page_size)) flags
  end.

Definition mmap (p_addr len flags : Z) : M paging Z :=
  let offset := Z.land p_addr 0xFFF in
  let len := u32 (len + offset) in
  let page_num := pages_of len in
  assert_ (Ztrue len) ;;
  pages ← alloc_virtual_page page_num false;
  mmap_loop (Z.to_nat page_num) p_addr pages flags ;;
  mret (u32 (pages + offset)).

Fixpoint unmap_loop (n : nat) (v_addr : Z) : M paging unit :=
  match n with
  | O => mret tt
  | S n => unmap_page v_addr ;; unmap_loop n (u32 (v_addr + page_size))
  end.
Definition unmap (v_addr len : Z) : M paging unit := unmap_loop (Z.to_nat (pages_of len)) v_addr.

Definition remap_page (p_addr v_addr flags : Z) : M paging unit :=
  unmap_page v_addr ;; map_page p_addr v_addr flags.

(** ** Correctness *)

Lemma page_entry_page a k : 0 <= k < page_size -> page_entry (a * page_size + k) = a.
Proof.
  intros H. unfold page_entry, page_size in *. rewrite shiftr_div by lia. change (2 ^ 12) with 0x1000.
  rewrite Z.div_add_l by lia. rewrite Z.div_small by lia. lia.
Qed.
Lemma page_entry_0 a : page_entry (a * page_size) = a.
Proof. rewrite <- (page_entry_page a 0) at 2 by (unfold page_size; lia). by rewrite Z.add_0_r. Qed.

(** The entry [map_page] writes. *)
Definition mapped (flags frame : Z) : PTEntry :=
  mkPTE (negb (has flags Sentinel)) (has flags Write) (has flags User) (has flags WriteThrough)
    (has flags Uncached) true frame.

Lemma map_page_spec p_addr v_addr flags p :
  present (entries p (page_entry v_addr)) = false ->
  map_page p_addr v_addr flags p =
    Done (tt, set_entries (upd (page_entry v_addr) (mapped flags (Z.shiftr p_addr 12)) (entries p)) p).
Proof. intros H. unfold map_page. rewrite run_bind_gets, H. done. Qed.

(** The loop of [mmap]: frames [f0 + o], [f0 + 1] ... behind pages [a], [a + 1] ... *)
Lemma mmap_loop_spec n : forall a f0 o flags p,
  0 <= o < page_size -> 0 <= a -> a + Z.of_nat n <= 2 ^ 20 -> 0 <= f0 -> f0 + Z.of_nat n <= 2 ^ 20 ->
  (forall i, a <= i < a + Z.of_nat n -> present (entries p i) = false) ->
  exists p', mmap_loop n (f0 * page_size + o) (a * page_size) flags p = Done (tt, p') /\
    (forall u, last_pos u p' = last_pos u p) /\
    forall i, entries p' i =
      if bool_decide (a <= i < a + Z.of_nat n) then mapped flags (f0 + (i - a)) else entries p i.
Proof.
  induction n as [|n IH]; intros a f0 o flags p Ho Ha Ha' Hf Hf' Hp; cbn [mmap_loop].
  - exists p. split_and!; try done. intros i. rewrite bool_decide_false by lia. done.
  - assert (P0 : present (entries p (page_entry (a * page_size))) = false) by (rewrite page_entry_0; apply Hp; lia).
    rewrite (run_bind_done _ _ _ tt _ (map_page_spec _ _ _ p P0)). clear P0.
    rewrite page_entry_0. change (Z.shiftr (f0 * page_size + o) 12) with (page_entry (f0 * page_size + o)).
    rewrite page_entry_page by done.
    set (p1 := set_entries _ p).
    destruct n as [|n'].
    + exists p1. split_and!; [done|by intros []|]. intros i. cbn. unfold upd.
      destruct (Z.eqb_spec i a) as [-> |]; [|by rewrite bool_decide_false by lia].
      rewrite bool_decide_true by lia. by rewrite Z.sub_diag, Z.add_0_r.
    + set (n := S n') in *.
      assert (u32 (f0 * page_size + o + page_size) = (f0 + 1) * page_size + o) as ->.
      { rewrite uwrap_small; unfold page_size in *; lia. }
      assert (u32 (a * page_size + page_size) = (a + 1) * page_size) as ->.
      { rewrite uwrap_small; unfold page_size in *; lia. }
      destruct (IH (a + 1) (f0 + 1) o flags p1) as (p' & E & L & Q); try done; try lia.
      { intros i Hi. cbn. unfold upd. rewrite (proj2 (Z.eqb_neq i a)) by lia. apply Hp. lia. }
      exists p'. split_and!; [done|intros u; rewrite L; by destruct u|]. intros i. rewrite Q. cbn. unfold upd.
      destruct (Z.eqb_spec i a) as [-> |].
      * rewrite bool_decide_false by lia. rewrite bool_decide_true by lia. by rewrite Z.sub_diag, Z.add_0_r.
      * destruct (decide (a <= i < a + Z.of_nat (S n))).
        -- rewrite !bool_decide_true by lia. f_equal. lia.
        -- rewrite !bool_decide_false by lia. done.
Qed.

(** The pages [mmap] needs for [len] bytes at [p_addr]. *)
Definition mmap_pages (p_addr len : Z) : Z := pages_of (len + p_addr mod page_size).

Lemma mmap_effect p_addr len flags p :
  kernel_inv p -> 0 <= p_addr -> 0 < len -> p_addr + len <= 2 ^ 32 -> len < 2 ^ 32 - page_size ->
  let n := mmap_pages p_addr len in
  (exists a p', mmap p_addr len flags p = Done (a * page_size + p_addr mod page_size, p') /\
     base false <= a /\ a + n <= limit false /\ free_run a n (entries p) /\ kernel_inv p' /\
     forall i, entries p' i = if bool_decide (a <= i < a + n)
       then mapped flags (p_addr / page_size + (i - a)) else entries p i) \/
  (mmap p_addr len flags p = Fault Panic /\
   forall a, base false <= a -> a + n <= limit false -> ~ free_run a n (entries p)).
Proof.
  intros [I KB] Hp Hl Hb Hb' n. pose proof (kernel_inv_sound p n (Build_kernel_inv p I KB)) as T. unfold mmap. change 0xFFF with (Z.ones 12). rewrite Z.land_ones by lia.
  change (2 ^ 12) with page_size. pose proof (Z.mod_pos_bound p_addr page_size ltac:(done)) as O.
  assert (2 ^ 32 = page_size * 2 ^ 20) as P32 by done.
  rewrite (uwrap_small 32 (len + p_addr mod page_size)) by lia. fold (mmap_pages p_addr len). fold n.
  unfold Ztrue. rewrite (proj2 (Z.eqb_neq _ 0)) by lia. cbn [negb]. rewrite run_assert_true.
  pose proof (pages_of_bounds (len + p_addr mod page_size) ltac:(lia)) as B. fold (mmap_pages p_addr len) in B. fold n in B.
  pose proof (Z.div_mod p_addr page_size ltac:(done)) as D. unfold page_size in B, O, D, P32 |- *.
  destruct (alloc_virtual_page_run false n p I ltac:(lia) T) as [(a & p1 & E & Al)|[E N]].
  - left. rewrite (run_bind_done _ _ _ _ _ E). destruct Al as (A1 & A2 & A3 & A4 & A5).
    pose proof (base_limit false) as BL. assert (0 <= p_addr / 0x1000) by (apply Z.div_pos; lia).
    destruct (mmap_loop_spec (Z.to_nat n) a (p_addr / 0x1000) (p_addr mod 0x1000) flags p1)
      as (p' & E' & L & Q); unfold page_size; rewrite ?Z2Nat.id; try lia.
    { intros i Hi. rewrite A4, bool_decide_true by lia. cbn. specialize (A3 i Hi).
      destruct (present (entries p i)) eqn:Pr; [|done]. apply (pi_claimed _ I) in Pr. congruence. }
    unfold page_size in E'. rewrite (Z.mul_comm _ 0x1000), <- D in E'.
    exists a, p'. rewrite (run_bind_done _ _ _ _ _ E'), run_ret, uwrap_small by lia.
    rewrite Z2Nat.id in Q by lia.
    assert (Q' : forall i, entries p' i = if bool_decide (a <= i < a + n)
       then mapped flags (p_addr / page_size + (i - a)) else entries p i).
    { intros i. rewrite Q. case_bool_decide; [done|]. by rewrite A4, bool_decide_false. }
    split_and!; try done; try lia. split; [split|].
    + intros i. rewrite Q'. case_bool_decide; [done|]. apply I.
    + intros u. rewrite L. apply A5.
    + rewrite Q', bool_decide_false; [done|]. intros J. apply (pi_claimed _ I) in KB. rewrite A3 in KB; done.
  - right. split; [by apply run_bind_fault|exact N].
Qed.

Lemma physical_address_mapped v p flags frame :
  entries p (page_entry v) = mapped flags frame -> has flags Sentinel = false -> 0 <= frame < 2 ^ 20 ->
  physical_address v p = frame * page_size + v mod page_size.
Proof.
  intros E S F. unfold physical_address. rewrite E. cbn [mapped present phys_addr]. rewrite S. cbn [negb].
  change 0xFFF with (Z.ones 12). rewrite Z.land_ones, Z.shiftl_mul_pow2 by lia. change (2 ^ 12) with 0x1000.
  unfold page_size. pose proof (Z.mod_pos_bound v 0x1000 ltac:(lia)).
  rewrite (uwrap_small 32 (frame * 0x1000)) by lia. by rewrite uwrap_small by lia.
Qed.

(** C15: with the tables of a mapped kernel ([kernel_inv], which [create_paging_info]
    establishes and [mmap] keeps: its first page is present), [mmap] of a physical range
    gives a fresh virtual range that translates to it, byte for byte and with the access
    rights asked for; no other entry changes.  It panics only when the kernel has no run
    of enough free pages. *)
Theorem mmap_translates (p_addr len flags : Z) (p : paging) :
  kernel_inv p -> 0 <= p_addr -> 0 < len -> p_addr + len <= 2 ^ 32 ->
  len < 2 ^ 32 - page_size -> has flags Sentinel = false ->
  let n := mmap_pages p_addr len in
  (exists v p', mmap p_addr len flags p = Done (v, p') /\ kernel_inv p' /\
     (forall k, 0 <= k < len ->
        physical_address (v + k) p' = p_addr + k /\ is_mapped (v + k) p' = true /\
        write (entries p' (page_entry (v + k))) = has flags Write /\
        user (entries p' (page_entry (v + k))) = has flags User /\
        os_claimed (entries p (page_entry (v + k))) = false) /\
     (forall i, ~ (page_entry v <= i < page_entry v + n) -> entries p' i = entries p i)) \/
  (mmap p_addr len flags p = Fault Panic /\
   forall a, base false <= a -> a + n <= limit false -> ~ free_run a n (entries p)).
Proof.
  intros I Hp Hl Hb Hb' S n. destruct (mmap_effect p_addr len flags p I Hp Hl Hb Hb') as
    [(a & p' & E & A1 & A2 & A3 & A4 & Q)|N]; [left|by right].
  pose proof (Z.mod_pos_bound p_addr page_size ltac:(done)) as O.
  pose proof (pages_of_bounds (len + p_addr mod page_size) ltac:(lia)) as B. fold (mmap_pages p_addr len) in B.
  pose proof (Z.div_mod p_addr page_size ltac:(done)) as D.
  assert (0 <= p_addr / page_size) by (by apply Z.div_pos).
  exists (a * page_size + p_addr mod page_size), p'. split_and!; [done|done| |].
  - intros k Hk. set (x := p_addr mod page_size + k) in *.
    pose proof (Z.div_mod x page_size ltac:(done)) as X. pose proof (Z.mod_pos_bound x page_size ltac:(done)) as XB.
    assert (0 <= x / page_size) by (apply Z.div_pos; unfold page_size; lia).
    assert (V : a * page_size + p_addr mod page_size + k = (a + x / page_size) * page_size + x mod page_size) by lia.
    assert (PE : page_entry (a * page_size + p_addr mod page_size + k) = a + x / page_size).
    { rewrite V. by apply page_entry_page. }
    assert (R : a <= a + x / page_size < a + mmap_pages p_addr len) by (unfold page_size in *; lia).
    assert (EN : entries p' (a + x / page_size) = mapped flags (p_addr / page_size + x / page_size)).
    { rewrite Q, bool_decide_true by done. f_equal. lia. }
    unfold is_mapped. rewrite !PE. rewrite EN. cbn [mapped present write user]. rewrite S.
    split_and!; try done.
    + erewrite physical_address_mapped; [|by rewrite PE|done|unfold page_size in *; lia].
      assert ((a * page_size + p_addr mod page_size + k) mod page_size = x mod page_size) as ->.
      { rewrite V, Z.add_comm, Z.mod_add by done. by apply Z.mod_mod. }
      unfold page_size in *; lia.
    + by apply A3.
  - intros i Hi. rewrite page_entry_page in Hi by done. rewrite Q, bool_decide_false by done. done.
Qed.

(** ** Unmapping *)

Lemma unmap_page_spec v p :
  os_claimed (entries p (page_entry v)) = true ->
  exists e, os_claimed e = false /\ present e = false /\
    unmap_page v p = Done (tt, set_entries (upd (page_entry v) e (entries p)) p).
Proof.
  intros H. unfold unmap_page, release_virtual_page. change (Z.to_nat 1) with 1%nat. cbn [release_loop].
  unfold mbind, M_bind, gets. rewrite H. cbn. eexists. split_and!; [| |reflexivity]; done.
Qed.

Lemma unmap_loop_spec n : forall a o p,
  0 <= o < page_size -> 0 <= a -> a + Z.of_nat n < 2 ^ 20 ->
  (forall i, a <= i < a + Z.of_nat n -> os_claimed (entries p i) = true) ->
  exists p', unmap_loop n (a * page_size + o) p = Done (tt, p') /\
    forall i, if bool_decide (a <= i < a + Z.of_nat n)
      then os_claimed (entries p' i) = false /\ present (entries p' i) = false else entries p' i = entries p i.
Proof.
  induction n as [|n IH]; intros a o p Ho Ha Hn Hc; cbn [unmap_loop].
  - exists p. split; [done|]. intros i. rewrite bool_decide_false by lia. done.
  - destruct (unmap_page_spec (a * page_size + o) p) as (e & C & P & E).
    { rewrite page_entry_page by done. apply Hc. lia. }
    rewrite (run_bind_done _ _ _ _ _ E). rewrite page_entry_page by done.
    assert (u32 (a * page_size + o + page_size) = (a + 1) * page_size + o) as ->.
    { rewrite uwrap_small; unfold page_size in *; lia. }
    destruct (IH (a + 1) o (set_entries (upd a e (entries p)) p)) as (p' & E' & Q); try done; try lia.
    { intros i Hi. cbn. unfold upd. rewrite (proj2 (Z.eqb_neq i a)) by lia. apply Hc. lia. }
    exists p'. split; [done|]. intros i. specialize (Q i). cbn in Q. unfold upd in Q.
    destruct (Z.eqb_spec i a) as [Ei|Ei].
    + subst i. rewrite bool_decide_false in Q by lia. rewrite bool_decide_true by lia. by rewrite Q.
    + destruct (decide (a <= i < a + Z.of_nat (S n))).
      * rewrite bool_decide_true in * by lia. done.
      * rewrite bool_decide_false in * by lia. done.
Qed.

(** [unmap] after [mmap] always ends, and gives back the pages [len] fills: all that
    were mapped when the range starts at a page, one too few when the range crosses
    one more page boundary, which stays claimed for good. *)
Theorem mmap_unmap (p_addr len flags v : Z) (p p1 : paging) :
  kernel_inv p -> 0 <= p_addr -> 0 < len -> p_addr + len <= 2 ^ 32 ->
  len < 2 ^ 32 - page_size -> mmap p_addr len flags p = Done (v, p1) ->
  exists p2, unmap v len p1 = Done (tt, p2) /\
    (forall i, os_claimed (entries p2 i) =
       (bool_decide (page_entry v + pages_of len <= i < page_entry v + mmap_pages p_addr len) || os_claimed (entries p i))) /\
    (p_addr mod page_size = 0 -> forall i, os_claimed (entries p2 i) = os_claimed (entries p i)).
Proof.
  intros I Hp Hl Hb Hb' E.
  destruct (mmap_effect p_addr len flags p I Hp Hl Hb Hb') as [(a & p' & E' & A1 & A2 & A3 & A4 & Q)|[E' _]];
    rewrite E in E'; [injection E' as -> <-|done].
  pose proof (Z.mod_pos_bound p_addr page_size ltac:(done)) as O. pose proof (base_limit false) as BL.
  assert (limit false < 2 ^ 20) by (by vm_compute).
  pose proof (pages_of_bounds (len + p_addr mod page_size) ltac:(lia)) as B. fold (mmap_pages p_addr len) in B.
  pose proof (pages_of_bounds len ltac:(lia)) as B'.
  assert (N : 0 < pages_of len <= mmap_pages p_addr len) by (unfold page_size in *; lia).
  destruct (unmap_loop_spec (Z.to_nat (pages_of len)) a (p_addr mod page_size) p1) as (p2 & U & R);
    rewrite ?Z2Nat.id by lia; try lia.
  { intros i Hi. by rewrite Q, bool_decide_true by lia. }
  rewrite Z2Nat.id in R by lia.
  assert (G : forall i, os_claimed (entries p2 i) =
       (bool_decide (page_entry (a * page_size + p_addr mod page_size) + pages_of len <= i <
          page_entry (a * page_size + p_addr mod page_size) + mmap_pages p_addr len) || os_claimed (entries p i))).
  { intros i. rewrite page_entry_page by done. specialize (R i).
    destruct (decide (a <= i < a + pages_of len)) as [J|J].
    - rewrite bool_decide_true in R by done. destruct R as [-> _]. rewrite bool_decide_false by lia.
      cbn. symmetry. apply A3. lia.
    - rewrite bool_decide_false in R by done. rewrite R, Q.
      destruct (decide (a <= i < a + mmap_pages p_addr len)).
      + by rewrite !bool_decide_true by lia.
      + by rewrite !bool_decide_false by lia. }
  exists p2. split_and!; [done|exact G|]. intros Z0 i. rewrite G.
  rewrite bool_decide_false; [done|]. unfold mmap_pages. rewrite Z0, !Z.add_0_r. lia.
Qed.

(** The value and the state of an outcome that is known to be a value. *)
Definition state_of {A} (d : paging) (o : outcome (A * paging)) : paging := match o with Done (_, q) => q | _ => d end.
Definition returns_Z (v : Z) (o : outcome (Z * paging)) : bool := match o with Done (w, _) => w =? v | _ => false end.
Lemma returns_Z_true v o d : returns_Z v o = true -> o = Done (v, state_of d o).
Proof. destruct o as [[w q]|]; [|done]. cbn. by intros ->%Z.eqb_eq. Qed.

(** Two bytes across a page boundary. *)
Definition boot : paging := create_paging_info 0x400000.
Definition boot_mapped : paging := state_of boot (mmap 0x1FFF 2 Read boot).
Lemma boot_kernel_inv : kernel_inv boot.
Proof. apply create_paging_info_inv. lia. Qed.
Lemma boot_mapped_inv : kernel_inv boot_mapped.
Proof.
  unfold boot_mapped. destruct (mmap_effect 0x1FFF 2 Read boot boot_kernel_inv ltac:(lia) ltac:(lia) ltac:(lia) ltac:(unfold page_size; lia))
    as [(a & p' & E & _ & _ & _ & K & _)|[E _]]; rewrite E; [exact K|exact boot_kernel_inv].
Qed.

(** The text screen, mapped after another range. *)
Lemma mmap_translates_witness :
  exists v p', mmap 0xB8010 0x2000 (Read + Write) boot_mapped = Done (v, p') /\ kernel_inv p' /\
     (forall k, 0 <= k < 0x2000 ->
        physical_address (v + k) p' = 0xB8010 + k /\ is_mapped (v + k) p' = true /\
        write (entries p' (page_entry (v + k))) = has (Read + Write) Write /\
        user (entries p' (page_entry (v + k))) = has (Read + Write) User /\
        os_claimed (entries boot_mapped (page_entry (v + k))) = false) /\
     (forall i, ~ (page_entry v <= i < page_entry v + mmap_pages 0xB8010 0x2000) -> entries p' i = entries boot_mapped i).
Proof.
  destruct (mmap_translates 0xB8010 0x2000 (Read + Write) boot_mapped boot_mapped_inv)
    as [H|[H _]]; [lia|lia|lia|unfold page_size; lia|reflexivity|exact H|exfalso].
  assert (match mmap 0xB8010 0x2000 (Read + Write) boot_mapped with Done _ => true | Fault _ => false end = true) as G
    by (vm_compute; reflexivity). rewrite H in G. discriminate.
Defined.

Lemma mmap_unmap_witness :
  exists p2, unmap 0xC0402FFF 2 boot_mapped = Done (tt, p2) /\
    (forall i, os_claimed (entries p2 i) =
       (bool_decide (page_entry 0xC0402FFF + pages_of 2 <= i < page_entry 0xC0402FFF + mmap_pages 0x1FFF 2) ||
        os_claimed (entries boot i))) /\
    (0x1FFF mod page_size = 0 -> forall i, os_claimed (entries p2 i) = os_claimed (entries boot i)).
Proof.
  apply (mmap_unmap 0x1FFF 2 Read 0xC0402FFF boot boot_mapped); try lia.
  - exact boot_kernel_inv.
  - unfold page_size; lia.
  - apply returns_Z_true. vm_compute. reflexivity.
Defined.
End Memmap.
