(* ===== verification/PhysAlloc.v ===== *)
(** * PhysAlloc: the allocator of physical pages

    [kern/i686/mem/physallocator.cpp] on top of a set of bits (the class [BitSet]) and of
    the page tables, and the bootstrap of its bitmap from the memory map of the boot
    loader in [kern/i686/pc/mem/mbmeminfo.cpp]. *)
From stdpp Require Import base list.
From Stdlib Require Import ZArith Lia.
From S2P Require Import Prelude BitArray Paging PagingProofs Memmap.
Import Paging PagingProofs Memmap.

Module PhysAlloc.
Section allocator.
Context {B : Type} `{BS : BitSet B}.

Definition array_size : Z := 1024 * 1024.
Definition fill_pattern : Z := 0xDEADBEEF.

(** The static members of [PhysPageAllocator]. *)
Record phys := mkPhys { mem_bitmap : B; phys_last_pos : Z; allocated_pages : Z }.
(** With the page tables, and for each frame the word [memsetl] last filled it with. *)
Record kmem := mkKmem { pm : phys; pg : paging; frames : Z -> option Z }.

Definition on_phys {A} (m : M phys A) : M kmem A := fun s =>
  match m (pm s) with Done (a, x) => Done (a, mkKmem x (pg s) (frames s)) | Fault f => Fault f end.
Definition on_paging {A} (m : M paging A) : M kmem A := fun s =>
  match m (pg s) with Done (a, x) => Done (a, mkKmem (pm s) x (frames s)) | Fault f => Fault f end.

Definition get_bit (i : Z) : M phys bool := fun p =>
  match bs_get i (mem_bitmap p) with Done b => Done (b, p) | Fault f => Fault f end.
Definition set_bit (i : Z) (v : bool) : M phys unit := fun p =>
  match bs_set i v (mem_bitmap p) with
  | Done m => Done (tt, mkPhys m (phys_last_pos p) (allocated_pages p))
  | Fault f => Fault f
  end.
Definition set_phys_last (v : Z) : M phys unit := modify (fun p => mkPhys (mem_bitmap p) v (allocated_pages p)).
Definition add_allocated (v : Z) : M phys unit :=
  modify (fun p => mkPhys (mem_bitmap p) (phys_last_pos p) (s32 (allocated_pages p + v))).

(** [for (i = ..; n times; ++i) mem_bitmap[i] = v]. *)
Fixpoint set_bits (n : nat) (i : Z) (v : bool) : M phys unit :=
  match n with
  | O => mret tt
  | S n => set_bit i v ;; set_bits n (i + 1) v
  end.

Definition init : M phys unit := set_bits (Z.to_nat array_size) 0 true.

(** The pages of a range as [mark_as_used] and [mark_as_free] count them: from
    [base_page] to [end_page], included. *)
Definition base_page (addr : Z) : Z := Z.shiftr addr 12.
Definition end_page (addr size : Z) : Z :=
  let end_addr := u32 (addr + size) in
  Z.shiftr end_addr 12 + (if Ztrue (Z.land end_addr 0xFFF) then 1 else 0).
Definition mark (v : bool) (addr size : Z) : M phys unit :=
  set_bits (Z.to_nat (end_page addr size + 1 - base_page addr)) (base_page addr) v.
Definition mark_as_used (addr size : Z) : M phys unit := mark true addr size.
Definition mark_as_free (addr size : Z) : M phys unit := mark false addr size.

(** The [for] loop of [find_free_page]. *)
Fixpoint find_from (n : nat) (i : Z) : M phys (option Z) :=
  match n with
  | O => mret None
  | S n =>
      b ← get_bit i;
      if negb b then set_bit i true ;; set_phys_last (i + 1) ;; mret (Some (u32 (i * page_size)))
      else find_from n (i + 1)
  end.
Definition find_pass : M phys (option Z) :=
  p ← get; find_from (Z.to_nat (array_size - phys_last_pos p)) (phys_last_pos p).
Definition out_of_memory : M phys Z := set_bits (Z.to_nat page_size) 0 false ;; fail Panic.
Definition find_free_page : M phys Z :=
  r ← find_pass;
  match r with
  | Some page => mret page
  | None =>
      last ← gets phys_last_pos;
      if negb (last =? 0) then
        set_phys_last 0 ;;
        r ← find_pass;
        match r with Some page => mret page | None => out_of_memory end
      else out_of_memory
  end.

(** [memsetl] of a whole page at [ptr]. *)
Definition fill_page (ptr : Z) : M kmem unit :=
  modify (fun s => mkKmem (pm s) (pg s) (fun f => if f =? physical_address ptr (pg s) / page_size
                                                   then Some fill_pattern else frames s f)).
Definition clear_page (p_addr : Z) : M kmem unit :=
  ptr ← on_paging (alloc_virtual_page 1 false);
  on_paging (map_page p_addr ptr (Z.lor Read Write)) ;;
  fill_page ptr ;;
  on_paging (unmap_page ptr).

Definition alloc_physical_page : M kmem Z :=
  page ← on_phys find_free_page;
  clear_page page ;;
  on_phys (add_allocated 1) ;;
  mret page.

Definition release_physical_page (p_addr : Z) : M phys bool :=
  let base := Z.shiftr p_addr 12 in
  released ← get_bit base;
  set_bit base false ;;
  assert_ released ;;
  set_phys_last base ;;
  add_allocated (-1) ;;
  mret released.

(** ** Correctness *)

Definition bits (p : phys) : Z -> bool := bs_bit (mem_bitmap p).
Definition phys_ok (p : phys) : Prop := bs_size (mem_bitmap p) = array_size /\ 0 <= phys_last_pos p <= array_size.

Lemma get_bit_spec p i : phys_ok p -> 0 <= i < array_size -> get_bit i p = Done (bits p i, p).
Proof. intros [H _] Hi. unfold get_bit. rewrite bs_get_spec by lia. done. Qed.

Lemma set_bit_spec p i v : phys_ok p -> 0 <= i < array_size ->
  exists p', set_bit i v p = Done (tt, p') /\ phys_ok p' /\ phys_last_pos p' = phys_last_pos p /\
    allocated_pages p' = allocated_pages p /\
    forall j, 0 <= j < array_size -> bits p' j = if decide (j = i) then v else bits p j.
Proof.
  intros [H L] Hi. unfold set_bit. destruct (bs_set_spec (mem_bitmap p) i v) as (m & E & Sz & Q); [lia|].
  rewrite E. eexists. split; [done|]. split_and!; [split; cbn; [lia|done]|done|done|].
  intros j Hj. unfold bits; cbn. apply Q. lia.
Qed.

Lemma set_bits_spec n : forall i v p, phys_ok p -> 0 <= i -> i + Z.of_nat n <= array_size ->
  exists p', set_bits n i v p = Done (tt, p') /\ phys_ok p' /\ phys_last_pos p' = phys_last_pos p /\
    allocated_pages p' = allocated_pages p /\
    forall j, 0 <= j < array_size -> bits p' j = if bool_decide (i <= j < i + Z.of_nat n) then v else bits p j.
Proof.
  induction n as [|n IH]; intros i v p Hp Hi Hn; cbn [set_bits].
  - exists p. split_and!; try done; try apply Hp. intros j _. by rewrite bool_decide_false by lia.
  - destruct (set_bit_spec p i v Hp ltac:(lia)) as (p1 & E1 & O1 & L1 & A1 & Q1).
    rewrite (run_bind_done _ _ _ _ _ E1).
    destruct (IH (i + 1) v p1 O1 ltac:(lia) ltac:(lia)) as (p2 & E2 & O2 & L2 & A2 & Q2).
    exists p2. split_and!; try done; try apply O2; try congruence. intros j Hj. rewrite Q2, Q1 by done.
    destruct (decide (j = i)) as [-> |].
    + rewrite bool_decide_false by lia. by rewrite bool_decide_true by lia.
    + destruct (decide (i <= j < i + Z.of_nat (S n))).
      * by rewrite !bool_decide_true by lia.
      * by rewrite !bool_decide_false by lia.
Qed.

(** Taking page [i]: it was free, it is used now and the search goes on behind it. *)
Definition taken (i : Z) (p p' : phys) : Prop :=
  0 <= i < array_size /\ bits p i = false /\ phys_ok p' /\ phys_last_pos p' = i + 1 /\
  allocated_pages p' = allocated_pages p /\
  forall j, 0 <= j < array_size -> bits p' j = if decide (j = i) then true else bits p j.

Lemma find_from_spec n : forall i p, phys_ok p -> 0 <= i -> i + Z.of_nat n = array_size ->
  (exists k p', find_from n i p = Done (Some (k * page_size), p') /\ i <= k /\ taken k p p') \/
  (find_from n i p = Done (None, p) /\ forall j, i <= j < array_size -> bits p j = true).
Proof.
  induction n as [|n IH]; intros i p Hp Hi Hn; cbn [find_from].
  - right. split; [done|]. intros j. lia.
  - rewrite (run_bind_done _ _ _ _ _ (get_bit_spec p i Hp ltac:(lia))).
    destruct (bits p i) eqn:Bi; cbn [negb].
    + destruct (IH (i + 1) p Hp ltac:(lia) ltac:(lia)) as [(k & p' & E & K & T)|[E N]].
      * left. exists k, p'. split_and!; [done|lia|done..]; apply T.
      * right. split; [done|]. intros j Hj. destruct (decide (j = i)) as [-> |]; [done|]. apply N. lia.
    + left. destruct (set_bit_spec p i true Hp ltac:(lia)) as (p1 & E1 & O1 & L1 & A1 & Q1).
      rewrite (run_bind_done _ _ _ _ _ E1). unfold set_phys_last. rewrite run_bind_modify, run_ret.
      assert (array_size * page_size = 2 ^ 32) by done.
      rewrite uwrap_small by (unfold page_size in *; lia). exists i. eexists. split; [done|]. split; [lia|].
      split_and!; try done; try lia. split; cbn; [apply O1|lia].
Qed.

Lemma find_free_page_spec p : phys_ok p ->
  (exists k p', find_free_page p = Done (k * page_size, p') /\ taken k p p') \/
  (find_free_page p = Fault Panic /\ forall j, 0 <= j < array_size -> bits p j = true).
Proof.
  intros Hp. unfold find_free_page, find_pass. rewrite run_bind_bind. rewrite (run_bind_done get _ p p p) by done.
  pose proof (proj2 Hp) as L.
  assert (OOM : forall q, phys_ok q -> out_of_memory q = Fault Panic).
  { intros q Hq. unfold out_of_memory.
    destruct (set_bits_spec (Z.to_nat page_size) 0 false q Hq ltac:(lia) ltac:(by vm_compute)) as (q' & E & _).
    by rewrite (run_bind_done _ _ _ _ _ E). }
  destruct (find_from_spec (Z.to_nat (array_size - phys_last_pos p)) (phys_last_pos p) p Hp ltac:(lia) ltac:(lia))
    as [(k & p' & E & K & T)|[E N]]; rewrite (run_bind_done _ _ _ _ _ E).
  - left. exists k, p'. by split.
  - rewrite run_bind_gets. destruct (Z.eqb_spec (phys_last_pos p) 0) as [Z|Z]; cbn [negb].
    + right. split; [by apply OOM|]. intros j Hj. apply N. lia.
    + unfold set_phys_last. rewrite run_bind_modify.
      set (q := mkPhys (mem_bitmap p) 0 (allocated_pages p)).
      assert (Hq : phys_ok q) by (split; [apply Hp|cbn; unfold array_size; lia]).
      rewrite run_bind_bind. rewrite (run_bind_done get _ q q q) by done.
      change (phys_last_pos q) with 0.
      destruct (find_from_spec (Z.to_nat (array_size - 0)) 0 q Hq ltac:(lia) ltac:(lia))
        as [(k & p' & E' & K & T)|[E' N']]; rewrite (run_bind_done _ _ _ _ _ E').
      * left. exists k, p'. by split.
      * right. split; [by apply OOM|]. intros j Hj. apply N'. cbn. lia.
Qed.

Lemma run_on_paging {A C} (m : M paging A) (k : A -> M kmem C) s a x :
  m (pg s) = Done (a, x) -> (on_paging m ≫= k) s = k a (mkKmem (pm s) x (frames s)).
Proof. intros E. apply run_bind_done. unfold on_paging. by rewrite E. Qed.
Lemma run_on_phys {A C} (m : M phys A) (k : A -> M kmem C) s a x :
  m (pm s) = Done (a, x) -> (on_phys m ≫= k) s = k a (mkKmem x (pg s) (frames s)).
Proof. intros E. apply run_bind_done. unfold on_phys. by rewrite E. Qed.

(** [clear_page] fills the frame through a page it gives back. *)
Lemma clear_page_spec k s :
  pt_inv (pg s) -> 0 <= k < array_size ->
  (exists s', clear_page (k * page_size) s = Done (tt, s') /\ pm s' = pm s /\ pt_inv (pg s') /\
     (forall f, frames s' f = if f =? k then Some fill_pattern else frames s f) /\
     (forall i, os_claimed (entries (pg s') i) = os_claimed (entries (pg s) i)) /\
     (forall i, os_claimed (entries (pg s) i) = true -> entries (pg s') i = entries (pg s) i)) \/
  (clear_page (k * page_size) s = Fault Panic /\
   forall a, base false <= a < limit false -> os_claimed (entries (pg s) a) = true).
Proof.
  intros I Hk. unfold clear_page.
  destruct (alloc_virtual_page_run false 1 (pg s) I ltac:(lia) ltac:(by left)) as [(a & p1 & E & A1 & A2 & A3 & A4 & A5)|[E N]].
  - left. rewrite (run_on_paging _ _ _ _ _ E).
    assert (F : os_claimed (entries (pg s) a) = false) by (apply A3; lia).
    assert (P1 : present (entries p1 (page_entry (a * page_size))) = false).
    { rewrite page_entry_0, A4, bool_decide_true by lia. cbn.
      destruct (present (entries (pg s) a)) eqn:Pr; [|done]. apply (pi_claimed _ I) in Pr. congruence. }
    rewrite (run_on_paging _ _ (mkKmem _ p1 _) _ _ (map_page_spec _ _ _ p1 P1)). cbn [pm pg frames].
    unfold fill_page. rewrite run_bind_modify. cbn [pm pg frames]. rewrite page_entry_0.
    change (Z.shiftr (k * page_size) 12) with (page_entry (k * page_size)). rewrite page_entry_0.
    set (p2 := set_entries (upd a (mapped (Z.lor Read Write) k) (entries p1)) p1).
    assert (U : forall i, entries p2 i = if i =? a then mapped (Z.lor Read Write) k else entries p1 i) by done.
    assert (PA : physical_address (a * page_size) p2 = k * page_size).
    { rewrite (physical_address_mapped _ _ (Z.lor Read Write) k); [| |reflexivity|exact Hk].
      - rewrite Z.mod_mul by done. lia.
      - rewrite page_entry_0, U, Z.eqb_refl. done. }
    rewrite PA, Z.div_mul by done.
    destruct (unmap_page_spec (a * page_size) p2) as (e & C & Pr & E2).
    { by rewrite page_entry_0, U, Z.eqb_refl. }
    unfold on_paging. cbn [pg]. rewrite E2. rewrite page_entry_0. eexists. split; [done|]. cbn [pm pg frames].
    assert (V : forall i, entries (set_entries (upd a e (entries p2)) p2) i = if i =? a then e else entries (pg s) i).
    { intros i. cbn. unfold upd. destruct (Z.eqb_spec i a); [done|]. rewrite A4, bool_decide_false by lia. done. }
    split_and!; try done.
    + split; [|intros u; specialize (pi_last _ A5 u); by destruct u].
      intros i. rewrite V. destruct (i =? a); [congruence|apply I].
    + intros i. rewrite V. destruct (Z.eqb_spec i a) as [-> |]; [congruence|done].
    + intros i Hi. rewrite V. destruct (Z.eqb_spec i a) as [-> |]; [congruence|done].
  - right. split; [apply run_bind_fault; unfold on_paging; by rewrite E|].
    intros a Ha. destruct (os_claimed (entries (pg s) a)) eqn:F; [done|]. exfalso. apply (N a); [lia|lia|].
    intros j Hj. by replace j with a by lia.
Qed.

Lemma alloc_physical_page_run (s : kmem) :
  phys_ok (pm s) -> pt_inv (pg s) ->
  (exists k s', alloc_physical_page s = Done (k * page_size, s') /\ 0 <= k < array_size /\
     bits (pm s) k = false /\
     (forall j, 0 <= j < array_size -> bits (pm s') j = if decide (j = k) then true else bits (pm s) j) /\
     phys_ok (pm s') /\ allocated_pages (pm s') = s32 (allocated_pages (pm s) + 1) /\
     (forall f, frames s' f = if f =? k then Some fill_pattern else frames s f) /\ pt_inv (pg s') /\
     (forall i, os_claimed (entries (pg s') i) = os_claimed (entries (pg s) i)) /\
     (forall i, os_claimed (entries (pg s) i) = true -> entries (pg s') i = entries (pg s) i)) \/
  (alloc_physical_page s = Fault Panic /\
   ((forall j, 0 <= j < array_size -> bits (pm s) j = true) \/
    (forall a, base false <= a < limit false -> os_claimed (entries (pg s) a) = true))).
Proof.
  intros Hp I. unfold alloc_physical_page.
  destruct (find_free_page_spec (pm s) Hp) as [(k & p1 & E & R & F & O & L & A & Q)|[E N]].
  - rewrite (run_on_phys _ _ _ _ _ E).
    destruct (clear_page_spec k (mkKmem p1 (pg s) (frames s)) I R)
      as [(s2 & E2 & P2 & I2 & F2 & C2 & D2)|[E2 N2]]; cbn [pm pg frames] in *.
    + left. rewrite (run_bind_done _ _ _ _ _ E2). exists k. eexists.
      unfold add_allocated. rewrite (run_on_phys _ _ s2 tt _ eq_refl), run_ret. split; [done|]. cbn [pm pg frames].
      rewrite P2. split_and!; try done; try lia; try apply O.
      cbn. by rewrite A.
    + right. split; [by apply run_bind_fault|by right].
  - right. split; [apply run_bind_fault; unfold on_phys; by rewrite E|by left].
Qed.

(** [alloc_physical_page] hands out a page that was free, marks just this one as
    used, counts it and fills it with the pattern; the page table is as before but for
    the flags of the unclaimed page it was filled through.  It panics only when no
    physical page, or no kernel page to map it at, is free. *)
Theorem alloc_physical_page_spec (s : kmem) :
  phys_ok (pm s) -> pt_inv (pg s) ->
  (exists k s', alloc_physical_page s = Done (k * page_size, s') /\ 0 <= k < array_size /\
     bits (pm s) k = false /\
     (forall j, 0 <= j < array_size -> bits (pm s') j = if decide (j = k) then true else bits (pm s) j) /\
     phys_ok (pm s') /\ allocated_pages (pm s') = s32 (allocated_pages (pm s) + 1) /\
     (forall f, frames s' f = if f =? k then Some fill_pattern else frames s f) /\ pt_inv (pg s') /\
     (forall i, os_claimed (entries (pg s') i) = os_claimed (entries (pg s) i))) \/
  (alloc_physical_page s = Fault Panic /\
   ((forall j, 0 <= j < array_size -> bits (pm s) j = true) \/
    (forall a, base false <= a < limit false -> os_claimed (entries (pg s) a) = true))).
Proof.
  intros Hp I. destruct (alloc_physical_page_run s Hp I) as [(k & s' & H)|H]; [left|by right].
  exists k, s'. naive_solver.
Qed.

(** [release_physical_page] of a page that was just handed out gives back the bitmap
    and the count there were, and the page is the next to be handed out; releasing a page
    that is not in use stops the kernel. *)
Theorem release_physical_page_spec (p : phys) (k o : Z) :
  phys_ok p -> 0 <= k < array_size -> 0 <= o < page_size ->
  (bits p k = true -> exists p', release_physical_page (k * page_size + o) p = Done (true, p') /\
     phys_ok p' /\ allocated_pages p' = s32 (allocated_pages p - 1) /\
     (forall j, 0 <= j < array_size -> bits p' j = if decide (j = k) then false else bits p j) /\
     exists p'', find_free_page p' = Done (k * page_size, p'') /\
       forall j, 0 <= j < array_size -> bits p'' j = bits p j) /\
  (bits p k = false -> release_physical_page (k * page_size + o) p = Fault AssertFailed).
Proof.
  intros Hp Hk Ho. unfold release_physical_page.
  change (Z.shiftr (k * page_size + o) 12) with (page_entry (k * page_size + o)). rewrite page_entry_page by done.
  rewrite (run_bind_done _ _ _ _ _ (get_bit_spec p k Hp Hk)).
  destruct (set_bit_spec p k false Hp Hk) as (p1 & E1 & O1 & L1 & A1 & Q1).
  rewrite (run_bind_done _ _ _ _ _ E1).
  split; intros Bk; rewrite Bk; [|done]. rewrite run_assert_true.
  unfold set_phys_last, add_allocated. rewrite !run_bind_modify, run_ret.
  set (p' := mkPhys _ _ _). assert (Hp' : phys_ok p') by (split; [apply O1|cbn; lia]).
  assert (Q' : forall j, 0 <= j < array_size -> bits p' j = if decide (j = k) then false else bits p j) by exact Q1.
  exists p'. split; [done|]. split; [done|]. split; [by cbn; rewrite A1|]. split; [exact Q'|].
  unfold find_free_page, find_pass. rewrite run_bind_bind. rewrite (run_bind_done get _ p' p' p') by done.
  change (phys_last_pos p') with k.
  destruct (find_from_spec (Z.to_nat (array_size - k)) k p' Hp' ltac:(lia) ltac:(lia)) as [(i & q & E & K & T)|[_ N]].
  - assert (i = k) as ->.
    { replace (Z.to_nat (array_size - k)) with (S (Z.to_nat (array_size - k - 1))) in E by lia. cbn [find_from] in E.
      rewrite (run_bind_done _ _ _ _ _ (get_bit_spec p' k Hp' Hk)) in E. rewrite Q', decide_True in E by done.
      cbn [negb] in E. destruct (set_bit_spec p' k true Hp' Hk) as (p3 & E3 & _).
      rewrite (run_bind_done _ _ _ _ _ E3) in E. unfold set_phys_last in E. rewrite run_bind_modify, run_ret in E.
      assert (array_size * page_size = 2 ^ 32) by done.
      rewrite uwrap_small in E by (unfold page_size in *; lia). injection E as E _. unfold page_size in E. lia. }
    exists q. rewrite (run_bind_done _ _ _ _ _ E). split; [done|]. intros j Hj.
    destruct T as (_ & _ & _ & _ & _ & T). rewrite T, Q' by done. by case_decide; subst.
  - specialize (N k ltac:(lia)). rewrite Q', decide_True in N by done. done.
Qed.

(** The pages that have a byte of the range. *)
Definition touches (addr size i : Z) : Prop := addr < (i + 1) * page_size /\ i * page_size < addr + size.

(** [mark_as_free] and [mark_as_used] set the bits of all pages of a range below the
    4 GiB limit, and besides them exactly that of the next page, which the range does not
    touch; a range that ends at the limit is not marked at all. *)
Theorem mark_spec (v : bool) (addr size : Z) (p : phys) :
  phys_ok p -> 0 <= addr -> 0 < size -> addr + size <= 2 ^ 32 ->
  (end_page addr size < array_size -> addr + size < 2 ^ 32 ->
   exists p', mark v addr size p = Done (tt, p') /\ phys_ok p' /\ ~ touches addr size (end_page addr size) /\
     (forall i, 0 <= i < array_size -> touches addr size i \/ i = end_page addr size -> bits p' i = v) /\
     (forall i, 0 <= i < array_size -> ~ touches addr size i -> i <> end_page addr size -> bits p' i = bits p i)) /\
  (addr + size = 2 ^ 32 -> page_size <= addr -> mark v addr size p = Done (tt, p)).
Proof.
  intros Hp Ha Hs Hb. split.
  - intros He Hl. unfold mark.
    assert (EB : addr + size <= end_page addr size * page_size < addr + size + page_size).
    { unfold end_page. rewrite uwrap_small by lia. change 0xFFF with (Z.ones 12).
      rewrite Z.land_ones, shiftr_div by lia. change (2 ^ 12) with 0x1000. unfold Ztrue, page_size.
      pose proof (Z.div_mod (addr + size) 0x1000 ltac:(lia)). pose proof (Z.mod_pos_bound (addr + size) 0x1000 ltac:(lia)).
      destruct (Z.eqb_spec ((addr + size) mod 0x1000) 0); cbn [negb]; lia. }
    assert (BB : base_page addr * page_size <= addr < (base_page addr + 1) * page_size /\ 0 <= base_page addr).
    { unfold base_page. rewrite shiftr_div by lia. change (2 ^ 12) with page_size.
      pose proof (Z.div_mod addr page_size ltac:(done)). pose proof (Z.mod_pos_bound addr page_size ltac:(done)).
      split; [unfold page_size in *; lia|by apply Z.div_pos]. }
    unfold touches, page_size in *. set (e := end_page addr size) in *. set (b := base_page addr) in *.
    destruct (set_bits_spec (Z.to_nat (e + 1 - b)) b v p Hp ltac:(lia) ltac:(lia)) as (p' & E & O & _ & _ & Q).
    exists p'. split_and!; try done; try apply O; try lia.
    + intros i Hi Ht. rewrite Q by done. rewrite bool_decide_true by lia. done.
    + intros i Hi Ht Hne. rewrite Q by done. rewrite bool_decide_false by lia. done.
  - intros E Hpg. unfold mark, end_page, base_page. rewrite E. unfold uwrap. rewrite Z.mod_same by done.
    change (Z.shiftr 0 12 + (if Ztrue (Z.land 0 0xFFF) then 1 else 0)) with 0.
    rewrite shiftr_div by lia. change (2 ^ 12) with 0x1000.
    assert (1 <= addr / 0x1000) by (apply Z.div_le_lower_bound; unfold page_size in *; lia).
    replace (Z.to_nat (0 + 1 - addr / 0x1000)) with O by lia. done.
Qed.

(** ** The memory map of the boot loader

    [mbmeminfo.cpp]; the list is what the walk over the [size] fields visits. *)
Record mmap_entry := mkZone { mm_size : Z; mm_addr : Z; mm_len : Z; mm_type : Z }.

Definition free_frames (l : list mmap_entry) : nat := length (filter (fun z => mm_type z = 1) l).
Fixpoint frame_from (counter idx : nat) (l : list mmap_entry) : option mmap_entry :=
  match l with
  | [] => None
  | z :: l =>
      if bool_decide (mm_type z = 1) then
        if Nat.eqb counter idx then Some z else frame_from (S counter) idx l
      else frame_from counter idx l
  end.
Definition frame (idx : nat) (l : list mmap_entry) : option mmap_entry := frame_from 0 idx l.
Definition largest_frame (l : list mmap_entry) : option mmap_entry :=
  foldl (fun msf z => match msf with Some m => if mm_size m <? mm_size z then Some z else msf | None => Some z end) None l.
Definition total_memory (kernel_physical_end : Z) (l : list mmap_entry) : Z :=
  u32 (foldl (fun total i => match frame i l with Some z => u32 (total + mm_len z) | None => total end) 0
         (seq 0 (free_frames l)) - kernel_physical_end).
Definition init_alloc_bitmap (kernel_physical_end : Z) (l : list mmap_entry) : M phys unit :=
  init ;;
  for_each (seq 0 (free_frames l)) (fun i =>
    match frame i l with
    | Some z => mark_as_free (u32 (mm_addr z)) (u32 (mm_len z))
    | None => mret tt
    end) ;;
  mark_as_used 0 (u32 (kernel_physical_end + 4 * 0x160000)).

Lemma frame_from_free idx l : forall counter, frame_from counter (counter + idx) l = filter (fun z => mm_type z = 1) l !! idx.
Proof.
  induction l as [|z l IH] in idx |- *; intros counter; cbn [frame_from]; [done|]. case_bool_decide as T.
  - rewrite filter_cons_True by done. destruct idx as [|idx].
    + by rewrite Nat.add_0_r, Nat.eqb_refl.
    + rewrite (proj2 (Nat.eqb_neq _ _)) by lia.
      replace (counter + S idx)%nat with (S counter + idx)%nat by lia. apply IH.
  - by rewrite filter_cons_False.
Qed.

(** A zone that ends before the last page below the limit. *)
Definition zone_ok (z : mmap_entry) : Prop :=
  0 <= mm_addr z /\ 0 < mm_len z /\ mm_addr z + mm_len z < 2 ^ 32 - page_size.

Lemma mark_ok v addr size p :
  phys_ok p -> 0 <= addr -> 0 <= size -> addr + size < 2 ^ 32 - page_size ->
  exists p', mark v addr size p = Done (tt, p') /\ phys_ok p' /\
    forall i, 0 <= i < array_size -> bits p' i = if bool_decide (base_page addr <= i <= end_page addr size) then v else bits p i.
Proof.
  intros Hp Ha Hs Hb. unfold mark. unfold page_size in Hb.
  assert (0 <= base_page addr) by (apply Z.shiftr_nonneg; lia).
  assert (EB : 0 <= end_page addr size < array_size).
  { unfold end_page, array_size. rewrite uwrap_small by lia. rewrite shiftr_div by lia. change (2 ^ 12) with 0x1000.
    assert (0 <= (addr + size) / 0x1000) by (apply Z.div_pos; lia).
    assert ((addr + size) / 0x1000 < 1024 * 1024 - 1) by (apply Z.div_lt_upper_bound; lia).
    destruct (Ztrue _); lia. }
  destruct (decide (base_page addr <= end_page addr size)) as [Le|Gt].
  - destruct (set_bits_spec (Z.to_nat (end_page addr size + 1 - base_page addr)) (base_page addr) v p Hp
      ltac:(lia) ltac:(lia)) as (p' & E & O & _ & _ & Q).
    exists p'. split_and!; try done; try apply O. intros i Hi. rewrite Q by done.
    destruct (decide (base_page addr <= i <= end_page addr size)).
    + by rewrite !bool_decide_true by lia.
    + by rewrite !bool_decide_false by lia.
  - replace (Z.to_nat _) with O by lia. exists p. split_and!; try done; try apply Hp.
    intros i Hi. by rewrite bool_decide_false by lia.
Qed.

Lemma free_zones_ok (zs : list mmap_entry) (pick : nat -> option mmap_entry) (ks : list nat) p :
  Forall zone_ok zs -> (forall i, In i ks -> exists z, pick i = Some z /\ In z zs) -> phys_ok p ->
  exists p', for_each ks (fun i => match pick i with
      | Some z => mark_as_free (u32 (mm_addr z)) (u32 (mm_len z)) | None => mret tt end) p = Done (tt, p') /\
    phys_ok p' /\
    forall j, 0 <= j < array_size -> bits p' j = false ->
      bits p j = false \/ exists z, In z zs /\ base_page (mm_addr z) <= j <= end_page (mm_addr z) (mm_len z).
Proof.
  intros Z. induction ks as [|i ks IH] in p |- *; intros Hpick Hp; cbn [for_each].
  - exists p. split_and!; try done; try apply Hp. auto.
  - destruct (Hpick i ltac:(by left)) as (z & Pz & Iz). rewrite Pz.
    assert (zone_ok z) as (Z1 & Z2 & Z3) by (rewrite Forall_forall in Z; apply Z; by apply list_elem_of_In).
    unfold page_size in Z3. rewrite !(uwrap_small 32) by lia.
    destruct (mark_ok false (mm_addr z) (mm_len z) p Hp Z1 ltac:(lia) ltac:(unfold page_size; lia)) as (p1 & E1 & O1 & Q1).
    rewrite (run_bind_done _ _ _ _ _ E1).
    destruct (IH p1) as (p2 & E2 & O2 & Q2); [intros k Hk; apply Hpick; by right|done|].
    exists p2. split_and!; try done; try apply O2. intros j Hj Fj.
    destruct (Q2 j Hj Fj) as [F1|]; [|by right]. rewrite Q1 in F1 by done.
    case_bool_decide; [right; exists z; done|by left].
Qed.

(** the bitmap the boot builds has a page marked as free only where an available zone
    of the memory map is (or right behind it), and none of the pages of the kernel. *)
Theorem init_alloc_bitmap_spec (kernel_physical_end : Z) (l : list mmap_entry) (p : phys) :
  phys_ok p -> Forall zone_ok (filter (fun z => mm_type z = 1) l) ->
  0 <= kernel_physical_end < 2 ^ 31 ->
  exists p', init_alloc_bitmap kernel_physical_end l p = Done (tt, p') /\ phys_ok p' /\
    forall j, 0 <= j < array_size -> bits p' j = false ->
      kernel_physical_end < j * page_size /\
      exists z, In z l /\ mm_type z = 1 /\ base_page (mm_addr z) <= j <= end_page (mm_addr z) (mm_len z).
Proof.
  intros Hp Z Hk. unfold init_alloc_bitmap, init.
  destruct (set_bits_spec (Z.to_nat array_size) 0 true p Hp ltac:(lia) ltac:(unfold array_size; lia))
    as (p1 & E1 & O1 & _ & _ & Q1).
  rewrite (run_bind_done _ _ _ _ _ E1).
  destruct (free_zones_ok (filter (fun z => mm_type z = 1) l) (fun i => frame i l) (seq 0 (free_frames l)) p1 Z)
    as (p2 & E2 & O2 & Q2); [|done|].
  { intros i Hi%in_seq. unfold frame. change i with (0 + i)%nat. rewrite frame_from_free.
    destruct (lookup_lt_is_Some_2 (filter (fun z => mm_type z = 1) l) i ltac:(unfold free_frames in Hi; lia)) as [z Hz].
    exists z. split; [done|]. apply list_elem_of_In. by eapply list_elem_of_lookup_2. }
  rewrite (run_bind_done _ _ _ _ _ E2). unfold mark_as_used.
  destruct (mark_ok true 0 (u32 (kernel_physical_end + 4 * 0x160000)) p2 O2 ltac:(lia)) as (p3 & E3 & O3 & Q3).
  { apply uwrap_range. lia. }
  { rewrite uwrap_small by lia. unfold page_size. lia. }
  exists p3. split; [done|]. split; [done|]. intros j Hj Fj. rewrite Q3 in Fj by done.
  case_bool_decide as R; [done|]. split.
  - unfold base_page, end_page in R. rewrite !uwrap_small in R by (rewrite ?uwrap_small; lia).
    change (Z.shiftr 0 12) with 0 in R. rewrite shiftr_div in R by lia. change (2 ^ 12) with 0x1000 in R.
    pose proof (Z.div_mod (0 + (kernel_physical_end + 4 * 0x160000)) 0x1000 ltac:(lia)).
    pose proof (Z.mod_pos_bound (0 + (kernel_physical_end + 4 * 0x160000)) 0x1000 ltac:(lia)).
    unfold page_size. destruct (Ztrue _); lia.
  - destruct (Q2 j Hj Fj) as [F|(z & I & R')].
    + rewrite Q1, bool_decide_true in F by (rewrite ?Z2Nat.id; lia). done.
    + exists z. apply list_elem_of_In, list_elem_of_filter in I as [T I]. split_and!; try done; try lia.
      by apply list_elem_of_In.
Qed.
End allocator.
Arguments phys : clear implicits.
Arguments kmem : clear implicits.

(** ** Witnesses *)

(** A bitmap with all pages free, at boot. *)
Definition boot_phys : phys (list Z) := mkPhys (BitArray.bitarray0 32 array_size) 0 0.
Definition boot_kmem : kmem (list Z) := mkKmem boot_phys boot (fun _ => None).
Lemma boot_phys_ok : phys_ok boot_phys.
Proof. split; [vm_compute; reflexivity|done]. Qed.
Lemma boot_inv : pt_inv boot.
Proof.
  split; [|by intros []]. intros i. unfold boot, create_paging_info, map_kernel. cbn [entries]. by case_match.
Qed.

Lemma alloc_physical_page_spec_witness :
  (exists k s', alloc_physical_page boot_kmem = Done (k * page_size, s') /\ 0 <= k < array_size /\
     bits (pm boot_kmem) k = false /\
     (forall j, 0 <= j < array_size -> bits (pm s') j = if decide (j = k) then true else bits (pm boot_kmem) j) /\
     phys_ok (pm s') /\ allocated_pages (pm s') = s32 (allocated_pages (pm boot_kmem) + 1) /\
     (forall f, frames s' f = if f =? k then Some fill_pattern else frames boot_kmem f) /\ pt_inv (pg s') /\
     (forall i, os_claimed (entries (pg s') i) = os_claimed (entries (pg boot_kmem) i))) \/
  (alloc_physical_page boot_kmem = Fault Panic /\
   ((forall j, 0 <= j < array_size -> bits (pm boot_kmem) j = true) \/
    (forall a, base false <= a < limit false -> os_claimed (entries (pg boot_kmem) a) = true))).
Proof. apply (alloc_physical_page_spec boot_kmem boot_phys_ok boot_inv). Defined.

Lemma release_physical_page_spec_witness : release_physical_page 0x5000 boot_phys = Fault AssertFailed.
Proof. apply (release_physical_page_spec boot_phys 5 0 boot_phys_ok); [done|done|]. vm_compute. reflexivity. Defined.

Lemma mark_spec_witness : mark_as_used 0x1000 0x1000 boot_phys <> Fault BadAccess /\ ~ touches 0x1000 0x1000 2.
Proof.
  destruct (proj1 (mark_spec true 0x1000 0x1000 boot_phys boot_phys_ok ltac:(lia) ltac:(lia) ltac:(lia))) as (p' & E & _ & T & _).
  - by vm_compute.
  - lia.
  - split; [|exact T]. unfold mark_as_used. rewrite E. discriminate.
Defined.

Lemma init_alloc_bitmap_spec_witness :
  exists p', init_alloc_bitmap 0x400000 [mkZone 20 0x100000 0x7000000 1] boot_phys = Done (tt, p') /\ phys_ok p' /\
    forall j, 0 <= j < array_size -> bits p' j = false ->
      0x400000 < j * page_size /\
      exists z, In z [mkZone 20 0x100000 0x7000000 1] /\ mm_type z = 1 /\
        base_page (mm_addr z) <= j <= end_page (mm_addr z) (mm_len z).
Proof.
  apply (init_alloc_bitmap_spec 0x400000 [mkZone 20 0x100000 0x7000000 1] boot_phys boot_phys_ok); [|lia].
  change (filter (fun z => mm_type z = 1) [mkZone 20 0x100000 0x7000000 1]) with [mkZone 20 0x100000 0x7000000 1].
  repeat constructor; cbn; unfold page_size; lia.
Defined.
End PhysAlloc.
