(* ===== verification/Disk.v ===== *)
(** * Disk: byte access to sectors

    [kern/drivers/storage/disk.cpp]: the unaligned reads and writes of [Disk] over the
    virtual sector operations of its subclasses, which the class [SectorDevice] states;
    the memory disk and the disk slice are its instances.  [m_caching] is never set (the
    assignment in [enable_caching] is commented out), so that the [_cache_] variants are
    the plain ones. *)
From stdpp Require Import base list.
From Stdlib Require Import ZArith Lia.
From S2P Require Import Prelude.

Inductive DiskError := OutOfBounds | ReadOnly | BadSector | NoMedia | Aborted | TimeOut | UnknownError.
#[export] Instance DiskError_eq_dec : EqDecision DiskError.
Proof. solve_decision. Defined.

(** The bytes [f a .. f (a + n - 1)]. *)
Definition bytes (f : Z -> Z) (a n : Z) : list Z := (fun i => f (a + Z.of_nat i)) <$> seq 0 (Z.to_nat n).
(** [f] with the bytes [l] at [a]. *)
Definition overwrite (f : Z -> Z) (a : Z) (l : list Z) : Z -> Z := fun x =>
  if (a <=? x) && (x <? a + Z.of_nat (length l)) then nth (Z.to_nat (x - a)) l 0 else f x.

(** What a storage driver promises: sectors are read and written as wholes, with the size
    of a span that is a multiple of the sector size. *)
Class SectorDevice (D : Type) := {
  sector_size : D -> Z;
  disk_size : D -> Z;
  read_sectors : Z -> Z -> D -> outcome (DiskError + list Z);
  write_sectors : Z -> list Z -> D -> outcome (DiskError + D);
  contents : D -> Z -> Z;
  sd_ok : D -> Prop;
  sd_sizes d : sd_ok d -> 0 < sector_size d /\ 0 <= disk_size d < 2 ^ 31 /\ (sector_size d | disk_size d) /\ (sector_size d | 2 ^ 32);
  sd_read d s n :
    sd_ok d -> 0 <= s -> 0 <= n -> (s + n) * sector_size d <= disk_size d ->
    read_sectors s (n * sector_size d) d = Done (inr (bytes (contents d) (s * sector_size d) (n * sector_size d)));
  sd_write d s l :
    sd_ok d -> 0 <= s -> Z.of_nat (length l) = sector_size d -> (s + 1) * sector_size d <= disk_size d ->
    exists d', write_sectors s l d = Done (inr d') /\ sd_ok d' /\ sector_size d' = sector_size d /\
      disk_size d' = disk_size d /\ forall x, contents d' x = overwrite (contents d) (s * sector_size d) l x;
}.

Module Disk.

(** [kpp::expected] of an operation that may stop. *)
Definition ebind {A B} (m : outcome (DiskError + A)) (k : A -> outcome (DiskError + B)) : outcome (DiskError + B) :=
  match m with Done (inr a) => k a | Done (inl e) => Done (inl e) | Fault f => Fault f end.
Definition lift {A} (m : outcome A) : outcome (DiskError + A) :=
  match m with Done a => Done (inr a) | Fault f => Fault f end.

(** [std::copy] of [src] to position [pos] of [dst]. *)
Definition copy_to (dst : list Z) (pos : Z) (src : list Z) : outcome (list Z) :=
  if (0 <=? pos) && (pos + Z.of_nat (length src) <=? Z.of_nat (length dst))
  then Done (take (Z.to_nat pos) dst ++ src ++ drop (Z.to_nat pos + length src) dst)
  else Fault BadAccess.

Section disk.
Context {D : Type} `{SD : SectorDevice D}.

(** [Disk::read(offset, span)]; [data] is what the span holds before. *)
Definition read (offset : Z) (data : list Z) (d : D) : outcome (DiskError + list Z) :=
  let sect_size := sector_size d in
  let size := Z.of_nat (length data) in
  let first_stride_size := offset mod sect_size in
  let second_stride_size := u32 (offset + size) mod sect_size in
  let mid_stride_size := u32 (size - (sect_size - first_stride_size) mod sect_size - second_stride_size) in
  ebind (if negb (first_stride_size =? 0) then
           ebind (read_sectors (offset / sect_size) sect_size d) (fun buf =>
             lift (copy_to data 0 (drop (Z.to_nat first_stride_size) buf)))
         else Done (inr data)) (fun data =>
  ebind (if negb (second_stride_size =? 0) then
           ebind (read_sectors (u32 (offset + size) / sect_size) sect_size d) (fun buf =>
             lift (copy_to data (size - second_stride_size) (take (Z.to_nat second_stride_size) buf)))
         else Done (inr data)) (fun data =>
  if negb (mid_stride_size =? 0) then
    if s32 mid_stride_size <? 0 then Fault AssertFailed
    else if negb (mid_stride_size mod sect_size =? 0) then Fault AssertFailed
    else ebind (read_sectors (offset / sect_size) mid_stride_size d) (fun buf =>
           lift (copy_to data ((sect_size - first_stride_size) mod sect_size) buf))
  else Done (inr data))).

(** [split(data, chunk_size)]. *)
Fixpoint split (fuel : nat) (cont : list Z) (chunk_size : nat) : list (list Z) :=
  match fuel with
  | O => []
  | S fuel =>
      if Nat.leb chunk_size (length cont) then take chunk_size cont :: split fuel (drop chunk_size cont) chunk_size
      else if Nat.ltb 0 (length cont) then [cont] else []
  end.

(** One turn of the loop of [write_offseted_sector]. *)
Definition write_part (sector byte_off : Z) (span : list Z) (d : D) : outcome (DiskError + D) :=
  match read_sectors sector (sector_size d) d with
  | Done (inr sect_data) =>
      if Z.of_nat (length span) <=? Z.of_nat (length sect_data) - byte_off then
        ebind (lift (copy_to sect_data byte_off span)) (fun sect_data => write_sectors sector sect_data d)
      else Fault AssertFailed
  | Done (inl _) => Fault AssertFailed
  | Fault f => Fault f
  end.
Definition write_offseted_sector (base byte_off : Z) (data : list Z) (d : D) : outcome (DiskError + D) :=
  let ss := sector_size d in
  let size := Z.of_nat (length data) in
  if negb (size <=? ss) then Fault AssertFailed
  else if negb (size + byte_off <=? disk_size d) then Fault AssertFailed
  else
    let n := Z.to_nat (Z.min (ss - byte_off) size) in
    let span1 := if ss - byte_off <? size then drop (Z.to_nat (ss - byte_off)) data else [] in
    ebind (write_part base byte_off (take n data) d) (fun d => write_part (base + 1) 0 span1 d).

Fixpoint write_chunks (chunks : list (list Z)) (base offset : Z) (d : D) : outcome (DiskError + D) :=
  match chunks with
  | [] => Done (inr d)
  | chunk :: chunks =>
      ebind (write_offseted_sector base (offset mod sector_size d) chunk d) (fun d =>
        write_chunks chunks (base + 1) (u32 (offset - sector_size d)) d)
  end.
(** [Disk::write]. *)
Definition write (read_only : bool) (offset : Z) (data : list Z) (d : D) : outcome (DiskError + D) :=
  if read_only then Done (inl ReadOnly)
  else write_chunks (split (S (length data)) data (Z.to_nat (sector_size d))) (offset / sector_size d) offset d.
End disk.

(** ** Memory disks *)

Record MemoryDisk := mkMemDisk { m_data : Z -> Z; m_size : Z; m_const : bool }.

Definition mem_read_sectors (sector size : Z) (d : MemoryDisk) : outcome (DiskError + list Z) :=
  let offset := sector * 512 in
  let count := size / 512 in
  if (0 <=? offset) && (offset + count * 512 <=? m_size d)
  then Done (inr (bytes (m_data d) offset (count * 512))) else Fault BadAccess.
Definition mem_write_sectors (sector : Z) (data : list Z) (d : MemoryDisk) : outcome (DiskError + MemoryDisk) :=
  if m_const d then Done (inl ReadOnly)
  else
    let offset := sector * 512 in
    if (0 <=? offset) && (offset + Z.of_nat (length data) <=? m_size d)
    then Done (inr (mkMemDisk (overwrite (m_data d) offset data) (m_size d) (m_const d))) else Fault BadAccess.

(** ** Slices *)

Record DiskSlice (D : Type) := mkSlice { m_base_disk : D; m_offset : Z; m_sectors : Z }.
Arguments mkSlice {D}.
Arguments m_base_disk {D}.
Arguments m_offset {D}.
Arguments m_sectors {D}.

Section slice.
Context {D : Type} `{SD : SectorDevice D}.

Definition slice_read_sectors (sector size : Z) (d : DiskSlice D) : outcome (DiskError + list Z) :=
  let count := size / sector_size (m_base_disk d) in
  if m_sectors d <? u32 (sector + count) then Done (inl OutOfBounds)
  else read_sectors (sector + m_offset d) size (m_base_disk d).
Definition slice_write_sectors (sector : Z) (data : list Z) (d : DiskSlice D) : outcome (DiskError + DiskSlice D) :=
  if m_sectors d <? u32 (sector + Z.of_nat (length data) / sector_size (m_base_disk d)) then Done (inl OutOfBounds)
  else ebind (write_sectors (sector + m_offset d) data (m_base_disk d)) (fun b =>
         Done (inr (mkSlice b (m_offset d) (m_sectors d)))).
End slice.
End Disk.
