(* ===== verification/DiskProofs.v ===== *)
(** * DiskProofs: reads and writes of bytes, memory disks and slices *)
From stdpp Require Import base list.
From Stdlib Require Import ZArith Lia.
From S2P Require Import Prelude Disk.
Import Disk.

Module DiskProofs.

(** ** Bytes *)

Lemma bytes_length f a n : length (bytes f a n) = Z.to_nat n.
Proof. unfold bytes. by rewrite length_fmap, length_seq. Qed.
Lemma bytes_lookup f a n i : (i < Z.to_nat n)%nat -> bytes f a n !! i = Some (f (a + Z.of_nat i)).
Proof. intros H. unfold bytes. rewrite list_lookup_fmap, lookup_seq_lt by done. done. Qed.

Lemma overwrite_app f a l1 l2 x :
  overwrite (overwrite f a l1) (a + Z.of_nat (length l1)) l2 x = overwrite f a (l1 ++ l2) x.
Proof.
  unfold overwrite. rewrite length_app, Nat2Z.inj_add.
  destruct (Z.leb_spec (a + Z.of_nat (length l1)) x) as [H1|H1]; cbn [andb].
  - rewrite Z.add_assoc. destruct (Z.ltb_spec x (a + Z.of_nat (length l1) + Z.of_nat (length l2))) as [H2|H2].
    + rewrite (proj2 (Z.leb_le a x)) by lia. cbn [andb].
      rewrite app_nth2 by lia. f_equal. lia.
    + rewrite andb_false_r. rewrite (proj2 (Z.ltb_ge x _)) by lia. by rewrite andb_false_r.
  - destruct (Z.leb_spec a x) as [H2|H2]; cbn [andb]; [|done].
    rewrite !(proj2 (Z.ltb_lt x _)) by lia. rewrite app_nth1 by lia. done.
Qed.
Lemma overwrite_nil f a x : overwrite f a [] x = f x.
Proof. unfold overwrite. cbn. rewrite Z.add_0_r. by destruct (Z.leb_spec a x), (Z.ltb_spec x a); try lia. Qed.
Lemma overwrite_ext f g a l x : (forall y, f y = g y) -> overwrite f a l x = overwrite g a l x.
Proof. intros E. unfold overwrite. by rewrite E. Qed.

Lemma copy_to_spec dst pos src :
  0 <= pos -> pos + Z.of_nat (length src) <= Z.of_nat (length dst) ->
  exists l, copy_to dst pos src = Done l /\ length l = length dst /\
    forall i, l !! i = if bool_decide (pos <= Z.of_nat i < pos + Z.of_nat (length src))
                       then src !! (i - Z.to_nat pos)%nat else dst !! i.
Proof.
  intros H1 H2. unfold copy_to. rewrite (proj2 (Z.leb_le _ _)) by lia. rewrite (proj2 (Z.leb_le _ _)) by lia.
  cbn [andb]. eexists. split; [done|].
  assert (T : length (take (Z.to_nat pos) dst) = Z.to_nat pos) by (rewrite length_take; lia).
  split.
  - rewrite !length_app, T, length_drop. lia.
  - intros i. destruct (decide (i < Z.to_nat pos)%nat) as [L|L].
    + rewrite lookup_app_l by lia. rewrite lookup_take by done. rewrite decide_True by done.
      by rewrite bool_decide_false by lia.
    + rewrite lookup_app_r by lia. rewrite T.
      destruct (decide (i - Z.to_nat pos < length src)%nat) as [L'|L'].
      * rewrite lookup_app_l by done. by rewrite bool_decide_true by lia.
      * rewrite lookup_app_r by lia. rewrite lookup_drop. rewrite bool_decide_false by lia. f_equal. lia.
Qed.

Lemma next_multiple a b s : 0 < s -> a * s < b * s -> (a + 1) * s <= b * s.
Proof. intros. assert (a < b) by nia. nia. Qed.

(** A sector with a part of it replaced, as an overwritten function. *)
Lemma copy_to_bytes f a n pos src l :
  copy_to (bytes f a n) pos src = Done l -> 0 <= n -> 
  forall x, overwrite f a l x = overwrite f (a + pos) src x /\ Z.of_nat (length l) = n.
Proof.
  intros E Hn x. pose proof (bytes_length f a n) as Lb.
  assert (0 <= pos /\ pos + Z.of_nat (length src) <= n) as [H1 H2].
  { unfold copy_to in E. destruct (Z.leb_spec 0 pos), (Z.leb_spec (pos + Z.of_nat (length src)) (Z.of_nat (length (bytes f a n))));
      cbn in E; try done. lia. }
  destruct (copy_to_spec (bytes f a n) pos src H1 ltac:(lia)) as (l' & E' & L & Q). rewrite E in E'. injection E' as <-.
  split; [|lia]. unfold overwrite. rewrite L, Lb.
  destruct (decide (a <= x < a + n)) as [R|R].
  - rewrite (proj2 (Z.leb_le a x)) by lia. rewrite (proj2 (Z.ltb_lt x (a + Z.of_nat (Z.to_nat n)))) by lia. cbn [andb].
    specialize (Q (Z.to_nat (x - a))). rewrite Z2Nat.id in Q by lia.
    destruct (decide (pos <= x - a < pos + Z.of_nat (length src))) as [S|S].
    + rewrite bool_decide_true in Q by done.
      rewrite (proj2 (Z.leb_le (a + pos) x)) by lia. rewrite (proj2 (Z.ltb_lt x _)) by lia. cbn [andb].
      rewrite !nth_lookup. rewrite Q. do 2 f_equal. lia.
    + rewrite bool_decide_false in Q by done. rewrite bytes_lookup in Q by lia.
      rewrite nth_lookup, Q. cbn. rewrite Z2Nat.id by lia. replace (a + (x - a)) with x by lia.
      destruct (Z.leb_spec (a + pos) x); [|done]. by rewrite (proj2 (Z.ltb_ge x _)) by lia.
  - replace ((a <=? x) && (x <? a + Z.of_nat (Z.to_nat n))) with false.
    + replace ((a + pos <=? x) && (x <? a + pos + Z.of_nat (length src))) with false; [done|].
      destruct (Z.leb_spec (a + pos) x), (Z.ltb_spec x (a + pos + Z.of_nat (length src))); try done; lia.
    + destruct (Z.leb_spec a x), (Z.ltb_spec x (a + Z.of_nat (Z.to_nat n))); try done; lia.
Qed.

Section disk.
Context {D : Type} `{SD : SectorDevice D}.

Lemma sd_read1 d s :
  sd_ok d -> 0 <= s -> (s + 1) * sector_size d <= disk_size d ->
  read_sectors s (sector_size d) d = Done (inr (bytes (contents d) (s * sector_size d) (sector_size d))).
Proof.
  intros. pose proof (sd_read d s 1) as E. rewrite !Z.mul_1_l in E. by apply E.
Qed.

(** ** Aligned reads *)
Lemma read_aligned_run d offset data :
  sd_ok d -> 0 <= offset -> (sector_size d | offset) ->
  offset + Z.of_nat (length data) <= disk_size d ->
  read offset data d = Done (inr (bytes (contents d) offset (Z.of_nat (length data)))).
Proof.
  intros O Ho [q Hq] Hs. destruct (sd_sizes d O) as (P & Sz & [N HN] & _). unfold read.
  set (ss := sector_size d) in *. set (size := Z.of_nat (length data)) in *.
  assert (Hq0 : 0 <= q) by nia.
  assert (offset mod ss = 0) as -> by (rewrite Hq; apply Z.mod_mul; lia).
  assert (offset / ss = q) as -> by (rewrite Hq; apply Z.div_mul; lia).
  cbn [negb Z.eqb]. rewrite Z.sub_0_r, Z.mod_same by lia. rewrite (uwrap_small 32 (offset + size)) by lia.
  assert ((offset + size) mod ss = size mod ss) as -> by (rewrite Hq, Z.add_comm; apply Z.mod_add; lia).
  assert ((offset + size) / ss = q + size / ss) as -> by (rewrite Hq, Z.add_comm, Z.div_add by lia; lia).
  pose proof (Z.div_mod size ss ltac:(lia)) as Ds. pose proof (Z.mod_pos_bound size ss ltac:(lia)) as Bs.
  set (k := size / ss) in *. set (r := size mod ss) in *. assert (Hk : 0 <= k) by (apply Z.div_pos; lia).
  rewrite (uwrap_small 32 (size - 0 - r)) by nia. cbn [ebind].
  assert (S2 : exists l, (if negb (r =? 0) then
           ebind (read_sectors (q + k) ss d) (fun buf => lift (copy_to data (size - r) (take (Z.to_nat r) buf)))
         else Done (inr data)) = Done (inr l) /\ length l = length data /\
         forall i, (Z.to_nat (size - r) <= i < length data)%nat -> l !! i = Some (contents d (offset + Z.of_nat i))).
  { destruct (Z.eqb_spec r 0) as [R|R]; cbn [negb].
    - exists data. split_and!; try done. intros i. lia.
    - assert ((q + k + 1) * ss <= disk_size d) by (rewrite HN; apply next_multiple; lia).
      unfold ss at 1. rewrite sd_read1 by (done || (fold ss; lia)). cbn [ebind]. fold ss.
      set (src := take _ _). assert (Ls : Z.of_nat (length src) = r).
      { unfold src. rewrite length_take, bytes_length. lia. }
      destruct (copy_to_spec data (size - r) src) as (l & E & L & Q); [lia|lia|].
      exists l. rewrite E. split_and!; try done. intros i Hi. rewrite Q, bool_decide_true by lia.
      unfold src. rewrite lookup_take_lt by lia. rewrite bytes_lookup by lia. do 2 f_equal. nia. }
  destruct S2 as (l & -> & L & Q). cbn [ebind].
  rewrite Z.sub_0_r. assert (size - r = k * ss) as E2 by lia. rewrite E2.
  assert (G : forall l', length l' = length data ->
     (forall i, (i < length data)%nat -> l' !! i = Some (contents d (offset + Z.of_nat i))) ->
     l' = bytes (contents d) offset size).
  { intros l' L' Q'. apply list_eq_same_length with (length data); [rewrite bytes_length; lia|done|].
    intros i x y Hi Hx Hy. rewrite Q' in Hx by done. rewrite bytes_lookup in Hy by lia. congruence. }
  destruct (Z.eqb_spec (k * ss) 0) as [K|K]; cbn [negb].
  - do 2 f_equal. apply G; [done|]. intros i Hi. apply Q. lia.
  - rewrite swrap_small by lia. rewrite (proj2 (Z.ltb_ge (k * ss) 0)) by lia. rewrite Z.mod_mul by lia. cbn [Z.eqb negb].
    unfold ss at 1. rewrite sd_read by (done || (fold ss; lia)). cbn [ebind]. fold ss.
    set (src := bytes _ _ _). assert (Ls : Z.of_nat (length src) = k * ss) by (unfold src; rewrite bytes_length; lia).
    destruct (copy_to_spec l 0 src) as (l' & E & L' & Q'); [lia|lia|].
    rewrite E. cbn [lift]. do 2 f_equal. apply G; [congruence|]. intros i Hi. rewrite Q'.
    destruct (decide (Z.of_nat i < k * ss)).
    + rewrite bool_decide_true by lia. unfold src. rewrite bytes_lookup by lia. do 2 f_equal. lia.
    + rewrite bool_decide_false by lia. apply Q. lia.
Qed.

(** ** Writes *)

(** [d'] is [d] with the bytes [l] at [a]. *)
Definition written (a : Z) (l : list Z) (d d' : D) : Prop :=
  sd_ok d' /\ sector_size d' = sector_size d /\ disk_size d' = disk_size d /\
  forall x, contents d' x = overwrite (contents d) a l x.

Lemma written_trans a l1 l2 d1 d2 d3 :
  written a l1 d1 d2 -> written (a + Z.of_nat (length l1)) l2 d2 d3 -> written a (l1 ++ l2) d1 d3.
Proof.
  intros (O2 & S2 & Z2 & C2) (O3 & S3 & Z3 & C3). split_and!; try done; try congruence.
  intros x. rewrite C3. rewrite <- overwrite_app. by apply overwrite_ext.
Qed.
Lemma written_nil a d : sd_ok d -> written a [] d d.
Proof. intros O. split_and!; try done. intros x. by rewrite overwrite_nil. Qed.

Lemma write_part_spec d s byte_off span :
  sd_ok d -> 0 <= s -> (s + 1) * sector_size d <= disk_size d ->
  0 <= byte_off -> byte_off + Z.of_nat (length span) <= sector_size d ->
  exists d', write_part s byte_off span d = Done (inr d') /\ written (s * sector_size d + byte_off) span d d'.
Proof.
  intros O Hs Hd Hb Hl. destruct (sd_sizes d O) as (P & _). unfold write_part. rewrite sd_read1 by done.
  rewrite bytes_length, (proj2 (Z.leb_le _ _)) by lia.
  destruct (copy_to_spec (bytes (contents d) (s * sector_size d) (sector_size d)) byte_off span Hb) as (l & E & L & _).
  { rewrite bytes_length. lia. }
  rewrite E. cbn [lift ebind]. pose proof (copy_to_bytes _ _ _ _ _ _ E ltac:(lia)) as C.
  destruct (sd_write d s l O Hs) as (d' & E' & O' & S' & Z' & C'); [apply (C 0)|done|].
  exists d'. split; [done|]. split_and!; try done. intros x. rewrite C'. apply C.
Qed.

Lemma write_offseted_sector_spec d base byte_off data :
  sd_ok d -> 0 <= base -> (base + 2) * sector_size d <= disk_size d ->
  0 <= byte_off < sector_size d -> Z.of_nat (length data) <= sector_size d ->
  exists d', write_offseted_sector base byte_off data d = Done (inr d') /\
    written (base * sector_size d + byte_off) data d d'.
Proof.
  intros O Hb Hd Ho Hl. unfold write_offseted_sector. set (size := Z.of_nat (length data)) in *.
  set (ss := sector_size d) in *. assert (2 * ss <= disk_size d) by nia.
  rewrite (proj2 (Z.leb_le size ss)) by lia. rewrite (proj2 (Z.leb_le (size + byte_off) _)) by lia. cbn [negb].
  set (n := Z.to_nat (Z.min (ss - byte_off) size)).
  assert (Ln : length (take n data) = n) by (rewrite length_take; lia).
  destruct (write_part_spec d base byte_off (take n data) O Hb ltac:(fold ss; nia) ltac:(lia) ltac:(fold ss; lia))
    as (d1 & E1 & W1). rewrite E1. cbn [ebind]. pose proof W1 as (O1 & S1 & Z1 & C1). fold ss in S1, W1.
  destruct (Z.ltb_spec (ss - byte_off) size) as [H2|H2].
  - destruct (write_part_spec d1 (base + 1) 0 (drop (Z.to_nat (ss - byte_off)) data) O1 ltac:(lia)
      ltac:(rewrite S1, Z1; lia) ltac:(lia) ltac:(rewrite length_drop, S1; lia)) as (d2 & E2 & W2).
    exists d2. split; [done|]. replace (Z.to_nat (ss - byte_off)) with n in W2 by lia.
    rewrite <- (take_drop n data). eapply written_trans; [exact W1|].
    replace (base * ss + byte_off + Z.of_nat (length (take n data))) with ((base + 1) * sector_size d1 + 0) by lia. done.
  - destruct (write_part_spec d1 (base + 1) 0 [] O1 ltac:(lia)
      ltac:(rewrite S1, Z1; lia) ltac:(lia) ltac:(cbn; lia)) as (d2 & E2 & W2).
    exists d2. split; [done|]. rewrite <- (app_nil_r data), <- (take_drop n data), drop_ge, app_nil_r by lia.
    eapply written_trans; [exact W1|].
    destruct W2 as (O2 & S2 & Z2 & C2). split_and!; try done. intros x. rewrite C2. by rewrite !overwrite_nil.
Qed.

Lemma offset_step offset ss : 0 < ss -> (ss | 2 ^ 32) -> u32 (offset - ss) mod ss = offset mod ss.
Proof.
  intros P Dv. unfold uwrap. rewrite Z.mod_mod_divide by done.
  rewrite <- (Z.mod_add (offset - ss) 1 ss) by lia. f_equal. lia.
Qed.

Lemma write_chunks_spec fuel : forall data base offset d,
  (length data < fuel)%nat -> sd_ok d -> 0 <= base ->
  (base + (Z.of_nat (length data) + sector_size d - 1) / sector_size d + 1) * sector_size d <= disk_size d ->
  exists d', write_chunks (split fuel data (Z.to_nat (sector_size d))) base offset d = Done (inr d') /\
    written (base * sector_size d + offset mod sector_size d) data d d'.
Proof.
  induction fuel as [|fuel IH]; intros data base offset d Hf O Hb Hs; [lia|]. cbn [split].
  destruct (sd_sizes d O) as (P & Sz & _ & Dv). set (ss := sector_size d) in *.
  pose proof (Z.mod_pos_bound offset ss P) as Bo.
  assert (Cn : forall n, 0 < n -> 1 <= (n + ss - 1) / ss) by (intros; apply Z.div_le_lower_bound; lia).
  destruct (Nat.leb_spec (Z.to_nat ss) (length data)) as [H|H].
  - cbn [write_chunks]. fold ss. assert (LT : length (take (Z.to_nat ss) data) = Z.to_nat ss) by (rewrite length_take; lia).
    destruct (write_offseted_sector_spec d base (offset mod ss) (take (Z.to_nat ss) data) O Hb) as (d1 & E1 & W1).
    { fold ss. specialize (Cn (Z.of_nat (length data)) ltac:(lia)). nia. } { done. } { fold ss. lia. }
    rewrite E1. cbn [ebind]. pose proof W1 as (O1 & S1 & Z1 & _). fold ss in S1, W1. rewrite S1.
    destruct (IH (drop (Z.to_nat ss) data) (base + 1) (u32 (offset - ss)) d1) as (d2 & E2 & W2).
    { rewrite length_drop. lia. } { done. } { lia. }
    { rewrite S1, Z1, length_drop.
      replace (Z.of_nat (length data) + ss - 1) with (Z.of_nat (length data - Z.to_nat ss) + ss - 1 + 1 * ss) in Hs by lia.
      rewrite Z.div_add in Hs by lia. lia. }
    rewrite S1 in E2, W2. rewrite E2. exists d2. split; [done|].
    rewrite <- (take_drop (Z.to_nat ss) data). eapply written_trans; [exact W1|].
    rewrite offset_step in W2 by done.
    replace (base * ss + offset mod ss + Z.of_nat (length (take (Z.to_nat ss) data)))
      with ((base + 1) * ss + offset mod ss) by lia. done.
  - destruct (Nat.ltb_spec 0 (length data)) as [H0|H0].
    + cbn [write_chunks]. fold ss.
      destruct (write_offseted_sector_spec d base (offset mod ss) data O Hb) as (d1 & E1 & W1).
      { fold ss. specialize (Cn (Z.of_nat (length data)) ltac:(lia)). nia. } { done. } { fold ss. lia. }
      rewrite E1. by exists d1.
    + destruct data; [|cbn in H0; lia]. exists d. split; [done|]. by apply written_nil.
Qed.

Lemma write_run d offset data :
  sd_ok d -> 0 <= offset ->
  (offset / sector_size d + (Z.of_nat (length data) + sector_size d - 1) / sector_size d + 1) * sector_size d <= disk_size d ->
  exists d', write false offset data d = Done (inr d') /\ written offset data d d'.
Proof.
  intros O Ho Hs. destruct (sd_sizes d O) as (P & _).
  destruct (write_chunks_spec (S (length data)) data (offset / sector_size d) offset d) as (d' & E & W); try done; try lia.
  { by apply Z.div_pos. }
  exists d'. split; [done|].
  replace (offset / sector_size d * sector_size d + offset mod sector_size d) with offset in W; [done|].
  rewrite (Z.div_mod offset (sector_size d)) at 1; lia.
Qed.

(** a read that starts at a sector boundary ends and returns the bytes of the disk,
    whatever its length. *)
Theorem disk_read_aligned (d : D) (offset : Z) (data : list Z) :
  sd_ok d -> 0 <= offset -> (sector_size d | offset) -> offset + Z.of_nat (length data) <= disk_size d ->
  read offset data d = Done (inr (bytes (contents d) offset (Z.of_nat (length data)))).
Proof. apply read_aligned_run. Qed.

(** C21: a write at any offset, when one more sector follows those it touches, ends and
    changes exactly the bytes of its range to the data; reading them back from a sector
    boundary gives the data. *)
Theorem disk_write_spec (d : D) (offset : Z) (data : list Z) :
  sd_ok d -> 0 <= offset ->
  (offset / sector_size d + (Z.of_nat (length data) + sector_size d - 1) / sector_size d + 1) * sector_size d <= disk_size d ->
  exists d', write false offset data d = Done (inr d') /\ sd_ok d' /\
    (forall x, contents d' x = overwrite (contents d) offset data x) /\
    ((sector_size d | offset) -> forall buf, length buf = length data -> read offset buf d' = Done (inr data)).
Proof.
  intros O Ho Hs. destruct (write_run d offset data O Ho Hs) as (d' & E & O' & S' & Z' & C').
  exists d'. split_and!; try done. intros Dv buf L. destruct (sd_sizes d O) as (P & _).
  assert (Hb : offset + Z.of_nat (length data) <= disk_size d).
  { pose proof (Z.div_mod offset (sector_size d)). pose proof (Z.mod_pos_bound offset (sector_size d) P).
    pose proof (Z.div_mod (Z.of_nat (length data) + sector_size d - 1) (sector_size d)).
    pose proof (Z.mod_pos_bound (Z.of_nat (length data) + sector_size d - 1) (sector_size d) P). lia. }
  rewrite read_aligned_run by (rewrite ?S', ?Z', ?L; done).
  do 2 f_equal. rewrite L.
  apply list_eq_same_length with (length data); [done|rewrite bytes_length; lia|].
  intros i x y Hi Hx Hy. rewrite bytes_lookup in Hx by lia. rewrite C' in Hx. unfold overwrite in Hx.
  rewrite (proj2 (Z.leb_le _ _)), (proj2 (Z.ltb_lt _ _)) in Hx by lia. cbn [andb] in Hx.
  rewrite nth_lookup in Hx. replace (Z.to_nat (offset + Z.of_nat i - offset)) with i in Hx by lia.
  rewrite Hy in Hx. cbn in Hx. congruence.
Qed.

(** Reading behind the end makes the write stop. *)
Lemma write_past_end d base byte_off data e :
  sd_ok d -> 0 <= base -> (base + 1) * sector_size d <= disk_size d -> 0 <= byte_off ->
  byte_off + Z.of_nat (length data) <= sector_size d ->
  (forall d', sector_size d' = sector_size d -> disk_size d' = disk_size d ->
     read_sectors (base + 1) (sector_size d) d' = Done (inl e)) ->
  write_offseted_sector base byte_off data d = Fault AssertFailed.
Proof.
  intros O Hb Hd Hn Hl Hr. unfold write_offseted_sector. rewrite (proj2 (Z.leb_le (Z.of_nat _) _)) by lia.
  rewrite (proj2 (Z.leb_le _ _)) by nia. cbn [negb]. rewrite Z.min_r by lia. rewrite Nat2Z.id, take_ge by done.
  destruct (write_part_spec d base byte_off data O Hb Hd Hn Hl) as (d1 & E1 & O1 & S1 & Z1 & C1).
  rewrite E1. cbn [ebind]. unfold write_part. rewrite S1. by rewrite Hr.
Qed.
End disk.

(** ** Memory disks *)

Definition mem_ok (d : MemoryDisk) : Prop := m_const d = false /\ 0 <= m_size d < 2 ^ 31 /\ (512 | m_size d).

Lemma mem_sizes d : mem_ok d -> 0 < 512 /\ 0 <= m_size d < 2 ^ 31 /\ (512 | m_size d) /\ (512 | 2 ^ 32).
Proof. intros (_ & ? & ?). split_and!; try done; try lia. by exists (2 ^ 23). Qed.
Lemma mem_read d s n :
  mem_ok d -> 0 <= s -> 0 <= n -> (s + n) * 512 <= m_size d ->
  mem_read_sectors s (n * 512) d = Done (inr (bytes (m_data d) (s * 512) (n * 512))).
Proof.
  intros O Hs Hn Hl. unfold mem_read_sectors. rewrite Z.div_mul by lia.
  rewrite (proj2 (Z.leb_le 0 _)), (proj2 (Z.leb_le _ (m_size d))) by lia. done.
Qed.
Lemma mem_write d s l :
  mem_ok d -> 0 <= s -> Z.of_nat (length l) = 512 -> (s + 1) * 512 <= m_size d ->
  exists d', mem_write_sectors s l d = Done (inr d') /\ mem_ok d' /\ 512 = 512 /\ m_size d' = m_size d /\
    forall x, m_data d' x = overwrite (m_data d) (s * 512) l x.
Proof.
  intros (C & S & V) Hs Hl Hd. unfold mem_write_sectors. rewrite C.
  rewrite (proj2 (Z.leb_le 0 _)), (proj2 (Z.leb_le _ (m_size d))) by lia. eexists. split; [done|]. done.
Qed.
#[export] Instance memory_disk : SectorDevice MemoryDisk := {
  sector_size := fun _ => 512; disk_size := m_size;
  read_sectors := mem_read_sectors; write_sectors := mem_write_sectors;
  contents := m_data; sd_ok := mem_ok;
  sd_sizes := mem_sizes; sd_read := mem_read; sd_write := mem_write;
}.

(** ** Slices *)
Section slice.
Context {D : Type} `{SD : SectorDevice D}.

Definition slice_ss (d : DiskSlice D) : Z := sector_size (m_base_disk d).
Definition slice_ok (d : DiskSlice D) : Prop :=
  sd_ok (m_base_disk d) /\ 0 <= m_offset d /\ 0 <= m_sectors d /\
  (m_offset d + m_sectors d) * slice_ss d <= disk_size (m_base_disk d).

Lemma slice_sizes d : slice_ok d ->
  0 < slice_ss d /\ 0 <= m_sectors d * slice_ss d < 2 ^ 31 /\ (slice_ss d | m_sectors d * slice_ss d) /\ (slice_ss d | 2 ^ 32).
Proof.
  intros (O & Ho & Hs & Hb). destruct (sd_sizes _ O) as (P & Sz & _ & V). unfold slice_ss in *.
  split_and!; try done; try nia. by exists (m_sectors d).
Qed.
Lemma slice_sector_bound d s n : slice_ok d -> 0 <= s -> 0 <= n -> (s + n) * slice_ss d <= m_sectors d * slice_ss d ->
  s + n <= m_sectors d < 2 ^ 31.
Proof. intros O Hs Hn Hl. destruct (slice_sizes d O) as (P & Sz & _). split; nia. Qed.

Lemma slice_read d s n :
  slice_ok d -> 0 <= s -> 0 <= n -> (s + n) * slice_ss d <= m_sectors d * slice_ss d ->
  slice_read_sectors s (n * slice_ss d) d =
    Done (inr (bytes (fun x => contents (m_base_disk d) (m_offset d * slice_ss d + x)) (s * slice_ss d) (n * slice_ss d))).
Proof.
  intros O Hs Hn Hl. pose proof (slice_sector_bound d s n O Hs Hn Hl). destruct (slice_sizes d O) as (P & _).
  destruct O as (O & Ho & Hm & Hb). unfold slice_read_sectors. fold (slice_ss d). rewrite Z.div_mul by lia.
  rewrite uwrap_small by lia. rewrite (proj2 (Z.ltb_ge _ _)) by lia.
  unfold slice_ss in *. rewrite sd_read by (done || nia). do 2 f_equal. unfold bytes. apply list_fmap_ext.
  intros i x _. f_equal. lia.
Qed.

Lemma slice_write d s l :
  slice_ok d -> 0 <= s -> Z.of_nat (length l) = slice_ss d -> (s + 1) * slice_ss d <= m_sectors d * slice_ss d ->
  exists d', slice_write_sectors s l d = Done (inr d') /\ slice_ok d' /\ slice_ss d' = slice_ss d /\
    m_sectors d' * slice_ss d' = m_sectors d * slice_ss d /\
    forall x, contents (m_base_disk d') (m_offset d' * slice_ss d' + x) =
      overwrite (fun y => contents (m_base_disk d) (m_offset d * slice_ss d + y)) (s * slice_ss d) l x.
Proof.
  intros O Hs Hlen Hl. pose proof (slice_sector_bound d s 1 O Hs ltac:(lia) Hl). destruct (slice_sizes d O) as (P & _).
  destruct O as (O & Ho & Hm & Hb). unfold slice_write_sectors. fold (slice_ss d). rewrite Hlen, Z.div_same by lia.
  rewrite uwrap_small by lia. rewrite (proj2 (Z.ltb_ge _ _)) by lia. unfold slice_ss in *.
  destruct (sd_write (m_base_disk d) (s + m_offset d) l O ltac:(lia) Hlen ltac:(nia)) as (b & E & Ob & Sb & Zb & Cb).
  rewrite E. cbn [ebind]. eexists. split; [done|]. unfold slice_ok, slice_ss. cbn [m_base_disk m_offset m_sectors].
  rewrite Sb, Zb. split_and!; try done. intros x. rewrite Cb. unfold overwrite.
  replace ((s + m_offset d) * sector_size (m_base_disk d))
    with (m_offset d * sector_size (m_base_disk d) + s * sector_size (m_base_disk d)) by lia.
  set (o := m_offset d * sector_size (m_base_disk d)). set (a := s * sector_size (m_base_disk d)).
  destruct (Z.leb_spec (o + a) (o + x)), (Z.leb_spec a x); cbn [andb]; try lia.
  destruct (Z.ltb_spec (o + x) (o + a + Z.of_nat (length l))), (Z.ltb_spec x (a + Z.of_nat (length l))); try lia.
  f_equal. lia.
Qed.
#[export] Instance disk_slice : SectorDevice (DiskSlice D) := {
  sector_size := slice_ss; disk_size := fun d => m_sectors d * slice_ss d;
  read_sectors := slice_read_sectors; write_sectors := slice_write_sectors;
  contents := fun d x => contents (m_base_disk d) (m_offset d * slice_ss d + x); sd_ok := slice_ok;
  sd_sizes := slice_sizes; sd_read := slice_read; sd_write := slice_write;
}.

(** the last sector of a slice cannot be written: [write_offseted_sector] also reads
    the sector behind the one it writes and asserts that this succeeds. *)
Theorem slice_write_last_sector (d : DiskSlice D) (offset : Z) (data : list Z) :
  slice_ok d -> data <> [] -> (m_sectors d - 1) * slice_ss d <= offset ->
  0 < m_sectors d -> offset + Z.of_nat (length data) <= m_sectors d * slice_ss d ->
  write false offset data d = Fault AssertFailed.
Proof.
  intros O Hne Ho Hm Hs. pose proof (slice_sizes d O) as (P & Sz & _).
  assert (L : (0 < length data)%nat) by (destruct data; [done|cbn; lia]).
  assert (B : offset / slice_ss d = m_sectors d - 1).
  { symmetry. apply (Z.div_unique_pos _ _ _ (offset - (m_sectors d - 1) * slice_ss d)); lia. }
  pose proof (Z.div_mod offset (slice_ss d) ltac:(lia)) as Dm. rewrite B in Dm.
  pose proof (Z.mod_pos_bound offset (slice_ss d) P) as Bm.
  assert (G : forall rest, write_chunks (data :: rest) (m_sectors d - 1) offset d = Fault AssertFailed).
  { intros rest. cbn [write_chunks]. rewrite (write_past_end d _ _ _ OutOfBounds); cbn [sector_size disk_size disk_slice]; try done; try lia.
    intros d' S' Z'. cbn. unfold slice_read_sectors. fold (slice_ss d'). rewrite S', Z.div_same by lia.
    assert (m_sectors d' = m_sectors d) as -> by (rewrite S' in Z'; nia).
    replace (m_sectors d - 1 + 1 + 1) with (m_sectors d + 1) by lia.
    pose proof (slice_sector_bound d 0 (m_sectors d) O ltac:(lia) ltac:(lia) ltac:(lia)).
    rewrite uwrap_small by lia. by rewrite (proj2 (Z.ltb_lt _ _)) by lia. }
  unfold write. cbn [sector_size disk_slice]. rewrite B. cbn [split].
  destruct (Nat.leb_spec (Z.to_nat (slice_ss d)) (length data)) as [Q|Q].
  - rewrite take_ge by lia. apply G.
  - rewrite (proj2 (Nat.ltb_lt _ _)) by done. apply G.
Qed.
End slice.

(** A disk whose bytes are the numbers of their sectors. *)
Definition numbered : MemoryDisk := mkMemDisk (fun x => x / 512) 8192 false.
Lemma numbered_ok : mem_ok numbered.
Proof. split_and!; try done. by exists 16. Qed.

(** a read that starts inside a sector is wrong: what lies behind the first sector is
    read from that sector again; and a read within one sector writes behind the end of
    its buffer. *)
Theorem disk_read_unaligned :
  (exists l, read 100 (repeat 0 924) numbered = Done (inr l) /\ l !! 412%nat = Some 0 /\ m_data numbered (100 + 412) = 1) /\
  read 10 (repeat 0 20) numbered = Fault BadAccess.
Proof. split; [|vm_compute; reflexivity]. eexists. split_and!; by vm_compute. Qed.

Lemma disk_read_aligned_witness :
  read 1024 (repeat 0 600) numbered = Done (inr (bytes (contents numbered) 1024 (Z.of_nat (length (repeat 0 600))))).
Proof.
  apply (@disk_read_aligned MemoryDisk memory_disk numbered 1024 (repeat 0 600) numbered_ok); [lia|by exists 2|]. by vm_compute.
Defined.
Lemma disk_write_spec_witness :
  exists d', write false 1000 [1; 2; 3] numbered = Done (inr d') /\ sd_ok d' /\
    (forall x, contents d' x = overwrite (contents numbered) 1000 [1; 2; 3] x) /\
    ((sector_size numbered | 1000) -> forall buf, length buf = length [1; 2; 3] -> read 1000 buf d' = Done (inr [1; 2; 3])).
Proof. apply (@disk_write_spec MemoryDisk memory_disk numbered 1000 [1; 2; 3] numbered_ok); [lia|]. by vm_compute. Defined.
Lemma slice_write_last_sector_witness : write false 1030 [7] (mkSlice numbered 4 3) = Fault AssertFailed.
Proof.
  apply (@slice_write_last_sector MemoryDisk memory_disk (mkSlice numbered 4 3) 1030 [7]); try (by vm_compute).
  split_and!; try done. apply numbered_ok.
Defined.
End DiskProofs.
