(* ===== verification/Process.v ===== *)
(** * Process: the process table, signals and the scheduler

    [kern/tasking/process.cpp], [kern/tasking/scheduler.cpp], [Process::clone] and
    [Process::task_switch] of [kern/i686/tasking/process.cpp] and the system calls on
    processes.  File tables and signal tables are shared objects: a process has the key
    of its tables in the stores [fd_tables] and [sig_tables], and numbers for the nodes of
    its working directory and its root.  Registers, stacks and page
    mappings are not part of the state; running a signal handler in user space is the
    event [Handler].  A call of [schedule] changes the current process; what a function
    does after it is the business of the next switch to its process. *)
From stdpp Require Import base list gmap.
From Stdlib Require Import ZArith Lia.
From S2P Require Import Prelude Mem32 DeltaQueue Errno.
Import Errno.

Module Process.

Inductive status := Active | Paused | ChildWait | IOWait | Sleeping | Zombie.
#[export] Instance status_eq_dec : EqDecision status.
Proof. solve_decision. Defined.

(** [tasking::FDInfo]; a [None] node is a free entry. *)
Record FDInfo := mkFD { node : option Z; fd_read : bool; fd_write : bool; fd_append : bool; fd_cursor : Z }.

Record process := mkProc {
  p_pid : Z; p_tgid : Z; p_parent : Z; p_status : status; p_priority : Z;
  p_uid : Z; p_gid : Z;
  p_children : list Z;
  p_wait_entries : list (Z * Z);
  p_waitstatus_phys : Z; p_woke_up_by : Z;
  p_timeout_action : option Z;
  p_fd_table : Z; p_sig_handlers : Z;
  p_pwd : Z; p_root : Z;
}.
Definition set_status (v : status) (p : process) : process :=
  mkProc (p_pid p) (p_tgid p) (p_parent p) v (p_priority p) (p_uid p) (p_gid p) (p_children p) (p_wait_entries p)
    (p_waitstatus_phys p) (p_woke_up_by p) (p_timeout_action p) (p_fd_table p) (p_sig_handlers p) (p_pwd p) (p_root p).
Definition set_parent (v : Z) (p : process) : process :=
  mkProc (p_pid p) (p_tgid p) v (p_status p) (p_priority p) (p_uid p) (p_gid p) (p_children p) (p_wait_entries p)
    (p_waitstatus_phys p) (p_woke_up_by p) (p_timeout_action p) (p_fd_table p) (p_sig_handlers p) (p_pwd p) (p_root p).
Definition set_children (v : list Z) (p : process) : process :=
  mkProc (p_pid p) (p_tgid p) (p_parent p) (p_status p) (p_priority p) (p_uid p) (p_gid p) v (p_wait_entries p)
    (p_waitstatus_phys p) (p_woke_up_by p) (p_timeout_action p) (p_fd_table p) (p_sig_handlers p) (p_pwd p) (p_root p).
Definition add_wait_entry (v : Z * Z) (p : process) : process :=
  mkProc (p_pid p) (p_tgid p) (p_parent p) (p_status p) (p_priority p) (p_uid p) (p_gid p) (p_children p)
    (p_wait_entries p ++ [v]) (p_waitstatus_phys p) (p_woke_up_by p) (p_timeout_action p) (p_fd_table p) (p_sig_handlers p) (p_pwd p) (p_root p).
Definition set_waitstatus (v : Z) (p : process) : process :=
  mkProc (p_pid p) (p_tgid p) (p_parent p) (p_status p) (p_priority p) (p_uid p) (p_gid p) (p_children p) (p_wait_entries p)
    v (p_woke_up_by p) (p_timeout_action p) (p_fd_table p) (p_sig_handlers p) (p_pwd p) (p_root p).
Definition set_woke_up_by (v : Z) (p : process) : process :=
  mkProc (p_pid p) (p_tgid p) (p_parent p) (p_status p) (p_priority p) (p_uid p) (p_gid p) (p_children p) (p_wait_entries p)
    (p_waitstatus_phys p) v (p_timeout_action p) (p_fd_table p) (p_sig_handlers p) (p_pwd p) (p_root p).
Definition set_timeout_action (v : option Z) (p : process) : process :=
  mkProc (p_pid p) (p_tgid p) (p_parent p) (p_status p) (p_priority p) (p_uid p) (p_gid p) (p_children p) (p_wait_entries p)
    (p_waitstatus_phys p) (p_woke_up_by p) v (p_fd_table p) (p_sig_handlers p) (p_pwd p) (p_root p).
Definition set_priority (v : Z) (p : process) : process :=
  mkProc (p_pid p) (p_tgid p) (p_parent p) (p_status p) v (p_uid p) (p_gid p) (p_children p) (p_wait_entries p)
    (p_waitstatus_phys p) (p_woke_up_by p) (p_timeout_action p) (p_fd_table p) (p_sig_handlers p) (p_pwd p) (p_root p).

(** What goes to other parts of the kernel: messages on the bus, timeout actions of
    waits, and the start of a handler in user space. *)
Inductive event :=
  | ProcessCreated (pid : Z)
  | ProcessDestroyed (pid err_code : Z)
  | TimedOut (pid arg : Z)
  | Handler (pid signal sender : Z).

Record kernel := mkKernel {
  m_processes : list (option process);
  m_process_count : Z;
  m_current : Z;
  fd_tables : gmap Z (list FDInfo);
  sig_tables : gmap Z (list Z);
  next_key : Z;
  phys_mem : memory;
  sleep_queue : list (Z * Z);
  elapsed_ticks : Z;
  events : list event;
}.
Definition set_processes (v : list (option process)) (k : kernel) : kernel :=
  mkKernel v (m_process_count k) (m_current k) (fd_tables k) (sig_tables k) (next_key k) (phys_mem k) (sleep_queue k) (elapsed_ticks k) (events k).
Definition add_count (v : Z) (k : kernel) : kernel :=
  mkKernel (m_processes k) (m_process_count k + v) (m_current k) (fd_tables k) (sig_tables k) (next_key k) (phys_mem k) (sleep_queue k) (elapsed_ticks k) (events k).
Definition set_current (v : Z) (k : kernel) : kernel :=
  mkKernel (m_processes k) (m_process_count k) v (fd_tables k) (sig_tables k) (next_key k) (phys_mem k) (sleep_queue k) (elapsed_ticks k) (events k).
Definition set_tables (f : gmap Z (list FDInfo)) (s : gmap Z (list Z)) (n : Z) (k : kernel) : kernel :=
  mkKernel (m_processes k) (m_process_count k) (m_current k) f s n (phys_mem k) (sleep_queue k) (elapsed_ticks k) (events k).
Definition set_phys (v : memory) (k : kernel) : kernel :=
  mkKernel (m_processes k) (m_process_count k) (m_current k) (fd_tables k) (sig_tables k) (next_key k) v (sleep_queue k) (elapsed_ticks k) (events k).
Definition set_sleep (q : list (Z * Z)) (t : Z) (k : kernel) : kernel :=
  mkKernel (m_processes k) (m_process_count k) (m_current k) (fd_tables k) (sig_tables k) (next_key k) (phys_mem k) q t (events k).
Definition send (e : event) : M kernel unit := modify (fun k =>
  mkKernel (m_processes k) (m_process_count k) (m_current k) (fd_tables k) (sig_tables k) (next_key k) (phys_mem k) (sleep_queue k) (elapsed_ticks k) (events k ++ [e])).

(** ** The table *)

Definition lookup (pid : Z) (k : kernel) : option process :=
  if pid <? 0 then None else mjoin (m_processes k !! Z.to_nat pid).
Definition by_pid (pid : Z) : M kernel (option process) :=
  assert_ (0 <=? pid) ;; gets (lookup pid).
(** [by_pid(pid)->...]. *)
Definition deref (pid : Z) : M kernel process :=
  p ← by_pid pid; match p with Some p => mret p | None => fail BadAccess end.
Definition put_proc (pid : Z) (p : option process) : M kernel unit :=
  modify (fun k => set_processes (<[Z.to_nat pid := p]> (m_processes k)) k).
Definition update (pid : Z) (f : process -> process) : M kernel unit :=
  p ← deref pid; put_proc pid (Some (f p)).

Fixpoint first_free (i : Z) (l : list (option process)) : Z :=
  match l with
  | None :: _ => i
  | Some _ :: l => first_free (i + 1) l
  | [] => i
  end.
Definition find_free_pid (k : kernel) : Z := first_free 0 (m_processes k).

Definition process_list (k : kernel) : list Z :=
  filter (fun i => is_Some (lookup i k)) (Z.of_nat <$> seq 0 (length (m_processes k))).

(** ** File descriptors *)

Fixpoint first_free_fd (i : nat) (l : list FDInfo) : nat :=
  match l with
  | [] => i
  | f :: l => match node f with None => i | Some _ => first_free_fd (S i) l end
  end.
Definition fds (key : Z) (k : kernel) : list FDInfo := default [] (fd_tables k !! key).
Definition set_fds (key : Z) (l : list FDInfo) (k : kernel) : kernel :=
  set_tables (<[key := l]> (fd_tables k)) (sig_tables k) (next_key k) k.
Definition add_fd (key : Z) (info : FDInfo) (k : kernel) : Z * kernel :=
  let l := fds key k in
  let i := first_free_fd 0 l in
  (Z.of_nat i, set_fds key (if Nat.ltb i (length l) then <[i := info]> l else l ++ [info]) k).
Definition get_fd (key fd : Z) (k : kernel) : option FDInfo :=
  if fd <? 0 then None
  else match fds key k !! Z.to_nat fd with
       | Some f => match node f with Some _ => Some f | None => None end
       | None => None
       end.
Definition close_fd (key fd : Z) : M kernel unit :=
  k ← get;
  match get_fd key fd k with
  | Some f => put (set_fds key (<[Z.to_nat fd := mkFD None (fd_read f) (fd_write f) (fd_append f) (fd_cursor f)]> (fds key k)) k)
  | None => fail AssertFailed
  end.

(** ** Signals *)

Definition SIGRTMAX : Z := 64.
Definition SIGKILL : Z := 9.
Definition SIGTERM : Z := 15.
Definition SIGCHLD : Z := 17.
Definition SIGSTOP : Z := 19.
Definition SIG_ACTION_TERM : Z := 0.
Definition SIG_ACTION_CORE : Z := 1.
Definition SIG_ACTION_IGN : Z := 2.
Definition SIG_ACTION_CONT : Z := 3.
Definition SIG_ACTION_STOP : Z := 4.
Definition default_sighandler_actions : list Z :=
  [0; 0; 0; 1; 1; 1; 1; 1; 1; 0; 0; 1; 0; 0; 0; 0; 0; 2; 3; 4; 4; 4; 4; 2; 1; 1; 0; 0; 2; 2; 2; 1] ++ replicate 32 0.
Definition W_EXITCODE (ret sig : Z) : Z := Z.lor (Z.shiftl ret 8) sig.

(** ** Creation *)

(** The nodes of [/dev/stdin], [/dev/stdout] and [/dev/stderr]. *)
Definition default_fds : list FDInfo :=
  [mkFD (Some 0) true false false 0; mkFD (Some 1) false true false 0; mkFD (Some 2) false true false 0].

(** [vfs::root]. *)
Definition vfs_root : Z := 0.
(** [new Process] and its tables. *)
Definition new_process : M kernel process :=
  k ← get;
  let key := next_key k in
  put (set_tables (<[key := default_fds]> (fd_tables k)) (<[key := default_sighandler_actions]> (sig_tables k)) (key + 1) k) ;;
  mret (mkProc 0 0 0 Active 0 0 0 [] [] 0 0 None key key vfs_root vfs_root).
Definition with_ids (pid : Z) (p : process) : process :=
  mkProc pid pid (p_parent p) (p_status p) (p_priority p) (p_uid p) (p_gid p) (p_children p) (p_wait_entries p)
    (p_waitstatus_phys p) (p_woke_up_by p) (p_timeout_action p) (p_fd_table p) (p_sig_handlers p) (p_pwd p) (p_root p).
Definition create : M kernel Z :=
  free_idx ← gets find_free_pid;
  p ← new_process;
  modify (fun k => set_processes
    (if free_idx =? Z.of_nat (length (m_processes k)) then m_processes k ++ [Some (with_ids free_idx p)]
     else <[Z.to_nat free_idx := Some (with_ids free_idx p)]> (m_processes k)) k) ;;
  modify (add_count 1) ;;
  send (ProcessCreated free_idx) ;;
  mret free_idx.

Definition CLONE_VM : Z := 0x100.
Definition CLONE_FS : Z := 0x200.
Definition CLONE_FILES : Z := 0x400.
Definition CLONE_SIGHAND : Z := 0x800.
Definition CLONE_PARENT : Z := 0x8000.
Definition CLONE_THREAD : Z := 0x10000.
Definition has (flags f : Z) : bool := Ztrue (Z.land flags f).

(** The tables of a clone: shared, or copies under fresh keys. *)
Definition clone_tables (flags : Z) (parent : process) : M kernel (Z * Z) :=
  k ← get;
  let n := next_key k in
  put (set_tables
    (if has flags CLONE_FILES then fd_tables k else <[n := fds (p_fd_table parent) k]> (fd_tables k))
    (if has flags CLONE_SIGHAND then sig_tables k else <[n := default [] (sig_tables k !! p_sig_handlers parent)]> (sig_tables k))
    (n + 1) k) ;;
  mret (if has flags CLONE_FILES then p_fd_table parent else n,
        if has flags CLONE_SIGHAND then p_sig_handlers parent else n).

(** The directories of a clone: those of the parent, or the nodes that are found again under their
    paths; [find_again] stands for [vfs::find(node->path()).value()]. *)
Definition clone_dirs (find_again : Z -> outcome Z) (flags : Z) (parent : process) : M kernel (Z * Z) :=
  if has flags CLONE_FS then mret (p_pwd parent, p_root parent)
  else
    pwd ← (match find_again (p_pwd parent) with Done n => mret n | Fault f => fail f end);
    root ← (match find_again (p_root parent) with Done n => mret n | Fault f => fail f end);
    mret (pwd, root).

Definition clone (find_again : Z -> outcome Z) (pid flags : Z) : M kernel Z :=
  new_pid ← create;
  proc ← deref pid;
  dirs ← clone_dirs find_again flags proc;
  keys ← clone_tables flags proc;
  let parent := if has flags CLONE_PARENT then p_parent proc else p_pid proc in
  update new_pid (fun p => mkProc (p_pid p) (if has flags CLONE_THREAD then p_pid proc else p_tgid p) (p_parent p)
    (p_status p) (p_priority proc) (p_uid proc) (p_gid proc) (p_children p) (p_wait_entries p) (p_waitstatus_phys p)
    (p_woke_up_by p) (p_timeout_action p) keys.1 keys.2 dirs.1 dirs.2) ;;
  update parent (fun p => set_children (p_children p ++ [new_pid]) p) ;;
  update new_pid (set_parent parent) ;;
  mret new_pid.

(** ** The scheduler *)

(** The pop callback of the sleep queue. *)
Definition wake_sleeper (pid : Z) : M kernel unit :=
  p ← by_pid pid;
  match p with
  | None => fail AssertFailed
  | Some p =>
      (if bool_decide (p_status p = IOWait) then
         match p_timeout_action p with Some arg => send (TimedOut pid arg) | None => mret tt end ;;
         update pid (set_timeout_action None)
       else assert_ (bool_decide (p_status p = Sleeping))) ;;
      update pid (set_status Active)
  end.
(** [now] is [Time::total_ticks()]. *)
Definition update_sleep_queue (now : Z) : M kernel unit :=
  k ← get;
  let duration := u64 (now - elapsed_ticks k) in
  let '(popped, rest) := DeltaQueue.decrease (sleep_queue k) duration in
  put (set_sleep rest now k) ;;
  for_each popped wake_sleeper.

Definition process_ready (pid : Z) (k : kernel) : bool :=
  match lookup pid k with Some p => bool_decide (p_status p = Active) | None => false end.
(** One [do ... while] loop of [find_next_pid]; it runs for ever when nothing is ready. *)
Fixpoint next_ready (fuel : nat) (pid : Z) (k : kernel) : outcome Z :=
  match fuel with
  | O => Fault OutOfFuel
  | S fuel =>
      let pid := (pid + 1) mod Z.of_nat (length (m_processes k)) in
      if process_ready pid k then Done pid else next_ready fuel pid k
  end.
Definition find_next_pid (k : kernel) : outcome Z :=
  match next_ready (length (m_processes k)) (m_current k) k with
  | Done pid => if pid =? 0 then next_ready (length (m_processes k)) pid k else Done pid
  | Fault f => Fault f
  end.

Definition release_zombie (pid : Z) : M kernel unit :=
  current ← gets m_current;
  assert_ (negb (current =? pid)) ;;
  p ← deref pid;
  assert_ (bool_decide (p_status p = Zombie)) ;;
  parent ← by_pid (p_parent p);
  match parent with
  | None => fail AssertFailed
  | Some par =>
      assert_ (bool_decide (pid ∈ p_children par)) ;;
      update (p_parent p) (fun par => set_children (filter (fun c => c <> pid) (p_children par)) par) ;;
      put_proc pid None ;;
      modify (add_count (-1))
  end.
Definition delete_zombie (pid : Z) : M kernel unit :=
  k ← get;
  match lookup pid k with
  | Some p => when (bool_decide (p_status p = Zombie) && negb (p_pid p =? m_current k)) (release_zombie pid)
  | None => mret tt
  end.
Definition delete_zombie_processes : M kernel unit :=
  k ← get; for_each (Z.of_nat <$> seq 0 (length (m_processes k))) delete_zombie.

Definition task_switch (pid : Z) : M kernel unit :=
  current ← gets m_current;
  assert_ (negb (pid =? current)) ;;
  next ← by_pid pid;
  match next with None => fail AssertFailed | Some _ => modify (set_current pid) end.
Definition schedule (now : Z) : M kernel unit :=
  delete_zombie_processes ;;
  update_sleep_queue now ;;
  k ← get;
  match find_next_pid k with
  | Fault f => fail f
  | Done next_pid => when (negb (m_current k =? next_pid)) (task_switch next_pid)
  end.

(** ** Waiting, killing and signals *)

(** [wstatus_phys] is the physical address of the caller's status word. *)
Definition wait_for (now self pid wstatus_phys : Z) : M kernel unit :=
  p ← by_pid pid;
  match p with
  | None => fail AssertFailed
  | Some _ =>
      update pid (add_wait_entry (self, wstatus_phys)) ;;
      update self (set_waitstatus wstatus_phys) ;;
      update self (set_status ChildWait) ;;
      schedule now
  end.
Definition wake_up (pid awakener err_code : Z) : M kernel unit :=
  p ← deref pid;
  modify (fun k => set_phys (store32 (phys_mem k) (p_waitstatus_phys p) err_code) k) ;;
  update pid (set_woke_up_by awakener) ;;
  update pid (set_status Active).

Definition adopt (child_pid : Z) : M kernel unit :=
  update child_pid (set_parent 0) ;;
  update 0 (fun p => set_children (p_children p ++ [child_pid]) p).
Definition wake_waiter (pid err_code : Z) (entry : Z * Z) : M kernel unit :=
  w ← deref entry.1;
  assert_ (bool_decide (p_status w = ChildWait)) ;;
  wake_up entry.1 pid err_code.

(** [raise]; [kill] is the one below. *)
Definition raise_with (kill : Z -> Z -> M kernel unit) (self target_pid signal : Z) : M kernel unit :=
  p ← by_pid target_pid;
  match p with
  | None => fail AssertFailed
  | Some p =>
      handlers ← gets (fun k => default [] (sig_tables k !! p_sig_handlers p));
      assert_ (u32 signal <? Z.of_nat (length handlers)) ;;
      let action := nth (Z.to_nat signal) handlers 0 in
      if action =? SIG_ACTION_IGN then mret tt
      else if (action =? SIG_ACTION_CORE) || (action =? SIG_ACTION_TERM) then kill target_pid (W_EXITCODE 255 signal)
      else if (action =? SIG_ACTION_STOP) || (action =? SIG_ACTION_CONT) then mret tt
      else send (Handler target_pid signal self)
  end.

(** [kill] and [raise] call each other, up the chain of parents. *)
Fixpoint kill (fuel : nat) (now pid err_code : Z) : M kernel unit :=
  match fuel with
  | O => fail OutOfFuel
  | S fuel =>
      if pid =? 0 then fail Panic
      else
        p ← by_pid pid;
        match p with
        | None => fail AssertFailed
        | Some p =>
            update pid (set_status Zombie) ;;
            for_each (p_children p) adopt ;;
            send (ProcessDestroyed pid err_code) ;;
            p ← deref pid;
            parent ← by_pid (p_parent p);
            match parent with
            | None => fail AssertFailed
            | Some par =>
                for_each (p_wait_entries p) (wake_waiter pid err_code) ;;
                raise_with (kill fuel now) (p_pid par) (p_pid par) SIGCHLD ;;
                current ← gets m_current;
                when (pid =? current) (schedule now)
            end
        end
  end.
Definition raise (fuel : nat) (now : Z) : Z -> Z -> Z -> M kernel unit := raise_with (kill fuel now).

(** ** System calls; [chk] stands for the checks of the user pointers *)

Definition sys_exit (fuel : nat) (now errcode : Z) : M kernel unit :=
  current ← gets m_current; kill fuel now current (W_EXITCODE (u8 errcode) 0).
Definition sys_kill (fuel : nat) (now pid sig : Z) : M kernel Z :=
  p ← by_pid pid;
  match p with
  | None => mret (- ESRCH)
  | Some _ =>
      if SIGRTMAX <=? sig then mret (- EINVAL)
      else current ← gets m_current; raise fuel now current pid sig ;; mret EOK
  end.
(** [sys_waitpid] up to its wait: [None] when the caller waits; when it is active again it returns
    [woke_up_by], with the pid [-1] after it has waited in the same way for its other children. *)
Definition sys_waitpid (chk : bool) (now pid wstatus_phys : Z) : M kernel (option Z) :=
  if negb chk then mret (Some (- EFAULT))
  else if pid =? -1 then
    current ← gets m_current;
    self ← deref current;
    match p_children self with
    | [] => mret (Some (p_woke_up_by self))
    | child :: _ => wait_for now current child wstatus_phys ;; mret None
    end
  else if 0 <? pid then
    current ← gets m_current;
    self ← deref current;
    p ← by_pid pid;
    match p with
    | None => mret (Some (- ECHILD))
    | Some p =>
        if (negb (p_parent p =? current) && negb (p_tgid p =? p_tgid self)) || bool_decide (p_status p = Zombie)
        then mret (Some (- ECHILD))
        else wait_for now current pid wstatus_phys ;; mret None
    end
  else mret (Some (- EINVAL)).
Definition min_priority : Z := 1.
Definition max_priority : Z := 40.
Definition PRIO_PROCESS : Z := 0.
Definition sys_getpriority (which who : Z) : M kernel Z :=
  if negb (which =? PRIO_PROCESS) then mret (- EINVAL)
  else p ← by_pid who; match p with None => mret (- ESRCH) | Some p => mret (p_priority p) end.
Definition sys_setpriority (which who prio : Z) : M kernel Z :=
  if negb (which =? PRIO_PROCESS) then mret (- EINVAL)
  else p ← by_pid who;
    match p with
    | None => mret (- ESRCH)
    | Some _ =>
        if (prio <? min_priority) || (max_priority <? prio) then mret (- EINVAL)
        else update who (set_priority prio) ;; mret EOK
    end.
Definition sys_getpid : M kernel Z := c ← gets m_current; p ← deref c; mret (p_tgid p).
Definition sys_gettid : M kernel Z := c ← gets m_current; p ← deref c; mret (p_pid p).
Definition sys_sched_yield (now : Z) : M kernel unit := schedule now.

(** [table[num].sa_handler = action], in the table of the current process. *)
Definition set_action (num action : Z) : M kernel unit :=
  c ← gets m_current;
  p ← deref c;
  modify (fun k =>
    set_tables (fd_tables k) (<[p_sig_handlers p := <[Z.to_nat num := action]> (default [] (sig_tables k !! p_sig_handlers p))]>
      (sig_tables k)) (next_key k) k).
Definition default_action (num : Z) : Z := nth (Z.to_nat num) default_sighandler_actions 0.
(** [SIG_DFL] and [SIG_IGN] are the raw values 0 and 1; [chk] stands for the check of the
    pointer to the handler. *)
Definition sys_signal (chk : bool) (num handler : Z) : M kernel Z :=
  if (num <? 0) || (SIGRTMAX <=? num) || (num =? SIGTERM) || (num =? SIGSTOP) then mret (- EINVAL)
  else if handler =? 0 then set_action num (default_action num) ;; mret handler
  else if handler =? 1 then set_action num SIG_ACTION_IGN ;; mret handler
  else if negb chk then mret (- EFAULT)
  else set_action num handler ;; mret handler.
(** [chk] is about the structures [act] and [oldact], [chk_handler] about [act->sa_handler]. *)
Definition sys_sigaction (chk chk_handler : bool) (num sa_handler : Z) : M kernel Z :=
  if (num <? 0) || (SIGRTMAX <=? num) || (num =? SIGTERM) || (num =? SIGSTOP) then mret (- EINVAL)
  else if negb chk then mret (- EFAULT)
  else if sa_handler =? 0 then set_action num (default_action num) ;; mret EOK
  else if sa_handler =? 1 then set_action num SIG_ACTION_IGN ;; mret EOK
  else if negb chk_handler then mret (- EFAULT)
  else set_action num sa_handler ;; mret EOK.

(** [clock] is [Time::clock_speed()], in MHz; [chk] stands for the checks of both pointers. *)
Definition sys_nanosleep (chk : bool) (clock now tv_sec tv_nsec : Z) : M kernel Z :=
  if negb chk then mret (- EFAULT)
  else if (tv_nsec <? 0) || (999999999 <? tv_nsec) || (tv_sec <? 0) then mret (- EINVAL)
  else
    current ← gets m_current;
    update current (set_status Sleeping) ;;
    let ticks := u64 (tv_nsec / 1000 * clock + tv_sec * (clock * 1000000)) in
    modify (fun k => set_sleep (DeltaQueue.insert current ticks (sleep_queue k)) (elapsed_ticks k) k) ;;
    schedule now ;;
    mret EOK.

(** What the shell does to run a program that it could load. *)
Definition spawn : M kernel Z :=
  process ← create;
  current ← gets m_current;
  update process (set_parent current) ;;
  update current (fun p => set_children (p_children p ++ [process]) p) ;;
  mret process.
Definition run_program (now status_phys : Z) : M kernel unit :=
  process ← spawn;
  current ← gets m_current;
  wait_for now current process status_phys.

(** The idle task and the initial task, which runs first. *)
Definition empty_kernel (m : memory) : kernel := mkKernel [] 0 0 ∅ ∅ 0 m [] 0 [].
Definition boot : M kernel unit :=
  create ≫= fun idle_task => create ≫= fun init_task => modify (set_current init_task).

(** ** Permissions and arguments *)

Inductive AccessRequestPerm := ReadRequest | WriteRequest | ExecRequest.
Definition check_perms (uid gid perms tgt_uid tgt_gid : Z) (type : AccessRequestPerm) : bool :=
  let '(user_flag, group_flag, other_flag) :=
    match type with
    | ReadRequest => (0x100, 0x20, 0x4)
    | WriteRequest => (0x80, 0x10, 0x2)
    | ExecRequest => (0x40, 0x8, 0x1)
    end in
  if uid =? 0 then true
  else ((tgt_uid =? uid) && has perms user_flag) || ((tgt_gid =? gid) && has perms group_flag) || has perms other_flag.

(** The lengths of the arguments. *)
Definition args_size (lens : list Z) : Z := u32 (foldl (fun t l => t + (l + 1)) (Z.of_nat (length lens) * 4) lens).
Definition check_args_size (lens : list Z) : bool := args_size lens <? 0x1000.
End Process.
