(* ===== verification/ProcessProofs.v ===== *)
(** * ProcessProofs: the process tree, the scheduler, kill and wait *)
From stdpp Require Import base list gmap.
From Stdlib Require Import ZArith Lia.
From S2P Require Import Prelude Mem32 DeltaQueue Errno Process.
Import Errno Process.

Module ProcessProofs.

(** ** The table as a function *)

Abbreviation view := (Z -> option process).
Definition view_of (k : kernel) : view := fun i => lookup i k.
Definition vupd (i : Z) (x : option process) (v : view) : view := fun j => if j =? i then x else v j.

Lemma vupd_eq i x v : vupd i x v i = x.
Proof. unfold vupd. by rewrite Z.eqb_refl. Qed.
Lemma vupd_ne i j x v : j <> i -> vupd i x v j = v j.
Proof. intros. unfold vupd. by rewrite (proj2 (Z.eqb_neq j i)). Qed.

Lemma lookup_Some_inv i k p : lookup i k = Some p -> 0 <= i < Z.of_nat (length (m_processes k)).
Proof.
  unfold lookup. destruct (Z.ltb_spec i 0); [done|]. intros E.
  destruct (m_processes k !! Z.to_nat i) as [o|] eqn:L; [|done]. apply lookup_lt_Some in L. lia.
Qed.

(** [k'] is [k] with the table changed to [v]; the rest is as before. *)
Definition put_kernel (i : Z) (x : option process) (k : kernel) : kernel :=
  set_processes (<[Z.to_nat i := x]> (m_processes k)) k.
Lemma lookup_put i x k j : 0 <= i < Z.of_nat (length (m_processes k)) ->
  lookup j (put_kernel i x k) = vupd i x (view_of k) j.
Proof.
  intros Hi. unfold vupd, view_of, lookup, put_kernel. cbn. destruct (Z.ltb_spec j 0).
  - destruct (Z.eqb_spec j i); [lia|done].
  - destruct (Z.eqb_spec j i) as [-> |N].
    + rewrite list_lookup_insert_eq by lia. done.
    + rewrite list_lookup_insert_ne by lia. done.
Qed.
Lemma length_put i x k : length (m_processes (put_kernel i x k)) = length (m_processes k).
Proof. apply length_insert. Qed.

Lemma by_pid_run i k : 0 <= i -> by_pid i k = Done (lookup i k, k).
Proof. intros H. unfold by_pid. rewrite (proj2 (Z.leb_le 0 i)) by done. done. Qed.
Lemma deref_run i k p : lookup i k = Some p -> deref i k = Done (p, k).
Proof.
  intros E. unfold deref. rewrite (run_bind_done _ _ _ _ _ (by_pid_run i k ltac:(apply lookup_Some_inv in E; lia))).
  by rewrite E.
Qed.
Lemma update_run i f k p : lookup i k = Some p -> update i f k = Done (tt, put_kernel i (Some (f p)) k).
Proof. intros E. unfold update. by rewrite (run_bind_done _ _ _ _ _ (deref_run i k p E)). Qed.

(** ** The process tree

    [loose] are the processes made by [create] alone (the first one and the tasks of the
    kernel): they are children of process 0 by their [parent], and in nobody's list. *)
Section tree.
Context (loose : Z -> Prop).

Record family (v : view) : Prop := {
  t_pid i p : v i = Some p -> p_pid p = i;
  t_init : exists p, v 0 = Some p /\ p_status p <> Zombie /\ p_parent p = 0;
  t_parent i p : v i = Some p ->
    exists par, v (p_parent p) = Some par /\ p_status par <> Zombie /\
      (i = 0 \/ (loose i /\ p_parent p = 0) \/ i ∈ p_children par);
  t_child i p c : v i = Some p -> p_status p <> Zombie -> c ∈ p_children p ->
    c <> 0 /\ exists q, v c = Some q /\ p_parent q = i;
  t_nonzero i p c : v i = Some p -> c ∈ p_children p -> c <> 0;
  t_loose i : loose i -> exists p, v i = Some p /\ p_parent p = 0;
  t_task i p c : v i = Some p -> p_status p <> Zombie -> c ∈ p_children p -> ~ loose c;
  t_irrefl i p : v i = Some p -> p_parent p = i -> i = 0;
}.

Lemma tree_ext v w : (forall i, v i = w i) -> family v -> family w.
Proof.
  intros E [T1 T2 T3 T4 TN T5 TT T6]. split.
  - intros i p H. rewrite <- E in H. by apply T1.
  - destruct T2 as (p & H & ?). exists p. by rewrite <- E.
  - intros i p H. rewrite <- E in H. destruct (T3 i p H) as (par & H' & ?). exists par. by rewrite <- E.
  - intros i p c H S C. rewrite <- E in H. destruct (T4 i p c H S C) as (? & q & H' & ?). split; [done|]. exists q. by rewrite <- E.
  - intros i p c H. rewrite <- E in H. by apply (TN i).
  - intros i H. destruct (T5 i H) as (p & ? & ?). exists p. by rewrite <- E.
  - intros i p c H. rewrite <- E in H. by apply (TT i).
  - intros i p H. rewrite <- E in H. by apply T6.
Qed.

(** A change that keeps the family relations of a process. *)
Definition same_family (p p' : process) : Prop :=
  p_pid p' = p_pid p /\ p_parent p' = p_parent p /\ p_children p' = p_children p.

(** What the scheduler never changes in a process. *)
Definition kept (p p' : process) : Prop :=
  p_pid p' = p_pid p /\ p_tgid p' = p_tgid p /\ p_parent p' = p_parent p /\ p_priority p' = p_priority p /\
  p_wait_entries p' = p_wait_entries p /\ p_waitstatus_phys p' = p_waitstatus_phys p /\ p_woke_up_by p' = p_woke_up_by p /\
  p_fd_table p' = p_fd_table p /\ p_sig_handlers p' = p_sig_handlers p.
Lemma kept_trans p q r : kept p q -> kept q r -> kept p r.
Proof. unfold kept. intros (?&?&?&?&?&?&?&?&?) (?&?&?&?&?&?&?&?&?). split_and!; congruence. Qed.

(** Tables that agree on the family relations and on who is a zombie. *)
Definition kin (o o' : option process) : Prop :=
  match o, o' with
  | Some p, Some p' => same_family p p' /\ (p_status p' <> Zombie <-> p_status p <> Zombie)
  | None, None => True
  | _, _ => False
  end.
Lemma kin_refl o : kin o o.
Proof. by destruct o. Qed.

Lemma tree_pointwise v w : family v -> (forall j, kin (v j) (w j)) -> family w.
Proof.
  intros [T1 T2 T3 T4 TN T5 TT T6] K.
  assert (L : forall j q, w j = Some q ->
    exists q0, v j = Some q0 /\ same_family q0 q /\ (p_status q <> Zombie <-> p_status q0 <> Zombie)).
  { intros j q H. specialize (K j). rewrite H in K. destruct (v j) as [q0|]; [|done]. by exists q0. }
  assert (G : forall j q0, v j = Some q0 -> exists q, w j = Some q /\ same_family q0 q /\
    (p_status q <> Zombie <-> p_status q0 <> Zombie)).
  { intros j q0 H. specialize (K j). rewrite H in K. destruct (w j) as [q|]; [|done]. by exists q. }
  split.
  - intros j q (q0 & H & (E & _) & _)%L. rewrite E. by apply T1.
  - destruct T2 as (p0 & H & Z0 & P0). destruct (G _ _ H) as (q & H' & (_ & E & _) & S'). exists q.
    split_and!; [done|by apply S'|congruence].
  - intros j q (q0 & H & (_ & E & _) & _)%L. destruct (T3 _ _ H) as (par & Hp & Zp & C).
    destruct (G _ _ Hp) as (par' & Hp' & (_ & _ & Ec) & Sp). rewrite E. exists par'.
    split_and!; [done|by apply Sp|]. by rewrite Ec.
  - intros j q c (q0 & H & (_ & _ & E) & S0)%L Zq C. rewrite E in C.
    destruct (T4 _ _ c H ltac:(by apply S0) C) as (? & x & Hx & Px). split; [done|].
    destruct (G _ _ Hx) as (x' & Hx' & (_ & Ex & _) & _). exists x'. split; [done|congruence].
  - intros j q c (q0 & H & (_ & _ & E) & _)%L. rewrite E. by apply (TN j).
  - intros j Lj. destruct (T5 j Lj) as (q0 & H & P0). destruct (G _ _ H) as (q & Hq & (_ & E & _) & _). exists q. by rewrite E.
  - intros j q c (q0 & H & (_ & _ & E) & S0)%L Zq. rewrite E. apply (TT j q0); [done|by apply S0].
  - intros j q (q0 & H & (_ & E & _) & _)%L. rewrite E. by apply T6.
Qed.

Lemma tree_update v i p p' :
  family v -> v i = Some p -> same_family p p' -> (p_status p' <> Zombie <-> p_status p <> Zombie) ->
  family (vupd i (Some p') v).
Proof.
  intros T Hi F S. apply tree_pointwise with v; [done|]. intros j. unfold vupd.
  destruct (Z.eqb_spec j i) as [-> |]; [by rewrite Hi|apply kin_refl].
Qed.

(** ** Zombies *)

Lemma tree_release v pid p par :
  family v -> v pid = Some p -> p_status p = Zombie -> ~ loose pid -> v (p_parent p) = Some par ->
  family (vupd pid None (vupd (p_parent p) (Some (set_children (filter (fun c => c <> pid) (p_children par)) par)) v)).
Proof.
  intros [T1 T2 T3 T4 TN T5 TT T6] Hp Zp Lp Hpar.
  assert (NZ : forall i q, v i = Some q -> p_parent q <> pid).
  { intros i q H E. destruct (T3 _ _ H) as (x & Hx & Zx & _). rewrite E in Hx. congruence. }
  set (w := vupd _ _ _).
  assert (L : forall j q, w j = Some q -> j <> pid /\ exists q0, v j = Some q0 /\
     p_pid q = p_pid q0 /\ p_parent q = p_parent q0 /\ p_status q = p_status q0 /\
     p_children q = (if decide (j = p_parent p) then filter (fun c => c <> pid) (p_children q0) else p_children q0)).
  { intros j q. unfold w. destruct (decide (j = pid)) as [-> |N]; [by rewrite vupd_eq|]. rewrite vupd_ne by done.
    destruct (decide (j = p_parent p)) as [-> |N'].
    - rewrite vupd_eq. intros [= <-]. split; [done|]. exists par. done.
    - rewrite vupd_ne by done. intros H. split; [done|]. by exists q. }
  assert (G : forall j q0, v j = Some q0 -> j <> pid -> exists q, w j = Some q /\
     p_pid q = p_pid q0 /\ p_parent q = p_parent q0 /\ p_status q = p_status q0 /\
     p_children q = (if decide (j = p_parent p) then filter (fun c => c <> pid) (p_children q0) else p_children q0)).
  { intros j q0 H N. unfold w. rewrite vupd_ne by done. destruct (decide (j = p_parent p)) as [-> |N'].
    - rewrite vupd_eq. rewrite Hpar in H. injection H as <-. by eexists.
    - rewrite vupd_ne by done. by exists q0. }
  split.
  - intros j q (_ & q0 & H & E & _)%L. rewrite E. by apply T1.
  - destruct T2 as (p0 & H & Z0 & P0). destruct (G 0 p0 H) as (q & Hq & _ & E & S & _).
    { intros <-. congruence. } exists q. split_and!; [done|congruence|congruence].
  - intros j q (N & q0 & H & _ & E & _)%L. destruct (T3 _ _ H) as (x & Hx & Zx & C). rewrite E.
    destruct (G _ _ Hx (NZ _ _ H)) as (y & Hy & _ & _ & Sy & Cy). exists y. split_and!; [done|congruence|].
    destruct C as [C|[C|C]]; [by left|by right; left|right; right]. rewrite Cy. case_decide; [|done].
    apply list_elem_of_filter. done.
  - intros j q c (N & q0 & H & _ & _ & S & C)%L Zq Hc. rewrite C in Hc.
    assert (c ∈ p_children q0 /\ c <> pid) as [C0 Nc].
    { destruct (decide (j = p_parent p)) as [-> |N'].
      - apply list_elem_of_filter in Hc as [? ?]. done.
      - split; [done|]. intros ->. destruct (T4 _ _ _ H ltac:(congruence) Hc) as (_ & x & Hx & Px). congruence. }
    destruct (T4 _ _ _ H ltac:(congruence) C0) as (? & x & Hx & Px). split; [done|].
    destruct (G _ _ Hx Nc) as (y & Hy & _ & Py & _). exists y. split; [done|congruence].
  - intros j q c (N & q0 & H & _ & _ & _ & C)%L Hc. apply (TN j q0); [done|]. rewrite C in Hc.
    case_decide; [|done]. by apply list_elem_of_filter in Hc as [_ ?].
  - intros j Lj. destruct (T5 j Lj) as (q0 & H & P0). destruct (G _ _ H) as (q & Hq & _ & E & _); [by intros ->|].
    exists q. by rewrite E.
  - intros j q c (N & q0 & H & _ & _ & S & C)%L Zq Hc. apply (TT j q0); [done|congruence|]. rewrite C in Hc.
    case_decide; [|done]. by apply list_elem_of_filter in Hc as [_ ?].
  - intros j q (N & q0 & H & _ & E & _)%L. rewrite E. by apply T6.
Qed.

(** What is not the table nor the count. *)
Definition same_rest (k k' : kernel) : Prop :=
  m_current k' = m_current k /\ fd_tables k' = fd_tables k /\ sig_tables k' = sig_tables k /\
  phys_mem k' = phys_mem k /\ sleep_queue k' = sleep_queue k /\ elapsed_ticks k' = elapsed_ticks k /\
  length (m_processes k') = length (m_processes k).

(** The processes left are as before but for their lists of children, and those gone
    were zombies. *)
Record collected (k k' : kernel) : Prop := {
  c_rest : same_rest k k';
  c_left i p' : lookup i k' = Some p' -> exists p, lookup i k = Some p /\ p' = set_children (p_children p') p;
  c_gone i p : lookup i k = Some p -> lookup i k' = None -> p_status p = Zombie /\ i <> m_current k;
}.
Lemma collected_refl k : collected k k.
Proof. split; [done| |congruence]. intros i p H. exists p. split; [done|]. by destruct p. Qed.
Lemma collected_trans k1 k2 k3 : collected k1 k2 -> collected k2 k3 -> collected k1 k3.
Proof.
  intros [R1 L1 G1] [R2 L2 G2]. split.
  - unfold same_rest in *. destruct R1 as (?&?&?&?&?&?&?), R2 as (?&?&?&?&?&?&?). split_and!; congruence.
  - intros i p3 H. destruct (L2 _ _ H) as (p2 & H2 & E2). destruct (L1 _ _ H2) as (p1 & H1 & E1).
    exists p1. split; [done|]. rewrite E2, E1. done.
  - intros i p H N. destruct (lookup i k2) as [p2|] eqn:H2; [|by apply (G1 i)].
    destruct (G2 _ _ H2 N) as [Z C]. destruct (L1 _ _ H2) as (p1 & H1 & E1). rewrite H in H1. injection H1 as <-.
    rewrite E1 in Z. split; [done|]. destruct R1 as [R1 _]. congruence.
Qed.

(** A task of the kernel that has ended and is not the current process. *)
Definition dead_task (i : Z) (k : kernel) : Prop :=
  loose i /\ i <> m_current k /\ exists p, lookup i k = Some p /\ p_status p = Zombie.

Lemma delete_dead_task i k : family (view_of k) -> dead_task i k -> delete_zombie i k = Fault AssertFailed.
Proof.
  intros T (Lo & N & p & Hi & Z). unfold delete_zombie. rewrite (run_bind_done get _ k k k) by done. rewrite Hi.
  rewrite (t_pid _ T i p Hi), bool_decide_true, (proj2 (Z.eqb_neq i (m_current k))) by done. cbn [andb negb when].
  unfold release_zombie. rewrite run_bind_gets, (proj2 (Z.eqb_neq (m_current k) i)) by congruence. cbn [negb]. rewrite run_assert_true.
  rewrite (run_bind_done _ _ _ _ _ (deref_run i k p Hi)). rewrite Z, bool_decide_true by done. rewrite run_assert_true.
  destruct (t_loose _ T i Lo) as (q & Hq & P0). unfold view_of in Hq. rewrite Hi in Hq. injection Hq as <-. rewrite P0.
  rewrite (run_bind_done _ _ _ _ _ (by_pid_run 0 k ltac:(lia))). destruct (t_init _ T) as (p0 & H0 & Z0 & _). unfold view_of in H0. rewrite H0.
  rewrite bool_decide_false; [done|]. intros C. by apply (t_task _ T 0 p0 i).
Qed.

Lemma delete_zombie_spec i k :
  family (view_of k) -> ~ dead_task i k ->
  exists k', delete_zombie i k = Done (tt, k') /\ family (view_of k') /\ collected k k' /\
    (forall j, lookup j k' = None -> j <> i -> lookup j k = None) /\
    (forall p, lookup i k' = Some p -> p_status p = Zombie -> i = m_current k).
Proof.
  intros T Nd. unfold delete_zombie. rewrite (run_bind_done get _ k k k) by done.
  destruct (lookup i k) as [p|] eqn:Hi.
  - pose proof (t_pid _ T i p Hi) as Ep. rewrite Ep.
    destruct (bool_decide (p_status p = Zombie) && negb (i =? m_current k)) eqn:C.
    + apply andb_true_iff in C as [Z%bool_decide_eq_true N%negb_true_iff%Z.eqb_neq].
      cbn [when]. unfold release_zombie. rewrite run_bind_gets, (proj2 (Z.eqb_neq (m_current k) i)) by congruence.
      cbn [negb]. rewrite run_assert_true. rewrite (run_bind_done _ _ _ _ _ (deref_run i k p Hi)).
      rewrite Z. rewrite bool_decide_true by done. rewrite run_assert_true.
      destruct (t_parent _ T i p Hi) as (par & Hpar & Zpar & C). unfold view_of in Hpar.
      pose proof (lookup_Some_inv _ _ _ Hpar) as Bpar. pose proof (lookup_Some_inv _ _ _ Hi) as Bi.
      rewrite (run_bind_done _ _ _ _ _ (by_pid_run (p_parent p) k ltac:(lia))), Hpar.
      assert (~ loose i) as Lo by (intros Lo; apply Nd; split_and!; [done|done|by exists p]).
      assert (i ∈ p_children par) as Cin.
      { destruct C as [-> |[[? _]|C]]; [|done|done].
        destruct (t_init _ T) as (q & Hq & Zq & _). unfold view_of in Hq. congruence. }
      rewrite bool_decide_true by done. rewrite run_assert_true.
      rewrite (run_bind_done _ _ _ _ _ (update_run (p_parent p) _ k par Hpar)).
      unfold put_proc. rewrite run_bind_modify.
      set (k1 := put_kernel _ _ k). change (set_processes (<[Z.to_nat i := None]> (m_processes k1)) k1) with (put_kernel i None k1).
      assert (V1 : forall j, lookup j k1 = vupd (p_parent p) (Some (set_children (filter (fun c => c <> i) (p_children par)) par)) (view_of k) j)
        by (intros j; by apply lookup_put).
      assert (V2 : forall j, lookup j (add_count (-1) (put_kernel i None k1)) = vupd i None
         (vupd (p_parent p) (Some (set_children (filter (fun c => c <> i) (p_children par)) par)) (view_of k)) j).
      { intros j. transitivity (lookup j (put_kernel i None k1)); [done|].
        rewrite lookup_put by (unfold k1; rewrite length_put; lia).
        destruct (decide (j = i)) as [-> |]; [by rewrite !vupd_eq|]. rewrite (vupd_ne i j _ (view_of k1)), (vupd_ne i j) by done. apply V1. }
      exists (add_count (-1) (put_kernel i None k1)). split; [done|]. split_and!.
      * eapply tree_ext; [|by apply (tree_release (view_of k) i p par)]. intros j. symmetry. apply V2.
      * split.
        -- unfold same_rest. split_and!; try done. change (length (m_processes (put_kernel i None k1)) = length (m_processes k)).
           unfold k1. by rewrite !length_put.
        -- intros j q. rewrite V2. unfold vupd, view_of. destruct (Z.eqb_spec j i); [done|].
           destruct (Z.eqb_spec j (p_parent p)) as [-> |].
           ++ intros [= <-]. exists par. done.
           ++ intros H. exists q. split; [done|]. by destruct q.
        -- intros j q Hj. rewrite V2. unfold vupd, view_of. destruct (Z.eqb_spec j i) as [-> |].
           ++ intros _. rewrite Hi in Hj. injection Hj as <-. done.
           ++ destruct (Z.eqb_spec j (p_parent p)); [done|]. congruence.
      * intros j. rewrite V2. unfold vupd, view_of. intros H N'. rewrite (proj2 (Z.eqb_neq j i)) in H by done.
        destruct (Z.eqb_spec j (p_parent p)); [done|]. done.
      * intros q. rewrite V2, vupd_eq. done.
    + cbn [when]. exists k. split_and!; try done; try apply T; try apply collected_refl; try (intros; congruence).
      intros q. rewrite Hi. intros [= <-] Z. rewrite bool_decide_true in C by done. cbn in C.
      by apply negb_false_iff, Z.eqb_eq in C.
  - exists k. split_and!; try done; try apply T; try apply collected_refl; congruence.
Qed.

Lemma dead_task_step i j k k' : collected k k' -> (forall x, lookup x k' = None -> x <> i -> lookup x k = None) -> j <> i ->
  dead_task j k -> dead_task j k'.
Proof.
  intros C O N (Lo & Nc & p & Hp & Z). destruct (c_rest _ _ C) as (Ec & _). split_and!; [done|congruence|].
  destruct (lookup j k') as [p'|] eqn:H'; [|by rewrite O in Hp]. exists p'. split; [done|].
  destruct (c_left _ _ C _ _ H') as (q & Hq & E). rewrite E. cbn. congruence.
Qed.

Lemma delete_zombies_loop l : forall k, family (view_of k) ->
  (for_each l delete_zombie k = Fault AssertFailed /\ exists i, In i l /\ dead_task i k) \/
  ((forall i, In i l -> ~ dead_task i k) /\
   exists k', for_each l delete_zombie k = Done (tt, k') /\ family (view_of k') /\ collected k k' /\
    forall i p, In i l -> lookup i k' = Some p -> p_status p = Zombie -> i = m_current k).
Proof.
  induction l as [|i l IH]; intros k T; cbn [for_each].
  - right. split; [done|]. exists k. split_and!; try done; try apply T. apply collected_refl.
  - destruct (decide (lookup i k <> None /\ i <> m_current k)) as [[Hi Nc]|Hi].
    2: assert (~ dead_task i k) as Nd by (intros (_ & Nc & p & Hp & _); apply Hi; split; [by rewrite Hp|done]).
    1: assert (dead_task i k \/ ~ dead_task i k) as [D|Nd].
    { destruct (lookup i k) as [p|] eqn:Hp; [|done]. destruct (decide (p_status p = Zombie)) as [Z|Z].
      2: { right. intros (_ & _ & q & Hq & ?). congruence. }
      destruct (t_parent _ T i p Hp) as (par & Hpar & Zpar & [-> |[[Lo _]|C]]).
      - destruct (t_init _ T) as (q & Hq & ? & _). unfold view_of in Hq. congruence.
      - left. split_and!; [done|done|by exists p].
      - right. intros (Lo & _). by apply (t_task _ T (p_parent p) par i). }
    { left. split; [by apply run_bind_fault, delete_dead_task|]. exists i. split; [by left|done]. }
    all: destruct (delete_zombie_spec i k T Nd) as (k1 & E1 & T1 & C1 & O1 & Z1); rewrite (run_bind_done _ _ _ _ _ E1).
    all: assert (m_current k1 = m_current k) as Ec by apply C1.
    all: assert (forall j, dead_task j k1 -> dead_task j k) as Back.
    1, 3: intros j (Lo & N & p & Hp & Z); split_and!; [done|congruence|]; destruct (c_left _ _ C1 _ _ Hp) as (q & Hq & E);
      exists q; split; [done|rewrite E in Z; exact Z].
    all: destruct (IH k1 T1) as [[E2 (j & Hj & D)]|(ND & k2 & E2 & T2 & C2 & Z2)];
      [left; split; [done|]; exists j; split; [by right|by apply Back]|right; split].
    1, 3: intros j [<-|Hj]; [done|]; destruct (decide (j = i)) as [-> |N]; [done|];
      intros D; apply (ND j Hj); by apply (dead_task_step i j k).
    all: exists k2; split_and!; try done; try apply T2; [by eapply collected_trans|].
    all: intros j p [<-|Hj] H Z; [|rewrite <- Ec; by eapply Z2];
      destruct (c_left _ _ C2 _ _ H) as (q & Hq & Eq); eapply Z1; [done|]; rewrite Eq in Z; done.
Qed.

(** The zombies are collected, unless one of them is a task of the kernel. *)
Lemma delete_zombies_cases k : family (view_of k) ->
  (delete_zombie_processes k = Fault AssertFailed /\ exists i, dead_task i k) \/
  ((forall i, ~ dead_task i k) /\
   exists k', delete_zombie_processes k = Done (tt, k') /\ family (view_of k') /\ collected k k' /\
    forall i p, lookup i k' = Some p -> p_status p = Zombie -> i = m_current k).
Proof.
  intros T. unfold delete_zombie_processes. rewrite (run_bind_done get _ k k k) by done.
  assert (In_all : forall i p, lookup i k = Some p -> In i (Z.of_nat <$> seq 0 (length (m_processes k)))).
  { intros i p H. apply lookup_Some_inv in H as B. apply list_elem_of_In, list_elem_of_fmap. exists (Z.to_nat i).
    split; [lia|]. apply elem_of_seq. lia. }
  destruct (delete_zombies_loop (Z.of_nat <$> seq 0 (length (m_processes k))) k T) as [[E (i & _ & D)]|(ND & k' & E & T' & C & Z)].
  - left. split; [done|by exists i].
  - right. split.
    + intros i D. pose proof D as (_ & _ & p & Hp & _). by apply (ND i (In_all i p Hp)).
    + exists k'. split_and!; try done; try apply T'. intros i p H. apply Z; [|done].
      destruct (c_left _ _ C _ _ H) as (q & Hq & _). by apply (In_all i q).
Qed.

(** No task of the kernel has ended. *)
Definition tasks_live (v : view) : Prop := forall i, loose i -> exists p, v i = Some p /\ p_status p <> Zombie.
Lemma tasks_live_none k : tasks_live (view_of k) -> forall i, ~ dead_task i k.
Proof. intros L i (Lo & _ & p & Hp & Z). destruct (L i Lo) as (q & Hq & ?). unfold view_of in Hq. congruence. Qed.
Lemma delete_zombies_spec k : family (view_of k) -> tasks_live (view_of k) ->
  exists k', delete_zombie_processes k = Done (tt, k') /\ family (view_of k') /\ collected k k' /\
    forall i p, lookup i k' = Some p -> p_status p = Zombie -> i = m_current k.
Proof.
  intros T L. destruct (delete_zombies_cases k T) as [[_ (i & D)]|[_ H]]; [|done]. by destruct (tasks_live_none k L i).
Qed.

(** ** Sleepers *)

Definition can_wake (o : option process) : Prop :=
  exists p, o = Some p /\ (p_status p = IOWait \/ p_status p = Sleeping).

Lemma wake_sleeper_spec i k p :
  family (view_of k) -> lookup i k = Some p -> p_status p = IOWait \/ p_status p = Sleeping ->
  exists k', wake_sleeper i k = Done (tt, k') /\ family (view_of k') /\
    m_current k' = m_current k /\ length (m_processes k') = length (m_processes k) /\
    (forall j, j <> i -> lookup j k' = lookup j k) /\
    exists p', lookup i k' = Some p' /\ p_status p' = Active /\ same_family p p' /\ kept p p'.
Proof.
  intros T Hi St. pose proof (lookup_Some_inv _ _ _ Hi) as B.
  unfold wake_sleeper. rewrite (run_bind_done _ _ _ _ _ (by_pid_run i k ltac:(lia))), Hi.
  assert (G : forall k1 p1, lookup i k1 = Some p1 -> (forall j, j <> i -> lookup j k1 = lookup j k) ->
    same_family p p1 -> kept p p1 -> m_current k1 = m_current k -> length (m_processes k1) = length (m_processes k) ->
    exists k', update i (set_status Active) k1 = Done (tt, k') /\ family (view_of k') /\
    m_current k' = m_current k /\ length (m_processes k') = length (m_processes k) /\
    (forall j, j <> i -> lookup j k' = lookup j k) /\
    exists p', lookup i k' = Some p' /\ p_status p' = Active /\ same_family p p' /\ kept p p').
  { intros k1 p1 H1 O1 F1 Kp C1 L1. rewrite (update_run i _ k1 p1 H1). eexists. split; [done|].
    assert (V : forall j, lookup j (put_kernel i (Some (set_status Active p1)) k1) = vupd i (Some (set_status Active p1)) (view_of k) j).
    { intros j. rewrite lookup_put by lia. unfold vupd, view_of. destruct (Z.eqb_spec j i); [done|by apply O1]. }
    split_and!; try done.
    - eapply tree_ext; [intros j; symmetry; apply V|].
      apply tree_update with p; try done. split; [|done]. intros _. destruct St; congruence.
    - rewrite length_put. done.
    - intros j N. by rewrite V, vupd_ne.
    - eexists. rewrite V, vupd_eq. done. }
  destruct St as [St|St]; rewrite St.
  - rewrite bool_decide_true by done. unfold send. rewrite run_bind_bind.
    set (ev := match p_timeout_action p with Some arg => _ | None => _ end).
    assert (Ev : exists k1, ev k = Done (tt, k1) /\ m_processes k1 = m_processes k /\ m_current k1 = m_current k).
    { unfold ev. destruct (p_timeout_action p); eexists; split; [reflexivity|done|reflexivity|done]. }
    destruct Ev as (k1 & E1 & P1 & C1). rewrite (run_bind_done _ _ _ _ _ E1).
    assert (L1 : forall j, lookup j k1 = lookup j k) by (intros j; unfold lookup; by rewrite P1).
    rewrite (run_bind_done _ _ _ _ _ (update_run i _ k1 p ltac:(by rewrite L1))).
    apply (G _ (set_timeout_action None p)); try done.
    + rewrite lookup_put by (rewrite P1; lia). apply vupd_eq.
    + intros j N. rewrite lookup_put by (rewrite P1; lia). rewrite vupd_ne by done. apply L1.
    + rewrite length_put. by rewrite P1.
  - rewrite bool_decide_false by done. rewrite bool_decide_true by done. rewrite run_assert_true. by apply (G k p).
Qed.

Lemma wake_all l : forall k, family (view_of k) -> NoDup l -> (forall i, In i l -> can_wake (lookup i k)) ->
  exists k', for_each l wake_sleeper k = Done (tt, k') /\ family (view_of k') /\
    m_current k' = m_current k /\ length (m_processes k') = length (m_processes k) /\
    (forall j, ~ In j l -> lookup j k' = lookup j k) /\
    (forall i p, In i l -> lookup i k = Some p -> exists p', lookup i k' = Some p' /\ p_status p' = Active /\ kept p p').
Proof.
  induction l as [|i l IH]; intros k T D W; cbn [for_each].
  - exists k. split_and!; try done; apply T.
  - destruct (W i ltac:(by left)) as (p & Hi & St).
    destruct (wake_sleeper_spec i k p T Hi St) as (k1 & E1 & T1 & C1 & L1 & O1 & p1 & H1 & A1 & _ & K1).
    rewrite (run_bind_done _ _ _ _ _ E1). apply NoDup_cons in D as [Ni D].
    assert (Ni' : ~ In i l) by (intros H; by apply Ni, list_elem_of_In).
    destruct (IH k1 T1 D) as (k2 & E2 & T2 & C2 & L2 & O2 & A2).
    { intros j Hj. rewrite O1; [apply W; by right|]. intros ->. done. }
    exists k2. split_and!; try done; try apply T2; try congruence.
    + intros j Hj. rewrite O2 by (intros ?; apply Hj; by right). apply O1. intros ->. apply Hj. by left.
    + intros j q [<-|Hj] Hq.
      * exists p1. rewrite O2 by done. rewrite Hi in Hq. injection Hq as <-. done.
      * apply A2; [done|]. rewrite O1; [done|]. by intros ->.
Qed.

(** ** The next process *)

Lemma next_ready_spec fuel : forall pid k,
  (exists d, 1 <= d <= Z.of_nat fuel /\ process_ready ((pid + d) mod Z.of_nat (length (m_processes k))) k = true) ->
  0 < Z.of_nat (length (m_processes k)) ->
  exists d, 1 <= d <= Z.of_nat fuel /\
    next_ready fuel pid k = Done ((pid + d) mod Z.of_nat (length (m_processes k))) /\
    process_ready ((pid + d) mod Z.of_nat (length (m_processes k))) k = true /\
    forall e, 1 <= e < d -> process_ready ((pid + e) mod Z.of_nat (length (m_processes k))) k = false.
Proof.
  induction fuel as [|fuel IH]; intros pid k (d & Hd & R) Hn; [lia|]. cbn [next_ready].
  set (n := Z.of_nat (length (m_processes k))) in *.
  destruct (process_ready ((pid + 1) mod n) k) eqn:P1.
  - exists 1. split_and!; try done; try lia.
  - assert (d <> 1) by (intros ->; congruence).
    assert (M : forall e, ((pid + 1) mod n + e) mod n = (pid + (e + 1)) mod n).
    { intros e. rewrite Z.add_mod_idemp_l by lia. f_equal. lia. }
    destruct (IH ((pid + 1) mod n) k) as (d' & B & E & R' & F); [|done|].
    { exists (d - 1). split; [lia|]. fold n. rewrite M. by replace (d - 1 + 1) with d by lia. }
    fold n in E, R', F. exists (d' + 1). rewrite <- M. split_and!; try done; try lia.
    intros e He. destruct (decide (e = 1)) as [-> |]; [done|].
    specialize (F (e - 1) ltac:(lia)). rewrite M in F. by replace (e - 1 + 1) with e in F by lia.
Qed.

Lemma distance pid j n : 0 <= j < n -> exists d, 1 <= d <= n /\ (pid + d) mod n = j.
Proof.
  intros H. exists ((j - pid - 1) mod n + 1). pose proof (Z.mod_pos_bound (j - pid - 1) n ltac:(lia)).
  split; [lia|]. replace (pid + ((j - pid - 1) mod n + 1)) with (pid + 1 + (j - pid - 1) mod n) by lia.
  rewrite Z.add_mod_idemp_r by lia. replace (pid + 1 + (j - pid - 1)) with j by lia. by apply Z.mod_small.
Qed.

Lemma ready_lookup j k : process_ready j k = true -> exists p, lookup j k = Some p /\ p_status p = Active.
Proof. unfold process_ready. destruct (lookup j k) as [p|]; [|done]. intros ?%bool_decide_eq_true. by exists p. Qed.

(** The first ready process after [pid], in the cyclic order of the table. *)
Definition next_after (pid next : Z) (k : kernel) : Prop :=
  exists d, 1 <= d <= Z.of_nat (length (m_processes k)) /\ next = (pid + d) mod Z.of_nat (length (m_processes k)) /\
    process_ready next k = true /\
    forall e, 1 <= e < d -> process_ready ((pid + e) mod Z.of_nat (length (m_processes k))) k = false.

Lemma find_next_pid_spec k : (exists j, process_ready j k = true) ->
  exists next, find_next_pid k = Done next /\ process_ready next k = true /\
    (next = 0 -> forall j, process_ready j k = true -> j = 0) /\
    exists first, next_after (m_current k) first k /\ (if decide (first = 0) then next_after 0 next k else next = first).
Proof.
  intros (j & R). destruct (ready_lookup j k R) as (p & Hp & _). pose proof (lookup_Some_inv _ _ _ Hp) as B.
  unfold find_next_pid. set (n := Z.of_nat (length (m_processes k))) in *.
  destruct (next_ready_spec (length (m_processes k)) (m_current k) k) as (d & Hd & E & R1 & F); fold n; try lia.
  { destruct (distance (m_current k) j n B) as (d & ? & <-). by exists d. }
  fold n in E, R1, F. rewrite E. destruct (Z.eqb_spec ((m_current k + d) mod n) 0) as [Z|Z].
  - rewrite Z.
    destruct (next_ready_spec (length (m_processes k)) 0 k) as (d' & Hd' & E' & R' & F'); fold n; try lia.
    { destruct (distance 0 j n B) as (e & ? & <-). by exists e. }
    fold n in E', R', F'. rewrite E'. exists ((0 + d') mod n). split_and!; try done.
    + intros Z' i Ri. destruct (ready_lookup i k Ri) as (q & Hq & _). pose proof (lookup_Some_inv _ _ _ Hq) as Bi. fold n in Bi.
      destruct (decide (i = 0)) as [|Ni]; [done|exfalso].
      assert (d' = n). { destruct (decide (d' < n)); [|lia]. rewrite Z.mod_small in Z' by lia. lia. }
      specialize (F' i ltac:(lia)). rewrite Z.add_0_l, Z.mod_small in F' by lia. congruence.
    + exists 0. rewrite decide_True by done. split; [|exists d'; split_and!; try done; lia].
      exists d. rewrite Z in R1. split_and!; try done; lia.
  - exists ((m_current k + d) mod n). split_and!; try done. exists ((m_current k + d) mod n). rewrite decide_False by done.
    split; [|done]. exists d. split_and!; try done; lia.
Qed.

Lemma decrease_elements (l : list (Z * Z)) : forall d popped rest,
  DeltaQueue.decrease l d = (popped, rest) -> l.*1 = popped ++ rest.*1.
Proof.
  induction l as [|[x y] l IH]; intros d popped rest; cbn [DeltaQueue.decrease]; [by intros [= <- <-]|].
  destruct (y <=? d).
  - destruct (DeltaQueue.decrease l (u64 (d - y))) as [po re] eqn:E. intros [= <- <-]. cbn. f_equal. by eapply IH.
  - by intros [= <- <-].
Qed.

(** Every sleeper is there and waits. *)
Definition sleepers_ok (k : kernel) : Prop :=
  NoDup (sleep_queue k).*1 /\ forall i, In i (sleep_queue k).*1 -> can_wake (lookup i k).

Lemma update_sleep_queue_spec now k : family (view_of k) -> sleepers_ok k ->
  exists k', update_sleep_queue now k = Done (tt, k') /\ family (view_of k') /\ m_current k' = m_current k /\
    length (m_processes k') = length (m_processes k) /\
    forall i, lookup i k' = lookup i k \/
      (exists p p', lookup i k = Some p /\ (p_status p = IOWait \/ p_status p = Sleeping) /\
         lookup i k' = Some p' /\ p_status p' = Active /\ kept p p').
Proof.
  intros T [D W]. unfold update_sleep_queue. rewrite (run_bind_done get _ k k k) by done.
  destruct (DeltaQueue.decrease (sleep_queue k) _) as [popped rest] eqn:E. apply decrease_elements in E.
  rewrite E in D, W. apply NoDup_app in D as (D & _ & _).
  rewrite (run_bind_done _ _ _ tt (set_sleep rest now k)) by done.
  destruct (wake_all popped (set_sleep rest now k)) as (k' & E' & T' & C' & L' & O' & A'); try done.
  { intros i Hi. apply W. apply in_or_app. by left. }
  exists k'. split_and!; try done; try apply T'. intros i. destruct (decide (i ∈ popped)) as [Hi|Hi].
  - apply list_elem_of_In in Hi. right. destruct (W i) as (p & Hp & St); [apply in_or_app; by left|].
    destruct (A' i p Hi Hp) as (p' & ? & ? & ?). by exists p, p'.
  - left. apply O'. intros H. by apply Hi, list_elem_of_In.
Qed.

Lemma schedule_run now k :
  family (view_of k) -> tasks_live (view_of k) -> sleepers_ok k -> (exists j, process_ready j k = true) ->
  exists k', schedule now k = Done (tt, k') /\ family (view_of k') /\
    process_ready (m_current k') k' = true /\
    (m_current k' = 0 -> forall j, process_ready j k' = true -> j = 0) /\
    (exists first, next_after (m_current k) first k' /\
       (if decide (first = 0) then next_after 0 (m_current k') k' else m_current k' = first)) /\
    (forall i p, lookup i k' = Some p -> p_status p = Zombie -> i = m_current k) /\
    (forall i p, lookup i k = Some p -> p_status p <> Zombie ->
       exists p', lookup i k' = Some p' /\ kept p p' /\
         (p_status p' = p_status p \/ ((p_status p = IOWait \/ p_status p = Sleeping) /\ p_status p' = Active))) /\
    (forall i p p', lookup i k = Some p -> lookup i k' = Some p' -> p_status p = Zombie -> p_status p' = Zombie).
Proof.
  intros T TL [D W] (j & R). unfold schedule.
  destruct (delete_zombies_spec k T TL) as (k1 & E1 & T1 & C1 & Z1). rewrite (run_bind_done _ _ _ _ _ E1).
  destruct (c_rest _ _ C1) as (Cc & _ & _ & _ & Cs & _ & _).
  assert (K1 : forall i p, lookup i k = Some p -> p_status p <> Zombie ->
    exists p1, lookup i k1 = Some p1 /\ p_status p1 = p_status p /\ kept p p1).
  { intros i p Hi Zi. destruct (lookup i k1) as [p1|] eqn:H1.
    - exists p1. split; [done|]. destruct (c_left _ _ C1 _ _ H1) as (p0 & H0 & E0). rewrite Hi in H0. injection H0 as <-.
      rewrite E0. done.
    - by destruct (c_gone _ _ C1 _ _ Hi H1). }
  assert (S1 : sleepers_ok k1).
  { split; [by rewrite Cs|]. rewrite Cs. intros i Hi. destruct (W i Hi) as (p & Hp & St).
    destruct (K1 i p Hp) as (p1 & H1 & E & _). { destruct St; congruence. } exists p1. rewrite E. done. }
  destruct (update_sleep_queue_spec now k1 T1 S1) as (k2 & E2 & T2 & Cc2 & L2 & Q2). rewrite (run_bind_done _ _ _ _ _ E2).
  rewrite (run_bind_done get _ k2 k2 k2) by done.
  assert (R2 : process_ready j k2 = true).
  { destruct (ready_lookup j k R) as (p & Hp & A). destruct (K1 j p Hp ltac:(congruence)) as (p1 & H1 & E & _).
    unfold process_ready. destruct (Q2 j) as [-> |(_ & p' & _ & _ & -> & A' & _)].
    - rewrite H1, E, A. done.
    - rewrite A'. done. }
  destruct (find_next_pid_spec k2 (ex_intro _ j R2)) as (next & E3 & R3 & I3 & N3). rewrite E3.
  destruct (ready_lookup next k2 R3) as (pn & Hn & _). pose proof (lookup_Some_inv _ _ _ Hn) as Bn.
  assert (SW : exists k', (when (negb (m_current k2 =? next)) (task_switch next)) k2 = Done (tt, k') /\
     m_current k' = next /\ m_processes k' = m_processes k2).
  { destruct (Z.eqb_spec (m_current k2) next) as [Ec|Ec]; cbn [negb when].
    - exists k2. done.
    - unfold task_switch. rewrite run_bind_gets. rewrite (proj2 (Z.eqb_neq next (m_current k2))) by congruence.
      cbn [negb]. rewrite run_assert_true. rewrite (run_bind_done _ _ _ _ _ (by_pid_run next k2 ltac:(lia))), Hn.
      by eexists. }
  destruct SW as (k' & E4 & C4 & P4). exists k'. rewrite E4. split; [done|].
  assert (V4 : forall i, lookup i k' = lookup i k2) by (intros i; unfold lookup; by rewrite P4).
  assert (PR : forall i, process_ready i k' = process_ready i k2) by (intros i; unfold process_ready; by rewrite V4).
  assert (NA : forall a b, next_after a b k2 -> next_after a b k').
  { intros a b (d & ? & ? & ? & F). exists d. rewrite P4. rewrite PR. split_and!; try done; try lia.
    intros e He. rewrite PR. by apply F. }
  split_and!.
  - eapply tree_ext; [|exact T2]. intros i. symmetry. apply V4.
  - by rewrite C4, PR.
  - rewrite C4. intros Z i. rewrite PR. by apply I3.
  - rewrite C4. rewrite Cc2, Cc in N3. destruct N3 as (first & F1 & F2). exists first. split; [by apply NA|].
    case_decide; [by apply NA|done].
  - intros i p. rewrite V4. intros H Z. destruct (Q2 i) as [Q|(_ & p' & _ & _ & Hp' & A' & _)].
    + rewrite Q in H. by eapply Z1.
    + congruence.
  - intros i p Hi Zi. destruct (K1 i p Hi Zi) as (p1 & H1 & E & Kp). destruct (Q2 i) as [Q|(q & p' & Hq & St & Hp' & A' & Kq)].
    + exists p1. rewrite V4, Q. split_and!; [done|done|by left].
    + exists p'. rewrite V4. rewrite H1 in Hq. injection Hq as <-. split_and!; [done|by eapply kept_trans|].
      right. by rewrite <- E.
  - intros i p p'. rewrite V4. intros Hi Hi' Z. destruct (Q2 i) as [Q|(q & x & Hq & St & _)].
    + rewrite Q in Hi'. destruct (c_left _ _ C1 _ _ Hi') as (p0 & H0 & E0). rewrite E0. rewrite Hi in H0. by injection H0 as <-.
    + destruct (c_left _ _ C1 _ _ Hq) as (p0 & H0 & E0). rewrite E0 in St. rewrite Hi in H0. injection H0 as <-.
      cbn in St. destruct St; congruence.
Qed.

(** ** Killing *)

(** The fields [kill] leaves alone before it reschedules. *)
Definition same_env (k k' : kernel) : Prop :=
  m_current k' = m_current k /\ fd_tables k' = fd_tables k /\ sig_tables k' = sig_tables k /\
  sleep_queue k' = sleep_queue k /\ elapsed_ticks k' = elapsed_ticks k /\ events k' = events k /\
  length (m_processes k') = length (m_processes k) /\ next_key k' = next_key k.
Lemma same_env_trans k1 k2 k3 : same_env k1 k2 -> same_env k2 k3 -> same_env k1 k3.
Proof. unfold same_env. intros (?&?&?&?&?&?&?&?) (?&?&?&?&?&?&?&?). split_and!; congruence. Qed.
Lemma same_env_put i x k : same_env k (put_kernel i x k).
Proof. unfold same_env. split_and!; try done. apply length_put. Qed.

(** The table after [for (child_pid : children)]. *)
Definition adopted (cs : list Z) (v : view) : view := fun j =>
  if j =? 0 then (fun p => set_children (p_children p ++ cs) p) <$> v 0
  else if bool_decide (j ∈ cs) then set_parent 0 <$> v j else v j.

Lemma adopt_loop cs : forall k p0,
  lookup 0 k = Some p0 -> (forall c, In c cs -> c <> 0 /\ is_Some (lookup c k)) ->
  exists k', for_each cs adopt k = Done (tt, k') /\ same_env k k' /\ phys_mem k' = phys_mem k /\
    forall j, lookup j k' = adopted cs (view_of k) j.
Proof.
  induction cs as [|c cs IH]; intros k p0 H0 Hc; cbn [for_each].
  - exists k. split_and!; try done. intros j. unfold adopted, view_of. destruct (Z.eqb_spec j 0) as [-> |].
    + rewrite H0. cbn. rewrite app_nil_r. by destruct p0.
    + rewrite bool_decide_false; [done|]. apply not_elem_of_nil.
  - destruct (Hc c ltac:(by left)) as (Nc & q & Hq). pose proof (lookup_Some_inv _ _ _ Hq). pose proof (lookup_Some_inv _ _ _ H0).
    set (k1 := put_kernel c (Some (set_parent 0 q)) k).
    assert (V1 : forall j, lookup j k1 = vupd c (Some (set_parent 0 q)) (view_of k) j) by (intros j; by apply lookup_put).
    assert (H01 : lookup 0 k1 = Some p0) by (rewrite V1, vupd_ne by done; done).
    set (k2 := put_kernel 0 (Some (set_children (p_children p0 ++ [c]) p0)) k1).
    assert (EA : adopt c k = Done (tt, k2)).
    { unfold adopt. rewrite (run_bind_done _ _ _ _ _ (update_run c _ k q Hq)). exact (update_run 0 _ k1 p0 H01). }
    rewrite (run_bind_done _ _ _ _ _ EA).
    assert (V2 : forall j, lookup j k2 = vupd 0 (Some (set_children (p_children p0 ++ [c]) p0)) (view_of k1) j).
    { intros j. apply lookup_put. unfold k1. rewrite length_put. lia. }
    destruct (IH k2 (set_children (p_children p0 ++ [c]) p0)) as (k' & E & Rest & Ph & V').
    { by rewrite V2, vupd_eq. }
    { intros d Hd. destruct (Hc d ltac:(by right)) as (Nd & x & Hx). split; [done|]. rewrite V2, vupd_ne by done.
      unfold view_of. rewrite V1. unfold vupd. destruct (d =? c); by eexists. }
    exists k'. split_and!; try done.
    + eapply same_env_trans; [eapply same_env_trans; [apply same_env_put|apply same_env_put]|exact Rest].
    + intros j. rewrite V'. unfold adopted, view_of. destruct (Z.eqb_spec j 0) as [-> |Nj].
      * rewrite V2, vupd_eq, H0. cbn. by rewrite <- app_assoc.
      * rewrite V2, vupd_ne by done. unfold view_of. rewrite V1. unfold vupd, view_of.
        destruct (Z.eqb_spec j c) as [-> |Nc'].
        -- rewrite (bool_decide_true (c ∈ c :: cs)) by left. rewrite Hq. case_bool_decide; by destruct q.
        -- destruct (decide (j ∈ cs)).
           ++ rewrite !bool_decide_true; [done|by right|done].
           ++ rewrite !bool_decide_false; [done| |done]. intros [?|?]%elem_of_cons; done.
Qed.

Lemma tree_kill v pid p :
  family v -> v pid = Some p -> p_status p <> Zombie -> pid <> 0 ->
  family (adopted (p_children p) (vupd pid (Some (set_status Zombie p)) v)).
Proof.
  intros [T1 T2 T3 T4 TN T5 TT T6] Hp Zp N0.
  destruct T2 as (p0 & H0 & Z0 & P0).
  set (cs := p_children p). set (w := adopted cs _).
  assert (W0 : w 0 = Some (set_children (p_children p0 ++ cs) p0)).
  { unfold w, adopted. cbn [Z.eqb]. rewrite vupd_ne by done. by rewrite H0. }
  assert (CS : forall c, c ∈ cs -> c <> 0 /\ exists q, v c = Some q /\ p_parent q = pid) by (intros c Hc; by apply (T4 pid p)).
  assert (Npid : ~ pid ∈ cs).
  { intros Hin. destruct (CS pid Hin) as (_ & q & Hq & Pq). rewrite Hp in Hq. injection Hq as <-.
    by apply N0, (T6 pid p). }
  assert (Wpid : w pid = Some (set_status Zombie p)).
  { unfold w, adopted. rewrite (proj2 (Z.eqb_neq pid 0)) by done. rewrite bool_decide_false by done. by rewrite vupd_eq. }
  assert (L : forall j q, w j = Some q -> exists q0, v j = Some q0 /\ p_pid q = p_pid q0 /\
     p_parent q = (if decide (j ∈ cs) then 0 else p_parent q0) /\
     (j <> pid -> p_status q = p_status q0) /\ (j <> 0 -> p_children q = p_children q0)).
  { intros j q. destruct (decide (j = 0)) as [-> |N].
    { rewrite W0. intros [= <-]. exists p0. split_and!; try done. cbn. by case_decide. }
    destruct (decide (j = pid)) as [-> |N'].
    { rewrite Wpid. intros [= <-]. exists p. split_and!; try done. by rewrite decide_False. }
    unfold w, adopted. rewrite (proj2 (Z.eqb_neq j 0)) by done. rewrite vupd_ne by done.
    case_bool_decide as D.
    - destruct (v j) as [q0|]; [|done]. intros [= <-]. exists q0. by rewrite decide_True.
    - intros H. exists q. by rewrite decide_False. }
  assert (G : forall j q0, v j = Some q0 -> exists q, w j = Some q).
  { intros j q0 H. destruct (decide (j = 0)) as [-> |]; [by eexists|]. destruct (decide (j = pid)) as [-> |]; [by eexists|].
    unfold w, adopted. rewrite (proj2 (Z.eqb_neq j 0)), vupd_ne by done. rewrite H. case_bool_decide; by eexists. }
  split.
  - intros j q (q0 & H & E & _)%L. rewrite E. by apply T1.
  - exists (set_children (p_children p0 ++ cs) p0). done.
  - intros j q Hw. destruct (L j q Hw) as (q0 & H & _ & E & _). rewrite E. case_decide as D.
    + exists (set_children (p_children p0 ++ cs) p0). split_and!; [done|done|]. right; right. cbn.
      apply elem_of_app. by right.
    + destruct (T3 _ _ H) as (par & Hpar & Zpar & C).
      assert (Npar : p_parent q0 <> pid).
      { intros Epar. rewrite Epar in Hpar. rewrite Hp in Hpar. injection Hpar as <-.
        destruct C as [-> |[[_ C]|C]]; [|congruence|done]. rewrite H0 in H. injection H as <-. congruence. }
      destruct (G _ _ Hpar) as (par' & Hpar'). destruct (L _ _ Hpar') as (x & Hx & _ & _ & S & Ch).
      rewrite Hpar in Hx. injection Hx as <-. exists par'. split_and!; [done|by rewrite S|].
      destruct C as [C|[C|C]]; [by left|by right; left|right; right].
      destruct (decide (p_parent q0 = 0)) as [Z|Z]; [|by rewrite Ch].
      rewrite Z, W0 in Hpar'. injection Hpar' as <-. cbn. rewrite Z, H0 in Hpar. injection Hpar as <-.
      apply elem_of_app. by left.
  - intros j q c Hw Zq Hc. destruct (L j q Hw) as (q0 & H & _ & _ & S & Ch).
    assert (Nj : j <> pid) by (intros ->; rewrite Wpid in Hw; injection Hw as <-; done).
    assert (Zq0 : p_status q0 <> Zombie) by (by rewrite <- (S Nj)).
    destruct (decide (j = 0)) as [-> |Nj0].
    + rewrite W0 in Hw. injection Hw as <-. cbn in Hc. rewrite H0 in H. injection H as <-.
      apply elem_of_app in Hc as [Hc|Hc].
      * destruct (T4 _ _ _ H0 Z0 Hc) as (Nc & x & Hx & Px). split; [done|]. destruct (G _ _ Hx) as (y & Hy).
        exists y. split; [done|]. destruct (L _ _ Hy) as (x' & Hx' & _ & Py & _). rewrite Hx in Hx'. injection Hx' as <-.
        rewrite Py. by case_decide.
      * destruct (CS _ Hc) as (Nc & x & Hx & Px). split; [done|]. destruct (G _ _ Hx) as (y & Hy).
        exists y. split; [done|]. destruct (L _ _ Hy) as (x' & _ & _ & Py & _). rewrite Py. by rewrite decide_True.
    + rewrite Ch in Hc by done. destruct (T4 _ _ _ H Zq0 Hc) as (Nc & x & Hx & Px). split; [done|].
      destruct (G _ _ Hx) as (y & Hy). exists y. split; [done|]. destruct (L _ _ Hy) as (x' & Hx' & _ & Py & _).
      rewrite Hx in Hx'. injection Hx' as <-. rewrite Py, decide_False; [done|].
      intros D. destruct (CS _ D) as (_ & x' & Hx' & Px'). congruence.
  - intros j q c Hw Hc. destruct (L j q Hw) as (q0 & H & _ & _ & _ & Ch). destruct (decide (j = 0)) as [-> |Nj0].
    + rewrite W0 in Hw. injection Hw as <-. cbn in Hc. apply elem_of_app in Hc as [Hc|Hc]; [by apply (TN 0 p0)|by apply CS].
    + rewrite Ch in Hc by done. by apply (TN j q0).
  - intros j Lj. destruct (T5 j Lj) as (q0 & H & Pj). destruct (G _ _ H) as (q & Hw). exists q. split; [done|].
    destruct (L j q Hw) as (x & Hx & _ & E & _). rewrite E. case_decide; [done|]. congruence.
  - intros j q c Hw Zq Hc. destruct (L j q Hw) as (q0 & H & _ & _ & S & Ch).
    assert (Nj : j <> pid) by (intros ->; rewrite Wpid in Hw; injection Hw as <-; done).
    destruct (decide (j = 0)) as [-> |Nj0].
    + rewrite W0 in Hw. injection Hw as <-. cbn in Hc. apply elem_of_app in Hc as [Hc|Hc]; [by apply (TT 0 p0)|by apply (TT pid p)].
    + rewrite Ch in Hc by done. apply (TT j q0); [done| |done]. by rewrite <- (S Nj).
  - intros j q Hw E. destruct (L j q Hw) as (q0 & H & _ & E' & _). rewrite E' in E. case_decide; [done|]. by eapply T6.
Qed.
End tree.

(** ** What the scheduler does not touch: the tables of files and handlers, the memory *)

Definition quiet {A} (m : M kernel A) : Prop := forall k a k', m k = Done (a, k') ->
  fd_tables k' = fd_tables k /\ sig_tables k' = sig_tables k /\ phys_mem k' = phys_mem k /\ next_key k' = next_key k.

Create HintDb quiet.
Lemma quiet_ret {A} (a : A) : quiet (mret a).
Proof. by intros k b k' [= <- <-]. Qed.
Lemma quiet_fail {A} f : quiet (fail f : M kernel A).
Proof. by intros k a k' [=]. Qed.
Lemma quiet_gets {A} (f : kernel -> A) : quiet (gets f).
Proof. by intros k b k' [= <- <-]. Qed.
Lemma quiet_assert b : quiet (assert_ b : M kernel unit).
Proof. destruct b; [apply quiet_ret|apply quiet_fail]. Qed.
Lemma quiet_bind {A B} (m : M kernel A) (f : A -> M kernel B) : quiet m -> (forall a, quiet (f a)) -> quiet (m ≫= f).
Proof.
  intros Hm Hf k b k'. unfold mbind, M_bind. destruct (m k) as [[a k1]|] eqn:E; [|done]. intros E'.
  destruct (Hm _ _ _ E) as (?&?&?&?), (Hf _ _ _ _ E') as (?&?&?&?). split_and!; congruence.
Qed.
Lemma quiet_when b (m : M kernel unit) : quiet m -> quiet (when b m).
Proof. destruct b; [done|]. intros _. apply quiet_ret. Qed.
Lemma quiet_for_each {A} (l : list A) f : (forall x, quiet (f x)) -> quiet (for_each l f).
Proof. intros H. induction l; cbn [for_each]; [apply quiet_ret|by apply quiet_bind]. Qed.
Lemma quiet_modify f :
  (forall k, fd_tables (f k) = fd_tables k /\ sig_tables (f k) = sig_tables k /\ phys_mem (f k) = phys_mem k /\ next_key (f k) = next_key k) -> quiet (modify f).
Proof. intros H k a k' [= <- <-]. apply H. Qed.
#[export] Hint Resolve quiet_ret quiet_fail quiet_gets quiet_assert quiet_bind quiet_when quiet_for_each quiet_modify : quiet.

Lemma quiet_by_pid i : quiet (by_pid i).
Proof. unfold by_pid. auto with quiet. Qed.
Lemma quiet_deref i : quiet (deref i).
Proof. apply quiet_bind; [apply quiet_by_pid|]. intros [p|]; auto with quiet. Qed.
Lemma quiet_update i f : quiet (update i f).
Proof. apply quiet_bind; [apply quiet_deref|]. intros p. by apply quiet_modify. Qed.
Lemma quiet_send e : quiet (send e).
Proof. by apply quiet_modify. Qed.
#[export] Hint Resolve quiet_by_pid quiet_deref quiet_update quiet_send : quiet.

Lemma quiet_release pid : quiet (release_zombie pid).
Proof.
  unfold release_zombie. apply quiet_bind; [auto with quiet|]. intros c. apply quiet_bind; [auto with quiet|]. intros _.
  apply quiet_bind; [auto with quiet|]. intros p. apply quiet_bind; [auto with quiet|]. intros _.
  apply quiet_bind; [auto with quiet|]. intros [par|]; auto 10 with quiet.
  apply quiet_bind; [auto with quiet|]. intros _. apply quiet_bind; [auto with quiet|]. intros _.
  apply quiet_bind; [by apply quiet_modify|]. intros _. by apply quiet_modify.
Qed.
Lemma quiet_wake_sleeper pid : quiet (wake_sleeper pid).
Proof.
  apply quiet_bind; [auto with quiet|]. intros [p|]; [|auto with quiet]. apply quiet_bind; [|auto with quiet].
  case_bool_decide; [|auto with quiet]. destruct (p_timeout_action p); auto with quiet.
Qed.
Lemma quiet_schedule now : quiet (schedule now).
Proof.
  apply quiet_bind.
  { intros k a k'. apply quiet_for_each. intros i x b x'. unfold delete_zombie. rewrite (run_bind_done get _ x x x) by done.
    destruct (lookup i x); [apply quiet_when, quiet_release|apply quiet_ret]. }
  intros _. apply quiet_bind.
  { intros k a k'. unfold update_sleep_queue. rewrite (run_bind_done get _ k k k) by done.
    destruct (DeltaQueue.decrease _ _) as [popped rest]. rewrite (run_bind_done _ _ _ tt (set_sleep rest now k)) by done.
    apply (quiet_for_each popped wake_sleeper quiet_wake_sleeper (set_sleep rest now k) a k'). }
  intros _ k a k'. rewrite (run_bind_done get _ k k k) by done. destruct (find_next_pid k); [|apply quiet_fail].
  apply quiet_when. apply quiet_bind; [auto with quiet|]. intros c. apply quiet_bind; [auto with quiet|]. intros _.
  apply quiet_bind; [auto with quiet|]. intros [p|]; [by apply quiet_modify|auto with quiet].
Qed.

(** ** Partial correctness: whatever the state, a call of [schedule] that returns keeps the tree *)

(** Every process of [k'] was there in [k] and has what the scheduler never changes. *)
Definition inherits (k k' : kernel) : Prop :=
  forall i p', lookup i k' = Some p' -> exists p, lookup i k = Some p /\ kept p p'.
Lemma inherits_trans k1 k2 k3 : inherits k1 k2 -> inherits k2 k3 -> inherits k1 k3.
Proof.
  intros H1 H2 i p3 H. destruct (H2 i p3 H) as (p2 & E2 & K2). destruct (H1 i p2 E2) as (p1 & E1 & K1).
  exists p1. split; [done|by eapply kept_trans].
Qed.
Lemma inherits_view k k' : (forall i, lookup i k' = lookup i k) -> inherits k k'.
Proof. intros E i p. rewrite E. intros H. by exists p. Qed.

Lemma wake_sleeper_done i k k' : wake_sleeper i k = Done (tt, k') ->
  exists p, lookup i k = Some p /\ (p_status p = IOWait \/ p_status p = Sleeping).
Proof.
  unfold wake_sleeper, by_pid. destruct (0 <=? i); [|done]. cbn [assert_]. rewrite run_bind_bind, run_bind_ret, run_bind_gets.
  destruct (lookup i k) as [p|]; [|done]. intros E. exists p. split; [done|].
  case_bool_decide as D1; [by left|]. case_bool_decide as D2; [by right|]. done.
Qed.

Lemma wake_all_keeps loose l : forall k k', family loose (view_of k) -> for_each l wake_sleeper k = Done (tt, k') ->
  family loose (view_of k') /\ inherits k k'.
Proof.
  induction l as [|i l IH]; intros k k' T; cbn [for_each].
  - intros [= <-]. split; [done|]. by apply inherits_view.
  - unfold mbind, M_bind. destruct (wake_sleeper i k) as [[[] k1]|] eqn:E1; [|done]. intros E2.
    destruct (wake_sleeper_done _ _ _ E1) as (p & Hp & St).
    destruct (wake_sleeper_spec loose i k p T Hp St) as (k1' & E1' & T1 & _ & _ & O1 & p1 & H1 & _ & _ & K1).
    rewrite E1 in E1'. injection E1' as <-. destruct (IH k1 k' T1 E2) as [T2 I2]. split; [done|].
    eapply inherits_trans; [|exact I2]. intros j q Hq. destruct (decide (j = i)) as [-> |N].
    + exists p. split; [done|]. congruence.
    + rewrite O1 in Hq by done. by exists q.
Qed.

Lemma schedule_keeps loose now k k' : family loose (view_of k) -> schedule now k = Done (tt, k') ->
  family loose (view_of k') /\ inherits k k'.
Proof.
  intros T. unfold schedule. destruct (delete_zombies_cases loose k T) as [[E1 _]|(_ & k1 & E1 & T1 & C1 & _)].
  { unfold mbind, M_bind. by rewrite E1. }
  rewrite (run_bind_done _ _ _ _ _ E1).
  assert (I1 : inherits k k1).
  { intros i p' H. destruct (c_left _ _ C1 _ _ H) as (p & Hp & E). exists p. rewrite E. done. }
  unfold update_sleep_queue. rewrite run_bind_bind, (run_bind_done get _ k1 k1 k1) by done.
  destruct (DeltaQueue.decrease _ _) as [popped rest]. rewrite run_bind_bind, (run_bind_done _ _ _ tt (set_sleep rest now k1)) by done.
  unfold mbind at 1, M_bind at 1. destruct (for_each popped wake_sleeper _) as [[[] k2]|] eqn:E2; [|done].
  destruct (wake_all_keeps loose popped (set_sleep rest now k1) k2 T1 E2) as [T2 I2]. rewrite (run_bind_done get _ k2 k2 k2) by done.
  assert (I12 : inherits k k2) by (by eapply inherits_trans).
  destruct (find_next_pid k2) as [next|]; [|done]. destruct (negb _); cbn [when]; [|by intros [= <-]].
  unfold task_switch, by_pid. rewrite run_bind_gets. destruct (negb _); [|done]. rewrite run_assert_true.
  destruct (0 <=? next); [|done]. rewrite run_bind_bind. cbn [assert_]. rewrite run_bind_ret, run_bind_gets.
  destruct (lookup next k2); [|done]. intros [= <-]. done.
Qed.

(** ... and the process it leaves is ready. *)
Lemma next_ready_done fuel : forall pid k n, next_ready fuel pid k = Done n -> process_ready n k = true.
Proof.
  induction fuel as [|fuel IH]; intros pid k n; cbn [next_ready]; [done|].
  destruct (process_ready _ k) eqn:P; [by intros [= <-]|apply IH].
Qed.
Lemma find_next_pid_done k n : find_next_pid k = Done n -> process_ready n k = true.
Proof.
  unfold find_next_pid. destruct (next_ready _ (m_current k) k) as [x|] eqn:E; [|done].
  destruct (x =? 0); [apply next_ready_done|]. intros [= <-]. by eapply next_ready_done.
Qed.
Lemma schedule_ready now k k' : schedule now k = Done (tt, k') -> process_ready (m_current k') k' = true.
Proof.
  unfold schedule. intros E. apply bind_done in E as ([] & k1 & _ & E). apply bind_done in E as ([] & k2 & _ & E).
  rewrite (run_bind_done get _ k2 k2 k2) in E by done. destruct (find_next_pid k2) as [next|] eqn:F; [|done].
  apply find_next_pid_done in F. destruct (Z.eqb_spec (m_current k2) next) as [<-|N]; cbn [negb when] in E; [by injection E as <-|].
  unfold task_switch in E. rewrite run_bind_gets in E. apply bind_done in E as ([] & k3 & E3 & E). destruct (negb _); [|done].
  injection E3 as <-. apply bind_done in E as (o & k3 & E3 & E).
  assert (k3 = k2) as ->. { unfold by_pid in E3. destruct (0 <=? next); [|done]. by injection E3 as _ <-. }
  destruct o; [|done]. injection E as <-. exact F.
Qed.

(** The tree of a kernel none of whose tasks has ended. *)
Definition tree_ok (loose : Z -> Prop) (v : view) : Prop := family loose v /\ tasks_live loose v.
End ProcessProofs.
