(* ===== verification/ProcessKill.v ===== *)
(** * ProcessKill: the end of a process, and what its waiters get *)
From stdpp Require Import base list gmap.
From Stdlib Require Import ZArith Lia.
From S2P Require Import Prelude Mem32 DeltaQueue Errno Process ProcessProofs.
Import Errno Process ProcessProofs.

Module ProcessKill.

(** ** Waiters *)

Definition woken_by (pid : Z) (q : process) : process := set_status Active (set_woke_up_by pid q).
(** The table after [for (entry : wait_entries)]. *)
Definition woken (pid : Z) (ws : list Z) (v : view) : view := fun j =>
  if bool_decide (j ∈ ws) then woken_by pid <$> v j else v j.
(** Where [wake_up] writes the status of the process that ended. *)
Definition status_word (k : kernel) (w : Z) : Z :=
  match lookup w k with Some q => p_waitstatus_phys q | None => 0 end.

Definition waits (v : view) (w : Z) : Prop := exists q, v w = Some q /\ p_status q = ChildWait.

Lemma wake_waiter_run pid err w addr k q :
  lookup w k = Some q -> p_status q = ChildWait ->
  exists k', wake_waiter pid err (w, addr) k = Done (tt, k') /\ same_env k k' /\
    phys_mem k' = store32 (phys_mem k) (p_waitstatus_phys q) err /\
    forall j, lookup j k' = vupd w (Some (woken_by pid q)) (view_of k) j.
Proof.
  intros Hw S. pose proof (lookup_Some_inv _ _ _ Hw) as B. unfold wake_waiter. cbn [fst].
  rewrite (run_bind_done _ _ _ _ _ (deref_run w k q Hw)), bool_decide_true, run_assert_true by done.
  unfold wake_up. rewrite (run_bind_done _ _ _ _ _ (deref_run w k q Hw)), run_bind_modify.
  set (k1 := set_phys _ k). assert (H1 : lookup w k1 = Some q) by done.
  rewrite (run_bind_done _ _ _ _ _ (update_run w _ k1 q H1)).
  set (k2 := put_kernel w _ k1).
  assert (V2 : forall j, lookup j k2 = vupd w (Some (set_woke_up_by pid q)) (view_of k) j) by (intros j; exact (lookup_put w _ k1 j B)).
  rewrite (update_run w _ k2 (set_woke_up_by pid q)) by (by rewrite V2, vupd_eq).
  eexists. split; [done|]. split_and!.
  - eapply same_env_trans; [|apply same_env_put]. eapply same_env_trans; [|apply same_env_put]. done.
  - done.
  - intros j. rewrite lookup_put by (unfold k2; rewrite length_put; done).
    unfold vupd, view_of. destruct (Z.eqb_spec j w); [done|]. rewrite V2. by rewrite vupd_ne.
Qed.

(** The words written for the waiters [ws]. *)
Definition write_status (err : Z) (addr : Z -> Z) (ws : list Z) (m : memory) : memory :=
  foldl (fun m w => store32 m (addr w) err) m ws.
Lemma write_status_ext err f g ws : forall m, (forall w, w ∈ ws -> f w = g w) -> write_status err f ws m = write_status err g ws m.
Proof.
  induction ws as [|x ws IH]; intros m E; [done|]. cbn. rewrite (E x) by left. apply IH. intros w Hw. apply E. by right.
Qed.
Definition apart (a b : Z) : Prop := a = b \/ a + 4 <= b \/ b + 4 <= a.
Lemma write_status_keep err f ws a : forall m, 0 <= err < 2 ^ 32 -> (forall x, x ∈ ws -> apart (f x) a) ->
  load32 m a = err -> load32 (write_status err f ws m) a = err.
Proof.
  induction ws as [|x ws IH]; intros m B A L; [done|]. cbn. apply IH; [done|intros; apply A; by right|].
  destruct (A x ltac:(by left)) as [-> |?]; [by apply load32_store32_eq|by rewrite load32_store32_ne by lia].
Qed.
Lemma load_write_status err f ws w : forall m, 0 <= err < 2 ^ 32 -> w ∈ ws -> (forall x, x ∈ ws -> apart (f x) (f w)) ->
  load32 (write_status err f ws m) (f w) = err.
Proof.
  induction ws as [|x ws IH]; intros m B W A; [by apply not_elem_of_nil in W|]. cbn.
  apply elem_of_cons in W as [-> |W].
  - apply write_status_keep; [done|intros; apply A; by right|]. by apply load32_store32_eq.
  - apply IH; [done..|]. intros y Hy. apply A. by right.
Qed.
Lemma adopted_ext cs v w j : (forall i, v i = w i) -> adopted cs v j = adopted cs w j.
Proof. intros E. unfold adopted. by rewrite !E. Qed.
Lemma woken_ext pid ws v w j : (forall i, v i = w i) -> woken pid ws v j = woken pid ws w j.
Proof. intros E. unfold woken. by rewrite !E. Qed.

Lemma wake_loop pid err entries : forall k,
  NoDup entries.*1 -> (forall w, w ∈ entries.*1 -> waits (view_of k) w) ->
  exists k', for_each entries (wake_waiter pid err) k = Done (tt, k') /\ same_env k k' /\
    phys_mem k' = write_status err (status_word k) entries.*1 (phys_mem k) /\
    forall j, lookup j k' = woken pid entries.*1 (view_of k) j.
Proof.
  induction entries as [|[w a] l IH]; intros k D W.
  { by exists k. }
  cbn [fmap list_fmap fst] in D, W. apply NoDup_cons in D as [Nw D].
  destruct (W w ltac:(by left)) as (q & Hq & Sq). unfold view_of in Hq.
  destruct (wake_waiter_run pid err w a k q Hq Sq) as (k1 & E1 & R1 & P1 & V1).
  cbn [for_each]. rewrite (run_bind_done _ _ _ _ _ E1).
  destruct (IH k1 D) as (k2 & E2 & R2 & P2 & V2).
  { intros x Hx. destruct (W x ltac:(by right)) as (y & Hy & Sy). exists y. split; [|done]. unfold view_of.
    rewrite V1, vupd_ne; [done|]. intros ->. done. }
  exists k2. split_and!; [done|by eapply same_env_trans| |].
  - rewrite P2, P1. cbn [fmap list_fmap fst write_status foldl]. assert (SW : status_word k w = p_waitstatus_phys q) by (unfold status_word; by rewrite Hq). rewrite SW.
    apply write_status_ext. intros x Hx. unfold status_word. rewrite V1, vupd_ne; [done|]. by intros ->.
  - intros j. rewrite V2. unfold woken, view_of. cbn [fmap list_fmap fst].
    rewrite V1. unfold vupd, view_of. destruct (Z.eqb_spec j w) as [-> |N].
    + rewrite bool_decide_false by done. rewrite bool_decide_true by left. by rewrite Hq.
    + destruct (decide (j ∈ l.*1)).
      * rewrite !bool_decide_true; [done|by right|done].
      * rewrite !bool_decide_false; [done| |done]. intros [?|?]%elem_of_cons; done.
Qed.

(** ** The signal to the parent

    No process can have the actions "terminate" or "core dump" for [SIGCHLD]: the default
    is to ignore it, and [sys_signal] maps the raw values 0 and 1 to other actions. *)
Definition sigs_ok (k : kernel) : Prop := forall i p, lookup i k = Some p ->
  exists t, sig_tables k !! p_sig_handlers p = Some t /\ length t = Z.to_nat SIGRTMAX /\
    1 < nth (Z.to_nat SIGCHLD) t 0.

Lemma raise_sigchld kl self i p k :
  sigs_ok k -> lookup i k = Some p ->
  exists evs, raise_with kl self i SIGCHLD k = Done (tt,
    mkKernel (m_processes k) (m_process_count k) (m_current k) (fd_tables k) (sig_tables k) (next_key k) (phys_mem k)
      (sleep_queue k) (elapsed_ticks k) (events k ++ evs)) /\ (evs = [] \/ evs = [Handler i SIGCHLD self]).
Proof.
  intros S Hi. destruct (S i p Hi) as (t & Ht & Lt & At). pose proof (lookup_Some_inv _ _ _ Hi).
  unfold raise_with. rewrite (run_bind_done _ _ _ _ _ (by_pid_run i k ltac:(lia))), Hi.
  rewrite run_bind_gets, Ht. change (default [] (Some t)) with t. rewrite Lt.
  change (u32 SIGCHLD <? Z.of_nat (Z.to_nat SIGRTMAX)) with true. rewrite run_assert_true.
  set (act := nth _ t 0) in *.
  destruct (act =? SIG_ACTION_IGN). { exists []. rewrite app_nil_r. split; [by destruct k|by left]. }
  replace ((act =? SIG_ACTION_CORE) || (act =? SIG_ACTION_TERM)) with false.
  2: { symmetry. apply orb_false_iff. split; apply Z.eqb_neq; unfold SIG_ACTION_CORE, SIG_ACTION_TERM; lia. }
  destruct (_ || _). { exists []. rewrite app_nil_r. split; [by destruct k|by left]. }
  exists [Handler i SIGCHLD self]. split; [done|by right].
Qed.

(** ** [kill] *)

Definition killed_view (pid : Z) (p : process) (v : view) : view :=
  woken pid (p_wait_entries p).*1 (adopted (p_children p) (vupd pid (Some (set_status Zombie p)) v)).

(** What a process keeps when another one ends: all but its parent, its children and,
    for a waiter, its status and [woke_up_by]. *)
Lemma adopted_keeps cs v j q' : adopted cs v j = Some q' ->
  exists q, v j = Some q /\ p_status q' = p_status q /\ p_waitstatus_phys q' = p_waitstatus_phys q /\
    p_sig_handlers q' = p_sig_handlers q /\ p_fd_table q' = p_fd_table q.
Proof.
  unfold adopted. destruct (Z.eqb_spec j 0) as [-> |]; [|case_bool_decide as D].
  - destruct (v 0) as [q|]; [|done]. intros [= <-]. by exists q.
  - destruct (v j) as [q|]; [|done]. intros [= <-]. by exists q.
  - intros H. by exists q'.
Qed.
Lemma adopted_some cs v j q : v j = Some q -> is_Some (adopted cs v j).
Proof. intros H. unfold adopted. destruct (Z.eqb_spec j 0) as [-> |]; [|case_bool_decide]; rewrite H; by eexists. Qed.
Lemma adopted_waits cs v w : waits v w -> waits (adopted cs v) w.
Proof.
  intros (q & Hq & Sq). destruct (adopted_some cs v w q Hq) as [q' Hq']. exists q'. split; [done|].
  destruct (adopted_keeps _ _ _ _ Hq') as (x & Hx & E & _). congruence.
Qed.

Lemma tree_woken loose pid ws v : family loose v -> (forall w, w ∈ ws -> waits v w) -> family loose (woken pid ws v).
Proof.
  intros T W. apply tree_pointwise with v; [done|]. intros j. unfold woken. case_bool_decide as D; [|apply kin_refl].
  destruct (W j D) as (q & -> & Sq). cbn. split; [done|]. rewrite Sq. done.
Qed.

(** The waiters of [p]: each one waits for a child, is in the list once and is not [p]. *)
Definition waiters_ok (v : view) (pid : Z) (p : process) : Prop :=
  NoDup (p_wait_entries p).*1 /\ forall w, w ∈ (p_wait_entries p).*1 -> w <> pid /\ waits v w.

(** The kernel after the end of [pid], before another process is chosen. *)
Record ended (pid err : Z) (p : process) (k k' : kernel) : Prop := {
  e_view j : lookup j k' = killed_view pid p (view_of k) j;
  e_phys : phys_mem k' = write_status err (status_word k) (p_wait_entries p).*1 (phys_mem k);
  e_current : m_current k' = m_current k;
  e_sleep : sleep_queue k' = sleep_queue k;
  e_sigs : sig_tables k' = sig_tables k;
  e_next : next_key k' = next_key k;
  e_ticks : elapsed_ticks k' = elapsed_ticks k;
  e_events : exists evs, events k' = events k ++ ProcessDestroyed pid err :: evs /\
    (evs = [] \/ exists parent, evs = [Handler parent SIGCHLD parent]);
}.

Section kill.
Context (loose : Z -> Prop).

(** The table when the waiters are about to be woken up. *)
Definition orphaned (pid : Z) (p : process) (v : view) : view :=
  adopted (p_children p) (vupd pid (Some (set_status Zombie p)) v).
Definition kill_tail (fuel : nat) (now pid err : Z) (p : process) (parent : Z) : M kernel unit :=
  for_each (p_wait_entries p) (wake_waiter pid err) ;;
  raise_with (kill fuel now) parent parent SIGCHLD ;;
  current ← gets m_current;
  when (pid =? current) (schedule now).

Lemma not_own_child v pid p : family loose v -> v pid = Some p -> p_status p <> Zombie -> pid <> 0 -> ~ pid ∈ p_children p.
Proof.
  intros T Hp Zp N Hin. destruct (t_child _ _ T pid p pid Hp Zp Hin) as (_ & q & Hq & Pq). rewrite Hp in Hq.
  injection Hq as <-. by apply N, (t_irrefl _ _ T pid p).
Qed.
Lemma orphaned_self v pid p : family loose v -> v pid = Some p -> p_status p <> Zombie -> pid <> 0 ->
  orphaned pid p v pid = Some (set_status Zombie p).
Proof.
  intros T Hp Zp N. pose proof (not_own_child v pid p T Hp Zp N). unfold orphaned, adopted.
  rewrite (proj2 (Z.eqb_neq pid 0)), bool_decide_false, vupd_eq by done. done.
Qed.

Lemma kill_prefix fuel now pid err p k :
  family loose (view_of k) -> lookup pid k = Some p -> p_status p <> Zombie -> pid <> 0 ->
  exists k3 parent, kill (S fuel) now pid err k = kill_tail fuel now pid err p parent k3 /\
    (forall j, lookup j k3 = orphaned pid p (view_of k) j) /\ family loose (view_of k3) /\ is_Some (lookup parent k3) /\
    m_current k3 = m_current k /\ sleep_queue k3 = sleep_queue k /\ sig_tables k3 = sig_tables k /\
    next_key k3 = next_key k /\ elapsed_ticks k3 = elapsed_ticks k /\ phys_mem k3 = phys_mem k /\ events k3 = events k ++ [ProcessDestroyed pid err].
Proof.
  intros T Hp Zp N0. pose proof (lookup_Some_inv _ _ _ Hp) as B.
  cbn [kill]. rewrite (proj2 (Z.eqb_neq pid 0)) by done.
  rewrite (run_bind_done _ _ _ _ _ (by_pid_run pid k ltac:(lia))), Hp.
  rewrite (run_bind_done _ _ _ _ _ (update_run pid _ k p Hp)).
  set (k1 := put_kernel pid _ k).
  assert (V1 : forall j, lookup j k1 = vupd pid (Some (set_status Zombie p)) (view_of k) j) by (intros j; by apply lookup_put).
  destruct (t_init _ _ T) as (p0 & H0 & Z0 & P0).
  destruct (adopt_loop (p_children p) k1 p0) as (k2 & E2 & R2 & Ph2 & V2).
  { rewrite V1, vupd_ne by congruence. done. }
  { intros c Hc%list_elem_of_In. destruct (t_child _ _ T pid p c Hp Zp Hc) as (Nc & q & Hq & _). split; [done|].
    rewrite V1. unfold vupd. destruct (c =? pid); by eexists. }
  rewrite (run_bind_done _ _ _ _ _ E2). unfold send. rewrite run_bind_modify. set (k3 := mkKernel _ _ _ _ _ _ _ _ _ _).
  assert (V3 : forall j, lookup j k3 = orphaned pid p (view_of k) j).
  { intros j. change (lookup j k2 = orphaned pid p (view_of k) j). rewrite V2. by apply adopted_ext. }
  assert (T3 : family loose (orphaned pid p (view_of k))) by (by apply tree_kill).
  assert (H3 : lookup pid k3 = Some (set_status Zombie p)) by (rewrite V3; by apply orphaned_self).
  rewrite (run_bind_done _ _ _ _ _ (deref_run pid k3 _ H3)).
  destruct (t_parent _ _ T3 pid (set_status Zombie p)) as (par & Hpar & Zpar & _); [by rewrite <- V3|].
  rewrite <- V3 in Hpar. pose proof (lookup_Some_inv _ _ _ Hpar) as Bpar.
  rewrite (run_bind_done _ _ _ _ _ (by_pid_run (p_parent (set_status Zombie p)) k3 ltac:(lia))), Hpar.
  destruct R2 as (R2a & R2b & R2c & R2d & R2e & R2f & R2g & R2h).
  exists k3, (p_pid par). split_and!; try done.
  - eapply tree_ext; [intros j; symmetry; apply V3|done].
  - rewrite (t_pid _ _ T3 _ _ (eq_trans (eq_sym (V3 _)) Hpar)). by rewrite Hpar.
  - change (events k3) with (events k2 ++ [ProcessDestroyed pid err]). by rewrite R2f.
Qed.

Lemma orphaned_keeps pid p v j q' : v pid = Some p -> orphaned pid p v j = Some q' ->
  exists q, v j = Some q /\ (j <> pid -> p_status q' = p_status q) /\ p_waitstatus_phys q' = p_waitstatus_phys q /\
    p_sig_handlers q' = p_sig_handlers q /\ p_fd_table q' = p_fd_table q.
Proof.
  intros Hp H. destruct (adopted_keeps _ _ _ _ H) as (x & Hx & E1 & E2 & E3 & E4). unfold vupd in Hx.
  destruct (Z.eqb_spec j pid) as [-> |].
  - injection Hx as <-. exists p. done.
  - exists x. split_and!; try done.
Qed.

Lemma kill_run fuel now pid err p k :
  family loose (view_of k) -> sigs_ok k -> lookup pid k = Some p -> p_status p <> Zombie -> pid <> 0 ->
  waiters_ok (view_of k) pid p ->
  exists k', kill (S fuel) now pid err k = (when (pid =? m_current k') (schedule now)) k' /\
    ended pid err p k k' /\ family loose (view_of k') /\ sigs_ok k'.
Proof.
  intros T S Hp Zp N0 [D W].
  destruct (kill_prefix fuel now pid err p k T Hp Zp N0) as (k3 & par & E3 & V3 & T3 & Ppar & Ec & Es & Eg & En & Et & Eph & Ee).
  rewrite E3. unfold kill_tail.
  assert (W3 : forall w, w ∈ (p_wait_entries p).*1 -> waits (view_of k3) w).
  { intros w Hw. destruct (W w Hw) as (Nw & q & Hq & Sq).
    destruct (adopted_waits (p_children p) (vupd pid (Some (set_status Zombie p)) (view_of k)) w) as (x & Hx & Sx).
    { exists q. by rewrite vupd_ne. } exists x. split; [|done]. unfold view_of. by rewrite V3. }
  destruct (wake_loop pid err (p_wait_entries p) k3 D W3) as (k4 & E4 & R4 & Ph4 & V4).
  rewrite (run_bind_done _ _ _ _ _ E4). destruct R4 as (R4a & R4b & R4c & R4d & R4e & R4f & R4g & R4h).
  assert (T4 : family loose (view_of k4)) by (eapply tree_ext; [intros j; symmetry; apply V4|]; by apply tree_woken).
  assert (S4 : sigs_ok k4).
  { intros i q Hq. rewrite R4c, Eg. rewrite V4 in Hq. unfold woken, view_of in Hq.
    assert (exists q3, lookup i k3 = Some q3 /\ p_sig_handlers q = p_sig_handlers q3) as (q3 & Hq3 & ->).
    { case_bool_decide; [|by exists q]. destruct (lookup i k3) as [x|]; [|done]. injection Hq as <-. by exists x. }
    rewrite V3 in Hq3. destruct (orphaned_keeps _ _ _ _ _ Hp Hq3) as (x & Hx & _ & _ & -> & _). by apply (S i). }
  assert (P4 : exists q, lookup par k4 = Some q).
  { rewrite V4. destruct Ppar as [x Hx]. unfold woken, view_of. rewrite Hx. case_bool_decide; by eexists. }
  destruct P4 as (q4 & Hq4).
  destruct (raise_sigchld (kill fuel now) par par q4 k4 S4 Hq4) as (evs & E5 & Ev).
  rewrite (run_bind_done _ _ _ _ _ E5), run_bind_gets. set (k5 := mkKernel _ _ _ _ _ _ _ _ _ _).
  exists k5. split_and!; [done| |done|done]. split; try (cbn; congruence).
  - intros j. change (lookup j k4 = killed_view pid p (view_of k) j). rewrite V4. by apply woken_ext.
  - change (phys_mem k5) with (phys_mem k4). rewrite Ph4, Eph. apply write_status_ext. intros x Hx.
    destruct (W3 x Hx) as (y & Hy & _). unfold status_word. unfold view_of in Hy. rewrite Hy. rewrite V3 in Hy.
    destruct (orphaned_keeps _ _ _ _ _ Hp Hy) as (z & Hz & _ & -> & _). unfold view_of in Hz. by rewrite Hz.
  - exists evs. split; [|destruct Ev as [-> | ->]; [by left|right; by eexists]].
    change (events k5) with (events k4 ++ evs). by rewrite R4f, Ee, <- app_assoc.
Qed.

(** A call that returns found every waiter waiting. *)
Lemma wake_loop_done pid err entries : forall k k', for_each entries (wake_waiter pid err) k = Done (tt, k') ->
  NoDup entries.*1 /\ forall w, w ∈ entries.*1 -> waits (view_of k) w.
Proof.
  induction entries as [|[w a] l IH]; intros k k'; cbn [for_each].
  { intros _. split; [constructor|]. intros w Hw. by apply not_elem_of_nil in Hw. }
  unfold mbind at 1, M_bind at 1. destruct (wake_waiter pid err (w, a) k) as [[[] k1]|] eqn:E1; [|done]. intros E2.
  assert (exists q, lookup w k = Some q /\ p_status q = ChildWait) as (q & Hq & Sq).
  { revert E1. unfold wake_waiter, deref, by_pid. cbn [fst]. destruct (0 <=? w); [|done]. cbn [assert_].
    rewrite !run_bind_bind, run_bind_ret, run_bind_gets. destruct (lookup w k) as [q|]; [|done].
    rewrite run_bind_ret. case_bool_decide; [|done]. intros _. by exists q. }
  destruct (wake_waiter_run pid err w a k q Hq Sq) as (k1' & E1' & _ & _ & V1). rewrite E1 in E1'. injection E1' as <-.
  destruct (IH k1 k' E2) as [D W].
  assert (N : ~ w ∈ l.*1).
  { intros Hw. destruct (W w Hw) as (x & Hx & Sx). unfold view_of in Hx. rewrite V1, vupd_eq in Hx. by injection Hx as <-. }
  split; [by constructor|]. cbn [fmap list_fmap fst]. intros x [-> |Hx]%elem_of_cons; [by exists q|].
  destruct (W x Hx) as (y & Hy & Sy). exists y. split; [|done]. unfold view_of in Hy. rewrite V1, vupd_ne in Hy; [done|].
  by intros ->.
Qed.

Lemma kill_done_waiters fuel now pid err p k k' :
  family loose (view_of k) -> lookup pid k = Some p -> p_status p <> Zombie -> pid <> 0 ->
  kill (S fuel) now pid err k = Done (tt, k') -> waiters_ok (view_of k) pid p.
Proof.
  intros T Hp Zp N0. destruct (kill_prefix fuel now pid err p k T Hp Zp N0) as (k3 & par & -> & V3 & _).
  unfold kill_tail, mbind at 1, M_bind at 1.
  destruct (for_each (p_wait_entries p) (wake_waiter pid err) k3) as [[[] k4]|] eqn:E4; [|done]. intros _.
  destruct (wake_loop_done _ _ _ _ _ E4) as [D W]. split; [done|]. intros w Hw.
  destruct (W w Hw) as (q & Hq & Sq). unfold view_of in Hq. rewrite V3 in Hq.
  assert (w <> pid). { intros ->. rewrite orphaned_self in Hq by done. injection Hq as <-. done. }
  split; [done|]. destruct (orphaned_keeps _ _ _ _ _ Hp Hq) as (x & Hx & Sx & _). exists x. split; [done|].
  rewrite <- Sx; done.
Qed.

Lemma ended_inherits pid err p k k' i q' : ended pid err p k k' -> lookup pid k = Some p -> lookup i k' = Some q' ->
  exists q, lookup i k = Some q /\ p_sig_handlers q' = p_sig_handlers q /\ p_fd_table q' = p_fd_table q.
Proof.
  intros E Hp. rewrite (e_view _ _ _ _ _ E). unfold killed_view, woken. fold (orphaned pid p (view_of k)). intros H.
  assert (exists q3, orphaned pid p (view_of k) i = Some q3 /\ p_sig_handlers q' = p_sig_handlers q3 /\
    p_fd_table q' = p_fd_table q3) as (q3 & H3 & -> & ->).
  { case_bool_decide; [|by exists q']. destruct (orphaned pid p (view_of k) i) as [x|]; [|done]. injection H as <-. by exists x. }
  destruct (orphaned_keeps _ _ _ _ _ Hp H3) as (q & Hq & _ & _ & -> & ->). by exists q.
Qed.

(** ** What follows the adoption, whatever the process that ends *)

(** What a process keeps there: all but its status and [woke_up_by]. *)
Definition same_tables (q q' : process) : Prop := p_sig_handlers q' = p_sig_handlers q /\ p_fd_table q' = p_fd_table q.
Record tailed (k k' : kernel) : Prop := {
  tl_left i q' : lookup i k' = Some q' -> exists q, lookup i k = Some q /\ same_tables q q';
  tl_ready i : process_ready i k = true -> process_ready i k' = true;
  tl_sigs : sig_tables k' = sig_tables k;
  tl_next : next_key k' = next_key k;
  tl_current : m_current k' = m_current k }.

Lemma kill_tail_done fuel now pid err p parent k k' :
  family loose (view_of k) -> sigs_ok k -> is_Some (lookup parent k) -> kill_tail fuel now pid err p parent k = Done (tt, k') ->
  exists k1, (when (pid =? m_current k1) (schedule now)) k1 = Done (tt, k') /\ family loose (view_of k1) /\ sigs_ok k1 /\ tailed k k1.
Proof.
  intros T S [pp Hpp] E. unfold kill_tail in E. apply bind_done in E as ([] & k4 & E4 & E).
  destruct (wake_loop_done _ _ _ _ _ E4) as [D W].
  destruct (wake_loop pid err (p_wait_entries p) k D W) as (x & Ex & R & _ & V). rewrite E4 in Ex. injection Ex as <-.
  destruct R as (Rc & _ & Rs & _ & _ & _ & _ & Rn).
  assert (T4 : family loose (view_of k4)) by (eapply tree_ext; [intros j; symmetry; apply V|]; by apply tree_woken).
  assert (Lf : forall i q', lookup i k4 = Some q' -> exists q, lookup i k = Some q /\ same_tables q q').
  { intros i q'. rewrite V. unfold woken, view_of. case_bool_decide; [|intros Hq; by exists q'].
    destruct (lookup i k) as [q|]; [|done]. intros [= <-]. by exists q. }
  assert (S4 : sigs_ok k4).
  { intros i q' Hq. destruct (Lf i q' Hq) as (q & Hq0 & Es & _). rewrite Rs, Es. by apply (S i). }
  assert (is_Some (lookup parent k4)) as [q4 Hq4]. { rewrite V. unfold woken, view_of. rewrite Hpp. case_bool_decide; by eexists. }
  destruct (raise_sigchld (kill fuel now) parent parent q4 k4 S4 Hq4) as (evs & E5 & _).
  rewrite (run_bind_done _ _ _ _ _ E5), run_bind_gets in E. eexists. split; [exact E|]. split_and!; [done|done|].
  split; [exact Lf| |exact Rs|exact Rn|exact Rc]. intros i. unfold process_ready. change (lookup i (mkKernel _ _ _ _ _ _ _ _ _ _)) with (lookup i k4).
  rewrite V. unfold woken, view_of. destruct (lookup i k) as [q|]; [|done]. intros Aq%bool_decide_eq_true.
  destruct (bool_decide (i ∈ _)); cbn; by apply bool_decide_eq_true.
Qed.

(** ** A process that had ended already

    Its list of children is still there; when each of them that is left is one of process 0
    and no task of the kernel, they are in the list of process 0 once more, and that is all. *)
Lemma tree_extend v cs p0 :
  family loose v -> v 0 = Some p0 -> (forall c, c ∈ cs -> c <> 0 /\ ~ loose c /\ exists q, v c = Some q /\ p_parent q = 0) ->
  family loose (vupd 0 (Some (set_children (p_children p0 ++ cs) p0)) v).
Proof.
  intros [T1 T2 T3 T4 TN T5 TT T6] H0 CS. set (w := vupd _ _ _).
  assert (W0 : w 0 = Some (set_children (p_children p0 ++ cs) p0)) by apply vupd_eq.
  assert (L : forall j q, w j = Some q -> exists q0, v j = Some q0 /\ p_pid q = p_pid q0 /\ p_parent q = p_parent q0 /\
    p_status q = p_status q0 /\ (j <> 0 -> p_children q = p_children q0) /\ p_children q0 ⊆ p_children q).
  { intros j q. unfold w. destruct (decide (j = 0)) as [-> |N].
    - rewrite vupd_eq. intros [= <-]. exists p0. split_and!; try done. intros z Hz. cbn. apply elem_of_app. by left.
    - rewrite vupd_ne by done. intros H. by exists q. }
  assert (G : forall j q0, v j = Some q0 -> exists q, w j = Some q).
  { intros j q0 H. unfold w, vupd. destruct (j =? 0); by eexists. }
  assert (Ch : forall j q c, w j = Some q -> c ∈ p_children q ->
    (exists q0, v j = Some q0 /\ p_status q = p_status q0 /\ c ∈ p_children q0) \/ (j = 0 /\ c ∈ cs)).
  { intros j q c Hw Hc. destruct (L j q Hw) as (q0 & H & _ & _ & S & C & _). destruct (decide (j = 0)) as [-> |N].
    - rewrite W0 in Hw. injection Hw as <-. cbn in Hc. rewrite H0 in H. injection H as <-.
      apply elem_of_app in Hc as [Hc|Hc]; [left; by exists p0|by right].
    - left. exists q0. by rewrite <- C. }
  destruct T2 as (x & Hx & Z0 & P0). rewrite H0 in Hx. injection Hx as <-. split.
  - intros j q (q0 & H & E & _)%L. rewrite E. by apply T1.
  - eexists. split; [exact W0|done].
  - intros j q (q0 & H & _ & E & _)%L. destruct (T3 _ _ H) as (par & Hpar & Zpar & C). rewrite E. destruct (G _ _ Hpar) as (y & Hy).
    destruct (L _ _ Hy) as (par' & Hp' & _ & _ & S & _ & Sub). rewrite Hpar in Hp'. injection Hp' as <-.
    exists y. split_and!; [done|congruence|]. destruct C as [C|[C|C]]; [by left|by right; left|right; right; by apply Sub].
  - intros j q c Hw Zq Hc. assert (P : forall y, v c = Some y -> p_parent y = j -> exists y', w c = Some y' /\ p_parent y' = j).
    { intros y Hy Py. destruct (G _ _ Hy) as (y' & Hy'). exists y'. split; [done|]. destruct (L _ _ Hy') as (z & Hz & _ & E & _). congruence. }
    destruct (Ch j q c Hw Hc) as [(q0 & H & S & C)|[-> C]].
    + destruct (T4 j q0 c H ltac:(congruence) C) as (? & y & Hy & Py). split; [done|by apply (P y)].
    + destruct (CS c C) as (? & _ & y & Hy & Py). split; [done|by apply (P y)].
  - intros j q c Hw Hc. destruct (Ch j q c Hw Hc) as [(q0 & H & _ & C)|[-> C]]; [by apply (TN j q0)|by apply CS].
  - intros j Lj. destruct (T5 j Lj) as (q0 & H & P). destruct (G _ _ H) as (q & Hw). exists q. split; [done|].
    destruct (L _ _ Hw) as (z & Hz & _ & E & _). congruence.
  - intros j q c Hw Zq Hc. destruct (Ch j q c Hw Hc) as [(q0 & H & S & C)|[-> C]]; [apply (TT j q0); [done|congruence|done]|by apply CS].
  - intros j q (q0 & H & _ & E & _)%L. rewrite E. by apply T6.
Qed.

Lemma adopt_done c k k' : adopt c k = Done (tt, k') -> is_Some (lookup c k) /\ forall j, is_Some (lookup j k') -> is_Some (lookup j k).
Proof.
  unfold adopt. intros E. apply bind_done in E as ([] & k1 & E1 & E2).
  assert (U : forall i f k u k', update i f k = Done (u, k') -> is_Some (lookup i k) /\ forall j, is_Some (lookup j k') -> is_Some (lookup j k)).
  { clear. intros i f k u k' E. unfold update in E. apply bind_done in E as (p & k0 & E0 & E).
    unfold deref in E0. apply bind_done in E0 as (o & k1 & E1 & E0). unfold by_pid in E1. destruct (0 <=? i); [|done].
    injection E1 as <- <-. destruct (lookup i k) as [q|] eqn:Hi; [|done]. injection E0 as <- <-. injection E as <- <-. split; [by eexists|].
    intros j. pose proof (lookup_Some_inv _ _ _ Hi) as B. change (set_processes _ k) with (put_kernel i (Some (f q)) k).
    rewrite (lookup_put i _ k j B). unfold vupd, view_of. destruct (Z.eqb_spec j i) as [-> |]; [by rewrite Hi; eexists|done]. }
  destruct (U _ _ _ _ _ E1) as [S1 B1]. destruct (U _ _ _ _ _ E2) as [_ B2]. auto.
Qed.
Lemma adopt_loop_done cs : forall k k', for_each cs adopt k = Done (tt, k') -> forall c, c ∈ cs -> is_Some (lookup c k).
Proof.
  induction cs as [|c cs IH]; intros k k' E d Hd; [by apply not_elem_of_nil in Hd|]. cbn [for_each] in E.
  apply bind_done in E as ([] & k1 & E1 & E). destruct (adopt_done c k k1 E1) as [S B].
  apply elem_of_cons in Hd as [-> |Hd]; [done|]. apply B. by apply (IH k1 k').
Qed.

(** None of the children it left has become the child of another process, or a task. *)
Definition own_children (p : process) (v : view) : Prop :=
  forall c q, c ∈ p_children p -> v c = Some q -> p_parent q = 0 /\ ~ loose c.

Lemma rekill_prefix fuel now pid err p k k' :
  family loose (view_of k) -> lookup pid k = Some p -> p_status p = Zombie -> own_children p (view_of k) ->
  kill (S fuel) now pid err k = Done (tt, k') ->
  exists k3 parent p0, kill_tail fuel now pid err p parent k3 = Done (tt, k') /\ lookup 0 k = Some p0 /\
    (forall j, lookup j k3 = vupd 0 (Some (set_children (p_children p0 ++ p_children p) p0)) (view_of k) j) /\
    family loose (view_of k3) /\ is_Some (lookup parent k3) /\
    m_current k3 = m_current k /\ sig_tables k3 = sig_tables k /\ next_key k3 = next_key k.
Proof.
  intros T Hp Zp Oc E. pose proof (lookup_Some_inv _ _ _ Hp) as B. cbn [kill] in E.
  destruct (t_init _ _ T) as (p0 & H0 & Z0 & P0). unfold view_of in H0.
  destruct (Z.eqb_spec pid 0) as [-> |N0]; [done|].
  rewrite (run_bind_done _ _ _ _ _ (by_pid_run pid k ltac:(lia))), Hp in E.
  rewrite (run_bind_done _ _ _ _ _ (update_run pid _ k p Hp)) in E. set (k1 := put_kernel pid _ k) in E.
  assert (V1 : forall j, lookup j k1 = lookup j k).
  { intros j. unfold k1. rewrite (lookup_put pid _ k j B). unfold vupd, view_of. destruct (Z.eqb_spec j pid) as [-> |]; [|done].
    rewrite Hp. do 2 f_equal. destruct p. cbn in *. by subst. }
  apply bind_done in E as ([] & k2 & E2 & E).
  assert (CS : forall c, c ∈ p_children p -> c <> 0 /\ ~ loose c /\ exists q, view_of k c = Some q /\ p_parent q = 0).
  { intros c Hc. destruct (adopt_loop_done _ _ _ E2 c Hc) as [q Hq]. rewrite V1 in Hq. destruct (Oc c q Hc Hq). split; [|split; [done|by exists q]].
    by apply (t_nonzero _ _ T pid p c). }
  destruct (adopt_loop (p_children p) k1 p0) as (x & Ex & R2 & _ & V2).
  { by rewrite V1. } { intros c Hc%list_elem_of_In. destruct (CS c Hc) as (? & _ & q & Hq & _). split; [done|]. rewrite V1. by exists q. }
  rewrite E2 in Ex. injection Ex as <-. unfold send in E. rewrite run_bind_modify in E. set (k3 := mkKernel _ _ _ _ _ _ _ _ _ _) in E.
  assert (V3 : forall j, lookup j k3 = vupd 0 (Some (set_children (p_children p0 ++ p_children p) p0)) (view_of k) j).
  { intros j. change (lookup j k2 = vupd 0 (Some (set_children (p_children p0 ++ p_children p) p0)) (view_of k) j).
    rewrite V2. unfold adopted, vupd, view_of. rewrite !V1. destruct (Z.eqb_spec j 0) as [-> |]; [by rewrite H0|].
    case_bool_decide as D; [|done]. destruct (CS j D) as (_ & _ & q & Hq & Pq). unfold view_of in Hq. rewrite Hq. cbn. f_equal.
    destruct q. cbn in *. by subst. }
  assert (T3 : family loose (view_of k3)). { eapply tree_ext; [intros j; symmetry; apply V3|]. by apply tree_extend. }
  assert (H3 : lookup pid k3 = Some p) by (by rewrite V3, vupd_ne).
  rewrite (run_bind_done _ _ _ _ _ (deref_run pid k3 p H3)) in E.
  destruct (t_parent _ _ T3 pid p H3) as (par & Hpar & _). pose proof (lookup_Some_inv _ _ _ Hpar) as Bpar.
  rewrite (run_bind_done _ _ _ _ _ (by_pid_run (p_parent p) k3 ltac:(lia))) in E. unfold view_of in Hpar. rewrite Hpar in E.
  destruct R2 as (Ra & _ & Rb & _ & _ & _ & _ & Rc). exists k3, (p_pid par), p0. split_and!; try done.
  rewrite (t_pid _ _ T3 _ _ Hpar). by rewrite Hpar.
Qed.
End kill.

(** The facts of [ended] one process at a time. *)
Lemma ended_self pid err p k k' : ended pid err p k k' -> pid <> 0 -> ~ pid ∈ p_children p -> ~ pid ∈ (p_wait_entries p).*1 ->
  lookup pid k' = Some (set_status Zombie p).
Proof.
  intros E N C W. rewrite (e_view _ _ _ _ _ E). unfold killed_view, woken, adopted.
  rewrite bool_decide_false, (proj2 (Z.eqb_neq pid 0)), bool_decide_false, vupd_eq by done. done.
Qed.
Lemma ended_other pid err p k k' j q : ended pid err p k k' -> j <> pid -> lookup j k = Some q ->
  exists q', lookup j k' = Some q' /\
    p_parent q' = (if decide (j <> 0 /\ j ∈ p_children p) then 0 else p_parent q) /\
    p_children q' = (if decide (j = 0) then p_children q ++ p_children p else p_children q) /\
    p_status q' = (if decide (j ∈ (p_wait_entries p).*1) then Active else p_status q) /\
    p_woke_up_by q' = (if decide (j ∈ (p_wait_entries p).*1) then pid else p_woke_up_by q) /\
    p_sig_handlers q' = p_sig_handlers q.
Proof.
  intros E N H. rewrite (e_view _ _ _ _ _ E). unfold killed_view, woken.
  set (o := adopted _ _ j).
  assert (exists x, o = Some x /\ p_parent x = (if decide (j <> 0 /\ j ∈ p_children p) then 0 else p_parent q) /\
    p_children x = (if decide (j = 0) then p_children q ++ p_children p else p_children q) /\ p_status x = p_status q /\
    p_woke_up_by x = p_woke_up_by q /\ p_sig_handlers x = p_sig_handlers q) as (x & -> & E1 & E2 & E3 & E4 & E5).
  { unfold o, adopted, view_of. destruct (Z.eqb_spec j 0) as [-> |N0].
    - rewrite vupd_ne, H by done. eexists. split; [done|]. rewrite decide_False by tauto. done.
    - rewrite vupd_ne, H by done. rewrite (decide_False (P := j = 0)) by done. case_bool_decide.
      + rewrite decide_True by done. by eexists.
      + rewrite decide_False by tauto. by eexists. }
  case_bool_decide as D; eexists; (split; [done|]).
  - rewrite !(decide_True (P := j ∈ _)) by done. done.
  - rewrite !(decide_False (P := j ∈ _)) by done. done.
Qed.

(** The status words of the waiters are the same word or do not overlap. *)
Definition words_apart (k : kernel) (ws : list Z) : Prop :=
  forall x y, x ∈ ws -> y ∈ ws -> apart (status_word k x) (status_word k y).

(** What the waiters of [pid] find when they run again. *)
Definition notified (pid err : Z) (p : process) (k k' : kernel) : Prop :=
  forall w, w ∈ (p_wait_entries p).*1 -> exists q', lookup w k' = Some q' /\ p_status q' = Active /\
    p_woke_up_by q' = pid /\ load32 (phys_mem k') (status_word k w) = err.

Lemma ended_notified pid err p k k' : ended pid err p k k' -> waiters_ok (view_of k) pid p -> 0 <= err < 2 ^ 32 ->
  words_apart k (p_wait_entries p).*1 -> notified pid err p k k'.
Proof.
  intros E [_ W] B A w Hw. destruct (W w Hw) as (N & q & Hq & _).
  destruct (ended_other _ _ _ _ _ w q E N Hq) as (q' & H' & _ & _ & S & U & _). rewrite decide_True in S by done. rewrite decide_True in U by done.
  exists q'. split_and!; try done. rewrite (e_phys _ _ _ _ _ E). apply load_write_status; [done|done|].
  intros x Hx. by apply A.
Qed.

Lemma ended_sleepers pid err p k k' : ended pid err p k k' -> p_status p = Active -> lookup pid k = Some p ->
  waiters_ok (view_of k) pid p -> sleepers_ok k -> sleepers_ok k'.
Proof.
  intros E Ap Hp [_ W] [D S]. split; rewrite (e_sleep _ _ _ _ _ E); [done|]. intros i Hi.
  destruct (S i Hi) as (q & Hq & St). assert (i <> pid) by (intros ->; destruct St; congruence).
  destruct (ended_other _ _ _ _ _ i q E) as (q' & Hq' & _ & _ & St' & _); [done|done|]. exists q'. split; [done|].
  rewrite decide_False in St'; [by rewrite St'|]. intros Hw. destruct (W i Hw) as (_ & x & Hx & Sx).
  unfold view_of in Hx. rewrite Hq in Hx. injection Hx as <-. destruct St; congruence.
Qed.

End ProcessKill.
