(* ===== verification/ProcessInv.v ===== *)
(** * ProcessInv: new processes, and the invariant of the process table *)
From stdpp Require Import base list gmap.
From Stdlib Require Import ZArith Lia.
From S2P Require Import Prelude Mem32 DeltaQueue Errno Process ProcessProofs ProcessKill.
Import Errno Process ProcessProofs ProcessKill.

Module ProcessInv.

(** ** The first free pid *)

Lemma first_free_spec l : forall i, i <= first_free i l <= i + Z.of_nat (length l) /\
  mjoin (l !! Z.to_nat (first_free i l - i)) = None.
Proof.
  induction l as [|[p|] l IH]; intros i; cbn [first_free length].
  - split; [lia|]. done.
  - destruct (IH (i + 1)) as [B E]. split; [lia|].
    replace (Z.to_nat (first_free (i + 1) l - i)) with (S (Z.to_nat (first_free (i + 1) l - (i + 1)))) by lia. done.
  - split; [lia|]. by rewrite Z.sub_diag.
Qed.
Lemma find_free_pid_spec k : 0 <= find_free_pid k <= Z.of_nat (length (m_processes k)) /\ lookup (find_free_pid k) k = None.
Proof.
  destruct (first_free_spec (m_processes k) 0) as [B E]. rewrite Z.sub_0_r in E. split; [unfold find_free_pid; lia|].
  unfold lookup. by destruct (Z.ltb_spec (find_free_pid k) 0).
Qed.

(** ** [create] *)

Definition fresh_process (pid key : Z) : process := mkProc pid pid 0 Active 0 0 0 [] [] 0 0 None key key vfs_root vfs_root.

Lemma create_run k :
  exists new k', create k = Done (new, k') /\ lookup new k = None /\ 0 <= new /\
    (forall j, lookup j k' = vupd new (Some (fresh_process new (next_key k))) (view_of k) j) /\
    fd_tables k' = <[next_key k := default_fds]> (fd_tables k) /\
    sig_tables k' = <[next_key k := default_sighandler_actions]> (sig_tables k) /\
    next_key k' = next_key k + 1 /\ m_current k' = m_current k.
Proof.
  destruct (find_free_pid_spec k) as [B E]. set (new := find_free_pid k) in *.
  unfold create. rewrite run_bind_gets. fold new. unfold new_process. rewrite run_bind_bind.
  rewrite (run_bind_done get _ k k k) by done. set (k1 := set_tables _ _ _ k).
  rewrite run_bind_bind, (run_bind_done (put k1) _ k tt k1) by done. rewrite run_bind_ret, run_bind_modify, run_bind_modify.
  unfold send. rewrite run_bind_modify. exists new. eexists. split; [reflexivity|]. split_and!; try done; try lia.
  intros j. unfold lookup, vupd, view_of, lookup. cbn. destruct (Z.ltb_spec j 0).
  { destruct (Z.eqb_spec j new); [lia|done]. }
  destruct (Z.eqb_spec new (Z.of_nat (length (m_processes k)))) as [En|En]; destruct (Z.eqb_spec j new) as [-> |Nj].
  - rewrite lookup_app_r by lia. replace (Z.to_nat new - length (m_processes k))%nat with 0%nat by lia. done.
  - destruct (decide (j < new)).
    + rewrite lookup_app_l by lia. done.
    + rewrite lookup_app_r by lia. rewrite (lookup_ge_None_2 (m_processes k)) by lia.
      destruct (Z.to_nat j - length (m_processes k))%nat eqn:X; [lia|]. done.
  - rewrite list_lookup_insert_eq by lia. done.
  - rewrite list_lookup_insert_ne by lia. done.
Qed.

(** ** [clone] *)

Lemma tree_clone loose v new par c parp :
  family loose v -> v new = None -> v par = Some parp -> p_status parp <> Zombie ->
  p_pid c = new -> p_parent c = par -> p_status c <> Zombie -> p_children c = [] ->
  family loose (vupd new (Some c) (vupd par (Some (set_children (p_children parp ++ [new]) parp)) v)).
Proof.
  intros [T1 T2 T3 T4 TN T5 TT T6] Hn Hpar Zpar Ec Pc Zc Cc.
  assert (Nnp : new <> par) by congruence. set (w := vupd _ _ _).
  assert (Wn : w new = Some c) by apply vupd_eq.
  assert (Wp : w par = Some (set_children (p_children parp ++ [new]) parp)) by (unfold w; rewrite vupd_ne by done; apply vupd_eq).
  assert (Wo : forall j, j <> new -> j <> par -> w j = v j) by (intros j ??; unfold w; by rewrite !vupd_ne).
  assert (G : forall j q, v j = Some q -> j <> new /\ exists q', w j = Some q' /\ p_pid q' = p_pid q /\ p_parent q' = p_parent q /\
    p_status q' = p_status q /\ p_children q ⊆ p_children q').
  { intros j q H. assert (N : j <> new) by congruence. split; [done|]. destruct (decide (j = par)) as [-> |Np].
    - rewrite Hpar in H. injection H as <-. eexists. split; [exact Wp|]. split_and!; try done. intros z Hz. cbn. apply elem_of_app. by left.
    - rewrite Wo by done. by exists q. }
  split.
  - intros j q. destruct (decide (j = new)) as [-> |N]; [rewrite Wn; congruence|].
    destruct (decide (j = par)) as [-> |N']; [rewrite Wp; intros [= <-]; by apply (T1 par parp)|rewrite Wo by done; apply T1].
  - destruct T2 as (p0 & H0 & Z0 & P0). destruct (G _ _ H0) as (_ & q & Hq & _ & E1 & E2 & _). exists q. split_and!; congruence.
  - intros j q. destruct (decide (j = new)) as [-> |N].
    + rewrite Wn. intros [= <-]. rewrite Pc. eexists. split; [exact Wp|]. split; [done|]. right; right. cbn. apply elem_of_app. right. by apply list_elem_of_singleton.
    + intros Hq. assert (exists q0, v j = Some q0 /\ p_parent q = p_parent q0) as (q0 & H0 & ->).
      { destruct (decide (j = par)) as [-> |N']; [rewrite Wp in Hq; injection Hq as <-; by exists parp|].
        rewrite Wo in Hq by done. by exists q. }
      destruct (T3 _ _ H0) as (x & Hx & Zx & C). destruct (G _ _ Hx) as (_ & y & Hy & _ & _ & Sy & Cy).
      exists y. split_and!; [done|congruence|]. destruct C as [C|[C|C]]; [by left|by right; left|right; right]. by apply Cy.
  - intros j q ch Hq Zq Hch. destruct (decide (j = new)) as [-> |N].
    { rewrite Wn in Hq. injection Hq as <-. rewrite Cc in Hch. by apply not_elem_of_nil in Hch. }
    destruct (decide (j = par)) as [-> |N'].
    + rewrite Wp in Hq. injection Hq as <-. cbn in Hch, Zq. apply elem_of_app in Hch as [Hch|Hch].
      * destruct (T4 _ _ _ Hpar Zpar Hch) as (Nz & x & Hx & Px). split; [done|].
        destruct (G _ _ Hx) as (_ & y & Hy & _ & Ey & _). exists y. split; [done|congruence].
      * apply list_elem_of_singleton in Hch as ->. split; [|by exists c].
        destruct T2 as (p0 & H0 & _). congruence.
    + rewrite Wo in Hq by done. destruct (T4 _ _ _ Hq Zq Hch) as (Nz & x & Hx & Px). split; [done|].
      destruct (G _ _ Hx) as (_ & y & Hy & _ & Ey & _). exists y. split; [done|congruence].
  - intros j q ch Hq Hch. destruct (decide (j = new)) as [-> |N].
    { rewrite Wn in Hq. injection Hq as <-. rewrite Cc in Hch. by apply not_elem_of_nil in Hch. }
    destruct (decide (j = par)) as [-> |N']; [|rewrite Wo in Hq by done; by apply (TN j q)].
    rewrite Wp in Hq. injection Hq as <-. cbn in Hch. apply elem_of_app in Hch as [Hch|Hch]; [by apply (TN par parp)|].
    apply list_elem_of_singleton in Hch as ->. destruct T2 as (p0 & H0 & _). congruence.
  - intros j Lj. destruct (T5 j Lj) as (x & Hx & Zx). destruct (G _ _ Hx) as (_ & y & Hy & _ & Py & _). exists y.
    split; [done|congruence].
  - intros j q ch Hq Zq Hch. destruct (decide (j = new)) as [-> |N].
    { rewrite Wn in Hq. injection Hq as <-. rewrite Cc in Hch. by apply not_elem_of_nil in Hch. }
    destruct (decide (j = par)) as [-> |N']; [|rewrite Wo in Hq by done; by apply (TT j q)].
    rewrite Wp in Hq. injection Hq as <-. cbn in Hch. apply elem_of_app in Hch as [Hch|Hch]; [by apply (TT par parp)|].
    apply list_elem_of_singleton in Hch as ->. intros Ln. destruct (T5 new Ln) as (x & Hx & _). congruence.
  - intros j q. destruct (decide (j = new)) as [-> |N]; [rewrite Wn; intros [= <-]; congruence|].
    destruct (decide (j = par)) as [-> |N']; [rewrite Wp; intros [= <-]; by apply (T6 par parp)|rewrite Wo by done; apply T6].
Qed.

(** The tables of a process are among those made so far. *)
Definition keys_ok (k : kernel) : Prop := forall i p, lookup i k = Some p ->
  p_fd_table p < next_key k /\ p_sig_handlers p < next_key k.

Definition sig_table_ok (t : list Z) : Prop := length t = Z.to_nat SIGRTMAX /\ 1 < nth (Z.to_nat SIGCHLD) t 0.
Lemma default_sig_ok : sig_table_ok default_sighandler_actions.
Proof. by vm_compute. Qed.

Record kernel_ok (loose : Z -> Prop) (k : kernel) : Prop := {
  ok_tree : family loose (view_of k);
  ok_sigs : sigs_ok k;
  ok_keys : keys_ok k;
}.

(** The new process as [clone] leaves it. *)
Definition cloned (flags new : Z) (p : process) (keys dirs : Z * Z) : process :=
  mkProc new (if has flags CLONE_THREAD then p_pid p else new) (if has flags CLONE_PARENT then p_parent p else p_pid p)
    Active (p_priority p) (p_uid p) (p_gid p) [] [] 0 0 None keys.1 keys.2 dirs.1 dirs.2.
Definition clone_keys (flags n : Z) (p : process) : Z * Z :=
  (if has flags CLONE_FILES then p_fd_table p else n, if has flags CLONE_SIGHAND then p_sig_handlers p else n).

(** The directories [clone] gives to it. *)
Definition dirs_of (find_again : Z -> outcome Z) (flags : Z) (p : process) : outcome (Z * Z) :=
  if has flags CLONE_FS then Done (p_pwd p, p_root p)
  else match find_again (p_pwd p), find_again (p_root p) with
       | Done pwd, Done root => Done (pwd, root)
       | Fault f, _ | Done _, Fault f => Fault f
       end.
Lemma clone_dirs_run find_again flags p k :
  clone_dirs find_again flags p k = match dirs_of find_again flags p with Done d => Done (d, k) | Fault f => Fault f end.
Proof.
  unfold clone_dirs, dirs_of. destruct (has flags CLONE_FS); [done|].
  destruct (find_again (p_pwd p)); [|done]. by destruct (find_again (p_root p)).
Qed.

Lemma clone_run loose find_again pid flags p dirs k :
  kernel_ok loose k -> lookup pid k = Some p -> p_status p <> Zombie -> dirs_of find_again flags p = Done dirs ->
  exists new par parp k', clone find_again pid flags k = Done (new, k') /\ lookup new k = None /\
    par = (if has flags CLONE_PARENT then p_parent p else p_pid p) /\ lookup par k = Some parp /\ p_status parp <> Zombie /\
    (forall j, lookup j k' = vupd new (Some (cloned flags new p (clone_keys flags (next_key k + 1) p) dirs))
       (vupd par (Some (set_children (p_children parp ++ [new]) parp)) (view_of k)) j) /\
    fd_tables k' = (let t := <[next_key k := default_fds]> (fd_tables k) in
      if has flags CLONE_FILES then t else <[next_key k + 1 := default [] (t !! p_fd_table p)]> t) /\
    sig_tables k' = (let t := <[next_key k := default_sighandler_actions]> (sig_tables k) in
      if has flags CLONE_SIGHAND then t else <[next_key k + 1 := default [] (t !! p_sig_handlers p)]> t) /\
    next_key k' = next_key k + 2 /\ m_current k' = m_current k.
Proof.
  intros [T S Ky] Hp Zp Ed.
  destruct (create_run k) as (new & k1 & E1 & Hn & Bn & V1 & F1 & S1 & N1 & C1).
  assert (Hp1 : lookup pid k1 = Some p) by (rewrite V1, vupd_ne; [done|congruence]).
  unfold clone. rewrite (run_bind_done _ _ _ _ _ E1), (run_bind_done _ _ _ _ _ (deref_run pid k1 p Hp1)).
  rewrite (run_bind_done (clone_dirs find_again flags p) _ k1 dirs k1) by (by rewrite clone_dirs_run, Ed).
  unfold clone_tables. rewrite run_bind_bind, (run_bind_done get _ k1 k1 k1) by done. set (k2 := set_tables _ _ _ k1).
  rewrite run_bind_bind, (run_bind_done (put k2) _ k1 tt k2) by done. rewrite run_bind_ret, N1.
  set (par := if has flags CLONE_PARENT then p_parent p else p_pid p).
  assert (exists parp, lookup par k = Some parp /\ p_status parp <> Zombie) as (parp & Hpar & Zpar).
  { unfold par. destruct (has flags CLONE_PARENT).
    - destruct (t_parent _ _ T pid p Hp) as (x & Hx & Zx & _). by exists x.
    - exists p. rewrite (t_pid _ _ T pid p Hp). done. }
  assert (Npn : par <> new) by congruence.
  assert (Hn2 : lookup new k2 = Some (fresh_process new (next_key k))) by (change (lookup new k1 = Some (fresh_process new (next_key k))); by rewrite V1, vupd_eq).
  pose proof (lookup_Some_inv _ _ _ Hn2) as Bn2.
  rewrite (run_bind_done _ _ _ _ _ (update_run new _ k2 _ Hn2)). set (k3 := put_kernel new _ k2).
  assert (Hpar3 : lookup par k3 = Some parp).
  { unfold k3. rewrite (lookup_put new _ k2 par Bn2), vupd_ne by done. change (lookup par k1 = Some parp). by rewrite V1, vupd_ne. }
  pose proof (lookup_Some_inv _ _ _ Hpar3) as Bpar3.
  rewrite (run_bind_done _ _ _ _ _ (update_run par _ k3 _ Hpar3)). set (k4 := put_kernel par _ k3).
  assert (Hn4 : exists c, lookup new k4 = Some c /\ set_parent par c = cloned flags new p (clone_keys flags (next_key k + 1) p) dirs).
  { unfold k4. rewrite (lookup_put par _ k3 new Bpar3), vupd_ne by done. unfold view_of, k3.
    rewrite (lookup_put new _ k2 new Bn2), vupd_eq. eexists. split; done. }
  destruct Hn4 as (c & Hn4 & Ec). rewrite (run_bind_done _ _ _ _ _ (update_run new _ k4 _ Hn4)). rewrite Ec.
  pose proof (lookup_Some_inv _ _ _ Hn4) as Bn4.
  exists new, par, parp. eexists. split; [reflexivity|]. split_and!; try done.
  - intros j. rewrite (lookup_put new _ k4 j Bn4). unfold vupd at 1 2. destruct (Z.eqb_spec j new) as [|Nj]; [done|].
    unfold view_of, k4. rewrite (lookup_put par _ k3 j Bpar3). unfold vupd. destruct (j =? par); [done|].
    unfold view_of, k3. rewrite (lookup_put new _ k2 j Bn2), vupd_ne by done. change (lookup j k1 = lookup j k). by rewrite V1, vupd_ne.
  - rewrite <- F1, <- N1. reflexivity.
  - rewrite <- S1, <- N1. reflexivity.
  - change (next_key k1 + 1 = next_key k + 2). lia.
Qed.

Lemma clone_tables_old {A} (m : gmap Z A) n x (b : bool) y key : key < n ->
  (let t := <[n := x]> m in if b then t else <[n + 1 := y t]> t) !! key = m !! key.
Proof. intros H. cbn. destruct b; by rewrite !lookup_insert_ne by lia. Qed.

Lemma clone_done_dirs loose find_again pid flags p k new k' :
  kernel_ok loose k -> lookup pid k = Some p -> clone find_again pid flags k = Done (new, k') ->
  exists dirs, dirs_of find_again flags p = Done dirs.
Proof.
  intros K Hp E. destruct (create_run k) as (n & k1 & E1 & Hn & _ & V1 & _). unfold clone in E. rewrite (run_bind_done _ _ _ _ _ E1) in E.
  assert (Hp1 : lookup pid k1 = Some p) by (rewrite V1, vupd_ne; [done|congruence]).
  rewrite (run_bind_done _ _ _ _ _ (deref_run pid k1 p Hp1)) in E. apply bind_done in E as (d & k2 & E2 & _).
  rewrite clone_dirs_run in E2. destruct (dirs_of find_again flags p) as [d'|]; [by exists d'|done].
Qed.

Lemma clone_keeps loose find_again pid flags p k new k' :
  kernel_ok loose k -> lookup pid k = Some p -> p_status p <> Zombie -> clone find_again pid flags k = Done (new, k') ->
  kernel_ok loose k' /\ m_current k' = m_current k /\ forall j, process_ready j k = true -> process_ready j k' = true.
Proof.
  intros K Hp Zp E. destruct (clone_done_dirs loose find_again pid flags p k new k' K Hp E) as (dirs & Ed).
  destruct (clone_run loose find_again pid flags p dirs k K Hp Zp Ed) as (n & par & parp & x & E' & Hn & Epar & Hpar & Zpar & V & _ & Sg & N & C).
  rewrite E in E'. injection E' as <- <-. split; [|split; [done|]].
  2: { intros j. unfold process_ready. rewrite V. unfold vupd, view_of. destruct (Z.eqb_spec j new) as [-> |]; [by rewrite Hn|].
       destruct (Z.eqb_spec j par) as [-> |]; [by rewrite Hpar|done]. }
  destruct K as [T S Ky].
  destruct (Ky pid p Hp) as [_ Kp].
  assert (Old : forall key, key < next_key k -> sig_tables k' !! key = sig_tables k !! key).
  { intros key H. rewrite Sg. exact (clone_tables_old _ _ _ _ (fun t => default [] (t !! p_sig_handlers p)) key H). }
  split.
  - eapply tree_ext; [intros j; symmetry; apply V|]. by apply (tree_clone loose (view_of k) new par).
  - intros i q. rewrite V. unfold vupd, view_of. destruct (Z.eqb_spec i new) as [-> |]; [|destruct (Z.eqb_spec i par) as [-> |]].
    + intros [= <-]. destruct (S pid p Hp) as (t & Ht & Ok). exists t. split; [|done]. cbn.
      destruct (has flags CLONE_SIGHAND) eqn:Hs; [by rewrite Old|].
      rewrite Sg. cbn. rewrite lookup_insert_eq, lookup_insert_ne by lia. by rewrite Ht.
    + intros [= <-]. destruct (S par parp Hpar) as (t & Ht & Ok). exists t. rewrite Old; [done|]. by destruct (Ky par parp Hpar).
    + intros Hq. destruct (S i q Hq) as (t & Ht & Ok). exists t. rewrite Old; [done|]. by destruct (Ky i q Hq).
  - intros i q. rewrite V, N. unfold vupd, view_of. destruct (Z.eqb_spec i new) as [-> |]; [|destruct (Z.eqb_spec i par) as [-> |]].
    + intros [= <-]. cbn. destruct (Ky pid p Hp). destruct (has flags CLONE_FILES), (has flags CLONE_SIGHAND); lia.
    + intros [= <-]. destruct (Ky par parp Hpar). cbn. lia.
    + intros Hq. destruct (Ky i q Hq). lia.
Qed.

(** ** The invariant *)

Lemma kernel_ok_inherits loose k k' : family loose (view_of k') -> inherits k k' ->
  sig_tables k' = sig_tables k -> next_key k' = next_key k -> sigs_ok k -> keys_ok k -> kernel_ok loose k'.
Proof.
  intros T I Sg N S Ky. split; [done| |]; intros i p' H; destruct (I i p' H) as (p & Hp & Kp);
    destruct Kp as (_&_&_&_&_&_&_&Ef&Es).
  - rewrite Sg, Es. by apply (S i).
  - rewrite N, Ef, Es. by apply (Ky i).
Qed.
Lemma schedule_ok loose now k k' : kernel_ok loose k -> schedule now k = Done (tt, k') -> kernel_ok loose k'.
Proof.
  intros [T S Ky] E. destruct (schedule_keeps loose now k k' T E) as [T' I].
  destruct (quiet_schedule now k tt k' E) as (_ & Sg & _ & N). by apply (kernel_ok_inherits loose k).
Qed.

(** A signal that ends [p] is one it can be sent: [p] is alive, or its children are still its own. *)
Definition may_end (loose : Z -> Prop) (p : process) (k : kernel) : Prop :=
  p_status p <> Zombie \/ own_children loose p (view_of k).
(** The kernel is in order and its current process can run. *)
Definition running (loose : Z -> Prop) (k : kernel) : Prop := kernel_ok loose k /\ process_ready (m_current k) k = true.

Lemma tailed_ok loose now pid k k1 k' :
  keys_ok k -> process_ready (m_current k) k = true \/ pid = m_current k ->
  (when (pid =? m_current k1) (schedule now)) k1 = Done (tt, k') -> family loose (view_of k1) -> sigs_ok k1 -> tailed k k1 -> running loose k'.
Proof.
  intros Ky R E T1 S1 [Lf Rd _ Nx Cu].
  assert (K1 : kernel_ok loose k1).
  { split; [done|done|]. intros i q' H. destruct (Lf i q' H) as (q & Hq & -> & ->). rewrite Nx. by apply (Ky i). }
  destruct (Z.eqb_spec pid (m_current k1)) as [C|C]; cbn [when] in E.
  - split; [by eapply schedule_ok|by eapply schedule_ready].
  - injection E as <-. split; [done|]. rewrite Cu. apply Rd. destruct R; [done|congruence].
Qed.

Lemma kill_ok loose fuel now pid err p k k' :
  running loose k -> lookup pid k = Some p -> may_end loose p k -> kill (S fuel) now pid err k = Done (tt, k') -> running loose k'.
Proof.
  intros [[T S Ky] R] Hp Me E. destruct (decide (p_status p = Zombie)) as [Zp|Zp].
  - destruct Me as [?|Oc]; [done|].
    destruct (rekill_prefix loose fuel now pid err p k k' T Hp Zp Oc E) as (k3 & par & p0 & E3 & H0 & V3 & T3 & Pp & C3 & S3 & N3).
    assert (Lf : forall i q', lookup i k3 = Some q' -> exists q, lookup i k = Some q /\ same_tables q q' /\ p_status q' = p_status q).
    { intros i q'. rewrite V3. unfold vupd, view_of. destruct (Z.eqb_spec i 0) as [-> |]; [intros [= <-]; by exists p0|intros H; by exists q']. }
    assert (S3' : sigs_ok k3). { intros i q' H. destruct (Lf i q' H) as (q & Hq & [-> _] & _). rewrite S3. by apply (S i). }
    destruct (kill_tail_done loose fuel now pid err p par k3 k' T3 S3' Pp E3) as (k1 & E1 & T1 & S1 & Tl).
    apply (tailed_ok loose now pid k3 k1); try done.
    + intros i q' H. destruct (Lf i q' H) as (q & Hq & [-> ->] & _). rewrite N3. by apply (Ky i).
    + left. rewrite C3. unfold process_ready in R |- *. rewrite V3. unfold vupd, view_of.
      destruct (Z.eqb_spec (m_current k) 0) as [C0|]; [|done]. by rewrite C0, H0 in R.
  - assert (N0 : pid <> 0) by (intros ->; done).
    destruct (kill_prefix loose fuel now pid err p k T Hp Zp N0) as (k3 & par & E3 & V3 & T3 & Pp & C3 & _ & S3 & N3 & _).
    rewrite E3 in E.
    assert (Lf : forall i q', lookup i k3 = Some q' -> exists q, lookup i k = Some q /\ same_tables q q').
    { intros i q'. rewrite V3. intros H. destruct (orphaned_keeps _ _ _ _ _ Hp H) as (q & Hq & _ & _ & ? & ?). by exists q. }
    assert (S3' : sigs_ok k3). { intros i q' H. destruct (Lf i q' H) as (q & Hq & -> & _). rewrite S3. by apply (S i). }
    destruct (kill_tail_done loose fuel now pid err p par k3 k' T3 S3' Pp E) as (k1 & E1 & T1 & S1 & Tl).
    apply (tailed_ok loose now pid k3 k1); try done.
    + intros i q' H. destruct (Lf i q' H) as (q & Hq & -> & ->). rewrite N3. by apply (Ky i).
    + rewrite C3. destruct (decide (pid = m_current k)) as [|Nc]; [by right|left].
      destruct (ready_lookup _ _ R) as (q & Hq & Aq). unfold process_ready. rewrite V3.
      destruct (adopted_some (p_children p) (vupd pid (Some (set_status Zombie p)) (view_of k)) (m_current k) q) as [q' Hq'].
      { rewrite vupd_ne by congruence. done. }
      unfold orphaned. rewrite Hq'. destruct (adopted_keeps _ _ _ _ Hq') as (x & Hx & Es & _).
      rewrite vupd_ne in Hx by congruence. unfold view_of in Hx. apply bool_decide_eq_true. congruence.
Qed.

(** The signal [sig] ends the process [p]. *)
Definition ends (sig : Z) (p : process) (k : kernel) : bool :=
  let action := nth (Z.to_nat sig) (default [] (sig_tables k !! p_sig_handlers p)) 0 in
  (action =? SIG_ACTION_CORE) || (action =? SIG_ACTION_TERM).
Lemma raise_ok loose fuel now self pid signal p k k' :
  running loose k -> lookup pid k = Some p -> (ends signal p k = true -> may_end loose p k) ->
  raise (S fuel) now self pid signal k = Done (tt, k') -> running loose k'.
Proof.
  intros K Hp Me. pose proof (lookup_Some_inv _ _ _ Hp). unfold raise, raise_with.
  rewrite (run_bind_done _ _ _ _ _ (by_pid_run pid k ltac:(lia))), Hp, run_bind_gets.
  destruct (u32 signal <? _); [|done]. rewrite run_assert_true. unfold ends in Me. set (act := nth _ _ 0) in *. cbv zeta in Me. fold act in Me.
  destruct (act =? SIG_ACTION_IGN); [by intros [= <-]|].
  destruct ((act =? SIG_ACTION_CORE) || (act =? SIG_ACTION_TERM)); [apply kill_ok with p; auto|]. destruct (_ || _); [by intros [= <-]|].
  intros [= <-]. destruct K as [[] R]. by split.
Qed.

(** A change of one process that is not in its family, its liveness nor its tables. *)
Definition harmless (p p' : process) : Prop :=
  same_family p p' /\ (p_status p' <> Zombie <-> p_status p <> Zombie) /\
  p_sig_handlers p' = p_sig_handlers p /\ p_fd_table p' = p_fd_table p.
Lemma update_done i f k u k' : update i f k = Done (u, k') -> exists p, lookup i k = Some p /\ k' = put_kernel i (Some (f p)) k.
Proof.
  intros E. destruct (lookup i k) as [p|] eqn:Hp.
  - rewrite (update_run i f k p Hp) in E. injection E as <- <-. by exists p.
  - unfold update, deref, by_pid in E. destruct (0 <=? i); [|done].
    cbn [assert_] in E. rewrite !run_bind_bind, run_bind_ret, run_bind_gets, Hp in E. done.
Qed.
Lemma update_ok loose i f k u k' : (forall p, lookup i k = Some p -> harmless p (f p)) ->
  kernel_ok loose k -> update i f k = Done (u, k') -> kernel_ok loose k'.
Proof.
  intros F [T S Ky] E. destruct (update_done _ _ _ _ _ E) as (p & Hp & ->). pose proof (lookup_Some_inv _ _ _ Hp) as B.
  destruct (F p Hp) as (Fa & St & Es & Ef). split.
  - eapply tree_ext; [intros j; symmetry; by apply lookup_put|]. by apply tree_update with p.
  - intros j q. rewrite lookup_put by done. unfold vupd, view_of. destruct (Z.eqb_spec j i) as [-> |]; [|apply (S j)].
    intros [= <-]. rewrite Es. by apply (S i).
  - intros j q. rewrite lookup_put by done. unfold vupd, view_of. destruct (Z.eqb_spec j i) as [-> |]; [|apply (Ky j)].
    intros [= <-]. rewrite Es, Ef. by apply (Ky i).
Qed.

Lemma wait_for_ok loose now self pid addr p k k' :
  kernel_ok loose k -> lookup self k = Some p -> p_status p <> Zombie ->
  wait_for now self pid addr k = Done (tt, k') -> kernel_ok loose k'.
Proof.
  intros K Hs Zs E. unfold wait_for in E. apply bind_done in E as (o & k0 & E0 & E).
  assert (k0 = k) as ->. { unfold by_pid in E0. destruct (0 <=? pid); [|done]. by injection E0 as _ <-. }
  destruct o as [q|]; [|done].
  apply bind_done in E as ([] & k1 & E1 & E). apply bind_done in E as ([] & k2 & E2 & E). apply bind_done in E as ([] & k3 & E3 & E).
  assert (K1 : kernel_ok loose k1) by (by apply (update_ok loose pid (add_wait_entry (self, addr)) k tt)).
  assert (K2 : kernel_ok loose k2) by (by apply (update_ok loose self (set_waitstatus addr) k1 tt)).
  eapply schedule_ok; [|exact E]. apply (update_ok loose self (set_status ChildWait) k2 tt); [|done|done].
  intros x Hx. split_and!; try done.
  assert (p_status x = p_status p) as ->; [|done].
  destruct (update_done _ _ _ _ _ E1) as (y & Hy & ->). pose proof (lookup_Some_inv _ _ _ Hy) as By.
  destruct (update_done _ _ _ _ _ E2) as (z & Hz & ->). pose proof (lookup_Some_inv _ _ _ Hz) as Bz.
  rewrite (lookup_put _ _ _ _ Bz), vupd_eq in Hx. injection Hx as <-. cbn. rewrite (lookup_put _ _ _ _ By) in Hz.
  unfold vupd, view_of in Hz. destruct (Z.eqb_spec self pid) as [-> |]; [injection Hz as <-; cbn; congruence|congruence].
Qed.

Lemma deref_done i k p k' : deref i k = Done (p, k') -> lookup i k = Some p /\ k' = k.
Proof.
  unfold deref, by_pid. destruct (0 <=? i); [|done]. cbn [assert_].
  rewrite run_bind_bind, run_bind_ret, run_bind_gets. destruct (lookup i k); [|done]. by intros [= <- <-].
Qed.

Lemma set_action_ok loose num act k k' : 0 <= num -> (num = SIGCHLD -> 1 < act) ->
  kernel_ok loose k -> set_action num act k = Done (tt, k') -> kernel_ok loose k'.
Proof.
  intros Hn Ha [T S Ky] E. unfold set_action in E. rewrite run_bind_gets in E.
  apply bind_done in E as (p & k0 & E0 & E). apply deref_done in E0 as [Hp ->]. injection E as <-.
  split; [done| |done]. intros i q Hq. change (lookup i k = Some q) in Hq. cbn [sig_tables set_tables].
  destruct (decide (p_sig_handlers q = p_sig_handlers p)) as [-> |N].
  - rewrite lookup_insert_eq. eexists. split; [done|]. destruct (S _ _ Hp) as (t & -> & Lt & At).
    change (default [] (Some t)) with t. rewrite length_insert. split; [done|].
    destruct (decide (num = SIGCHLD)) as [-> |Nn].
    + rewrite nth_lookup, list_lookup_insert_eq by (rewrite Lt; vm_compute; lia). by apply Ha.
    + rewrite nth_lookup, list_lookup_insert_ne, <- nth_lookup; [done|]. unfold SIGCHLD in *. lia.
  - rewrite lookup_insert_ne by congruence. by apply (S i).
Qed.

Lemma sys_signal_ok loose chk num handler k r k' : 0 <= handler ->
  kernel_ok loose k -> sys_signal chk num handler k = Done (r, k') -> kernel_ok loose k'.
Proof.
  intros H0 K E. unfold sys_signal in E. destruct (_ || _ || _ || _) eqn:Bn; [by injection E as <- <-|].
  apply orb_false_iff in Bn as [[[Bn%Z.ltb_ge _]%orb_false_iff _]%orb_false_iff _].
  destruct (Z.eqb_spec handler 0); [|destruct (Z.eqb_spec handler 1); [|destruct chk; cbn [negb] in E; [|by injection E as <- <-]]];
    apply bind_done in E as ([] & k1 & E1 & [= <- <-]); (eapply set_action_ok; [..|exact K|exact E1]; [done|]); try lia; by intros ->.
Qed.
Lemma sys_sigaction_ok loose chk chkh num handler k r k' : 0 <= handler ->
  kernel_ok loose k -> sys_sigaction chk chkh num handler k = Done (r, k') -> kernel_ok loose k'.
Proof.
  intros H0 K E. unfold sys_sigaction in E. destruct (_ || _ || _ || _) eqn:Bn; [by injection E as <- <-|].
  apply orb_false_iff in Bn as [[[Bn%Z.ltb_ge _]%orb_false_iff _]%orb_false_iff _].
  destruct chk; cbn [negb] in E; [|by injection E as <- <-].
  destruct (Z.eqb_spec handler 0); [|destruct (Z.eqb_spec handler 1); [|destruct chkh; cbn [negb] in E; [|by injection E as <- <-]]];
    apply bind_done in E as ([] & k1 & E1 & [= <- <-]); (eapply set_action_ok; [..|exact K|exact E1]; [done|]); try lia; by intros ->.
Qed.

(** ** Processes made by [create] *)

Lemma tree_create loose v new c :
  family loose v -> v new = None -> p_pid c = new -> p_parent c = 0 -> p_status c <> Zombie -> p_children c = [] ->
  family (fun i => loose i \/ i = new) (vupd new (Some c) v).
Proof.
  intros [T1 T2 T3 T4 TN T5 TT T6] Hn Ec Pc Zc Cc.
  assert (N0 : new <> 0) by (destruct T2 as (? & ? & _); congruence).
  assert (L : forall j q, j <> new -> vupd new (Some c) v j = Some q -> v j = Some q) by (intros j q N; by rewrite vupd_ne).
  assert (G : forall j q, v j = Some q -> vupd new (Some c) v j = Some q) by (intros j q H; rewrite vupd_ne; congruence).
  split.
  - intros j q. destruct (decide (j = new)) as [-> |N]; [rewrite vupd_eq; congruence|]. intros H%L; [by apply T1|done].
  - destruct T2 as (p0 & H0 & ?). exists p0. split; [by apply G|done].
  - intros j q. destruct (decide (j = new)) as [-> |N].
    + rewrite vupd_eq. intros [= <-]. rewrite Pc. destruct T2 as (p0 & H0 & Z0 & _). exists p0.
      split_and!; [by apply G|done|]. right; left. split; [by right|done].
    + intros H%L; [|done]. destruct (T3 _ _ H) as (x & Hx & Zx & C). exists x. split_and!; [by apply G|done|]. tauto.
  - intros j q ch. destruct (decide (j = new)) as [-> |N].
    + rewrite vupd_eq. intros [= <-] _ Hch. rewrite Cc in Hch. by apply not_elem_of_nil in Hch.
    + intros H%L; [|done]. intros Zq Hch. destruct (T4 _ _ _ H Zq Hch) as (Nc & x & Hx & Px). split; [done|].
      exists x. split; [by apply G|done].
  - intros j q ch. destruct (decide (j = new)) as [-> |N].
    + rewrite vupd_eq. intros [= <-] Hch. rewrite Cc in Hch. by apply not_elem_of_nil in Hch.
    + intros H%L; [|done]. by apply (TN j).
  - intros j [Lj| ->]; [|exists c; by rewrite vupd_eq]. destruct (T5 j Lj) as (x & Hx & Zx). exists x. split; [by apply G|done].
  - intros j q ch. destruct (decide (j = new)) as [-> |N].
    + rewrite vupd_eq. intros [= <-] _ Hch. rewrite Cc in Hch. by apply not_elem_of_nil in Hch.
    + intros H%L; [|done]. intros Zq Hch [Lc| ->]; [by apply (TT j q ch)|].
      destruct (T4 j q new H Zq Hch) as (_ & x & Hx & _). congruence.
  - intros j q. destruct (decide (j = new)) as [-> |N]; [rewrite vupd_eq; intros [= <-]; congruence|].
    intros H%L; [|done]. by apply T6.
Qed.

Lemma create_ok loose k new k' : kernel_ok loose k -> create k = Done (new, k') ->
  kernel_ok (fun i => loose i \/ i = new) k' /\ lookup new k = None /\
  (exists c, lookup new k' = Some c /\ p_status c = Active /\ p_parent c = 0 /\ p_children c = []) /\
  (forall j, j <> new -> lookup j k' = lookup j k) /\ m_current k' = m_current k.
Proof.
  intros [T S Ky] E. destruct (create_run k) as (n & x & E' & Hn & _ & V & _ & Sg & N & C). rewrite E in E'. injection E' as <- <-.
  split; [split|].
  - eapply tree_ext; [intros j; symmetry; apply V|]. by apply tree_create.
  - intros i q. rewrite V. unfold vupd, view_of. destruct (Z.eqb_spec i new) as [-> |].
    + intros [= <-]. exists default_sighandler_actions. rewrite Sg. cbn [p_sig_handlers fresh_process].
      rewrite lookup_insert_eq. split; [done|apply default_sig_ok].
    + intros Hq. rewrite Sg. destruct (Ky i q Hq). rewrite lookup_insert_ne by lia. by apply (S i).
  - intros i q. rewrite V, N. unfold vupd, view_of. destruct (Z.eqb_spec i new) as [-> |].
    + intros [= <-]. cbn. lia.
    + intros Hq. destruct (Ky i q Hq). lia.
  - split_and!; [done| | |done].
    + rewrite V, vupd_eq. by eexists.
    + intros j Nj. by rewrite V, vupd_ne.
Qed.

Lemma kernel_ok_loose P Q k : (forall i, P i <-> Q i) -> kernel_ok P k -> kernel_ok Q k.
Proof.
  intros E [[T1 T2 T3 T4 TN T5 TT T6] S Ky]. split; [|done..]. split; try done.
  - intros i p H. destruct (T3 i p H) as (x & ? & ? & C). exists x. rewrite <- E. done.
  - intros i H%E. by apply T5.
  - intros i p c H Z C Lc%E. by apply (TT i p c).
Qed.

(** A new process linked under the current one, as the shell does. *)
Lemma spawn_ok loose p k new k' :
  kernel_ok loose k -> lookup (m_current k) k = Some p -> p_status p <> Zombie -> spawn k = Done (new, k') ->
  kernel_ok loose k' /\ m_current k' = m_current k /\ exists p', lookup (m_current k) k' = Some p' /\ p_status p' = p_status p.
Proof.
  intros [T S Ky] Hp Zp E. unfold spawn in E. apply bind_done in E as (n & k1 & E1 & E).
  destruct (create_run k) as (n' & x & E' & Hn & _ & V1 & _ & Sg & N & C). rewrite E1 in E'. injection E' as <- <-.
  rewrite run_bind_gets, C in E. set (cur := m_current k) in *. assert (Nc : cur <> n) by congruence.
  apply bind_done in E as ([] & k2 & E2 & E). apply bind_done in E as ([] & k3 & E3 & [= <- <-]).
  apply update_done in E2 as (c & Hc & ->). pose proof (lookup_Some_inv _ _ _ Hc) as B1.
  rewrite V1, vupd_eq in Hc. injection Hc as <-.
  apply update_done in E3 as (q & Hq & ->). pose proof (lookup_Some_inv _ _ _ Hq) as B2.
  rewrite (lookup_put _ _ _ _ B1), vupd_ne in Hq by done. unfold view_of in Hq. rewrite V1, vupd_ne in Hq by done.
  unfold view_of in Hq. rewrite Hp in Hq. injection Hq as <-.
  assert (V : forall j, lookup j (put_kernel cur (Some (set_children (p_children p ++ [n]) p))
      (put_kernel n (Some (set_parent cur (fresh_process n (next_key k)))) k1)) =
    vupd n (Some (set_parent cur (fresh_process n (next_key k)))) (vupd cur (Some (set_children (p_children p ++ [n]) p)) (view_of k)) j).
  { intros j. rewrite (lookup_put _ _ _ _ B2). destruct (decide (j = cur)) as [-> |].
    - rewrite vupd_eq, (vupd_ne n), vupd_eq by done. done.
    - rewrite (vupd_ne cur) by done. unfold view_of. rewrite (lookup_put _ _ _ _ B1). unfold vupd, view_of.
      destruct (Z.eqb_spec j n); [done|]. rewrite V1, vupd_ne by done. by rewrite (proj2 (Z.eqb_neq j cur)). }
  split; [split|split; [done|]].
  - eapply tree_ext; [intros j; symmetry; apply V|]. by apply (tree_clone loose (view_of k) n cur).
  - intros i q. rewrite V. unfold vupd, view_of. cbn [sig_tables put_kernel set_processes]. rewrite Sg.
    destruct (Z.eqb_spec i n) as [-> |]; [|destruct (Z.eqb_spec i cur) as [-> |]].
    + intros [= <-]. exists default_sighandler_actions. cbn. rewrite lookup_insert_eq. split; [done|apply default_sig_ok].
    + intros [= <-]. cbn. destruct (Ky cur p Hp). rewrite lookup_insert_ne by lia. by apply (S cur).
    + intros Hq. destruct (Ky i q Hq). rewrite lookup_insert_ne by lia. by apply (S i).
  - intros i q. rewrite V. unfold vupd, view_of. cbn [next_key put_kernel set_processes]. rewrite N.
    destruct (Z.eqb_spec i n) as [-> |]; [|destruct (Z.eqb_spec i cur) as [-> |]].
    + intros [= <-]. cbn. lia.
    + intros [= <-]. destruct (Ky cur p Hp). cbn. lia.
    + intros Hq. destruct (Ky i q Hq). lia.
  - rewrite V, vupd_ne, vupd_eq by done. by eexists.
Qed.

(** ** The system as a whole

    [reach L k]: the kernel gets to [k] from the boot, by any calls of the current process and any
    new tasks, with [L] the tasks of the kernel, which are made by [create] alone.  The one thing
    left out is a signal that ends a process for the second time when the pid of one of the
    children it left was given to a new process meanwhile: [second_kill_steals_child] shows what
    happens then. *)
Inductive reach : list Z -> kernel -> Prop :=
  | reach_boot m k : boot (empty_kernel m) = Done (tt, k) -> reach [1] k
  | reach_task L k new k' : reach L k -> create k = Done (new, k') -> reach (new :: L) k'
  | reach_run L k now addr k' : reach L k -> run_program now addr k = Done (tt, k') -> reach L k'
  | reach_clone L k find_again flags new k' : reach L k -> clone find_again (m_current k) flags k = Done (new, k') -> reach L k'
  | reach_exit L k fuel now errcode k' : reach L k -> sys_exit (S fuel) now errcode k = Done (tt, k') -> reach L k'
  | reach_kill L k fuel now pid sig r k' : reach L k ->
      (forall p, lookup pid k = Some p -> ends sig p k = true -> may_end (fun i => i ∈ L) p k) ->
      sys_kill (S fuel) now pid sig k = Done (r, k') -> reach L k'
  | reach_wait L k chk now pid addr r k' : reach L k -> sys_waitpid chk now pid addr k = Done (r, k') -> reach L k'
  | reach_sleep L k chk clock now sec nsec r k' : reach L k -> sys_nanosleep chk clock now sec nsec k = Done (r, k') -> reach L k'
  | reach_signal L k chk num handler r k' : reach L k -> 0 <= handler ->
      sys_signal chk num handler k = Done (r, k') -> reach L k'
  | reach_sigaction L k chk chkh num handler r k' : reach L k -> 0 <= handler ->
      sys_sigaction chk chkh num handler k = Done (r, k') -> reach L k'
  | reach_priority L k which who prio r k' : reach L k -> sys_setpriority which who prio k = Done (r, k') -> reach L k'
  | reach_yield L k now k' : reach L k -> sys_sched_yield now k = Done (tt, k') -> reach L k'.

Lemma boot_ok m k : boot (empty_kernel m) = Done (tt, k) -> running (fun i => i ∈ [1]) k.
Proof.
  unfold boot. intros E. apply bind_done in E as (a & k1 & E1 & E). apply bind_done in E as (b & k2 & E2 & [= <-]).
  assert (a = 0 /\ k1 = mkKernel [Some (fresh_process 0 0)] 1 0 {[0 := default_fds]} {[0 := default_sighandler_actions]} 1 m [] 0
     [ProcessCreated 0]) as [-> ->] by (by injection E1 as <- <-).
  assert (K1 : kernel_ok (fun _ => False) (mkKernel [Some (fresh_process 0 0)] 1 0 {[0 := default_fds]}
     {[0 := default_sighandler_actions]} 1 m [] 0 [ProcessCreated 0])).
  { assert (L : forall i p, lookup i (mkKernel [Some (fresh_process 0 0)] 1 0 {[0 := default_fds]}
     {[0 := default_sighandler_actions]} 1 m [] 0 [ProcessCreated 0]) = Some p -> i = 0 /\ p = fresh_process 0 0).
    { intros i p H. pose proof (lookup_Some_inv _ _ _ H). cbn in *. assert (i = 0) as -> by lia. by injection H as <-. }
    split; [split| |].
    - by intros i p [-> ->]%L.
    - by eexists.
    - intros i p [-> ->]%L. by eexists; split_and!; [..|left].
    - intros i p c [-> ->]%L _ Hc. by apply not_elem_of_nil in Hc.
    - intros i p c [-> ->]%L Hc. by apply not_elem_of_nil in Hc.
    - done.
    - by intros i p c _ _ _ [].
    - by intros i p [-> ->]%L.
    - intros i p [-> ->]%L. exists default_sighandler_actions. split; [done|apply default_sig_ok].
    - by intros i p [-> ->]%L. }
  destruct (create_ok _ _ _ _ K1 E2) as (K2 & _ & (c & Hc & Ac & _) & _). assert (b = 1) as -> by (by injection E2 as <- _).
  destruct (kernel_ok_loose (fun i => False \/ i = 1) (fun i => i ∈ [1]) k2) as [T S Ky]; [|done|split; [by split|]].
  - intros i. rewrite list_elem_of_singleton. tauto.
  - unfold process_ready. change (lookup _ (set_current 1 k2)) with (lookup 1 k2). rewrite Hc. by apply bool_decide_eq_true.
Qed.

(** A call that leaves the current process as ready as it was. *)
Lemma running_same loose k k' : kernel_ok loose k' -> m_current k' = m_current k ->
  (forall p, lookup (m_current k) k = Some p -> exists p', lookup (m_current k) k' = Some p' /\ p_status p' = p_status p) ->
  process_ready (m_current k) k = true -> running loose k'.
Proof.
  intros K C H R. split; [done|]. rewrite C. destruct (ready_lookup _ _ R) as (p & Hp & Ap). destruct (H p Hp) as (p' & Hp' & E).
  unfold process_ready. rewrite Hp'. apply bool_decide_eq_true. congruence.
Qed.
Lemma wait_for_running loose now self pid addr p k k' :
  kernel_ok loose k -> lookup self k = Some p -> p_status p <> Zombie -> wait_for now self pid addr k = Done (tt, k') -> running loose k'.
Proof.
  intros K Hp Zp E. split; [by eapply wait_for_ok|]. unfold wait_for in E. apply bind_done in E as (o & k0 & _ & E). destruct o; [|done].
  do 3 apply bind_done in E as ([] & ? & _ & E). by eapply schedule_ready.
Qed.

Lemma sys_waitpid_ok loose chk now pid addr r k k' : running loose k -> sys_waitpid chk now pid addr k = Done (r, k') -> running loose k'.
Proof.
  intros [K R] E. destruct (ready_lookup _ _ R) as (p & Hp & Ap). assert (Zp : p_status p <> Zombie) by congruence.
  unfold sys_waitpid in E. destruct chk; cbn [negb] in E; [|by injection E as _ <-]. destruct (pid =? -1).
  - rewrite run_bind_gets, (run_bind_done _ _ _ _ _ (deref_run _ k p Hp)) in E. destruct (p_children p) as [|c cs]; [by injection E as _ <-|].
    apply bind_done in E as ([] & k1 & E1 & [= _ <-]). by eapply wait_for_running.
  - destruct (0 <? pid) eqn:B; [|by injection E as _ <-]. rewrite run_bind_gets in E.
    rewrite (run_bind_done _ _ _ _ _ (deref_run _ k p Hp)) in E.
    rewrite (run_bind_done _ _ _ _ _ (by_pid_run pid k ltac:(lia))) in E. destruct (lookup pid k) as [q|]; [|by injection E as _ <-].
    destruct (_ || _); [by injection E as _ <-|]. apply bind_done in E as ([] & k1 & E1 & [= _ <-]). by eapply wait_for_running.
Qed.

Lemma sys_nanosleep_ok loose chk clock now sec nsec r k k' : running loose k ->
  sys_nanosleep chk clock now sec nsec k = Done (r, k') -> running loose k'.
Proof.
  intros [K R] E. destruct (ready_lookup _ _ R) as (p & Hp & Ap). unfold sys_nanosleep in E. destruct chk; cbn [negb] in E; [|by injection E as _ <-].
  destruct (_ || _ || _); [by injection E as _ <-|]. rewrite run_bind_gets in E.
  apply bind_done in E as ([] & k1 & E1 & E). rewrite run_bind_modify in E. apply bind_done in E as ([] & k2 & E2 & [= _ <-]).
  split; [|by eapply schedule_ready]. eapply schedule_ok; [|exact E2].
  assert (K1 : kernel_ok loose k1).
  { apply (update_ok loose _ _ _ _ _) with (2 := K) (3 := E1). intros x Hx. assert (x = p) as -> by congruence. split_and!; try done.
    rewrite Ap. done. }
  by destruct K1.
Qed.

Lemma sys_kill_ok loose fuel now pid sig r k k' : running loose k ->
  (forall p, lookup pid k = Some p -> ends sig p k = true -> may_end loose p k) ->
  sys_kill (S fuel) now pid sig k = Done (r, k') -> running loose k'.
Proof.
  intros K Me E. unfold sys_kill in E. apply bind_done in E as (o & k0 & E0 & E). unfold by_pid in E0. destruct (0 <=? pid); [|done].
  injection E0 as <- <-. destruct (lookup pid k) as [p|] eqn:Hp; [|by injection E as _ <-]. destruct (SIGRTMAX <=? sig); [by injection E as _ <-|].
  rewrite run_bind_gets in E. apply bind_done in E as ([] & k1 & E1 & [= _ <-]). eapply raise_ok; [exact K|exact Hp|by apply Me|exact E1].
Qed.
Lemma sys_exit_ok loose fuel now errcode k k' : running loose k -> sys_exit (S fuel) now errcode k = Done (tt, k') -> running loose k'.
Proof.
  intros K E. unfold sys_exit in E. rewrite run_bind_gets in E. destruct (ready_lookup _ _ (proj2 K)) as (p & Hp & Ap).
  apply (kill_ok loose fuel now (m_current k) (W_EXITCODE (u8 errcode) 0) p k k' K Hp); [left; congruence|exact E].
Qed.

Lemma sys_setpriority_ok loose which who prio r k k' : running loose k ->
  sys_setpriority which who prio k = Done (r, k') -> running loose k'.
Proof.
  intros [K R] E. unfold sys_setpriority in E. destruct (negb _); [by injection E as _ <-|].
  unfold by_pid in E. destruct (0 <=? who); [|done]. rewrite run_bind_bind, run_assert_true, run_bind_gets in E.
  destruct (lookup who k); [|by injection E as _ <-]. destruct (_ || _); [by injection E as _ <-|].
  apply bind_done in E as ([] & k1 & E1 & [= _ <-]). destruct (update_done _ _ _ _ _ E1) as (q & Hq & Ek).
  apply (running_same loose k); [by apply (update_ok loose who (set_priority prio) k tt)|by rewrite Ek| |done].
  rewrite Ek. intros x Hx. rewrite (lookup_put _ _ _ _ (lookup_Some_inv _ _ _ Hq)). unfold vupd, view_of.
  destruct (Z.eqb_spec (m_current k) who) as [C|]; [|by exists x]. eexists. split; [done|]. cbn. congruence.
Qed.
Lemma set_action_same num act k k' : set_action num act k = Done (tt, k') -> m_current k' = m_current k /\ forall i, lookup i k' = lookup i k.
Proof.
  unfold set_action. rewrite run_bind_gets. intros E. apply bind_done in E as (p & k0 & E0 & E). apply deref_done in E0 as [_ ->].
  by injection E as <-.
Qed.
Lemma sys_signal_running loose chk num handler k r k' : 0 <= handler -> running loose k -> sys_signal chk num handler k = Done (r, k') -> running loose k'.
Proof.
  intros H0 [K R] E. assert (m_current k' = m_current k /\ forall i, lookup i k' = lookup i k) as [C L].
  { unfold sys_signal in E. destruct (_ || _ || _ || _); [by injection E as _ <-|].
    destruct (handler =? 0); [|destruct (handler =? 1); [|destruct chk; cbn [negb] in E; [|by injection E as _ <-]]];
    apply bind_done in E as ([] & k1 & E1 & [= _ <-]); by eapply set_action_same. }
  split; [by eapply sys_signal_ok|]. unfold process_ready in *. by rewrite C, L.
Qed.
Lemma sys_sigaction_running loose chk chkh num handler k r k' : 0 <= handler -> running loose k ->
  sys_sigaction chk chkh num handler k = Done (r, k') -> running loose k'.
Proof.
  intros H0 [K R] E. assert (m_current k' = m_current k /\ forall i, lookup i k' = lookup i k) as [C L].
  { unfold sys_sigaction in E. destruct (_ || _ || _ || _); [by injection E as _ <-|]. destruct chk; cbn [negb] in E; [|by injection E as _ <-].
    destruct (handler =? 0); [|destruct (handler =? 1); [|destruct chkh; cbn [negb] in E; [|by injection E as _ <-]]];
    apply bind_done in E as ([] & k1 & E1 & [= _ <-]); by eapply set_action_same. }
  split; [by eapply sys_sigaction_ok|]. unfold process_ready in *. by rewrite C, L.
Qed.

Lemma reach_running L k : reach L k -> running (fun i => i ∈ L) k.
Proof.
  induction 1 as [m k E|L k new k' _ IH E|L k now addr k' _ IH E|L k fa flags new k' _ IH E
    |L k fuel now errcode k' _ IH E|L k fuel now pid sig r k' _ IH Me E|L k chk now pid addr r k' _ IH E
    |L k chk clock now sec nsec r k' _ IH E|L k chk num handler r k' _ IH H0 E|L k chk chkh num handler r k' _ IH H0 E|L k which who prio r k' _ IH E|L k now k' _ IH E].
  - by eapply boot_ok.
  - destruct IH as [IH R]. destruct (create_ok _ _ _ _ IH E) as (K & N & _ & O & C). apply (running_same _ k); [|done| |done].
    + eapply kernel_ok_loose; [|exact K]. intros i. rewrite elem_of_cons. tauto.
    + intros p Hp. rewrite O; [by exists p|congruence].
  - destruct IH as [IH R]. destruct (ready_lookup _ _ R) as (p & Hp & Ap). unfold run_program in E.
    apply bind_done in E as (new & k1 & E1 & E). rewrite run_bind_gets in E.
    destruct (spawn_ok _ p k new k1 IH Hp ltac:(congruence) E1) as (K1 & C1 & p' & Hp' & Zp'). rewrite C1 in E.
    eapply wait_for_running; [exact K1|exact Hp'|congruence|exact E].
  - destruct IH as [IH R]. destruct (ready_lookup _ _ R) as (p & Hp & Ap).
    destruct (clone_keeps _ fa (m_current k) flags p k new k' IH Hp ltac:(congruence) E) as (K & C & Rd). split; [done|]. rewrite C. by apply Rd.
  - by eapply sys_exit_ok.
  - by eapply sys_kill_ok.
  - by eapply sys_waitpid_ok.
  - by eapply sys_nanosleep_ok.
  - by eapply sys_signal_running.
  - by eapply sys_sigaction_running.
  - by eapply sys_setpriority_ok.
  - destruct IH as [IH R]. split; [by eapply schedule_ok|by eapply schedule_ready].
Qed.
Lemma reach_ok L k : reach L k -> kernel_ok (fun i => i ∈ L) k.
Proof. intros R. by apply reach_running. Qed.
End ProcessInv.
