(* ===== verification/ProcessSpec.v ===== *)
(** * ProcessSpec: what the process table, the scheduler and the calls on processes guarantee *)
From stdpp Require Import base list gmap.
From Stdlib Require Import ZArith Lia.
From S2P Require Import Prelude Mem32 DeltaQueue Errno Process ProcessProofs ProcessKill ProcessInv.
Import Errno Process ProcessProofs ProcessKill ProcessInv.

Module ProcessSpec.

(** ** A run of the system *)

Definition state_after {A} (m : M kernel A) (k : kernel) : kernel :=
  match m k with Done (_, k') => k' | Fault _ => k end.
Definition value_of {A} (m : M kernel A) (k : kernel) : option A :=
  match m k with Done (a, _) => Some a | Fault _ => None end.
Lemma run_eq {A} (m : M kernel A) k a : value_of m k = Some a -> m k = Done (a, state_after m k).
Proof. unfold value_of, state_after. destruct (m k) as [[b k']|]; [|done]. by intros [= ->]. Qed.

(** The nodes are found again where they were. *)
Definition found (n : Z) : outcome Z := Done n.

(** Process 1 clones process 2 and waits for it. *)
Definition booted : kernel := Eval vm_compute in state_after boot (empty_kernel ∅).
Definition two_cloned : kernel := Eval vm_compute in state_after (clone found 1 0) booted.
Definition two_runs : kernel := Eval vm_compute in state_after (sys_waitpid true 0 2 4096) two_cloned.
(** Process 2 clones process 3 and sleeps. *)
Definition three_cloned : kernel := Eval vm_compute in state_after (clone found 2 0) two_runs.
Definition two_sleeps : kernel := Eval vm_compute in state_after (sys_nanosleep true 1 0 1 0) three_cloned.
(** Process 2 kills process 1, a task of the kernel. *)
Definition task_killed : kernel := Eval vm_compute in state_after (sys_kill 5 0 1 SIGKILL) two_runs.

Lemma reach_booted : reach [1] booted.
Proof. refine (reach_boot ∅ booted _). vm_compute. reflexivity. Defined.
Lemma reach_two_cloned : reach [1] two_cloned.
Proof. refine (reach_clone [1] booted found 0 2 two_cloned reach_booted _). vm_compute. reflexivity. Defined.
Lemma reach_two_runs : reach [1] two_runs.
Proof. refine (reach_wait [1] two_cloned true 0 2 4096 None two_runs reach_two_cloned _). vm_compute. reflexivity. Defined.
Lemma reach_two_sleeps : reach [1] two_sleeps.
Proof.
  refine (reach_sleep [1] three_cloned true 1 0 1 0 0 two_sleeps _ _); [|vm_compute; reflexivity].
  refine (reach_clone [1] two_runs found 0 3 three_cloned reach_two_runs _). vm_compute. reflexivity.
Defined.
Lemma reach_task_killed : reach [1] task_killed.
Proof.
  refine (reach_kill [1] two_runs 4 0 1 SIGKILL 0 task_killed reach_two_runs _ _); [|vm_compute; reflexivity].
  intros p Hp _. left. assert (E : p_status <$> lookup 1 two_runs = Some ChildWait) by (vm_compute; reflexivity).
  rewrite Hp in E. injection E as ->. discriminate.
Defined.

Definition proc (pid : Z) (k : kernel) : process := default (fresh_process 0 0) (lookup pid k).
Ltac run := vm_compute; reflexivity.

(** ** The invariant *)


(** Process 1 makes process 2, which makes process 3, kills it and ends: process 3 is collected, and process 1
    clones a new process 3. *)
Definition yielded : kernel := Eval vm_compute in state_after (sys_sched_yield 0) two_cloned.
Definition three_made : kernel := Eval vm_compute in state_after (clone found 2 0) yielded.
Definition three_killed : kernel := Eval vm_compute in state_after (sys_kill 5 0 3 SIGKILL) three_made.
Definition two_exited : kernel := Eval vm_compute in state_after (sys_exit 5 0 0) three_killed.
Definition pid_reused : kernel := Eval vm_compute in state_after (clone found 1 0) two_exited.
Lemma reach_pid_reused : reach [1] pid_reused.
Proof.
  refine (reach_clone [1] two_exited found 0 3 pid_reused _ _); [|vm_compute; reflexivity].
  refine (reach_exit [1] three_killed 4 0 0 two_exited _ _); [|vm_compute; reflexivity].
  refine (reach_kill [1] three_made 4 0 3 SIGKILL 0 three_killed _ _ _); [| |vm_compute; reflexivity].
  - refine (reach_clone [1] yielded found 0 3 three_made _ _); [|vm_compute; reflexivity].
    refine (reach_yield [1] two_cloned 0 yielded reach_two_cloned _). vm_compute. reflexivity.
  - intros p Hp _. left. assert (E : p_status <$> lookup 3 three_made = Some Active) by run. rewrite Hp in E. injection E as ->. discriminate.
Qed.
(** A process that has ended keeps its list of children until it is collected, and [sys_kill] does not look
    whether its target has ended: the second signal makes the new process 3 a child of process 0, while it
    stays in the list of process 1, its parent. *)
Theorem second_kill_steals_child :
  exists k k', reach [1] k /\ p_status (proc 2 k) = Zombie /\ p_parent (proc 3 k) = 1 /\ 3 ∈ p_children (proc 1 k) /\
    sys_kill 5 0 2 SIGKILL k = Done (0, k') /\
    p_parent (proc 3 k') = 0 /\ 3 ∈ p_children (proc 1 k') /\ p_status (proc 1 k') = Active.
Proof.
  exists pid_reused, (state_after (sys_kill 5 0 2 SIGKILL) pid_reused). split; [exact reach_pid_reused|].
  assert (E1 : p_children (proc 1 pid_reused) = [2; 3]) by run.
  assert (E2 : p_children (proc 1 (state_after (sys_kill 5 0 2 SIGKILL) pid_reused)) = [2; 3]) by run.
  rewrite E1, E2. split_and!; try run; try (right; left); try (by apply run_eq; run).
Qed.

(** ** The scheduler *)

(** C5: while no task of the kernel has ended and every sleeper waits, [schedule] returns, on a process that is ready:
    exactly the first ready one after the current process in the cyclic order of pids or, when that is the idle
    process 0, the first one after it, so that process 0 runs only when nothing else is ready.  Zombies are gone, live
    processes keep all but their children and their status, which changes for sleepers that wake up. *)
Theorem schedule_spec loose now k :
  kernel_ok loose k -> tasks_live loose (view_of k) -> sleepers_ok k -> (exists j, process_ready j k = true) ->
  exists k', schedule now k = Done (tt, k') /\ kernel_ok loose k' /\
    process_ready (m_current k') k' = true /\
    (exists first, next_after (m_current k) first k' /\
       (if decide (first = 0) then next_after 0 (m_current k') k' else m_current k' = first)) /\
    (m_current k' = 0 -> forall j, process_ready j k' = true -> j = 0) /\
    (forall i p, lookup i k' = Some p -> p_status p = Zombie -> i = m_current k) /\
    (forall i p, lookup i k = Some p -> p_status p <> Zombie ->
       exists p', lookup i k' = Some p' /\ kept p p' /\
         (p_status p' = p_status p \/ ((p_status p = IOWait \/ p_status p = Sleeping) /\ p_status p' = Active))).
Proof.
  intros K TL S R. destruct (schedule_run loose now k (ok_tree _ _ K) TL S R) as (k' & E & T & H1 & H2 & H3 & H4 & H5 & _).
  exists k'. split_and!; try done. by eapply schedule_ok.
Qed.

Lemma two_sleeps_sleepers : sleepers_ok two_sleeps.
Proof.
  assert (E : (sleep_queue two_sleeps).*1 = [2]) by run. split; rewrite E.
  - apply NoDup_singleton.
  - intros i [<-|[]]. exists (proc 2 two_sleeps). split; [run|right; run].
Defined.
Lemma two_sleeps_tasks : tasks_live (fun i => i ∈ [1]) (view_of two_sleeps).
Proof.
  intros i ->%list_elem_of_singleton. exists (proc 1 two_sleeps). split; [run|].
  assert (Z : p_status (proc 1 two_sleeps) = ChildWait) by run. rewrite Z. discriminate.
Defined.
Lemma two_runs_tasks : tasks_live (fun i => i ∈ [1]) (view_of two_runs).
Proof.
  intros i ->%list_elem_of_singleton. exists (proc 1 two_runs). split; [run|].
  assert (Z : p_status (proc 1 two_runs) = ChildWait) by run. rewrite Z. discriminate.
Defined.
Lemma schedule_spec_witness : exists k', schedule 5 two_sleeps = Done (tt, k') /\ process_ready (m_current k') k' = true.
Proof.
  destruct (schedule_spec (fun i => i ∈ [1]) 5 two_sleeps) as (k' & E & _ & R & _).
  - exact (reach_ok _ _ reach_two_sleeps).
  - exact two_sleeps_tasks.
  - exact two_sleeps_sleepers.
  - exists 3. run.
  - exact (ex_intro _ k' (conj E R)).
Defined.

(** ** [kill], [exit] and [clone] *)

Lemma ended_tasks loose pid err p k k' : ended pid err p k k' -> ~ loose pid -> tasks_live loose (view_of k) -> tasks_live loose (view_of k').
Proof.
  intros E Lp TL i Li. destruct (TL i Li) as (q & Hq & Zq). unfold view_of in Hq.
  destruct (ended_other _ _ _ _ _ i q E) as (q' & Hq' & _ & _ & St & _); [by intros ->|done|].
  exists q'. split; [done|]. rewrite St. by case_decide.
Qed.

(** C11: Ending a process other than the current one: it becomes a zombie, its children become children of
    process 0, and every process that waits for it is ready again and finds its pid and its
    status. *)
Theorem kill_spec loose fuel now pid err p k :
  tree_ok loose (view_of k) -> sigs_ok k -> lookup pid k = Some p -> p_status p <> Zombie -> pid <> 0 -> ~ loose pid ->
  waiters_ok (view_of k) pid p -> pid <> m_current k -> 0 <= err < 2 ^ 32 -> words_apart k (p_wait_entries p).*1 ->
  exists k', kill (S fuel) now pid err k = Done (tt, k') /\ tree_ok loose (view_of k') /\ sigs_ok k' /\
    m_current k' = m_current k /\ lookup pid k' = Some (set_status Zombie p) /\
    (forall c, c ∈ p_children p -> exists q, lookup c k' = Some q /\ p_parent q = 0) /\
    notified pid err p k k'.
Proof.
  intros [T TL] S Hp Zp N0 Lp W Nc B A.
  destruct (kill_run loose fuel now pid err p k T S Hp Zp N0 W) as (k' & E & En & T' & S').
  pose proof (not_own_child _ _ _ _ T Hp Zp N0) as No.
  exists k'. split_and!; try done.
  - rewrite E, (e_current _ _ _ _ _ En), (proj2 (Z.eqb_neq pid (m_current k))) by done. done.
  - split; [done|]. by eapply ended_tasks.
  - apply (e_current _ _ _ _ _ En).
  - apply (ended_self _ err p k); try done. intros Hw. by destruct (proj2 W pid Hw).
  - intros c Hc. destruct (t_child _ _ T pid p c Hp Zp Hc) as (Ncz & q & Hq & _).
    destruct (ended_other _ _ _ _ _ c q En ltac:(congruence) Hq) as (q' & H' & P' & _). exists q'.
    rewrite decide_True in P' by done. done.
  - by apply ended_notified.
Qed.

Lemma kill_spec_witness : exists k', kill 1 0 2 9 two_sleeps = Done (tt, k') /\ notified 2 9 (proc 2 two_sleeps) two_sleeps k'.
Proof.
  assert (E : p_wait_entries (proc 2 two_sleeps) = [(1, 4096)]) by run.
  destruct (kill_spec (fun i => i ∈ [1]) 0 0 2 9 (proc 2 two_sleeps) two_sleeps) as (k' & R & _ & _ & _ & _ & _ & N).
  - split; [exact (ok_tree _ _ (reach_ok _ _ reach_two_sleeps))|exact two_sleeps_tasks].
  - exact (ok_sigs _ _ (reach_ok _ _ reach_two_sleeps)).
  - run.
  - assert (Z : p_status (proc 2 two_sleeps) = Sleeping) by run. rewrite Z. discriminate.
  - discriminate.
  - intros H%list_elem_of_singleton. discriminate.
  - split; rewrite E; [apply NoDup_singleton|]. intros w ->%list_elem_of_singleton. split; [discriminate|].
    exists (proc 1 two_sleeps). split; run.
  - assert (C : m_current two_sleeps = 3) by run. rewrite C. discriminate.
  - lia.
  - rewrite E. intros x y ->%list_elem_of_singleton ->%list_elem_of_singleton. by left.
  - exact (ex_intro _ k' (conj R N)).
Defined.

(** C12: [sys_exit]: the caller becomes a zombie and another process runs; who waited for the
    caller finds its pid and [__W_EXITCODE(errcode, 0)]. *)
Theorem exit_spec loose fuel now errcode p k :
  let pid := m_current k in
  tree_ok loose (view_of k) -> sigs_ok k -> sleepers_ok k -> lookup pid k = Some p -> p_status p = Active ->
  pid <> 0 -> ~ loose pid -> waiters_ok (view_of k) pid p -> words_apart k (p_wait_entries p).*1 ->
  (exists j, process_ready j k = true /\ j <> pid) ->
  exists k', sys_exit (S fuel) now errcode k = Done (tt, k') /\ tree_ok loose (view_of k') /\
    m_current k' <> pid /\ process_ready (m_current k') k' = true /\
    (forall q, lookup pid k' = Some q -> p_status q = Zombie) /\
    notified pid (W_EXITCODE (u8 errcode) 0) p k k'.
Proof.
  intros pid [T TL] S Sl Hp Ap N0 Lp W A (j & Rj & Nj). unfold sys_exit. rewrite run_bind_gets. fold pid.
  set (err := W_EXITCODE (u8 errcode) 0).
  assert (B : 0 <= err < 2 ^ 32).
  { unfold err, W_EXITCODE. rewrite Z.lor_0_r, Z.shiftl_mul_pow2 by lia. pose proof (uwrap_range 8 errcode ltac:(lia)). lia. }
  destruct (kill_run loose fuel now pid err p k T S Hp ltac:(congruence) N0 W) as (k1 & E & En & T1 & S1).
  rewrite (e_current _ _ _ _ _ En), Z.eqb_refl in E. cbn [when] in E.
  pose proof (ended_notified _ _ _ _ _ En W B A) as No.
  assert (Self : lookup pid k1 = Some (set_status Zombie p)).
  { apply (ended_self _ err p k); try done; [by apply (not_own_child _ _ _ _ T Hp ltac:(congruence))|].
    intros Hw. by destruct (proj2 W pid Hw). }
  destruct (schedule_run loose now k1) as (k' & E' & T' & R' & _ & _ & _ & P' & Z'); [done|by eapply ended_tasks|by eapply ended_sleepers| |].
  { exists j. destruct (ready_lookup j k Rj) as (q & Hq & Aq). unfold process_ready.
    destruct (ended_other _ _ _ _ _ j q En Nj Hq) as (q' & -> & _ & _ & St & _). apply bool_decide_eq_true.
    rewrite St. by case_decide. }
  destruct (quiet_schedule now _ _ _ E') as (_ & _ & Ph & _).
  assert (ZZ : forall q, lookup pid k' = Some q -> p_status q = Zombie).
  { intros q Hq. by apply (Z' pid (set_status Zombie p) q). }
  exists k'. rewrite E. split_and!; try done.
  - split; [done|]. intros i Li. destruct (ended_tasks loose pid err p k k1 En Lp TL i Li) as (q & Hq & Zq).
    destruct (P' i q Hq Zq) as (q' & Hq' & _ & St). exists q'. split; [done|]. destruct St as [-> |[_ ->]]; done.
  - intros C. destruct (ready_lookup _ _ R') as (q & Hq & Aq). rewrite C in Hq. apply ZZ in Hq. congruence.
  - intros w Hw. destruct (No w Hw) as (q & Hq & Aq & Wq & L). destruct (P' w q Hq ltac:(congruence)) as (q' & Hq' & K & St).
    exists q'. rewrite Ph. split_and!; try done; [|unfold kept in K; destruct K as (?&?&?&?&?&?&?&?); congruence].
    destruct St as [-> |[_ ?]]; done.
Qed.
Lemma exit_spec_witness : exists k', sys_exit 1 0 7 two_runs = Done (tt, k') /\ notified 2 (7 * 256) (proc 2 two_runs) two_runs k'.
Proof.
  assert (E : p_wait_entries (proc 2 two_runs) = [(1, 4096)]) by run.
  assert (C : m_current two_runs = 2) by run.
  destruct (exit_spec (fun i => i ∈ [1]) 0 0 7 (proc 2 two_runs) two_runs) as (k' & R & _ & _ & _ & _ & N).
  - split; [exact (ok_tree _ _ (reach_ok _ _ reach_two_runs))|exact two_runs_tasks].
  - exact (ok_sigs _ _ (reach_ok _ _ reach_two_runs)).
  - assert (Q : (sleep_queue two_runs).*1 = []) by run. split; rewrite Q; [constructor|]. intros i [].
  - run.
  - run.
  - rewrite C. discriminate.
  - rewrite C. intros H%list_elem_of_singleton. discriminate.
  - split; rewrite E; [apply NoDup_singleton|]. intros w ->%list_elem_of_singleton. rewrite C. split; [discriminate|].
    exists (proc 1 two_runs). split; run.
  - rewrite E. intros x y ->%list_elem_of_singleton ->%list_elem_of_singleton. by left.
  - exists 0. rewrite C. split; [run|discriminate].
  - rewrite C in N. exact (ex_intro _ k' (conj R N)).
Defined.

(** C13: [clone] of a live process returns a process that was not there, a child of the caller (of
    the caller's parent with [CLONE_PARENT]), in the caller's thread group only with
    [CLONE_THREAD]; it sees the caller's open files, in the same table with [CLONE_FILES] and
    in a table of its own without it.  Its working directory and its root are the caller's nodes with [CLONE_FS], and
    without it the nodes [vfs::find] gives for their paths; [find_again] stands for it, and must find them. *)
Theorem clone_spec loose find_again pid flags p dirs k :
  kernel_ok loose k -> lookup pid k = Some p -> p_status p <> Zombie -> dirs_of find_again flags p = Done dirs ->
  exists new k' c, clone find_again pid flags k = Done (new, k') /\ lookup new k = None /\ lookup new k' = Some c /\
    p_pid c = new /\ p_status c = Active /\ p_uid c = p_uid p /\ p_gid c = p_gid p /\ p_priority c = p_priority p /\
    p_tgid c = (if has flags CLONE_THREAD then pid else new) /\
    p_parent c = (if has flags CLONE_PARENT then p_parent p else pid) /\
    (exists par, lookup (p_parent c) k' = Some par /\ new ∈ p_children par) /\
    fds (p_fd_table c) k' = fds (p_fd_table p) k /\
    (if has flags CLONE_FILES then p_fd_table c = p_fd_table p
     else forall j q, lookup j k' = Some q -> p_fd_table q = p_fd_table c -> j = new) /\
    (if has flags CLONE_FS then p_pwd c = p_pwd p /\ p_root c = p_root p
     else find_again (p_pwd p) = Done (p_pwd c) /\ find_again (p_root p) = Done (p_root c)) /\
    (forall j q, lookup j k = Some q -> j <> p_parent c -> lookup j k' = Some q).
Proof.
  intros K Hp Zp Ed. destruct (clone_run loose find_again pid flags p dirs k K Hp Zp Ed) as (new & par & parp & k' & E & Hn & Epar & Hpar & Zpar & V & Fd & Sg & N & _).
  destruct K as [T S Ky]. pose proof (t_pid _ _ T pid p Hp) as Pp. rewrite Pp in Epar.
  assert (Nn : par <> new) by congruence.
  exists new, k', (cloned flags new p (clone_keys flags (next_key k + 1) p) dirs).
  assert (Ec : p_parent (cloned flags new p (clone_keys flags (next_key k + 1) p) dirs) = par) by (cbn; by rewrite Pp, Epar).
  destruct (Ky pid p Hp) as [Kf _].
  split_and!; try done.
  - by rewrite V, vupd_eq.
  - cbn. by rewrite Pp.
  - by rewrite Ec.
  - rewrite Ec. eexists. rewrite V, vupd_ne, vupd_eq by done. split; [done|]. cbn. apply elem_of_app. right.
    by apply list_elem_of_singleton.
  - unfold fds. rewrite Fd. cbn. destruct (has flags CLONE_FILES); [by rewrite lookup_insert_ne by lia|].
    rewrite lookup_insert_eq, lookup_insert_ne by lia. done.
  - cbn. destruct (has flags CLONE_FILES); [done|]. intros j q. rewrite V. unfold vupd, view_of.
    destruct (Z.eqb_spec j new); [done|]. destruct (Z.eqb_spec j par) as [-> |].
    + intros [= <-]. destruct (Ky par parp Hpar). cbn. lia.
    + intros Hq. destruct (Ky j q Hq). lia.
  - unfold dirs_of in Ed. destruct (has flags CLONE_FS); [by injection Ed as <-|].
    destruct (find_again (p_pwd p)); [|done]. destruct (find_again (p_root p)); [|done]. by injection Ed as <-.
  - intros j q Hq Nj. rewrite Ec in Nj. rewrite V, !vupd_ne; [done|done|congruence].
Qed.
Lemma clone_spec_witness : exists k' c, clone found 2 CLONE_FILES two_runs = Done (3, k') /\ p_fd_table c = p_fd_table (proc 2 two_runs) /\
  lookup 3 k' = Some c.
Proof.
  destruct (clone_spec (fun i => i ∈ [1]) found 2 CLONE_FILES (proc 2 two_runs) (vfs_root, vfs_root) two_runs) as (new & k' & c & R & _ & C & _ & _ & _ & _ & _ & _ & _ & _ & _ & F & _).
  - exact (reach_ok _ _ reach_two_runs).
  - run.
  - assert (Z : p_status (proc 2 two_runs) = Active) by run. rewrite Z. discriminate.
  - run.
  - assert (new = 3) as ->.
    { assert (V : value_of (clone found 2 CLONE_FILES) two_runs = Some 3) by run. unfold value_of in V. rewrite R in V. congruence. }
    exact (ex_intro _ k' (ex_intro _ c (conj R (conj F C)))).
Defined.

(** ** Errors *)

(** A sleeping process that is killed stays in the sleep queue; when its time is up, and it
    was collected meanwhile, the scheduler fails the assertion that it exists. *)
Theorem killed_sleeper_asserts loose fuel now err pid p d rest k k1 :
  kernel_ok loose k -> tasks_live loose (view_of k) -> lookup pid k = Some p -> p_status p = Sleeping -> ~ loose pid -> pid <> m_current k ->
  sleep_queue k = (pid, d) :: rest -> 0 <= d <= u64 (now - elapsed_ticks k) ->
  kill (S fuel) now pid err k = Done (tt, k1) -> schedule now k1 = Fault AssertFailed.
Proof.
  intros [T S Ky] TL Hp Sp Lp Nc Q Bd E. assert (Zp : p_status p <> Zombie) by congruence.
  assert (N0 : pid <> 0) by (intros ->; done).
  pose proof (kill_done_waiters loose fuel now pid err p k k1 T Hp Zp N0 E) as W.
  destruct (kill_run loose fuel now pid err p k T S Hp Zp N0 W) as (x & Ex & En & T1 & _).
  rewrite E, (e_current _ _ _ _ _ En), (proj2 (Z.eqb_neq pid (m_current k))) in Ex by done. injection Ex as <-.
  assert (Self : lookup pid k1 = Some (set_status Zombie p)).
  { apply (ended_self _ err p k); try done; [by apply (not_own_child loose (view_of k))|]. intros Hw. by destruct (proj2 W pid Hw). }
  unfold schedule. destruct (delete_zombies_spec loose k1 T1 (ended_tasks loose pid err p k k1 En Lp TL)) as (k2 & E2 & _ & C2 & Z2). rewrite (run_bind_done _ _ _ _ _ E2).
  assert (Gone : lookup pid k2 = None).
  { destruct (lookup pid k2) as [q|] eqn:Hq; [|done]. destruct (c_left _ _ C2 _ _ Hq) as (y & Hy & Ey). rewrite Self in Hy.
    injection Hy as <-. specialize (Z2 pid q Hq ltac:(by rewrite Ey)). rewrite (e_current _ _ _ _ _ En) in Z2. done. }
  destruct (c_rest _ _ C2) as (_ & _ & _ & _ & Qs & Es & _). pose proof (lookup_Some_inv _ _ _ Hp).
  apply run_bind_fault. unfold update_sleep_queue. rewrite (run_bind_done get _ k2 k2 k2) by done.
  rewrite Qs, (e_sleep _ _ _ _ _ En), Q, Es, (e_ticks _ _ _ _ _ En). cbn [DeltaQueue.decrease].
  rewrite (proj2 (Z.leb_le d _)) by lia. destruct (DeltaQueue.decrease rest _) as [po re].
  rewrite (run_bind_done _ _ _ tt (set_sleep re now k2)) by done. cbn [for_each]. apply run_bind_fault.
  unfold wake_sleeper. rewrite (run_bind_done _ _ _ _ _ (by_pid_run pid (set_sleep re now k2) ltac:(lia))).
  change (lookup pid (set_sleep re now k2)) with (lookup pid k2). by rewrite Gone.
Qed.
Lemma killed_sleeper_asserts_witness :
  schedule 1000000 (state_after (kill 1 1000000 2 9) two_sleeps) = Fault AssertFailed.
Proof.
  apply (killed_sleeper_asserts (fun i => i ∈ [1]) 0 1000000 9 2 (proc 2 two_sleeps) 1000000 [] two_sleeps).
  - exact (reach_ok _ _ reach_two_sleeps).
  - exact two_sleeps_tasks.
  - run.
  - run.
  - intros H%list_elem_of_singleton. discriminate.
  - assert (C : m_current two_sleeps = 3) by run. rewrite C. discriminate.
  - run.
  - split; [lia|]. assert (C : elapsed_ticks two_sleeps = 0) by run. rewrite C. vm_compute. discriminate.
  - apply run_eq. run.
Defined.

(** [sys_kill] of a negative pid, or with a negative signal number, stops the kernel: the
    first fails the assertion of [by_pid], the second the one of [raise], where the number is
    compared as unsigned. *)
Theorem sys_kill_negative_panics L k fuel now pid sig :
  reach L k -> pid < 0 \/ (is_Some (lookup pid k) /\ - 2 ^ 31 <= sig < 0) -> sys_kill fuel now pid sig k = Fault AssertFailed.
Proof.
  intros R [N|[[p Hp] B]]; unfold sys_kill.
  - unfold by_pid. by rewrite (proj2 (Z.leb_gt 0 pid)).
  - destruct (reach_ok L k R) as [_ S _]. pose proof (lookup_Some_inv _ _ _ Hp).
    rewrite (run_bind_done _ _ _ _ _ (by_pid_run pid k ltac:(lia))), Hp.
    rewrite (proj2 (Z.leb_gt SIGRTMAX sig)) by (unfold SIGRTMAX; lia). rewrite run_bind_gets.
    apply run_bind_fault. unfold raise, raise_with. rewrite (run_bind_done _ _ _ _ _ (by_pid_run pid k ltac:(lia))), Hp, run_bind_gets.
    destruct (S pid p Hp) as (t & -> & Lt & _). change (default [] (Some t)) with t. rewrite Lt.
    rewrite (proj2 (Z.ltb_ge _ _)); [done|]. unfold uwrap. rewrite <- (Z.mod_add sig 1) by lia.
    rewrite Z.mod_small by lia. unfold SIGRTMAX. lia.
Qed.
Lemma sys_kill_negative_panics_witness : sys_kill 1 0 2 (-1) two_runs = Fault AssertFailed.
Proof.
  apply (sys_kill_negative_panics [1] two_runs 1 0 2 (-1) reach_two_runs). right. split; [|lia].
  exists (proc 2 two_runs). run.
Defined.

(** ** File descriptors *)

Lemma first_free_fd_spec l : forall i,
  (i <= first_free_fd i l <= i + length l)%nat /\
  (forall j f, (i + j < first_free_fd i l)%nat -> l !! j = Some f -> node f <> None) /\
  (forall f, l !! (first_free_fd i l - i)%nat = Some f -> node f = None).
Proof.
  induction l as [|f l IH]; intros i; cbn [first_free_fd length].
  { split; [lia|split; [lia|]]. intros f. done. }
  destruct (node f) eqn:N.
  - destruct (IH (S i)) as (B & F & E). split; [lia|split].
    + intros [|j] g Hj Hg; [injection Hg as <-; congruence|]. apply (F j g); [lia|done].
    + intros g. replace (first_free_fd (S i) l - i)%nat with (S (first_free_fd (S i) l - S i)) by lia. apply E.
  - split; [lia|split; [lia|]]. intros g. rewrite Nat.sub_diag. cbn. congruence.
Qed.

Lemma get_fd_set key l k key' fd : get_fd key' fd (set_fds key l k) =
  if fd <? 0 then None else
  match (if decide (key' = key) then l else fds key' k) !! Z.to_nat fd with
  | Some f => match node f with Some _ => Some f | None => None end
  | None => None
  end.
Proof.
  unfold get_fd, set_fds, fds. cbn. destruct (fd <? 0); [done|]. case_decide as D.
  - subst key'. by rewrite lookup_insert_eq.
  - by rewrite lookup_insert_ne.
Qed.

(** [add_fd] takes the lowest free descriptor of the table and no other one changes, in this
    table or another; [get_fd] then finds the entry until [close_fd] frees it. *)
Theorem add_fd_spec key info fd k k' :
  node info <> None -> add_fd key info k = (fd, k') ->
  get_fd key fd k = None /\ get_fd key fd k' = Some info /\
  (forall j, 0 <= j < fd -> get_fd key j k <> None) /\
  (forall key' j, key' <> key \/ j <> fd -> get_fd key' j k' = get_fd key' j k) /\
  exists k'', close_fd key fd k' = Done (tt, k'') /\ get_fd key fd k'' = None /\
    (forall key' j, key' <> key \/ j <> fd -> get_fd key' j k'' = get_fd key' j k).
Proof.
  intros Hi E. unfold add_fd in E. injection E as Efd Ek. set (l := fds key k) in *. set (i := first_free_fd 0 l) in *.
  destruct (first_free_fd_spec l 0) as (B & F & N). fold i in B, F, N. rewrite Nat.sub_0_r in N.
  set (l' := if Nat.ltb i (length l) then <[i := info]> l else l ++ [info]) in *.
  assert (L : forall j, l' !! j = if decide (j = i) then Some info else l !! j).
  { intros j. unfold l'. destruct (Nat.ltb_spec i (length l)); case_decide as D.
    - subst j. by rewrite list_lookup_insert_eq.
    - by rewrite list_lookup_insert_ne.
    - subst j. rewrite lookup_app_r by lia. by replace (i - length l)%nat with 0%nat by lia.
    - destruct (decide (j < length l)%nat); [by rewrite lookup_app_l|]. rewrite lookup_app_r by lia.
      rewrite (lookup_ge_None_2 l) by lia. apply lookup_ge_None_2. cbn. lia. }
  assert (G' : get_fd key fd k' = Some info).
  { rewrite <- Ek, get_fd_set, decide_True by done. rewrite (proj2 (Z.ltb_ge fd 0)), L, decide_True by lia.
    by destruct (node info). }
  assert (O' : forall key' j, key' <> key \/ j <> fd -> get_fd key' j k' = get_fd key' j k).
  { intros key' j D. rewrite <- Ek, get_fd_set. unfold get_fd. destruct (Z.ltb_spec j 0); [done|].
    case_decide as Dk; [|done]. rewrite Dk. rewrite L, decide_False by (destruct D; [done|lia]). done. }
  split_and!; [|done| |done|].
  - unfold get_fd. rewrite (proj2 (Z.ltb_ge fd 0)) by lia. fold l. replace (Z.to_nat fd) with i by lia.
    destruct (l !! i) as [f|] eqn:Hf; [|done]. by rewrite (N f).
  - intros j Hj. unfold get_fd. rewrite (proj2 (Z.ltb_ge j 0)) by lia. fold l.
    destruct (lookup_lt_is_Some_2 l (Z.to_nat j)) as [f Hf]; [lia|]. rewrite Hf.
    destruct (node f) eqn:X; [done|]. by destruct (F (Z.to_nat j) f ltac:(lia) Hf).
  - unfold close_fd. rewrite (run_bind_done get _ k' k' k') by done. rewrite G'. eexists. split; [done|].
    assert (Lk : fds key k' = l') by (rewrite <- Ek; unfold fds, set_fds; cbn; by rewrite lookup_insert_eq).
    split.
    + rewrite get_fd_set, decide_True, (proj2 (Z.ltb_ge fd 0)) by (done || lia). rewrite Lk.
      destruct (<[Z.to_nat fd := _]> l' !! Z.to_nat fd) as [f|] eqn:X; [|done].
      rewrite list_lookup_insert_eq in X; [by injection X as <-|]. apply lookup_lt_is_Some_1. exists info.
      rewrite L, decide_True by lia. done.
    + intros key' j D. rewrite <- (O' key' j D). rewrite get_fd_set. unfold get_fd. destruct (Z.ltb_spec j 0); [done|].
      case_decide as Dk; [|done]. rewrite Dk, list_lookup_insert_ne by (destruct D; [done|lia]). done.
Qed.
Lemma add_fd_spec_witness :
  let info := mkFD (Some 9) true false false 0 in
  add_fd 0 info two_runs = (3, set_fds 0 (default_fds ++ [info]) two_runs) /\
  get_fd 0 3 (set_fds 0 (default_fds ++ [info]) two_runs) = Some info.
Proof.
  intros info. assert (E : add_fd 0 info two_runs = (3, set_fds 0 (default_fds ++ [info]) two_runs)) by run.
  split; [exact E|]. destruct (add_fd_spec 0 info 3 two_runs (set_fds 0 (default_fds ++ [info]) two_runs)) as (_ & G & _).
  - discriminate.
  - exact E.
  - exact G.
Defined.
End ProcessSpec.
