(* ===== verification/Pipe.v ===== *)
(** * Pipe: [fs/pipe.cpp]

    The buffer and the two semaphores of a pipe.  A call loops until the buffer allows it,
    and waits for a semaphore in every turn, so a turn of the loop is one step: it ends the
    call, takes a unit of the semaphore and tries again, or blocks.  Other threads run between
    the turns. *)
From stdpp Require Import base list.
From Stdlib Require Import ZArith Lia.
From S2P Require Import Prelude.

Module Pipe.

Definition pipe_buf_size : Z := 0x1000.

Record pipe := mkPipe { buffer : list Z; can_read_sem : Z; can_write_sem : Z }.
Definition new_pipe : pipe := mkPipe [] 0 0.
Definition size (l : list Z) : Z := Z.of_nat (length l).

(** One turn of a call: it returns [r], goes for another turn, blocks, or stops the kernel. *)
Inductive turn (R : Type) :=
  | Return (r : R) (p : pipe)
  | TooLarge
  | Retry (p : pipe)
  | Block
  | Stop (f : fault).
Arguments Return {R}. Arguments TooLarge {R}. Arguments Retry {R}. Arguments Block {R}. Arguments Stop {R}.

(** The result of a read is the size [0] of [return {}], whatever it copied to [data]. *)
Definition read_impl (n : Z) (p : pipe) : turn (Z * list Z) :=
  if pipe_buf_size <? n then TooLarge
  else if size (buffer p) <? n then
    if 0 <? can_read_sem p then Retry (mkPipe (buffer p) (can_read_sem p - 1) (can_write_sem p)) else Block
  else
    let at_end := (length (buffer p) - Z.to_nat n)%nat in
    Return (0, drop at_end (buffer p)) (mkPipe (take at_end (buffer p)) (can_read_sem p) (can_write_sem p + 1)).

Definition write_impl (data : list Z) (p : pipe) : turn unit :=
  if pipe_buf_size <? size data then TooLarge
  else if pipe_buf_size <? size (buffer p) + size data then
    if 0 <? can_write_sem p then Retry (mkPipe (buffer p) (can_read_sem p) (can_write_sem p - 1)) else Block
  else if size (buffer p) + size data <? pipe_buf_size then
    Return tt (mkPipe (data ++ buffer p) (can_read_sem p + 1) (can_write_sem p))
  else Stop AssertFailed.

(** ** Pipes as queues of messages

    The calls that returned so far, in the order of their returns. *)
Inductive call := Wrote (data : list Z) | Got (data : list Z).

(** [run p h p']: from [p], some interleaving of the turns of any calls leads to [p'], and the
    calls of [h] returned on the way.  Threads that wait, wake up or try again change the counts
    of the semaphores in any way, and nothing else. *)
Inductive run (p : pipe) : list call -> pipe -> Prop :=
  | run_start : run p [] p
  | run_wait h p1 p2 : run p h p1 -> buffer p2 = buffer p1 -> run p h p2
  | run_read h n v r p1 p2 : run p h p1 -> 0 <= n -> read_impl n p1 = Return (v, r) p2 -> run p (h ++ [Got r]) p2
  | run_write h data p1 p2 : run p h p1 -> write_impl data p1 = Return tt p2 -> run p (h ++ [Wrote data]) p2.

(** The messages of a history and what was read, each as one string of bytes. *)
Definition written (h : list call) : list (list Z) :=
  omap (fun c => match c with Wrote d => Some d | Got _ => None end) h.
Definition received (h : list call) : list (list Z) :=
  omap (fun c => match c with Got d => Some d | Wrote _ => None end) h.

(** Every read of the history asks for as many bytes as the oldest message has that was not
    read yet. *)
Fixpoint in_step (pending : list (list Z)) (h : list call) : Prop :=
  match h with
  | [] => True
  | Wrote d :: h => in_step (pending ++ [d]) h
  | Got r :: h => match pending with m :: pending => length r = length m /\ in_step pending h | [] => False end
  end.

(** The messages that are left after a history in step. *)
Fixpoint left_over (pending : list (list Z)) (h : list call) : list (list Z) :=
  match h with
  | [] => pending
  | Wrote d :: h => left_over (pending ++ [d]) h
  | Got _ :: h => left_over (tail pending) h
  end.

Lemma in_step_app h1 h2 : forall pending, in_step pending (h1 ++ h2) <-> in_step pending h1 /\ in_step (left_over pending h1) h2.
Proof.
  induction h1 as [|[d|r] h1 IH]; intros pending; cbn.
  - tauto.
  - apply IH.
  - destruct pending as [|m pending]; [tauto|]. rewrite IH. cbn. tauto.
Qed.
Lemma left_over_app h1 h2 : forall pending, left_over pending (h1 ++ h2) = left_over (left_over pending h1) h2.
Proof. induction h1 as [|[d|r] h1 IH]; intros pending; cbn; [done|apply IH..]. Qed.

(** The newest message is at the front of the buffer. *)
Definition holds (q : list (list Z)) (l : list Z) : Prop := l = concat (rev q).

Lemma holds_snoc q l d : holds q l -> holds (q ++ [d]) (d ++ l).
Proof. unfold holds. intros ->. by rewrite rev_app_distr. Qed.
Lemma holds_cons m q l : holds (m :: q) l -> exists l', l = l' ++ m /\ holds q l'.
Proof.
  unfold holds. intros ->. cbn [rev]. rewrite concat_app. cbn. rewrite app_nil_r. by eexists.
Qed.

(** A turn that goes on leaves the buffer as it is, so [run_wait] has it. *)
Lemma retry_waits n data p p' : read_impl n p = Retry p' \/ write_impl data p = Retry p' -> buffer p' = buffer p.
Proof. unfold read_impl, write_impl. intros [E|E]; repeat case_match; try done; by injection E as <-. Qed.

(** A read takes the end of the buffer, a write goes before it. *)
Lemma read_done n v r p p' : 0 <= n -> read_impl n p = Return (v, r) p' ->
  v = 0 /\ size r = n /\ buffer p = buffer p' ++ r.
Proof.
  unfold read_impl. intros Hn. destruct (_ <? n); [done|]. destruct (Z.ltb_spec (size (buffer p)) n) as [|B]; [by destruct (_ <? _)|].
  unfold size in *. intros [= <- <- <-]. cbn. rewrite take_drop, length_drop. split_and!; [done|lia|done].
Qed.
Lemma write_done data p p' : write_impl data p = Return tt p' -> buffer p' = data ++ buffer p.
Proof. unfold write_impl. intros E. repeat case_match; try done. by injection E as <-. Qed.
Lemma history_wrote h d : written (h ++ [Wrote d]) = written h ++ [d] /\ received (h ++ [Wrote d]) = received h.
Proof. unfold written, received. rewrite !omap_app. cbn. by rewrite app_nil_r. Qed.
Lemma history_got h r : written (h ++ [Got r]) = written h /\ received (h ++ [Got r]) = received h ++ [r].
Proof. unfold written, received. rewrite !omap_app. cbn. by rewrite app_nil_r. Qed.

Lemma run_bytes h p : run new_pipe h p -> concat (rev (written h)) = buffer p ++ concat (rev (received h)).
Proof.
  induction 1 as [|h p1 p2 R IH E|h n v r p1 p2 R IH Hn E|h d p1 p2 R IH E].
  - done.
  - by rewrite E.
  - apply read_done in E as (_ & _ & E); [|done]. destruct (history_got h r) as [-> ->].
    rewrite rev_app_distr, IH, E. cbn. by rewrite <- app_assoc.
  - apply write_done in E as ->. destruct (history_wrote h d) as [-> ->]. rewrite rev_app_distr. cbn. by rewrite IH, app_assoc.
Qed.
Lemma read_message n v r p p' m q :
  holds (m :: q) (buffer p) -> 0 <= n -> read_impl n p = Return (v, r) p' -> length r = length m -> r = m /\ holds q (buffer p').
Proof.
  intros H Hn E L. destruct (holds_cons _ _ _ H) as (l & El & Hl). apply read_done in E as (_ & _ & E); [|done]. rewrite E in El.
  apply app_inj_2 in El as [<- <-]; [by split|done].
Qed.
Lemma run_holds h p' : run new_pipe h p' -> in_step [] h ->
  holds (left_over [] h) (buffer p') /\ written h = received h ++ left_over [] h.
Proof.
  induction 1 as [|h p1 p2 R IH E|h n v r p1 p2 R IH Hn E|h d p1 p2 R IH E]; intros S.
  - done.
  - rewrite E. by apply IH.
  - apply in_step_app in S as [S1 S2]. destruct (IH S1) as [H W]. rewrite left_over_app. destruct (history_got h r) as [-> ->]. cbn in S2 |- *.
    destruct (left_over [] h) as [|m q] eqn:L; [done|]. destruct S2 as [Lr _].
    destruct (read_message n v r p1 p2 m q H Hn E Lr) as [-> H']. split; [done|]. by rewrite W, <- app_assoc.
  - apply in_step_app in S as [S1 _]. destruct (IH S1) as [H W]. rewrite left_over_app. destruct (history_wrote h d) as [-> ->]. cbn.
    apply write_done in E as ->. split; [by apply holds_snoc|]. by rewrite W, <- app_assoc.
Qed.

(** C31: In every interleaving of the turns of any reads and writes no byte is lost or made up:
    the messages written, newest first, are the buffer followed by what was read, newest first.
    When besides each read asks for the size of the oldest message that is left, what is read is
    what was written, message by message and in order, and the rest is still in the pipe.  (A
    read of another size gets the end of what is there, see [pipe_partial_read].) *)
Theorem pipe_fifo h p :
  run new_pipe h p ->
  concat (rev (written h)) = buffer p ++ concat (rev (received h)) /\
  (in_step [] h -> exists rest, written h = received h ++ rest /\ buffer p = concat (rev rest)).
Proof.
  intros R. split; [by apply run_bytes|]. intros S. exists (left_over [] h). by destruct (run_holds h p R S).
Qed.
Lemma pipe_fifo_witness : exists rest, [[1; 2]; [3]] = [[1; 2]] ++ rest /\ [3] = concat (rev rest).
Proof.
  apply (pipe_fifo [Wrote [1; 2]; Wrote [3]; Got [1; 2]] (mkPipe [3] 2 1)).
  - apply (run_read new_pipe [Wrote [1; 2]; Wrote [3]] 2 0 [1; 2] (mkPipe [3; 1; 2] 2 0)); [|lia|reflexivity].
    apply (run_write new_pipe [Wrote [1; 2]] [3] (mkPipe [1; 2] 1 0)); [|reflexivity].
    apply (run_write new_pipe [] [1; 2] new_pipe); [|reflexivity]. apply run_start.
  - repeat split.
Defined.

(** A read of fewer bytes than the oldest message has returns the end of that message: the
    bytes of one write come out in the wrong order unless they are read at once. *)
Theorem pipe_partial_read data n :
  0 < n <= size data -> size data < pipe_buf_size ->
  exists p p', write_impl data new_pipe = Return tt p /\
    read_impl n p = Return (0, drop (length data - Z.to_nat n) data) p' /\
    buffer p' = take (length data - Z.to_nat n) data.
Proof.
  intros Hn Hd. unfold write_impl. rewrite (proj2 (Z.ltb_ge _ _)) by lia. cbn [buffer new_pipe]. change (size []) with 0.
  rewrite (proj2 (Z.ltb_ge _ _)), (proj2 (Z.ltb_lt _ _)) by lia. eexists _, _. split; [done|].
  rewrite app_nil_r. unfold read_impl. cbn [buffer]. rewrite !(proj2 (Z.ltb_ge _ _)) by lia. done.
Qed.
Lemma pipe_partial_read_witness : exists p p', write_impl [1; 2; 3] new_pipe = Return tt p /\ read_impl 1 p = Return (0, [3]) p' /\
  buffer p' = [1; 2].
Proof. apply (pipe_partial_read [1; 2; 3] 1); [split; [lia|vm_compute; discriminate]|vm_compute; reflexivity]. Defined.

(** The buffer never has more than [pipe_buf_size] - 1 bytes, and a write that would fill it
    exactly stops the kernel: the loop lets it pass, the assertion behind it does not. *)
Theorem pipe_bounds h p data :
  run new_pipe h p -> size (buffer p) < pipe_buf_size /\
  (0 < size data -> size (buffer p) + size data = pipe_buf_size -> write_impl data p = Stop AssertFailed).
Proof.
  intros R. split.
  - induction R as [|h p1 p2 R IH E|h n v r p1 p2 R IH Hn E|h d p1 p2 R IH E].
    + done.
    + by rewrite E.
    + apply read_done in E as (_ & _ & E); [|done]. rewrite E in IH. unfold size in *. rewrite length_app in IH. lia.
    + unfold write_impl in E. repeat case_match; try done. injection E as <-. cbn. unfold size in *. rewrite length_app. lia.
  - intros H0 H. unfold write_impl. unfold size in *. rewrite !(proj2 (Z.ltb_ge _ _)) by lia. done.
Qed.
Lemma pipe_bounds_witness : write_impl (replicate 4096 0) new_pipe = Stop AssertFailed.
Proof. apply (pipe_bounds [] new_pipe (replicate 4096 0)); [apply run_start|vm_compute; reflexivity..]. Defined.
End Pipe.
