(* ===== verification/Crc32.v ===== *)
(** * Crc32: [utils/crc32.hpp], the table-driven checksum, and [utils/mathutils.hpp], the integer powers *)
From stdpp Require Import base list.
From Stdlib Require Import ZArith Zpow_facts Lia.
From S2P Require Import Prelude.

Module Crc32.

Definition reversed_polynomial : Z := 0xEDB88320.

(** One turn of the loop of [byte_checksum]. *)
Definition checksum_bit (checksum : Z) : Z :=
  Z.lxor (Z.shiftr checksum 1) (if Ztrue (Z.land checksum 1) then reversed_polynomial else 0).
Definition byte_checksum (n : Z) : Z := Nat.iter 8 checksum_bit n.
Definition generate_crc_lookup_table : list Z := byte_checksum ∘ Z.of_nat <$> seq 0 256.

(** [static auto const table], and the function of [std::accumulate]. *)
Definition table : list Z := generate_crc_lookup_table.
Definition accumulate (checksum value : Z) : Z :=
  Z.lxor (nth (Z.to_nat (Z.land (Z.lxor checksum value) 0xFF)) table 0) (Z.shiftr checksum 8).
Definition crc (data : list Z) : Z := Z.land 0xFFFFFFFF (u32 (Z.lnot (foldl accumulate 0xFFFFFFFF data))).

(** ** The reference: the remainder of the message, bit by bit *)

Definition crc_reference (data : list Z) : Z :=
  Z.lxor (foldl (fun c v => Nat.iter 8 checksum_bit (Z.lxor c v)) 0xFFFFFFFF data) 0xFFFFFFFF.

(** [checksum_bit] commutes with exclusive or. *)
Lemma checksum_bit_lxor x y : checksum_bit (Z.lxor x y) = Z.lxor (checksum_bit x) (checksum_bit y).
Proof.
  unfold checksum_bit, Ztrue.
  assert (O : forall z, Z.land z 1 = if Z.testbit z 0 then 1 else 0).
  { intros z. change 1 with (Z.ones 1) at 1. rewrite Z.land_ones by lia. rewrite Z.pow_1_r.
    rewrite Z.bit0_odd, Zmod_odd. done. }
  rewrite Z.shiftr_lxor, !O, Z.lxor_spec.
  destruct (Z.testbit x 0), (Z.testbit y 0); cbn [xorb Z.eqb negb]; apply Z.bits_inj'; intros n _;
    rewrite !Z.lxor_spec, ?Z.testbit_0_l; by repeat destruct (Z.testbit _ n).
Qed.
Lemma checksum_bits_lxor k x y : Nat.iter k checksum_bit (Z.lxor x y) = Z.lxor (Nat.iter k checksum_bit x) (Nat.iter k checksum_bit y).
Proof.
  induction k as [|k IH]; [done|].
  change (checksum_bit (Nat.iter k checksum_bit (Z.lxor x y)) =
    Z.lxor (checksum_bit (Nat.iter k checksum_bit x)) (checksum_bit (Nat.iter k checksum_bit y))).
  rewrite IH. apply checksum_bit_lxor.
Qed.

(** Bits that do not reach the bottom are only shifted. *)
Lemma checksum_bit_high z : Z.testbit z 0 = false -> checksum_bit z = Z.shiftr z 1.
Proof.
  intros H. unfold checksum_bit, Ztrue. replace (Z.land z 1) with 0; [apply Z.lxor_0_r|].
  change 1 with (Z.ones 1). rewrite Z.land_ones by lia. rewrite Z.pow_1_r, Zmod_odd, <- Z.bit0_odd. by rewrite H.
Qed.
Lemma checksum_bits_high k : forall z, (forall i, 0 <= i < Z.of_nat k -> Z.testbit z i = false) ->
  Nat.iter k checksum_bit z = Z.shiftr z (Z.of_nat k).
Proof.
  induction k as [|k IH]; intros z H; [by rewrite Z.shiftr_0_r|].
  change (Nat.iter (S k) checksum_bit z) with (checksum_bit (Nat.iter k checksum_bit z)).
  rewrite IH by (intros; apply H; lia). rewrite checksum_bit_high.
  - rewrite Z.shiftr_shiftr by lia. f_equal. lia.
  - rewrite Z.shiftr_spec by lia. apply H. lia.
Qed.

Lemma table_lookup b : 0 <= b < 256 -> nth (Z.to_nat b) table 0 = Nat.iter 8 checksum_bit b.
Proof.
  intros H. unfold table, generate_crc_lookup_table. rewrite nth_lookup, list_lookup_fmap, lookup_seq_lt by lia.
  cbn [fmap option_fmap option_map default from_option]. unfold compose, byte_checksum. by rewrite Nat.add_0_l, Z2Nat.id by lia.
Qed.

Lemma low_byte z : 0 <= Z.land z 0xFF < 256.
Proof. change 0xFF with (Z.ones 8). rewrite Z.land_ones by lia. apply Z.mod_pos_bound. lia. Qed.

Lemma accumulate_bits c v : 0 <= v < 256 -> accumulate c v = Nat.iter 8 checksum_bit (Z.lxor c v).
Proof.
  intros Hv. unfold accumulate. rewrite table_lookup by apply low_byte.
  set (x := Z.lxor c v). set (hi := Z.shiftl (Z.shiftr c 8) 8).
  assert (E : x = Z.lxor (Z.land x 0xFF) hi).
  { apply Z.bits_inj'. intros n Hn. rewrite Z.lxor_spec, Z.land_spec. change 0xFF with (Z.ones 8).
    destruct (decide (n < 8)).
    - rewrite Z.ones_spec_low by lia. unfold hi. rewrite Z.shiftl_spec_low by lia. by destruct (Z.testbit x n).
    - rewrite Z.ones_spec_high by lia. rewrite andb_false_r. unfold hi, x.
      rewrite Z.shiftl_spec, Z.shiftr_spec, Z.lxor_spec by lia. replace (n - 8 + 8) with n by lia.
      rewrite (Z.bits_above_log2 v n); [by destruct (Z.testbit c n)|lia|].
      destruct (decide (v = 0)) as [-> |]; [cbn; lia|]. assert (Z.log2 v < 8) by (apply Z.log2_lt_pow2; lia). lia. }
  rewrite E at 2. rewrite checksum_bits_lxor. f_equal. rewrite checksum_bits_high.
  - unfold hi. change (Z.of_nat 8) with 8. rewrite Z.shiftr_shiftl_l by lia. by rewrite Z.sub_diag, Z.shiftl_0_r.
  - intros i Hi. unfold hi. apply Z.shiftl_spec_low. lia.
Qed.

Lemma crc_range data : forall c, 0 <= c < 2 ^ 32 -> Forall (fun v => 0 <= v < 256) data -> 0 <= foldl accumulate c data < 2 ^ 32.
Proof.
  induction data as [|v data IH]; intros c Hc Hd; [done|]. apply Forall_cons in Hd as [Hv Hd]. cbn. apply IH; [|done].
  rewrite accumulate_bits by done.
  assert (S : forall z, 0 <= z < 2 ^ 32 -> 0 <= checksum_bit z < 2 ^ 32).
  { intros z Hz. unfold checksum_bit. set (m := if Ztrue (Z.land z 1) then reversed_polynomial else 0).
    assert (0 <= m < 2 ^ 32) by (unfold m; destruct (Ztrue _); vm_compute; split; (discriminate || reflexivity)).
    assert (0 <= Z.shiftr z 1 < 2 ^ 32) by (rewrite Z.shiftr_div_pow2 by lia; split; [apply Z.div_pos; lia|apply Z.div_lt_upper_bound; lia]).
    split; [apply Z.lxor_nonneg; lia|]. apply Z.log2_lt_cancel. rewrite Z.log2_pow2 by lia.
    eapply Z.le_lt_trans; [apply Z.log2_lxor; lia|]. apply Z.max_lub_lt;
      (match goal with |- Z.log2 ?a < _ => destruct (decide (a = 0)) as [-> |]; [cbn; lia|apply Z.log2_lt_pow2; lia] end). }
  assert (0 <= Z.lxor c v < 2 ^ 32).
  { split; [apply Z.lxor_nonneg; lia|]. apply Z.log2_lt_cancel. rewrite Z.log2_pow2 by lia.
    eapply Z.le_lt_trans; [apply Z.log2_lxor; lia|]. apply Z.max_lub_lt;
      (match goal with |- Z.log2 ?a < _ => destruct (decide (a = 0)) as [-> |]; [cbn; lia|apply Z.log2_lt_pow2; lia] end). }
  cbn [Nat.iter nat_rect]. by do 8 apply S.
Qed.

(** C39: The table-driven checksum is the remainder of the message computed bit by bit. *)
Theorem crc_is_reference data : Forall (fun v => 0 <= v < 256) data -> crc data = crc_reference data.
Proof.
  intros Hd. unfold crc, crc_reference.
  assert (E : forall c, foldl accumulate c data = foldl (fun c v => Nat.iter 8 checksum_bit (Z.lxor c v)) c data).
  { induction Hd as [|v data Hv Hd IH]; intros c; [done|]. cbn [foldl]. rewrite accumulate_bits by done. apply IH. }
  rewrite <- E. set (r := foldl accumulate 0xFFFFFFFF data).
  assert (Hr : 0 <= r < 2 ^ 32) by (by apply crc_range).
  change 0xFFFFFFFF with (Z.ones 32). rewrite Z.land_comm, Z.land_ones by lia. unfold uwrap. rewrite Z.mod_mod by lia.
  rewrite <- Z.land_ones by lia. apply Z.bits_inj'. intros n Hn. rewrite Z.land_spec, Z.lxor_spec, Z.lnot_spec by lia.
  destruct (decide (n < 32)).
  - rewrite Z.ones_spec_low by lia. by rewrite andb_true_r, xorb_true_r.
  - rewrite Z.ones_spec_high by lia. rewrite andb_false_r, xorb_false_r. symmetry. apply Z.bits_above_log2; [lia|].
    destruct (decide (r = 0)) as [-> |]; [cbn; lia|]. assert (Z.log2 r < 32) by (apply Z.log2_lt_pow2; lia). lia.
Qed.
(** The check value of the standard checksum, for the digits 1 to 9. *)
Lemma crc_is_reference_witness : crc [49; 50; 51; 52; 53; 54; 55; 56; 57] = 0xCBF43926.
Proof.
  transitivity (crc_reference [49; 50; 51; 52; 53; 54; 55; 56; 57]); [|vm_compute; reflexivity].
  apply (crc_is_reference [49; 50; 51; 52; 53; 54; 55; 56; 57]). repeat (constructor; [lia|]). constructor.
Defined.

(** ** Powers *)

(** [ipow<size_t>]: [base] is squared in every turn. *)
Fixpoint ipow_loop (fuel : nat) (result base exp : Z) : outcome Z :=
  match fuel with
  | O => Fault OutOfFuel
  | S fuel =>
      if exp =? 0 then Done result
      else ipow_loop fuel (if Ztrue (Z.land exp 1) then u32 (result * base) else result) (u32 (base * base)) (Z.shiftr exp 1)
  end.
Definition ipow (base exp : Z) : outcome Z := ipow_loop 33 1 base exp.

Lemma ipow_loop_spec fuel : forall result base exp, 0 <= exp < 2 ^ (Z.of_nat fuel - 1) -> (0 < fuel)%nat ->
  exists r, ipow_loop fuel result base exp = Done r /\ r mod 2 ^ 32 = (result * base ^ exp) mod 2 ^ 32 /\
    (0 <= result < 2 ^ 32 -> 0 <= r < 2 ^ 32).
Proof.
  induction fuel as [|fuel IH]; intros result base exp He Hf; [lia|]. cbn [ipow_loop].
  destruct (Z.eqb_spec exp 0) as [-> |N]. { exists result. rewrite Z.pow_0_r, Z.mul_1_r. done. }
  destruct fuel as [|fuel]; [cbn in He; lia|].
  assert (Hs : Z.shiftr exp 1 = exp / 2) by (by rewrite Z.shiftr_div_pow2 by lia).
  assert (Hl : Ztrue (Z.land exp 1) = Z.odd exp).
  { change 1 with (Z.ones 1). rewrite Z.land_ones by lia. rewrite Z.pow_1_r, Zmod_odd. unfold Ztrue. by destruct (Z.odd exp). }
  rewrite Hs, Hl. set (result' := if Z.odd exp then u32 (result * base) else result).
  destruct (IH result' (u32 (base * base)) (exp / 2)) as (r & E & M & B); [|lia|].
  { split; [apply Z.div_pos; lia|]. apply Z.div_lt_upper_bound; [lia|].
    replace (Z.of_nat (S (S fuel)) - 1) with (1 + (Z.of_nat (S fuel) - 1)) in He by lia. rewrite Z.pow_add_r in He by lia. lia. }
  exists r. split; [done|]. split.
  - rewrite M. unfold uwrap. rewrite Z.mul_mod, Zpower_mod, Z.mod_mod, <- Zpower_mod by lia. rewrite <- Z.mul_mod by lia.
    assert (P : base ^ exp = (base * base) ^ (exp / 2) * (if Z.odd exp then base else 1)).
    { replace (base * base) with (base ^ 2) by lia. rewrite <- Z.pow_mul_r by (try lia; apply Z.div_pos; lia).
      pose proof (Z.div_mod exp 2 ltac:(lia)) as D. rewrite Zmod_odd in D. rewrite D at 1.
      destruct (Z.odd exp); [rewrite Z.pow_add_r, Z.pow_1_r by lia; done|rewrite Z.add_0_r; lia]. }
    rewrite P. unfold result'. destruct (Z.odd exp); unfold uwrap.
    + rewrite Z.mul_mod_idemp_l by lia. f_equal. lia.
    + f_equal. lia.
  - intros Hr. apply B. unfold result'. destruct (Z.odd exp); [apply uwrap_range; lia|done].
Qed.

(** [ipow] is the power modulo 2^32, for every exponent. *)
Lemma ipow_spec base exp : 0 <= exp < 2 ^ 32 -> ipow base exp = Done (u32 (base ^ exp)).
Proof.
  intros H. unfold ipow. destruct (ipow_loop_spec 33 1 base exp) as (r & E & M & B); [cbn; lia|lia|].
  rewrite E. rewrite Z.mul_1_l in M. f_equal. unfold uwrap. rewrite <- M. symmetry. apply Z.mod_small. apply B. lia.
Qed.
End Crc32.
