(* ===== verification/CircularBuffer.v ===== *)
(** * CircularBuffer: [utils/circularbuffer.hpp], the scroll-back of the terminal *)
From stdpp Require Import base list.
From Stdlib Require Import ZArith Lia.
From S2P Require Import Prelude.

Module CircularBuffer.
Section buffer.
Context {T : Type} (default_entry : T).

Record cbuf := mkBuf { m_front : Z; m_full : bool; m_data : list T }.

Definition create (height : Z) : cbuf := mkBuf 0 false (replicate (Z.to_nat height) default_entry).
Definition m_size (b : cbuf) : Z := Z.of_nat (length (m_data b)).
Definition full (b : cbuf) : bool := m_full b.

Definition get_entry (idx : Z) (b : cbuf) : outcome T :=
  if idx <? m_size b then
    match m_data b !! Z.to_nat (if full b then (m_front b + idx) mod m_size b else idx) with
    | Some x => Done x
    | None => Fault BadAccess
    end
  else Fault AssertFailed.
Definition add (entry : T) (b : cbuf) : outcome cbuf :=
  if m_front b <? m_size b then
    let data := <[Z.to_nat (m_front b) := entry]> (m_data b) in
    if m_front b + 1 =? m_size b then Done (mkBuf 0 true data) else Done (mkBuf (m_front b + 1) (m_full b) data)
  else Fault BadAccess.
Definition size (b : cbuf) : Z := if full b then m_size b else m_front b.
Definition clear (b : cbuf) : cbuf := mkBuf 0 false (m_data b).

(** ** What it holds: the last entries of a history *)

(** [b] holds the history [h] (since the buffer was made or cleared). *)
Record holds (b : cbuf) (h : list T) : Prop := {
  h_size : 0 < m_size b;
  h_front : m_front b = Z.of_nat (length h) mod m_size b;
  h_full : m_full b = (m_size b <=? Z.of_nat (length h));
  h_data i : 0 <= i < Z.of_nat (length h) -> Z.of_nat (length h) - m_size b <= i ->
    m_data b !! Z.to_nat (i mod m_size b) = h !! Z.to_nat i;
}.

Lemma create_holds height : 0 < height -> holds (create height) [].
Proof.
  intros H. unfold create. split; cbn; unfold m_size; cbn; rewrite ?length_replicate; try lia; [done|].
  symmetry. apply Z.leb_gt. lia.
Qed.
Lemma clear_holds b h : holds b h -> holds (clear b) [].
Proof. intros [H _ _ _]. unfold m_size in *. split; unfold m_size; cbn; try lia; [done|]. symmetry. apply Z.leb_gt. lia. Qed.

Lemma add_holds entry b h : holds b h -> exists b', add entry b = Done b' /\ holds b' (h ++ [entry]) /\ m_size b' = m_size b.
Proof.
  intros [Hs Hf Hfull Hd]. set (n := m_size b) in *. set (len := Z.of_nat (length h)) in *.
  pose proof (Z.mod_pos_bound len n Hs) as Bf. unfold add. fold n. rewrite Hf, (proj2 (Z.ltb_lt _ _)) by lia.
  set (data := <[Z.to_nat (len mod n) := entry]> (m_data b)).
  assert (Ln : length data = length (m_data b)) by apply length_insert.
  assert (Len : Z.of_nat (length (h ++ [entry])) = len + 1) by (rewrite length_app; cbn; lia).
  assert (D : forall i, 0 <= i < len + 1 -> len + 1 - n <= i -> data !! Z.to_nat (i mod n) = (h ++ [entry]) !! Z.to_nat i).
  { intros i Hi Hw. destruct (decide (i = len)) as [-> |Ni].
    - unfold data. rewrite list_lookup_insert_eq by (unfold n, m_size in *; lia).
      rewrite lookup_app_r by lia. by replace (Z.to_nat len - length h)%nat with 0%nat by lia.
    - rewrite lookup_app_l by lia. rewrite <- Hd by lia. unfold data. apply list_lookup_insert_ne.
      intros E. pose proof (Z.mod_pos_bound i n Hs). assert (M : len mod n = i mod n) by lia.
      assert ((len - i) mod n = 0) as M0 by (rewrite Zminus_mod, M, Z.sub_diag; apply Z.mod_0_l; lia).
      rewrite Z.mod_small in M0 by lia. lia. }
  assert (Mn : (len + 1) mod n = if len mod n + 1 =? n then 0 else len mod n + 1).
  { rewrite <- Z.add_mod_idemp_l by lia. destruct (Z.eqb_spec (len mod n + 1) n) as [-> |]; [apply Z.mod_same; lia|].
    apply Z.mod_small. lia. }
  assert (Fu : (n <=? len + 1) = if len mod n + 1 =? n then true else (n <=? len)).
  { destruct (Z.eqb_spec (len mod n + 1) n).
    - apply Z.leb_le. pose proof (Z.mod_le len n ltac:(lia) Hs). lia.
    - destruct (Z.leb_spec n (len + 1)), (Z.leb_spec n len); try done; try lia.
      assert (n = len + 1) as E by lia. rewrite E in *. rewrite Z.mod_small in n0 by lia. lia. }
  destruct (Z.eqb_spec (len mod n + 1) n) as [E|E]; eexists; (split; [done|]); (split; [|unfold m_size; cbn; rewrite Ln; done]);
    split; unfold m_size; cbn; rewrite ?Ln, ?Len; fold (m_size b); fold n; try done; try lia; congruence.
Qed.

Fixpoint add_all (l : list T) (b : cbuf) : outcome cbuf :=
  match l with
  | [] => Done b
  | x :: l => match add x b with Done b' => add_all l b' | Fault f => Fault f end
  end.
Lemma add_all_holds l : forall b h, holds b h -> exists b', add_all l b = Done b' /\ holds b' (h ++ l) /\ m_size b' = m_size b.
Proof.
  induction l as [|x l IH]; intros b h H; cbn [add_all].
  - exists b. by rewrite app_nil_r.
  - destruct (add_holds x b h H) as (b1 & -> & H1 & S1). destruct (IH b1 _ H1) as (b2 & E2 & H2 & S2). exists b2.
    rewrite <- app_assoc in H2. split_and!; [done|done|congruence].
Qed.

(** The last [n] elements. *)
Definition last_n (n : nat) (l : list T) : list T := drop (length l - n) l.

Lemma holds_spec b h : holds b h ->
  size b = Z.of_nat (length (last_n (length (m_data b)) h)) /\
  forall idx, 0 <= idx < size b -> exists x, last_n (length (m_data b)) h !! Z.to_nat idx = Some x /\ get_entry idx b = Done x.
Proof.
  intros [Hs Hf Hfull Hd]. set (n := m_size b) in *. set (len := Z.of_nat (length h)) in *.
  assert (Sz : size b = Z.min len n).
  { unfold size, full. rewrite Hfull. fold n. destruct (Z.leb_spec n len); [lia|]. rewrite Hf, Z.mod_small by lia. lia. }
  assert (Sl : size b = Z.of_nat (length (last_n (length (m_data b)) h))).
  { unfold last_n. rewrite length_drop, Sz. unfold n, m_size, len. lia. }
  split; [done|]. intros idx Hi.
  assert (L : last_n (length (m_data b)) h !! Z.to_nat idx = h !! Z.to_nat (Z.max 0 (len - n) + idx)).
  { unfold last_n. rewrite lookup_drop. f_equal. unfold n, m_size, len. lia. }
  destruct (lookup_lt_is_Some_2 (last_n (length (m_data b)) h) (Z.to_nat idx)) as [x Hx]; [lia|].
  exists x. split; [done|]. rewrite L in Hx. unfold get_entry. fold n. rewrite (proj2 (Z.ltb_lt idx n)) by lia.
  rewrite <- (Hd (Z.max 0 (len - n) + idx)) in Hx by lia. unfold full. rewrite Hfull, Hf.
  destruct (Z.leb_spec n len) as [Hle|Hlt].
  - rewrite Z.add_mod_idemp_l by lia. replace (Z.max 0 (len - n) + idx) with (len + idx - 1 * n) in Hx by lia.
    assert ((len + idx - 1 * n) mod n = (len + idx) mod n) as E by (rewrite <- (Z.mod_add (len + idx - 1 * n) 1) by lia; f_equal; lia).
    rewrite E in Hx. by rewrite Hx.
  - replace (Z.max 0 (len - n) + idx) with idx in Hx by lia. rewrite Z.mod_small in Hx by lia. by rewrite Hx.
Qed.
End buffer.

(** However many entries are added, adding never fails, and the buffer is the list of the last
    [height] ones, oldest first. *)
Theorem circular_buffer_refines {T} (d : T) height h :
  0 < height ->
  exists b, add_all h (create d height) = Done b /\ size b = Z.min height (Z.of_nat (length h)) /\
    forall idx, 0 <= idx < size b ->
      exists x, last_n (Z.to_nat height) h !! Z.to_nat idx = Some x /\ get_entry idx b = Done x.
Proof.
  intros H. destruct (add_all_holds h _ [] (create_holds d height H)) as (b & E & Hb & S). exists b. split; [done|].
  destruct (holds_spec b ([] ++ h) Hb) as [Sz G]. cbn [app] in *.
  assert (L : length (m_data b) = Z.to_nat height).
  { unfold m_size, create in S. cbn in S. rewrite length_replicate in S. lia. }
  rewrite L in *. split; [|done]. rewrite Sz. unfold last_n. rewrite length_drop. lia.
Qed.
Lemma circular_buffer_refines_witness :
  exists b, add_all [1; 2; 3; 4; 5] (create 0 3) = Done b /\ size b = 3 /\ get_entry 0 b = Done 3.
Proof.
  destruct (circular_buffer_refines 0 3 [1; 2; 3; 4; 5]) as (b & E & S & G); [lia|]. exists b.
  change (size b = 3) in S. split_and!; [exact E|exact S|]. destruct (G 0) as (x & Hx & Gx); [lia|].
  change (Some 3 = Some x) in Hx. injection Hx as <-. exact Gx.
Defined.
End CircularBuffer.
