(* ===== verification/Paths.v ===== *)
(** * Paths: [tokenize] and [join] of [utils/stlutils.hpp], and [fs/pathutils.hpp]

    A string is the list of its characters.  [back] and [pop_back] of an empty vector are
    undefined in C++: [None]. *)
From stdpp Require Import base list.
From Stdlib Require Import ZArith Lia.
From S2P Require Import Prelude.

Module Paths.

Definition str : Type := list Z.
Definition slash : Z := 47.
Definition dot : Z := 46.

(** ** [tokenize] *)

(** [find_first_of] from the start of [s]: what is before the delimiter, and what is behind. *)
Fixpoint cut (delimiters s : str) : str * str :=
  match s with
  | [] => ([], [])
  | c :: s => if bool_decide (c ∈ delimiters) then ([], s) else let '(a, b) := cut delimiters s in (c :: a, b)
  end.
(** The loop; [s] is the string from [lastPos] on. *)
Fixpoint tokenize_loop (fuel : nat) (delimiters : str) (trimEmpty : bool) (s : str) : list str :=
  match fuel, s with
  | S fuel, _ :: _ =>
      let '(tok, rest) := cut delimiters s in
      (if negb (bool_decide (tok = [])) || negb trimEmpty then [tok] else []) ++ tokenize_loop fuel delimiters trimEmpty rest
  | _, _ => []
  end.
Definition tokenize (s delimiters : str) (trimEmpty : bool) : list str := tokenize_loop (length s) delimiters trimEmpty s.

Fixpoint join (cont : list str) (join_str : str) : str :=
  match cont with
  | [] => []
  | [t] => t
  | t :: cont => t ++ join_str ++ join cont join_str
  end.

Definition is_space (c : Z) : bool := (c =? 32) || ((9 <=? c) && (c <=? 13)).
Fixpoint trim_left (s : str) : str :=
  match s with c :: s' => if is_space c then trim_left s' else s | [] => [] end.
Definition trim_right (s : str) : str := rev (trim_left (rev s)).
Definition trim (s : str) : str := trim_right (trim_left s).
Definition quote : Z := 34.
Definition quote_tokenize (s : str) : list str :=
  concat (imap (fun i el => if Nat.odd i then [el] else tokenize (trim el) [32] true) (tokenize s [quote] false)).

(** ** Paths *)

Definition filename (path : str) : option str := last (tokenize path [slash] false).
Definition stem (path : str) : option str :=
  file ← filename path;
  let toks := tokenize file [dot] false in
  match toks with [] => None | _ :: _ => Some (join (removelast toks) [dot]) end.
Definition extension (path : str) : option str := file ← filename path; last (tokenize file [dot] false).
Definition parent_path (path : str) : option str :=
  let toks := tokenize path [slash] false in
  match toks with [] => None | _ :: _ => Some (join (removelast toks) [slash] ++ [slash]) end.
Definition dir_list (path : str) : option (list str) := p ← parent_path path; Some (tokenize p [slash] true).
Definition path_list (path : str) : list str := tokenize path [slash] true.

(** ** Lemmas *)

Section tokens.
Context (d : Z).
Abbreviation clean := (Forall (fun c => c <> d)).

Lemma cut_clean t : clean t -> cut [d] t = (t, []).
Proof.
  induction 1 as [|c t Hc Ht IH]; [done|]. cbn [cut]. rewrite bool_decide_false by (intros ->%list_elem_of_singleton; done).
  by rewrite IH.
Qed.
Lemma cut_at t s : clean t -> cut [d] (t ++ d :: s) = (t, s).
Proof.
  induction 1 as [|c t Hc Ht IH]; cbn [app cut].
  - by rewrite bool_decide_true by (by apply list_elem_of_singleton).
  - rewrite bool_decide_false by (intros ->%list_elem_of_singleton; done). by rewrite IH.
Qed.

(** The fuel is enough: each turn takes at least one character. *)
Lemma cut_length s a b : cut [d] s = (a, b) -> (length b <= length s)%nat /\ (s <> [] -> length b < length s)%nat.
Proof.
  revert a b. induction s as [|c s IH]; intros a b; cbn [cut]; [by intros [= <- <-]|].
  case_bool_decide; [intros [= <- <-]; cbn; lia|]. destruct (cut [d] s) as [a' b'] eqn:E. intros [= <- <-].
  destruct (IH _ _ eq_refl) as [? _]. cbn. lia.
Qed.
Lemma tokenize_fuel trim fuel : forall s, (length s <= fuel)%nat -> tokenize_loop fuel [d] trim s = tokenize s [d] trim.
Proof.
  unfold tokenize.
  assert (G : forall f1 f2 s, (length s <= f1)%nat -> (length s <= f2)%nat -> tokenize_loop f1 [d] trim s = tokenize_loop f2 [d] trim s).
  { induction f1 as [|f1 IH]; intros f2 s H1 H2.
    - destruct s; [|cbn in H1; lia]. by destruct f2.
    - destruct s as [|c s]; [by destruct f2|]. destruct f2 as [|f2]; [cbn in H2; lia|]. cbn [tokenize_loop].
      destruct (cut [d] (c :: s)) as [a b] eqn:E. destruct (cut_length _ _ _ E) as [_ L]. specialize (L ltac:(done)).
      cbn in H1, H2, L. f_equal. apply IH; lia. }
  intros s H. by apply G.
Qed.

Lemma tokenize_step trim t s : clean t -> tokenize (t ++ d :: s) [d] trim =
  (if negb (bool_decide (t = [])) || negb trim then [t] else []) ++ tokenize s [d] trim.
Proof.
  intros Ht. unfold tokenize at 1. replace (length (t ++ d :: s)) with (S (length t + length s)) by (rewrite length_app; cbn; lia).
  assert (exists c s', t ++ d :: s = c :: s') as (c & s' & E) by (destruct t; by eexists _, _).
  rewrite E. cbn [tokenize_loop]. rewrite <- E, cut_at by done. by rewrite tokenize_fuel by lia.
Qed.
Lemma tokenize_last trim t : clean t -> t <> [] -> tokenize t [d] trim = [t].
Proof.
  intros Ht N. destruct t as [|c t]; [done|]. unfold tokenize. cbn [length tokenize_loop]. rewrite cut_clean by done.
  rewrite bool_decide_false by done. cbn. f_equal. by destruct (length t).
Qed.
Lemma tokenize_nil trim : tokenize [] [d] trim = [].
Proof. done. Qed.

(** What is before the last delimiter, in segments. *)
Lemma tokenize_prefix p : exists segs, join segs [d] = p /\ segs <> [] /\
  forall x, tokenize (p ++ d :: x) [d] false = segs ++ tokenize x [d] false.
Proof.
  remember (length p) as n eqn:En. revert p En. induction n as [n IH] using lt_wf_ind. intros p En.
  destruct (decide (d ∈ p)) as [Hin|Hn].
  - apply list_elem_of_split in Hin as (a & b & E).
    (* take the first delimiter *)
    assert (exists a b, p = a ++ d :: b /\ clean a) as (a' & b' & E' & Ha).
    { clear -E. revert p b E. induction a as [|c a IHa]; intros p b ->.
      - exists [], b. done.
      - destruct (decide (c = d)) as [-> |N]; [by exists [], (a ++ d :: b)|].
        destruct (IHa (a ++ d :: b) b eq_refl) as (a1 & b1 & E1 & C1). exists (c :: a1), b1. cbn. rewrite E1. split; [done|by constructor]. }
    destruct (IH (length b')) with (p := b') as (segs & Ej & Ns & Et); [rewrite En, E', length_app; cbn; lia|done|].
    exists (a' :: segs). split_and!; [|done|].
    + cbn [join]. destruct segs as [|x segs]; [done|]. rewrite Ej. by rewrite E'.
    + intros x. rewrite E', <- app_assoc. cbn [app]. rewrite tokenize_step by done. rewrite Et. cbn [negb].
      by rewrite orb_true_r.
  - exists [p]. split_and!; [done|done|]. intros x. rewrite tokenize_step.
    + cbn [negb]. by rewrite orb_true_r.
    + apply Forall_forall. intros c Hc. by intros ->.
Qed.

(** Paths made of components. *)
Definition component (t : str) : Prop := clean t /\ t <> [].
Lemma tokenize_join toks s : Forall component toks ->
  tokenize (concat ((fun t => t ++ [d]) <$> toks) ++ s) [d] true = toks ++ tokenize s [d] true.
Proof.
  induction 1 as [|t toks [Ht N] _ IH]; [done|]. cbn [fmap list_fmap concat]. rewrite <- !app_assoc. cbn [app].
  rewrite tokenize_step by done. rewrite bool_decide_false by done. cbn. by rewrite IH.
Qed.
Lemma tokenize_delims s : tokenize (d :: s) [d] true = tokenize s [d] true.
Proof. change (d :: s) with ([] ++ d :: s). by rewrite tokenize_step. Qed.
Lemma join_concat toks t : join (toks ++ [t]) [d] = concat ((fun t => t ++ [d]) <$> toks) ++ t.
Proof.
  induction toks as [|x toks IH]; [done|]. cbn [app join fmap list_fmap concat]. rewrite <- !app_assoc, <- IH.
  destruct (toks ++ [t]) eqn:E; [by destruct toks|]. done.
Qed.
End tokens.

Lemma path_list_run toks absolute trailing :
  Forall (component slash) toks -> toks <> [] ->
  path_list ((if absolute : bool then [slash] else []) ++ join toks [slash] ++ (if trailing : bool then [slash] else [])) = toks.
Proof.
  intros H N. unfold path_list. destruct (exists_last N) as (init & t & ->). apply Forall_app in H as [Hi Ht].
  apply Forall_singleton in Ht as [Ct Nt]. rewrite join_concat.
  transitivity (tokenize ((concat ((fun t => t ++ [slash]) <$> init) ++ t) ++ (if trailing then [slash] else [])) [slash] true).
  { destruct absolute; [|done]. apply tokenize_delims. }
  rewrite <- app_assoc, tokenize_join by done. f_equal. destruct trailing.
  - rewrite tokenize_step by done. by rewrite bool_decide_false.
  - rewrite app_nil_r. by apply tokenize_last.
Qed.
Lemma path_list_of cs : Forall (component slash) cs -> cs <> [] -> path_list (slash :: join cs [slash]) = cs.
Proof. intros C N. pose proof (path_list_run cs true false C N) as E. by rewrite app_nil_r in E. Qed.
Lemma join_last cs : Forall (component slash) cs -> cs <> [] -> last (slash :: join cs [slash]) <> Some slash.
Proof.
  intros H N. destruct (exists_last N) as (init & t & ->). apply Forall_app in H as [_ Ht]. apply Forall_singleton in Ht as [Ct Nt].
  rewrite join_concat. destruct (exists_last Nt) as (a & c & ->). apply Forall_app in Ct as [_ Cc]. rewrite Forall_singleton in Cc.
  rewrite app_assoc, app_comm_cons, last_snoc. intros [= E]. by apply Cc.
Qed.

(** [path_list] gives back the components of a path, absolute or relative, with or without a
    slash at the end. *)
Theorem path_list_join toks absolute trailing :
  Forall (component slash) toks -> toks <> [] ->
  path_list ((if absolute : bool then [slash] else []) ++ join toks [slash] ++ (if trailing : bool then [slash] else [])) = toks.
Proof. apply path_list_run. Qed.
Lemma path_list_join_witness : path_list [47; 98; 105; 110; 47; 108; 115] = [[98; 105; 110]; [108; 115]].
Proof.
  apply (path_list_join [[98; 105; 110]; [108; 115]] true false); [|discriminate].
  repeat (constructor; [split; [|discriminate]; unfold slash; repeat (constructor; [lia|]); constructor|]). constructor.
Defined.

(** A path with a slash that does not end with one is its parent path followed by its file
    name. *)
Theorem parent_path_filename p f :
  component slash f ->
  filename (p ++ slash :: f) = Some f /\ parent_path (p ++ slash :: f) = Some (p ++ [slash]).
Proof.
  intros [Cf Nf]. destruct (tokenize_prefix slash p) as (segs & Ej & Ns & Et). unfold filename, parent_path.
  rewrite Et, (tokenize_last slash) by done. split; [apply last_snoc|].
  rewrite removelast_last, Ej. by destruct segs.
Qed.
Lemma parent_path_filename_witness : parent_path [47; 97; 47; 98] = Some [47; 97; 47].
Proof. apply (parent_path_filename [47; 97] [98]). split; [|discriminate]. unfold slash. repeat (constructor; [lia|]). constructor. Defined.

(** The same for the stem and the extension of a file name. *)
Lemma stem_extension p a e : component slash (a ++ dot :: e) -> component dot e ->
  stem (p ++ slash :: a ++ dot :: e) = Some a /\ extension (p ++ slash :: a ++ dot :: e) = Some e.
Proof.
  intros Hc [Ce Ne]. destruct (tokenize_prefix slash p) as (ps & _ & _ & Ept).
  assert (F : filename (p ++ slash :: a ++ dot :: e) = Some (a ++ dot :: e)).
  { unfold filename. destruct Hc as [Cf Nf]. rewrite Ept, (tokenize_last slash) by done. apply last_snoc. }
  destruct (tokenize_prefix dot a) as (segs & Ej & Ns & Et).
  unfold stem, extension. rewrite F. cbn [mbind option_bind]. rewrite Et, (tokenize_last dot) by done.
  split; [|apply last_snoc]. rewrite removelast_last, Ej. by destruct segs.
Qed.
End Paths.
