(* ===== verification/Vfs.v ===== *)
(** * Vfs: nodes, paths and the search of a path ([fs/vfs.cpp], [fs/fsutils.cpp])

    A node object is a node of the store or a symbolic link: [readdir] makes the links "."
    and "..", and the process file system has links among its children.  The links call
    [find] for their targets, so the operations take fuel; the theorems say how much is
    enough.  The nodes of a disk whose type is a link are not in the store. *)
From stdpp Require Import base list gmap.
From Stdlib Require Import ZArith Lia.
From S2P Require Import Prelude Errno Mem32 DeltaQueue Process Paths.
Import Errno Paths.

Module Vfs.

Inductive ntype := Unknown | File | Directory | SymLink | FIFO.
#[export] Instance ntype_eq_dec : EqDecision ntype.
Proof. solve_decision. Defined.

Inductive FSError := NotFound | ReadError | WriteError | InvalidLink | TooLarge | AlreadyExists | UnknownError.
Definition to_errno (e : FSError) : Z :=
  match e with
  | ReadError | WriteError => EIO
  | TooLarge => E2BIG
  | InvalidLink => ENOLINK
  | AlreadyExists => EEXIST
  | _ => ENOENT
  end.

Inductive ref := Node (id : Z) | Link (parent : ref) (target linkname : str).
#[export] Instance ref_eq_dec : EqDecision ref.
Proof. solve_decision. Defined.

(** A node; [v_children] is what its [readdir_impl] returns. *)
Record vnode := mkNode {
  v_name : str; v_type : ntype; v_perms : Z; v_uid : Z; v_gid : Z;
  v_children : list ref; v_parent : option Z; v_mounted : option Z;
}.
Definition store : Type := gmap Z vnode.
Definition root : Z := 0.
Definition dot_name : str := [dot].
Definition dotdot_name : str := [dot; dot].

Section vfs.
Context (s : store).

Definition name (r : ref) : str :=
  match r with Node i => from_option v_name [] (s !! i) | Link _ _ n => n end.
Definition parent (r : ref) : option ref :=
  match r with Node i => Node <$> (s !! i ≫= v_parent) | Link p _ _ => Some p end.
Definition mounted (r : ref) : option ref :=
  match r with Node i => Node <$> (s !! i ≫= v_mounted) | Link _ _ _ => None end.
Definition is_link (r : ref) : bool := match r with Node _ => false | Link _ _ _ => true end.

Definition named (n : str) (l : list ref) : option ref := List.find (fun r => bool_decide (name r = n)) l.

(** The loop of [find]; [None] is [NotFound]. *)
Fixpoint search (readdir : ref -> outcome (list ref)) (cur : ref) (dirs : list str) : outcome (option ref) :=
  match dirs with
  | [] => Done (Some cur)
  | d :: dirs =>
      match readdir cur with
      | Fault f => Fault f
      | Done l => match named d l with Some child => search readdir child dirs | None => Done None end
      end
  end.

(** [Some None] is the null pointer of an empty path, [None] the error. *)
Fixpoint find (fuel : nat) (path_ : str) : outcome (option (option ref)) :=
  match fuel with
  | O => Fault OutOfFuel
  | S fuel =>
      if bool_decide (path_ = []) then Done (Some None)
      else if bool_decide (path_ = [slash]) then Done (Some (Some (Node root)))
      else match search (readdir fuel) (Node root) (path_list path_) with
           | Done (Some r) => Done (Some (Some r))
           | Done None => Done None
           | Fault f => Fault f
           end
  end
with readdir (fuel : nat) (r : ref) : outcome (list ref) :=
  match fuel with
  | O => Fault OutOfFuel
  | S fuel =>
      list ← readdir_impl fuel (default r (mounted r));
      p ← path fuel r;
      let list := list ++ [Link r p dot_name] in
      match parent r with
      | None => Done list
      | Some q => p ← path fuel q; Done (list ++ [Link r p dotdot_name])
      end
  end
with readdir_impl (fuel : nat) (r : ref) : outcome (list ref) :=
  match r, fuel with
  | Node i, _ => Done (from_option v_children [] (s !! i))
  | Link _ _ _, O => Fault OutOfFuel
  | Link _ t _, S fuel =>
      res ← find fuel t;
      match res with Some (Some r) => readdir_impl fuel r | _ => Fault BadAccess end
  end
with type_of (fuel : nat) (r : ref) : outcome ntype :=
  match r, fuel with
  | Node i, _ => Done (from_option v_type File (s !! i))
  | Link _ _ _, O => Fault OutOfFuel
  | Link _ t _, S fuel =>
      res ← find fuel t;
      match res with Some (Some r) => type_of fuel r | _ => Fault BadAccess end
  end
with path (fuel : nat) (r : ref) : outcome str :=
  match fuel with
  | O => Fault OutOfFuel
  | S fuel =>
      t ← type_of fuel r;
      let suffix := if bool_decide (t = Directory) then [slash] else [] in
      match parent r with
      | None => Done suffix
      | Some q => p ← path fuel q; Done (p ++ name r ++ suffix)
      end
  end.

(** ** The search for user programs *)

Definition max_symlink_loop : nat := 40.

Inductive query := Error (e : Z) | Target (r : ref).

(** [resolve_symlink_lambd]: [find] is the search one level deeper, [counter] the turns left. *)
Fixpoint resolve (find : str -> outcome query) (pwd : str) (counter : nat) (cur : ref) : outcome query :=
  match cur with
  | Node _ => Done (Target cur)
  | Link _ target _ =>
      match counter with
      | O => Done (Error ELOOP)
      | S counter =>
          res ← find (pwd ++ target);
          match res with Error e => Done (Error e) | Target r => resolve find pwd counter r end
      end
  end.

(** The identity of the process, its working directory and its root. *)
Record identity := mkId { i_uid : Z; i_gid : Z; i_pwd : ref; i_root : ref }.
(** [stat()] of a link is its own, which [mkstat] made: all rights, whatever those of its target. *)
Definition perms_of (r : ref) : Z * Z * Z :=
  match r with Node i => from_option (fun n => (v_perms n, v_uid n, v_gid n)) (0, 0, 0) (s !! i) | Link _ _ _ => (0xFFF, 0, 0) end.
(** [ReadRequest|ExecRequest] is the value of [ExecRequest]. *)
Definition can_search (who : identity) (r : ref) : bool :=
  let '(perms, uid, gid) := perms_of r in Process.check_perms (i_uid who) (i_gid who) perms uid gid Process.ExecRequest.

(** The loop over the components: the node and [pwd] it ends with. *)
Fixpoint user_walk (fuel : nat) (find : str -> outcome query) (who : identity) (pwd : str) (cur : ref) (dirs : list str) :
    outcome (Z + ref * str) :=
  match dirs with
  | [] => Done (inr (cur, pwd))
  | d :: dirs =>
      res ← resolve find pwd max_symlink_loop cur;
      match res with
      | Error e => Done (inl e)
      | Target cur =>
          let pwd := pwd ++ name cur ++ [slash] in
          t ← type_of fuel cur;
          if negb (bool_decide (t = Directory)) then Done (inl ENOTDIR)
          else if negb (can_search who cur) then Done (inl EACCES)
          else
            l ← readdir fuel cur;
            match named d l with
            | Some child => user_walk fuel find who pwd child dirs
            | None => Done (inl ENOENT)
            end
      end
  end.

(** [depth] is [max_symlink_loop - recur_depth]. *)
Fixpoint user_find_impl (fuel : nat) (who : identity) (depth : nat) (path_ : str) : outcome query :=
  match depth with
  | O => Done (Error ELOOP)
  | S depth =>
      match path_ with
      | [] => Done (Error ENOENT)
      | c :: _ =>
          let cur := if c =? slash then i_root who else i_pwd who in
          pwd ← path fuel cur;
          res ← user_walk fuel (user_find_impl fuel who depth) who pwd cur (path_list path_);
          match res with
          | inl e => Done (Error e)
          | inr (cur, pwd) =>
              if bool_decide (last path_ = Some slash) then
                res ← resolve (user_find_impl fuel who depth) (default [] (parent_path pwd)) max_symlink_loop cur;
                match res with
                | Error e => Done (Error e)
                | Target cur =>
                    t ← type_of fuel cur;
                    if bool_decide (t = Directory) then Done (Target cur) else Done (Error ENOTDIR)
                end
              else Done (Target cur)
          end
      end
  end.
Definition user_find (fuel : nat) (who : identity) (path_ : str) : outcome query :=
  user_find_impl fuel who max_symlink_loop path_.
(** [resolve_symlink], for a link that is not looked up from another directory. *)
Definition resolve_symlink (fuel : nat) (who : identity) (link : ref) : outcome query :=
  resolve (user_find fuel who) [] max_symlink_loop link.
End vfs.

(** ** Mount points *)

Definition mount (target mountpoint : Z) (s : store) : bool * store :=
  match s !! target, s !! mountpoint with
  | Some t, Some m =>
      if bool_decide (v_type t = Directory) then
        let s := <[mountpoint := mkNode (v_name m) (v_type m) (v_perms m) (v_uid m) (v_gid m) (v_children m) (v_parent m) (Some target)]> s in
        (true, match s !! target with
               | Some t => <[target := mkNode (v_name t) (v_type t) (v_perms t) (v_uid t) (v_gid t) (v_children t) (Some mountpoint) (v_mounted t)]> s
               | None => s
               end)
      else (false, s)
  | _, _ => (false, s)
  end.
Definition umount (target : Z) (s : store) : bool * store :=
  match s !! target with
  | Some t =>
      match v_mounted t with
      | None => (false, s)
      | Some _ => (true, <[target := mkNode (v_name t) (v_type t) (v_perms t) (v_uid t) (v_gid t) (v_children t) (v_parent t) None]> s)
      end
  | None => (false, s)
  end.
End Vfs.
