(* ===== verification/VfsProofs.v ===== *)
(** * VfsProofs: a path leads back to its node *)
From stdpp Require Import base list gmap.
From Stdlib Require Import ZArith Lia.
From S2P Require Import Prelude Errno Mem32 DeltaQueue Process Paths Vfs.
Import Errno Paths Vfs.

Module VfsProofs.
Section store.
Context (s : store).

(** The node whose children a directory shows: what is mounted on it, or itself. *)
Definition shown (i : Z) : Z := default i (s !! i ≫= v_mounted).

(** A tree of directories: children know their parents and have proper names, which differ. *)
Record wf : Prop := {
  w_root : exists n, s !! root = Some n /\ v_parent n = None /\ v_type n = Directory;
  w_child i n j : s !! i = Some n -> Node j ∈ v_children n ->
    exists m, s !! j = Some m /\ v_parent m = Some i /\ component slash (v_name m);
  w_names i n : s !! i = Some n -> NoDup (name s <$> v_children n);
  w_dir i n : s !! i = Some n -> v_children n <> [] \/ v_mounted n <> None -> v_type n = Directory;
  w_mounted i n m : s !! i = Some n -> v_mounted n = Some m ->
    exists k, s !! m = Some k /\ v_parent k = Some i /\ v_name k = [] /\ v_type k = Directory;
}.

(** [at_path cs above j]: the names [cs] lead from the root to [j], through the directories
    [above]. *)
Inductive at_path : list str -> list Z -> Z -> Prop :=
  | at_root : at_path [] [] root
  | at_child cs above d n j m : at_path cs above d -> s !! shown d = Some n -> Node j ∈ v_children n -> s !! j = Some m ->
      at_path (cs ++ [v_name m]) (above ++ [d]) j.

Context (W : wf).

Lemma at_path_node cs above j : at_path cs above j -> is_Some (s !! j).
Proof. intros H. inversion H as [|]; subst; [destruct (w_root W) as (n & -> & _)|]; by eexists. Qed.

Lemma at_directory d n j : is_Some (s !! d) -> s !! shown d = Some n -> Node j ∈ v_children n ->
  exists nd, s !! d = Some nd /\ v_type nd = Directory /\ v_type n = Directory.
Proof.
  intros [nd Hd] Hn Hj. assert (v_children n <> []) by (intros E; rewrite E in Hj; by apply not_elem_of_nil in Hj).
  exists nd. split; [done|]. unfold shown in Hn. rewrite Hd in Hn. cbn in Hn. split; [|apply (w_dir W _ _ Hn); by left].
  apply (w_dir W _ _ Hd). destruct (v_mounted nd) as [m|]; [by right|]. cbn in Hn. left. congruence.
Qed.

Lemma path_unfold f i n : s !! i = Some n -> path s (S f) (Node i) =
  (let suffix := if bool_decide (v_type n = Directory) then [slash] else [] in
   match v_parent n with None => Done suffix | Some q => p ← path s f (Node q); Done (p ++ v_name n ++ suffix) end).
Proof. intros H. cbn [path]. destruct f; cbn; rewrite !H; cbn; by destruct (v_parent n). Qed.

(** The path of a node, and the components [path_list] finds in it. *)
Definition path_str (i : Z) (fuel : nat) (p : str) : Prop := forall f, (fuel <= f)%nat -> path s f (Node i) = Done p.
Definition leads (p : str) (cs : list str) : Prop := forall x, path_list (p ++ x) = cs ++ path_list x.

Lemma shown_path d cs n fuel p : s !! d = Some n -> s !! shown d <> None -> path_str d fuel p -> leads p cs ->
  exists p', path_str (shown d) (S fuel) p' /\ leads p' cs.
Proof.
  intros Hd _ P L. unfold shown. rewrite Hd. cbn. destruct (v_mounted n) as [m|] eqn:M; cbn.
  - destruct (w_mounted W d n m Hd M) as (k & Hk & Pk & Nk & Tk). exists (p ++ [slash]). split.
    + intros [|f] Hf; [lia|]. rewrite (path_unfold _ _ _ Hk), Pk, Nk, Tk, P by lia. done.
    + intros x. rewrite <- app_assoc, L. cbn. f_equal.
  - exists p. split; [|done]. intros f Hf. apply P. lia.
Qed.

Lemma at_path_str cs above j : at_path cs above j ->
  exists p n, s !! j = Some n /\ path_str j (2 * length cs + 1) p /\ p <> [] /\ path_list p = cs /\ (v_type n = Directory -> leads p cs).
Proof.
  induction 1 as [|cs above d n j m A IH Hn Hj Hm].
  - destruct (w_root W) as (n & Hn & Pn & Tn). exists [slash], n. split_and!; try done.
    + intros [|f] Hf; [cbn in Hf; lia|]. rewrite (path_unfold _ _ _ Hn), Pn, Tn. done.
  - destruct IH as (p & nd & Hd & P & _ & _ & L).
    destruct (at_directory d n j) as (nd' & Hd' & Td & _); [by eexists|done..|]. assert (nd' = nd) as -> by congruence.
    destruct (shown_path d cs nd _ p Hd ltac:(by rewrite Hn) P (L Td)) as (p' & P' & L').
    destruct (w_child W _ _ _ Hn Hj) as (m' & Hm' & Pm & [Cm Nm]). assert (m' = m) as -> by congruence.
    set (suffix := if bool_decide (v_type m = Directory) then [slash] else []).
    exists (p' ++ v_name m ++ suffix), m.
    assert (Len : (2 * length (cs ++ [v_name m]) + 1 = S (S (2 * length cs + 1)))%nat) by (rewrite length_app; cbn; lia).
    split_and!; [done| | | |].
    + intros [|f] Hf; [lia|]. rewrite (path_unfold _ _ _ Hm), Pm, P' by lia. done.
    + destruct p'; [|done]. by destruct (v_name m).
    + rewrite L'. f_equal. unfold suffix, path_list. case_bool_decide.
      * rewrite tokenize_step by done. by rewrite bool_decide_false.
      * rewrite app_nil_r. by apply tokenize_last.
    + intros Tm x. unfold suffix. rewrite bool_decide_true by done. rewrite <- !app_assoc, L'. cbn [app]. f_equal.
      unfold path_list. rewrite tokenize_step by done. by rewrite bool_decide_false.
Qed.

Lemma at_path_shown cs above d n : at_path cs above d -> s !! shown d = Some n -> v_children n <> [] ->
  exists p, path_str (shown d) (2 * length cs + 2) p.
Proof.
  intros A Hn C. destruct (at_path_str _ _ _ A) as (p & nd & Hd & P & _ & _ & L).
  assert (v_type nd = Directory) as Td.
  { apply (w_dir W _ _ Hd). unfold shown in Hn. rewrite Hd in Hn. cbn in Hn. destruct (v_mounted nd); [by right|]. left. cbn in Hn. congruence. }
  destruct (shown_path d cs nd _ p Hd ltac:(by rewrite Hn) P (L Td)) as (p' & P' & _). exists p'.
  intros f Hf. apply P'. lia.
Qed.

Lemma readdir_at cs above d n : at_path cs above d -> s !! shown d = Some n -> v_children n <> [] ->
  forall f, (2 * length cs + 3 <= f)%nat -> exists links, readdir s f (Node d) = Done (v_children n ++ links).
Proof.
  intros A Hn C f Hf. destruct f as [|f]; [lia|]. cbn [readdir].
  assert (M : default (Node d) (mounted s (Node d)) = Node (shown d)).
  { unfold mounted, shown. destruct (s !! d) as [nd|]; [|done]. cbn. by destruct (v_mounted nd). }
  rewrite M. assert (E : readdir_impl s f (Node (shown d)) = Done (v_children n)) by (destruct f; cbn; by rewrite Hn).
  rewrite E. cbn [mbind outcome_bind]. destruct (at_path_str _ _ _ A) as (p & nd & Hd & P & _). rewrite P by lia. cbn [mbind outcome_bind].
  destruct (parent s (Node d)) as [q|] eqn:Q; [|rewrite <- ?app_assoc; by eexists].
  assert (exists p', path s f q = Done p') as (p' & ->); [|cbn [mbind outcome_bind]; rewrite <- app_assoc; by eexists].
  inversion A as [|cs' above' d' n' j m A' Hn' Hj Hm]; subst.
  - destruct (w_root W) as (r & Hr & Pr & _). unfold parent in Q. rewrite Hr in Q. cbn in Q. rewrite Pr in Q. done.
  - destruct (w_child W _ _ _ Hn' Hj) as (m' & Hm' & Pm & _). assert (m' = m) as -> by congruence.
    unfold parent in Q. rewrite Hm in Q. cbn in Q. rewrite Pm in Q. injection Q as <-.
    destruct (at_path_shown _ _ _ _ A' Hn') as (p' & P'); [intros E'; rewrite E' in Hj; by apply not_elem_of_nil in Hj|].
    exists p'. apply P'. rewrite length_app in Hf. cbn in Hf. lia.
Qed.

Lemma named_child n j m links i : s !! i = Some n -> Node j ∈ v_children n -> s !! j = Some m ->
  named s (v_name m) (v_children n ++ links) = Some (Node j).
Proof.
  intros Hn Hj Hm. pose proof (w_names W _ _ Hn) as D. revert Hj D. generalize (v_children n) as l.
  assert (Nj : name s (Node j) = v_name m) by (cbn; by rewrite Hm).
  unfold named. induction l as [|r l IH]; intros Hj D; [by apply not_elem_of_nil in Hj|]. cbn [app List.find].
  cbn [fmap list_fmap] in D. apply NoDup_cons in D as [Nr D]. case_bool_decide as E.
  - apply elem_of_cons in Hj as [-> |Hj]; [done|]. exfalso. apply Nr. rewrite E, <- Nj. by apply list_elem_of_fmap_2.
  - apply elem_of_cons in Hj as [<- |Hj]; [done|]. by apply IH.
Qed.

Lemma search_app rd ds1 ds2 : forall cur, search s rd cur (ds1 ++ ds2) =
  match search s rd cur ds1 with Done (Some r) => search s rd r ds2 | x => x end.
Proof.
  induction ds1 as [|d ds1 IH]; intros cur; cbn [app search]; [done|]. destruct (rd cur) as [l|]; [|done].
  destruct (named s d l); [apply IH|done].
Qed.

Lemma search_at cs above j : at_path cs above j -> forall f, (2 * length cs + 3 <= f)%nat ->
  search s (readdir s f) (Node root) cs = Done (Some (Node j)).
Proof.
  induction 1 as [|cs above d n j m A IH Hn Hj Hm]; intros f Hf; [done|]. rewrite length_app in Hf. cbn in Hf.
  rewrite search_app, IH by lia. cbn [search].
  destruct (readdir_at cs above d n A Hn) with (f := f) as (links & E); [|lia|].
  { intros E'; rewrite E' in Hj; by apply not_elem_of_nil in Hj. }
  rewrite E, (named_child n j m links (shown d)) by done. done.
Qed.

Lemma find_path_run cs above j : at_path cs above j -> exists p, forall f, (2 * length cs + 5 <= f)%nat ->
  path s f (Node j) = Done p /\ find s f p = Done (Some (Some (Node j))).
Proof.
  intros A. destruct (at_path_str _ _ _ A) as (p & n & Hn & P & Np & Lp & _). exists p. intros f Hf. split; [apply P; lia|].
  destruct f as [|f]; [lia|]. cbn [find]. rewrite bool_decide_false by done. case_bool_decide as E.
  - rewrite E in Lp. change (path_list [slash]) with (@nil str) in Lp. subst cs. inversion A as [|cs' above' d n' j' m' A' ? ? ? E1]; [done|].
    by destruct cs'.
  - rewrite Lp, (search_at cs above j A) by lia. done.
Qed.

(** ** The search for programs *)

Lemma user_walk_app fuel fi who ds1 ds2 : forall pwd cur, user_walk s fuel fi who pwd cur (ds1 ++ ds2) =
  match user_walk s fuel fi who pwd cur ds1 with Done (inr (r, pwd')) => user_walk s fuel fi who pwd' r ds2 | x => x end.
Proof.
  induction ds1 as [|d ds1 IH]; intros pwd cur; cbn [app user_walk]; [done|].
  destruct (resolve fi pwd max_symlink_loop cur) as [[e|r]|]; cbn [mbind outcome_bind]; [done| |done].
  destruct (type_of s fuel r) as [t|]; cbn [mbind outcome_bind]; [|done]. destruct (negb _); [done|]. destruct (negb _); [done|].
  destruct (readdir s fuel r) as [l|]; cbn [mbind outcome_bind]; [|done]. destruct (named s d l); [apply IH|done].
Qed.

Lemma user_walk_at fi who cs above j : at_path cs above j -> forall f pwd, (2 * length cs + 3 <= f)%nat ->
  exists pwd', user_walk s f fi who pwd (Node root) cs =
    Done (if forallb (fun i => can_search s who (Node i)) above then inr (Node j, pwd') else inl EACCES).
Proof.
  induction 1 as [|cs above d n j m A IH Hn Hj Hm]; intros f pwd Hf; [by eexists|]. rewrite length_app in Hf. cbn in Hf.
  destruct (IH f pwd ltac:(lia)) as (pwd1 & E). rewrite user_walk_app, E, forallb_app. cbn [forallb]. rewrite andb_true_r.
  destruct (forallb _ above); cbn [andb]; [|by exists pwd]. cbn [user_walk].
  change (resolve fi pwd1 max_symlink_loop (Node d)) with (Done (Target (Node d))). cbn [mbind outcome_bind].
  destruct (at_directory d n j) as (nd & Hd & Td & _); [by eapply at_path_node|done..|].
  assert (Ty : type_of s f (Node d) = Done Directory) by (destruct f; cbn; rewrite Hd; cbn; by rewrite Td).
  rewrite Ty. cbn [mbind outcome_bind]. rewrite bool_decide_true by done. cbn [negb].
  destruct (can_search s who (Node d)); cbn [negb]; [|by exists pwd].
  destruct (readdir_at cs above d n A Hn) with (f := f) as (links & El); [|lia|].
  { intros E'; rewrite E' in Hj; by apply not_elem_of_nil in Hj. }
  rewrite El. cbn [mbind outcome_bind]. rewrite (named_child n j m links (shown d)) by done. by eexists.
Qed.

Lemma at_path_names cs above j : at_path cs above j -> Forall (component slash) cs.
Proof.
  induction 1 as [|cs above d n j m A IH Hn Hj Hm]; [constructor|]. apply Forall_app. split; [done|]. constructor; [|constructor].
  destruct (w_child W _ _ _ Hn Hj) as (m' & Hm' & _ & C). congruence.
Qed.

Lemma user_find_step f who depth c p : user_find_impl s f who (S depth) (c :: p) =
  (let cur := if c =? slash then i_root who else i_pwd who in
   pwd ← path s f cur;
   res ← user_walk s f (user_find_impl s f who depth) who pwd cur (path_list (c :: p));
   match res with
   | inl e => Done (Error e)
   | inr (cur, pwd) =>
       if bool_decide (last (c :: p) = Some slash) then
         res ← resolve (user_find_impl s f who depth) (default [] (parent_path pwd)) max_symlink_loop cur;
         match res with
         | Error e => Done (Error e)
         | Target cur =>
             t ← type_of s f cur;
             if bool_decide (t = Directory) then Done (Target cur) else Done (Error ENOTDIR)
         end
       else Done (Target cur)
   end).
Proof. reflexivity. Qed.

Lemma user_find_run who cs above j : at_path cs above j -> cs <> [] -> i_root who = Node root ->
  forall f, (2 * length cs + 3 <= f)%nat -> user_find s f who (slash :: join cs [slash]) =
    Done (if forallb (fun i => can_search s who (Node i)) above then Target (Node j) else Error EACCES).
Proof.
  intros A N R f Hf. unfold user_find. change max_symlink_loop with (S 39). rewrite user_find_step. cbv zeta. rewrite Z.eqb_refl, R.
  destruct (at_path_str _ _ _ at_root) as (p & n & _ & P & _). rewrite P by (cbn; lia). cbn [mbind outcome_bind].
  pose proof (at_path_names _ _ _ A) as C.
  assert (PL : path_list (slash :: join cs [slash]) = cs).
  { pose proof (path_list_of cs C N) as E. exact E. }
  rewrite PL. destruct (user_walk_at (user_find_impl s f who 39) who cs above j A f p Hf) as (pwd' & ->). cbn [mbind outcome_bind].
  destruct (forallb _ above); [|done].
  rewrite bool_decide_false; [done|]. intros E. by apply (join_last cs C N).
Qed.
End store.

(** A directory tree with a mounted file system:
    "/bin/ls", "/etc", "/mnt", where a node with the file "a" is mounted on "/mnt". *)
Definition bin : str := [98; 105; 110].
Definition ls : str := [108; 115].
Definition etc : str := [101; 116; 99].
Definition mnt : str := [109; 110; 116].
Definition sample : store :=
  <[0 := mkNode [] Directory 0x1FF 0 0 [Node 1; Node 2; Node 3] None None]>
  (<[1 := mkNode bin Directory 0x1FF 0 0 [Node 4] (Some 0) None]>
  (<[2 := mkNode etc Directory 0x1C0 0 0 [] (Some 0) None]>
  (<[3 := mkNode mnt Directory 0x1FF 0 0 [] (Some 0) (Some 5)]>
  (<[4 := mkNode ls File 0x1FF 0 0 [] (Some 1) None]>
  (<[5 := mkNode [] Directory 0x1FF 0 0 [Node 6] (Some 3) None]>
  (<[6 := mkNode [97] File 0x1FF 0 0 [] (Some 5) None]> ∅)))))).

Ltac each H := unfold sample in H; repeat (apply lookup_insert_Some in H; destruct H as [[<- <-]|[_ H]]); [..|by apply lookup_empty_Some in H].
Lemma sample_wf : wf sample.
Proof.
  split.
  - eexists. split_and!; [reflexivity|done|done].
  - intros i n j H C. each H; cbn [v_children] in C; repeat (apply elem_of_cons in C; destruct C as [E|C]; [injection E as ->|]);
      try (by apply not_elem_of_nil in C); (eexists; split; [reflexivity|]; split; [done|]; split; [|done];
      cbn; unfold slash; repeat (constructor; [lia|]); constructor).
  - intros i n H. each H; apply (bool_decide_unpack _); vm_compute; exact I.
  - intros i n H C. each H; try done; cbn in C; destruct C; congruence.
  - intros i n m H M. each H; try done. injection M as <-. eexists. split_and!; [reflexivity|done..].
Defined.
Lemma sample_a : at_path sample [mnt; [97]] [0; 3] 6.
Proof.
  apply (at_child sample [mnt] [0] 3 (mkNode [] Directory 0x1FF 0 0 [Node 6] (Some 3) None) 6 (mkNode [97] File 0x1FF 0 0 [] (Some 5) None));
    [|reflexivity|by left|reflexivity].
  apply (at_child sample [] [] 0 (mkNode [] Directory 0x1FF 0 0 [Node 1; Node 2; Node 3] None None) 3 (mkNode mnt Directory 0x1FF 0 0 [] (Some 0) (Some 5)));
    [apply at_root|reflexivity|by right; right; left|reflexivity].
Defined.

(** C16: [find] of the [path] of a node is the node, through mount points too; fuel of twice the
    depth and five more is enough. *)
Theorem find_path s cs above j :
  wf s -> at_path s cs above j ->
  exists p, forall fuel, (2 * length cs + 5 <= fuel)%nat ->
    path s fuel (Node j) = Done p /\ find s fuel p = Done (Some (Some (Node j))).
Proof. intros W A. exact (find_path_run s W cs above j A). Qed.
Lemma find_path_witness : exists p, path sample 9 (Node 6) = Done p /\ find sample 9 p = Done (Some (Some (Node 6))).
Proof. destruct (find_path sample [mnt; [97]] [0; 3] 6 sample_wf sample_a) as (p & H). exists p. apply H. cbn. lia. Defined.

(** [user_find] of an absolute path of proper names finds the node when the process may search
    every directory above it, and is [EACCES] otherwise. *)
Theorem user_find_spec s who cs above j fuel :
  wf s -> at_path s cs above j -> cs <> [] -> i_root who = Node root -> (2 * length cs + 3 <= fuel)%nat ->
  user_find s fuel who (slash :: join cs [slash]) =
    Done (if forallb (fun i => can_search s who (Node i)) above then Target (Node j) else Error EACCES).
Proof. intros W A N R F. by apply user_find_run. Qed.
Lemma user_find_spec_witness :
  user_find sample 9 (mkId 7 7 (Node 0) (Node 0)) (slash :: mnt ++ slash :: [97]) = Done (Target (Node 6)).
Proof. apply (user_find_spec sample (mkId 7 7 (Node 0) (Node 0)) [mnt; [97]] [0; 3] 6 9 sample_wf sample_a); [discriminate|reflexivity|cbn; lia]. Defined.

(** A program cannot use ".." or ".": the target of these links is an absolute path and the
    search puts the path so far in front of it.  The kernel finds "/bin/../etc", a program does
    not, nor "./ls" from "/bin"; it finds "/bin/ls" as "/bin/../ls". *)
Theorem user_find_dots :
  let who := mkId 0 0 (Node 1) (Node 0) in
  let up := slash :: bin ++ slash :: dotdot_name in
  find sample 20 (up ++ slash :: etc) = Done (Some (Some (Node 2))) /\
  user_find sample 20 who (up ++ slash :: etc) = Done (Error ENOENT) /\
  user_find sample 20 who (dot_name ++ slash :: ls) = Done (Error ENOENT) /\
  user_find sample 20 who (up ++ slash :: ls) = Done (Target (Node 4)).
Proof. vm_compute. split_and!; reflexivity. Qed.
End VfsProofs.
