(* ===== verification/Ext2.v ===== *)
(** * Ext2: blocks, inodes and directories of an ext2 file system ([fs/ext2/ext2.cpp])

    The structures are the bytes the code casts to them, with an accessor per field.  The
    state of a file system is its copy of the superblock, [m_current_block], the one buffer
    that most operations read blocks into, and the disk.  A span of bytes that is passed to
    an operation can be that buffer itself, so spans are values of the type [span] and are
    looked up when they are used.  The disk is any instance of [ByteDisk]. *)
From stdpp Require Import base list.
From Stdlib Require Import ZArith Lia.
From S2P Require Import Prelude Disk DiskProofs Crc32.

(** What a disk promises to a file system: reads from the start of a sector and writes return
    and do what they should; a write needs one sector more than it covers. *)
Class ByteDisk (D : Type) := {
  bd_sector : D -> Z;
  bd_size : D -> Z;
  bd_read : Z -> list Z -> D -> outcome (DiskError + list Z);
  bd_write : Z -> list Z -> D -> outcome (DiskError + D);
  bd_contents : D -> Z -> Z;
  bd_ok : D -> Prop;
  bd_sizes d : bd_ok d -> 0 < bd_sector d /\ 0 <= bd_size d < 2 ^ 31;
  bd_read_ok d offset data :
    bd_ok d -> 0 <= offset -> (bd_sector d | offset) -> offset + Z.of_nat (length data) <= bd_size d ->
    bd_read offset data d = Done (inr (bytes (bd_contents d) offset (Z.of_nat (length data))));
  bd_read_length d offset data l : bd_read offset data d = Done (inr l) -> length l = length data;
  bd_write_ok d offset data :
    bd_ok d -> 0 <= offset -> (bd_sector d | offset) -> (bd_sector d | Z.of_nat (length data)) ->
    offset + Z.of_nat (length data) + bd_sector d <= bd_size d ->
    exists d', bd_write offset data d = Done (inr d') /\ bd_ok d' /\ bd_sector d' = bd_sector d /\ bd_size d' = bd_size d /\
      forall x, bd_contents d' x = overwrite (bd_contents d) offset data x;
}.

(** The disks over sectors are such disks. *)
Section sectors.
Context {D : Type} `{SD : SectorDevice D}.
Lemma sector_sizes d : sd_ok d -> 0 < sector_size d /\ 0 <= disk_size d < 2 ^ 31.
Proof. intros O. destruct (sd_sizes d O) as (P & S & _). done. Qed.
Lemma copy_to_length dst pos src l : Disk.copy_to dst pos src = Done l -> length l = length dst.
Proof.
  unfold Disk.copy_to. case_match eqn:E; [|done]. apply andb_prop in E as [E1%Z.leb_le E2%Z.leb_le]. intros [= <-].
  rewrite !length_app, length_take, length_drop. lia.
Qed.
Lemma sector_read_length d offset data l : Disk.read offset data d = Done (inr l) -> length l = length data.
Proof.
  unfold Disk.read, Disk.ebind, Disk.lift. intros H. repeat case_match; simplify_eq; try done;
    repeat match goal with E : Disk.copy_to _ _ _ = Done _ |- _ => apply copy_to_length in E end; congruence.
Qed.
Lemma sector_write d offset data :
  sd_ok d -> 0 <= offset -> (sector_size d | offset) -> (sector_size d | Z.of_nat (length data)) ->
  offset + Z.of_nat (length data) + sector_size d <= disk_size d ->
  exists d', Disk.write false offset data d = Done (inr d') /\ sd_ok d' /\ sector_size d' = sector_size d /\
    disk_size d' = disk_size d /\ forall x, contents d' x = overwrite (contents d) offset data x.
Proof.
  intros O Ho [q Hq] [k Hk] Hs. destruct (sd_sizes d O) as (P & _).
  destruct (DiskProofs.write_run d offset data O Ho) as (d' & E & W); [|by exists d'].
  rewrite Hk, Hq, Z.div_mul by lia. replace (k * sector_size d + sector_size d - 1) with (sector_size d - 1 + k * sector_size d) by lia.
  rewrite Z.div_add, (Z.div_small (_ - 1)) by lia. lia.
Qed.
#[export] Instance sector_disk : ByteDisk D := {|
  bd_sector := sector_size; bd_size := disk_size; bd_read := Disk.read; bd_write := Disk.write false;
  bd_contents := contents; bd_ok := sd_ok;
  bd_sizes := sector_sizes; bd_read_ok := DiskProofs.read_aligned_run; bd_read_length := sector_read_length; bd_write_ok := sector_write |}.
End sectors.

Module Ext2.

(** ** Bytes *)

Definition byte_at (l : list Z) (i : Z) : Z := nth (Z.to_nat i) l 0.
Definition get16 (i : Z) (l : list Z) : Z := byte_at l i + 2 ^ 8 * byte_at l (i + 1).
Definition get32 (i : Z) (l : list Z) : Z := get16 i l + 2 ^ 16 * get16 (i + 2) l.
Definition le16 (v : Z) : list Z := [u8 v; u8 (v / 2 ^ 8)].
Definition le32 (v : Z) : list Z := le16 v ++ le16 (v / 2 ^ 16).
(** [l] with [src] from position [i] on. *)
Definition splice (i : Z) (src l : list Z) : list Z :=
  take (Z.to_nat i) l ++ src ++ drop (Z.to_nat i + length src) l.
Definition set16 (i v : Z) (l : list Z) : list Z := splice i (le16 v) l.
Definition set32 (i v : Z) (l : list Z) : list Z := splice i (le32 v) l.
Definition slice (i n : Z) (l : list Z) : list Z := take (Z.to_nat n) (drop (Z.to_nat i) l).
Definition size (l : list Z) : Z := Z.of_nat (length l).

(** [utils/bitops.hpp], for a byte. *)
Definition bit_set (val pos : Z) : Z := u8 (Z.lor val (Z.shiftl 1 pos)).
Definition bit_clear (val pos : Z) : Z := u8 (Z.land val (Z.lnot (Z.shiftl 1 pos))).
Definition bit_check (val pos : Z) : bool := Ztrue (Z.land (Z.shiftr val pos) 1).

(** ** Structures *)

Definition inode_count := get32 0.
Definition block_count := get32 4.
Definition unallocated_blocks := get32 12.
Definition unallocated_inodes := get32 16.
Definition log_block_size := get32 24.
Definition blocks_in_block_group := get32 32.
Definition inodes_in_block_group := get32 40.
Definition mounts_since_fsck := get16 52.
Definition ext2_signature := get16 56.
Definition fs_state := get16 58.
Definition error_handling := get16 60.
Definition version_major := get32 76.
Definition sb_inode_size := get16 88.
Definition required_features := get32 96.
Definition ro_required_features := get32 100.

Definition block_bitmap := get32 0.
Definition inode_bitmap := get32 4.
Definition inode_table := get32 8.
Definition free_blocks_count := get16 12.
Definition free_inodes_count := get16 14.
Definition used_dirs_count := get16 16.

Definition i_type := get16 0.
Definition i_uid := get16 2.
Definition size_lower := get32 4.
Definition i_gid := get16 24.
Definition links_count := get16 26.
Definition blocks_512 := get32 28.
Definition i_flags := get32 32.
Definition block_ptr (i : Z) := get32 (40 + 4 * i).

(** The characters of [name] beyond [name_len] are never used. *)
Record DirectoryEntry := mkEntry { d_inode : Z; record_len : Z; name_len : Z; file_type : Z; d_name : list Z }.
#[export] Instance DirectoryEntry_eq_dec : EqDecision DirectoryEntry.
Proof. solve_decision. Defined.

Definition signature : Z := 0xef53.
Definition HasErrors : Z := 2.
Definition PanicOnError : Z := 3.

Section ext2.
Context {D : Type} `{BD : ByteDisk D}.

(** [zeroes] is the static buffer of [alloc_block], once it is made. *)
Record ext2 := mkExt2 {
  m_superblock : list Z; m_current_block : list Z; m_has_error : Z; m_disk : D; zeroes : option (list Z);
}.
Abbreviation E := (M ext2).

Definition set_superblock (sb : list Z) : E unit :=
  modify (fun s => mkExt2 sb (m_current_block s) (m_has_error s) (m_disk s) (zeroes s)).
Definition set_current_block (l : list Z) : E unit :=
  modify (fun s => mkExt2 (m_superblock s) l (m_has_error s) (m_disk s) (zeroes s)).
Definition set_has_error (e : Z) : E unit :=
  modify (fun s => mkExt2 (m_superblock s) (m_current_block s) e (m_disk s) (zeroes s)).
Definition set_disk (d : D) : E unit :=
  modify (fun s => mkExt2 (m_superblock s) (m_current_block s) (m_has_error s) d (zeroes s)).

(** Division traps on zero. *)
Definition divmod (a b : Z) : E (Z * Z) := if b =? 0 then fail Panic else mret (a / b, a mod b).
Definition lift {A} (o : outcome A) : E A := match o with Done a => mret a | Fault f => fail f end.

(** Checked access to [m_current_block]. *)
Definition cur_slice (i n : Z) : E (list Z) :=
  cur ← gets m_current_block;
  if (0 <=? i) && (i + n <=? size cur) then mret (slice i n cur) else fail BadAccess.
Definition cur_splice (i : Z) (src : list Z) : E unit :=
  cur ← gets m_current_block;
  if (0 <=? i) && (i + size src <=? size cur) then set_current_block (splice i src cur) else fail BadAccess.
Definition cur8 (i : Z) : E Z := l ← cur_slice i 1; mret (byte_at l 0).
Definition cur32 (i : Z) : E Z := l ← cur_slice (4 * i) 4; mret (get32 0 l).

Definition block_size_of (sb : list Z) : Z := u32 (Z.shiftl 1024 (log_block_size sb)).
Definition inode_size_of (sb : list Z) : Z := if 1 <=? version_major sb then sb_inode_size sb else 128.
Definition block_size : E Z := gets (fun s => block_size_of (m_superblock s)).
Definition inode_size : E Z := gets (fun s => inode_size_of (m_superblock s)).

Definition error : E unit :=
  set_has_error HasErrors ;;
  sb ← gets m_superblock;
  if error_handling sb =? PanicOnError then fail Panic else mret tt.

(** ** Blocks *)

(** A span of bytes: the shared buffer, a buffer of the caller, or [n] bytes that are not all
    inside a buffer. *)
Inductive span := Current | Local (l : list Z) | Outside (n : Z).
Definition span_size (sp : span) : E Z :=
  match sp with Current => cur ← gets m_current_block; mret (size cur) | Local l => mret (size l) | Outside n => mret n end.

(** The result is the span after the read. *)
Definition read_block (number : Z) (data : span) : E (DiskError + span) :=
  sb ← gets m_superblock;
  n ← span_size data;
  assert_ (number <? block_count sb) ;;
  assert_ (n =? block_size_of sb) ;;
  d ← gets m_disk;
  let offset := u32 (number * block_size_of sb) in
  match data with
  | Outside _ => fail BadAccess
  | Local l =>
      r ← lift (bd_read offset l d);
      match r with inl e => mret (inl e) | inr l => mret (inr (Local l)) end
  | Current =>
      l ← gets m_current_block;
      r ← lift (bd_read offset l d);
      match r with inl e => mret (inl e) | inr l => set_current_block l ;; mret (inr Current) end
  end.
(** [read_block(number, m_current_block)] whose result is not looked at.  After a failed read
    nothing is known about the buffer: the model stops. *)
Definition read_current (number : Z) : E unit :=
  r ← read_block number Current;
  match r with inr _ => mret tt | inl _ => fail BadAccess end.

Definition block_group_table_block (sb : list Z) : Z := if log_block_size sb =? 0 then 2 else 1.

Definition get_block_group (idx : Z) : E (list Z) :=
  bs ← block_size;
  sb ← gets m_superblock;
  '(q, r) ← divmod idx (bs / 32);
  read_current (u32 (block_group_table_block sb + q)) ;;
  cur_slice (r * 32) 32.

(** ** Inodes *)

Definition check_inode_presence (inode : Z) : E bool :=
  sb ← gets m_superblock;
  '(group, index) ← divmod (u32 (inode - 1)) (inodes_in_block_group sb);
  block_group ← get_block_group group;
  read_current (inode_bitmap block_group) ;;
  b ← cur8 (index / 8);
  mret (bit_check b (index mod 8)).

Definition read_inode (inode : Z) : E (list Z) :=
  present ← check_inode_presence inode;
  when (negb present) error ;;
  sb ← gets m_superblock;
  '(group, index) ← divmod (u32 (inode - 1)) (inodes_in_block_group sb);
  block_group ← get_block_group group;
  bs ← block_size;
  isz ← inode_size;
  '(per_block, _) ← divmod bs isz;
  '(_, offset) ← divmod index per_block;
  read_current (u32 (inode_table block_group + u32 (index * isz) / bs)) ;;
  cur_slice (offset * 128) 128.

(** ** The blocks of a file *)

Definition data_blocks (sb inode : list Z) : Z :=
  let bs := block_size_of sb in
  size_lower inode / bs + (if Ztrue (size_lower inode mod bs) then 1 else 0).

Definition count_used_blocks (sb inode : list Z) : Z :=
  let entries_per_block := block_size_of sb / 4 in
  let n := data_blocks sb inode in
  let blk := if 12 <=? n then u32 (n + 1) else n in
  let m := u32 (n - 12) in
  if entries_per_block <=? m then u32 (blk + m / entries_per_block + (if Ztrue (m mod entries_per_block) then 1 else 0)) else blk.

(** The three levels of tables; the depth of a call is 1, 2 or 3. *)
Fixpoint get_data_block_indirected (depth : nat) (indirected_block blk_id : Z) : E Z :=
  match depth with
  | O => fail BadAccess
  | S depth' =>
      bs ← block_size;
      entries ← lift (Crc32.ipow (bs / 4) (Z.of_nat depth'));
      read_current indirected_block ;;
      match depth' with
      | O => cur32 blk_id
      | S _ =>
          '(tgt_block_idx, offset) ← divmod blk_id entries;
          b ← cur32 tgt_block_idx;
          get_data_block_indirected depth' b offset
      end
  end.

Definition get_data_block (inode : list Z) (blk_id : Z) : E Z :=
  bs ← block_size;
  let entries_per_block := bs / 4 in
  if blk_id <? 12 then mret (block_ptr blk_id inode)
  else
    let blk_id := blk_id - 12 in
    if blk_id <? entries_per_block then get_data_block_indirected 1 (block_ptr 12 inode) blk_id
    else
      let blk_id := blk_id - entries_per_block in
      if blk_id <? u32 (entries_per_block * entries_per_block) then get_data_block_indirected 2 (block_ptr 13 inode) blk_id
      else
        let blk_id := blk_id - u32 (entries_per_block * entries_per_block) in
        get_data_block_indirected 3 (block_ptr 14 inode) blk_id.

Fixpoint read_indirected (depth : nat) (indirected_block blk_id : Z) (data : span) : E (DiskError + span) :=
  match depth with
  | O => fail BadAccess
  | S depth' =>
      bs ← block_size;
      entries ← lift (Crc32.ipow (bs / 4) (Z.of_nat depth'));
      read_current indirected_block ;;
      match depth' with
      | O => b ← cur32 blk_id; read_block b data
      | S _ =>
          '(tgt_block_idx, offset) ← divmod blk_id entries;
          b ← cur32 tgt_block_idx;
          read_indirected depth' b offset data
      end
  end.
Definition read_data_block (inode : list Z) (blk_id : Z) (data : span) : E (DiskError + span) :=
  bs ← block_size;
  let entries_per_block := bs / 4 in
  if blk_id <? 12 then read_block (block_ptr blk_id inode) data
  else
    let blk_id := blk_id - 12 in
    if blk_id <? entries_per_block then read_indirected 1 (block_ptr 12 inode) blk_id data
    else
      let blk_id := blk_id - entries_per_block in
      if blk_id <? u32 (entries_per_block * entries_per_block) then read_indirected 2 (block_ptr 13 inode) blk_id data
      else
        let blk_id := blk_id - u32 (entries_per_block * entries_per_block) in
        read_indirected 3 (block_ptr 14 inode) blk_id data.

(** The loop of [read_data].  The span of block [i] starts [i] blocks into [data] and has the
    size of [data]. *)
Fixpoint read_data_loop (fuel : nat) (inode : list Z) (i : Z) (data : span) : E (DiskError + span) :=
  match fuel with
  | O => mret (inr data)
  | S fuel =>
      n ← span_size data;
      r ← read_data_block inode i (if i =? 0 then data else Outside n);
      match r with
      | inl e => mret (inl e)
      | inr sp => read_data_loop fuel inode (i + 1) (if i =? 0 then sp else data)
      end
  end.
Definition read_data (inode : list Z) (offset : Z) (data : span) : E (DiskError + span) :=
  sb ← gets m_superblock;
  let blocks := data_blocks sb inode in
  n ← span_size data;
  '(count, rest) ← divmod n (block_size_of sb);
  assert_ (rest =? 0) ;;
  assert_ (offset + count <=? blocks) ;;
  read_data_loop (Z.to_nat count) inode offset data.

(** ** Directories *)

(** The bytes at a pointer, as an entry. *)
Definition entry_at (p : list Z) : DirectoryEntry :=
  mkEntry (get32 0 p) (get16 4 p) (byte_at p 6) (byte_at p 7) (slice 8 (byte_at p 6) p).
(** The loop of [read_directory], from [ptr] on.  The code copies the whole structure of 264 bytes
    at [ptr], past the end of the buffer for the last entries; an entry is here what is later used
    of the copy, the fields and the first [name_len] characters. *)
Fixpoint read_directory_loop (fuel : nat) (ptr : Z) (data : list Z) : E (list DirectoryEntry) :=
  match fuel with
  | O => mret []
  | S fuel =>
      if ptr <? size data then
        if size data <? ptr + 8 then fail BadAccess
        else
          let entry := entry_at (drop (Z.to_nat ptr) data) in
          let entries := if Ztrue (d_inode entry) then [entry] else [] in
          if record_len entry =? 0 then error ;; mret entries
          else rest ← read_directory_loop fuel (ptr + record_len entry) data; mret (entries ++ rest)
      else mret []
  end.
Definition read_directory (data : list Z) : E (list DirectoryEntry) := read_directory_loop (length data) 0 data.

Definition read_directory_entries (inode : Z) : E (list DirectoryEntry) :=
  inode_struct ← read_inode inode;
  sb ← gets m_superblock;
  r ← read_data inode_struct 0 (Local (replicate (Z.to_nat (data_blocks sb inode_struct * block_size_of sb)) 0));
  match r with
  | inr (Local buf) => read_directory buf
  | _ => fail AssertFailed
  end.

(** ** Reading a file *)

(** [ext2_node::read_impl] of a file that is not a link, after the check of its size: the
    bytes and [read_size]. *)
Definition read_file (inode : Z) (offset : Z) (data : list Z) : E (DiskError + list Z * Z) :=
  inode_struct ← read_inode inode;
  blk_size ← block_size;
  let n := size data in
  let first_stride_size := offset mod blk_size in
  let second_stride_size := u32 (offset + n) mod blk_size in
  let head := (blk_size - first_stride_size) mod blk_size in
  let mid_stride_size := u32 (n - head - second_stride_size) in
  let fresh := Local (replicate (Z.to_nat blk_size) 0) in
  r ← (if Ztrue first_stride_size then
         r ← read_data_block inode_struct (offset / blk_size) fresh;
         match r with
         | inl e => mret (inl e)
         | inr (Local buf) =>
             data ← lift (Disk.copy_to data 0 (drop (Z.to_nat first_stride_size) buf));
             mret (inr (data, blk_size - first_stride_size))
         | inr _ => fail BadAccess
         end
       else mret (inr (data, 0)));
  match r with
  | inl e => mret (inl e)
  | inr (data, read_size) =>
      r ← (if Ztrue second_stride_size then
             r ← read_data_block inode_struct (u32 (offset + n) / blk_size) fresh;
             match r with
             | inl e => mret (inl e)
             | inr (Local buf) =>
                 data ← lift (Disk.copy_to data (n - second_stride_size) (take (Z.to_nat second_stride_size) buf));
                 mret (inr (data, read_size + second_stride_size))
             | inr _ => fail BadAccess
             end
           else mret (inr (data, read_size)));
      match r with
      | inl e => mret (inl e)
      | inr (data, read_size) =>
          if Ztrue mid_stride_size then
            assert_ (mid_stride_size mod blk_size =? 0) ;;
            let aligned_span :=
              if head + mid_stride_size <=? n then Local (slice head mid_stride_size data) else Outside mid_stride_size in
            r ← read_data inode_struct (offset / blk_size) aligned_span;
            match r with
            | inl e => mret (inl e)
            | inr (Local buf) =>
                data ← lift (Disk.copy_to data head buf);
                mret (inr (data, read_size + mid_stride_size))
            | inr _ => fail BadAccess
            end
          else mret (inr (data, read_size))
      end
  end.
End ext2.
Arguments ext2 : clear implicits.
End Ext2.
