(* ===== verification/Ext2Write.v ===== *)
(** * Ext2Write: allocation, writing and directories of an ext2 file system ([fs/ext2/ext2_write.cpp])

    [epoch] is the time the clock shows.  [is_power_of], which compares floating-point
    logarithms, is a parameter. *)
From stdpp Require Import base list.
From Stdlib Require Import ZArith Lia.
From S2P Require Import Prelude Disk DiskProofs Crc32 Ext2.
Import Ext2.

Module Ext2Write.
Section ext2.
Context {D : Type} `{BD : ByteDisk D} (epoch : Z) (is_power_of : Z -> Z -> bool).
Abbreviation E := (M (ext2 D)).

(** [m_disk.write], whose result is not looked at: a disk that is read-only keeps its bytes;
    after another error nothing is known about them and the model stops. *)
Definition disk_write (offset : Z) (data : list Z) : E unit :=
  d ← gets m_disk;
  r ← lift (bd_write offset data d);
  match r with inr d => set_disk d | inl ReadOnly => mret tt | inl _ => fail BadAccess end.

Definition write_block (number : Z) (data : span) : E unit :=
  sb ← gets m_superblock;
  assert_ (number <? block_count sb) ;;
  match data with
  | Outside _ => fail BadAccess
  | Local l => disk_write (u32 (number * block_size_of sb)) l
  | Current => l ← gets m_current_block; disk_write (u32 (number * block_size_of sb)) l
  end.

(** ** The superblock *)

(** The groups with a copy of the superblock. *)
Definition has_backup (sb : list Z) (i : Z) : bool :=
  (version_major sb =? 0) ||
  ((1 <=? version_major sb) && ((i =? 1) || is_power_of i 3 || is_power_of i 5 || is_power_of i 7)).
Definition backup_groups (last_group : Z) : list Z := (fun i => Z.of_nat i) <$> seq 1 (Z.to_nat last_group).
Definition update_superblock : E unit :=
  sb ← gets m_superblock;
  let sb := set32 48 epoch sb in
  set_superblock sb ;;
  '(last_group, _) ← divmod (block_count sb) (blocks_in_block_group sb);
  disk_write 1024 sb ;;
  for_each (backup_groups last_group) (fun i =>
    when (has_backup sb i) (write_block (u32 (i * blocks_in_block_group sb + 1)) (Local sb))).

Definition check_superblock_backups : E bool :=
  sb ← gets m_superblock;
  '(last_group, _) ← divmod (block_count sb) (blocks_in_block_group sb);
  (fix loop (l : list Z) (okay : bool) : E bool :=
     match l with
     | [] => mret okay
     | i :: l =>
         if has_backup sb i then
           read_current (u32 (i * blocks_in_block_group sb + 1)) ;;
           cur ← gets m_current_block;
           loop l (okay && (ext2_signature cur =? signature))
         else loop l okay
     end) (backup_groups last_group) true.

Definition read_superblock (d : D) : outcome (option (list Z)) :=
  if bd_size d <? 2048 then Done None
  else match bd_read 1024 (replicate 1024 0) d with
       | Done (inr data) => Done (Some data)
       | Done (inl _) => Done None
       | Fault f => Fault f
       end.
Definition check_superblock (sb : list Z) : bool :=
  if negb (ext2_signature sb =? signature) then false
  else if 1 <=? version_major sb then
    if Ztrue (Z.land (required_features sb) 0x1) || Ztrue (Z.land (required_features sb) 0x4) || Ztrue (Z.land (required_features sb) 0x8)
    then false
    else negb (Ztrue (Z.land (ro_required_features sb) 0x4))
  else true.
Definition accept (d : D) : outcome bool :=
  r ← read_superblock d; match r with None => Done false | Some sb => Done (check_superblock sb) end.

(** The constructor; [zero] is the static buffer. *)
Definition mount_ext2 (d : D) (zero : option (list Z)) : outcome (ext2 D) :=
  r ← read_superblock d;
  match r with
  | None => Fault AssertFailed
  | Some sb =>
      let sb := set32 92 0x18 sb in
      let s := mkExt2 sb (replicate (Z.to_nat (block_size_of sb)) 0) 1 d zero in
      match (check_superblock_backups ;;
             sb ← gets m_superblock;
             let state := fs_state sb in
             set_has_error state ;;
             set_superblock (set16 58 HasErrors (set16 52 (mounts_since_fsck sb + 1) (set32 44 epoch sb))) ;;
             update_superblock) s with
      | Done (_, s) => Done s
      | Fault f => Fault f
      end
  end.
Definition umount : E unit :=
  sb ← gets m_superblock;
  e ← gets m_has_error;
  set_superblock (set16 58 e sb) ;;
  update_superblock.

(** ** Groups and inodes *)

Definition write_block_group (idx : Z) (desc : list Z) : E unit :=
  bs ← block_size;
  sb ← gets m_superblock;
  '(q, r) ← divmod idx (bs / 32);
  let block_to_write := u32 (block_group_table_block sb + q) in
  read_current block_to_write ;;
  cur_splice (r * 32) desc ;;
  write_block block_to_write Current.

(** The copy reads [inode_size] bytes of the structure, which has 128. *)
Definition write_inode (inode : Z) (structure : list Z) : E unit :=
  present ← check_inode_presence inode;
  if negb present then error
  else
    sb ← gets m_superblock;
    '(group, index) ← divmod (u32 (inode - 1)) (inodes_in_block_group sb);
    block_group ← get_block_group group;
    bs ← block_size;
    isz ← inode_size;
    '(per_block, _) ← divmod bs isz;
    '(_, offset) ← divmod index per_block;
    let block := u32 (inode_table block_group + u32 (index * isz) / bs) in
    read_current block ;;
    (if 128 <? isz then fail BadAccess else cur_splice (offset * isz) (take (Z.to_nat isz) structure)) ;;
    write_block block Current.

(** ** Allocation of blocks *)

(** The first free bit of the bitmap in [m_current_block], from [j] on. *)
Fixpoint first_clear (fuel : nat) (j : Z) : E (option Z) :=
  match fuel with
  | O => mret None
  | S fuel =>
      b ← cur8 (j / 8);
      if bit_check b (j mod 8) then first_clear fuel (j + 1) else mret (Some j)
  end.

Definition alloc_block_in_block_group (group : Z) : E Z :=
  bgd ← get_block_group group;
  if free_blocks_count bgd =? 0 then mret 0
  else
    read_current (block_bitmap bgd) ;;
    bs ← block_size;
    r ← first_clear (Z.to_nat (bs * 8)) 0;
    match r with
    | None => mret 0
    | Some j =>
        let bgd := set16 12 (free_blocks_count bgd - 1) bgd in
        b ← cur8 (j / 8);
        cur_splice (j / 8) [bit_set b (j mod 8)] ;;
        write_block (block_bitmap bgd) Current ;;
        write_block_group group bgd ;;
        sb ← gets m_superblock;
        mret (u32 (j + group * blocks_in_block_group sb + 1))
    end.

(** The search through the other groups. *)
Definition other_groups (count preferred_group : Z) : list Z :=
  filter (fun i => i <> preferred_group) ((fun i => Z.of_nat i) <$> seq 0 (Z.to_nat count)).
Fixpoint first_group (alloc : Z -> E Z) (groups : list Z) : E Z :=
  match groups with
  | [] => mret 0
  | g :: groups => b ← alloc g; if Ztrue b then mret b else first_group alloc groups
  end.

Definition alloc_block (preferred_group : Z) : E Z :=
  sb ← gets m_superblock;
  '(q, r) ← divmod (block_count sb) (blocks_in_block_group sb);
  block ← first_group alloc_block_in_block_group (preferred_group :: other_groups (q + b2z (Ztrue r)) preferred_group);
  if Ztrue block then
    bs ← block_size;
    z ← gets zeroes;
    let z := default (replicate (Z.to_nat bs) 0) z in
    modify (fun s => mkExt2 (m_superblock s) (m_current_block s) (m_has_error s) (m_disk s) (Some z)) ;;
    write_block block (Local z) ;;
    sb ← gets m_superblock;
    set_superblock (set32 12 (unallocated_blocks sb - 1) sb) ;;
    update_superblock ;;
    mret block
  else mret 0.

Definition free_block (block : Z) : E unit :=
  sb ← gets m_superblock;
  '(group, index) ← divmod (u32 (block - 1)) (blocks_in_block_group sb);
  bgd ← get_block_group group;
  let bgd := set16 12 (free_blocks_count bgd + 1) bgd in
  read_current (block_bitmap bgd) ;;
  cur ← gets m_current_block;
  assert_ (index / 8 <? size cur) ;;
  b ← cur8 (index / 8);
  when (negb (bit_check b (index mod 8))) error ;;
  cur_splice (index / 8) [bit_clear b (index mod 8)] ;;
  write_block (block_bitmap bgd) Current ;;
  write_block_group group bgd ;;
  sb ← gets m_superblock;
  set_superblock (set32 12 (unallocated_blocks sb + 1) sb) ;;
  update_superblock.

(** ** Allocation of inodes *)

Definition alloc_inode_in_block_group (directory : bool) (group : Z) : E Z :=
  bgd ← get_block_group group;
  if free_inodes_count bgd =? 0 then mret 0
  else
    read_current (inode_bitmap bgd) ;;
    bs ← block_size;
    r ← first_clear (Z.to_nat (bs * 8)) 0;
    match r with
    | None => mret 0
    | Some j =>
        let bgd := set16 14 (free_inodes_count bgd - 1) bgd in
        let bgd := if directory then set16 16 (used_dirs_count bgd + 1) bgd else bgd in
        b ← cur8 (j / 8);
        cur_splice (j / 8) [bit_set b (j mod 8)] ;;
        write_block (inode_bitmap bgd) Current ;;
        write_block_group group bgd ;;
        sb ← gets m_superblock;
        mret (u32 (j + inodes_in_block_group sb * group + 1))
    end.
Definition alloc_inode (preferred_group : Z) (directory : bool) : E Z :=
  sb ← gets m_superblock;
  '(q, r) ← divmod (block_count sb) (inodes_in_block_group sb);
  inode ← first_group (alloc_inode_in_block_group directory) (preferred_group :: other_groups (q + b2z (Ztrue r)) preferred_group);
  if Ztrue inode then
    sb ← gets m_superblock;
    set_superblock (set32 16 (unallocated_inodes sb - 1) sb) ;;
    update_superblock ;;
    mret inode
  else mret 0.
Definition remove_inode (inode : Z) (dir : bool) : E unit :=
  sb ← gets m_superblock;
  '(group, index) ← divmod (u32 (inode - 1)) (inodes_in_block_group sb);
  bgd ← get_block_group group;
  let bgd := set16 14 (free_inodes_count bgd + 1) bgd in
  let bgd := if dir then set16 16 (used_dirs_count bgd - 1) bgd else bgd in
  read_current (inode_bitmap bgd) ;;
  b ← cur8 (index / 8);
  cur_splice (index / 8) [bit_clear b (index mod 8)] ;;
  write_block (inode_bitmap bgd) Current ;;
  write_block_group group bgd ;;
  sb ← gets m_superblock;
  set_superblock (set32 16 (unallocated_inodes sb + 1) sb) ;;
  update_superblock.

(** ** The blocks of a file *)

Definition set_block_ptr (i v : Z) : list Z -> list Z := set32 (40 + 4 * i) v.

(** [block] points into [m_current_block], which the calls below it overwrite. *)
Fixpoint alloc_indirected (depth : nat) (indirected_block blk_id block_group : Z) : E unit :=
  match depth with
  | O => fail BadAccess
  | S depth' =>
      bs ← block_size;
      entries ← lift (Crc32.ipow (bs / 4) (Z.of_nat depth'));
      read_current indirected_block ;;
      match depth' with
      | O =>
          b ← alloc_block block_group;
          cur_splice (4 * blk_id) (le32 b) ;;
          write_block indirected_block Current
      | S _ =>
          '(tgt_block_idx, offset) ← divmod blk_id entries;
          b ← cur32 tgt_block_idx;
          when (b =? 0)
            (b ← alloc_block block_group;
             cur_splice (4 * tgt_block_idx) (le32 b) ;;
             write_block indirected_block Current) ;;
          b ← cur32 tgt_block_idx;
          alloc_indirected depth' b offset block_group
      end
  end.
Definition alloc_data_block (inode blk_id : Z) : E unit :=
  bs ← block_size;
  let entries_per_block := bs / 4 in
  info ← read_inode inode;
  sb ← gets m_superblock;
  '(block_group, _) ← divmod inode (inodes_in_block_group sb);
  if blk_id <? 12 then b ← alloc_block block_group; write_inode inode (set_block_ptr blk_id b info)
  else
    let blk_id := blk_id - 12 in
    if blk_id <? entries_per_block then
      info ← (if block_ptr 12 info =? 0 then
                b ← alloc_block block_group;
                let info := set_block_ptr 12 b info in
                write_inode inode info ;; mret info
              else mret info);
      alloc_indirected 1 (block_ptr 12 info) blk_id block_group
    else
      let blk_id := blk_id - entries_per_block in
      if blk_id <? u32 (entries_per_block * entries_per_block) then
        info ← (if block_ptr 13 info =? 0 then
                  b ← alloc_block block_group;
                  let info := set_block_ptr 13 b info in
                  write_inode inode info ;; mret info
                else mret info);
        alloc_indirected 2 (block_ptr 13 info) blk_id block_group
      else
        let blk_id := blk_id - u32 (entries_per_block * entries_per_block) in
        info ← (if block_ptr 14 info =? 0 then
                  b ← alloc_block block_group;
                  let info := set_block_ptr 14 b info in
                  write_inode inode info ;; mret info
                else mret info);
        alloc_indirected 3 (block_ptr 14 info) blk_id block_group.

Fixpoint free_indirected (depth : nat) (indirected_block blk_id : Z) : E unit :=
  match depth with
  | O => fail BadAccess
  | S depth' =>
      assert_ (Ztrue indirected_block) ;;
      bs ← block_size;
      entries ← lift (Crc32.ipow (bs / 4) (Z.of_nat depth'));
      read_current indirected_block ;;
      match depth' with
      | O =>
          b ← cur32 blk_id;
          free_block b ;;
          cur_splice (4 * blk_id) (le32 0) ;;
          write_block indirected_block Current
      | S _ =>
          '(tgt_block_idx, offset) ← divmod blk_id entries;
          b ← cur32 tgt_block_idx;
          free_indirected depth' b offset
      end
  end.
Definition free_data_block (inode blk_id : Z) : E unit :=
  bs ← block_size;
  let entries_per_block := bs / 4 in
  info ← read_inode inode;
  if blk_id <? 12 then free_block (block_ptr blk_id info) ;; write_inode inode (set_block_ptr blk_id 0 info)
  else
    let blk_id := blk_id - 12 in
    if blk_id <? entries_per_block then
      free_indirected 1 (block_ptr 12 info) blk_id ;;
      when (blk_id =? 0) (free_block (block_ptr 12 info) ;; write_inode inode (set_block_ptr 12 0 info))
    else
      let blk_id := blk_id - entries_per_block in
      if blk_id <? u32 (entries_per_block * entries_per_block) then
        free_indirected 2 (block_ptr 13 info) blk_id ;;
        when (blk_id =? 0) (free_block (block_ptr 13 info) ;; write_inode inode (set_block_ptr 13 0 info))
      else
        let blk_id := blk_id - u32 (entries_per_block * entries_per_block) in
        free_indirected 3 (block_ptr 14 info) blk_id ;;
        when (blk_id =? 0) (free_block (block_ptr 14 info) ;; write_inode inode (set_block_ptr 14 0 info)).

Definition resize_inode (inode size : Z) : E unit :=
  info ← read_inode inode;
  sb ← gets m_superblock;
  let org_blocks := data_blocks sb info in
  '(q, r) ← divmod size (block_size_of sb);
  let tgt_blocks := q + b2z (Ztrue r) in
  (if org_blocks <? tgt_blocks then
     for_each (seq 0 (Z.to_nat (tgt_blocks - org_blocks))) (fun i => alloc_data_block inode (org_blocks + Z.of_nat i))
   else if tgt_blocks <? org_blocks then
     for_each (seq 0 (Z.to_nat (org_blocks - tgt_blocks))) (fun i => free_data_block inode (org_blocks - Z.of_nat i - 1))
   else mret tt) ;;
  info ← read_inode inode;
  let info := set32 4 size info in
  write_inode inode info ;;
  sb ← gets m_superblock;
  let used_blocks := u32 (count_used_blocks sb info * block_size_of sb) in
  write_inode inode (set32 28 (used_blocks / 512 + b2z (Ztrue (used_blocks mod 512))) info).

Definition decrease_link_count (inode : Z) : E unit :=
  info ← read_inode inode;
  let info := if Ztrue (links_count info) then set16 26 (links_count info - 1) info else info in
  if links_count info =? 0 then
    let info := set32 20 epoch info in
    write_inode inode info ;;
    resize_inode inode 0 ;;
    remove_inode inode (Z.land (i_type info) 0xF000 =? 0x4000)
  else write_inode inode info.

(** ** Writing a file *)

(** [data] is looked up when it is written, after [m_current_block] was read into. *)
Fixpoint write_indirected (depth : nat) (data : span) (indirected_block blk_id : Z) : E unit :=
  match depth with
  | O => fail BadAccess
  | S depth' =>
      n ← span_size data;
      bs ← block_size;
      assert_ (n <=? bs) ;;
      entries ← lift (Crc32.ipow (bs / 4) (Z.of_nat depth'));
      read_current indirected_block ;;
      match depth' with
      | O => b ← cur32 blk_id; write_block b data
      | S _ =>
          '(tgt_block_idx, offset) ← divmod blk_id entries;
          b ← cur32 tgt_block_idx;
          write_indirected depth' data b offset
      end
  end.
Definition write_data_block (data : span) (inode : list Z) (blk_id : Z) : E unit :=
  n ← span_size data;
  bs ← block_size;
  assert_ (n <=? bs) ;;
  let entries_per_block := bs / 4 in
  if blk_id <? 12 then write_block (block_ptr blk_id inode) data
  else
    let blk_id := blk_id - 12 in
    if blk_id <? entries_per_block then write_indirected 1 data (block_ptr 12 inode) blk_id
    else
      let blk_id := blk_id - entries_per_block in
      if blk_id <? u32 (entries_per_block * entries_per_block) then write_indirected 2 data (block_ptr 13 inode) blk_id
      else
        let blk_id := blk_id - u32 (entries_per_block * entries_per_block) in
        write_indirected 3 data (block_ptr 14 inode) blk_id.

(** One turn of the loop of [write_offsetted_data]. *)
Definition write_span (inode : list Z) (block byte_off : Z) (src : list Z) : E unit :=
  r ← read_data_block inode block Current;
  match r with inr _ => mret tt | inl _ => fail BadAccess end ;;
  cur ← gets m_current_block;
  assert_ (size src <=? u32 (size cur - byte_off)) ;;
  cur_splice byte_off src ;;
  write_data_block Current inode block.
Definition write_offsetted_data (data : list Z) (block byte_off : Z) (inode : list Z) : E unit :=
  bs ← block_size;
  assert_ (size data <=? bs) ;;
  let n := Z.to_nat (Z.min (bs - byte_off) (size data)) in
  write_span inode block byte_off (take n data) ;;
  write_span inode (block + 1) 0 (if bs - byte_off <? size data then drop (Z.to_nat (bs - byte_off)) data else []).

Fixpoint write_chunks (chunks : list (list Z)) (block byte_offset : Z) (inode : list Z) : E unit :=
  match chunks with
  | [] => mret tt
  | chunk :: chunks =>
      bs ← block_size;
      write_offsetted_data chunk block (byte_offset mod bs) inode ;;
      write_chunks chunks (block + 1) (u32 (byte_offset - bs)) inode
  end.
Definition write_data (data : list Z) (byte_offset : Z) (inode : list Z) : E unit :=
  sb ← gets m_superblock;
  let bs := block_size_of sb in
  '(block_offset, _) ← divmod byte_offset bs;
  let count := size data / bs + b2z (Ztrue (size data mod bs)) in
  assert_ (block_offset + count <=? data_blocks sb inode) ;;
  write_chunks (Disk.split (S (length data)) data (Z.to_nat bs)) block_offset byte_offset inode.

(** ** Directories *)

Definition with_record_len (n : Z) (e : DirectoryEntry) : DirectoryEntry :=
  mkEntry (d_inode e) (u16 n) (name_len e) (file_type e) (d_name e).

(** The first loop of [write_directory_entries]; [placed] are the entries before the cursor,
    the last one first.  An entry that would reach the next block starts there, and the record
    before it is extended. *)
Definition to_next_block (bs : Z) (placed : list DirectoryEntry) (cursor len : Z) : outcome (list DirectoryEntry * Z) :=
  if cursor / bs =? (cursor + len) / bs then Done (placed, cursor)
  else
    let offset := (cursor + len) / bs * bs - cursor in
    let offset := if Ztrue ((cursor + offset) mod 4) then offset + (4 - (cursor + offset) mod 4) else offset in
    match placed with
    | [] => Fault BadAccess
    | prev :: placed =>
        if (cursor + offset) / bs =? cursor / bs + 1
        then Done (with_record_len (record_len prev + offset) prev :: placed, cursor + offset)
        else Fault AssertFailed
    end.
Fixpoint layout (bs : Z) (placed rest : list DirectoryEntry) (cursor : Z) : outcome (list DirectoryEntry * Z) :=
  match rest with
  | [] => Done (rev placed, cursor)
  | entry :: rest =>
      let len := 8 + name_len entry in
      '(placed, cursor) ← to_next_block bs placed cursor len;
      let len := if Ztrue ((cursor + len) mod 4) then len + (4 - (cursor + len) mod 4) else len in
      let cursor := cursor + len in
      match rest with
      | [] =>
          if Ztrue (cursor mod bs)
          then Done (rev (with_record_len (len + (bs - cursor mod bs)) entry :: placed), cursor + (bs - cursor mod bs))
          else Done (rev (with_record_len len entry :: placed), cursor)
      | _ :: _ => layout bs (with_record_len len entry :: placed) rest cursor
      end
  end.

(** The bytes of an entry that are copied, and the second loop. *)
Definition entry_bytes (e : DirectoryEntry) : list Z :=
  le32 (d_inode e) ++ le16 (record_len e) ++ [u8 (name_len e); u8 (file_type e)] ++ take (Z.to_nat (name_len e)) (d_name e).
Fixpoint serialise (entries : list DirectoryEntry) (cursor : Z) (data : list Z) : outcome (list Z) :=
  match entries with
  | [] => if cursor =? size data then Done data else Fault AssertFailed
  | e :: entries =>
      if negb (8 + name_len e <=? record_len e) then Fault AssertFailed
      else if d_inode e =? 0 then Fault AssertFailed
      else
        data ← Disk.copy_to data cursor (entry_bytes e);
        if (cursor + record_len e) mod 4 =? 0 then serialise entries (cursor + record_len e) data else Fault AssertFailed
  end.
Definition write_directory_entries (inode : Z) (entries : list DirectoryEntry) : E unit :=
  bs ← block_size;
  '(entries, cursor) ← lift (layout bs [] entries 0);
  assert_ (cursor mod bs =? 0) ;;
  resize_inode inode cursor ;;
  data ← lift (serialise entries 0 (replicate (Z.to_nat cursor) 0));
  info ← read_inode inode;
  write_data data 0 info.

Definition create_dir_entry (inode type : Z) (name : list Z) : E DirectoryEntry :=
  (if 255 <? size name then fail BadAccess else mret tt) ;;
  info ← read_inode inode;
  write_inode inode (set16 26 (links_count info + 1) info) ;;
  mret (mkEntry (u32 inode) 0 (u8 (size name)) type name).

(** ** Nodes *)

Inductive FileType := FTFile | FTDirectory | FTSymLink.
Definition vfs_type_to_ext2_inode (t : FileType) : Z :=
  match t with FTDirectory => 0x4000 | FTSymLink => 0xA000 | FTFile => 0x8000 end.
Definition vfs_type_to_ext2_dir (t : FileType) : Z :=
  match t with FTDirectory => 2 | FTSymLink => 7 | FTFile => 1 end.

(** The inode of the new child, or 0. *)
Definition create_child (inode : Z) (name : list Z) (type : FileType) : E Z :=
  dir_entries ← read_directory_entries inode;
  sb ← gets m_superblock;
  '(block_group, _) ← divmod inode (inodes_in_block_group sb);
  free_inode ← alloc_inode block_group (match type with FTDirectory => true | _ => false end);
  if free_inode =? 0 then mret 0
  else
    e ← create_dir_entry free_inode (vfs_type_to_ext2_dir type) name;
    write_directory_entries inode (dir_entries ++ [e]) ;;
    let child := replicate 128 0 in
    let child := set32 8 epoch (set32 12 epoch (set32 16 epoch child)) in
    let child := set16 0 0xFFF (set16 26 1 child) in
    write_inode free_inode child ;;
    mret free_inode.
Definition create_impl (inode : Z) (name : list Z) (type : FileType) : E Z :=
  dir ← create_child inode name type;
  if dir =? 0 then mret 0
  else
    info ← read_inode dir;
    write_inode dir (set16 0 (Z.lor (Z.land (i_type info) 0xFFF) (vfs_type_to_ext2_inode type)) info) ;;
    match type with
    | FTDirectory =>
        e1 ← create_dir_entry dir 2 [46];
        e2 ← create_dir_entry inode 2 [46; 46];
        write_directory_entries dir [e1; e2]
    | _ => mret tt
    end ;;
    mret dir.

(** [block_size] of [Stat] is always 512. *)
Record Stat := mkStat {
  st_inode : Z; st_perms : Z; st_nlinks : Z; st_block_count : Z; st_uid : Z; st_gid : Z; st_flags : Z;
  st_access : Z; st_creation : Z; st_modification : Z;
}.
Definition stat (inode : Z) : E Stat :=
  info ← read_inode inode;
  mret (mkStat inode (Z.land (i_type info) 0x0FFF) (links_count info) (blocks_512 info) (i_uid info) (i_gid info) (i_flags info)
    (get32 8 info) (get32 12 info) (get32 16 info)).
Definition with_stat (st : Stat) (info : list Z) : list Z :=
  set32 32 (st_flags st) (set16 24 (st_gid st) (set16 2 (st_uid st) (set32 12 (st_creation st) (set32 16 (st_modification st)
    (set32 8 (st_access st) (set16 0 (Z.lor (Z.land (i_type info) 0xF000) (st_perms st)) info)))))).
Definition set_stat (inode : Z) (st : Stat) : E unit :=
  info ← read_inode inode; write_inode inode (with_stat st info).
Definition is_link (inode : Z) : E bool :=
  info ← read_inode inode; mret (Z.land (i_type info) 0xF000 =? 0xA000).

Definition entry_name (e : DirectoryEntry) : list Z := take (Z.to_nat (name_len e)) (d_name e).
Definition remove_child (inode : Z) (name : list Z) : E unit :=
  dir_entries ← read_directory_entries inode;
  for_each dir_entries (fun e => when (bool_decide (entry_name e = name)) (decrease_link_count (d_inode e))) ;;
  write_directory_entries inode (filter (fun e => entry_name e <> name) dir_entries).

Fixpoint rename_first (inode : Z) (name : list Z) (entries : list DirectoryEntry) : option (list DirectoryEntry) :=
  match entries with
  | [] => None
  | e :: entries =>
      if d_inode e =? inode then Some (mkEntry (d_inode e) (record_len e) (u8 (size name)) (file_type e) name :: entries)
      else cons e <$> rename_first inode name entries
  end.
Definition update_dir_entry (dir inode : Z) (name : list Z) : E unit :=
  entries ← read_directory_entries dir;
  match rename_first inode name entries with
  | None => error
  | Some entries => if 255 <? size name then fail BadAccess else write_directory_entries dir entries
  end.
End ext2.
End Ext2Write.
