(* ===== verification/Ext2Lemmas.v ===== *)
(** * Ext2Lemmas: bytes, fields and blocks of an ext2 file system *)
From stdpp Require Import base list.
From Stdlib Require Import ZArith Lia.
From S2P Require Import Prelude Disk DiskProofs Crc32 Ext2 Ext2Write.
Import Ext2 Ext2Write.

Module Ext2Lemmas.

(** ** Bytes *)

Definition is_byte (b : Z) : Prop := 0 <= b < 256.

Lemma le32_length v : length (le32 v) = 4%nat.
Proof. done. Qed.
Lemma byte_at_range l i : Forall is_byte l -> is_byte (byte_at l i).
Proof.
  intros H. unfold byte_at. rewrite nth_lookup. destruct (l !! Z.to_nat i) eqn:E; [|by unfold is_byte; cbn; lia].
  cbn. by eapply Forall_lookup in H.
Qed.
Lemma get16_range l i : Forall is_byte l -> 0 <= get16 i l < 2 ^ 16.
Proof. intros H. unfold get16. pose proof (byte_at_range l i H). pose proof (byte_at_range l (i + 1) H). unfold is_byte in *. lia. Qed.
Lemma get32_range l i : Forall is_byte l -> 0 <= get32 i l < 2 ^ 32.
Proof. intros H. unfold get32. pose proof (get16_range l i H). pose proof (get16_range l (i + 2) H). lia. Qed.

Lemma byte_at_cons_0 x t : byte_at (x :: t) 0 = x.
Proof. done. Qed.
Lemma get16_le16 v t : 0 <= v < 2 ^ 16 -> get16 0 (le16 v ++ t) = v.
Proof. intros H. change (u8 v + 2 ^ 8 * u8 (v / 2 ^ 8) = v). unfold uwrap. Z.div_mod_to_equations. lia. Qed.
Lemma get32_le32 v t : 0 <= v < 2 ^ 32 -> get32 0 (le32 v ++ t) = v.
Proof.
  intros H. change (u8 v + 2 ^ 8 * u8 (v / 2 ^ 8) + 2 ^ 16 * (u8 (v / 2 ^ 16) + 2 ^ 8 * u8 (v / 2 ^ 16 / 2 ^ 8)) = v).
  unfold uwrap. Z.div_mod_to_equations. lia.
Qed.

Lemma byte_at_app_r l t i : size l <= i -> byte_at (l ++ t) i = byte_at t (i - size l).
Proof. intros H. unfold byte_at, size in *. rewrite app_nth2 by lia. f_equal. lia. Qed.
Lemma byte_at_app_l l t i : 0 <= i < size l -> byte_at (l ++ t) i = byte_at l i.
Proof. intros H. unfold byte_at, size in *. rewrite app_nth1 by lia. done. Qed.
Lemma get16_app_r l t i : size l <= i -> get16 i (l ++ t) = get16 (i - size l) t.
Proof. intros. unfold get16. rewrite !byte_at_app_r by lia. do 3 f_equal. lia. Qed.

Lemma byte_at_drop l k i : 0 <= k -> 0 <= i -> byte_at (drop (Z.to_nat k) l) i = byte_at l (k + i).
Proof. intros. unfold byte_at. rewrite !nth_lookup, lookup_drop. do 2 f_equal. lia. Qed.
Lemma byte_at_slice l k n i : 0 <= k -> 0 <= i < n -> byte_at (slice k n l) i = byte_at l (k + i).
Proof.
  intros. unfold slice. rewrite <- byte_at_drop by lia. unfold byte_at.
  rewrite !nth_lookup, lookup_take_lt by lia. done.
Qed.
Lemma get16_slice l k n i : 0 <= k -> 0 <= i -> i + 2 <= n -> get16 i (slice k n l) = get16 (k + i) l.
Proof. intros. unfold get16. rewrite !byte_at_slice by lia. do 3 f_equal. lia. Qed.
Lemma get32_slice l k n i : 0 <= k -> 0 <= i -> i + 4 <= n -> get32 i (slice k n l) = get32 (k + i) l.
Proof. intros. unfold get32. rewrite !get16_slice by lia. do 3 f_equal. lia. Qed.

Lemma size_nonneg l : 0 <= size l.
Proof. unfold size. lia. Qed.
Lemma size_slice l k n : 0 <= k -> 0 <= n -> k + n <= size l -> size (slice k n l) = n.
Proof. intros. unfold size, slice in *. rewrite length_take, length_drop. lia. Qed.
Lemma size_splice i src l : 0 <= i -> i + size src <= size l -> size (splice i src l) = size l.
Proof. intros. unfold size, splice in *. rewrite !length_app, length_take, length_drop. lia. Qed.

(** The bytes of a spliced list. *)
Lemma byte_at_splice i src l k : 0 <= i -> i + size src <= size l -> 0 <= k ->
  byte_at (splice i src l) k = if bool_decide (i <= k < i + size src) then byte_at src (k - i) else byte_at l k.
Proof.
  intros Hi Hs Hk. unfold splice. set (a := take (Z.to_nat i) l).
  assert (La : size a = i) by (unfold size, a in *; rewrite length_take; lia).
  case_bool_decide as B.
  - rewrite byte_at_app_r, byte_at_app_l by lia. by rewrite La.
  - destruct (decide (k < i)).
    + rewrite byte_at_app_l by lia. unfold byte_at, a. rewrite !nth_lookup, lookup_take_lt by lia. done.
    + rewrite byte_at_app_r, byte_at_app_r, La by lia.
      replace (Z.to_nat i + length src)%nat with (Z.to_nat (i + size src)) by (unfold size; lia).
      rewrite byte_at_drop by (pose proof (size_nonneg src); lia). f_equal. lia.
Qed.
Lemma splice_bytes i src l : Forall is_byte src -> Forall is_byte l -> Forall is_byte (splice i src l).
Proof. intros. unfold splice. rewrite !Forall_app. split; [by apply Forall_take|]. split; [done|by apply Forall_drop]. Qed.
Lemma le16_bytes v : Forall is_byte (le16 v).
Proof. unfold le16. repeat constructor; (apply (uwrap_range 8); lia). Qed.
Lemma le32_bytes v : Forall is_byte (le32 v).
Proof. unfold le32. rewrite Forall_app. split; apply le16_bytes. Qed.

Lemma list_eq_bytes l1 l2 : size l1 = size l2 -> (forall i, 0 <= i < size l1 -> byte_at l1 i = byte_at l2 i) -> l1 = l2.
Proof.
  intros L H. unfold size in *. apply (nth_ext _ _ 0 0); [lia|]. intros n Hn. specialize (H (Z.of_nat n)). unfold byte_at in H.
  rewrite Nat2Z.id in H. apply H. lia.
Qed.

(** A slice of a spliced list, of the same place or of another. *)
Lemma slice_splice_eq i src l : 0 <= i -> i + size src <= size l -> slice i (size src) (splice i src l) = src.
Proof.
  intros. pose proof (size_nonneg src). apply list_eq_bytes.
  - rewrite size_slice; [done|lia..|]. rewrite size_splice by done. done.
  - intros k Hk. rewrite size_slice in Hk by (rewrite ?size_splice by done; lia). rewrite byte_at_slice by lia.
    rewrite byte_at_splice by lia. rewrite bool_decide_true by lia. f_equal. lia.
Qed.
Lemma slice_splice_ne i src l k n : 0 <= i -> i + size src <= size l -> 0 <= k -> 0 <= n -> k + n <= size l ->
  k + n <= i \/ i + size src <= k -> slice k n (splice i src l) = slice k n l.
Proof.
  intros. apply list_eq_bytes.
  - rewrite !size_slice by (rewrite ?size_splice by done; lia). done.
  - intros j Hj. rewrite size_slice in Hj by (rewrite ?size_splice by done; lia). rewrite !byte_at_slice by lia.
    rewrite byte_at_splice by lia. rewrite bool_decide_false by lia. done.
Qed.
(** What a list has that agrees with a spliced one beyond the place of [src]. *)
Lemma splice_prefix n c src data data' :
  0 <= c -> c + size src <= n -> n <= size data -> take (Z.to_nat n) data' = take (Z.to_nat n) (splice c src data) ->
  take (Z.to_nat c) data' = take (Z.to_nat c) data /\ exists t, drop (Z.to_nat c) data' = src ++ t.
Proof.
  intros Hc Hn Hd T. unfold size, splice in *. set (a := take (Z.to_nat c) data) in *.
  assert (La : length a = Z.to_nat c) by (unfold a; rewrite length_take; lia).
  assert (E : exists t, data' = a ++ src ++ t).
  { set (m := (Z.to_nat n - Z.to_nat c - length src)%nat).
    assert (Z.to_nat n = length a + (length src + m))%nat as En by lia.
    rewrite <- (take_drop (Z.to_nat n) data'), T, En, !take_app_add, <- !app_assoc. by eexists. }
  destruct E as [t ->]. rewrite <- La. rewrite take_app_length, drop_app_length. split; [done|by exists t].
Qed.
Lemma get16_splice_ne i src l k : 0 <= i -> i + size src <= size l -> 0 <= k -> k + 2 <= i \/ i + size src <= k ->
  get16 k (splice i src l) = get16 k l.
Proof. intros. unfold get16. rewrite !byte_at_splice by lia. rewrite !bool_decide_false by lia. done. Qed.
Lemma get32_splice_ne i src l k : 0 <= i -> i + size src <= size l -> 0 <= k -> k + 4 <= i \/ i + size src <= k ->
  get32 k (splice i src l) = get32 k l.
Proof. intros. unfold get32. rewrite !get16_splice_ne by lia. done. Qed.
Lemma get16_set16 i v l : 0 <= i -> i + 2 <= size l -> get16 i (set16 i v l) = u16 v.
Proof.
  intros. change 2 with (size (le16 v)) in H0. unfold set16, get16. rewrite !byte_at_splice by lia. change (size (le16 v)) with 2.
  rewrite !bool_decide_true by lia. replace (i - i) with 0 by lia. replace (i + 1 - i) with 1 by lia. change (u8 v + 2 ^ 8 * u8 (v / 2 ^ 8) = u16 v).
  unfold uwrap. Z.div_mod_to_equations. lia.
Qed.
End Ext2Lemmas.
