(* ===== verification/Ext2Dir.v ===== *)
(** * Ext2Dir: the layout of directories on the disk

    The entries [write_directory_entries] lays out are what [read_directory] finds, and the
    records have the form the format asks for: they are aligned to four bytes, and none
    crosses the end of a block. *)
From stdpp Require Import base list.
From Stdlib Require Import ZArith Lia.
From S2P Require Import Prelude Disk DiskProofs Crc32 Ext2 Ext2Write Ext2Lemmas.
Import Ext2 Ext2Write Ext2Lemmas.

Module Ext2Dir.

(** ** Entries and records *)

(** An entry that names an inode and has its name. *)
Record valid (e : DirectoryEntry) : Prop := {
  v_inode : 0 < d_inode e < 2 ^ 32;
  v_type : 0 <= file_type e < 256;
  v_len : name_len e = size (d_name e);
  v_max : name_len e < 256;
}.
(** The same entry in a record of any length. *)
Definition same (e e' : DirectoryEntry) : Prop := exists n, e' = mkEntry (d_inode e) n (name_len e) (file_type e) (d_name e).

Section layout.
Context (bs : Z) (Hbs : 512 <= bs <= 2 ^ 15) (Hal : (4 | bs)).

(** A record at [c]: long enough for the entry, aligned, and inside one block. *)
Record fits (c : Z) (e : DirectoryEntry) : Prop := {
  f_len : 8 + name_len e <= record_len e;
  f_align : (4 | record_len e);
  f_block : (c + record_len e - 1) / bs = c / bs;
}.
Fixpoint rows (c : Z) (es : list DirectoryEntry) (c' : Z) : Prop :=
  match es with
  | [] => c' = c
  | e :: es => fits c e /\ rows (c + record_len e) es c'
  end.

Lemma rows_app es1 es2 : forall c c', rows c (es1 ++ es2) c' <-> exists m, rows c es1 m /\ rows m es2 c'.
Proof.
  induction es1 as [|e es1 IH]; intros c c'; cbn.
  - split; [by exists c|by intros (m & -> & H)].
  - rewrite IH. split.
    + intros [F (m & R1 & R2)]. by exists m.
    + intros (m & [F R1] & R2). split; [done|by exists m].
Qed.
Lemma rows_snoc c es e c' : rows c (es ++ [e]) c' <-> exists m, rows c es m /\ fits m e /\ c' = m + record_len e.
Proof. rewrite rows_app. cbn. naive_solver. Qed.
Lemma rows_le es : forall c c', Forall valid es -> rows c es c' -> c + 8 * Z.of_nat (length es) <= c'.
Proof.
  induction es as [|e es IH]; intros c c' V; cbn [rows length]; [lia|].
  apply Forall_cons in V as [[_ _ L _] V]. intros [[F _ _] R]. apply IH in R; [|done]. unfold size in L. lia.
Qed.

(** ** The first loop *)

Lemma align4_spec a n : (4 | a) -> 0 <= n ->
  exists m, (if Ztrue ((a + n) mod 4) then n + (4 - (a + n) mod 4) else n) = m /\ n <= m < n + 4 /\ (4 | m).
Proof.
  intros [k Hk] Hn. eexists. split; [done|]. unfold Ztrue.
  pose proof (Z.mod_pos_bound (a + n) 4 ltac:(lia)). destruct (Z.eqb_spec ((a + n) mod 4) 0) as [Z0|]; cbn [negb].
  - split; [lia|]. apply Z.mod_divide in Z0; [|lia]. destruct Z0 as [q Hq]. exists (q - k). lia.
  - split; [lia|]. pose proof (Z.div_mod (a + n) 4 ltac:(lia)). exists ((a + n) / 4 + 1 - k). lia.
Qed.

(** Where the entry is placed: at the cursor, or at the start of the next block. *)
Lemma next_block cursor len : 0 <= cursor -> 0 < len < bs ->
  cursor / bs <> (cursor + len) / bs ->
  (cursor + len) / bs = cursor / bs + 1 /\ cursor mod bs <> 0 /\ (cursor + len) / bs * bs - cursor = bs - cursor mod bs.
Proof.
  intros Hc Hl N. pose proof (Z.div_mod cursor bs ltac:(lia)). pose proof (Z.mod_pos_bound cursor bs ltac:(lia)).
  pose proof (Z.div_le_mono cursor (cursor + len) bs ltac:(lia) ltac:(lia)).
  pose proof (Z.div_le_mono (cursor + len) (cursor + 1 * bs) bs ltac:(lia) ltac:(lia)) as U. rewrite Z.div_add in U by lia.
  assert ((cursor + len) / bs = cursor / bs + 1) as E by lia. split_and!; [done| |rewrite E; lia].
  intros Z0. apply N. apply (Z.div_unique _ bs _ len); lia.
Qed.

Lemma in_block c n : 0 <= c -> 0 < n -> c mod bs + n <= bs -> (c + n - 1) / bs = c / bs.
Proof.
  intros. pose proof (Z.div_mod c bs ltac:(lia)). pose proof (Z.mod_pos_bound c bs ltac:(lia)).
  symmetry. apply (Z.div_unique _ bs _ (c mod bs + n - 1)); lia.
Qed.

Lemma block_mod4 c : (4 | c) -> (4 | c mod bs).
Proof. intros [k Hk]. destruct Hal as [q Hq]. rewrite Z.mod_eq by lia. exists (k - q * (c / bs)). lia. Qed.

(** An entry of [len] bytes at a cursor where it does not reach the next block. *)
Lemma place_entry cursor e len :
  0 <= cursor -> (4 | cursor) -> valid e -> cursor mod bs + (8 + name_len e) < bs ->
  8 + name_len e <= len < 8 + name_len e + 4 -> (4 | len) ->
  fits cursor (with_record_len len e) /\ cursor mod bs + len <= bs /\ record_len (with_record_len len e) = len.
Proof.
  intros Hc [k Hk] [_ _ Hn Hm] Hb Hl [q Hq]. unfold size in Hn. destruct (block_mod4 cursor) as [r Hr]; [by exists k|].
  destruct Hal as [p Hp]. assert (cursor mod bs + len <= bs) by lia.
  assert (u16 len = len) as El by (apply uwrap_small; lia).
  split; [|by rewrite ?El]. split; cbn; rewrite El; [lia|by exists q|]. apply in_block; lia.
Qed.

Lemma extend_prev placed prev cursor :
  0 <= cursor -> (4 | cursor) -> cursor mod bs <> 0 -> Forall valid (prev :: placed) ->
  rows 0 (rev (prev :: placed)) cursor ->
  rows 0 (rev (with_record_len (record_len prev + (bs - cursor mod bs)) prev :: placed)) (cursor + (bs - cursor mod bs)).
Proof.
  intros Hc Hd Nz V R. cbn [rev] in *. apply rows_snoc in R as (m & R & [F1 [k F2] F3] & E). apply Forall_cons in V as [[_ _ L _] V].
  pose proof (rows_le _ _ _ ltac:(by apply Forall_rev) R) as Hm. unfold size in L.
  pose proof (Z.mod_pos_bound cursor bs ltac:(lia)). pose proof (Z.mod_pos_bound m bs ltac:(lia)).
  pose proof (Z.div_mod cursor bs ltac:(lia)). pose proof (Z.div_mod m bs ltac:(lia)).
  assert (cursor / bs = m / bs) as Eb.
  { rewrite <- F3. replace (m + record_len prev - 1) with (cursor - 1) by lia.
    apply (Z.div_unique _ bs _ (cursor mod bs - 1)); lia. }
  destruct (block_mod4 cursor Hd) as [r Hr]. destruct Hal as [p Hp].
  assert (u16 (record_len prev + (bs - cursor mod bs)) = record_len prev + (bs - cursor mod bs)) as El by (apply uwrap_small; nia).
  apply rows_snoc. exists m. split; [done|]. split; [|cbn; lia].
  split; cbn; rewrite El; [lia|exists (k + p - r); lia|]. apply in_block; nia.
Qed.

Lemma same_refl e n : same e (with_record_len n e).
Proof. eexists. done. Qed.
Lemma same_prev n e e' : same e e' -> same e (with_record_len n e').
Proof. intros [k ->]. eexists. done. Qed.
Lemma valid_same e e' : valid e -> same e e' -> valid e'.
Proof. intros V [n ->]. by destruct V. Qed.

(** [placed], the records before the cursor, are those of [before]. *)
Record laid (before placed : list DirectoryEntry) (cursor : Z) : Prop := {
  l_same : Forall2 same before (rev placed);
  l_valid : Forall valid before;
  l_rows : rows 0 (rev placed) cursor;
  l_pos : 0 <= cursor;
  l_align : (4 | cursor);
}.
Lemma laid_valid before placed cursor : laid before placed cursor -> Forall valid placed.
Proof.
  intros [S V _ _ _]. rewrite <- (rev_involutive placed). apply Forall_rev. clear -S V.
  revert V. induction S; intros V; [constructor|]. apply Forall_cons in V as [? ?]. constructor; [by eapply valid_same|auto].
Qed.

(** The move to the next block. *)
Lemma move before placed cursor len :
  laid before placed cursor -> 8 <= len < 264 ->
  exists placed' cursor',
    to_next_block bs placed cursor len = Done (placed', cursor') /\
    laid before placed' cursor' /\ cursor' mod bs + len < bs.
Proof.
  intros L Hl. pose proof (laid_valid _ _ _ L) as V. destruct L as [S Vd R P A]. unfold to_next_block.
  pose proof (Z.div_mod cursor bs ltac:(lia)). pose proof (Z.mod_pos_bound cursor bs ltac:(lia)).
  destruct (Z.eqb_spec (cursor / bs) ((cursor + len) / bs)) as [Eq|N].
  - exists placed, cursor. split; [done|]. split; [done|].
    pose proof (Z.div_mod (cursor + len) bs ltac:(lia)). pose proof (Z.mod_pos_bound (cursor + len) bs ltac:(lia)). nia.
  - destruct (next_block cursor len P ltac:(lia) N) as (E1 & E2 & E3). cbv zeta. rewrite E3.
    assert (Ez : cursor + (bs - cursor mod bs) = (cursor / bs + 1) * bs) by lia.
    assert ((cursor + (bs - cursor mod bs)) mod 4 = 0) as M4.
    { apply Z.mod_divide; [lia|]. rewrite Ez. by apply Z.divide_mul_r. }
    rewrite M4. cbn [Ztrue Z.eqb negb]. destruct placed as [|prev placed]; [cbn in R; subst cursor; by rewrite Z.mod_0_l in E2 by lia|].
    rewrite Ez, Z.div_mul, Z.eqb_refl by lia. eexists _, _. split; [done|].
    pose proof (extend_prev placed prev cursor P A E2 V R) as R'.
    split; [|rewrite Z.mod_mul by lia; lia].
    split; [|done| |lia|rewrite <- Ez; apply Z.mod_divide; [lia|done]].
    + cbn [rev] in S |- *. apply Forall2_app_inv_r in S as (k1 & k2 & S1 & S2 & ->).
      apply Forall2_app; [done|]. apply Forall2_cons_inv_r in S2 as (x & k & Sx & Sk & ->). constructor; [by apply same_prev|done].
    + rewrite Ez in R'. done.
Qed.

Lemma laid_snoc before placed cursor e e' :
  laid before placed cursor -> valid e -> same e e' -> fits cursor e' -> laid (before ++ [e]) (e' :: placed) (cursor + record_len e').
Proof.
  intros [S V R P [k A]] Ve Se F. split.
  - cbn. apply Forall2_app; [done|]. by constructor.
  - apply Forall_app. split; [done|]. by constructor.
  - cbn. apply rows_snoc. by exists cursor.
  - destruct F as [F _ _]. destruct (valid_same _ _ Ve Se) as [_ _ L _]. unfold size in L. lia.
  - destruct F as [_ [q F] _]. exists (k + q). lia.
Qed.

Lemma layout_spec rest : forall before placed cursor, rest <> [] -> Forall valid rest -> laid before placed cursor ->
  exists es c, layout bs placed rest cursor = Done (es, c) /\ Forall2 same (before ++ rest) es /\ rows 0 es c /\ (bs | c).
Proof.
  induction rest as [|e rest IH]; intros before placed cursor Ne V L; [done|]. apply Forall_cons in V as [Ve V].
  pose proof Ve as [_ _ Vl Vm]. unfold size in Vl.
  destruct (move before placed cursor (8 + name_len e) L ltac:(lia)) as (p1 & c1 & E1 & L1 & B1). cbn [layout]. rewrite E1.
  cbn [mbind outcome_bind]. pose proof L1 as [S1 V1 R1 P1 A1].
  destruct (align4_spec c1 (8 + name_len e) A1 ltac:(lia)) as (len & El & Bl & Al). rewrite !El.
  destruct (place_entry c1 e len P1 A1 Ve B1 ltac:(lia) Al) as (F & B2 & Er).
  pose proof (laid_snoc _ _ _ _ _ L1 Ve (same_refl e len) F) as L2. rewrite Er in L2.
  destruct rest as [|e2 rest]; [|destruct (IH (before ++ [e]) _ _ ltac:(done) V L2) as (es & c & E & S & H); exists es, c;
    split; [exact E|]; rewrite <- app_assoc in S; done].
  pose proof L2 as [S2 V2 R2 P2 A2]. unfold Ztrue at 1. destruct (Z.eqb_spec ((c1 + len) mod bs) 0) as [Z0|Nz]; cbn [negb].
  - eexists _, _. split; [done|]. split; [done|]. split; [done|]. apply Z.mod_divide; [lia|done].
  - pose proof (extend_prev p1 _ _ P2 A2 Nz (laid_valid _ _ _ L2) R2) as R3. rewrite Er in R3.
    eexists _, _. split; [done|]. split; [|split; [exact R3|]].
    + cbn. apply Forall2_app; [exact S1|]. constructor; [apply same_refl|constructor].
    + exists ((c1 + len) / bs + 1). pose proof (Z.div_mod (c1 + len) bs ltac:(lia)). lia.
Qed.

(** ** The second loop, and reading back *)

Lemma entry_bytes_size e : valid e -> size (entry_bytes e) = 8 + name_len e.
Proof.
  intros [_ _ L _]. unfold entry_bytes, size in *. rewrite !length_app, le32_length, length_take. cbn. lia.
Qed.
Lemma entry_at_bytes e t : valid e -> 0 <= record_len e < 2 ^ 16 -> entry_at (entry_bytes e ++ t) = e.
Proof.
  intros [Vi Vt Vl Vm] Hr. pose proof (size_nonneg (d_name e)).
  set (name := take (Z.to_nat (name_len e)) (d_name e)).
  assert (Hn : name = d_name e) by (unfold name; apply take_ge; unfold size in *; lia).
  set (p := entry_bytes e ++ t).
  assert (Ep : p = le32 (d_inode e) ++ le16 (record_len e) ++ u8 (name_len e) :: u8 (file_type e) :: d_name e ++ t).
  { unfold p, entry_bytes. fold name. rewrite Hn, <- !app_assoc. done. }
  assert (E6 : byte_at p 6 = name_len e) by (rewrite Ep; apply uwrap_small; lia).
  assert (E7 : byte_at p 7 = file_type e) by (rewrite Ep; apply uwrap_small; lia).
  assert (E8 : slice 8 (name_len e) p = d_name e).
  { rewrite Ep. unfold slice. change (drop (Z.to_nat 8) _) with (d_name e ++ t).
    rewrite Vl. unfold size. rewrite Nat2Z.id. apply take_app_length. }
  unfold entry_at. rewrite E6, E7, E8. rewrite Ep at 1 2. rewrite get32_le32 by lia.
  rewrite get16_app_r by (unfold size; rewrite le32_length; lia). change (4 - size (le32 (d_inode e))) with 0.
  rewrite get16_le16 by lia. by destruct e.
Qed.

Context {D : Type} `{BD : ByteDisk D}.

Lemma record_small c e : 0 <= c -> (c + record_len e - 1) / bs = c / bs -> record_len e < 2 ^ 16.
Proof.
  intros Hc F. pose proof (Z.div_mod (c + record_len e - 1) bs ltac:(lia)). pose proof (Z.div_mod c bs ltac:(lia)).
  pose proof (Z.mod_pos_bound (c + record_len e - 1) bs ltac:(lia)). pose proof (Z.mod_pos_bound c bs ltac:(lia)). nia.
Qed.
Lemma serialise_read es : forall c c' data (s : ext2 D),
  Forall valid es -> rows c es c' -> 0 <= c -> (4 | c) -> size data = c' ->
  exists data', serialise es c data = Done data' /\ size data' = c' /\ take (Z.to_nat c) data' = take (Z.to_nat c) data /\
    forall fuel, (length es <= fuel)%nat -> read_directory_loop fuel c data' s = Done (es, s).
Proof.
  induction es as [|e es IH]; intros c c' data s V R Hc Ha Hd; cbn [serialise].
  - cbn in R. subst c'. exists data. rewrite Hd, Z.eqb_refl. split_and!; try done. intros fuel _. destruct fuel; [done|].
    cbn [read_directory_loop]. rewrite (proj2 (Z.ltb_ge _ _)) by lia. done.
  - apply Forall_cons in V as [Ve V]. destruct R as [[F1 F2 F3] R].
    pose proof Ve as [Vi Vt Vl Vm]. pose proof (size_nonneg (d_name e)). pose proof (rows_le _ _ _ V R) as Hle.
    rewrite (proj2 (Z.leb_le _ _)) by lia. rewrite (proj2 (Z.eqb_neq _ _)) by lia. cbn [negb].
    pose proof (entry_bytes_size e Ve) as Hs.
    unfold Disk.copy_to. fold (size (entry_bytes e)) (size data).
    rewrite (proj2 (Z.leb_le _ _)), (proj2 (Z.leb_le _ _)) by lia. cbn [andb mbind outcome_bind].
    fold (splice c (entry_bytes e) data).
    assert (A : (4 | c + record_len e)) by (by apply Z.divide_add_r).
    rewrite (proj2 (Z.mod_divide _ 4 ltac:(lia)) A). cbn [Z.eqb].
    destruct (IH (c + record_len e) c' (splice c (entry_bytes e) data) s V R ltac:(lia) A) as (data' & E & L & T & P).
    { rewrite size_splice by lia. done. }
    destruct (splice_prefix (c + record_len e) c (entry_bytes e) data data' Hc ltac:(lia) ltac:(lia) T) as (Tc & t & Pe).
    exists data'. split_and!; try done.
    intros fuel Hf. destruct fuel as [|fuel]; [cbn in Hf; lia|]. cbn [read_directory_loop].
    rewrite L, (proj2 (Z.ltb_lt _ _)), (proj2 (Z.ltb_ge _ _)) by lia. rewrite Pe, entry_at_bytes by (done || (pose proof (record_small c e Hc F3); lia)).
    unfold Ztrue. rewrite (proj2 (Z.eqb_neq (d_inode e) 0)), (proj2 (Z.eqb_neq (record_len e) 0)) by lia. cbn [negb].
    cbn in Hf. erewrite run_bind_done by (apply P; lia). done.
Qed.
End layout.

(** C17: The records a directory is written as have the form of the format (aligned to four bytes,
    inside one block, filling whole blocks), keep the entries and their order, pass all the
    assertions of the second loop, and [read_directory] finds them in the bytes. *)
Theorem directory_roundtrip {D : Type} `{BD : ByteDisk D} bs es (s : ext2 D) :
  512 <= bs <= 2 ^ 15 -> (4 | bs) -> es <> [] -> Forall valid es ->
  exists es' cursor data,
    layout bs [] es 0 = Done (es', cursor) /\ Forall2 same es es' /\ rows bs 0 es' cursor /\ (bs | cursor) /\
    serialise es' 0 (replicate (Z.to_nat cursor) 0) = Done data /\ read_directory data s = Done (es', s).
Proof.
  intros Hbs Hal Ne V. destruct (layout_spec bs Hbs Hal es [] [] 0 Ne V) as (es' & c & E & S & R & B).
  { split; try done; [by exists 0]. }
  assert (V' : Forall valid es').
  { clear -S V. cbn in S. revert V. induction S; intros V; [constructor|]. apply Forall_cons in V as [? ?].
    constructor; [by eapply valid_same|auto]. }
  pose proof (rows_le bs es' 0 c V' R) as Hc.
  destruct (serialise_read bs Hbs es' 0 c (replicate (Z.to_nat c) 0) s V' R ltac:(lia) ltac:(by exists 0)) as (data & E2 & L & _ & P).
  { unfold size. rewrite length_replicate. lia. }
  exists es', c, data. split_and!; try done. apply P. unfold size in L. lia.
Qed.

#[local] Existing Instance DiskProofs.memory_disk.
(** The entries of a new directory. *)
Definition new_directory : list DirectoryEntry := [mkEntry 12 0 1 2 [46]; mkEntry 2 0 2 2 [46; 46]].
Lemma directory_roundtrip_witness : exists es' cursor data,
    layout 1024 [] new_directory 0 = Done (es', cursor) /\ Forall2 same new_directory es' /\ rows 1024 0 es' cursor /\ (1024 | cursor) /\
    serialise es' 0 (replicate (Z.to_nat cursor) 0) = Done data /\
    read_directory data (mkExt2 [] [] 1 DiskProofs.numbered None) = Done (es', mkExt2 [] [] 1 DiskProofs.numbered None).
Proof.
  apply (directory_roundtrip 1024 new_directory (mkExt2 [] [] 1 DiskProofs.numbered None)); [lia|by exists 256|discriminate|].
  repeat constructor; cbn; lia.
Defined.
End Ext2Dir.
