(* ===== verification/Ext2Typed.v ===== *)
(** * Ext2Typed: what every operation of an ext2 file system keeps

    The superblock has its size, [m_current_block] has the size of a block, and the fields
    that give the geometry of the file system never change.  The walk over an operation is
    done by the tactic [keep], with a lemma per operation in the hint database [ext2]. *)
From stdpp Require Import base list relations.
From Stdlib Require Import ZArith Lia.
From S2P Require Import Prelude Disk DiskProofs Crc32 Ext2 Ext2Write Ext2Lemmas.
Import Ext2 Ext2Write Ext2Lemmas.

Create HintDb ext2.

Module Ext2Typed.

(** The bytes of the counts of inodes and blocks, the block size, the sizes of the groups, the
    handling of errors, the version and the size of an inode. *)
Definition geo_byte (k : Z) : Prop :=
  0 <= k < 12 \/ 24 <= k < 44 \/ 60 <= k < 62 \/ 76 <= k < 80 \/ 88 <= k < 90.
(** [sb'] is [sb] but for other fields. *)
Definition sb_like (sb sb' : list Z) : Prop := size sb' = size sb /\ forall k, geo_byte k -> byte_at sb' k = byte_at sb k.

Lemma sb_like_refl sb : sb_like sb sb.
Proof. done. Qed.
Lemma sb_like_trans a b c : sb_like a b -> sb_like b c -> sb_like a c.
Proof. intros [H1 H2] [H3 H4]. split; [congruence|]. intros k Hk. rewrite H4, H2; done. Qed.
Lemma sb_like_splice i src sb : 0 <= i -> i + size src <= size sb -> (forall k, geo_byte k -> ~ i <= k < i + size src) ->
  sb_like sb (splice i src sb).
Proof.
  intros Hi Hs N. split; [by apply size_splice|]. intros k Hk. unfold geo_byte in Hk.
  rewrite byte_at_splice by (lia || done). rewrite bool_decide_false by (by apply N). done.
Qed.
Lemma sb_like_set16 i v sb : 0 <= i -> i + 2 <= size sb -> (forall k, geo_byte k -> ~ i <= k < i + 2) -> sb_like sb (set16 i v sb).
Proof. intros. by apply sb_like_splice. Qed.
Lemma sb_like_set32 i v sb : 0 <= i -> i + 4 <= size sb -> (forall k, geo_byte k -> ~ i <= k < i + 4) -> sb_like sb (set32 i v sb).
Proof. intros. by apply sb_like_splice. Qed.
Lemma sb_like_get16 i sb sb' : sb_like sb sb' -> geo_byte i -> geo_byte (i + 1) -> get16 i sb' = get16 i sb.
Proof. intros [_ H] H1 H2. unfold get16. by rewrite !H. Qed.
Lemma sb_like_get32 i sb sb' : sb_like sb sb' -> geo_byte i -> geo_byte (i + 1) -> geo_byte (i + 2) -> geo_byte (i + 3) ->
  get32 i sb' = get32 i sb.
Proof. intros H ????. unfold get32. rewrite !(sb_like_get16 _ sb sb') by (done || (replace (i + 2 + 1) with (i + 3) by lia; done)). done. Qed.
Ltac geo := unfold geo_byte; lia.
Lemma sb_like_block_size sb sb' : sb_like sb sb' -> block_size_of sb' = block_size_of sb.
Proof. intros H. unfold block_size_of, log_block_size. rewrite (sb_like_get32 _ sb sb') by (done || geo). done. Qed.

Section typed.
Context {D : Type} `{BD : ByteDisk D} (epoch : Z) (is_power_of : Z -> Z -> bool).
Abbreviation E := (M (ext2 D)).

Record typed (s : ext2 D) : Prop := {
  t_superblock : size (m_superblock s) = 1024;
  t_current : size (m_current_block s) = block_size_of (m_superblock s);
}.
(** What an operation keeps. *)
Definition kept (s s' : ext2 D) : Prop := typed s' /\ sb_like (m_superblock s) (m_superblock s').
Definition keeps {A} (s : ext2 D) (m : E A) : Prop := typed s -> forall a s', m s = Done (a, s') -> kept s s'.

Lemma fs_kept_refl s : typed s -> kept s s.
Proof. intros T. split; [done|apply sb_like_refl]. Qed.
Lemma fs_kept_trans s1 s2 s3 : kept s1 s2 -> kept s2 s3 -> kept s1 s3.
Proof. intros [_ H1] [T H2]. split; [done|by eapply sb_like_trans]. Qed.

(** ** The rules *)

Lemma keeps_ret {A} s (a : A) : keeps s (mret a).
Proof. intros T ? ? [= <- <-]. by apply fs_kept_refl. Qed.
Lemma keeps_fail {A} s f : keeps s (fail f : E A).
Proof. intros T ? ? [=]. Qed.
Lemma keeps_gets {A} s (f : ext2 D -> A) : keeps s (gets f).
Proof. intros T ? ? [= <- <-]. by apply fs_kept_refl. Qed.
Lemma keeps_bind {A B} s (m : E A) (k : A -> E B) : keeps s m -> (forall a s', kept s s' -> keeps s' (k a)) -> keeps s (m ≫= k).
Proof.
  intros H1 H2 T b s2. unfold mbind, M_bind. destruct (m s) as [[a s1]|] eqn:Em; [|done]. intros Ek.
  pose proof (H1 T a s1 Em) as K. eapply fs_kept_trans; [exact K|]. eapply (H2 a s1 K); [apply K|exact Ek].
Qed.
Lemma keeps_bind_gets {A B} s (f : ext2 D -> A) (k : A -> E B) : keeps s (k (f s)) -> keeps s (gets f ≫= k).
Proof. intros H T b s'. rewrite run_bind_gets. by apply H. Qed.
Lemma keeps_assert s b : keeps s (assert_ b : E unit).
Proof. destruct b; [apply keeps_ret|apply keeps_fail]. Qed.
Lemma keeps_when s b (m : E unit) : keeps s m -> keeps s (when b m).
Proof. destruct b; [done|intros; apply keeps_ret]. Qed.
Lemma keeps_for_each {A} (l : list A) (body : A -> E unit) : forall s, (forall a s', keeps s' (body a)) -> keeps s (for_each l body).
Proof. induction l as [|x l IH]; intros s H; cbn; [apply keeps_ret|]. apply keeps_bind; [apply H|]. intros ? s' _. by apply IH. Qed.
Lemma keeps_lift {A} s (o : outcome A) : keeps s (lift o : E A).
Proof. destruct o; [apply keeps_ret|apply keeps_fail]. Qed.
Lemma keeps_divmod s a b : keeps s (divmod a b : E (Z * Z)).
Proof. unfold divmod. destruct (b =? 0); [apply keeps_fail|apply keeps_ret]. Qed.
Lemma keeps_set_current s l : size l = size (m_current_block s) -> keeps s (set_current_block l).
Proof. intros H [T1 T2] ? ? [= <- <-]. split; [|apply sb_like_refl]. split; cbn; [done|congruence]. Qed.
Lemma keeps_set_has_error s e : keeps s (set_has_error e).
Proof. intros [T1 T2] ? ? [= <- <-]. by split. Qed.
Lemma keeps_set_disk s d : keeps s (set_disk d).
Proof. intros [T1 T2] ? ? [= <- <-]. by split. Qed.
Lemma keeps_set_superblock s sb : (size (m_superblock s) = 1024 -> sb_like (m_superblock s) sb) -> keeps s (set_superblock sb).
Proof.
  intros H [T1 T2] ? ? [= <- <-]. specialize (H T1). split; [|done]. split; cbn.
  - destruct H. congruence.
  - rewrite T2. symmetry. by apply sb_like_block_size.
Qed.
Lemma keeps_cur_slice s i n : keeps s (cur_slice i n : E (list Z)).
Proof. unfold cur_slice. apply keeps_bind_gets. destruct (_ && _); [apply keeps_ret|apply keeps_fail]. Qed.
Lemma keeps_cur_splice s i src : keeps s (cur_splice i src : E unit).
Proof.
  unfold cur_splice. apply keeps_bind_gets. destruct (Z.leb_spec 0 i), (Z.leb_spec (i + size src) (size (m_current_block s)));
    cbn [andb]; try apply keeps_fail. apply keeps_set_current. by apply size_splice.
Qed.
Lemma keeps_zeroes s z : keeps s (modify (fun s => mkExt2 (m_superblock s) (m_current_block s) (m_has_error s) (m_disk s) z) : E unit).
Proof. intros [T1 T2] ? ? [= <- <-]. by split. Qed.
End typed.
Arguments typed {D}.
Arguments kept {D}.
Arguments keeps {D A}.
End Ext2Typed.
Import Ext2Typed.

#[export] Hint Resolve keeps_ret keeps_fail keeps_gets keeps_assert keeps_lift keeps_divmod keeps_set_has_error keeps_set_disk
  keeps_cur_slice keeps_cur_splice keeps_zeroes : ext2.

(** Walk over an operation: the rules of its structure, and the lemmas of what it calls. *)
Ltac keep_step :=
  match goal with
  | |- keeps _ _ => solve [eauto 2 with ext2]
  | |- keeps _ (gets _ ≫= _) => apply keeps_bind_gets
  | |- keeps _ (_ ≫= _) => apply keeps_bind; [|let a := fresh "a" in let s := fresh "s" in let K := fresh "K" in intros a s K]
  | |- keeps _ (when _ _) => apply keeps_when
  | |- keeps _ (for_each _ _) => apply keeps_for_each; intros ? ?
  | |- keeps _ (match ?x with _ => _ end) => destruct x
  end.
Ltac keep := repeat keep_step.

Module Ext2Keeps.
Section keeps.
Context {D : Type} `{BD : ByteDisk D} (epoch : Z) (is_power_of : Z -> Z -> bool).
Abbreviation E := (M (ext2 D)).

(** ** The operations *)

Lemma keeps_block_size s : keeps s (block_size : E Z).
Proof. apply keeps_gets. Qed.
Lemma keeps_inode_size s : keeps s (inode_size : E Z).
Proof. apply keeps_gets. Qed.
Lemma keeps_cur8 s i : keeps s (cur8 i : E Z).
Proof. unfold cur8. keep. Qed.
Lemma keeps_cur32 s i : keeps s (cur32 i : E Z).
Proof. unfold cur32. keep. Qed.
Lemma keeps_error s : keeps s (error : E unit).
Proof. unfold error. keep. Qed.
Lemma keeps_span_size s sp : keeps s (span_size sp : E Z).
Proof. unfold span_size. keep. Qed.
#[local] Hint Resolve keeps_block_size keeps_inode_size keeps_cur8 keeps_cur32 keeps_error keeps_span_size : ext2.

Lemma keeps_read s offset d : keeps s (
  r ← lift (bd_read offset (m_current_block s) d);
  match r with inl e => mret (inl e) | inr l => set_current_block l ;; mret (inr Current) end : E (DiskError + span)).
Proof.
  intros T a s'. unfold lift. destruct (bd_read offset (m_current_block s) d) as [[e|l]|] eqn:R; [| |done].
  - intros [= <- <-]. by apply fs_kept_refl.
  - rewrite run_bind_ret. revert a s'. apply (keeps_bind s (set_current_block l) (fun _ => mret (inr Current))); [|intros; apply keeps_ret|done].
    apply keeps_set_current. unfold size. by rewrite (bd_read_length _ _ _ _ R).
Qed.
#[local] Hint Resolve keeps_read : ext2.
Lemma keeps_read_block s n sp : keeps s (read_block n sp : E (DiskError + span)).
Proof. unfold read_block. keep. Qed.
#[local] Hint Resolve keeps_read_block : ext2.
Lemma keeps_read_current s n : keeps s (read_current n : E unit).
Proof. unfold read_current. keep. Qed.
#[local] Hint Resolve keeps_read_current : ext2.
Lemma keeps_get_block_group s g : keeps s (get_block_group g : E (list Z)).
Proof. unfold get_block_group. keep. Qed.
#[local] Hint Resolve keeps_get_block_group : ext2.
Lemma keeps_check_inode_presence s i : keeps s (check_inode_presence i : E bool).
Proof. unfold check_inode_presence. keep. Qed.
#[local] Hint Resolve keeps_check_inode_presence : ext2.
Lemma keeps_read_inode s i : keeps s (read_inode i : E (list Z)).
Proof. unfold read_inode. keep. Qed.
Lemma keeps_get_data_block_indirected depth : forall s b k, keeps s (get_data_block_indirected depth b k : E Z).
Proof. induction depth as [|depth IH]; intros s b k; cbn [get_data_block_indirected]; keep. Qed.
#[local] Hint Resolve keeps_read_inode keeps_get_data_block_indirected : ext2.
Lemma keeps_get_data_block s inode k : keeps s (get_data_block inode k : E Z).
Proof. unfold get_data_block. keep. Qed.
Lemma keeps_read_indirected depth : forall s b k sp, keeps s (read_indirected depth b k sp : E (DiskError + span)).
Proof. induction depth as [|depth IH]; intros s b k sp; cbn [read_indirected]; keep. Qed.
#[local] Hint Resolve keeps_get_data_block keeps_read_indirected : ext2.
Lemma keeps_read_data_block s inode k sp : keeps s (read_data_block inode k sp : E (DiskError + span)).
Proof. unfold read_data_block. keep. Qed.
#[local] Hint Resolve keeps_read_data_block : ext2.
Lemma keeps_read_data_loop fuel : forall s inode i sp, keeps s (read_data_loop fuel inode i sp : E (DiskError + span)).
Proof. induction fuel as [|fuel IH]; intros s inode i sp; cbn [read_data_loop]; keep. Qed.
#[local] Hint Resolve keeps_read_data_loop : ext2.
Lemma keeps_read_data s inode o sp : keeps s (read_data inode o sp : E (DiskError + span)).
Proof. unfold read_data. keep. Qed.
Lemma keeps_read_directory_loop fuel : forall s p data, keeps s (read_directory_loop fuel p data : E (list DirectoryEntry)).
Proof. induction fuel as [|fuel IH]; intros s p data; cbn [read_directory_loop]; keep. Qed.
#[local] Hint Resolve keeps_read_data keeps_read_directory_loop : ext2.
Lemma keeps_read_directory s data : keeps s (read_directory data : E (list DirectoryEntry)).
Proof. unfold read_directory. keep. Qed.
#[local] Hint Resolve keeps_read_directory : ext2.
Lemma keeps_read_directory_entries s i : keeps s (read_directory_entries i : E (list DirectoryEntry)).
Proof. unfold read_directory_entries. keep. Qed.
#[local] Hint Resolve keeps_read_directory_entries : ext2.
Lemma keeps_read_file s i o data : keeps s (read_file i o data : E (DiskError + list Z * Z)).
Proof. unfold read_file. keep. Qed.
#[local] Hint Resolve keeps_read_file : ext2.

Lemma keeps_disk_write s o l : keeps s (disk_write o l : E unit).
Proof. unfold disk_write. keep. Qed.
#[local] Hint Resolve keeps_disk_write : ext2.
Lemma keeps_write_block s n sp : keeps s (write_block n sp : E unit).
Proof. unfold write_block. keep. Qed.
#[local] Hint Resolve keeps_write_block : ext2.

(** The fields that change are not those of the geometry. *)
Lemma keeps_set_field s i src : 0 <= i -> i + size src <= 1024 -> (forall k, geo_byte k -> ~ i <= k < i + size src) ->
  keeps s (set_superblock (splice i src (m_superblock s)) : E unit).
Proof. intros. apply keeps_set_superblock. intros L. apply sb_like_splice; [done|lia|done]. Qed.
#[local] Hint Extern 2 (keeps _ (set_superblock _)) => apply keeps_set_field; [lia|unfold size; cbn; lia|unfold geo_byte, size; cbn; lia] : ext2.

Lemma keeps_update_superblock s : keeps s (update_superblock epoch is_power_of : E unit).
Proof. unfold update_superblock. keep. Qed.
#[local] Hint Resolve keeps_update_superblock : ext2.
Lemma keeps_umount s : keeps s (umount epoch is_power_of : E unit).
Proof. unfold umount. keep. Qed.
Lemma keeps_write_block_group s g l : keeps s (write_block_group g l : E unit).
Proof. unfold write_block_group. keep. Qed.
Lemma keeps_write_inode s i l : keeps s (write_inode i l : E unit).
Proof. unfold write_inode. keep. Qed.
Lemma keeps_first_clear fuel : forall s j, keeps s (first_clear fuel j : E (option Z)).
Proof. induction fuel as [|fuel IH]; intros s j; cbn [first_clear]; keep. Qed.
#[local] Hint Resolve keeps_write_block_group keeps_write_inode keeps_first_clear : ext2.
Lemma keeps_alloc_block_in_block_group s g : keeps s (alloc_block_in_block_group g : E Z).
Proof. unfold alloc_block_in_block_group. keep. Qed.
Lemma keeps_alloc_inode_in_block_group s dir g : keeps s (alloc_inode_in_block_group dir g : E Z).
Proof. unfold alloc_inode_in_block_group. keep. Qed.
Lemma keeps_first_group (alloc : Z -> E Z) gs : (forall s g, keeps s (alloc g)) -> forall s, keeps s (first_group alloc gs).
Proof. intros H. induction gs as [|g gs IH]; intros s; cbn [first_group]; keep. Qed.
#[local] Hint Resolve keeps_alloc_block_in_block_group keeps_alloc_inode_in_block_group keeps_first_group : ext2.
Lemma keeps_alloc_block s g : keeps s (alloc_block epoch is_power_of g : E Z).
Proof. unfold alloc_block. keep. Qed.
Lemma keeps_free_block s b : keeps s (free_block epoch is_power_of b : E unit).
Proof. unfold free_block. keep. Qed.
Lemma keeps_alloc_inode s g dir : keeps s (alloc_inode epoch is_power_of g dir : E Z).
Proof. unfold alloc_inode. keep. Qed.
Lemma keeps_remove_inode s i dir : keeps s (remove_inode epoch is_power_of i dir : E unit).
Proof. unfold remove_inode. keep. Qed.
#[local] Hint Resolve keeps_alloc_block keeps_free_block keeps_alloc_inode keeps_remove_inode : ext2.
Lemma keeps_alloc_indirected depth : forall s b k g, keeps s (alloc_indirected epoch is_power_of depth b k g : E unit).
Proof. induction depth as [|depth IH]; intros s b k g; cbn [alloc_indirected]; keep. Qed.
Lemma keeps_free_indirected depth : forall s b k, keeps s (free_indirected epoch is_power_of depth b k : E unit).
Proof. induction depth as [|depth IH]; intros s b k; cbn [free_indirected]; keep. Qed.
#[local] Hint Resolve keeps_alloc_indirected keeps_free_indirected : ext2.
Lemma keeps_alloc_data_block s i k : keeps s (alloc_data_block epoch is_power_of i k : E unit).
Proof. unfold alloc_data_block. keep. Qed.
Lemma keeps_free_data_block s i k : keeps s (free_data_block epoch is_power_of i k : E unit).
Proof. unfold free_data_block. keep. Qed.
#[local] Hint Resolve keeps_alloc_data_block keeps_free_data_block : ext2.
Lemma keeps_resize_inode s i n : keeps s (resize_inode epoch is_power_of i n : E unit).
Proof. unfold resize_inode. keep. Qed.
#[local] Hint Resolve keeps_resize_inode : ext2.
Lemma keeps_decrease_link_count s i : keeps s (decrease_link_count epoch is_power_of i : E unit).
Proof. unfold decrease_link_count. keep. Qed.
Lemma keeps_write_indirected depth : forall s sp b k, keeps s (write_indirected depth sp b k : E unit).
Proof. induction depth as [|depth IH]; intros s sp b k; cbn [write_indirected]; keep. Qed.
#[local] Hint Resolve keeps_decrease_link_count keeps_write_indirected : ext2.
Lemma keeps_write_data_block s sp inode k : keeps s (write_data_block sp inode k : E unit).
Proof. unfold write_data_block. keep. Qed.
#[local] Hint Resolve keeps_write_data_block : ext2.
Lemma keeps_write_span s inode b o l : keeps s (write_span inode b o l : E unit).
Proof. unfold write_span. keep. Qed.
#[local] Hint Resolve keeps_write_span : ext2.
Lemma keeps_write_offsetted_data s l b o inode : keeps s (write_offsetted_data l b o inode : E unit).
Proof. unfold write_offsetted_data. cbv zeta. apply keeps_bind; [auto with ext2|]. intros bs s1 K. keep. Qed.
#[local] Hint Resolve keeps_write_offsetted_data : ext2.
Lemma keeps_write_chunks cs : forall s b o inode, keeps s (write_chunks cs b o inode : E unit).
Proof. induction cs as [|c cs IH]; intros s b o inode; cbn [write_chunks]; keep. Qed.
#[local] Hint Resolve keeps_write_chunks : ext2.
Lemma keeps_write_data s l o inode : keeps s (write_data l o inode : E unit).
Proof. unfold write_data. keep. Qed.
#[local] Hint Resolve keeps_write_data : ext2.
Lemma keeps_write_directory_entries s i es : keeps s (write_directory_entries epoch is_power_of i es : E unit).
Proof. unfold write_directory_entries. keep. Qed.
Lemma keeps_create_dir_entry s i t n : keeps s (create_dir_entry i t n : E DirectoryEntry).
Proof. unfold create_dir_entry. keep. Qed.
#[local] Hint Resolve keeps_write_directory_entries keeps_create_dir_entry : ext2.
Lemma keeps_create_child s i n t : keeps s (create_child epoch is_power_of i n t : E Z).
Proof. unfold create_child. keep. Qed.
#[local] Hint Resolve keeps_create_child : ext2.
Lemma keeps_create_impl s i n t : keeps s (create_impl epoch is_power_of i n t : E Z).
Proof. unfold create_impl. keep. Qed.
Lemma keeps_remove_child s i n : keeps s (remove_child epoch is_power_of i n : E unit).
Proof. unfold remove_child. keep. Qed.
Lemma keeps_update_dir_entry s d i n : keeps s (update_dir_entry epoch is_power_of d i n : E unit).
Proof. unfold update_dir_entry. keep. Qed.
Lemma keeps_stat s i : keeps s (stat i : E Stat).
Proof. unfold stat. keep. Qed.
Lemma keeps_set_stat s i st : keeps s (set_stat i st : E unit).
Proof. unfold set_stat. keep. Qed.
#[local] Hint Resolve keeps_stat keeps_set_stat keeps_umount keeps_create_impl keeps_remove_child keeps_update_dir_entry : ext2.

(** ** Sequences of operations *)

Lemma backups_loop sb l : forall s okay, keeps s ((fix loop (l : list Z) (okay : bool) : E bool :=
     match l with
     | [] => mret okay
     | i :: l =>
         if has_backup is_power_of sb i then
           read_current (u32 (i * blocks_in_block_group sb + 1)) ;;
           cur ← gets m_current_block;
           loop l (okay && (ext2_signature cur =? signature))
         else loop l okay
     end) l okay).
Proof. induction l as [|i l IH]; intros s okay; keep. Qed.
#[local] Hint Resolve backups_loop : ext2.
Lemma keeps_check_superblock_backups s : keeps s (check_superblock_backups is_power_of : E bool).
Proof. unfold check_superblock_backups. keep. Qed.
#[local] Hint Resolve keeps_check_superblock_backups : ext2.

Lemma keeps_mount_fields s : keeps s (sb ← gets m_superblock;
             let state := fs_state sb in
             set_has_error state ;;
             set_superblock (set16 58 HasErrors (set16 52 (mounts_since_fsck sb + 1) (set32 44 epoch sb))) ;;
             update_superblock epoch is_power_of : E unit).
Proof.
  apply keeps_bind_gets. cbv zeta. intros T a s2. set (sb := m_superblock s). unfold mbind, M_bind.
  cbn [set_has_error set_superblock modify]. intros H. pose proof T as [T1 T2].
  assert (L : sb_like sb (set16 58 HasErrors (set16 52 (mounts_since_fsck sb + 1) (set32 44 epoch sb)))).
  { fold sb in T1. assert (sb_like sb (set32 44 epoch sb)) as L1 by (apply sb_like_set32; [lia|lia|unfold geo_byte; lia]).
    assert (sb_like sb (set16 52 (mounts_since_fsck sb + 1) (set32 44 epoch sb))) as L2.
    { eapply sb_like_trans; [exact L1|]. destruct L1. apply sb_like_set16; [lia|lia|unfold geo_byte; lia]. }
    eapply sb_like_trans; [exact L2|]. destruct L2. apply sb_like_set16; [lia|lia|unfold geo_byte; lia]. }
  match type of H with update_superblock _ _ ?x = _ => set (s1 := x) in H end.
  assert (K : kept s s1).
  { split; [|exact L]. split; cbn; [destruct L; fold sb in T1; congruence|]. rewrite T2. symmetry. by apply sb_like_block_size. }
  eapply fs_kept_trans; [exact K|]. eapply keeps_update_superblock; [apply K|]. exact H.
Qed.
#[local] Hint Resolve keeps_mount_fields : ext2.

Lemma mount_typed d zero s : mount_ext2 epoch is_power_of d zero = Done s -> typed s.
Proof.
  unfold mount_ext2, read_superblock. destruct (bd_size d <? 2048); [done|].
  destruct (bd_read 1024 (replicate 1024 0) d) as [[e|sb0]|] eqn:R; [done| |done]. cbn [mbind outcome_bind].
  apply bd_read_length in R. rewrite length_replicate in R. set (sb := set32 92 24 sb0).
  assert (L : size sb = 1024) by (unfold sb, set32; rewrite size_splice; unfold size; cbn; lia).
  set (s0 := mkExt2 sb _ 1 d zero).
  destruct ((check_superblock_backups is_power_of ≫= _) s0) as [[a s1]|] eqn:Em; [|done]. intros [= <-].
  assert (keeps s0 (check_superblock_backups is_power_of ;; sb ← gets m_superblock; let state := fs_state sb in
             set_has_error state ;;
             set_superblock (set16 58 HasErrors (set16 52 (mounts_since_fsck sb + 1) (set32 44 epoch sb))) ;;
             update_superblock epoch is_power_of)) as K by (apply keeps_bind; auto with ext2).
  eapply K; [|exact Em]. split; [done|]. cbn. unfold size. rewrite length_replicate.
  assert (0 <= block_size_of sb) by (by apply uwrap_range). lia.
Qed.

(** The operations of the nodes and of the file system. *)
Inductive op :=
  | ReadFile (inode offset : Z) (data : list Z)
  | WriteFile (inode offset : Z) (data : list Z)
  | Resize (inode size : Z)
  | ReadDirectory (inode : Z)
  | WriteInode (inode : Z) (structure : list Z)
  | Create (inode : Z) (name : list Z) (type : FileType)
  | Remove (inode : Z) (name : list Z)
  | Rename (dir inode : Z) (name : list Z)
  | GetStat (inode : Z)
  | SetStat (inode : Z) (st : Stat)
  | Unmount.
Definition run_op (o : op) : E unit :=
  match o with
  | ReadFile i o data => read_file i o data ;; mret tt
  | WriteFile i o data => info ← read_inode i; write_data data o info
  | Resize i n => resize_inode epoch is_power_of i n
  | ReadDirectory i => read_directory_entries i ;; mret tt
  | WriteInode i l => write_inode i l
  | Create i n t => create_impl epoch is_power_of i n t ;; mret tt
  | Remove i n => remove_child epoch is_power_of i n
  | Rename d i n => update_dir_entry epoch is_power_of d i n
  | GetStat i => stat i ;; mret tt
  | SetStat i st => set_stat i st
  | Unmount => umount epoch is_power_of
  end.
Lemma keeps_run_op s o : keeps s (run_op o).
Proof. unfold run_op. destruct o; keep. Qed.
Lemma keeps_run_ops s ops : keeps s (for_each ops run_op).
Proof. apply keeps_for_each. intros. apply keeps_run_op. Qed.
End keeps.
End Ext2Keeps.

