(* ===== verification/Ext2Blocks.v ===== *)
(** * Ext2Blocks: what the operations on blocks do to the disk *)
From stdpp Require Import base list.
From Stdlib Require Import ZArith Lia.
From S2P Require Import Prelude Disk DiskProofs Crc32 Ext2 Ext2Write Ext2Lemmas Ext2Typed.
Import Ext2 Ext2Write Ext2Lemmas Ext2Typed.

Module Ext2Blocks.
Section blocks.
Context {D : Type} `{BD : ByteDisk D}.
Abbreviation E := (M (ext2 D)).

Definition bsize (s : ext2 D) : Z := block_size_of (m_superblock s).
(** Block [n] of the disk. *)
Definition blk (s : ext2 D) (n : Z) : list Z := bytes (bd_contents (m_disk s)) (n * bsize s) (bsize s).
Definition with_cur (l : list Z) (s : ext2 D) : ext2 D := mkExt2 (m_superblock s) l (m_has_error s) (m_disk s) (zeroes s).
Definition with_disk (d : D) (s : ext2 D) : ext2 D := mkExt2 (m_superblock s) (m_current_block s) (m_has_error s) d (zeroes s).

(** A mounted file system: all its blocks are on the disk, and a sector more. *)
Record fs_ok (s : ext2 D) : Prop := {
  ok_typed : typed s;
  ok_disk : bd_ok (m_disk s);
  ok_size : 1024 <= bsize s <= 2 ^ 15;
  ok_sector : (bd_sector (m_disk s) | 512);
  ok_block : (512 | bsize s);
  ok_fits : block_count (m_superblock s) * bsize s + bd_sector (m_disk s) <= bd_size (m_disk s);
}.

Lemma size_bytes f a n : 0 <= n -> size (bytes f a n) = n.
Proof. intros. unfold size, bytes. rewrite length_fmap, length_seq. lia. Qed.
Lemma byte_at_bytes f a n i : 0 <= i < n -> byte_at (bytes f a n) i = f (a + i).
Proof.
  intros. unfold byte_at, bytes. rewrite nth_lookup, list_lookup_fmap, lookup_seq_lt by lia. cbn. f_equal. lia.
Qed.
Lemma size_blk s n : fs_ok s -> size (blk s n) = bsize s.
Proof. intros []. apply size_bytes. lia. Qed.

Lemma cur_size s : fs_ok s -> size (m_current_block s) = bsize s.
Proof. intros [[_ T] _ _ _ _ _]. exact T. Qed.

Lemma fs_ok_with_cur s l : fs_ok s -> size l = bsize s -> fs_ok (with_cur l s).
Proof. intros [[T1 T2] O Z1 S B F] L. split; done. Qed.

Section at_block.
Context (s : ext2 D) (n : Z) (O : fs_ok s) (Hn : 0 <= n < block_count (m_superblock s)).

Lemma block_range : 0 <= n * bsize s /\ n * bsize s + bsize s + bd_sector (m_disk s) <= bd_size (m_disk s) /\
  u32 (n * bsize s) = n * bsize s /\ (bd_sector (m_disk s) | n * bsize s) /\ (bd_sector (m_disk s) | bsize s).
Proof using O Hn.
  destruct O as [_ Od Hs Hse Hb Hf]. destruct (bd_sizes _ Od) as [P B].
  assert (n * bsize s + bsize s <= block_count (m_superblock s) * bsize s) by nia.
  assert (0 <= n * bsize s) by nia. assert (A : (bd_sector (m_disk s) | bsize s)) by (by eapply Z.divide_trans).
  split_and!; [done|lia|apply uwrap_small; lia|by apply Z.divide_mul_r|done].
Qed.

Lemma read_block_local_run l : size l = bsize s -> read_block n (Local l) s = Done (inr (Local (blk s n)), s).
Proof using O Hn.
  intros L. destruct block_range as (H0 & H1 & H2 & H3 & _). destruct (bd_sizes _ (ok_disk _ O)) as [P B].
  unfold read_block. rewrite run_bind_gets. cbn [span_size]. rewrite run_bind_ret.
  rewrite (proj2 (Z.ltb_lt _ _)), run_assert_true by lia. fold (bsize s). rewrite L, Z.eqb_refl, run_assert_true, run_bind_gets.
  fold (bsize s). rewrite H2. rewrite bd_read_ok; [|apply O|done|done|unfold size in L; lia]. fold (size l). rewrite L. done.
Qed.
Lemma read_block_current_run : read_block n Current s = Done (inr Current, with_cur (blk s n) s).
Proof using O Hn.
  destruct block_range as (H0 & H1 & H2 & H3 & _). destruct (bd_sizes _ (ok_disk _ O)) as [P B]. pose proof (cur_size s O) as L.
  unfold read_block. rewrite run_bind_gets. cbn [span_size]. rewrite run_bind_bind, run_bind_gets, run_bind_ret.
  rewrite (proj2 (Z.ltb_lt _ _)), run_assert_true by lia. fold (bsize s). rewrite L, Z.eqb_refl, run_assert_true, run_bind_gets, run_bind_gets.
  fold (bsize s). rewrite H2. rewrite bd_read_ok; [|apply O|done|done|unfold size in L; lia].
  fold (size (m_current_block s)). rewrite L. done.
Qed.
Lemma read_current_run : read_current n s = Done (tt, with_cur (blk s n) s).
Proof using O Hn. unfold read_current. erewrite run_bind_done by apply read_block_current_run. done. Qed.
End at_block.

(** ** Writes *)

(** [s'] is [s] with block [n] replaced by [l], and perhaps another current block. *)
Record wrote (n : Z) (l : list Z) (s s' : ext2 D) : Prop := {
  w_ok : fs_ok s';
  w_sb : m_superblock s' = m_superblock s;
  w_err : m_has_error s' = m_has_error s;
  w_zero : zeroes s' = zeroes s;
  w_same : blk s' n = l;
  w_other m : 0 <= m -> m <> n -> blk s' m = blk s m;
}.

Lemma block_write_run n l s : fs_ok s -> 0 <= n < block_count (m_superblock s) -> size l = bsize s ->
  exists s', disk_write (u32 (n * bsize s)) l s = Done (tt, s') /\ wrote n l s s' /\ m_current_block s' = m_current_block s.
Proof.
  intros O Hn L. destruct (block_range s n O Hn) as (H0 & H1 & H2 & H3 & H4). rewrite H2.
  destruct (bd_write_ok (m_disk s) (n * bsize s) l) as (d' & E & Od & Es & Ez & C); try done; [apply O|fold (size l); by rewrite L|fold (size l); lia|].
  exists (with_disk d' s). split; [|split; [|done]].
  - unfold disk_write. rewrite run_bind_gets. unfold lift. rewrite E. done.
  - destruct O as [T Od0 Hs Hse Hb Hf]. split; try done.
    + destruct T. split; try done; cbn [with_disk m_disk m_superblock]; rewrite ?Es, ?Ez; done.
    + unfold blk. change (bsize (with_disk d' s)) with (bsize s). apply list_eq_bytes; [rewrite L; apply size_bytes; lia|].
      intros i Hi. rewrite size_bytes in Hi by lia. rewrite byte_at_bytes by done. cbn [with_disk m_disk]. rewrite C. unfold overwrite.
      fold (size l). rewrite L. rewrite (proj2 (Z.leb_le _ _)), (proj2 (Z.ltb_lt _ _)) by lia. cbn [andb]. unfold byte_at. f_equal. lia.
    + intros m Hm N. unfold blk. change (bsize (with_disk d' s)) with (bsize s). unfold bytes. apply list_fmap_ext. intros i x Hx.
      apply lookup_seq in Hx as [-> Hx]. cbn. rewrite C. unfold overwrite. fold (size l). rewrite L.
      destruct (Z.leb_spec (n * bsize s) (m * bsize s + Z.of_nat i)); [|done].
      destruct (Z.ltb_spec (m * bsize s + Z.of_nat i) (n * bsize s + bsize s)); [|done]. cbn [Nat.add] in *. nia.
Qed.
Lemma write_block_local_run n l s : fs_ok s -> 0 <= n < block_count (m_superblock s) -> size l = bsize s ->
  exists s', write_block n (Local l) s = Done (tt, s') /\ wrote n l s s' /\ m_current_block s' = m_current_block s.
Proof.
  intros O Hn L. destruct (block_write_run n l s O Hn L) as (s' & E & W). exists s'. split; [|done].
  unfold write_block. rewrite run_bind_gets, (proj2 (Z.ltb_lt _ _)), run_assert_true by lia. exact E.
Qed.
Lemma write_block_current_run n s : fs_ok s -> 0 <= n < block_count (m_superblock s) ->
  exists s', write_block n Current s = Done (tt, s') /\ wrote n (m_current_block s) s s' /\ m_current_block s' = m_current_block s.
Proof.
  intros O Hn. destruct (block_write_run n _ s O Hn (cur_size s O)) as (s' & E & W). exists s'. split; [|done].
  unfold write_block. rewrite run_bind_gets, (proj2 (Z.ltb_lt _ _)), run_assert_true by lia. rewrite run_bind_gets. exact E.
Qed.
End blocks.
End Ext2Blocks.
