(* ===== verification/Ext2Proofs.v ===== *)
(** * Ext2Proofs: the groups, the inodes, the allocation and the blocks of files *)
From stdpp Require Import base list.
From Stdlib Require Import ZArith Lia.
From S2P Require Import Prelude Disk DiskProofs Crc32 Ext2 Ext2Write Ext2Lemmas Ext2Typed Ext2Blocks.
Import Ext2 Ext2Write Ext2Lemmas Ext2Typed Ext2Blocks.

Module Ext2Proofs.

(** ** Bits of a byte *)

Lemma bit_check_testbit v p : bit_check v p = Z.testbit v p.
Proof.
  unfold bit_check, Ztrue. change 1 with (Z.ones 1). rewrite Z.land_ones by lia. rewrite Z.pow_1_r, Zmod_odd, <- Z.bit0_odd.
  destruct (decide (0 <= p)).
  - rewrite Z.shiftr_spec by lia. rewrite Z.add_0_l. by destruct (Z.testbit v p).
  - rewrite (Z.testbit_neg_r v p) by lia. replace p with (- (- p)) by lia. rewrite <- Z.shiftl_opp_r, Z.opp_involutive.
    rewrite Z.shiftl_spec_low by lia. done.
Qed.
Lemma bit_set_spec v p q : 0 <= p < 8 -> 0 <= q < 8 -> bit_check (bit_set v p) q = (q =? p) || bit_check v q.
Proof.
  intros Hp Hq. rewrite !bit_check_testbit. unfold bit_set, uwrap. rewrite Z.mod_pow2_bits_low, Z.lor_spec, Z.shiftl_1_l by lia.
  rewrite Z.pow2_bits_eqb, orb_comm by lia. f_equal. apply Z.eqb_sym.
Qed.

Section runs.
Context {D : Type} `{BD : ByteDisk D}.
Abbreviation E := (M (ext2 D)).

Lemma block_count_small s : fs_ok s -> block_count (m_superblock s) < 2 ^ 31.
Proof. intros O. destruct (bd_sizes _ (ok_disk _ O)). destruct O as [_ _ Z1 _ _ F]. nia. Qed.

Lemma cur_slice_run (s : ext2 D) i n : 0 <= i -> i + n <= size (m_current_block s) -> cur_slice i n s = Done (slice i n (m_current_block s), s).
Proof. intros. unfold cur_slice. rewrite run_bind_gets, (proj2 (Z.leb_le _ _)), (proj2 (Z.leb_le _ _)) by lia. done. Qed.
Lemma cur8_run (s : ext2 D) i : 0 <= i < size (m_current_block s) -> cur8 i s = Done (byte_at (m_current_block s) i, s).
Proof.
  intros. unfold cur8. rewrite (run_bind_done _ _ _ _ _ (cur_slice_run s i 1 ltac:(lia) ltac:(lia))).
  rewrite byte_at_slice, Z.add_0_r by lia. done.
Qed.
Lemma cur32_run (s : ext2 D) i : 0 <= i -> 4 * i + 4 <= size (m_current_block s) -> cur32 i s = Done (get32 (4 * i) (m_current_block s), s).
Proof.
  intros. unfold cur32. rewrite (run_bind_done _ _ _ _ _ (cur_slice_run s (4 * i) 4 ltac:(lia) ltac:(lia))).
  rewrite get32_slice, Z.add_0_r by lia. done.
Qed.
Lemma cur_splice_run (s : ext2 D) i src : 0 <= i -> i + size src <= size (m_current_block s) ->
  cur_splice i src s = Done (tt, with_cur (splice i src (m_current_block s)) s).
Proof. intros. unfold cur_splice. rewrite run_bind_gets, (proj2 (Z.leb_le _ _)), (proj2 (Z.leb_le _ _)) by lia. done. Qed.
Lemma divmod_run (s : ext2 D) a b : b <> 0 -> divmod a b s = Done ((a / b, a mod b), s).
Proof. intros. unfold divmod. rewrite (proj2 (Z.eqb_neq _ _)) by done. done. Qed.

(** ** Descriptors of groups *)

Definition group_block (s : ext2 D) (g : Z) : Z := block_group_table_block (m_superblock s) + g / (bsize s / 32).
Definition group_at (s : ext2 D) (g : Z) : list Z := slice (g mod (bsize s / 32) * 32) 32 (blk s (group_block s g)).

Lemma group_per_block s : fs_ok s -> 32 <= bsize s / 32 /\ bsize s / 32 * 32 = bsize s.
Proof.
  intros O. destruct O as [_ _ Z1 _ [k B] _]. split; [apply Z.div_le_lower_bound; lia|].
  rewrite B. replace (k * 512) with (k * 16 * 32) by lia. rewrite Z.div_mul by lia. done.
Qed.
Lemma group_offset s g : fs_ok s -> 0 <= g mod (bsize s / 32) * 32 /\ g mod (bsize s / 32) * 32 + 32 <= bsize s.
Proof. intros O. destruct (group_per_block s O) as [H1 H2]. pose proof (Z.mod_pos_bound g (bsize s / 32) ltac:(lia)). lia. Qed.
Lemma group_block_pos s g : fs_ok s -> 0 <= g -> 1 <= group_block s g.
Proof.
  intros O Hg. destruct (group_per_block s O). unfold group_block, block_group_table_block.
  pose proof (Z.div_pos g (bsize s / 32) Hg ltac:(lia)). destruct (_ =? _); lia.
Qed.

Lemma get_block_group_run s g : fs_ok s -> 0 <= g -> group_block s g < block_count (m_superblock s) ->
  get_block_group g s = Done (group_at s g, with_cur (blk s (group_block s g)) s).
Proof.
  intros O Hg Hb. destruct (group_per_block s O) as [H1 H2]. pose proof (group_block_pos s g O Hg). pose proof (block_count_small s O).
  unfold get_block_group, block_size. rewrite !run_bind_gets. fold (bsize s).
  rewrite (run_bind_done _ _ _ _ _ (divmod_run s g (bsize s / 32) ltac:(lia))). cbv beta iota.
  fold (group_block s g). rewrite uwrap_small by lia.
  rewrite (run_bind_done _ _ _ _ _ (read_current_run s (group_block s g) O ltac:(lia))).
  destruct (group_offset s g O). apply cur_slice_run; [lia|]. cbn [with_cur m_current_block]. rewrite size_blk by done. lia.
Qed.

Lemma group_at_size s g : fs_ok s -> size (group_at s g) = 32.
Proof. intros O. destruct (group_offset s g O). apply size_slice; [lia|lia|]. by rewrite size_blk. Qed.

(** ** Inodes *)

Definition ino_group (s : ext2 D) (i : Z) : Z := (i - 1) / inodes_in_block_group (m_superblock s).
Definition ino_index (s : ext2 D) (i : Z) : Z := (i - 1) mod inodes_in_block_group (m_superblock s).
Definition ino_bitmap (s : ext2 D) (i : Z) : Z := inode_bitmap (group_at s (ino_group s i)).
Definition ino_block (s : ext2 D) (i : Z) : Z := inode_table (group_at s (ino_group s i)) + ino_index s i * 128 / bsize s.
Definition ino_offset (s : ext2 D) (i : Z) : Z := ino_index s i mod (bsize s / 128) * 128.
(** The bit of the bitmap, and the 128 bytes of the table. *)
Definition bit_at (s : ext2 D) (b j : Z) : bool := bit_check (byte_at (blk s b) (j / 8)) (j mod 8).
Definition inode_at (s : ext2 D) (i : Z) : list Z := slice (ino_offset s i) 128 (blk s (ino_block s i)).

(** An inode in use, whose group, bitmap and table are blocks of the file system. *)
Record inode_ok (s : ext2 D) (i : Z) : Prop := {
  i_num : 1 <= i < 2 ^ 32;
  i_per : 0 < inodes_in_block_group (m_superblock s) <= 8 * bsize s;
  i_isize : inode_size_of (m_superblock s) = 128;
  i_group : group_block s (ino_group s i) < block_count (m_superblock s);
  i_bitmap : 0 <= ino_bitmap s i < block_count (m_superblock s);
  i_block : 0 <= ino_block s i < block_count (m_superblock s);
  i_used : bit_at s (ino_bitmap s i) (ino_index s i) = true;
}.

Lemma ino_group_pos s i : inode_ok s i -> 0 <= ino_group s i /\ 0 <= ino_index s i < inodes_in_block_group (m_superblock s).
Proof. intros [N P _ _ _ _ _]. split; [apply Z.div_pos; lia|apply Z.mod_pos_bound; lia]. Qed.
Lemma per_block s : fs_ok s -> 8 <= bsize s / 128 /\ bsize s / 128 * 128 = bsize s.
Proof.
  intros O. destruct O as [_ _ Z1 _ [k B] _]. split; [apply Z.div_le_lower_bound; lia|].
  rewrite B. replace (k * 512) with (k * 4 * 128) by lia. rewrite Z.div_mul by lia. done.
Qed.
Lemma ino_offset_range s i : fs_ok s -> 0 <= ino_offset s i /\ ino_offset s i + 128 <= bsize s.
Proof. intros O. destruct (per_block s O). pose proof (Z.mod_pos_bound (ino_index s i) (bsize s / 128) ltac:(lia)). unfold ino_offset. nia. Qed.

Lemma check_inode_presence_run s i : fs_ok s -> inode_ok s i ->
  check_inode_presence i s = Done (true, with_cur (blk s (ino_bitmap s i)) s).
Proof.
  intros O I. destruct (ino_group_pos s i I) as [G X]. pose proof I as [N P _ Hg Hb _ U]. unfold check_inode_presence.
  rewrite run_bind_gets, uwrap_small by lia. rewrite (run_bind_done _ _ _ _ _ (divmod_run s (i - 1) (inodes_in_block_group (m_superblock s)) ltac:(lia))). cbv beta iota.
  fold (ino_group s i) (ino_index s i). rewrite (run_bind_done _ _ _ _ _ (get_block_group_run s _ O G Hg)).
  set (s1 := with_cur _ s). assert (O1 : fs_ok s1) by (apply fs_ok_with_cur; [done|by apply size_blk]).
  rewrite (run_bind_done _ _ _ _ _ (read_current_run s1 (ino_bitmap s i) O1 Hb)).
  erewrite run_bind_done; [|apply cur8_run; cbn [with_cur m_current_block]; rewrite size_blk by done; change (bsize s1) with (bsize s);
    split; [apply Z.div_pos; lia|apply Z.div_lt_upper_bound; lia]].
  cbn [with_cur m_current_block]. unfold bit_at in U. change (blk s1 (ino_bitmap s i)) with (blk s (ino_bitmap s i)). by rewrite U.
Qed.

(** Where [read_inode] and [write_inode] find the inode. *)
Lemma inode_place s i : fs_ok s -> inode_ok s i ->
  u32 (inode_table (group_at s (ino_group s i)) + u32 (ino_index s i * 128) / bsize s) = ino_block s i.
Proof.
  intros O I. destruct (ino_group_pos s i I) as [G X]. pose proof I as [N P _ _ _ B _]. pose proof (block_count_small s O).
  destruct O as [_ _ Z1 _ _ _]. rewrite (uwrap_small 32 (_ * 128)) by lia. fold (ino_block s i). apply uwrap_small. lia.
Qed.

Lemma read_inode_run s i : fs_ok s -> inode_ok s i -> read_inode i s = Done (inode_at s i, with_cur (blk s (ino_block s i)) s).
Proof.
  intros O I. destruct (ino_group_pos s i I) as [G X]. pose proof I as [N P Sz Hg Hb B U]. destruct (per_block s O) as [P1 P2].
  unfold read_inode. rewrite (run_bind_done _ _ _ _ _ (check_inode_presence_run s i O I)). cbn [negb].
  rewrite run_when_false, run_bind_gets. set (s1 := with_cur _ s). assert (O1 : fs_ok s1) by (apply fs_ok_with_cur; [done|by apply size_blk]).
  rewrite uwrap_small by lia. rewrite (run_bind_done _ _ _ _ _ (divmod_run s1 (i - 1) (inodes_in_block_group (m_superblock s)) ltac:(lia))). cbv beta iota.
  rewrite (run_bind_done _ _ _ _ _ (get_block_group_run s1 (ino_group s i) O1 G Hg)). set (s2 := with_cur _ s1).
  assert (O2 : fs_ok s2) by (apply fs_ok_with_cur; [done|by apply (size_blk s1)]).
  unfold block_size, inode_size. rewrite !run_bind_gets. change (m_superblock s2) with (m_superblock s). rewrite Sz.
  rewrite (run_bind_done _ _ _ _ _ (divmod_run s2 (bsize s) 128 ltac:(lia))). cbv beta iota.
  rewrite (run_bind_done _ _ _ _ _ (divmod_run s2 (ino_index s i) (bsize s / 128) ltac:(lia))). cbv beta iota.
  change (group_at s1 (ino_group s i)) with (group_at s (ino_group s i)). fold (bsize s) (ino_index s i).
  change ((i - 1) mod inodes_in_block_group (m_superblock s1)) with (ino_index s i). rewrite (inode_place s i O I).
  rewrite (run_bind_done _ _ _ _ _ (read_current_run s2 (ino_block s i) O2 B)). fold (ino_offset s i).
  destruct (ino_offset_range s i O). apply cur_slice_run; [done|]. cbn [with_cur m_current_block]. rewrite size_blk by done. done.
Qed.

Lemma write_inode_run s i l : fs_ok s -> inode_ok s i -> size l = 128 ->
  exists s', write_inode i l s = Done (tt, s') /\ wrote (ino_block s i) (splice (ino_offset s i) l (blk s (ino_block s i))) s s'.
Proof.
  intros O I L. destruct (ino_group_pos s i I) as [G X]. pose proof I as [N P Sz Hg Hb B U]. destruct (per_block s O) as [P1 P2].
  unfold write_inode. rewrite (run_bind_done _ _ _ _ _ (check_inode_presence_run s i O I)). cbn [negb].
  rewrite run_bind_gets. set (s1 := with_cur _ s). assert (O1 : fs_ok s1) by (apply fs_ok_with_cur; [done|by apply size_blk]).
  rewrite uwrap_small by lia. rewrite (run_bind_done _ _ _ _ _ (divmod_run s1 (i - 1) (inodes_in_block_group (m_superblock s)) ltac:(lia))).
  cbv beta iota. fold (ino_group s i) (ino_index s i).
  rewrite (run_bind_done _ _ _ _ _ (get_block_group_run s1 (ino_group s i) O1 G Hg)). set (s2 := with_cur _ s1).
  assert (O2 : fs_ok s2) by (apply fs_ok_with_cur; [done|by apply (size_blk s1)]).
  unfold block_size, inode_size. rewrite !run_bind_gets. change (m_superblock s2) with (m_superblock s). rewrite Sz.
  rewrite (run_bind_done _ _ _ _ _ (divmod_run s2 (bsize s) 128 ltac:(lia))). cbv beta iota.
  rewrite (run_bind_done _ _ _ _ _ (divmod_run s2 (ino_index s i) (bsize s / 128) ltac:(lia))). cbv beta iota zeta.
  change (group_at s1 (ino_group s i)) with (group_at s (ino_group s i)). fold (bsize s). rewrite (inode_place s i O I).
  rewrite (run_bind_done _ _ _ _ _ (read_current_run s2 (ino_block s i) O2 B)). fold (ino_offset s i). set (s3 := with_cur _ s2).
  assert (O3 : fs_ok s3) by (apply fs_ok_with_cur; [done|by apply (size_blk s2)]).
  destruct (ino_offset_range s i O) as [Q1 Q2]. pose proof (size_blk s (ino_block s i) O) as Lb.
  assert (Lt : take (Z.to_nat 128) l = l) by (apply take_ge; unfold size in L; lia). change (128 <? 128) with false. cbv iota. rewrite Lt.
  rewrite (run_bind_done _ _ _ _ _ (cur_splice_run s3 (ino_offset s i) l Q1 ltac:(change (m_current_block s3) with (blk s (ino_block s i)); lia))).
  set (new := splice _ _ _). set (s4 := with_cur _ s3).
  assert (O4 : fs_ok s4).
  { apply fs_ok_with_cur; [done|]. unfold new. change (m_current_block s3) with (blk s (ino_block s i)). rewrite size_splice by lia. done. }
  destruct (write_block_current_run (ino_block s i) s4 O4 B) as (s' & Ew & W & _). exists s'. split; [exact Ew|].
  destruct W as [W1 W2 W3 W4 W5 W6]. split; try done.
Qed.

(** ** Writing and reading inodes *)

(** The inode [i] can be written without a change of what leads to [j]. *)
Record apart (s : ext2 D) (i j : Z) : Prop := {
  a_group : ino_block s i <> group_block s (ino_group s j);
  a_bitmap : ino_block s i <> ino_bitmap s j;
  a_table : ino_block s i = ino_block s j -> ino_group s i = ino_group s j;
}.

Lemma wrote_bsize n l s s' : wrote n l s s' -> bsize s' = bsize s.
Proof. intros W. unfold bsize. by rewrite (w_sb _ _ _ _ W). Qed.
Lemma wrote_group n l s s' g : fs_ok s -> wrote n l s s' -> 0 <= g -> n <> group_block s g ->
  group_block s' g = group_block s g /\ group_at s' g = group_at s g.
Proof.
  intros O W Hg N. assert (G : group_block s' g = group_block s g) by (unfold group_block; by rewrite (w_sb _ _ _ _ W), (wrote_bsize _ _ _ _ W)).
  split; [done|]. unfold group_at. rewrite G, (wrote_bsize _ _ _ _ W). f_equal. apply (w_other _ _ _ _ W); [|done].
  pose proof (group_block_pos s g O Hg). lia.
Qed.
Lemma wrote_inode_ok s s' i j l : fs_ok s -> inode_ok s j -> wrote (ino_block s i) l s s' -> apart s i j ->
  inode_ok s' j /\ ino_block s' j = ino_block s j /\ ino_offset s' j = ino_offset s j.
Proof.
  intros O J W [A1 A2 A3]. destruct (ino_group_pos s j J) as [G X]. pose proof (wrote_bsize _ _ _ _ W) as Eb. pose proof (w_sb _ _ _ _ W) as Es.
  assert (Eg : ino_group s' j = ino_group s j) by (unfold ino_group; by rewrite Es).
  assert (Ei : ino_index s' j = ino_index s j) by (unfold ino_index; by rewrite Es).
  destruct (wrote_group _ _ _ _ _ O W G A1) as [Gb Ga].
  assert (Em : ino_bitmap s' j = ino_bitmap s j) by (unfold ino_bitmap; by rewrite Eg, Ga).
  assert (Ek : ino_block s' j = ino_block s j) by (unfold ino_block; by rewrite Eg, Ga, Ei, Eb).
  split; [|split; [done|unfold ino_offset; by rewrite Ei, Eb]]. destruct J as [J1 J2 J3 J4 J5 J6 J7].
  split; rewrite ?Eg, ?Em, ?Ek, ?Ei, ?Eb, ?Es, ?Gb; try done.
  unfold bit_at in *. rewrite (w_other _ _ _ _ W); [done|lia|done].
Qed.

(** Two inodes of a group are at different places. *)
Lemma inode_places_differ s i j : fs_ok s -> inode_ok s i -> inode_ok s j -> i <> j -> ino_group s i = ino_group s j ->
  ino_block s i = ino_block s j -> ino_offset s i + 128 <= ino_offset s j \/ ino_offset s j + 128 <= ino_offset s i.
Proof.
  intros O I J N G B. destruct (per_block s O) as [P1 P2]. unfold ino_block in B. rewrite G in B.
  assert (B' : ino_index s i * 128 / bsize s = ino_index s j * 128 / bsize s) by lia.
  rewrite <- P2, !Z.div_mul_cancel_r in B' by lia. unfold ino_offset.
  assert (Ni : ino_index s i <> ino_index s j).
  { intros Ei. apply N. unfold ino_group, ino_index in *. destruct I as [? ? _ _ _ _ _].
    pose proof (Z.div_mod (i - 1) (inodes_in_block_group (m_superblock s)) ltac:(lia)).
    pose proof (Z.div_mod (j - 1) (inodes_in_block_group (m_superblock s)) ltac:(lia)). rewrite G, Ei in *. lia. }
  pose proof (Z.div_mod (ino_index s i) (bsize s / 128) ltac:(lia)). pose proof (Z.div_mod (ino_index s j) (bsize s / 128) ltac:(lia)).
  rewrite B' in *. lia.
Qed.

(** ** Allocation of a block *)

Lemma write_block_group_run s g desc : fs_ok s -> 0 <= g -> group_block s g < block_count (m_superblock s) -> size desc = 32 ->
  exists s', write_block_group g desc s = Done (tt, s') /\
    wrote (group_block s g) (splice (g mod (bsize s / 32) * 32) desc (blk s (group_block s g))) s s'.
Proof.
  intros O Hg Hb L. destruct (group_per_block s O) as [H1 H2]. pose proof (group_block_pos s g O Hg). pose proof (block_count_small s O).
  unfold write_block_group, block_size. rewrite !run_bind_gets. fold (bsize s).
  rewrite (run_bind_done _ _ _ _ _ (divmod_run s g (bsize s / 32) ltac:(lia))). cbv beta iota zeta.
  fold (group_block s g). rewrite uwrap_small by lia.
  rewrite (run_bind_done _ _ _ _ _ (read_current_run s (group_block s g) O ltac:(lia))). set (s1 := with_cur _ s).
  assert (O1 : fs_ok s1) by (apply fs_ok_with_cur; [done|by apply size_blk]).
  destruct (group_offset s g O) as [Q1 Q2]. pose proof (size_blk s (group_block s g) O) as Lb.
  rewrite (run_bind_done _ _ _ _ _ (cur_splice_run s1 (g mod (bsize s / 32) * 32) desc Q1 ltac:(change (m_current_block s1) with (blk s (group_block s g)); lia))).
  set (s2 := with_cur _ s1). assert (O2 : fs_ok s2).
  { apply fs_ok_with_cur; [done|]. change (m_current_block s1) with (blk s (group_block s g)). rewrite size_splice by lia. done. }
  destruct (write_block_current_run (group_block s g) s2 O2) as (s' & Ew & W & _); [cbn; lia|]. exists s'. split; [exact Ew|].
  destruct W as [W1 W2 W3 W4 W5 W6]. split; try done.
Qed.

(** Descriptors after one of them was written. *)
Lemma written_group s s' g desc : fs_ok s -> 0 <= g -> size desc = 32 ->
  wrote (group_block s g) (splice (g mod (bsize s / 32) * 32) desc (blk s (group_block s g))) s s' ->
  group_at s' g = desc /\ forall g', 0 <= g' -> g' <> g -> group_at s' g' = group_at s g'.
Proof.
  intros O Hg L W. pose proof (wrote_bsize _ _ _ _ W) as Eb. destruct (group_offset s g O) as [Q1 Q2]. destruct (group_per_block s O) as [H1 _].
  assert (Gb : forall g, group_block s' g = group_block s g) by (intros; unfold group_block; by rewrite Eb, (w_sb _ _ _ _ W)).
  pose proof (size_blk s (group_block s g) O) as Lb. split.
  - unfold group_at. rewrite Gb, Eb, (w_same _ _ _ _ W).
    pose proof (slice_splice_eq (g mod (bsize s / 32) * 32) desc (blk s (group_block s g)) Q1 ltac:(rewrite L, Lb; exact Q2)) as S.
    by rewrite L in S.
  - intros g' Hg' N. destruct (decide (group_block s g' = group_block s g)) as [Eg|Ng].
    + destruct (group_offset s g' O) as [R1 R2]. unfold group_at. rewrite Gb, Eb, Eg, (w_same _ _ _ _ W). apply slice_splice_ne; try lia.
      assert (g mod (bsize s / 32) <> g' mod (bsize s / 32)); [|lia]. intros Em. apply N. unfold group_block in Eg.
      pose proof (Z.div_mod g (bsize s / 32) ltac:(lia)). pose proof (Z.div_mod g' (bsize s / 32) ltac:(lia)).
      assert (Ed : g' / (bsize s / 32) = g / (bsize s / 32)) by lia. rewrite Em, Ed in *. lia.
    + unfold group_at. rewrite Gb, Eb, (w_other _ _ _ _ W); [done| |done]. pose proof (group_block_pos s g' O Hg'). lia.
Qed.

Lemma first_clear_run (s : ext2 D) fuel : forall j, 0 <= j -> j + Z.of_nat fuel <= 8 * size (m_current_block s) ->
  let bit k := bit_check (byte_at (m_current_block s) (k / 8)) (k mod 8) in
  (first_clear fuel j s = Done (None, s) /\ forall k, j <= k < j + Z.of_nat fuel -> bit k = true) \/
  exists k, first_clear fuel j s = Done (Some k, s) /\ j <= k < j + Z.of_nat fuel /\ bit k = false /\ forall i, j <= i < k -> bit i = true.
Proof.
  induction fuel as [|fuel IH]; intros j Hj Hf bit; cbn [first_clear]; [left; split; [done|lia]|].
  rewrite (run_bind_done _ _ _ _ _ (cur8_run s (j / 8) ltac:(split; [apply Z.div_pos; lia|apply Z.div_lt_upper_bound; lia]))).
  change (bit_check _ _) with (bit j). destruct (bit j) eqn:B.
  - destruct (IH (j + 1) ltac:(lia) ltac:(lia)) as [[E A]|(k & E & R & C & A)].
    + left. split; [done|]. intros k Hk. destruct (decide (k = j)) as [-> |]; [done|]. apply A. lia.
    + right. exists k. split_and!; try done; try lia. intros i Hi. destruct (decide (i = j)) as [-> |]; [done|]. apply A. lia.
  - right. exists j. split_and!; try done; lia.
Qed.

(** The bits of a bitmap of which one was set. *)
Lemma bit_set_bitmap l j k : 0 <= j < 8 * size l -> 0 <= k < 8 * size l ->
  let l' := splice (j / 8) [bit_set (byte_at l (j / 8)) (j mod 8)] l in
  bit_check (byte_at l' (k / 8)) (k mod 8) = (k =? j) || bit_check (byte_at l (k / 8)) (k mod 8).
Proof.
  intros Hj Hk l'. pose proof (Z.div_mod j 8 ltac:(lia)). pose proof (Z.div_mod k 8 ltac:(lia)).
  pose proof (Z.mod_pos_bound j 8 ltac:(lia)). pose proof (Z.mod_pos_bound k 8 ltac:(lia)).
  unfold l'. rewrite byte_at_splice by (change (size [_]) with 1; lia). change (size [_]) with 1.
  case_bool_decide as B.
  - assert (k / 8 = j / 8) as -> by lia. rewrite Z.sub_diag, byte_at_cons_0, bit_set_spec by done.
    f_equal. destruct (Z.eqb_spec (k mod 8) (j mod 8)), (Z.eqb_spec k j); try done; lia.
  - destruct (Z.eqb_spec k j); [subst; lia|done].
Qed.

(** What [alloc_block_in_block_group] does: nothing, as there is no block left, or take the
    first block that is free. *)
Inductive allocated (s : ext2 D) (g : Z) (s' : ext2 D) : Z -> Prop :=
  | no_block :
      free_blocks_count (group_at s g) = 0 \/
        (forall j, 0 <= j < 8 * bsize s -> bit_at s (block_bitmap (group_at s g)) j = true) ->
      (forall m, 0 <= m -> blk s' m = blk s m) ->
      allocated s g s' 0
  | took j :
      let b := block_bitmap (group_at s g) in
      0 <= j < 8 * bsize s -> bit_at s b j = false -> (forall k, 0 <= k < j -> bit_at s b k = true) ->
      (forall k, 0 <= k < 8 * bsize s -> bit_at s' b k = (k =? j) || bit_at s b k) ->
      group_at s' g = set16 12 (free_blocks_count (group_at s g) - 1) (group_at s g) ->
      (forall m, 0 <= m -> m <> b -> m <> group_block s g -> blk s' m = blk s m) ->
      allocated s g s' (u32 (j + g * blocks_in_block_group (m_superblock s) + 1)).

Lemma alloc_run s g : fs_ok s -> 0 <= g -> group_block s g < block_count (m_superblock s) ->
  0 <= block_bitmap (group_at s g) < block_count (m_superblock s) -> block_bitmap (group_at s g) <> group_block s g ->
  exists r s', alloc_block_in_block_group g s = Done (r, s') /\ fs_ok s' /\ allocated s g s' r.
Proof.
  intros O Hg Hb Hm N. set (b := block_bitmap (group_at s g)) in *. unfold alloc_block_in_block_group.
  rewrite (run_bind_done _ _ _ _ _ (get_block_group_run s g O Hg Hb)). set (s1 := with_cur _ s).
  assert (O1 : fs_ok s1) by (apply fs_ok_with_cur; [done|by apply size_blk]).
  destruct (Z.eqb_spec (free_blocks_count (group_at s g)) 0) as [Z0|Nz].
  { exists 0, s1. split; [done|]. split; [done|]. constructor; [by left|done]. }
  fold b. rewrite (run_bind_done _ _ _ _ _ (read_current_run s1 b O1 Hm)). set (s2 := with_cur _ s1).
  assert (O2 : fs_ok s2) by (apply fs_ok_with_cur; [done|by apply (size_blk s1)]).
  unfold block_size. rewrite run_bind_gets. change (block_size_of (m_superblock s2)) with (bsize s).
  pose proof (size_blk s b O) as Lb. destruct (ok_size _ O).
  destruct (first_clear_run s2 (Z.to_nat (bsize s * 8)) 0 ltac:(lia)) as [[E A]|(j & E & R & C & A)];
    [change (m_current_block s2) with (blk s b); lia|rewrite (run_bind_done _ _ _ _ _ E)..].
  { exists 0, s2. split; [done|]. split; [done|]. constructor; [right|done]. intros k Hk. apply A. lia. }
  change (m_current_block s2) with (blk s b) in *.
  rewrite (run_bind_done _ _ _ _ _ (cur8_run s2 (j / 8) ltac:(change (m_current_block s2) with (blk s b);
    split; [apply Z.div_pos; lia|apply Z.div_lt_upper_bound; lia]))). change (m_current_block s2) with (blk s b).
  assert (Q : 0 <= j / 8 /\ j / 8 < bsize s) by (split; [apply Z.div_pos; lia|apply Z.div_lt_upper_bound; lia]).
  rewrite (run_bind_done _ _ _ _ _ (cur_splice_run s2 (j / 8) [_] (proj1 Q) ltac:(change (m_current_block s2) with (blk s b); change (size [_]) with 1; lia))).
  set (s3 := with_cur _ s2). change (m_current_block s2) with (blk s b) in s3.
  assert (O3 : fs_ok s3) by (apply fs_ok_with_cur; [done|]; rewrite size_splice by (change (size [_]) with 1; lia); done).
  set (bgd := set16 12 _ _). assert (Eb : block_bitmap bgd = b).
  { apply get32_splice_ne; rewrite ?group_at_size by done; change (size (le16 _)) with 2; lia. }
  rewrite Eb. destruct (write_block_current_run b s3 O3 Hm) as (s4 & E4 & W4 & _). rewrite (run_bind_done _ _ _ _ _ E4).
  assert (Lg : size bgd = 32) by (unfold bgd, set16; rewrite size_splice; rewrite ?group_at_size by done; change (size (le16 _)) with 2; lia).
  destruct (wrote_group b _ s3 s4 g O3 W4 Hg N) as [Gb Ga]. change (group_block s3 g) with (group_block s g) in Gb.
  pose proof (w_sb _ _ _ _ W4) as Es4.
  destruct (write_block_group_run s4 g bgd (w_ok _ _ _ _ W4) Hg) as (s5 & E5 & W5); [rewrite Gb, Es4; exact Hb|done|].
  rewrite (run_bind_done _ _ _ _ _ E5), run_bind_gets.
  rewrite (w_sb _ _ _ _ W5), Es4. eexists _, s5. split; [done|]. split; [apply W5|].
  destruct (written_group s4 s5 g bgd (w_ok _ _ _ _ W4) Hg Lg W5) as [Gd _]. rewrite Gb in W5.
  apply (took s g s5 j); try done; try lia; fold b.
  - intros k Hk. unfold bit_at. rewrite (w_other _ _ _ _ W5), (w_same _ _ _ _ W4) by (done || lia). apply bit_set_bitmap; lia.
  - intros m M0 M1 M2. rewrite (w_other _ _ _ _ W5), (w_other _ _ _ _ W4) by done. done.
Qed.
End runs.
End Ext2Proofs.
