(* ===== verification/Ext2Spec.v ===== *)
(** * Ext2Spec: what the theorems say of the ext2 file system

    A small file system on a memory disk, of 16 blocks of 1024 bytes, is the input of the
    witnesses. *)
From stdpp Require Import base list.
From Stdlib Require Import ZArith Lia.
From S2P Require Import Prelude Disk DiskProofs Crc32 Ext2 Ext2Write Ext2Lemmas Ext2Typed Ext2Blocks Ext2Proofs.
Import Ext2 Ext2Write Ext2Lemmas Ext2Typed Ext2Keeps Ext2Blocks Ext2Proofs.
#[local] Existing Instance DiskProofs.memory_disk.

Module Ext2Spec.

Section specs.
Context {D : Type} `{BD : ByteDisk D}.
Abbreviation E := (M (ext2 D)).

(** ** The blocks of a file *)

Lemma read_indirected_lookup depth : forall b k sp (s : ext2 D),
  read_indirected depth b k sp s = (n ← get_data_block_indirected depth b k; read_block n sp) s.
Proof.
  induction depth as [|depth IH]; intros b k sp s; [done|]. cbn [read_indirected get_data_block_indirected].
  rewrite run_bind_bind. apply run_bind_ext. intros bs s1. rewrite run_bind_bind. apply run_bind_ext. intros entries s2.
  rewrite run_bind_bind. apply run_bind_ext. intros [] s3. destruct depth as [|depth]; [done|].
  rewrite run_bind_bind. apply run_bind_ext. intros [q r] s4. rewrite run_bind_bind. apply run_bind_ext. intros n s5. apply IH.
Qed.

Lemma read_data_block_lookup inode k sp (s : ext2 D) :
  read_data_block inode k sp s = (n ← get_data_block inode k; read_block n sp) s.
Proof.
  unfold read_data_block, get_data_block. rewrite run_bind_bind. apply run_bind_ext. intros bs s1. cbv zeta.
  destruct (_ <? 12); [done|]. destruct (_ <? bs / 4); [apply read_indirected_lookup|]. destruct (_ <? u32 _); apply read_indirected_lookup.
Qed.

(** The format: the [n] digits of [k] in base [e] are the places in the tables of [n] levels, the
    first table first; the pointers 12, 13 and 14 of the inode lead to tables of one, two and
    three levels. *)
Fixpoint digits (e : Z) (n : nat) (k : Z) : list Z :=
  match n with O => [] | S n => digits e n (k / e) ++ [k mod e] end.
Definition file_path (e k : Z) : Z * list Z :=
  if k <? 12 then (k, [])
  else if k <? 12 + e then (12, digits e 1 (k - 12))
  else if k <? 12 + e + e ^ 2 then (13, digits e 2 (k - (12 + e)))
  else (14, digits e 3 (k - (12 + e + e ^ 2))).
(** The block at the end of a path through the tables from block [b], and that the tables are
    blocks of the file system. *)
Fixpoint walk (s : ext2 D) (b : Z) (path : list Z) : Z :=
  match path with [] => b | i :: path => walk s (get32 (4 * i) (blk s b)) path end.
Fixpoint walk_ok (s : ext2 D) (b : Z) (path : list Z) : Prop :=
  match path with
  | [] => True
  | i :: path => 0 <= b < block_count (m_superblock s) /\ walk_ok s (get32 (4 * i) (blk s b)) path
  end.
Definition file_block (s : ext2 D) (inode : list Z) (k : Z) : Z :=
  let '(p, path) := file_path (bsize s / 4) k in walk s (block_ptr p inode) path.
Definition file_tables_ok (s : ext2 D) (inode : list Z) (k : Z) : Prop :=
  let '(p, path) := file_path (bsize s / 4) k in walk_ok s (block_ptr p inode) path.

(** The first digit, as the code computes it. *)
Lemma digits_head e n : 0 < e -> forall k, 0 <= k < e ^ Z.of_nat (S n) ->
  digits e (S n) k = k / e ^ Z.of_nat n :: digits e n (k mod e ^ Z.of_nat n).
Proof.
  intros He. induction n as [|n IH]; intros k Hk.
  - cbn [digits app]. change (Z.of_nat 1) with 1 in Hk. change (Z.of_nat 0) with 0. rewrite Z.pow_1_r in Hk. by rewrite Z.pow_0_r, Z.div_1_r, Z.mod_small by lia.
  - rewrite (Nat2Z.inj_succ (S n)), Z.pow_succ_r in Hk by lia. rewrite (Nat2Z.inj_succ n), Z.pow_succ_r by lia.
    assert (0 < e ^ Z.of_nat n) by (apply Z.pow_pos_nonneg; lia).
    change (digits e (S (S n)) k) with (digits e (S n) (k / e) ++ [k mod e]). rewrite IH by (split; [apply Z.div_pos; lia|apply Z.div_lt_upper_bound; lia]).
    cbn [digits app]. rewrite Z.div_div, Z.rem_mul_r by lia.
    rewrite (Z.mul_comm e ((k / e) mod _)), Z.div_add, (Z.div_small (k mod e)), Z.mod_add, Z.mod_mod by (try apply Z.mod_pos_bound; lia). done.
Qed.
Lemma walk_cur s l b path : walk (with_cur l s) b path = walk s b path.
Proof. revert b. induction path as [|i path IH]; intros b; [done|]. apply IH. Qed.
Lemma walk_ok_cur s l b path : walk_ok (with_cur l s) b path <-> walk_ok s b path.
Proof. revert b. induction path as [|i path IH]; intros b; [done|]. cbn [walk_ok]. by rewrite IH. Qed.

(** The tables of a file. *)
Lemma get_indirected_step depth b k : get_data_block_indirected (D := D) (S depth) b k =
  (bs ← block_size; entries ← lift (Crc32.ipow (bs / 4) (Z.of_nat depth)); read_current b ;;
   match depth with
   | O => cur32 k
   | S _ => '(i, offset) ← divmod k entries; b ← cur32 i; get_data_block_indirected depth b offset
   end).
Proof. done. Qed.
Lemma indirected_run depth : (depth < 3)%nat -> forall b k (s : ext2 D), fs_ok s -> let e := bsize s / 4 in
  0 <= k < e ^ Z.of_nat (S depth) -> walk_ok s b (digits e (S depth) k) ->
  exists cur, size cur = bsize s /\ get_data_block_indirected (S depth) b k s = Done (walk s b (digits e (S depth) k), with_cur cur s).
Proof.
  induction depth as [|depth IH]; intros Hd b k s O e Hk.
  all: assert (He : 256 <= e <= 2 ^ 13) by (destruct (ok_size _ O); unfold e; Z.div_mod_to_equations; lia).
  all: rewrite digits_head by lia; cbn [walk walk_ok]; intros [Hb W]; pose proof (size_blk s b O) as Lb.
  all: rewrite get_indirected_step; unfold block_size; rewrite run_bind_gets, Crc32.ipow_spec by lia; cbn [lift]; rewrite run_bind_ret.
  all: rewrite (run_bind_done _ _ _ _ _ (read_current_run s b O Hb)); pose proof (Z.mul_div_le (bsize s) 4 ltac:(lia)) as Hm; fold e in Hm.
  - change (Z.of_nat 1) with 1 in Hk. rewrite Z.pow_1_r in Hk. change (Z.of_nat 0) with 0. rewrite Z.pow_0_r, Z.div_1_r. cbn [digits walk].
    exists (blk s b). split; [done|]. apply cur32_run; [lia|]. cbn [with_cur m_current_block]. lia.
  - set (p := e ^ Z.of_nat (S depth)) in *. assert (Hp : 0 < p < 2 ^ 32).
    { unfold p. split; [apply Z.pow_pos_nonneg; lia|]. destruct depth as [|[|]]; [cbn; lia|change (Z.of_nat 2) with 2; nia|lia]. }
    fold (bsize s). fold e. fold p. rewrite (uwrap_small 32 p) by lia.
    rewrite (run_bind_done _ _ _ _ _ (divmod_run _ k p ltac:(lia))). cbv beta iota.
    rewrite (Nat2Z.inj_succ (S depth)), Z.pow_succ_r in Hk by lia. fold p in Hk.
    assert (Q : 0 <= k / p < e) by (split; [apply Z.div_pos; lia|apply Z.div_lt_upper_bound; lia]).
    erewrite run_bind_done by (apply cur32_run; [lia|cbn [with_cur m_current_block]; lia]). cbn [with_cur m_current_block].
    assert (O1 : fs_ok (with_cur (blk s b) s)) by (by apply fs_ok_with_cur).
    destruct (IH ltac:(lia) (get32 (4 * (k / p)) (blk s b)) (k mod p) (with_cur (blk s b) s) O1) as (cur & Lc & E).
    + change (bsize (with_cur (blk s b) s)) with (bsize s). fold e. fold p. apply Z.mod_pos_bound. lia.
    + change (bsize (with_cur (blk s b) s)) with (bsize s). fold e. by rewrite walk_ok_cur.
    + exists cur. split; [done|]. rewrite E. by rewrite walk_cur.
Qed.
Lemma get_data_block_run inode k (s : ext2 D) : fs_ok s -> let e := bsize s / 4 in 0 <= k < 12 + e + e ^ 2 + e ^ 3 -> file_tables_ok s inode k ->
  exists cur, size cur = bsize s /\ get_data_block inode k s = Done (file_block s inode k, with_cur cur s).
Proof.
  intros O e Hk. assert (He : 256 <= e <= 2 ^ 13) by (destruct (ok_size _ O); unfold e; Z.div_mod_to_equations; lia).
  unfold get_data_block, file_tables_ok, file_block, file_path, block_size. rewrite run_bind_gets. cbv zeta. fold (bsize s). fold e.
  rewrite (uwrap_small 32) by nia. replace (e * e) with (e ^ 2) by lia.
  destruct (Z.ltb_spec k 12); [intros _; exists (m_current_block s); split; [by apply cur_size|by destruct s]|].
  destruct (Z.ltb_spec (k - 12) e), (Z.ltb_spec k (12 + e)); try lia.
  { apply (indirected_run 0 ltac:(lia) (block_ptr 12 inode) (k - 12) s O). fold e. change (Z.of_nat 1) with 1. lia. }
  replace (k - 12 - e) with (k - (12 + e)) by lia. destruct (Z.ltb_spec (k - (12 + e)) (e ^ 2)), (Z.ltb_spec k (12 + e + e ^ 2)); try lia.
  { apply (indirected_run 1 ltac:(lia) (block_ptr 13 inode) (k - (12 + e)) s O). fold e. change (Z.of_nat 2) with 2. lia. }
  replace (k - (12 + e) - e ^ 2) with (k - (12 + e + e ^ 2)) by lia.
  apply (indirected_run 2 ltac:(lia) (block_ptr 14 inode) (k - (12 + e + e ^ 2)) s O). fold e. change (Z.of_nat 3) with 3. lia.
Qed.

Lemma write_direct_run inode k (s : ext2 D) : fs_ok s -> 0 <= k < 12 -> 0 <= block_ptr k inode < block_count (m_superblock s) ->
  exists s', write_data_block Current inode k s = Done (tt, s') /\ wrote (block_ptr k inode) (m_current_block s) s s'.
Proof.
  intros O Hk Hb. destruct (write_block_current_run (block_ptr k inode) s O Hb) as (s' & E & W & _). exists s'. split; [|done].
  unfold write_data_block. cbn [span_size]. rewrite run_bind_bind, run_bind_gets, run_bind_ret. unfold block_size. rewrite run_bind_gets.
  rewrite (cur_size s O). fold (bsize s). rewrite (proj2 (Z.leb_le _ _)), run_assert_true by lia. cbv zeta. rewrite (proj2 (Z.ltb_lt k 12)) by lia. exact E.
Qed.
Lemma write_table_run inode k (s : ext2 D) : fs_ok s -> 0 <= k < bsize s / 4 ->
  0 <= block_ptr 12 inode < block_count (m_superblock s) ->
  0 <= get32 (4 * k) (blk s (block_ptr 12 inode)) < block_count (m_superblock s) ->
  exists s', write_data_block Current inode (12 + k) s = Done (tt, s') /\
    wrote (get32 (4 * k) (blk s (block_ptr 12 inode))) (blk s (block_ptr 12 inode)) s s'.
Proof.
  intros O Hk Ht Hb. set (t := block_ptr 12 inode) in *. set (n := get32 (4 * k) (blk s t)) in *. set (s1 := with_cur (blk s t) s).
  assert (O1 : fs_ok s1) by (apply fs_ok_with_cur; [done|by apply size_blk]).
  destruct (write_block_current_run n s1 O1 Hb) as (s' & E & [W1 W2 W3 W4 W5 W6] & _). exists s'. split; [|by split].
  unfold write_data_block. cbn [span_size]. rewrite run_bind_bind, run_bind_gets, run_bind_ret. unfold block_size. rewrite run_bind_gets.
  rewrite (cur_size s O). fold (bsize s). rewrite (proj2 (Z.leb_le _ _)), run_assert_true by lia. cbv zeta. rewrite (proj2 (Z.ltb_ge (12 + k) 12)) by lia.
  replace (12 + k - 12) with k by lia. rewrite (proj2 (Z.ltb_lt k (bsize s / 4))) by lia.
  cbn [write_indirected span_size]. rewrite run_bind_bind, run_bind_gets, run_bind_ret. unfold block_size. rewrite run_bind_gets.
  rewrite (cur_size s O). fold (bsize s). rewrite (proj2 (Z.leb_le _ _)), run_assert_true by lia.
  rewrite Crc32.ipow_spec by (cbn; lia). cbn [lift]. rewrite run_bind_ret. rewrite (run_bind_done _ _ _ _ _ (read_current_run s t O Ht)).
  pose proof (Z.mul_div_le (bsize s) 4 ltac:(lia)).
  erewrite run_bind_done; [|apply cur32_run; [lia|cbn [with_cur m_current_block]; rewrite size_blk by done; lia]]. exact E.
Qed.

(** ** Directories of one block and of more *)

Lemma read_data_loop_large inode i n data f (s : ext2 D) :
  0 <= i < 12 -> size data = n -> n <> bsize s -> read_data_loop (S f) inode i (Local data) s = Fault AssertFailed.
Proof.
  intros Hi Hn N. cbn [read_data_loop span_size]. rewrite run_bind_ret. apply run_bind_fault.
  unfold read_data_block, block_size. rewrite run_bind_gets. cbv zeta. rewrite (proj2 (Z.ltb_lt i 12)) by lia.
  set (sp := if i =? 0 then Local data else Outside (size data)).
  assert (Es : (span_size sp : E Z) s = Done (n, s)) by (unfold sp; destruct (i =? 0); cbn; by rewrite Hn).
  unfold read_block. rewrite run_bind_gets, (run_bind_done _ _ _ _ _ Es).
  destruct (block_ptr i inode <? block_count (m_superblock s)); [|done]. rewrite run_assert_true. fold (bsize s).
  rewrite (proj2 (Z.eqb_neq _ _)) by done. done.
Qed.

Lemma data_blocks_one (s : ext2 D) inode : 0 < bsize s -> 0 < size_lower inode <= bsize s -> data_blocks (m_superblock s) inode = 1.
Proof.
  intros P H. unfold data_blocks. fold (bsize s). destruct (decide (size_lower inode = bsize s)) as [-> |].
  - rewrite Z.div_same, Z.mod_same by lia. done.
  - rewrite Z.div_small, Z.mod_small by lia. unfold Ztrue. rewrite (proj2 (Z.eqb_neq _ _)) by lia. done.
Qed.
Lemma data_blocks_more (s : ext2 D) inode : 0 < bsize s < size_lower inode -> 2 <= data_blocks (m_superblock s) inode.
Proof.
  intros P. unfold data_blocks. fold (bsize s). pose proof (Z.div_mod (size_lower inode) (bsize s) ltac:(lia)).
  pose proof (Z.mod_pos_bound (size_lower inode) (bsize s) ltac:(lia)). unfold Ztrue.
  assert (1 <= size_lower inode / bsize s) by (apply Z.div_le_lower_bound; lia).
  destruct (Z.eqb_spec (size_lower inode mod bsize s) 0) as [Z0|]; cbn [negb]; nia.
Qed.

(** The run up to the loop of [read_data]. *)
Lemma read_whole_run (s : ext2 D) inode n : 0 < bsize s -> 0 <= n -> data_blocks (m_superblock s) inode = n ->
  read_data inode 0 (Local (replicate (Z.to_nat (n * bsize s)) 0)) s =
    read_data_loop (Z.to_nat n) inode 0 (Local (replicate (Z.to_nat (n * bsize s)) 0)) s.
Proof.
  intros P Hn E. unfold read_data. rewrite run_bind_gets. cbn [span_size]. rewrite run_bind_ret. unfold size. rewrite length_replicate.
  fold (bsize s). rewrite Z2Nat.id by nia. rewrite (run_bind_done _ _ _ _ _ (divmod_run s (n * bsize s) (bsize s) ltac:(lia))). cbv beta iota.
  rewrite Z.mod_mul, Z.div_mul by lia. cbn [Z.eqb]. rewrite run_assert_true, E. rewrite (proj2 (Z.leb_le _ _)), run_assert_true by lia. done.
Qed.

Lemma read_one_run (s : ext2 D) inode l : fs_ok s -> 0 <= block_ptr 0 inode < block_count (m_superblock s) -> size l = bsize s ->
  read_data_loop 1 inode 0 (Local l) s = Done (inr (Local (blk s (block_ptr 0 inode))), s).
Proof.
  intros O Hb L. cbn [read_data_loop span_size]. rewrite run_bind_ret. unfold read_data_block, block_size.
  rewrite run_bind_bind, run_bind_gets. cbv zeta. change (0 <? 12) with true. cbv iota.
  by rewrite (run_bind_done _ _ _ _ _ (read_block_local_run s (block_ptr 0 inode) O Hb l L)).
Qed.
Lemma read_directory_one (s : ext2 D) i : fs_ok s -> inode_ok s i -> 0 < size_lower (inode_at s i) <= bsize s ->
  0 <= block_ptr 0 (inode_at s i) < block_count (m_superblock s) ->
  read_directory_entries i s = read_directory (blk s (block_ptr 0 (inode_at s i))) (with_cur (blk s (ino_block s i)) s).
Proof.
  intros O I Hs Hb. unfold read_directory_entries. rewrite (run_bind_done _ _ _ _ _ (read_inode_run s i O I)), run_bind_gets.
  set (s1 := with_cur _ s). assert (O1 : fs_ok s1) by (apply fs_ok_with_cur; [done|by apply size_blk]). destruct (ok_size _ O).
  pose proof (data_blocks_one s (inode_at s i) ltac:(lia) Hs) as N. fold (bsize s1). change (m_superblock s1) with (m_superblock s). rewrite N.
  rewrite (run_bind_done _ _ _ (inr (Local (blk s1 (block_ptr 0 (inode_at s i))))) s1); [done|].
  rewrite (read_whole_run s1) by (done || (change (bsize s1) with (bsize s); lia)). apply read_one_run; [done|done|].
  unfold size. rewrite length_replicate. change (bsize s1) with (bsize s). lia.
Qed.
Lemma read_directory_more (s : ext2 D) i : fs_ok s -> inode_ok s i -> bsize s < size_lower (inode_at s i) ->
  read_directory_entries i s = Fault AssertFailed.
Proof.
  intros O I Hs. unfold read_directory_entries. rewrite (run_bind_done _ _ _ _ _ (read_inode_run s i O I)), run_bind_gets.
  set (s1 := with_cur _ s). destruct (ok_size _ O). assert (N : 2 <= data_blocks (m_superblock s) (inode_at s i)) by (apply (data_blocks_more s); lia).
  change (m_superblock s) with (m_superblock s1) in N. set (n := data_blocks _ _) in *. apply run_bind_fault. fold (bsize s1).
  rewrite (read_whole_run s1 (inode_at s i) n ltac:(change (bsize s1) with (bsize s); lia) ltac:(lia) eq_refl).
  destruct (Z.to_nat n) as [|f] eqn:En; [lia|]. eapply read_data_loop_large; [lia|done|].
  unfold size. rewrite length_replicate. change (bsize s1) with (bsize s). nia.
Qed.
End specs.

(** ** A file system *)

Definition zeros (n : nat) : list Z := replicate n 0.
(** 16 blocks, 8192 blocks and 16 inodes in a group, revision 0. *)
Definition sample_superblock : list Z := Eval vm_compute in
  set16 60 1 (set16 58 1 (set16 56 signature (set16 54 20 (set32 40 16 (set32 32 8192 (set32 16 5 (set32 12 8 (set32 4 16 (set32 0 16 (zeros 1024)))))))))).
Definition sample_group : list Z := Eval vm_compute in
  set16 14 5 (set16 12 8 (set32 8 5 (set32 4 4 (set32 0 3 (zeros 32))))).
(** The root directory, inode 2, has block 7, inode 12 is a directory of two blocks, and block 10 is a
    table. *)
Definition sample_root : list Z := Eval vm_compute in set32 40 7 (set32 4 1024 (set16 0 0x41ED (zeros 128))).
Definition sample_large : list Z := Eval vm_compute in set32 44 9 (set32 40 8 (set32 4 2048 (set16 0 0x41ED (zeros 128)))).
Definition sample_image : Z -> Z :=
  overwrite (overwrite (overwrite (overwrite (overwrite (overwrite (overwrite (fun _ => 0) 1024 sample_superblock) 2048 sample_group)
    3072 [0xFF; 0x03]) 4096 [0xFF; 0x0F]) (5120 + 128) sample_root) (6144 + 384) sample_large) (10240 + 12) [11].
Definition sample_disk : Disk.MemoryDisk := Disk.mkMemDisk sample_image 17408 false.
Definition sample : ext2 Disk.MemoryDisk := mkExt2 sample_superblock (zeros 1024) 1 sample_disk None.

Lemma sample_ok : fs_ok sample.
Proof.
  assert (B : bsize sample = 1024) by reflexivity.
  split; [split; reflexivity| |rewrite B; lia|by exists 1|rewrite B; by exists 2|rewrite B; vm_compute; discriminate].
  split; [done|]. split; [|by exists 34]. vm_compute. split; [discriminate|done].
Qed.
Lemma sample_inode i : (i = 2 \/ i = 12) -> inode_ok sample i.
Proof. intros [-> | ->]; split; vm_compute; try done; split; (discriminate || done). Qed.
Lemma sample_apart i j : (i = 2 \/ i = 12) -> (j = 2 \/ j = 12) -> apart sample i j.
Proof. intros [-> | ->] [-> | ->]; split; vm_compute; done. Qed.

(** ** The theorems *)

(** C19: The block of a file is the one that the ext2 format says: the first twelve are those of the
    pointers of the inode, the next ones are behind one, two and three levels of tables, and the
    places in the tables are the digits of the number of the block in base [e], the entries of a
    table.  [get_data_block] finds it and [read_data_block] reads it, for all blocks that the
    format can number, as long as the tables on the way and the block are blocks of the file
    system; of the state only the shared buffer changes. *)
Theorem data_block_spec {D : Type} `{BD : ByteDisk D} inode k l (s : ext2 D) :
  fs_ok s -> let e := bsize s / 4 in 0 <= k < 12 + e + e ^ 2 + e ^ 3 -> file_tables_ok s inode k ->
  (exists cur, size cur = bsize s /\ get_data_block inode k s = Done (file_block s inode k, with_cur cur s)) /\
  (0 <= file_block s inode k < block_count (m_superblock s) -> size l = bsize s ->
    exists cur, size cur = bsize s /\ read_data_block inode k (Local l) s = Done (inr (Local (blk s (file_block s inode k))), with_cur cur s)).
Proof.
  intros O e Hk W. destruct (get_data_block_run inode k s O Hk W) as (cur & Lc & E). split; [by exists cur|]. intros Hb L. exists cur. split; [done|].
  rewrite read_data_block_lookup, (run_bind_done _ _ _ _ _ E). assert (O1 : fs_ok (with_cur cur s)) by (by apply fs_ok_with_cur).
  exact (read_block_local_run (with_cur cur s) _ O1 Hb l L).
Qed.
(** Block 15 of a file is the third entry, block 11, of the table in block 10. *)
Definition sample_deep : list Z := Eval vm_compute in set32 88 10 (zeros 128).
Lemma data_block_spec_witness : exists cur, size cur = 1024 /\
  read_data_block sample_deep 15 (Local (zeros 1024)) sample = Done (inr (Local (blk sample 11)), with_cur cur sample).
Proof.
  apply (proj2 (data_block_spec sample_deep 15 (zeros 1024) sample sample_ok ltac:(vm_compute; split; (discriminate || done)) ltac:(vm_compute; split; [split; (discriminate || done)|done])));
    [vm_compute; split; (discriminate || done)|reflexivity].
Defined.

(** C18: On a file system whose inodes have 128 bytes ([inode_ok]), an inode that was written is read
    back, and every other inode is what it was. *)
Theorem inode_roundtrip {D : Type} `{BD : ByteDisk D} (s : ext2 D) i l :
  fs_ok s -> inode_ok s i -> size l = 128 -> apart s i i ->
  exists s', write_inode i l s = Done (tt, s') /\ (exists s'', read_inode i s' = Done (l, s'')) /\
    forall j, inode_ok s j -> j <> i -> apart s i j -> exists s'', read_inode j s' = Done (inode_at s j, s'').
Proof.
  intros O I L A. destruct (write_inode_run s i l O I L) as (s' & E & W). destruct (ino_offset_range s i O) as [Q1 Q2].
  pose proof (size_blk s (ino_block s i) O) as Lb. pose proof (w_ok _ _ _ _ W) as O'. exists s'. split; [done|]. split.
  - destruct (wrote_inode_ok s s' i i _ O I W A) as (I' & Eb & Eo). eexists. rewrite (read_inode_run s' i O' I').
    unfold inode_at. rewrite Eb, Eo, (w_same _ _ _ _ W). rewrite <- L at 1. rewrite slice_splice_eq by lia. done.
  - intros j J N Aj. destruct (wrote_inode_ok s s' i j _ O J W Aj) as (J' & Eb & Eo). eexists. rewrite (read_inode_run s' j O' J').
    assert (R : inode_at s' j = inode_at s j); [|by rewrite R]. unfold inode_at. rewrite Eb, Eo.
    destruct (decide (ino_block s j = ino_block s i)) as [Ej|Nj].
    + rewrite Ej, (w_same _ _ _ _ W). destruct (ino_offset_range s j O).
      pose proof (inode_places_differ s i j O I J ltac:(done) (a_table _ _ _ Aj (eq_sym Ej)) (eq_sym Ej)).
      apply slice_splice_ne; lia.
    + rewrite (w_other _ _ _ _ W); [done|apply J|done].
Qed.
Lemma inode_roundtrip_witness : exists s', write_inode 2 sample_large sample = Done (tt, s') /\
  (exists s'', read_inode 2 s' = Done (sample_large, s'')) /\
  forall j, inode_ok sample j -> j <> 2 -> apart sample 2 j -> exists s'', read_inode j s' = Done (inode_at sample j, s'').
Proof.
  apply (inode_roundtrip sample 2 sample_large); [apply sample_ok|apply sample_inode; by left|reflexivity|apply sample_apart; by left].
Defined.


(** The buffer of the file system as the data of a write: a direct block gets the bytes of the
    buffer, and a block behind a table gets the bytes of the table, which was read into the
    buffer on the way. *)
Theorem write_data_block_spec {D : Type} `{BD : ByteDisk D} (s : ext2 D) inode k :
  fs_ok s ->
  (0 <= k < 12 -> 0 <= block_ptr k inode < block_count (m_superblock s) ->
     exists s', write_data_block Current inode k s = Done (tt, s') /\ wrote (block_ptr k inode) (m_current_block s) s s') /\
  (let table := block_ptr 12 inode in
   0 <= k < bsize s / 4 -> 0 <= table < block_count (m_superblock s) ->
   0 <= get32 (4 * k) (blk s table) < block_count (m_superblock s) ->
     exists s', write_data_block Current inode (12 + k) s = Done (tt, s') /\ wrote (get32 (4 * k) (blk s table)) (blk s table) s s').
Proof. intros O. split; [by apply write_direct_run|by apply write_table_run]. Qed.
Lemma write_data_block_spec_witness :
  exists s', write_data_block Current sample_root 0 sample = Done (tt, s') /\ wrote 7 (zeros 1024) sample s'.
Proof.
  apply (proj1 (write_data_block_spec sample sample_root 0 sample_ok)); [lia|]. vm_compute. split; [discriminate|reflexivity].
Defined.

(** A directory that fits in a block is read from that block; one that is larger stops the
    kernel: each block is read into a span of the size of the whole buffer, which the
    assertion of [read_block] refuses. *)
Theorem read_directory_entries_spec {D : Type} `{BD : ByteDisk D} (s : ext2 D) i :
  fs_ok s -> inode_ok s i ->
  (0 < size_lower (inode_at s i) <= bsize s -> 0 <= block_ptr 0 (inode_at s i) < block_count (m_superblock s) ->
     read_directory_entries i s = read_directory (blk s (block_ptr 0 (inode_at s i))) (with_cur (blk s (ino_block s i)) s)) /\
  (bsize s < size_lower (inode_at s i) -> read_directory_entries i s = Fault AssertFailed).
Proof. intros O I. split; [by apply read_directory_one|by apply read_directory_more]. Qed.
Lemma read_directory_entries_spec_witness : read_directory_entries 12 sample = Fault AssertFailed.
Proof. apply (read_directory_entries_spec sample 12 sample_ok); [apply sample_inode; by right|]. vm_compute. reflexivity. Defined.

(** Whatever operations are called on a mounted file system, and whatever the disk holds: the
    superblock keeps its size, the shared buffer has the size of a block at every return, and
    no field of the geometry changes. *)
Theorem ext2_typed {D : Type} `{BD : ByteDisk D} epoch is_power_of d zero (s s' : ext2 D) ops :
  mount_ext2 epoch is_power_of d zero = Done s -> for_each ops (run_op epoch is_power_of) s = Done (tt, s') ->
  typed s' /\ sb_like (m_superblock s) (m_superblock s').
Proof. intros Em Er. apply (keeps_run_ops epoch is_power_of s ops (mount_typed _ _ _ _ _ Em) tt s' Er). Qed.
Definition no_power (i b : Z) : bool := false.
Definition mounted : ext2 Disk.MemoryDisk := match mount_ext2 1000 no_power sample_disk None with Done s => s | Fault _ => sample end.
Definition written : ext2 Disk.MemoryDisk :=
  match for_each [WriteInode 12 sample_root] (run_op 1000 no_power) mounted with Done (_, s) => s | Fault _ => sample end.
Definition is_done {A} (o : outcome A) : bool := match o with Done _ => true | Fault _ => false end.
Lemma mounted_run : mount_ext2 1000 no_power sample_disk None = Done mounted.
Proof.
  assert (H : is_done (mount_ext2 1000 no_power sample_disk None) = true) by (vm_compute; reflexivity).
  unfold mounted. by destruct (mount_ext2 1000 no_power sample_disk None).
Qed.
Lemma written_run : for_each [WriteInode 12 sample_root] (run_op 1000 no_power) mounted = Done (tt, written).
Proof.
  assert (H : is_done (for_each [WriteInode 12 sample_root] (run_op 1000 no_power) mounted) = true) by (vm_compute; reflexivity).
  unfold written. by destruct (for_each [WriteInode 12 sample_root] (run_op 1000 no_power) mounted) as [[[] ?]|].
Qed.
Lemma ext2_typed_witness : typed written /\ sb_like (m_superblock mounted) (m_superblock written).
Proof. apply (ext2_typed 1000 no_power sample_disk None mounted written [WriteInode 12 sample_root] mounted_run written_run). Defined.
End Ext2Spec.
