(* ===== verification/Hoare.v ===== *)
(** * Hoare: weakest preconditions of the state-and-fault monad

    [wp m Q s]: the operation [m] started in [s] returns, and [Q] holds of its result and of the
    state it leaves.  [wpf F m Q s] also allows it to stop with one of the faults [F]. *)
From stdpp Require Import base list.
From Stdlib Require Import ZArith Lia.
From S2P Require Import Prelude.

Definition wp {S A} (m : M S A) (Q : A -> S -> Prop) (s : S) : Prop :=
  match m s with Done (a, s') => Q a s' | Fault _ => False end.

Section wp.
Context {S : Type}.
Implicit Types (s : S).

Lemma run_bind_get {B} (k : S -> M S B) s : (get ≫= k) s = k s s.
Proof. reflexivity. Qed.
Lemma wp_elim {A} (m : M S A) Q s : wp m Q s -> exists a s', m s = Done (a, s') /\ Q a s'.
Proof. unfold wp. destruct (m s) as [[a s']|]; [|done]. eauto. Qed.
Lemma wp_intro {A} (m : M S A) (Q : A -> S -> Prop) s a s' : m s = Done (a, s') -> Q a s' -> wp m Q s.
Proof. unfold wp. by intros ->. Qed.
Lemma wp_mono {A} (m : M S A) (P Q : A -> S -> Prop) s : wp m P s -> (forall a s', P a s' -> Q a s') -> wp m Q s.
Proof. unfold wp. destruct (m s) as [[a s']|]; [|done]. auto. Qed.

Lemma wp_ret {A} (a : A) (Q : A -> S -> Prop) s : Q a s -> wp (mret a) Q s.
Proof. done. Qed.
Lemma wp_bind {A B} (m : M S A) (k : A -> M S B) Q s : wp m (fun a => wp (k a) Q) s -> wp (m ≫= k) Q s.
Proof. unfold wp, mbind, M_bind. by destruct (m s) as [[a s']|]. Qed.
Lemma wp_get (Q : S -> S -> Prop) s : Q s s -> wp get Q s.
Proof. done. Qed.
Lemma wp_modify f (Q : unit -> S -> Prop) s : Q tt (f s) -> wp (modify f) Q s.
Proof. done. Qed.
Lemma wp_when (b : bool) (m : M S unit) (Q : unit -> S -> Prop) s :
  (b = true -> wp m Q s) -> (b = false -> Q tt s) -> wp (when b m) Q s.
Proof. destruct b; [|intros _ H; by apply H]. intros H _. by apply H. Qed.
Lemma wp_assert (b : bool) (Q : unit -> S -> Prop) s : b = true -> Q tt s -> wp (assert_ b) Q s.
Proof. by intros ->. Qed.

(** A loop, by an invariant of the number of turns done. *)
Lemma wp_for_each_index {A} (body : A -> M S unit) (I : nat -> S -> Prop) l s :
  (forall k x s, l !! k = Some x -> I k s -> wp (body x) (fun _ s' => I (k + 1)%nat s') s) -> I 0%nat s ->
  wp (for_each l body) (fun _ s' => I (length l) s') s.
Proof.
  revert I s. induction l as [|x l IH]; intros I s Hb H0; [done|]. cbn [for_each]. apply wp_bind.
  eapply wp_mono; [apply (Hb 0%nat x s eq_refl H0)|]. intros u s1 H1. destruct u. cbn in H1 |- *.
  apply (IH (fun k => I (1 + k)%nat)); [|done]. intros k y s2 Hk Hi. exact (Hb (1 + k)%nat y s2 Hk Hi).
Qed.
(** A loop, by an invariant of every turn. *)
Lemma wp_for_each {A} (body : A -> M S unit) (I : S -> Prop) l s :
  (forall x s, x ∈ l -> I s -> wp (body x) (fun _ s' => I s') s) -> I s -> wp (for_each l body) (fun _ s' => I s') s.
Proof.
  intros Hb H0. apply (wp_for_each_index body (fun _ => I)); [|done]. intros k x s' Hk. apply Hb. by apply list_elem_of_lookup_2 in Hk.
Qed.
End wp.

(** One step of a program: the binds, the reads and the writes of the state. *)
Ltac wp_step :=
  lazymatch goal with
  | |- wp (mbind _ _) _ _ => apply wp_bind
  | |- wp get _ _ => apply wp_get
  | |- wp (modify _) _ _ => apply wp_modify
  | |- wp (mret _) _ _ => apply wp_ret
  end; cbv beta.
Ltac wp_steps := repeat wp_step.

Definition wpf {S A} (F : fault -> Prop) (m : M S A) (Q : A -> S -> Prop) (s : S) : Prop :=
  match m s with Done (a, s') => Q a s' | Fault f => F f end.

Section wpf.
Context {S : Type} (F : fault -> Prop).
Implicit Types (s : S).

Lemma wpf_intro {A} (m : M S A) (Q : A -> S -> Prop) s a s' : m s = Done (a, s') -> Q a s' -> wpf F m Q s.
Proof. unfold wpf. by intros ->. Qed.
Lemma wpf_fault {A} (m : M S A) (Q : A -> S -> Prop) s f : m s = Fault f -> F f -> wpf F m Q s.
Proof. unfold wpf. by intros ->. Qed.
Lemma wpf_done {A} (m : M S A) Q s a s' : wpf F m Q s -> m s = Done (a, s') -> Q a s'.
Proof. unfold wpf. by intros H E; rewrite E in H. Qed.
Lemma wpf_mono {A} (m : M S A) (P Q : A -> S -> Prop) s : wpf F m P s -> (forall a s', P a s' -> Q a s') -> wpf F m Q s.
Proof. unfold wpf. destruct (m s) as [[a s']|]; auto. Qed.
Lemma wpf_ret {A} (a : A) (Q : A -> S -> Prop) s : Q a s -> wpf F (mret a) Q s.
Proof. done. Qed.
Lemma wpf_bind {A B} (m : M S A) (k : A -> M S B) Q s : wpf F m (fun a => wpf F (k a) Q) s -> wpf F (m ≫= k) Q s.
Proof. unfold wpf, mbind, M_bind. by destruct (m s) as [[a s']|]. Qed.
Lemma wpf_get (Q : S -> S -> Prop) s : Q s s -> wpf F get Q s.
Proof. done. Qed.
Lemma wpf_modify f (Q : unit -> S -> Prop) s : Q tt (f s) -> wpf F (modify f) Q s.
Proof. done. Qed.
Lemma wpf_when (b : bool) (m : M S unit) (Q : unit -> S -> Prop) s :
  (b = true -> wpf F m Q s) -> (b = false -> Q tt s) -> wpf F (when b m) Q s.
Proof. destruct b; [|intros _ H; by apply H]. intros H _. by apply H. Qed.
Lemma wpf_assert (b : bool) (Q : unit -> S -> Prop) s : (b = false -> F AssertFailed) -> (b = true -> Q tt s) -> wpf F (assert_ b) Q s.
Proof. destruct b; intros H1 H2; [by apply H2|by apply H1]. Qed.

(** A loop, by an invariant of the turns done. *)
Lemma wpf_for_each_index {A} (body : A -> M S unit) (I : nat -> S -> Prop) l s :
  (forall k x s, l !! k = Some x -> I k s -> wpf F (body x) (fun _ s' => I (k + 1)%nat s') s) -> I 0%nat s ->
  wpf F (for_each l body) (fun _ s' => I (length l) s') s.
Proof.
  revert I s. induction l as [|x l IH]; intros I s Hb H0; [done|]. cbn [for_each]. apply wpf_bind.
  eapply wpf_mono; [apply (Hb 0%nat x s eq_refl H0)|]. intros u s1 H1. destruct u. cbn in H1 |- *.
  apply (IH (fun k => I (1 + k)%nat)); [|done]. intros k y s2 Hk Hi. exact (Hb (1 + k)%nat y s2 Hk Hi).
Qed.
End wpf.

Ltac wpf_step :=
  lazymatch goal with
  | |- wpf _ (mbind _ _) _ _ => apply wpf_bind
  | |- wpf _ get _ _ => apply wpf_get
  | |- wpf _ (modify _) _ _ => apply wpf_modify
  | |- wpf _ (mret _) _ _ => apply wpf_ret
  end; cbv beta.
Ltac wpf_steps := repeat wpf_step.
