(* ===== verification/Utf8.v ===== *)
(** * Utf8: [unicode/utf8decoder.cpp] and [unicode/utf32decoder.cpp]

    The decoder takes one byte at a time and says when a character is complete.  Its
    reference is the encoding of the standard, written with quotients and remainders. *)
From stdpp Require Import base list.
From Stdlib Require Import ZArith Lia.
From S2P Require Import Prelude.

Module Utf8.

(** ** The decoder *)

Record UTF8Decoder := mkDecoder { m_completed : bool; m_current_length : Z; m_length : Z; m_current : Z }.
Definition invalid : Z := 0xfffd.
Definition new_decoder : UTF8Decoder := mkDecoder false 0 0 0.

Definition get_length (first_byte : Z) : Z :=
  let c := Z.shiftr first_byte 3 in
  if c =? 0x1e then 4
  else
    let c := Z.shiftr c 1 in
    if c =? 0xe then 3
    else
      let c := Z.shiftr c 1 in
      if c =? 0x6 then 2 else 1.

(** The end of [feed]: one more byte was taken. *)
Definition count_byte (length current_length current : Z) : UTF8Decoder :=
  mkDecoder (current_length + 1 =? length) (current_length + 1) length current.
Definition feed (byte : Z) (d : UTF8Decoder) : UTF8Decoder :=
  if m_completed d then d
  else if m_current_length d =? 0 then
    let length := get_length byte in
    if length =? 1 then mkDecoder true (m_current_length d) length byte
    else
      let mask := if length =? 4 then 0xf0 else if length =? 3 then 0xe0 else if length =? 2 then 0xc0 else 0 in
      count_byte length (m_current_length d) (Z.lxor byte mask)
  else count_byte (m_length d) (m_current_length d) (Z.lor (u32 (Z.shiftl (m_current d) 6)) (Z.lxor byte 0x80)).

Definition ready (d : UTF8Decoder) : bool := m_completed d.
Definition reset (d : UTF8Decoder) : UTF8Decoder := mkDecoder false 0 0 invalid.
Definition spit (d : UTF8Decoder) : Z * UTF8Decoder :=
  if negb (m_completed d) then (invalid, d) else (m_current d, reset d).

(** The loop of [u8_decode], and of [Terminal::write]. *)
Fixpoint decode_loop (d : UTF8Decoder) (str : list Z) : list Z :=
  match str with
  | [] => []
  | c :: str =>
      let d := feed (u8 c) d in
      if ready d then let '(v, d) := spit d in v :: decode_loop d str else decode_loop d str
  end.
Definition u8_decode (str : list Z) : list Z := decode_loop new_decoder str.

(** ** The encoder *)

(** The continuation bytes, from the index [i] down to 2. *)
Fixpoint tail_bytes (ch : Z) (i : nat) : list Z :=
  match i with
  | S (S j as i') => u8 (Z.lor 0x80 (Z.land ch (Z.shiftl 0x3f (Z.of_nat j * 6)))) :: tail_bytes ch i'
  | _ => []
  end.
Definition decode_utf32 (ch : Z) : list Z :=
  if ch <? 0x80 then [u8 ch]
  else if ch <? 0x800 then u8 (Z.lor 0xc0 (Z.shiftr ch 6)) :: tail_bytes ch 2
  else if ch <? 0x10000 then u8 (Z.lor 0xe0 (Z.shiftr ch 12)) :: tail_bytes ch 3
  else if ch <? 0x200000 then u8 (Z.lor 0xf0 (Z.shiftr ch 18)) :: tail_bytes ch 4
  else [].

(** ** The encoding of the standard *)

Definition cont (v : Z) : Z := 0x80 + v mod 64.
Definition utf8 (cp : Z) : list Z :=
  if cp <? 0x80 then [cp]
  else if cp <? 0x800 then [0xc0 + cp / 64; cont cp]
  else if cp <? 0x10000 then [0xe0 + cp / 4096; cont (cp / 64); cont cp]
  else [0xf0 + cp / 262144; cont (cp / 4096); cont (cp / 64); cont cp].

(** ** Bits *)

(** Or and exclusive or of numbers without a common bit. *)
Lemma land_high a b n : 0 <= n -> 0 <= b < 2 ^ n -> Z.land (a * 2 ^ n) b = 0.
Proof.
  intros Hn Hb. destruct (decide (b = 0)) as [-> |]; [apply Z.land_0_r|].
  apply Z.bits_inj'. intros i Hi. rewrite Z.land_spec, Z.bits_0. destruct (decide (i < n)).
  - by rewrite Z.mul_pow2_bits_low by lia.
  - rewrite (Z.bits_above_log2 b i), andb_false_r; [done|lia|].
    assert (Z.log2 b < n) by (apply Z.log2_lt_pow2; lia). lia.
Qed.
Lemma lor_add a b n : 0 <= n -> 0 <= b < 2 ^ n -> Z.lor (a * 2 ^ n) b = a * 2 ^ n + b.
Proof. intros. rewrite Z.add_nocarry_lxor, Z.lxor_lor by (by apply land_high). done. Qed.
Lemma lxor_sub a b n : 0 <= n -> 0 <= b < 2 ^ n -> Z.lxor (a * 2 ^ n + b) (a * 2 ^ n) = b.
Proof.
  intros. rewrite <- lor_add by done. rewrite <- Z.lxor_lor by (by apply land_high).
  rewrite Z.lxor_comm, <- Z.lxor_assoc, Z.lxor_nilpotent, Z.lxor_0_l. done.
Qed.

Lemma first_byte a n v : 0 <= n -> 0 <= v < 2 ^ n -> Z.shiftr (a * 2 ^ n + v) n = a.
Proof. intros. rewrite Z.shiftr_div_pow2 by lia. rewrite Z.div_add_l, Z.div_small by lia. lia. Qed.

(** ** What [feed] does with the bytes of the standard *)

Definition fresh (d : UTF8Decoder) : Prop := m_completed d = false /\ m_current_length d = 0.

Lemma get_length_1 v : 0 <= v < 0x80 -> get_length v = 1.
Proof.
  intros H. unfold get_length. rewrite !Z.shiftr_shiftr, !Z.shiftr_div_pow2 by lia.
  repeat (rewrite (proj2 (Z.eqb_neq _ _)) by (Z.div_mod_to_equations; lia)). done.
Qed.
Lemma get_length_2 v : 0 <= v < 0x20 -> get_length (0xc0 + v) = 2.
Proof.
  intros H. unfold get_length. rewrite !Z.shiftr_shiftr, !Z.shiftr_div_pow2 by lia.
  do 2 (rewrite (proj2 (Z.eqb_neq _ _)) by (Z.div_mod_to_equations; lia)).
  rewrite (proj2 (Z.eqb_eq _ _)) by (Z.div_mod_to_equations; lia). done.
Qed.
Lemma get_length_3 v : 0 <= v < 0x10 -> get_length (0xe0 + v) = 3.
Proof.
  intros H. unfold get_length. rewrite !Z.shiftr_shiftr, !Z.shiftr_div_pow2 by lia.
  rewrite (proj2 (Z.eqb_neq _ _)), (proj2 (Z.eqb_eq _ _)) by (Z.div_mod_to_equations; lia). done.
Qed.
Lemma get_length_4 v : 0 <= v < 8 -> get_length (0xf0 + v) = 4.
Proof. intros H. unfold get_length. rewrite !Z.shiftr_div_pow2 by lia. rewrite (proj2 (Z.eqb_eq _ _)) by (Z.div_mod_to_equations; lia). done. Qed.

(** The first byte of a character of [n] bytes, with the mask [a * 2 ^ k]. *)
Lemma feed_first d n a k v : fresh d -> 1 < n <= 4 -> 0 <= k -> 0 <= v < 2 ^ k ->
  a * 2 ^ k = (if n =? 4 then 0xf0 else if n =? 3 then 0xe0 else 0xc0) -> get_length (a * 2 ^ k + v) = n ->
  feed (a * 2 ^ k + v) d = mkDecoder false 1 n v.
Proof.
  intros [F1 F2] Hn Hk Hv Em El. unfold feed. rewrite F1, F2, El. cbn [Z.eqb]. rewrite (proj2 (Z.eqb_neq n 1)) by lia.
  replace (if n =? 4 then 0xf0 else if n =? 3 then 0xe0 else if n =? 2 then 0xc0 else 0) with (a * 2 ^ k)
    by (rewrite Em; destruct (Z.eqb_spec n 4), (Z.eqb_spec n 3), (Z.eqb_spec n 2); lia).
  rewrite lxor_sub by done. unfold count_byte. by rewrite (proj2 (Z.eqb_neq _ _)) by lia.
Qed.
(** A continuation byte. *)
Lemma feed_cont i n cur v : 1 <= i < n -> 0 <= cur -> cur * 64 < 2 ^ 32 -> 0 <= v ->
  feed (cont v) (mkDecoder false i n cur) = mkDecoder (i + 1 =? n) (i + 1) n (cur * 64 + v mod 64).
Proof.
  intros Hi Hc Hw Hv. unfold feed, count_byte, cont. cbn [m_completed m_current_length m_length m_current].
  rewrite (proj2 (Z.eqb_neq _ _)) by lia. pose proof (Z.mod_pos_bound v 64 ltac:(lia)).
  change (0x80 + v mod 64) with (1 * 2 ^ 7 + v mod 64). change 0x80 with (1 * 2 ^ 7). rewrite lxor_sub by lia.
  rewrite Z.shiftl_mul_pow2, uwrap_small by lia. rewrite lor_add by lia. done.
Qed.

Lemma byte_small v : 0 <= v < 256 -> u8 v = v.
Proof. apply (uwrap_small 8). Qed.
Lemma cont_range v : 0 <= cont v < 256.
Proof. unfold cont. pose proof (Z.mod_pos_bound v 64 ltac:(lia)). lia. Qed.

Lemma decode_step d c str : 0 <= c < 256 -> m_completed (feed c d) = false -> decode_loop d (c :: str) = decode_loop (feed c d) str.
Proof. intros Hc H. cbn [decode_loop]. rewrite byte_small by done. unfold ready. by rewrite H. Qed.
Lemma decode_last d c n k v str : 0 <= c < 256 -> feed c d = mkDecoder true n k v -> decode_loop d (c :: str) = v :: decode_loop (reset d) str.
Proof. intros Hc H. cbn [decode_loop]. rewrite byte_small, H by done. done. Qed.

Lemma decode_char d cp str : fresh d -> 0 <= cp < 0x200000 -> exists d', fresh d' /\ decode_loop d (utf8 cp ++ str) = cp :: decode_loop d' str.
Proof.
  intros F H. exists (reset d). split; [done|]. unfold utf8.
  destruct (Z.ltb_spec cp 0x80); [|destruct (Z.ltb_spec cp 0x800); [|destruct (Z.ltb_spec cp 0x10000)]]; cbn [app].
  - rewrite (decode_last d cp 0 1 cp) by (lia || (destruct F as [F1 F2]; unfold feed; rewrite F1, F2, get_length_1 by lia; done)). done.
  - assert (0 <= cp / 64 < 0x20) by (Z.div_mod_to_equations; lia).
    assert (E : feed (0xc0 + cp / 64) d = mkDecoder false 1 2 (cp / 64)) by (apply (feed_first d 2 6 5); try done; try lia; by apply get_length_2).
    rewrite decode_step by (rewrite ?E; done || lia). rewrite E.
    rewrite (decode_last _ _ 2 2 cp); [done|apply cont_range|]. rewrite feed_cont by lia. f_equal. Z.div_mod_to_equations. lia.
  - assert (0 <= cp / 4096 < 0x10) by (Z.div_mod_to_equations; lia).
    assert (E : feed (0xe0 + cp / 4096) d = mkDecoder false 1 3 (cp / 4096)) by (apply (feed_first d 3 14 4); try done; try lia; by apply get_length_3).
    rewrite decode_step by (rewrite ?E; done || lia). rewrite E.
    rewrite decode_step by (apply cont_range || by rewrite feed_cont by (Z.div_mod_to_equations; lia)). rewrite feed_cont by (Z.div_mod_to_equations; lia).
    rewrite (decode_last _ _ 3 3 cp); [done|apply cont_range|]. rewrite feed_cont by (Z.div_mod_to_equations; lia). f_equal. Z.div_mod_to_equations. lia.
  - assert (0 <= cp / 262144 < 8) by (Z.div_mod_to_equations; lia).
    assert (E : feed (0xf0 + cp / 262144) d = mkDecoder false 1 4 (cp / 262144)) by (apply (feed_first d 4 30 3); try done; try lia; by apply get_length_4).
    rewrite decode_step by (rewrite ?E; done || lia). rewrite E.
    do 2 (rewrite decode_step by (apply cont_range || by rewrite feed_cont by (Z.div_mod_to_equations; lia)); rewrite feed_cont by (Z.div_mod_to_equations; lia)).
    rewrite (decode_last _ _ 4 4 cp); [done|apply cont_range|]. rewrite feed_cont by (Z.div_mod_to_equations; lia). f_equal. Z.div_mod_to_equations. lia.
Qed.

Lemma decode_chars cps : Forall (fun cp => 0 <= cp < 0x200000) cps -> forall d, fresh d -> decode_loop d (concat (utf8 <$> cps)) = cps.
Proof.
  induction 1 as [|cp cps H Hs IH]; intros d F; [done|]. cbn [fmap list_fmap concat].
  destruct (decode_char d cp (concat (utf8 <$> cps)) F H) as (d' & F' & E). change (concat (map utf8 cps)) with (concat (utf8 <$> cps)).
  unfold fmap in *. rewrite E. by rewrite IH.
Qed.

(** ** What the encoder makes *)

Lemma land_mod ch n : 0 <= n -> Z.land ch (Z.ones n) = ch mod 2 ^ n.
Proof. intros. by apply Z.land_ones. Qed.
Lemma encode_cont ch : u8 (Z.lor 0x80 (Z.land ch 0x3f)) = cont ch.
Proof.
  change 0x3f with (Z.ones 6). rewrite land_mod by lia. pose proof (Z.mod_pos_bound ch 64 ltac:(lia)).
  change (2 ^ 6) with 64. change 0x80 with (2 * 2 ^ 6). rewrite (lor_add 2 (ch mod 64) 6) by lia. rewrite byte_small by lia. done.
Qed.
(** The byte in the middle of a character of three: the bits are not shifted down. *)
Lemma encode_middle ch : u8 (Z.lor 0x80 (Z.land ch (Z.shiftl 0x3f 6))) = 0x80 + 64 * ((ch / 64) mod 2).
Proof.
  assert (E : Z.land (Z.lor 0x80 (Z.land ch (Z.shiftl 0x3f 6))) (Z.ones 8) = Z.lor (2 ^ 7) (Z.shiftl (Z.land (Z.shiftr ch 6) (Z.ones 1)) 6)).
  { apply Z.bits_inj'. intros i Hi. change 0x80 with (2 ^ 7). change 0x3f with (Z.ones 6).
    rewrite Z.land_spec, !Z.lor_spec, Z.land_spec, !Z.shiftl_spec, Z.pow2_bits_eqb by lia.
    destruct (decide (i < 6)); [rewrite !(Z.testbit_neg_r _ (i - 6)), andb_false_r by lia; by rewrite (proj2 (Z.eqb_neq 7 i)) by lia|].
    rewrite Z.land_spec, Z.shiftr_spec by lia. replace (i - 6 + 6) with i by lia.
    destruct (decide (i = 6)) as [-> |]; [by rewrite !Z.ones_spec_low, !andb_true_r by lia|].
    rewrite (Z.ones_spec_high 1) by lia. rewrite !andb_false_r, orb_false_r. destruct (decide (i = 7)) as [-> |]; [done|].
    rewrite (Z.ones_spec_high 8) by lia. rewrite andb_false_r. by rewrite (proj2 (Z.eqb_neq 7 i)) by lia. }
  unfold uwrap. rewrite <- Z.land_ones by lia. rewrite E, land_mod, Z.shiftl_mul_pow2, Z.shiftr_div_pow2 by lia.
  change (2 ^ 1) with 2. change (2 ^ 6) with 64. pose proof (Z.mod_pos_bound (ch / 64) 2 ltac:(lia)).
  change (2 ^ 7) with (1 * 2 ^ 7). rewrite lor_add by lia. lia.
Qed.
Lemma encode_first a n ch k : 0 <= k <= n -> 0 <= ch -> ch / 2 ^ n < 2 ^ k -> a * 2 ^ k + 2 ^ k <= 256 -> 0 <= a ->
  u8 (Z.lor (a * 2 ^ k) (Z.shiftr ch n)) = a * 2 ^ k + ch / 2 ^ n.
Proof.
  intros Hk Hc Hb Ha H0. rewrite Z.shiftr_div_pow2 by lia. assert (0 <= ch / 2 ^ n) by (apply Z.div_pos; [lia|apply Z.pow_pos_nonneg; lia]).
  rewrite lor_add by lia. apply byte_small. nia.
Qed.

(** ** The theorems *)

(** C38: The decoder finds the characters of every text in UTF-8, of any length: it is the inverse
    of the encoding of the standard, up to 21 bits. *)
Theorem utf8_decodes cps : Forall (fun cp => 0 <= cp < 0x200000) cps -> u8_decode (concat (utf8 <$> cps)) = cps.
Proof. intros H. by apply decode_chars. Qed.
Lemma utf8_decodes_witness : u8_decode [0x61; 0xc3; 0xa9; 0xe2; 0x82; 0xac; 0xf0; 0x9f; 0x98; 0x80] = [0x61; 0xe9; 0x20ac; 0x1f600].
Proof. apply (utf8_decodes [0x61; 0xe9; 0x20ac; 0x1f600]). repeat constructor; lia. Defined.

(** [decode_utf32] makes UTF-8 of one and two bytes; of three bytes, only when the six bits in
    the middle are zero. *)
Theorem decode_utf32_spec ch :
  (0 <= ch < 0x800 -> decode_utf32 ch = utf8 ch) /\
  (0x800 <= ch < 0x10000 -> (decode_utf32 ch = utf8 ch <-> (ch / 64) mod 64 = 0)).
Proof.
  split; intros H; unfold decode_utf32, utf8.
  - destruct (Z.ltb_spec ch 0x80); [by rewrite byte_small by lia|]. rewrite (proj2 (Z.ltb_lt ch 0x800)) by lia.
    change (tail_bytes ch 2) with [u8 (Z.lor 0x80 (Z.land ch 0x3f))]. rewrite encode_cont.
    change 0xc0 with (6 * 2 ^ 5). rewrite (encode_first 6 6 ch 5) by (try lia; apply Z.div_lt_upper_bound; lia). done.
  - rewrite (proj2 (Z.ltb_ge ch 0x80)), (proj2 (Z.ltb_ge ch 0x800)), (proj2 (Z.ltb_lt ch 0x10000)) by lia.
    change (tail_bytes ch 3) with [u8 (Z.lor 0x80 (Z.land ch (Z.shiftl 0x3f 6))); u8 (Z.lor 0x80 (Z.land ch 0x3f))].
    rewrite encode_middle, encode_cont. change 0xe0 with (14 * 2 ^ 4). rewrite (encode_first 14 12 ch 4) by (try lia; apply Z.div_lt_upper_bound; lia).
    pose proof (Z.mod_pos_bound (ch / 64) 2 ltac:(lia)). pose proof (Z.mod_pos_bound (ch / 64) 64 ltac:(lia)). unfold cont.
    change (2 ^ 12) with 4096. split.
    + intros E. injection E. intros. lia.
    + intros E. rewrite E. assert ((ch / 64) mod 2 = 0) as -> by (Z.div_mod_to_equations; lia). done.
Qed.
Lemma decode_utf32_spec_witness : decode_utf32 0xe9 = [0xc3; 0xa9].
Proof. apply (proj1 (decode_utf32_spec 0xe9)). lia. Defined.
End Utf8.
