(* ===== verification/Clock.v ===== *)
(** * Clock: dates, the clock of the board and the callbacks of the timer

    [time/time.cpp], the conversions of [rtc::get_time] ([i686/pc/devices/rtc.hpp]), and
    [time/timer.hpp].  The registers of the board are an argument; running a callback is an
    entry of the log. *)
From stdpp Require Import base list.
From Stdlib Require Import ZArith Lia.
From S2P Require Import Prelude.

Module Clock.

(** ** Dates *)

Record Date := mkDate { ns : Z; sec : Z; min : Z; hour : Z; mday : Z; yday : Z; month : Z; year : Z }.
Definition secs_in_day : Z := 86400.
Definition days_in_months : list Z := [31; 28; 31; 30; 31; 30; 31; 31; 30; 31; 30; 31].

Definition leap_year (y : Z) : bool :=
  if negb (y mod 4 =? 0) then false
  else if negb (y mod 100 =? 0) then true
  else if negb (y mod 400 =? 0) then false
  else true.

Definition to_local_time (d : Date) : Date :=
  let h := if (4 <=? month d) && (month d <=? 7) then u32 (hour d + 1) else hour d in
  mkDate (ns d) (sec d) (min d) (u32 (h + 1)) (mday d) (yday d) (month d) (year d).

(** The loop over the years: the day in the year, and the year. *)
Fixpoint find_year (fuel : nat) (dayno year : Z) : outcome (Z * Z) :=
  match fuel with
  | O => Fault OutOfFuel
  | S fuel =>
      let days := if leap_year year then 366 else 365 in
      if days <=? dayno then find_year fuel (dayno - days) (year + 1) else Done (dayno, year)
  end.
(** The loop over the months of [y], from [m] on: the month and the day in it, or the days left. *)
Fixpoint find_month (y m : Z) (l : list Z) (dayno : Z) : (Z * Z) + Z :=
  match l with
  | [] => inr dayno
  | d :: l =>
      let d := d + (if (m =? 1) && leap_year y then 1 else 0) in
      if dayno <? d then inl (m + 1, dayno) else find_month y (m + 1) l (dayno - d)
  end.
(** The loop from 1970 to the year of the date. *)
Fixpoint find_day (n : nat) (y dayno : Z) : Z * Z :=
  match n with
  | O => (0, dayno)
  | S n =>
      match find_month y 0 days_in_months dayno with
      | inl r => r
      | inr dayno => find_day n (y + 1) dayno
      end
  end.
Definition from_unix (fuel : nat) (epoch : Z) : outcome Date :=
  let dayclock := epoch mod secs_in_day in
  '(day, y) ← find_year fuel (epoch / secs_in_day) 1970;
  let '(mon, d) := find_day (Z.to_nat (y - 1970 + 1)) 1970 day in
  Done (mkDate 0 (dayclock mod 60) (dayclock mod 3600 / 60) (dayclock / 3600) (d + 1) day mon y).

(** The loop of [to_unix], from the year down to 1971. *)
Fixpoint years_down (fuel : nat) (y epoch : Z) : outcome Z :=
  match fuel with
  | O => Fault OutOfFuel
  | S fuel =>
      if 1970 <? y then years_down fuel (y - 1) (u32 (epoch + (if leap_year y then 366 else 365) * secs_in_day)) else Done epoch
  end.
Definition to_unix (fuel : nat) (d : Date) : outcome Z :=
  years_down fuel (year d) (u32 (sec d + min d * 60 + hour d * 3600 + (yday d - 1) * secs_in_day)).

(** ** The clock of the board *)

(** The registers once they are stable; [century] is [None] when there is no such register. *)
Record registers := mkRegs { r_second : Z; r_minute : Z; r_hour : Z; r_day : Z; r_month : Z; r_year : Z; r_century : option Z; r_B : Z }.
Definition bcd (v : Z) : Z := Z.land v 0x0F + v / 16 * 10.
(** The day of the year; [i] is the month before the current one. *)
Fixpoint add_months (i : nat) (y day : Z) : Z :=
  match i with
  | O => day
  | S j => add_months j y (day + nth j days_in_months 0 + (if (i =? 2)%nat && leap_year y then 1 else 0))
  end.
(** The initialiser of [Time::Date] has no value for [ns], so every value goes to the field
    before its own. *)
Definition get_time (current_year : Z) (r : registers) : Date :=
  let binary := Ztrue (Z.land (r_B r) 0x04) in
  let conv v := if binary then v else bcd v in
  let h := if binary then r_hour r
           else Z.lor (Z.land (r_hour r) 0x0F + Z.land (r_hour r) 0x70 / 16 * 10) (Z.land (r_hour r) 0x80) in
  let h := if negb (Ztrue (Z.land (r_B r) 0x02)) && Ztrue (Z.land h 0x80) then (Z.land h 0x7F + 12) mod 24 else h in
  let y := match r_century r with
           | Some c => conv (r_year r) + conv c * 100
           | None =>
               let y := conv (r_year r) + current_year / 100 * 100 in
               if y <? current_year then y + 100 else y
           end in
  let day := conv (r_day r) in
  let yd := add_months (Z.to_nat (conv (r_month r) - 1)) y day in
  mkDate (conv (r_second r)) (conv (r_minute r)) h day yd (conv (r_month r)) y 0.

(** ** The callbacks of the timer *)

Record Callback := mkCallback { cb_id : Z; start : Z; duration : Z; oneshot : bool }.
(** A pass over the callbacks: those that are left, and those that were run. *)
Definition handle_callback (ticks : Z) (c : Callback) : list Callback * list Z :=
  if duration c <=? u32 (ticks - start c) then
    (if oneshot c then [] else [mkCallback (cb_id c) ticks (duration c) (oneshot c)], [cb_id c])
  else ([c], []).
Fixpoint handle_callbacks (ticks : Z) (l : list Callback) : list Callback * list Z :=
  match l with
  | [] => ([], [])
  | c :: l =>
      let '(c, ran) := handle_callback ticks c in
      let '(l, ran') := handle_callbacks ticks l in
      (c ++ l, ran ++ ran')
  end.

Record timer := mkTimer { m_callbacks : list Callback; m_ticks : Z; m_freq : Z; ran : list Z }.
Definition irq_callback (t : timer) : timer :=
  let ticks := u32 (m_ticks t + 1) in
  if ticks mod 64 =? 0 then
    let '(l, r) := handle_callbacks ticks (m_callbacks t) in mkTimer l ticks (m_freq t) (ran t ++ r)
  else mkTimer (m_callbacks t) ticks (m_freq t) (ran t).
(** [duration] is in milliseconds; a frequency above 1000 is a division by zero. *)
Definition register_callback (id dur : Z) (one : bool) (t : timer) : outcome timer :=
  if m_freq t =? 0 then Done t
  else if 1000 / m_freq t =? 0 then Fault Panic
  else Done (mkTimer (m_callbacks t ++ [mkCallback id (m_ticks t) (dur / (1000 / m_freq t)) one]) (m_ticks t) (m_freq t) (ran t)).
End Clock.
