(* ===== verification/ClockProofs.v ===== *)
(** * ClockProofs: dates against the calendar, and when callbacks are run *)
From stdpp Require Import base list.
From Stdlib Require Import ZArith Lia.
From S2P Require Import Prelude Clock.
Import Clock.

Module ClockProofs.

(** ** The calendar *)

(** The days from 1970 to the first day of [y], and to the first day of a month of a common
    year. *)
Definition days_before (y : Z) : Z := 365 * (y - 1970) + (y - 1) / 4 - (y - 1) / 100 + (y - 1) / 400 - 477.
Definition month_start (m : Z) : Z := foldr Z.add 0 (take (Z.to_nat (m - 1)) days_in_months).
Definition month_days (m : Z) : Z := nth (Z.to_nat (m - 1)) days_in_months 0.
Definition days_in_year (y : Z) : Z := if leap_year y then 366 else 365.

Lemma div_step y k : 0 < k -> y / k - (y - 1) / k = if y mod k =? 0 then 1 else 0.
Proof.
  intros Hk. pose proof (Z.div_mod y k ltac:(lia)) as D. pose proof (Z.mod_pos_bound y k Hk).
  destruct (Z.eqb_spec (y mod k) 0) as [E|N].
  - rewrite <- (Z.div_unique (y - 1) k (y / k - 1) (k - 1)) by lia. lia.
  - rewrite <- (Z.div_unique (y - 1) k (y / k) (y mod k - 1)) by lia. lia.
Qed.
Lemma days_before_next y : days_before (y + 1) = days_before y + days_in_year y.
Proof.
  unfold days_before, days_in_year, leap_year. replace (y + 1 - 1) with y by lia.
  pose proof (div_step y 4 ltac:(lia)) as D4. pose proof (div_step y 100 ltac:(lia)) as D100. pose proof (div_step y 400 ltac:(lia)) as D400.
  destruct (Z.eqb_spec (y mod 4) 0), (Z.eqb_spec (y mod 100) 0), (Z.eqb_spec (y mod 400) 0); cbn [negb]; try lia;
    exfalso; Z.div_mod_to_equations; lia.
Qed.
Lemma days_in_year_bounds y : 365 <= days_in_year y <= 366.
Proof. unfold days_in_year. destruct (leap_year y); lia. Qed.

Lemma find_year_spec fuel : forall dayno y, 0 <= dayno < 365 * Z.of_nat fuel ->
  exists d y', find_year fuel dayno y = Done (d, y') /\ y <= y' /\ 0 <= d < days_in_year y' /\ days_before y + dayno = days_before y' + d.
Proof.
  induction fuel as [|fuel IH]; intros dayno y H; [lia|]. cbn [find_year]. fold (days_in_year y). pose proof (days_in_year_bounds y).
  destruct (Z.leb_spec (days_in_year y) dayno) as [Hd|Hd].
  - destruct (IH (dayno - days_in_year y) (y + 1) ltac:(lia)) as (d & y' & E & Hy & B & S). exists d, y'.
    rewrite days_before_next in S. split_and!; try done; lia.
  - exists dayno, y. split_and!; done || lia.
Qed.

(** Evaluate the tables at a month that is known. *)
Ltac month_table :=
  repeat match goal with
    | |- context [month_days ?m] => let v := eval vm_compute in (month_days m) in change (month_days m) with v
    | |- context [month_start ?m] => let v := eval vm_compute in (month_start m) in change (month_start m) with v
    end.
(** The month of a day of a common year. *)
Lemma find_month_common y d : leap_year y = false -> 0 <= d < 365 ->
  exists m k, find_month y 0 days_in_months d = inl (m, k) /\ 1 <= m <= 12 /\ 0 <= k < month_days m /\ month_start m + k = d.
Proof.
  intros L H. unfold days_in_months. cbn [find_month Z.add]. rewrite L, !andb_false_r, !Z.add_0_r.
  repeat (match goal with |- context [?a <? ?b] =>
    destruct (Z.ltb_spec a b); [eexists _, _; split; [reflexivity|]; month_table; lia|] end). lia.
Qed.
Lemma find_month_last y : leap_year y = false -> find_month y 0 days_in_months 365 = inr 0.
Proof. intros L. unfold days_in_months. cbn [find_month Z.add]. rewrite L, !andb_false_r. done. Qed.

Lemma find_day_spec n d : (1 <= n)%nat -> 0 <= d <= 365 -> (d = 365 -> (2 <= n)%nat) ->
  exists m k, find_day n 1970 d = (m, k) /\ 1 <= m <= 12 /\ 0 <= k < month_days m /\ month_start m + k = d mod 365.
Proof.
  intros Hn Hd Hl. destruct n as [|n]; [lia|]. cbn [find_day]. destruct (decide (d = 365)) as [-> |].
  - destruct n as [|n]; [lia|]. rewrite (find_month_last 1970) by done. exists 1, 0. split; [done|]. month_table. change (365 mod 365) with 0. lia.
  - destruct (find_month_common 1970 d eq_refl ltac:(lia)) as (m & k & E & Hm & Hk & S). rewrite E. exists m, k.
    rewrite Z.mod_small by lia. done.
Qed.

Lemma from_unix_run e : 0 <= e < 2 ^ 32 -> exists d, from_unix 140 e = Done d /\
  0 <= sec d < 60 /\ 0 <= min d < 60 /\ 0 <= hour d < 24 /\ 1970 <= year d /\ 0 <= yday d < days_in_year (year d) /\
  e = secs_in_day * (days_before (year d) + yday d) + 3600 * hour d + 60 * min d + sec d /\
  1 <= month d <= 12 /\ 1 <= mday d <= month_days (month d) /\ month_start (month d) + (mday d - 1) = yday d mod 365.
Proof.
  intros H. unfold from_unix, secs_in_day.
  destruct (find_year_spec 140 (e / 86400) 1970) as (d & y & E & Hy & B & S); [Z.div_mod_to_equations; lia|].
  rewrite E. cbn [mbind outcome_bind]. pose proof (days_in_year_bounds y).
  destruct (find_day_spec (Z.to_nat (y - 1970 + 1)) d) as (m & k & Ed & Hm & Hk & Sk); [lia|lia| |].
  { intros ->. destruct (decide (y = 1970)) as [-> |]; [change (days_in_year 1970) with 365 in B; lia|lia]. }
  rewrite Ed. eexists. split; [reflexivity|]. cbn [sec min hour mday yday month year].
  change (days_before 1970) with 0 in S. split_and!; try done; try lia; Z.div_mod_to_equations; lia.
Qed.

Lemma years_down_spec fuel : forall y epoch, y < 1970 + Z.of_nat fuel -> (0 < fuel)%nat ->
  years_down fuel y (u32 epoch) = Done (u32 (epoch + (if 1970 <? y then (days_before (y + 1) - 365) * secs_in_day else 0))).
Proof.
  induction fuel as [|fuel IH]; intros y epoch H F; [lia|]. cbn [years_down].
  destruct (Z.ltb_spec 1970 y) as [Hy|Hy]; [|by rewrite Z.add_0_r].
  assert (E : u32 (u32 epoch + (if leap_year y then 366 else 365) * secs_in_day) = u32 (epoch + days_in_year y * secs_in_day))
    by (apply Z.add_mod_idemp_l; lia). rewrite E, IH by lia. do 2 f_equal. rewrite (days_before_next y). unfold secs_in_day.
  destruct (Z.ltb_spec 1970 (y - 1)).
  - replace (y - 1 + 1) with y by lia. lia.
  - assert (y = 1971) as -> by lia. change (days_before 1971) with 365. unfold secs_in_day. lia.
Qed.

(** ** The timer *)

Definition ids (l : list Callback) : list Z := cb_id <$> l.

Lemma handle_app ticks l1 l2 :
  handle_callbacks ticks (l1 ++ l2) =
    ((handle_callbacks ticks l1).1 ++ (handle_callbacks ticks l2).1, (handle_callbacks ticks l1).2 ++ (handle_callbacks ticks l2).2).
Proof.
  induction l1 as [|c l1 IH]; cbn; [by destruct (handle_callbacks ticks l2)|]. destruct (handle_callback ticks c) as [a b].
  rewrite IH. destruct (handle_callbacks ticks l1), (handle_callbacks ticks l2). cbn. by rewrite !app_assoc.
Qed.
(** A pass runs only what is in the list, and leaves only what was there. *)
Lemma handle_ids ticks l id : id ∉ ids l -> id ∉ ids (handle_callbacks ticks l).1 /\ id ∉ (handle_callbacks ticks l).2.
Proof.
  induction l as [|c l IH]; cbn; [done|]. intros H. apply not_elem_of_cons in H as [N H]. destruct (IH H) as [I1 I2].
  unfold handle_callback. destruct (handle_callbacks ticks l) as [l' r]. cbn in I1, I2. unfold ids in *.
  destruct (duration c <=? _); [destruct (oneshot c)|]; cbn; rewrite ?not_elem_of_cons; done.
Qed.

Section callback.
Context (id T d : Z).
Definition waiting_one : Callback := mkCallback id T d true.

(** [k] ticks after the callback was registered: it was not run, and waits. *)
Record pending (k : Z) (t : timer) : Prop := {
  p_list : exists l1 l2, m_callbacks t = l1 ++ waiting_one :: l2 /\ id ∉ ids l1 /\ id ∉ ids l2;
  p_ticks : m_ticks t = u32 (T + k);
  p_ran : id ∉ ran t;
}.
(** It was run once, and is gone. *)
Record finished (t : timer) : Prop := {
  f_list : id ∉ ids (m_callbacks t);
  f_ran : exists r1 r2, ran t = r1 ++ id :: r2 /\ id ∉ r1 /\ id ∉ r2;
}.

Lemma ticks_next k t : m_ticks t = u32 (T + k) -> u32 (m_ticks t + 1) = u32 (T + (k + 1)) /\ u32 (T + (k + 1)) mod 64 = (T + (k + 1)) mod 64.
Proof.
  intros ->. split.
  - unfold uwrap. rewrite Z.add_mod_idemp_l by lia. f_equal. lia.
  - unfold uwrap. apply Z.mod_mod_divide. by exists (2 ^ 26).
Qed.
Lemma elapsed k : 0 <= k + 1 < 2 ^ 32 -> u32 (u32 (T + (k + 1)) - T) = k + 1.
Proof. intros H. unfold uwrap. rewrite Zminus_mod_idemp_l. replace (T + (k + 1) - T) with (k + 1) by lia. by rewrite Z.mod_small. Qed.

Lemma tick_pending k t : pending k t -> 0 <= k + 1 < 2 ^ 32 -> (k + 1 < d \/ (T + (k + 1)) mod 64 <> 0) -> pending (k + 1) (irq_callback t).
Proof.
  intros [(l1 & l2 & L & N1 & N2) Tk R] B H. destruct (ticks_next k t Tk) as [E M]. unfold irq_callback. rewrite E, M.
  destruct (Z.eqb_spec ((T + (k + 1)) mod 64) 0) as [Z0|Nz].
  - rewrite L, handle_app. destruct (handle_ids (u32 (T + (k + 1))) l1 id N1) as [A1 A2]. cbn [handle_callbacks].
    destruct (handle_ids (u32 (T + (k + 1))) l2 id N2) as [B1 B2]. destruct (handle_callbacks _ l2) as [l2' r2].
    unfold handle_callback. cbn [waiting_one duration start cb_id oneshot]. rewrite elapsed by done.
    rewrite (proj2 (Z.leb_gt _ _)) by lia. cbn. split; [eexists _, _; split_and!; done|done|].
    cbn. rewrite !not_elem_of_app. done.
  - split; [by exists l1, l2|done|done].
Qed.
Lemma tick_runs k t : pending k t -> 0 <= k + 1 < 2 ^ 32 -> d <= k + 1 -> (T + (k + 1)) mod 64 = 0 -> finished (irq_callback t).
Proof.
  intros [(l1 & l2 & L & N1 & N2) Tk R] B Hd Z0. destruct (ticks_next k t Tk) as [E M]. unfold irq_callback. rewrite E, M, Z0. cbn [Z.eqb].
  rewrite L, handle_app. destruct (handle_ids (u32 (T + (k + 1))) l1 id N1) as [A1 A2]. cbn [handle_callbacks].
  destruct (handle_ids (u32 (T + (k + 1))) l2 id N2) as [B1 B2]. destruct (handle_callbacks _ l2) as [l2' r2].
  unfold handle_callback. cbn [waiting_one duration start cb_id oneshot]. rewrite elapsed by done. rewrite (proj2 (Z.leb_le _ _)) by lia. cbn.
  split; cbn.
  - unfold ids in *. rewrite fmap_app, not_elem_of_app. done.
  - eexists (ran t ++ _), r2. rewrite <- app_assoc. cbn. split_and!; [done|rewrite not_elem_of_app; done|done].
Qed.
Lemma tick_finished t : finished t -> finished (irq_callback t).
Proof.
  intros [L (r1 & r2 & R & N1 & N2)]. unfold irq_callback. destruct (_ =? 0); [|split; [done|by exists r1, r2]].
  destruct (handle_ids (u32 (m_ticks t + 1)) (m_callbacks t) id L) as [A1 A2]. destruct (handle_callbacks _ _) as [l r].
  split; [done|]. cbn. exists r1, (r2 ++ r). rewrite R, <- app_assoc. split_and!; [done|done|rewrite not_elem_of_app; done].
Qed.

Lemma iter_pending n : forall t, pending 0 t -> Z.of_nat n < 2 ^ 32 ->
  (forall k, 1 <= k <= Z.of_nat n -> k < d \/ (T + k) mod 64 <> 0) -> pending (Z.of_nat n) (Nat.iter n irq_callback t).
Proof.
  induction n as [|n IH]; intros t P B H; [done|]. cbn [Nat.iter nat_rect].
  replace (Z.of_nat (S n)) with (Z.of_nat n + 1) by lia. apply tick_pending; [apply IH; [done|lia|intros; apply H; lia]|lia|apply H; lia].
Qed.
Lemma iter_finished n t : finished t -> finished (Nat.iter n irq_callback t).
Proof. induction n as [|n IH]; intros F; [done|]. apply tick_finished. auto. Qed.
End callback.

(** ** The theorems *)

(** C36: The loops of [from_unix] end for every time a [size_t] holds.  The time of day, the year
    and the day of the year are those of the calendar; the month and the day of the month are
    those of the same day of a common year, so they are right but for the days after the 28th
    of February of a leap year. *)
Theorem from_unix_spec e : 0 <= e < 2 ^ 32 -> exists d, from_unix 140 e = Done d /\
  0 <= sec d < 60 /\ 0 <= min d < 60 /\ 0 <= hour d < 24 /\ 1970 <= year d /\ 0 <= yday d < days_in_year (year d) /\
  e = secs_in_day * (days_before (year d) + yday d) + 3600 * hour d + 60 * min d + sec d /\
  1 <= month d <= 12 /\ 1 <= mday d <= month_days (month d) /\ month_start (month d) + (mday d - 1) = yday d mod 365.
Proof. apply from_unix_run. Qed.
Lemma from_unix_spec_witness : exists d, from_unix 140 951827696 = Done d /\
  0 <= sec d < 60 /\ 0 <= min d < 60 /\ 0 <= hour d < 24 /\ 1970 <= year d /\ 0 <= yday d < days_in_year (year d) /\
  951827696 = secs_in_day * (days_before (year d) + yday d) + 3600 * hour d + 60 * min d + sec d /\
  1 <= month d <= 12 /\ 1 <= mday d <= month_days (month d) /\ month_start (month d) + (mday d - 1) = yday d mod 365.
Proof. apply (from_unix_spec 951827696). lia. Defined.

(** [to_unix] after [from_unix] is a day early in a common year, and right in a leap year:
    one counts the days of the year from 0 and the other from 1, and [to_unix] adds the leap
    day of the current year and not those before it. *)
Theorem unix_roundtrip e : secs_in_day <= e < 2 ^ 32 ->
  exists d, from_unix 140 e = Done d /\ to_unix 140 d = Done (if leap_year (year d) then e else e - secs_in_day).
Proof.
  intros H. unfold secs_in_day in H. destruct (from_unix_run e ltac:(lia)) as (d & E & S & M & Ho & Y & D & T & _). exists d. split; [done|].
  unfold to_unix. assert (Hy : year d < 1970 + Z.of_nat 140).
  { assert (B : days_before (year d) <= 49711) by (unfold secs_in_day in T; lia). clear -B Y. unfold days_before in B.
    pose proof (Z.div_mod (year d - 1) 4 ltac:(lia)). pose proof (Z.div_mod (year d - 1) 100 ltac:(lia)). pose proof (Z.div_pos (year d - 1) 400).
    pose proof (Z.mod_pos_bound (year d - 1) 4 ltac:(lia)). pose proof (Z.mod_pos_bound (year d - 1) 100 ltac:(lia)). lia. }
  rewrite years_down_spec by (done || lia). rewrite (days_before_next (year d)). unfold days_in_year. f_equal.
  set (x := _ + _). assert (x = if leap_year (year d) then e else e - 86400) as ->; [|unfold secs_in_day; apply uwrap_small; destruct (leap_year (year d)); lia].
  unfold x, secs_in_day in *. destruct (Z.ltb_spec 1970 (year d)).
  - destruct (leap_year (year d)); lia.
  - assert (Ey : year d = 1970) by lia. rewrite Ey in T |- *. change (leap_year 1970) with false. change (days_before 1970) with 0 in T. cbv iota. lia.
Qed.
Lemma unix_roundtrip_witness : exists d, from_unix 140 1546300800 = Done d /\
  to_unix 140 d = Done (if leap_year (year d) then 1546300800 else 1546300800 - secs_in_day).
Proof. apply (unix_roundtrip 1546300800). unfold secs_in_day. lia. Defined.

(** The time the system starts with: the values of the clock of the board are in the wrong
    fields, so the hours are taken for minutes, the days for hours, the month for a day, and
    the year is lost. *)
Theorem rtc_epoch current_year second minute hour day month year century :
  0 <= minute < 60 -> 0 <= hour < 24 -> 0 <= day <= 31 -> 1 <= month <= 12 ->
  to_unix 1 (get_time current_year (mkRegs second minute hour day month year century 6)) =
    Done (minute + 60 * hour + 3600 * day + secs_in_day * (month - 1)).
Proof.
  intros. unfold to_unix, get_time. cbn [r_B r_second r_minute r_hour r_day r_month r_year r_century Clock.sec Clock.min Clock.hour Clock.yday Clock.year].
  change (Ztrue (Z.land 6 0x04)) with true. change (Ztrue (Z.land 6 0x02)) with true. cbn [negb andb]. cbv iota.
  cbn [years_down]. change (1970 <? 0) with false. cbv iota. f_equal. unfold secs_in_day. rewrite uwrap_small by lia. lia.
Qed.
Lemma rtc_epoch_witness : to_unix 1 (get_time 2018 (mkRegs 30 45 13 24 12 18 None 6)) = Done (45 + 60 * 13 + 3600 * 24 + secs_in_day * 11).
Proof. apply (rtc_epoch 2018 30 45 13 24 12 18 None); lia. Defined.

(** C37: A callback that is to be run once is run at most 64 ticks after its time, not before it,
    exactly once, and is then gone, whatever other callbacks there are and when the counter of
    the ticks wraps around.  Callbacks neither register nor remove callbacks. *)
Theorem callback_runs_once id dur t t1 :
  0 <= m_ticks t < 2 ^ 32 -> id ∉ ids (m_callbacks t) -> id ∉ ran t -> m_freq t <> 0 ->
  let d := dur / (1000 / m_freq t) in
  0 <= d < 2 ^ 32 - 64 -> register_callback id dur true t = Done t1 ->
  exists n, d <= Z.of_nat n <= d + 64 /\
    (forall m, (m < n)%nat -> id ∉ ran (Nat.iter m irq_callback t1)) /\
    (forall m, (n <= m)%nat -> exists r1 r2, ran (Nat.iter m irq_callback t1) = r1 ++ id :: r2 /\ id ∉ r1 /\ id ∉ r2).
Proof.
  intros HT Hl Hr Hf d Hd. unfold register_callback. rewrite (proj2 (Z.eqb_neq _ _)) by done. destruct (1000 / m_freq t =? 0); [done|].
  fold d. intros [= <-]. set (T := m_ticks t). set (t1 := mkTimer _ _ _ _).
  assert (P : pending id T d 0 t1).
  { split; [exists (m_callbacks t), []; split_and!; [done|done|apply not_elem_of_nil]| |done]. cbn. rewrite Z.add_0_r, uwrap_small; done. }
  set (d1 := Z.max d 1). set (w := (- (T + d1)) mod 64). pose proof (Z.mod_pos_bound (- (T + d1)) 64 ltac:(lia)). fold w in H.
  assert (Q : forall k, 1 <= k < d1 + w -> k < d \/ (T + k) mod 64 <> 0).
  { intros k Hk. destruct (decide (k < d)); [by left|right]. unfold w in Hk. Z.div_mod_to_equations. lia. }
  exists (Z.to_nat (d1 + w)). split; [lia|]. split.
  - intros m Hm. apply (iter_pending id T d m t1 P); [lia|]. intros k Hk. apply Q. lia.
  - intros m Hm. apply (f_ran id). replace m with ((m - Z.to_nat (d1 + w)) + S (Z.to_nat (d1 + w - 1)))%nat by lia.
    rewrite Nat.iter_add. apply iter_finished. cbn [Nat.iter nat_rect].
    assert (Pn : pending id T d (Z.of_nat (Z.to_nat (d1 + w - 1))) (Nat.iter (Z.to_nat (d1 + w - 1)) irq_callback t1)).
    { apply iter_pending; [done|lia|]. intros k Hk. apply Q. lia. }
    apply (tick_runs id T d _ _ Pn); [lia|lia|]. replace (Z.of_nat (Z.to_nat (d1 + w - 1)) + 1) with (d1 + w) by lia.
    unfold w. Z.div_mod_to_equations. lia.
Qed.
Lemma callback_runs_once_witness : exists n, 10 <= Z.of_nat n <= 10 + 64 /\
    (forall m, (m < n)%nat -> 7 ∉ ran (Nat.iter m irq_callback (mkTimer [mkCallback 7 (2 ^ 32 - 3) 10 true] (2 ^ 32 - 3) 100 []))) /\
    (forall m, (n <= m)%nat -> exists r1 r2,
      ran (Nat.iter m irq_callback (mkTimer [mkCallback 7 (2 ^ 32 - 3) 10 true] (2 ^ 32 - 3) 100 [])) = r1 ++ 7 :: r2 /\ 7 ∉ r1 /\ 7 ∉ r2).
Proof.
  apply (callback_runs_once 7 100 (mkTimer [] (2 ^ 32 - 3) 100 []));
    [cbn [m_ticks]; lia|apply not_elem_of_nil|apply not_elem_of_nil|done|split; reflexivity || discriminate|reflexivity].
Defined.
End ClockProofs.
