(* ===== verification/Terminal.v ===== *)
(** * Terminal: the text terminal of the kernel

    [terminal/terminal.cpp] over [terminal/terminaldata.cpp], with the members of
    [terminal.hpp], [terminaldata.hpp] and [termentry.hpp].  The virtual functions of the class
    are the operations of a [Display]; what the terminal sends to the speaker and to the message
    bus is a list of events. *)
From stdpp Require Import base list.
From Stdlib Require Import ZArith Lia.
From S2P Require Import Prelude Strto Paths CircularBuffer Utf8.
Import Utf8.

Module Terminal.

(** ** Colours and entries *)

Record Color := mkColor { b : Z; g : Z; r : Z; a : Z }.
(** [Color(r, g, b)] and [Color(rgb)]; the alpha is 255. *)
Definition Color3 (r g b : Z) : Color := mkColor (u8 b) (u8 g) (u8 r) 255.
Definition Color1 (rgb : Z) : Color := mkColor (u8 rgb) (u8 (Z.shiftr rgb 8)) (u8 (Z.shiftr rgb 16)) 255.
Record ColorPair := mkPair { fg : Color; bg : Color }.
Record TermEntry := mkEntry { c : Z; pair : ColorPair }.
#[export] Instance Color_eq_dec : EqDecision Color.
Proof. solve_decision. Defined.
#[export] Instance ColorPair_eq_dec : EqDecision ColorPair.
Proof. solve_decision. Defined.
#[export] Instance TermEntry_eq_dec : EqDecision TermEntry.
Proof. solve_decision. Defined.

(** ** The history: [TerminalData] *)

Abbreviation entries := (list TermEntry).
(** The top of the stack of colours is the head of the list. *)
Record TerminalData := mkData {
  title_str : list Z;
  title_color : ColorPair;
  title_height : Z;
  color_stack : list ColorPair;
  m_buffer : CircularBuffer.cbuf (T := entries);
}.
Definition default_color : ColorPair := mkPair (Color1 0xaaaaaa) (Color1 0x000000).
Definition new_data (history_size : Z) (title_color : ColorPair) : TerminalData :=
  mkData [] title_color 1 [default_color] (CircularBuffer.create [] history_size).
Definition set_color_stack (v : list ColorPair) (d : TerminalData) : TerminalData :=
  mkData (title_str d) (title_color d) (title_height d) v (m_buffer d).
Definition set_m_buffer (v : CircularBuffer.cbuf) (d : TerminalData) : TerminalData :=
  mkData (title_str d) (title_color d) (title_height d) (color_stack d) v.
Definition set_title_of (str : list Z) (color : ColorPair) (d : TerminalData) : TerminalData :=
  mkData str color (title_height d) (color_stack d) (m_buffer d).

Definition push_color (color : ColorPair) (d : TerminalData) : TerminalData := set_color_stack (color :: color_stack d) d.
Definition pop_color (d : TerminalData) : TerminalData := set_color_stack (tail (color_stack d)) d.
Definition lines (d : TerminalData) : Z := CircularBuffer.size (m_buffer d).
Definition add_line (entry : entries) (d : TerminalData) : outcome TerminalData :=
  b ← CircularBuffer.add entry (m_buffer d); Done (set_m_buffer b d).
Definition clear_data (d : TerminalData) : TerminalData := set_m_buffer (CircularBuffer.clear (m_buffer d)) d.

(** An entry of the history cut into rows of the screen; [line] is the row being filled. *)
Fixpoint split_entry (width : Z) (entry line : entries) : list entries :=
  match entry with
  | [] => [line]
  | e :: entry =>
      let line := line ++ [e] in
      if width <=? Z.of_nat (length line) then line :: split_entry width entry [] else split_entry width entry line
  end.
Fixpoint screen_loop (n : nat) (width height i : Z) (buf : CircularBuffer.cbuf) (vec : list entries) : outcome (list entries) :=
  match n with
  | O => Done vec
  | S n =>
      if Z.of_nat (length vec) <? height then
        entry ← CircularBuffer.get_entry i buf;
        screen_loop n width height (i + 1) buf (vec ++ split_entry width entry [])
      else Done vec
  end.
Definition get_screen (width height offset : Z) (d : TerminalData) : outcome (list entries) :=
  let bound := Z.min (u32 (height + offset)) (lines d) in
  screen_loop (Z.to_nat (bound - offset)) width height offset (m_buffer d) [].

(** The loop of [set_entry] that makes room for the row [y]. *)
Fixpoint grow (fuel : nat) (y : Z) (d : TerminalData) : outcome TerminalData :=
  match fuel with
  | O => Fault OutOfFuel
  | S fuel => if lines d <=? y then d ← add_line [] d; grow fuel y d else Done d
  end.

(** [set_entry] cuts the row after [x] ([resize]); the entries it adds are zero. *)
Definition zero_entry : TermEntry := mkEntry 0 (mkPair (mkColor 0 0 0 0) (mkColor 0 0 0 0)).
Definition set_entry (fuel : nat) (x y : Z) (entry : TermEntry) (d : TerminalData) : outcome TerminalData :=
  d ← grow fuel y d;
  let buf := m_buffer d in
  line ← CircularBuffer.get_entry y buf;
  let line := <[Z.to_nat x := entry]> (resize (Z.to_nat (x + 1)) zero_entry line) in
  let i := if CircularBuffer.full buf then (CircularBuffer.m_front buf + y) mod CircularBuffer.m_size buf else y in
  Done (set_m_buffer (CircularBuffer.mkBuf (CircularBuffer.m_front buf) (CircularBuffer.m_full buf)
    (<[Z.to_nat i := line]> (CircularBuffer.m_data buf))) d).

(** ** The display: the virtual functions of the terminal *)

Class Display (D : Type) := {
  putchar : Z -> Z -> TermEntry -> D -> outcome D;
  clear_line : Z -> Color -> Z -> D -> outcome D;
  place_cursor : Z -> Z -> D -> D;
  draw_impl : D -> D;
  disable_impl : D -> D;
}.

(** What a display of [w] columns and [h] rows promises: drawing inside it does not fail. *)
Class DisplayBounds (D : Type) `{Display D} (w h : Z) := {
  ok : D -> Prop;
  putchar_ok x y e d : ok d -> 0 <= x < w -> 0 <= y < h -> exists d', putchar x y e d = Done d' /\ ok d';
  clear_line_ok y col n d : ok d -> 0 <= y < h -> 0 <= n <= w -> exists d', clear_line y col n d = Done d' /\ ok d';
  place_cursor_ok x y d : ok d -> 0 <= x < w -> 0 <= y < h -> ok (place_cursor x y d);
  draw_ok d : ok d -> ok (draw_impl d);
  disable_ok d : ok d -> ok (disable_impl d);
}.
(** What it promises of the cells: the last thing drawn is there, and nothing else changed. *)
Class DisplayCells (D : Type) `{DisplayBounds D w h} (V : Type) := {
  cell : D -> Z -> Z -> V;
  glyph : TermEntry -> V;
  blank : Color -> V;
  putchar_cell x y e d d' : ok d -> 0 <= x < w -> 0 <= y < h -> putchar x y e d = Done d' ->
    forall i j, 0 <= i < w -> 0 <= j < h -> cell d' i j = if (i =? x) && (j =? y) then glyph e else cell d i j;
  clear_line_cell y col n d d' : ok d -> 0 <= y < h -> 0 <= n <= w -> clear_line y col n d = Done d' ->
    forall i j, 0 <= i < w -> 0 <= j < h -> cell d' i j = if (i <? n) && (j =? y) then blank col else cell d i j;
  place_cursor_cell x y d i j : cell (place_cursor x y d) i j = cell d i j;
  draw_cell d i j : cell (draw_impl d) i j = cell d i j;
}.

(** [nullterm.hpp]: a display that shows nothing. *)
Definition null_screen : Type := unit.
#[export] Instance null_display : Display null_screen :=
  {| putchar _ _ _ d := Done d; clear_line _ _ _ d := Done d; place_cursor _ _ d := d; draw_impl d := d; disable_impl d := d |}.
#[export] Instance null_bounds w h : DisplayBounds null_screen w h.
Proof. refine {| ok _ := True |}; eauto. Defined.

Inductive event := Beep (ms : Z) | TermInputEvent (str : list Z).

Section terminal.
Context {D : Type} `{Display D}.

Record Terminal := mkTerm {
  m_cursor_x : Z;
  m_cursor_y : Z;
  m_width : Z;
  m_height : Z;
  m_current_history_page : Z;
  m_enabled : bool;
  m_dirty : bool;
  m_scrolling : bool;
  m_line_is_input : bool;
  m_input_off : Z;
  m_accept_input : bool;
  m_escape_code : bool;
  m_expecting_bracket : bool;
  m_escape_sequence : list Z;
  m_cur_line : list TermEntry;
  m_dirty_width_per_line : list Z;
  m_decoder : UTF8Decoder;
  m_data : TerminalData;
  dev : D;
  sent : list event;
}.
Definition set_m_cursor_x (v : Z) (t : Terminal) : Terminal :=
  mkTerm v (m_cursor_y t) (m_width t) (m_height t) (m_current_history_page t) (m_enabled t) (m_dirty t) (m_scrolling
    t) (m_line_is_input t) (m_input_off t) (m_accept_input t) (m_escape_code t) (m_expecting_bracket t)
    (m_escape_sequence t) (m_cur_line t) (m_dirty_width_per_line t) (m_decoder t) (m_data t) (dev t) (sent t).
Definition set_m_cursor_y (v : Z) (t : Terminal) : Terminal :=
  mkTerm (m_cursor_x t) v (m_width t) (m_height t) (m_current_history_page t) (m_enabled t) (m_dirty t) (m_scrolling
    t) (m_line_is_input t) (m_input_off t) (m_accept_input t) (m_escape_code t) (m_expecting_bracket t)
    (m_escape_sequence t) (m_cur_line t) (m_dirty_width_per_line t) (m_decoder t) (m_data t) (dev t) (sent t).
Definition set_m_width (v : Z) (t : Terminal) : Terminal :=
  mkTerm (m_cursor_x t) (m_cursor_y t) v (m_height t) (m_current_history_page t) (m_enabled t) (m_dirty t)
    (m_scrolling t) (m_line_is_input t) (m_input_off t) (m_accept_input t) (m_escape_code t) (m_expecting_bracket t)
    (m_escape_sequence t) (m_cur_line t) (m_dirty_width_per_line t) (m_decoder t) (m_data t) (dev t) (sent t).
Definition set_m_height (v : Z) (t : Terminal) : Terminal :=
  mkTerm (m_cursor_x t) (m_cursor_y t) (m_width t) v (m_current_history_page t) (m_enabled t) (m_dirty t) (m_scrolling
    t) (m_line_is_input t) (m_input_off t) (m_accept_input t) (m_escape_code t) (m_expecting_bracket t)
    (m_escape_sequence t) (m_cur_line t) (m_dirty_width_per_line t) (m_decoder t) (m_data t) (dev t) (sent t).
Definition set_m_current_history_page (v : Z) (t : Terminal) : Terminal :=
  mkTerm (m_cursor_x t) (m_cursor_y t) (m_width t) (m_height t) v (m_enabled t) (m_dirty t) (m_scrolling t)
    (m_line_is_input t) (m_input_off t) (m_accept_input t) (m_escape_code t) (m_expecting_bracket t)
    (m_escape_sequence t) (m_cur_line t) (m_dirty_width_per_line t) (m_decoder t) (m_data t) (dev t) (sent t).
Definition set_m_enabled (v : bool) (t : Terminal) : Terminal :=
  mkTerm (m_cursor_x t) (m_cursor_y t) (m_width t) (m_height t) (m_current_history_page t) v (m_dirty t) (m_scrolling
    t) (m_line_is_input t) (m_input_off t) (m_accept_input t) (m_escape_code t) (m_expecting_bracket t)
    (m_escape_sequence t) (m_cur_line t) (m_dirty_width_per_line t) (m_decoder t) (m_data t) (dev t) (sent t).
Definition set_m_dirty (v : bool) (t : Terminal) : Terminal :=
  mkTerm (m_cursor_x t) (m_cursor_y t) (m_width t) (m_height t) (m_current_history_page t) (m_enabled t) v
    (m_scrolling t) (m_line_is_input t) (m_input_off t) (m_accept_input t) (m_escape_code t) (m_expecting_bracket t)
    (m_escape_sequence t) (m_cur_line t) (m_dirty_width_per_line t) (m_decoder t) (m_data t) (dev t) (sent t).
Definition set_m_scrolling (v : bool) (t : Terminal) : Terminal :=
  mkTerm (m_cursor_x t) (m_cursor_y t) (m_width t) (m_height t) (m_current_history_page t) (m_enabled t) (m_dirty t) v
    (m_line_is_input t) (m_input_off t) (m_accept_input t) (m_escape_code t) (m_expecting_bracket t)
    (m_escape_sequence t) (m_cur_line t) (m_dirty_width_per_line t) (m_decoder t) (m_data t) (dev t) (sent t).
Definition set_m_line_is_input (v : bool) (t : Terminal) : Terminal :=
  mkTerm (m_cursor_x t) (m_cursor_y t) (m_width t) (m_height t) (m_current_history_page t) (m_enabled t) (m_dirty t)
    (m_scrolling t) v (m_input_off t) (m_accept_input t) (m_escape_code t) (m_expecting_bracket t) (m_escape_sequence
    t) (m_cur_line t) (m_dirty_width_per_line t) (m_decoder t) (m_data t) (dev t) (sent t).
Definition set_m_input_off (v : Z) (t : Terminal) : Terminal :=
  mkTerm (m_cursor_x t) (m_cursor_y t) (m_width t) (m_height t) (m_current_history_page t) (m_enabled t) (m_dirty t)
    (m_scrolling t) (m_line_is_input t) v (m_accept_input t) (m_escape_code t) (m_expecting_bracket t)
    (m_escape_sequence t) (m_cur_line t) (m_dirty_width_per_line t) (m_decoder t) (m_data t) (dev t) (sent t).
Definition set_m_accept_input (v : bool) (t : Terminal) : Terminal :=
  mkTerm (m_cursor_x t) (m_cursor_y t) (m_width t) (m_height t) (m_current_history_page t) (m_enabled t) (m_dirty t)
    (m_scrolling t) (m_line_is_input t) (m_input_off t) v (m_escape_code t) (m_expecting_bracket t) (m_escape_sequence
    t) (m_cur_line t) (m_dirty_width_per_line t) (m_decoder t) (m_data t) (dev t) (sent t).
Definition set_m_escape_code (v : bool) (t : Terminal) : Terminal :=
  mkTerm (m_cursor_x t) (m_cursor_y t) (m_width t) (m_height t) (m_current_history_page t) (m_enabled t) (m_dirty t)
    (m_scrolling t) (m_line_is_input t) (m_input_off t) (m_accept_input t) v (m_expecting_bracket t)
    (m_escape_sequence t) (m_cur_line t) (m_dirty_width_per_line t) (m_decoder t) (m_data t) (dev t) (sent t).
Definition set_m_expecting_bracket (v : bool) (t : Terminal) : Terminal :=
  mkTerm (m_cursor_x t) (m_cursor_y t) (m_width t) (m_height t) (m_current_history_page t) (m_enabled t) (m_dirty t)
    (m_scrolling t) (m_line_is_input t) (m_input_off t) (m_accept_input t) (m_escape_code t) v (m_escape_sequence t)
    (m_cur_line t) (m_dirty_width_per_line t) (m_decoder t) (m_data t) (dev t) (sent t).
Definition set_m_escape_sequence (v : list Z) (t : Terminal) : Terminal :=
  mkTerm (m_cursor_x t) (m_cursor_y t) (m_width t) (m_height t) (m_current_history_page t) (m_enabled t) (m_dirty t)
    (m_scrolling t) (m_line_is_input t) (m_input_off t) (m_accept_input t) (m_escape_code t) (m_expecting_bracket t) v
    (m_cur_line t) (m_dirty_width_per_line t) (m_decoder t) (m_data t) (dev t) (sent t).
Definition set_m_cur_line (v : list TermEntry) (t : Terminal) : Terminal :=
  mkTerm (m_cursor_x t) (m_cursor_y t) (m_width t) (m_height t) (m_current_history_page t) (m_enabled t) (m_dirty t)
    (m_scrolling t) (m_line_is_input t) (m_input_off t) (m_accept_input t) (m_escape_code t) (m_expecting_bracket t)
    (m_escape_sequence t) v (m_dirty_width_per_line t) (m_decoder t) (m_data t) (dev t) (sent t).
Definition set_m_dirty_width_per_line (v : list Z) (t : Terminal) : Terminal :=
  mkTerm (m_cursor_x t) (m_cursor_y t) (m_width t) (m_height t) (m_current_history_page t) (m_enabled t) (m_dirty t)
    (m_scrolling t) (m_line_is_input t) (m_input_off t) (m_accept_input t) (m_escape_code t) (m_expecting_bracket t)
    (m_escape_sequence t) (m_cur_line t) v (m_decoder t) (m_data t) (dev t) (sent t).
Definition set_m_decoder (v : UTF8Decoder) (t : Terminal) : Terminal :=
  mkTerm (m_cursor_x t) (m_cursor_y t) (m_width t) (m_height t) (m_current_history_page t) (m_enabled t) (m_dirty t)
    (m_scrolling t) (m_line_is_input t) (m_input_off t) (m_accept_input t) (m_escape_code t) (m_expecting_bracket t)
    (m_escape_sequence t) (m_cur_line t) (m_dirty_width_per_line t) v (m_data t) (dev t) (sent t).
Definition set_m_data (v : TerminalData) (t : Terminal) : Terminal :=
  mkTerm (m_cursor_x t) (m_cursor_y t) (m_width t) (m_height t) (m_current_history_page t) (m_enabled t) (m_dirty t)
    (m_scrolling t) (m_line_is_input t) (m_input_off t) (m_accept_input t) (m_escape_code t) (m_expecting_bracket t)
    (m_escape_sequence t) (m_cur_line t) (m_dirty_width_per_line t) (m_decoder t) v (dev t) (sent t).
Definition set_dev (v : D) (t : Terminal) : Terminal :=
  mkTerm (m_cursor_x t) (m_cursor_y t) (m_width t) (m_height t) (m_current_history_page t) (m_enabled t) (m_dirty t)
    (m_scrolling t) (m_line_is_input t) (m_input_off t) (m_accept_input t) (m_escape_code t) (m_expecting_bracket t)
    (m_escape_sequence t) (m_cur_line t) (m_dirty_width_per_line t) (m_decoder t) (m_data t) v (sent t).
Definition set_sent (v : list event) (t : Terminal) : Terminal :=
  mkTerm (m_cursor_x t) (m_cursor_y t) (m_width t) (m_height t) (m_current_history_page t) (m_enabled t) (m_dirty t)
    (m_scrolling t) (m_line_is_input t) (m_input_off t) (m_accept_input t) (m_escape_code t) (m_expecting_bracket t)
    (m_escape_sequence t) (m_cur_line t) (m_dirty_width_per_line t) (m_decoder t) (m_data t) (dev t) v.
Definition op (A : Type) : Type := M Terminal A.

Definition on_dev (f : D -> outcome D) : op unit :=
  fun t => match f (dev t) with Done d => Done (tt, set_dev d t) | Fault e => Fault e end.
Definition on_data {A} (f : TerminalData -> outcome A) : op A :=
  fun t => match f (m_data t) with Done v => Done (v, t) | Fault e => Fault e end.
Definition send (e : event) : op unit := modify (fun t => set_sent (sent t ++ [e]) t).

Definition width (t : Terminal) : Z := m_width t.
Definition height (t : Terminal) : Z := u32 (m_height t - title_height (m_data t)).
Definition true_height (t : Terminal) : Z := m_height t.
Definition current_history (t : Terminal) : Z := m_current_history_page t.
(** The top of the stack of colours. *)
Definition color : op ColorPair :=
  on_data (fun d => match color_stack d with p :: _ => Done p | [] => Fault BadAccess end).

Definition tab_size : nat := 4.
Definition new_terminal (iwidth iheight : Z) (data : TerminalData) (d : D) : Terminal :=
  mkTerm 0 0 iwidth iheight 0 true true true false 0 false false false [] [] (replicate (Z.to_nat iheight) 0) new_decoder
    data d [].

(** ** Drawing *)

Definition set_entry_at (entry : TermEntry) (x y : Z) (absolute : bool) : op unit :=
  t ← get;
  when (m_enabled t && (y <? height t))
    (on_dev (putchar x (u32 (y + (if absolute then 0 else title_height (m_data t)))) entry) ;;
     modify (set_m_dirty true)).

Definition draw : op unit :=
  t ← get;
  when (m_enabled t && m_dirty t) (modify (set_m_dirty false) ;; on_dev (fun d => Done (draw_impl d))).

Definition dirty_width_at (y : Z) : op Z :=
  fun t => match m_dirty_width_per_line t !! Z.to_nat y with Some v => Done (v, t) | None => Fault BadAccess end.
Definition set_dirty_width (y v : Z) : op unit :=
  _ ← dirty_width_at y;
  modify (fun t => set_m_dirty_width_per_line (<[Z.to_nat y := v]> (m_dirty_width_per_line t)) t).
Definition clear_line_before_write (y : Z) (col : Color) (size : Z) : op unit :=
  dirty_width ← dirty_width_at y;
  on_dev (clear_line y col (Z.max size dirty_width)) ;;
  set_dirty_width y size.

Definition update_cursor : op unit :=
  t ← get; on_dev (fun d => Done (place_cursor (m_cursor_x t) (u32 (m_cursor_y t + title_height (m_data t))) d)).
Definition check_pos : op unit :=
  t ← get;
  when (height t <=? m_cursor_y t) (modify (set_m_cursor_y (u32 (height t - 1)))) ;;
  when (width t <=? m_cursor_x t) (modify (set_m_cursor_x (u32 (width t - 1)))) ;;
  update_cursor.

(** [for (size_t i = 0; i < l.size(); ++i)], with the index and the element. *)
Definition with_index {A} (l : list A) : list (Z * A) := imap (fun i x => (Z.of_nat i, x)) l.

Definition force_redraw_input : op unit :=
  check_pos ;;
  t ← get; col ← color;
  on_dev (clear_line (Z.min (u32 (m_cursor_y t + title_height (m_data t))) (u32 (true_height t - 1))) (bg col) (width t)) ;;
  for_each (with_index (take (Z.to_nat (width t)) (m_cur_line t))) (fun '(i, e) => set_entry_at e i (m_cursor_y t) false) ;;
  draw.

(** The page that is shown when [page] is asked for. *)
Definition limit_page (page : Z) (t : Terminal) : Z :=
  let page := if page <? 0 then 0 else page in
  let limit := u32 (lines (m_data t) - height t + 1) in
  if limit <? page then s32 limit else page.
Definition show_row (col : Color) (i : Z) (row : entries) : op unit :=
  t ← get;
  clear_line_before_write (u32 (i + title_height (m_data t))) col (Z.of_nat (length row)) ;;
  for_each (with_index row) (fun '(j, e) => set_entry_at e j i false).
Definition show_history (page : Z) : op unit :=
  t ← get;
  when (m_scrolling t)
    (let page := limit_page page t in
     modify (set_m_current_history_page (u32 page)) ;;
     screen ← on_data (get_screen (width t) (height t) (u32 page));
     col ← color;
     for_each (with_index (take (Z.to_nat (true_height t - title_height (m_data t))) screen)) (fun '(i, row) => show_row (bg col) i row) ;;
     force_redraw_input).
Definition scroll_history (scroll : Z) : op unit :=
  t ← get; show_history (s32 (u32 (current_history t + scroll))) ;; draw.
Definition scroll_up : op unit := scroll_history 1.
Definition scroll_bottom : op unit :=
  t ← get;
  show_history (s32 (u32 (lines (m_data t) - height t + 1))) ;;
  modify (fun t => set_m_cursor_y (u32 (height t - 1)) t) ;;
  check_pos.

(** [set_title(str, color)]; the title that is kept is not cut. *)
Definition set_title (str : list Z) (col : ColorPair) : op unit :=
  t ← get;
  modify (fun t => set_m_data (set_title_of str col (m_data t)) t) ;;
  let str := if width t <=? Z.of_nat (length str) then take (Z.to_nat (width t)) str else str in
  let offset := u32 (width t / 2 - Z.of_nat (length str) / 2) in
  for_each (seqZ 0 (title_height (m_data t))) (fun j => on_dev (clear_line j (bg col) (width t))) ;;
  for_each (with_index str) (fun '(i, ch) => set_entry_at (mkEntry ch col) (u32 (offset + i)) 0 true) ;;
  draw.
Definition set_title_default (str : list Z) : op unit := col ← color; set_title str col.

Definition force_redraw : op unit :=
  update_cursor ;;
  t ← get; show_history (s32 (m_current_history_page t)) ;;
  force_redraw_input ;;
  t ← get; set_title (title_str (m_data t)) (title_color (m_data t)).

(** [clear(color)] and [clear()]. *)
Definition clear_with (col : ColorPair) : op unit :=
  modify (set_m_cursor_y 0) ;; modify (set_m_cursor_x 0) ;;
  modify (set_m_current_history_page 0) ;;
  modify (set_m_cur_line []) ;;
  modify (fun t => set_m_decoder (Utf8.reset (m_decoder t)) t) ;;
  t ← get;
  for_each (seqZ 0 (true_height t)) (fun i => on_dev (clear_line i (bg col) (width t))) ;;
  modify (fun t => set_m_dirty_width_per_line ((fun _ => width t) <$> m_dirty_width_per_line t) t) ;;
  modify (set_m_dirty true) ;;
  draw.
Definition clear : op unit := col ← color; clear_with col.
Definition reset : op unit := clear_with (mkPair (Color1 0xaaaaaa) (Color1 0xaaaaaa)) ;; modify (set_m_cur_line []).
(** The version of [clear_screen] that the displays inherit. *)
Definition clear_screen (col : Color) : op unit :=
  t ← get; for_each (seqZ 0 (height t)) (fun i => on_dev (clear_line i col (width t))).

Definition resize (iwidth iheight : Z) : op unit :=
  assert_ (Ztrue iwidth && Ztrue iheight) ;;
  reset ;;
  modify (set_m_width iwidth) ;; modify (set_m_height iheight) ;;
  modify (fun t => set_m_dirty_width_per_line (list.resize (Z.to_nat iheight) (width t) (m_dirty_width_per_line t)) t) ;;
  t ← get; set_title (title_str (m_data t)) (title_color (m_data t)) ;;
  check_pos ;;
  force_redraw.

(** ** Escape codes *)

(** [c_str()]: the characters before the first zero. *)
Fixpoint c_str (s : list Z) : list Z :=
  match s with [] => [] | ch :: s => if ch =? 0 then [] else ch :: c_str s end.
Definition stoul (s : list Z) : op Z :=
  match Strto.strtoul (c_str s) 0 with (v, Some _) => mret v | (_, None) => fail AssertFailed end.
Definition ascii_38 : list Z := [51; 56].
Definition ascii_48 : list Z := [52; 56].
Definition ascii_39 : list Z := [51; 57].
Definition ascii_49 : list Z := [52; 57].
Definition ascii_2 : list Z := [50].
Definition semicolon : Z := 59.

Definition process_escape_code : op unit :=
  t ← get;
  let param_list := Paths.tokenize (m_escape_sequence t) [semicolon] false in
  match param_list with
  | [] => mret tt
  | [p0; p1; p2; p3; p4] =>
      when (bool_decide (p0 = ascii_38) && bool_decide (p1 = ascii_2))
        (col ← color; vr ← stoul p2; vg ← stoul p3; vb ← stoul p4;
         modify (fun t => set_m_data (push_color (mkPair (Color3 vr vg vb) (bg col)) (m_data t)) t)) ;;
      when (bool_decide (p0 = ascii_48) && bool_decide (p1 = ascii_2))
        (col ← color; vr ← stoul p2; vg ← stoul p3; vb ← stoul p4;
         modify (fun t => set_m_data (push_color (mkPair (fg col) (Color3 vr vg vb)) (m_data t)) t))
  | [p0] =>
      when (bool_decide (p0 = ascii_39) || bool_decide (p0 = ascii_49))
        (when (1 <? Z.of_nat (length (color_stack (m_data t)))) (modify (fun t => set_m_data (pop_color (m_data t)) t)))
  | _ => mret tt
  end.

(** ** Characters *)

(** The text of the line from the start of the input on. *)
Definition input (t : Terminal) : list Z :=
  drop (Z.to_nat (m_input_off t)) (m_cur_line t) ≫= (fun e => decode_utf32 (c e)).

Definition add_line_to_history : op unit :=
  t ← get; d ← on_data (add_line (m_cur_line t)); modify (set_m_data d).
Definition new_line : op unit :=
  add_line_to_history ;;
  modify (set_m_cursor_x 0) ;;
  modify (fun t => set_m_cursor_y (u32 (m_cursor_y t + 1)) t) ;;
  check_pos ;;
  scroll_up ;;
  t ← get;
  when (m_line_is_input t)
    (modify (set_m_line_is_input false) ;;
     send (TermInputEvent (input t)) ;;
     set_dirty_width (m_cursor_y t) 0) ;;
  col ← color;
  on_dev (clear_line (m_cursor_y t) (bg col) (width t)) ;;
  modify (set_m_cur_line []).

(** [vector::erase] and [vector::insert] at an index. *)
Definition erase_at (x : Z) : op unit :=
  fun t => if x <? Z.of_nat (length (m_cur_line t))
           then Done (tt, set_m_cur_line (take (Z.to_nat x) (m_cur_line t) ++ drop (S (Z.to_nat x)) (m_cur_line t)) t)
           else Fault BadAccess.
Definition insert_at (x : Z) (e : TermEntry) : op unit :=
  fun t => if x <=? Z.of_nat (length (m_cur_line t))
           then Done (tt, set_m_cur_line (take (Z.to_nat x) (m_cur_line t) ++ e :: drop (Z.to_nat x) (m_cur_line t)) t)
           else Fault BadAccess.

Definition ESC : Z := 27.
Definition BEL : Z := 7.
Definition BS : Z := 8.
Definition TAB : Z := 9.
Definition LF : Z := 10.
Definition CR : Z := 13.
Definition space : Z := 32.
Definition bracket : Z := 91.

(** The branch of [put_char] inside an escape code. *)
Definition escape_char (ch : Z) : op unit :=
  t ← get;
  if m_expecting_bracket t then
    if ch =? bracket then modify (set_m_expecting_bracket false)
    else modify (set_m_escape_code false) ;; modify (set_m_escape_sequence []) ;; modify (set_m_expecting_bracket false)
  else if (0x40 <=? ch) && (ch <=? 0x7E) then
    modify (set_m_escape_code false) ;; process_escape_code ;; modify (set_m_escape_sequence [])
  else modify (fun t => set_m_escape_sequence (m_escape_sequence t ++ [s8 ch]) t).
Definition backspace : op unit :=
  t ← get;
  when (m_input_off t <? m_cursor_x t)
    (modify (set_m_cursor_x (m_cursor_x t - 1)) ;;
     check_pos ;;
     t ← get; col ← color;
     set_entry_at (mkEntry space col) (m_cursor_x t) (m_cursor_y t) false ;;
     erase_at (m_cursor_x t)).
Definition put_glyph (ch : Z) : op unit :=
  t ← get; col ← color;
  set_entry_at (mkEntry ch col) (m_cursor_x t) (m_cursor_y t) false ;;
  (if m_cursor_x t <? u32 (width t - 1) then insert_at (m_cursor_x t) (mkEntry ch col)
   else modify (fun t => set_m_cur_line (m_cur_line t ++ [mkEntry ch col]) t)) ;;
  modify (set_m_cursor_x (u32 (m_cursor_x t + 1))).
(** [put_char], with what it does with a tabulation as an argument. *)
Definition put_char_with (tab : op unit) (ch : Z) : op unit :=
  t ← get;
  if m_escape_code t then escape_char ch
  else
    (if ch =? ESC then modify (set_m_escape_code true) ;; modify (set_m_expecting_bracket true)
     else if ch =? LF then new_line
     else if ch =? CR then modify (set_m_cursor_x 0)
     else if ch =? BS then backspace
     else if ch =? TAB then tab
     else if ch =? BEL then send (Beep 200)
     else put_glyph ch) ;;
    check_pos.
Definition put_char : Z -> op unit :=
  put_char_with (for_each (replicate tab_size space) (put_char_with (mret tt))).

(** The loop of [write], on the bytes of the text. *)
Definition write_byte (byte : Z) : op unit :=
  modify (fun t => set_m_decoder (feed (u8 byte) (m_decoder t)) t) ;;
  t ← get;
  when (ready (m_decoder t))
    (let '(ch, d) := spit (m_decoder t) in modify (set_m_decoder d) ;; put_char ch).
Definition write (data : list Z) : op unit := for_each data write_byte.
Definition write_string (data : list Z) : op unit := write (c_str data).

(** ** The input line *)

Definition switch_to_input : op unit :=
  t ← get;
  when (negb (m_line_is_input t)) (modify (set_m_line_is_input true) ;; modify (set_m_input_off (m_cursor_x t))).
Definition add_input (ch : Z) : op unit := t ← get; when (m_accept_input t) (switch_to_input ;; put_char ch).
(** One turn of the loop of [clear_input] and [set_input]. *)
Definition pop_entry : op unit :=
  modify (fun t => set_m_cur_line (removelast (m_cur_line t)) t) ;;
  t ← get; when (0 <? m_cursor_x t) (modify (set_m_cursor_x (m_cursor_x t - 1))).
Definition pop_input : op unit :=
  t ← get; for_each (seq 0 (length (m_cur_line t) - Z.to_nat (m_input_off t))) (fun _ => pop_entry).
Definition clear_input : op unit := pop_input ;; force_redraw_input.
Definition set_input (str : list Z) : op unit := pop_input ;; switch_to_input ;; write_string str ;; force_redraw_input.
Definition forward_delete : op unit :=
  t ← get; when (m_cursor_x t <? Z.of_nat (length (m_cur_line t))) (erase_at (m_cursor_x t)).
(** [move_cursor(int offset)], the keys of the arrows. *)
Definition move_cursor (offset : Z) : op unit :=
  modify (fun t => set_m_cursor_x (u32 (m_cursor_x t + offset)) t) ;;
  modify (fun t => if m_cursor_x t <? m_input_off t then set_m_cursor_x (m_input_off t) t else t) ;;
  modify (fun t => if Z.of_nat (length (m_cur_line t)) <? m_cursor_x t then set_m_cursor_x (Z.of_nat (length (m_cur_line t))) t else t).
Definition set_input_color (pos sz : Z) (col : ColorPair) : op unit :=
  t ← get;
  when (m_accept_input t)
    (let from := Z.to_nat (u32 (m_input_off t + pos)) in
     let upto := Z.to_nat (u32 (m_input_off t + pos + sz)) in
     modify (fun t => set_m_cur_line
       (imap (fun i e => if (from <=? i)%nat && (i <? upto)%nat then mkEntry (c e) col else e) (m_cur_line t)) t) ;;
     force_redraw_input).
Definition set_accept_input (val : bool) : op unit := modify (set_m_accept_input val).
Definition enable : op unit := modify (set_m_enabled true).
Definition disable : op unit := modify (set_m_enabled false) ;; on_dev (fun d => Done (disable_impl d)).
Definition set_scrolling (enabled : bool) : op unit := modify (set_m_scrolling enabled).

(** What [create_term] does with the new terminal. *)
Definition start : op unit :=
  t ← get; set_title (title_str (m_data t)) (title_color (m_data t)) ;; scroll_bottom ;; force_redraw.
End terminal.
Arguments Terminal D : clear implicits.
End Terminal.
