(* ===== verification/TerminalProofs.v ===== *)
(** * TerminalProofs: the terminal stays on the screen

    The invariant of the terminal, that every operation keeps it, and that none of them draws
    outside of the display. *)
From stdpp Require Import base list.
From Stdlib Require Import ZArith Lia.
From S2P Require Import Prelude Hoare Strto Paths CircularBuffer Utf8 Terminal.
Import Terminal.

Module TerminalProofs.
Section proofs.
Context {D : Type} `{Display D} {w h : Z} `{!DisplayBounds D w h} (Hw : w < 2 ^ 31) (Hh : h < 2 ^ 31).
Implicit Types (t : Terminal D).

(** ** The invariant *)

(** What holds even while the cursor is past the end of the screen. *)
Record base t : Prop := {
  b_width : 0 < m_width t <= w;
  b_title : 0 <= title_height (m_data t) < m_height t;
  b_height : m_height t <= h;
  b_x : 0 <= m_cursor_x t <= Z.of_nat (length (m_cur_line t));
  b_y : 0 <= m_cursor_y t;
  b_off : 0 <= m_input_off t;
  b_dirty : Z.of_nat (length (m_dirty_width_per_line t)) = m_height t;
  b_widths : Forall (fun n => 0 <= n <= w) (m_dirty_width_per_line t);
  b_colors : color_stack (m_data t) <> [];
  b_hist : exists hist, CircularBuffer.holds (m_buffer (m_data t)) hist;
  b_ok : ok (dev t);
}.
Record tinv t : Prop := {
  i_base : base t;
  i_x : m_cursor_x t < m_width t;
  i_y : m_cursor_y t < m_height t - title_height (m_data t);
}.

(** What drawing does not change. *)
Definition shape t :=
  (m_cursor_x t, m_cursor_y t, m_width t, m_height t, m_current_history_page t, m_enabled t, m_scrolling t, m_line_is_input t,
   m_input_off t, m_accept_input t, m_escape_code t, m_expecting_bracket t, m_escape_sequence t, m_cur_line t, m_decoder t,
   m_data t, sent t).
Definition widths_ok t : Prop :=
  Z.of_nat (length (m_dirty_width_per_line t)) = m_height t /\ Forall (fun n => 0 <= n <= w) (m_dirty_width_per_line t).

Ltac shape_facts E := unfold shape in E; injection E as ?????????????????.
Lemma base_shape t t' : base t -> shape t' = shape t -> widths_ok t' -> ok (dev t') -> base t'.
Proof.
  destruct t, t'. unfold shape, widths_ok. cbn. intros [] E [] ?. cbn in *. simplify_eq. split; cbn; done || lia.
Qed.
Lemma tinv_shape t t' : tinv t -> shape t' = shape t -> widths_ok t' -> ok (dev t') -> tinv t'.
Proof.
  intros [B X Y] E W O. split; [by apply (base_shape t)| |]; unfold shape in E; simplify_eq; congruence.
Qed.
Lemma base_widths t : base t -> widths_ok t.
Proof. by intros []. Qed.
Lemma height_eq t : base t -> height t = m_height t - title_height (m_data t).
Proof. intros []. unfold height. apply uwrap_small. lia. Qed.

(** ** Drawing *)

(** [m] only draws. *)
Definition draws (P : Terminal D -> Prop) (m : op (D := D) unit) : Prop :=
  forall t, base t -> P t -> wp m (fun _ t' => base t' /\ shape t' = shape t) t.

Lemma wp_on_dev f (Q : unit -> Terminal D -> Prop) t d : f (dev t) = Done d -> Q tt (set_dev d t) -> wp (on_dev f) Q t.
Proof. unfold wp, on_dev. by intros ->. Qed.
Lemma wp_on_data {A} (f : TerminalData -> outcome A) (Q : A -> Terminal D -> Prop) t v :
  f (m_data t) = Done v -> Q v t -> wp (on_data f) Q t.
Proof. unfold wp, on_data. by intros ->. Qed.
Lemma wp_color (Q : ColorPair -> Terminal D -> Prop) t : base t -> (forall p, hd_error (color_stack (m_data t)) = Some p -> Q p t) -> wp color Q t.
Proof.
  intros B HQ. unfold color. pose proof (b_colors t B) as N. destruct (color_stack (m_data t)) as [|p l] eqn:E; [done|].
  eapply wp_on_data; [by rewrite E|]. by apply HQ.
Qed.
Lemma draw_dev t d : base t -> ok d -> base (set_dev d t) /\ shape (set_dev d t) = shape t.
Proof. intros B O. split; [|done]. apply (base_shape t); [done|done|by apply base_widths in B|done]. Qed.
Lemma draw_dirty t v : base t -> base (set_m_dirty v t).
Proof. intros B. apply (base_shape t); [done|done|by apply base_widths in B|by destruct B]. Qed.

Lemma set_entry_at_draws e x y absolute :
  draws (fun t => 0 <= x < m_width t /\ 0 <= y) (set_entry_at e x y absolute).
Proof.
  intros t B [Hx Hy]. unfold set_entry_at. wp_steps. apply wp_when; [|done]. intros [_ Hb%Z.ltb_lt]%andb_true_iff.
  rewrite height_eq in Hb by done. wp_step. pose proof B as []. 
  assert (R : 0 <= u32 (y + (if absolute then 0 else title_height (m_data t))) < h) by (destruct absolute; usimp; lia).
  destruct (putchar_ok x _ e (dev t) b_ok0 ltac:(lia) R) as (d & E & O). eapply wp_on_dev; [exact E|]. wp_steps.
  destruct (draw_dev t d B O) as [B' S']. split; [by apply draw_dirty|done].
Qed.
Lemma clear_line_draws y col n : draws (fun _ => 0 <= y < h /\ 0 <= n <= w) (on_dev (clear_line y col n)).
Proof.
  intros t B [Hy Hn]. destruct (clear_line_ok y col n (dev t) (b_ok t B) Hy Hn) as (d & E & O).
  eapply wp_on_dev; [exact E|]. by apply draw_dev.
Qed.
Lemma draw_draws : draws (fun _ => True) draw.
Proof.
  intros t B _. unfold draw. wp_steps. apply wp_when; [|done]. intros _. wp_steps. eapply wp_on_dev; [done|].
  apply (draw_dev (set_m_dirty false t)); [by apply draw_dirty|]. apply draw_ok, B.
Qed.
Lemma update_cursor_draws : draws (fun t => m_cursor_x t < m_width t /\ m_cursor_y t < m_height t - title_height (m_data t)) update_cursor.
Proof.
  intros t B [Hx Hy]. unfold update_cursor. wp_steps. eapply wp_on_dev; [done|]. apply draw_dev; [done|]. pose proof B as [].
  apply place_cursor_ok; [done|lia|usimp; lia].
Qed.

Lemma wp_seq_draws (m : op (D := D) unit) (k : unit -> op unit) P Q t :
  draws P m -> base t -> P t -> (forall t', base t' -> shape t' = shape t -> wp (k tt) Q t') -> wp (m ≫= k) Q t.
Proof. intros Hm B Hp Hk. wp_step. eapply wp_mono; [by apply Hm|]. cbn. intros [] t' [B' S']. auto. Qed.
Lemma for_each_draws {A} (l : list A) body t : base t ->
  (forall x s, x ∈ l -> base s -> shape s = shape t -> wp (body x) (fun _ s' => base s' /\ shape s' = shape s) s) ->
  wp (for_each l body) (fun _ s' => base s' /\ shape s' = shape t) t.
Proof.
  intros B Hb. apply (wp_for_each body (fun s => base s /\ shape s = shape t)); [|done].
  intros x s Hx [Bs Ss]. eapply wp_mono; [by apply Hb|]. cbn. intros _ s' [Bs' Ss']. split; [done|congruence].
Qed.

(** The cursor after [check_pos]. *)
Definition clamped t : Terminal D :=
  set_m_cursor_x (Z.min (m_cursor_x t) (m_width t - 1)) (set_m_cursor_y (Z.min (m_cursor_y t) (m_height t - title_height (m_data t) - 1)) t).
Lemma clamped_tinv t : base t -> tinv (clamped t).
Proof. intros B. pose proof B as []. split; [split; cbn; done || lia|cbn; lia|cbn; lia]. Qed.
Lemma clamped_id t : tinv t -> clamped t = t.
Proof. intros [_ X Y]. unfold clamped. rewrite !Z.min_l by lia. by destruct t. Qed.
Lemma tinv_of_base t t' : tinv t -> base t' -> shape t' = shape t -> tinv t'.
Proof. intros I B S. apply (tinv_shape t); [done|done|by apply base_widths|by destruct B]. Qed.

Lemma check_pos_wp t : base t -> wp check_pos (fun _ t' => tinv t' /\ shape t' = shape (clamped t)) t.
Proof.
  intros B. unfold check_pos. wp_steps. rewrite height_eq by done. pose proof B as [].
  assert (E : forall Q : unit -> Terminal D -> Prop, wp update_cursor Q (clamped t) ->
    wp (when (m_height t - title_height (m_data t) <=? m_cursor_y t) (modify (set_m_cursor_y (u32 (m_height t - title_height (m_data t) - 1)))))
      (fun _ => wp (when (width t <=? m_cursor_x t) (modify (set_m_cursor_x (u32 (width t - 1)))) ;; update_cursor) Q) t).
  { intros Q HQ. unfold width in *. rewrite !uwrap_small by lia. unfold clamped in HQ.
    destruct (Z.leb_spec (m_height t - title_height (m_data t)) (m_cursor_y t)); cbn [when];
      [rewrite (Z.min_r (m_cursor_y t)) in HQ by lia|rewrite (Z.min_l (m_cursor_y t)) in HQ by lia]; wp_steps;
      (destruct (Z.leb_spec (m_width t) (m_cursor_x t)); cbn [when];
      [rewrite Z.min_r in HQ by lia|rewrite Z.min_l in HQ by lia]; wp_steps); try done; destruct t; done. }
  apply E. destruct (clamped_tinv t B) as [B' X Y]. eapply wp_mono; [by apply (update_cursor_draws (clamped t) B')|].
  cbn. intros _ t' [B1 S1]. split; [|done]. by apply (tinv_of_base (clamped t)).
Qed.
Lemma check_pos_tinv t : tinv t -> wp check_pos (fun _ t' => tinv t' /\ shape t' = shape t) t.
Proof. intros I. eapply wp_mono; [apply check_pos_wp, I|]. by rewrite clamped_id. Qed.


Lemma force_redraw_input_wp t : base t -> wp force_redraw_input (fun _ t' => tinv t' /\ shape t' = shape (clamped t)) t.
Proof.
  intros B. unfold force_redraw_input. wp_step. eapply wp_mono; [by apply check_pos_wp|]. cbn. intros _ t1 [I1 S1].
  pose proof (i_base _ I1) as B1. pose proof B1 as []. destruct I1 as [_ X Y]. wp_steps. apply wp_color; [done|]. intros p _. wp_step.
  eapply wp_mono; [apply clear_line_draws; [done|]|].
  { unfold width, true_height. usimp. lia. }
  cbn. intros _ t2 [B2 S2]. wp_step. eapply wp_mono.
  { apply for_each_draws; [done|]. intros [i e] s Hin Bs Ss. apply (set_entry_at_draws e i); [done|].
    unfold with_index in Hin. apply elem_of_lookup_imap in Hin as (k & x & [= -> ->] & Hk).
    apply lookup_lt_Some in Hk. rewrite length_take in Hk. rewrite S2 in Ss. shape_facts Ss. unfold width in Hk. lia. }
  cbn. intros _ t3 [B3 S3]. eapply wp_mono; [by apply draw_draws|]. cbn. intros _ t4 [B4 S4].
  assert (S : shape t4 = shape t1) by congruence. split; [|congruence]. apply (tinv_of_base t1); [by split|done|done].
Qed.
Lemma force_redraw_input_tinv t : tinv t -> wp force_redraw_input (fun _ t' => tinv t' /\ shape t' = shape t) t.
Proof. intros I. eapply wp_mono; [apply force_redraw_input_wp, I|]. by rewrite clamped_id. Qed.

(** ** The history *)

Lemma split_entry_width width entry : 0 < width -> forall row, Z.of_nat (length row) < width ->
  Forall (fun r => Z.of_nat (length r) <= width) (split_entry width entry row).
Proof.
  intros Hp. induction entry as [|e entry IH]; intros row Hr; cbn [split_entry]; [by constructor; [lia|]|].
  assert (L : Z.of_nat (length (row ++ [e])) = Z.of_nat (length row) + 1) by (rewrite length_app; cbn; lia).
  destruct (Z.leb_spec width (Z.of_nat (length (row ++ [e])))); [constructor; [lia|apply IH; cbn; lia]|apply IH; lia].
Qed.
Lemma screen_loop_rows buf hist width height : CircularBuffer.holds buf hist -> 0 < width -> forall n i vec,
  0 <= i -> i + Z.of_nat n <= CircularBuffer.size buf -> Forall (fun r => Z.of_nat (length r) <= width) vec ->
  exists screen, screen_loop n width height i buf vec = Done screen /\ Forall (fun r => Z.of_nat (length r) <= width) screen.
Proof.
  intros Hb Hp. induction n as [|n IH]; intros i vec Hi Hn Hv; cbn [screen_loop]; [eauto|].
  destruct (_ <? height); [|eauto]. destruct (CircularBuffer.holds_spec buf hist Hb) as [_ G].
  destruct (G i ltac:(lia)) as (x & _ & E). rewrite E. cbn. apply IH; [lia|lia|].
  apply Forall_app. split; [done|]. apply split_entry_width; [done|cbn; lia].
Qed.
Lemma get_screen_rows t ht offset : base t -> 0 <= offset ->
  exists screen, get_screen (m_width t) ht offset (m_data t) = Done screen /\
    Forall (fun r => Z.of_nat (length r) <= m_width t) screen.
Proof.
  intros [] Ho. destruct b_hist0 as [hist Hb]. unfold get_screen. set (bound := Z.min _ _).
  assert (L : bound <= CircularBuffer.size (m_buffer (m_data t))) by (unfold bound, lines; lia).
  destruct (decide (offset <= bound)).
  - eapply screen_loop_rows; [done|lia|done|lia|done].
  - replace (Z.to_nat (bound - offset)) with 0%nat by lia. cbn. eauto.
Qed.

Lemma clear_line_before_write_draws y col n :
  draws (fun t => 0 <= y < m_height t /\ 0 <= n <= w) (clear_line_before_write y col n).
Proof.
  intros t B [Hy Hn]. unfold clear_line_before_write, set_dirty_width. pose proof B as [].
  destruct (lookup_lt_is_Some_2 (m_dirty_width_per_line t) (Z.to_nat y) ltac:(lia)) as [v Hv].
  pose proof (Forall_lookup_1 _ _ _ _ b_widths0 Hv) as Rv. cbn in Rv.
  wp_step. eapply wp_intro; [unfold dirty_width_at; rewrite Hv; done|]. wp_step.
  eapply wp_mono; [apply (clear_line_draws y col); [done|lia]|]. cbn. intros _ t1 [B1 S1].
  pose proof B1 as []. pose proof S1 as S1'. shape_facts S1'.
  destruct (lookup_lt_is_Some_2 (m_dirty_width_per_line t1) (Z.to_nat y) ltac:(lia)) as [v1 Hv1].
  wp_step. eapply wp_intro; [unfold dirty_width_at; rewrite Hv1; done|]. wp_steps. split; [|done].
  apply (base_shape t1); [done|done| |done]. split; cbn; [by rewrite length_insert|by apply Forall_insert].
Qed.
Lemma show_row_draws col i row :
  draws (fun t => 0 <= i < m_height t - title_height (m_data t) /\ Z.of_nat (length row) <= m_width t) (show_row col i row).
Proof.
  intros t B [Hi Hr]. unfold show_row. wp_step. wp_step. pose proof B as []. wp_step.
  eapply wp_mono; [apply clear_line_before_write_draws; [done|usimp; lia]|]. cbn. intros _ t1 [B1 S1].
  rewrite <- S1. apply for_each_draws; [done|]. intros [j e] s Hin Bs Ss. apply set_entry_at_draws; [done|].
  apply elem_of_lookup_imap in Hin as (k & x & [= -> ->] & Hk). apply lookup_lt_Some in Hk.
  rewrite S1 in Ss. shape_facts Ss. lia.
Qed.

Lemma limit_page_range page t : - 2 ^ 31 <= page < 2 ^ 31 -> 0 <= limit_page page t < 2 ^ 31.
Proof.
  intros Hp. unfold limit_page. pose proof (uwrap_range 32 (lines (m_data t) - height t + 1) ltac:(lia)) as R. revert R.
  generalize (u32 (lines (m_data t) - height t + 1)). intros limit R.
  destruct (Z.ltb_spec page 0), (Z.ltb_spec limit 0), (Z.ltb_spec limit page); try lia; rewrite swrap_small by lia; lia.
Qed.

(** The rows of the history are drawn, then the line of the input. *)
Definition paged page t : Terminal D := set_m_current_history_page page t.
Lemma paged_tinv page t : tinv t -> tinv (paged page t).
Proof. intros [[] X Y]. split; [split|..]; done. Qed.
(** The page after [show_history]. *)
Definition scrolled page t : Terminal D := if m_scrolling t then paged (u32 (limit_page page t)) t else t.
Lemma scrolled_tinv page t : tinv t -> tinv (scrolled page t).
Proof. unfold scrolled. destruct (m_scrolling t); [apply paged_tinv|done]. Qed.
Lemma show_history_tinv page t : - 2 ^ 31 <= page < 2 ^ 31 -> tinv t ->
  wp (show_history page) (fun _ t' => tinv t' /\ shape t' = shape (scrolled page t)) t.
Proof.
  intros Hp I. unfold show_history, scrolled. wp_steps. destruct (m_scrolling t); [|done]. cbn [when].
  pose proof (limit_page_range page t Hp) as Lp. set (lp := limit_page page t) in *. wp_steps.
  fold (paged (u32 lp) t). pose proof (paged_tinv (u32 lp) t I) as I1. set (t1 := paged _ t) in *. pose proof (i_base _ I1) as B1.
  destruct (get_screen_rows t1 (height t) (u32 lp) B1 ltac:(usimp; lia)) as (screen & Es & Rs).
  eapply wp_on_data; [exact Es|]. cbn. wp_step. apply wp_color; [done|]. intros col _. wp_step.
  eapply wp_mono.
  { apply for_each_draws; [done|]. intros [i row] s Hin Bs Ss. apply show_row_draws; [done|].
    apply elem_of_lookup_imap in Hin as (k & x & [= -> ->] & Hk). apply lookup_take_Some in Hk as [Hk Lk].
    pose proof (Forall_lookup_1 _ _ _ _ Rs Hk) as R. cbn in R. shape_facts Ss. cbn in *. unfold true_height in Lk. 
    replace (m_height s) with (m_height t). replace (m_width s) with (m_width t). replace (m_data s) with (m_data t). lia. }
  cbn. intros _ t2 [B2 S2]. assert (I2 : tinv t2) by (by apply (tinv_of_base t1)).
  eapply wp_mono; [by apply force_redraw_input_tinv|]. cbn. intros _ t3 [I3 S3]. split; [done|]. by rewrite S3, S2.
Qed.
Lemma scroll_history_tinv scroll t : tinv t ->
  wp (scroll_history scroll) (fun _ t' => tinv t' /\ shape t' = shape (scrolled (s32 (u32 (current_history t + scroll))) t)) t.
Proof.
  intros I. unfold scroll_history. wp_steps. eapply wp_mono; [apply show_history_tinv; [apply (swrap_range 32); lia|done]|].
  cbn. intros _ t1 [I1 S1]. eapply wp_mono; [by apply draw_draws; [apply I1|]|]. cbn. intros _ t2 [B2 S2].
  split; [by apply (tinv_of_base t1)|]. by rewrite S2, S1.
Qed.

(** ** The other operations keep the invariant *)

Definition keeps {A} (m : op (D := D) A) : Prop := forall t, tinv t -> wp m (fun _ t' => tinv t') t.

Lemma tkeeps_bind {A B} (m : op A) (k : A -> op B) : keeps m -> (forall a, keeps (k a)) -> keeps (m ≫= k).
Proof. intros Hm Hk t I. wp_step. eapply wp_mono; [by apply Hm|]. cbn. intros a t' I'. by apply Hk. Qed.
Lemma keeps_get {B} (k : Terminal D -> op B) : (forall t, tinv t -> wp (k t) (fun _ t' => tinv t') t) -> keeps (get ≫= k).
Proof. intros Hk t I. wp_steps. by apply Hk. Qed.
Lemma tkeeps_when b m : keeps m -> keeps (when b m).
Proof. intros Hm t I. apply wp_when; [intros _; by apply Hm|done]. Qed.
Lemma tkeeps_for_each {A} (l : list A) body : (forall x, x ∈ l -> keeps (body x)) -> keeps (for_each l body).
Proof. intros Hb t I. apply wp_for_each; [|done]. intros x s Hx Is. by apply Hb. Qed.
Lemma keeps_modify f : (forall t, tinv t -> tinv (f t)) -> keeps (modify f).
Proof. intros Hf t I. wp_steps. by apply Hf. Qed.
Lemma keeps_color : keeps color.
Proof. intros t I. apply wp_color; [apply I|done]. Qed.
Lemma keeps_draws P m : draws P m -> (forall t, tinv t -> P t) -> keeps m.
Proof. intros Hm Hp t I. eapply wp_mono; [apply Hm; [apply I|by apply Hp]|]. cbn. intros _ t' [B S]. by apply (tinv_of_base t). Qed.
Lemma keeps_check_pos : keeps check_pos.
Proof. intros t I. eapply wp_mono; [by apply check_pos_tinv|]. by intros _ t' []. Qed.
Lemma keeps_force_redraw_input : keeps force_redraw_input.
Proof. intros t I. eapply wp_mono; [by apply force_redraw_input_tinv|]. by intros _ t' []. Qed.
Lemma keeps_show_history page : - 2 ^ 31 <= page < 2 ^ 31 -> keeps (show_history page).
Proof. intros Hp t I. eapply wp_mono; [by apply show_history_tinv|]. by intros _ t' []. Qed.
Lemma keeps_scroll_history scroll : keeps (scroll_history scroll).
Proof. intros t I. eapply wp_mono; [by apply scroll_history_tinv|]. by intros _ t' []. Qed.
Lemma keeps_draw : keeps draw.
Proof. by apply (keeps_draws _ _ draw_draws). Qed.
Lemma keeps_update_cursor : keeps update_cursor.
Proof. apply (keeps_draws _ _ update_cursor_draws). by intros t []. Qed.

(** Updates of fields the invariant does not mention. *)
Ltac tinv_update := intros; match goal with I : tinv _ |- _ => destruct I as [[] ? ?] end; split; [split|..]; cbn; done || lia.
Lemma tinv_data f t :
  title_height (f (m_data t)) = title_height (m_data t) -> color_stack (f (m_data t)) <> [] ->
  (exists hist, CircularBuffer.holds (m_buffer (f (m_data t))) hist) -> tinv t -> tinv (set_m_data (f (m_data t)) t).
Proof. intros E C Hb [[] X Y]. split; [split|..]; cbn; rewrite ?E; done. Qed.

Lemma keeps_scroll_bottom : keeps scroll_bottom.
Proof.
  apply keeps_get. intros t I. wp_step. eapply wp_mono; [apply keeps_show_history; [apply (swrap_range 32); lia|done]|].
  cbn. intros _ t1 I1. wp_steps. apply keeps_check_pos. rewrite height_eq by apply I1. destruct I1 as [[] ? ?].
  split; [split|..]; cbn; try done; rewrite uwrap_small by lia; lia.
Qed.

Lemma title_offset wd n i : 0 <= n <= wd -> 0 <= i < n -> 0 <= wd / 2 - n / 2 + i < wd.
Proof. intros. Z.div_mod_to_equations. lia. Qed.
Lemma keeps_set_title str col : keeps (set_title str col).
Proof.
  apply keeps_get. intros t I. wp_steps. set (t1 := set_m_data _ t).
  assert (I1 : tinv t1) by (apply (tinv_data (set_title_of str col)); [done|apply I|apply I|done]). pose proof I1 as [B1 _ _].
  assert (W : forall s, shape s = shape t1 -> m_width s = m_width t /\ m_height s = m_height t) by (intros s E; shape_facts E; done).
  pose proof (i_base t I) as []. unfold width. cbv zeta. set (str' := if _ <=? _ then _ else _).
  assert (L : Z.of_nat (length str') <= m_width t) by (unfold str'; destruct (Z.leb_spec (m_width t) (Z.of_nat (length str))); rewrite ?length_take; lia).
  wp_step. eapply wp_mono.
  { apply for_each_draws; [done|]. intros j s Hj Bs Ss. apply clear_line_draws; [done|]. apply elem_of_seqZ in Hj. lia. }
  cbn. intros _ t2 [B2 S2]. wp_step. eapply wp_mono.
  { apply for_each_draws; [done|]. intros [i ch] s Hi Bs Ss. apply set_entry_at_draws; [done|].
    apply elem_of_lookup_imap in Hi as (k & x & [= -> ->] & Hk). apply lookup_lt_Some in Hk. rewrite S2 in Ss.
    destruct (W s Ss) as [-> _]. pose proof (title_offset (m_width t) (Z.of_nat (length str')) (Z.of_nat k) ltac:(lia) ltac:(lia)) as O.
    pose proof (title_offset (m_width t) (Z.of_nat (length str')) 0 ltac:(lia) ltac:(lia)). rewrite (uwrap_small 32 (_ / 2 - _)) by lia. usimp. lia. }
  cbn. intros _ t3 [B3 S3]. apply keeps_draw. apply (tinv_of_base t1); [done|done|congruence].
Qed.
Lemma keeps_force_redraw : keeps force_redraw.
Proof.
  apply tkeeps_bind; [apply keeps_update_cursor|]. intros _. apply keeps_get. intros t I. apply tkeeps_bind; [|intros _|done].
  { apply keeps_show_history. apply (swrap_range 32). lia. }
  apply tkeeps_bind; [apply keeps_force_redraw_input|]. intros _. apply keeps_get. intros t' I'. by apply keeps_set_title.
Qed.

(** [clear] and [resize]: the cursor goes back to the start. *)
Definition cleared t : Terminal D :=
  let t := set_m_cur_line [] (set_m_current_history_page 0 (set_m_cursor_x 0 (set_m_cursor_y 0 t))) in
  set_m_decoder (Utf8.reset (m_decoder t)) t.
Lemma cleared_tinv t : tinv t -> tinv (cleared t).
Proof. tinv_update. Qed.
Lemma clear_with_wp col t : tinv t -> wp (clear_with col) (fun _ t' => tinv t' /\ shape t' = shape (cleared t)) t.
Proof.
  intros I. unfold clear_with. wp_steps. match goal with |- context [set_m_decoder ?v ?s] => change (set_m_decoder v s) with (cleared t) end. pose proof (cleared_tinv t I) as Ic. pose proof (i_base _ Ic) as [].
  eapply wp_mono.
  { apply for_each_draws; [apply Ic|]. intros j s Hj Bs Ss. apply clear_line_draws; [done|]. apply elem_of_seqZ in Hj.
    unfold true_height, width in *. lia. }
  cbn. intros _ t1 [B1 S1]. wp_steps. set (t2 := set_m_dirty true _).
  assert (B2 : base t2).
  { apply (base_shape t1); [done|done| |apply B1]. pose proof B1 as []. unfold t2, widths_ok. cbn. rewrite length_fmap. split; [done|].
    apply Forall_fmap, Forall_true. intros x. cbn. unfold width. lia. }
  eapply wp_mono; [by apply draw_draws|]. cbn. intros _ t3 [B3 S3]. assert (S : shape t3 = shape (cleared t)) by (rewrite S3, <- S1; done).
  split; [by apply (tinv_of_base (cleared t))|done].
Qed.
Lemma keeps_clear_with col : keeps (clear_with col).
Proof. intros t I. eapply wp_mono; [by apply clear_with_wp|]. by intros _ t' []. Qed.

Lemma resize_tinv iw ih t : tinv t -> 0 < iw <= w -> title_height (m_data t) < ih <= h -> wp (resize iw ih) (fun _ t' => tinv t') t.
Proof.
  intros I Hiw Hih. pose proof (i_base _ I) as []. unfold resize. wp_step. apply wp_assert; [unfold Ztrue; lia|].
  wp_step. unfold reset. wp_step. eapply wp_mono; [by apply clear_with_wp|]. cbn. intros _ t1 [I1 S1]. wp_steps. set (t2 := set_m_dirty_width_per_line _ _).
  assert (I2 : tinv t2).
  { pose proof (i_base _ I1) as []. shape_facts S1. cbn in *. assert (Ed : title_height (m_data t1) = title_height (m_data t)) by congruence.
    split; [split|..]; cbn; try done; try lia.
    - rewrite length_resize. lia.
    - unfold width. cbn. apply Forall_resize; [lia|done]. }
  eapply wp_mono; [by apply keeps_set_title|]. cbn. intros _ t3 I3. wp_step. eapply wp_mono; [by apply keeps_check_pos|].
  cbn. intros _ t4 I4. by apply keeps_force_redraw.
Qed.

(** The escape codes. *)
Lemma keeps_stoul s : keeps (stoul s).
Proof.
  intros t I. unfold stoul, Strto.strtoul, Strto.with_result, Strto.strtoll, Strto.strtoll_gen. cbn [Z.eqb negb andb].
  destruct (Strto.parse_sign _) as [neg s1]. destruct (Strto.parse_prefix _ _) as [b2 s2]. by destruct (Strto.parse_digits _ _ _ _).
Qed.
Lemma keeps_push p : keeps (modify (fun t => set_m_data (push_color p (m_data t)) t)).
Proof. apply keeps_modify. intros t I. apply (tinv_data (push_color p)); [done|done|apply I|done]. Qed.
Lemma keeps_process_escape_code : keeps process_escape_code.
Proof.
  apply keeps_get. intros t I. cbv zeta. generalize (Paths.tokenize (m_escape_sequence t) [semicolon] false). intros l.
  destruct l as [|p0 [|p1 [|p2 [|p3 [|p4 [|]]]]]]; try done.
  - apply wp_when; [|done]. intros _. apply wp_when; [|done]. intros L%Z.ltb_lt. wp_steps.
    apply (tinv_data pop_color); [done| |apply I|done]. cbn. destruct (color_stack (m_data t)) as [|q [|]]; cbn in *; lia || done.
  - assert (K : forall m : ColorPair -> Z -> Z -> Z -> op unit, (forall a b c d, keeps (m a b c d)) ->
      keeps (col ← color; vr ← stoul p2; vg ← stoul p3; vb ← stoul p4; m col vr vg vb)).
    { intros m Hm. apply tkeeps_bind; [apply keeps_color|]. intros col. do 3 (apply tkeeps_bind; [apply keeps_stoul|]; intros ?). apply Hm. }
    apply tkeeps_bind; [apply tkeeps_when|intros _; apply tkeeps_when|done]; apply (K _ (fun _ _ _ _ => keeps_push _)).
Qed.

(** The characters. *)
Lemma keeps_add_line : keeps add_line_to_history.
Proof.
  apply keeps_get. intros t I. wp_step. pose proof (i_base _ I) as []. destruct b_hist0 as [hist Hb].
  destruct (CircularBuffer.add_holds (m_cur_line t) _ _ Hb) as (b & E & Hb' & _).
  eapply (wp_on_data _ _ _ (set_m_buffer b (m_data t))); [unfold add_line; by rewrite E|]. wp_steps.
  apply (tinv_data (set_m_buffer b)); [done|done|by eauto|done].
Qed.
(** The end of [new_line], on a cursor that is at the start of its row. *)
Definition at_start t : Prop := tinv t /\ m_cursor_x t = 0.
(** The state before the scroll of [new_line], once the line is in the history. *)
Definition next_row t : Terminal D := clamped (set_m_cursor_y (u32 (m_cursor_y t + 1)) (set_m_cursor_x 0 t)).
Definition next_page t : Terminal D := scrolled (s32 (u32 (current_history t + 1))) (next_row t).
Lemma next_page_x t : base t -> m_cursor_x (next_page t) = 0.
Proof. intros []. unfold next_page, scrolled. destruct (m_scrolling _); cbn; lia. Qed.
Lemma new_line_scroll (k : op unit) Q t : tinv t -> (forall t', at_start t' -> shape t' = shape (next_page t) -> wp k Q t') ->
  wp (modify (set_m_cursor_x 0) ;; modify (fun t => set_m_cursor_y (u32 (m_cursor_y t + 1)) t) ;; check_pos ;; scroll_up ;; k) Q t.
Proof.
  intros I Hk. wp_steps. set (t1 := set_m_cursor_y _ _).
  assert (B1 : base t1).
  { pose proof (i_base _ I) as []. split; cbn; try done; try lia. apply (uwrap_range 32). lia. }
  eapply wp_mono; [by apply check_pos_wp|]. cbn. intros _ t2 [I2 S2]. wp_step. eapply wp_mono; [by apply scroll_history_tinv|].
  cbn. intros _ t3 [I3 S3]. assert (E : shape t3 = shape (next_page t)).
  { rewrite S3. unfold next_page, next_row, scrolled, limit_page, current_history, height. fold t1. pose proof S2 as S2'. shape_facts S2'.
    assert (m_scrolling t2 = m_scrolling t) as -> by done. assert (m_data t2 = m_data t) as -> by done.
    assert (m_height t2 = m_height t) as -> by done. assert (m_current_history_page t2 = m_current_history_page t) as -> by done.
    cbn. destruct (m_scrolling t); [|exact S2]. clear -S2. destruct t2. unfold shape in *. cbn in *. congruence. }
  apply Hk; [|done]. split; [done|]. shape_facts E. rewrite <- (next_page_x t); [done|apply I].
Qed.
Lemma new_line_event t0 t : at_start t -> m_cursor_y t0 = m_cursor_y t -> 
  wp (when (m_line_is_input t) (modify (set_m_line_is_input false) ;; send (TermInputEvent (input t0)) ;; set_dirty_width (m_cursor_y t0) 0))
    (fun _ t' => at_start t' /\ m_cursor_y t' = m_cursor_y t /\ m_width t' = m_width t /\ m_data t' = m_data t /\
      m_current_history_page t' = m_current_history_page t) t.
Proof.
  intros [I X0] ->. apply wp_when; [|done]. intros _. wp_steps. unfold send, set_dirty_width. wp_steps. pose proof (i_base _ I) as []. pose proof (i_y _ I).
  set (t4 := set_sent _ _). destruct (lookup_lt_is_Some_2 (m_dirty_width_per_line t4) (Z.to_nat (m_cursor_y t))) as [v Hv]; [cbn; lia|].
  eapply wp_intro; [unfold dirty_width_at; rewrite Hv; done|]. wp_steps. split; [|done]. split; [|done].
  destruct I as [[] ? ?]. split; [split|..]; cbn; try done; [by rewrite length_insert|]. apply Forall_insert; [done|lia].
Qed.
Lemma keeps_new_line : keeps new_line.
Proof.
  apply tkeeps_bind; [apply keeps_add_line|]. intros _ t I.
  apply new_line_scroll; [done|]. intros t3 A3 _. wp_steps. eapply wp_mono; [by apply new_line_event|]. cbn. intros _ t5 ([I5 X5] & Y5 & W5 & _).
  pose proof (i_base _ I5) as B5. wp_step. apply wp_color; [done|]. intros col _. wp_step.
  eapply wp_mono; [apply clear_line_draws; [done|]|].
  { pose proof (i_y _ I5). destruct B5. unfold width. lia. }
  cbn. intros _ t6 [B6 S6]. wp_steps. assert (I6 : tinv t6) by (by apply (tinv_of_base t5)). shape_facts S6.
  destruct I6 as [[] ? ?]. split; [split|..]; cbn; done || lia.
Qed.

(** An operation that may leave the cursor past the end of the row; [check_pos] brings it back. *)
Definition unclamped (m : op (D := D) unit) : Prop := forall t, tinv t -> wp m (fun _ t' => base t') t.
Lemma keeps_unclamped m : keeps m -> unclamped m.
Proof. intros Hm t I. eapply wp_mono; [by apply Hm|]. cbn. intros _ t' I'. apply I'. Qed.
Lemma unclamped_check_pos m : unclamped m -> keeps (m ;; check_pos).
Proof. intros Hm t I. wp_step. eapply wp_mono; [by apply Hm|]. cbn. intros _ t1 B1. eapply wp_mono; [by apply check_pos_wp|]. by intros _ t2 []. Qed.

Lemma wp_erase_at x t (Q : unit -> Terminal D -> Prop) : 0 <= x < Z.of_nat (length (m_cur_line t)) ->
  (forall l, Z.of_nat (length l) = Z.of_nat (length (m_cur_line t)) - 1 -> Q tt (set_m_cur_line l t)) -> wp (erase_at x) Q t.
Proof.
  intros Hx HQ. unfold wp, erase_at. rewrite (proj2 (Z.ltb_lt _ _)) by lia. apply HQ. rewrite length_app, length_take, length_drop. lia.
Qed.
Lemma wp_insert_at x e t (Q : unit -> Terminal D -> Prop) : 0 <= x <= Z.of_nat (length (m_cur_line t)) ->
  (forall l, Z.of_nat (length l) = Z.of_nat (length (m_cur_line t)) + 1 -> Q tt (set_m_cur_line l t)) -> wp (insert_at x e) Q t.
Proof.
  intros Hx HQ. unfold wp, insert_at. rewrite (proj2 (Z.leb_le _ _)) by lia. apply HQ. rewrite length_app, length_take. cbn. rewrite length_drop. lia.
Qed.
Lemma base_line t l x : base t -> 0 <= x <= Z.of_nat (length l) -> base (set_m_cursor_x x (set_m_cur_line l t)).
Proof. intros [] Hx. split; cbn; done || lia. Qed.
Lemma tinv_line t l x : tinv t -> 0 <= x <= Z.of_nat (length l) -> x < m_width t -> tinv (set_m_cursor_x x (set_m_cur_line l t)).
Proof. intros [B X Y] Hx Hw'. split; [by apply base_line|done|done]. Qed.

Lemma keeps_backspace : keeps backspace.
Proof.
  apply keeps_get. intros t I. pose proof (i_base _ I) as []. pose proof (i_x _ I). apply wp_when; [|done]. intros Hx%Z.ltb_lt. wp_steps.
  assert (I0 : tinv (set_m_cursor_x (m_cursor_x t - 1) t)).
  { pose proof (tinv_line t (m_cur_line t) (m_cursor_x t - 1) I ltac:(lia) ltac:(lia)) as It. by destruct t. }
  eapply wp_mono; [by apply check_pos_tinv|]. cbn. intros _ t1 [I1 S1]. wp_steps. apply wp_color; [apply I1|]. intros col _. wp_step.
  pose proof (i_x _ I1). pose proof (i_base _ I1) as B1. eapply wp_mono; [apply set_entry_at_draws; [done|]; destruct B1; lia|]. cbn. intros _ t2 [B2 S2].
  assert (I2 : tinv t2) by (by apply (tinv_of_base t1)). shape_facts S1. shape_facts S2. cbn in *.
  assert (m_cur_line t2 = m_cur_line t) as El by congruence.
  apply wp_erase_at; [rewrite El; lia|]. intros l Hl. rewrite El in Hl.
  pose proof (tinv_line t2 l (m_cursor_x t1) I2 ltac:(lia) ltac:(destruct I2; congruence || lia)) as It.
  replace (m_cursor_x t1) with (m_cursor_x t2) in It by done. by destruct t2.
Qed.
Lemma unclamped_put_glyph ch : unclamped (put_glyph ch).
Proof.
  intros t I. pose proof (i_base _ I) as B. pose proof B as []. pose proof (i_x _ I). unfold put_glyph. wp_steps. apply wp_color; [done|].
  intros col _. wp_step. eapply wp_mono; [apply set_entry_at_draws; [done|lia]|]. cbn. intros _ t1 [B1 S1]. shape_facts S1. unfold width. wp_step.
  assert (Q : forall l, Z.of_nat (length l) = Z.of_nat (length (m_cur_line t1)) + 1 ->
    wp (modify (set_m_cursor_x (u32 (m_cursor_x t + 1)))) (fun _ t' => base t') (set_m_cur_line l t1)).
  { intros l Hl. wp_steps. apply base_line; [done|]. assert (m_cur_line t1 = m_cur_line t) as El by done. rewrite El in Hl. usimp. lia. }
  destruct (_ <? _); [apply wp_insert_at; [|done]|wp_step; apply Q; rewrite length_app; cbn; lia].
  assert (m_cur_line t1 = m_cur_line t) as -> by done. lia.
Qed.
Lemma keeps_escape_char ch : keeps (escape_char ch).
Proof.
  apply keeps_get. intros t I. destruct (m_expecting_bracket t); [destruct (ch =? bracket)|destruct (_ && _)]; wp_steps; try (tinv_update).
  eapply wp_mono; [apply keeps_process_escape_code; tinv_update|]. cbn. intros _ t1 I1. wp_steps. tinv_update.
Qed.
Lemma keeps_put_char_with tab ch : keeps tab -> keeps (put_char_with tab ch).
Proof.
  intros Ht. apply keeps_get. intros t I. destruct (m_escape_code t); [by apply keeps_escape_char|]. revert t I. apply unclamped_check_pos.
  destruct (ch =? ESC); [apply keeps_unclamped; intros t I; wp_steps; tinv_update|].
  destruct (ch =? LF); [apply keeps_unclamped, keeps_new_line|].
  destruct (ch =? CR); [apply keeps_unclamped, keeps_modify; tinv_update|].
  destruct (ch =? BS); [apply keeps_unclamped, keeps_backspace|]. destruct (ch =? TAB); [by apply keeps_unclamped|].
  destruct (ch =? BEL); [apply keeps_unclamped, keeps_modify; tinv_update|]. apply unclamped_put_glyph.
Qed.
Lemma keeps_put_char ch : keeps (put_char ch).
Proof. apply keeps_put_char_with, tkeeps_for_each. intros x _. apply keeps_put_char_with. by intros t I. Qed.
Lemma keeps_write l : keeps (write l).
Proof.
  apply tkeeps_for_each. intros byte _. apply tkeeps_bind; [apply keeps_modify; tinv_update|]. intros _. apply keeps_get.
  intros t I. apply wp_when; [|done]. intros _. destruct (Utf8.spit (m_decoder t)) as [ch d]. wp_steps. apply keeps_put_char. tinv_update.
Qed.

Lemma keeps_switch_to_input : keeps switch_to_input.
Proof. apply keeps_get. intros t I. apply wp_when; [|done]. intros _. wp_steps. tinv_update. Qed.
Lemma keeps_pop_input : keeps pop_input.
Proof.
  apply keeps_get. intros t0 I0. apply tkeeps_for_each; [|done]. intros _ _ t I. unfold pop_entry. wp_steps. pose proof (i_base _ I) as [].
  pose proof (i_x _ I). assert (L : length (removelast (m_cur_line t)) = (length (m_cur_line t) - 1)%nat).
  { destruct (m_cur_line t) as [|e l]; [done|]. rewrite removelast_firstn_len, length_take. cbn. lia. }
  apply wp_when; intros Hx; cbn [m_cursor_x set_m_cur_line] in Hx; [apply Z.ltb_lt in Hx|apply Z.ltb_ge in Hx]; wp_steps.
  - apply tinv_line; cbn; lia || done.
  - pose proof (tinv_line t (removelast (m_cur_line t)) (m_cursor_x t) I ltac:(lia) ltac:(lia)) as It. by destruct t.
Qed.
Lemma keeps_forward_delete : keeps forward_delete.
Proof.
  apply keeps_get. intros t I. apply wp_when; [|done]. intros Hx%Z.ltb_lt. pose proof (i_base _ I) as [].
  apply wp_erase_at; [lia|]. intros l Hl. pose proof (tinv_line t l (m_cursor_x t) I ltac:(lia) (i_x _ I)) as It. by destruct t.
Qed.
Lemma keeps_set_input_color pos sz col : keeps (set_input_color pos sz col).
Proof.
  apply keeps_get. intros t I. apply wp_when; [|done]. intros _. wp_steps. apply keeps_force_redraw_input.
  set (l := imap _ _). assert (length l = length (m_cur_line t)) by apply length_imap. pose proof (i_base _ I) as [].
  pose proof (tinv_line t l (m_cursor_x t) I ltac:(lia) (i_x _ I)) as It. by destruct t.
Qed.
(** The keys of the arrows, on a line shorter than the screen. *)
Lemma move_cursor_tinv offset t : tinv t -> Z.of_nat (length (m_cur_line t)) < m_width t -> wp (move_cursor offset) (fun _ t' => tinv t') t.
Proof.
  intros I L. pose proof (i_base _ I) as []. unfold move_cursor. wp_steps. cbn. pose proof (uwrap_range 32 (m_cursor_x t + offset) ltac:(lia)).
  assert (F : forall x, 0 <= x -> tinv (if Z.of_nat (length (m_cur_line t)) <? x then set_m_cursor_x (Z.of_nat (length (m_cur_line t))) t else set_m_cursor_x x t)).
  { intros x Hx. pose proof (fun v => tinv_line t (m_cur_line t) v I) as It.
    destruct (Z.ltb_spec (Z.of_nat (length (m_cur_line t))) x); [specialize (It (Z.of_nat (length (m_cur_line t))))|specialize (It x)];
      (assert (tinv (set_m_cursor_x _ (set_m_cur_line (m_cur_line t) t))) by (apply It; lia)); by destruct t. }
  destruct (_ <? m_input_off t); cbn; [apply (F (m_input_off t))|apply F]; lia.
Qed.

(** On any line they leave the cursor inside the line. *)
Lemma move_cursor_inside offset t : base t -> exists t', move_cursor offset t = Done (tt, t') /\
  0 <= m_cursor_x t' <= Z.of_nat (length (m_cur_line t)) /\ t' = set_m_cursor_x (m_cursor_x t') t.
Proof.
  intros []. unfold move_cursor. rewrite !run_bind_modify. unfold modify. eexists. split; [done|].
  pose proof (uwrap_range 32 (m_cursor_x t + offset) ltac:(lia)). cbn.
  destruct (_ <? m_input_off t); cbn; destruct (Z.ltb_spec (Z.of_nat (length (m_cur_line t)))
    (if u32 (m_cursor_x t + offset) <? m_input_off t then m_input_off t else u32 (m_cursor_x t + offset))); cbn;
    repeat case_match; cbn; repeat match goal with E : (_ <? _) = true |- _ => apply Z.ltb_lt in E | E : (_ <? _) = false |- _ => apply Z.ltb_ge in E end;
    (split; [lia|by destruct t]).
Qed.
(** On a line as long as the screen the right arrow takes it off the screen, where the next
    character is then drawn. *)
Lemma right_arrow_leaves t : base t -> m_width t <= Z.of_nat (length (m_cur_line t)) -> m_cursor_x t = m_width t - 1 -> m_input_off t <= m_width t ->
  exists t', move_cursor 1 t = Done (tt, t') /\ m_cursor_x t' = m_width t'.
Proof.
  intros [] L X Off. unfold move_cursor. rewrite !run_bind_modify. unfold modify. eexists. split; [done|]. cbn. rewrite X, uwrap_small by lia.
  rewrite (proj2 (Z.ltb_ge (m_width t - 1 + 1) (m_input_off t))) by lia. cbn. rewrite (proj2 (Z.ltb_ge _ _)) by lia. cbn. lia.
Qed.

(** The key of the left arrow at the start of a line goes to its end: the position wraps around. *)
Lemma left_arrow_wraps t : m_cursor_x t = 0 -> m_input_off t = 0 -> Z.of_nat (length (m_cur_line t)) < 2 ^ 32 - 1 ->
  move_cursor (-1) t = Done (tt, set_m_cursor_x (Z.of_nat (length (m_cur_line t))) t).
Proof.
  intros X Off L. unfold move_cursor. rewrite !run_bind_modify. unfold modify. do 2 f_equal. cbn. rewrite X, Off.
  change (u32 (0 + -1)) with (2 ^ 32 - 1). cbn [Z.ltb Z.compare]. rewrite (proj2 (Z.ltb_ge (2 ^ 32 - 1) 0)) by lia. cbn [m_cur_line m_cursor_x set_m_cursor_x].
  by rewrite (proj2 (Z.ltb_lt _ _)) by lia.
Qed.

(** ** The life of a terminal *)

Inductive operation : Type :=
  | PutChar (ch : Z) | Write (data : list Z) | WriteString (data : list Z) | AddInput (ch : Z) | ClearInput | SetInput (str : list Z)
  | SwitchToInput | SetInputColor (pos sz : Z) (col : ColorPair) | ForwardDelete | Clear | ClearWith (col : ColorPair)
  | MoveCursor (offset : Z) | ShowHistory (page : Z) | ScrollHistory (scroll : Z) | ScrollUp | ScrollBottom | Resize (iwidth iheight : Z)
  | SetTitle (str : list Z) (col : ColorPair) | SetTitleDefault (str : list Z) | SetAcceptInput (val : bool) | Enable | Disable
  | SetScrolling (enabled : bool) | ForceRedraw | ForceRedrawInput | Draw.
Definition run_op (o : operation) : op (D := D) unit :=
  match o with
  | PutChar ch => put_char ch | Write l => write l | WriteString l => write_string l | AddInput ch => add_input ch
  | ClearInput => clear_input | SetInput str => set_input str | SwitchToInput => switch_to_input
  | SetInputColor pos sz col => set_input_color pos sz col | ForwardDelete => forward_delete | Clear => clear | ClearWith col => clear_with col
  | MoveCursor offset => move_cursor offset | ShowHistory page => show_history page | ScrollHistory n => scroll_history n
  | ScrollUp => scroll_up | ScrollBottom => scroll_bottom | Resize iw ih => resize iw ih | SetTitle str col => set_title str col
  | SetTitleDefault str => set_title_default str | SetAcceptInput v => set_accept_input v | Enable => enable | Disable => disable
  | SetScrolling v => set_scrolling v | ForceRedraw => force_redraw | ForceRedrawInput => force_redraw_input | Draw => draw
  end.
(** The cursor is moved on lines shorter than the screen (else it leaves it, [right_arrow_leaves]),
    the terminal does not grow past the display, and a page is an [int]. *)
Definition allowed (o : operation) t : Prop :=
  match o with
  | MoveCursor _ => Z.of_nat (length (m_cur_line t)) < m_width t
  | Resize iw ih => 0 < iw <= w /\ title_height (m_data t) < ih <= h
  | ShowHistory page => - 2 ^ 31 <= page < 2 ^ 31
  | _ => True
  end.

Lemma keeps_add_input ch : keeps (add_input ch).
Proof.
  intros t I. unfold add_input. wp_steps. apply wp_when; [|done]. intros _. wp_step.
  eapply wp_mono; [by apply keeps_switch_to_input|]. cbn. intros _ t1 I1. by apply keeps_put_char.
Qed.
Lemma keeps_clear_input : keeps clear_input.
Proof. apply tkeeps_bind; [apply keeps_pop_input|intros _; apply keeps_force_redraw_input]. Qed.
Lemma keeps_set_input str : keeps (set_input str).
Proof.
  apply tkeeps_bind; [apply keeps_pop_input|intros _]. apply tkeeps_bind; [apply keeps_switch_to_input|intros _].
  apply tkeeps_bind; [apply keeps_write|intros _; apply keeps_force_redraw_input].
Qed.
Lemma keeps_disable : keeps disable.
Proof.
  intros t I. unfold disable. wp_steps. eapply wp_on_dev; [done|]. destruct I as [[] ? ?]. split; [split|..]; cbn; try done. by apply disable_ok.
Qed.
Lemma run_op_tinv o t : tinv t -> allowed o t -> wp (run_op o) (fun _ t' => tinv t') t.
Proof.
  intros I A. destruct o; cbn [run_op allowed] in *.
  - by apply keeps_put_char.
  - by apply keeps_write.
  - by apply keeps_write.
  - by apply keeps_add_input.
  - by apply keeps_clear_input.
  - by apply keeps_set_input.
  - by apply keeps_switch_to_input.
  - by apply keeps_set_input_color.
  - by apply keeps_forward_delete.
  - by apply (tkeeps_bind _ _ keeps_color (fun col => keeps_clear_with col)).
  - by apply keeps_clear_with.
  - by apply move_cursor_tinv.
  - by apply keeps_show_history.
  - by apply keeps_scroll_history.
  - by apply (keeps_scroll_history 1).
  - by apply keeps_scroll_bottom.
  - by apply resize_tinv; [|apply A|apply A].
  - by apply keeps_set_title.
  - by apply (tkeeps_bind _ _ keeps_color (fun col => keeps_set_title str col)).
  - apply keeps_modify; [tinv_update|done].
  - apply keeps_modify; [tinv_update|done].
  - by apply keeps_disable.
  - apply keeps_modify; [tinv_update|done].
  - by apply keeps_force_redraw.
  - by apply keeps_force_redraw_input.
  - by apply keeps_draw.
Qed.

(** A new terminal, of at most the size of the display and with a row under the title, on a history that
    is not empty storage. *)
Record new_ok (iw ih : Z) (data : TerminalData) (d : D) : Prop := {
  n_width : 0 < iw <= w;
  n_height : 0 <= title_height data < ih /\ ih <= h;
  n_colors : color_stack data <> [];
  n_hist : exists hist, CircularBuffer.holds (m_buffer data) hist;
  n_ok : ok d;
}.
Lemma new_tinv iw ih data d : new_ok iw ih data d -> tinv (new_terminal iw ih data d).
Proof.
  intros []. split; [split|..]; cbn; try done; try lia; [rewrite length_replicate; lia|]. apply Forall_replicate. lia.
Qed.
Lemma start_tinv iw ih data d : new_ok iw ih data d -> wp start (fun _ t' => tinv t') (new_terminal iw ih data d).
Proof.
  intros I%new_tinv. revert I. generalize (new_terminal iw ih data d). intros t I. unfold start. wp_steps.
  eapply wp_mono; [by apply keeps_set_title|]. cbn. intros _ t1 I1. wp_step. eapply wp_mono; [by apply keeps_scroll_bottom|].
  cbn. intros _ t2 I2. by apply keeps_force_redraw.
Qed.

Inductive reachable : Terminal D -> Prop :=
  | r_new iw ih data d t : new_ok iw ih data d -> start (new_terminal iw ih data d) = Done (tt, t) -> reachable t
  | r_step t o t' : reachable t -> allowed o t -> run_op o t = Done (tt, t') -> reachable t'.
Lemma reachable_tinv t : reachable t -> tinv t.
Proof.
  induction 1 as [iw ih data d t N E|t o t' _ I A E].
  - apply start_tinv in N. unfold wp in N. by rewrite E in N.
  - apply (run_op_tinv o) in I; [|done]. unfold wp in I. by rewrite E in I.
Qed.
End proofs.
(** The equations of an equality of shapes. *)
Ltac shape_facts E := unfold shape in E; injection E as ?????????????????.

(** ** The theorems *)

(** C32: A terminal that has a row under its title stays on the screen, whatever is written to it and
    whatever is typed, as long as the cursor is moved on lines shorter than the screen: the cursor
    is on the screen and inside the line that is edited, and every operation returns, so that it
    neither draws outside of the display nor reads outside of the line, of the history or of the
    widths it keeps.  On longer lines too a move of the cursor leaves it inside the line, but
    perhaps off the screen ([right_arrow_leaves]); the terminal of one row that the kernel starts
    with has no row for its cursor ([null_terminal_off_screen]). *)
Theorem terminal_in_bounds {D} `{Display D} {w h} `{!DisplayBounds D w h} (t : Terminal D) :
  w < 2 ^ 31 -> h < 2 ^ 31 -> reachable (w := w) (h := h) t ->
  (0 <= m_cursor_x t < m_width t /\ m_cursor_x t <= Z.of_nat (length (m_cur_line t)) /\
   0 <= m_cursor_y t < m_height t - title_height (m_data t) /\ m_width t <= w /\ m_height t <= h) /\
  (forall o, allowed (w := w) (h := h) o t -> exists t', run_op o t = Done (tt, t') /\ reachable (w := w) (h := h) t') /\
  (forall offset, exists t', move_cursor offset t = Done (tt, t') /\ 0 <= m_cursor_x t' <= Z.of_nat (length (m_cur_line t)) /\
    t' = set_m_cursor_x (m_cursor_x t') t).
Proof.
  intros Hw Hh R. pose proof (reachable_tinv Hw Hh t R) as I. split; [destruct I as [[] ? ?]; lia|]. split.
  - intros o A. destruct (wp_elim _ _ _ (run_op_tinv Hw Hh o t I A)) as ([] & t' & E & _). exists t'. split; [done|]. by apply (r_step t o).
  - intros offset. by eapply move_cursor_inside, i_base.
Qed.
(** [NullTerminal]: the title takes its only row. *)
Definition null_terminal (history_size : Z) : Terminal null_screen := new_terminal 1 1 (new_data history_size default_color) tt.
Theorem null_terminal_off_screen : exists t, start (null_terminal 1) = Done (tt, t) /\ m_height t = 1 /\ m_cursor_y t = 2 ^ 32 - 1 /\
  dirty_width_at (m_cursor_y t) t = Fault BadAccess.
Proof.
  exists (set_m_current_history_page 1 (set_m_dirty false (set_m_cursor_y (2 ^ 32 - 1) (null_terminal 1)))). split_and!; [vm_compute; reflexivity|done|done|].
  unfold dirty_width_at. rewrite lookup_ge_None_2; [done|]. cbn [null_terminal new_terminal m_dirty_width_per_line set_m_current_history_page set_m_dirty set_m_cursor_y m_cursor_y]. rewrite length_replicate. lia.
Qed.
Definition small_terminal : Terminal null_screen := new_terminal 3 3 (new_data 2 default_color) tt.
Lemma terminal_in_bounds_witness : exists t : Terminal null_screen, start small_terminal = Done (tt, t) /\
  (0 <= m_cursor_x t < m_width t /\ m_cursor_x t <= Z.of_nat (length (m_cur_line t)) /\
   0 <= m_cursor_y t < m_height t - title_height (m_data t) /\ m_width t <= 3 /\ m_height t <= 3) /\
  (forall o, allowed (w := 3) (h := 3) o t -> exists t', run_op o t = Done (tt, t') /\ reachable (w := 3) (h := 3) t') /\
  (forall offset, exists t', move_cursor offset t = Done (tt, t') /\ 0 <= m_cursor_x t' <= Z.of_nat (length (m_cur_line t)) /\
    t' = set_m_cursor_x (m_cursor_x t') t).
Proof.
  exists (set_m_dirty false (set_m_cursor_y 1 small_terminal)). split; [vm_compute; reflexivity|].
  apply (terminal_in_bounds (w := 3) (h := 3)); [lia|lia|].
  apply (r_new 3 3 (new_data 2 default_color) tt); [|vm_compute; reflexivity].
  split; [lia|cbn; lia|done|exists []; by apply CircularBuffer.create_holds|done].
Defined.
End TerminalProofs.
