(* ===== verification/TextScreen.v ===== *)
(** * TextScreen: the text mode of the VGA

    [i686/pc/terminal/textterminal.cpp] and [termio.hpp], with the colours of
    [graphics/vga.hpp]: a display of 80 columns and 25 rows, as an instance of the interface of
    the terminal. *)
From stdpp Require Import base list.
From Stdlib Require Import ZArith Lia.
From S2P Require Import Prelude Hoare Terminal TerminalProofs.
Import Terminal TerminalProofs.

Module TextScreen.

(** ** Colours *)

(** [entry_color(fg, bg)] and [entry(uc, color)]. *)
Definition entry_color (fg bg : Z) : Z := u8 (Z.lor fg (Z.shiftl bg 4)).
Definition entry (uc color : Z) : Z := u16 (Z.lor (u8 uc) (Z.shiftl color 8)).
(** The table of [color_to_vga]: the index in it is the colour of the hardware. *)
Definition colors : list Color :=
  Color1 <$> [0x000000; 0x0000aa; 0x00aa00; 0x00aaaa; 0xaa0000; 0xaa00aa; 0xaa5500; 0xaaaaaa;
              0x555555; 0x5555ff; 0x55ff55; 0x55ffff; 0xff5555; 0xff55ff; 0xffff55; 0xffffff].
Definition distance (lhs rhs : Color) : Z :=
  (r rhs - r lhs) * (r rhs - r lhs) + (g rhs - g lhs) * (g rhs - g lhs) + (b rhs - b lhs) * (b rhs - b lhs).
(** The loop of [closest], from the index [i] on. *)
Fixpoint closest_loop {A} (comp : A -> Z) (values : list A) (i closest_idx smallest_value : Z) : Z :=
  match values with
  | [] => closest_idx
  | v :: values =>
      if comp v =? 0 then i
      else if comp v <? smallest_value then closest_loop comp values (i + 1) i (comp v)
      else closest_loop comp values (i + 1) closest_idx smallest_value
  end.
Definition closest {A} (comp : A -> Z) (values : list A) : outcome Z :=
  match values with
  | [] => Fault AssertFailed
  | v :: values => Done (closest_loop comp values 1 0 (comp v))
  end.
Definition color_to_vga (color : Color) : outcome Z := closest (distance color) colors.

(** ** The frame buffer *)

Record screen := mkScreen { fb : list Z; cursor_index : Z }.
Definition vga_entry (uc : Z) (fg bg : Color) : outcome Z :=
  f ← color_to_vga fg; k ← color_to_vga bg; Done (entry uc (entry_color f k)).
Definition text_putchar (x y : Z) (e : TermEntry) (s : screen) : outcome screen :=
  if (x <? 80) && (y <? 25) then
    v ← vga_entry (c e) (fg (pair e)) (bg (pair e));
    Done (mkScreen (<[Z.to_nat (y * 80 + x) := v]> (fb s)) (cursor_index s))
  else Fault AssertFailed.
(** [memsetw], [n] words from the index [from] on. *)
Definition memsetw (from n v : Z) (l : list Z) : outcome (list Z) :=
  if from + n <=? Z.of_nat (length l) then
    Done (take (Z.to_nat from) l ++ replicate (Z.to_nat n) v ++ drop (Z.to_nat (from + n)) l)
  else Fault BadAccess.
Definition text_clear_line (y : Z) (color : Color) (size : Z) (s : screen) : outcome screen :=
  if y <? 25 then
    v ← vga_entry space color color;
    l ← memsetw (y * 80) (size * 2 / 2) v (fb s);
    Done (mkScreen l (cursor_index s))
  else Fault AssertFailed.
(** The two bytes of the position are written to the controller. *)
Definition termio_move_cursor (x y width : Z) (s : screen) : screen :=
  let index := u32 (y * width + x) in
  mkScreen (fb s) (Z.land index 0xFF + Z.shiftl (Z.land (Z.shiftr index 8) 0xFF) 8).

#[export] Instance text_display : Display screen :=
  {| putchar := text_putchar; clear_line := text_clear_line;
     place_cursor x y s := termio_move_cursor x y 80 s; draw_impl s := s; disable_impl s := s |}.

(** ** It keeps the promises of a display *)

Lemma closest_spec {A} (comp : A -> Z) values : values <> [] -> (forall v, 0 <= comp v) ->
  exists i v, closest comp values = Done i /\ values !! Z.to_nat i = Some v /\ 0 <= i /\ forall v', v' ∈ values -> comp v <= comp v'.
Proof.
  intros Hn Hp. destruct values as [|v0 values]; [done|]. cbn [closest]. clear Hn.
  assert (L : forall rest done ci sm, 0 <= ci ->
    (exists v, (done ++ rest) !! Z.to_nat ci = Some v /\ comp v = sm /\ forall v', v' ∈ done -> comp v <= comp v') ->
    let i := closest_loop comp rest (Z.of_nat (length done)) ci sm in
    0 <= i /\ exists v, (done ++ rest) !! Z.to_nat i = Some v /\ forall v', v' ∈ done ++ rest -> comp v <= comp v').
  { induction rest as [|x rest IH]; intros done ci sm Hci (v & Hv & <- & Hm); cbn [closest_loop].
    - rewrite app_nil_r in *. split; [done|eauto].
    - assert (E : done ++ x :: rest = (done ++ [x]) ++ rest) by (by rewrite <- app_assoc).
      assert (N : Z.of_nat (length done) + 1 = Z.of_nat (length (done ++ [x]))) by (rewrite length_app; cbn; lia).
      assert (Hx : (done ++ x :: rest) !! Z.to_nat (Z.of_nat (length done)) = Some x) by (rewrite Nat2Z.id; by apply list_lookup_middle).
      destruct (Z.eqb_spec (comp x) 0) as [Z0|_].
      { split; [lia|]. exists x. split; [done|]. intros v' _. rewrite Z0. apply Hp. }
      rewrite N, E in *. destruct (Z.ltb_spec (comp x) (comp v)); (apply IH; [lia|]); [exists x|exists v]; (split; [done|]); (split; [done|]);
        intros v' [Hin| ->%list_elem_of_singleton]%elem_of_app; try lia; specialize (Hm v' Hin); lia. }
  destruct (L values [v0] 0 (comp v0) ltac:(lia)) as (I1 & v & Hv & Hm).
  - exists v0. split; [done|]. split; [done|]. intros v' ->%list_elem_of_singleton. lia.
  - eexists _, v. split; [done|]. split; [exact Hv|]. split; [exact I1|]. exact Hm.
Qed.
Lemma color_to_vga_done color : exists i, color_to_vga color = Done i.
Proof.
  destruct (closest_spec (distance color) colors) as (i & v & E & _); [done| |by exists i]. intros v. unfold distance.
  pose proof (Z.square_nonneg (r v - r color)). pose proof (Z.square_nonneg (g v - g color)). pose proof (Z.square_nonneg (b v - b color)). lia.
Qed.
Lemma vga_entry_done uc fg bg : exists v, vga_entry uc fg bg = Done v.
Proof.
  unfold vga_entry. destruct (color_to_vga_done fg) as [f ->], (color_to_vga_done bg) as [k ->]. cbn. eauto.
Qed.
(** The word of a character. *)
Definition word (uc : Z) (fg bg : Color) : Z := match vga_entry uc fg bg with Done v => v | Fault _ => 0 end.
Lemma vga_entry_word uc fg bg : vga_entry uc fg bg = Done (word uc fg bg).
Proof. unfold word. by destruct (vga_entry_done uc fg bg) as [v ->]. Qed.

Lemma memsetw_spec from n v l : 0 <= from -> 0 <= n -> from + n <= Z.of_nat (length l) ->
  exists l', memsetw from n v l = Done l' /\ length l' = length l /\
    forall k, 0 <= k -> l' !! Z.to_nat k = if (from <=? k) && (k <? from + n) then Some v else l !! Z.to_nat k.
Proof.
  intros Hf Hn Hl. unfold memsetw. rewrite (proj2 (Z.leb_le _ _)) by done. eexists. split; [done|]. split.
  - rewrite !length_app, length_take, length_replicate, length_drop. lia.
  - intros k Hk. destruct (Z.leb_spec from k), (Z.ltb_spec k (from + n)); cbn [andb].
    + rewrite lookup_app_r; rewrite length_take; [|lia]. rewrite lookup_app_l by (rewrite length_replicate; lia).
      apply lookup_replicate_2. lia.
    + rewrite lookup_app_r; rewrite length_take; [|lia]. rewrite lookup_app_r; rewrite length_replicate; [|lia].
      rewrite lookup_drop. f_equal. lia.
    + rewrite lookup_app_l by (rewrite length_take; lia). apply lookup_take_lt. lia.
    + rewrite lookup_app_l by (rewrite length_take; lia). apply lookup_take_lt. lia.
Qed.

Definition screen_ok (s : screen) : Prop := length (fb s) = 2000%nat.
#[export] Instance text_bounds : DisplayBounds screen 80 25.
Proof.
  refine {| ok := screen_ok |}; unfold screen_ok; cbn [putchar clear_line place_cursor draw_impl disable_impl text_display]; try done.
  - intros x y e d L Hx Hy. unfold text_putchar. rewrite (proj2 (Z.ltb_lt x _)), (proj2 (Z.ltb_lt y _)), vga_entry_word by lia. cbn [andb mbind outcome_bind].
    eexists. split; [reflexivity|]. cbn [fb]. by rewrite length_insert.
  - intros y col n d L Hy Hn. unfold text_clear_line. rewrite (proj2 (Z.ltb_lt y _)), vga_entry_word by lia. cbn [andb mbind outcome_bind]. rewrite Z.div_mul by lia.
    destruct (memsetw_spec (y * 80) n (word space col col) (fb d)) as (l & -> & Ll & _); [lia|lia|lia|]. eexists. split; [reflexivity|]. cbn [fb]. congruence.
Defined.
#[export] Instance text_cells : DisplayCells screen (w := 80) (h := 25) Z.
Proof.
  refine {| cell s i j := fb s !!! Z.to_nat (j * 80 + i); glyph e := word (c e) (fg (pair e)) (bg (pair e));
            blank col := word space col col |};
    cbn [ok putchar clear_line place_cursor draw_impl disable_impl text_display text_bounds]; try done.
  - intros x y e d d' L Hx Hy. unfold text_putchar. rewrite (proj2 (Z.ltb_lt x _)), (proj2 (Z.ltb_lt y _)), vga_entry_word by lia. cbn [andb mbind outcome_bind].
    intros Ed i j Hi Hj. injection Ed as <-. cbn [fb]. unfold screen_ok in L. destruct ((i =? x) && (j =? y)) eqn:E.
    + apply andb_true_iff in E as [->%Z.eqb_eq ->%Z.eqb_eq]. apply list_lookup_total_insert_eq. lia.
    + apply list_lookup_total_insert_ne. lia.
  - intros y col n d d' L Hy Hn. unfold text_clear_line. rewrite (proj2 (Z.ltb_lt y _)), vga_entry_word by lia. cbn [andb mbind outcome_bind]. rewrite Z.div_mul by lia.
    unfold screen_ok in L. destruct (memsetw_spec (y * 80) n (word space col col) (fb d)) as (l & -> & Ll & Hl); [lia|lia|lia|].
    intros Ed i j Hi Hj. injection Ed as <-. cbn [fb]. rewrite !list_lookup_total_alt, Hl by lia. destruct ((i <? n) && (j =? y)) eqn:E, ((y * 80 <=? j * 80 + i) && (j * 80 + i <? y * 80 + n)) eqn:E'; try done; lia.
Defined.

(** The key of the right arrow on a line as long as the screen moves the cursor past the last
    column, and the next character stops the machine: [move_cursor] limits the cursor to the
    line and not to the screen. *)
Theorem long_line_asserts (t : Terminal screen) ch :
  m_width t = 80 -> m_enabled t = true -> m_escape_code t = false -> m_cursor_x t = 79 -> 0 <= m_input_off t <= 80 ->
  80 <= Z.of_nat (length (m_cur_line t)) -> m_cursor_y t < height t -> color_stack (m_data t) <> [] -> space <= ch ->
  (move_cursor 1 ;; put_char ch) t = Fault AssertFailed.
Proof.
  intros W En Es X Off L Y C Hc. assert (E1 : move_cursor 1 t = Done (tt, set_m_cursor_x 80 t)).
  { unfold move_cursor. rewrite !run_bind_modify. unfold modify. do 2 f_equal. cbn. rewrite X. change (u32 (79 + 1)) with 80.
    rewrite (proj2 (Z.ltb_ge 80 _)) by lia. cbn. by rewrite (proj2 (Z.ltb_ge _ 80)) by lia. }
  rewrite (run_bind_done _ _ _ _ _ E1). set (t1 := set_m_cursor_x 80 t).
  assert (E2 : put_glyph ch t1 = Fault AssertFailed).
  { unfold put_glyph, color. destruct (color_stack (m_data t)) as [|col l] eqn:Ec; [done|].
    rewrite run_bind_get. rewrite (run_bind_done _ _ t1 col t1) by (unfold on_data; cbn; by rewrite Ec). apply run_bind_fault.
    unfold set_entry_at. rewrite run_bind_get. cbn. rewrite En. change (height t1) with (height t). rewrite (proj2 (Z.ltb_lt _ _)) by done.
    cbn [when andb]. by apply run_bind_fault. }
  unfold put_char. generalize (for_each (replicate tab_size space) (put_char_with (D := screen) (mret tt))). intros tab.
  unfold put_char_with. etransitivity; [apply run_bind_get|]. cbn [m_escape_code t1 set_m_cursor_x]. rewrite Es. unfold space in Hc.
  repeat (match goal with |- context [ch =? ?k] => rewrite (proj2 (Z.eqb_neq ch k)) by (unfold ESC, LF, CR, BS, TAB, BEL; lia) end).
  by apply run_bind_fault.
Qed.
Definition long_terminal : Terminal screen :=
  set_m_cur_line (replicate 90 (mkEntry 65 default_color)) (set_m_cursor_x 79
    (new_terminal 80 25 (new_data 100 default_color) (mkScreen (replicate 2000 0) 0))).
Lemma long_line_asserts_witness : (move_cursor 1 ;; put_char 66) long_terminal = Fault AssertFailed.
Proof. apply (long_line_asserts long_terminal 66); done || (cbn; lia). Defined.
End TextScreen.
