(* ===== verification/TerminalShow.v ===== *)
(** * TerminalShow: what is on the screen

    The cells of the display after [show_history], and after the end of a line. *)
From stdpp Require Import base list.
From Stdlib Require Import ZArith Lia.
From S2P Require Import Prelude Hoare CircularBuffer Terminal TerminalProofs TextScreen.
Import Terminal TerminalProofs.
Import (hints) TextScreen.

Module TerminalShow.
Section cells.
Context {D : Type} `{Display D} {w h : Z} `{!DisplayBounds D w h} {V : Type} `{!DisplayCells D (w := w) (h := h) V}.
Context (Hw : w < 2 ^ 31) (Hh : h < 2 ^ 31).
Implicit Types (t : Terminal D).

(** The cell of the column [x] and the row [y]. *)
Definition at_ t (x y : Z) : V := cell (dev t) x y.
(** [t'] is [t] with other cells. *)
Definition redrawn (f : Z -> Z -> V) t t' : Prop :=
  base (w := w) (h := h) t' /\ shape t' = shape t /\
  forall x y, 0 <= x < w -> 0 <= y < h -> at_ t' x y = f x y.

Lemma set_entry_at_cells e x y t : base (w := w) (h := h) t -> m_enabled t = true -> 0 <= x < m_width t -> 0 <= y < height t ->
  wp (set_entry_at e x y false) (fun _ t' =>
    redrawn (fun i j => if (i =? x) && (j =? y + title_height (m_data t)) then glyph e else at_ t i j) t t' /\
    m_dirty_width_per_line t' = m_dirty_width_per_line t) t.
Proof.
  intros B En Hx Hy. rewrite height_eq in Hy by done. unfold set_entry_at. wp_steps. rewrite En, height_eq, (proj2 (Z.ltb_lt y _)) by (done || lia).
  cbn [andb when]. wp_step. pose proof B as []. rewrite uwrap_small by lia.
  destruct (putchar_ok x (y + title_height (m_data t)) e (dev t) b_ok0 ltac:(lia) ltac:(lia)) as (d & E & O).
  eapply wp_on_dev; [exact E|]. wp_steps. destruct (draw_dev t d B O) as [B' S']. split; [|done].
  split; [by apply draw_dirty|]. split; [done|]. intros i j Hi Hj. exact (putchar_cell x (y + title_height (m_data t)) e (dev t) d b_ok0 ltac:(lia) ltac:(lia) E i j Hi Hj).
Qed.
Lemma clear_line_cells y col n t : base (w := w) (h := h) t -> 0 <= y < h -> 0 <= n <= w ->
  wp (on_dev (clear_line y col n)) (fun _ t' =>
    redrawn (fun i j => if (i <? n) && (j =? y) then blank col else at_ t i j) t t' /\ m_dirty_width_per_line t' = m_dirty_width_per_line t) t.
Proof.
  intros B Hy Hn. destruct (clear_line_ok y col n (dev t) (b_ok t B) Hy Hn) as (d & E & O). eapply wp_on_dev; [exact E|].
  destruct (draw_dev t d B O) as [B' S']. split; [|done]. split; [done|]. split; [done|]. intros i j Hi Hj.
  exact (clear_line_cell y col n (dev t) d (b_ok t B) Hy Hn E i j Hi Hj).
Qed.

(** A row of entries over the cells that were there. *)
Definition over (row : entries) (x : Z) (old : V) : V := from_option glyph old (row !! Z.to_nat x).
Lemma entries_cells row y t : base (w := w) (h := h) t -> m_enabled t = true -> Z.of_nat (length row) <= m_width t -> 0 <= y < height t ->
  wp (for_each (with_index row) (fun '(i, e) => set_entry_at e i y false)) (fun _ t' =>
    redrawn (fun i j => if j =? y + title_height (m_data t) then over row i (at_ t i j) else at_ t i j) t t' /\
    m_dirty_width_per_line t' = m_dirty_width_per_line t) t.
Proof.
  intros B En Hl Hy.
  pose (I := fun (k : nat) s => redrawn (fun i j => if j =? y + title_height (m_data t) then over (take k row) i (at_ t i j) else at_ t i j) t s /\
    m_dirty_width_per_line s = m_dirty_width_per_line t).
  eapply wp_mono; [apply (wp_for_each_index _ I)|].
  - intros k [i e] s Hk [(Bs & Ss & Cs) Ds]. unfold with_index in Hk. apply list_lookup_imap_Some in Hk as (e' & Hk & [= -> ->]).
    pose proof (lookup_lt_Some _ _ _ Hk) as Lk. pose proof Ss as Ss'. shape_facts Ss'.
    assert (Hh' : height s = height t) by (unfold height; congruence).
    eapply wp_mono; [apply set_entry_at_cells; [done|congruence|lia|lia]|]. cbn. intros _ s' [(B' & S' & C') D'].
    split; [|congruence]. split; [done|]. split; [congruence|]. intros x j Hx Hj. rewrite C', Cs by done.
    replace (m_data s) with (m_data t) by done. rewrite Nat.add_1_r, (take_S_r _ _ _ Hk). unfold over.
    destruct (Z.eqb_spec j (y + title_height (m_data t))); [|by rewrite andb_false_r]. rewrite andb_true_r.
    destruct (Z.eqb_spec x (Z.of_nat k)) as [-> |].
    + rewrite Nat2Z.id, list_lookup_middle; [done|]. rewrite length_take. lia.
    + destruct (decide (x < Z.of_nat k)).
      * by rewrite lookup_app_l by (rewrite length_take; lia).
      * rewrite (lookup_ge_None_2 (take k row ++ [e'])), (lookup_ge_None_2 (take k row)); [done|rewrite length_take; lia|].
        rewrite length_app, length_take. cbn. lia.
  - split; [|done]. split; [done|]. split; [done|]. intros x j _ _. by destruct (_ =? _).
  - cbn. intros _ s [(Bs & Ss & Cs) Ds]. unfold with_index in Cs. rewrite length_imap, firstn_all in Cs. done.
Qed.

(** The row [y] of the display after [show_row]: the entries, then blanks up to the end of what
    was there, by the width that was kept. *)
Definition row_cell (col : Color) (row : entries) (dirty x : Z) (old : V) : V :=
  over row x (if x <? Z.max (Z.of_nat (length row)) dirty then blank col else old).
Lemma show_row_cells col i row t : base (w := w) (h := h) t -> m_enabled t = true -> Z.of_nat (length row) <= m_width t -> 0 <= i < height t ->
  wp (show_row col i row) (fun _ t' =>
    redrawn (fun x y => if y =? i + title_height (m_data t)
      then row_cell col row (m_dirty_width_per_line t !!! Z.to_nat y) x (at_ t x y) else at_ t x y) t t' /\
    forall k, k <> Z.to_nat (i + title_height (m_data t)) -> m_dirty_width_per_line t' !!! k = m_dirty_width_per_line t !!! k) t.
Proof.
  intros B En Hl Hi. pose proof Hi as Hi'. rewrite height_eq in Hi' by done. unfold show_row, clear_line_before_write, set_dirty_width.
  wp_steps. pose proof B as []. rewrite uwrap_small by lia. set (y0 := i + title_height (m_data t)).
  destruct (lookup_lt_is_Some_2 (m_dirty_width_per_line t) (Z.to_nat y0) ltac:(lia)) as [v Hv].
  pose proof (Forall_lookup_1 _ _ _ _ b_widths0 Hv) as Rv. cbn in Rv.
  eapply wp_intro; [unfold dirty_width_at; rewrite Hv; done|]. wp_step.
  eapply wp_mono; [apply (clear_line_cells y0 col); [done|lia|lia]|]. cbn. intros _ t1 [(B1 & S1 & C1) D1]. wp_step.
  eapply wp_intro; [unfold dirty_width_at; rewrite D1, Hv; done|]. wp_steps. set (t2 := set_m_dirty_width_per_line _ t1).
  pose proof S1 as S1'. shape_facts S1'.
  assert (B2 : base (w := w) (h := h) t2).
  { apply (base_shape t1); [done|done| |apply B1]. pose proof B1 as []. split; cbn; [by rewrite length_insert|apply Forall_insert; [done|lia]]. }
  eapply wp_mono; [apply entries_cells; [done|cbn; congruence|cbn; congruence|unfold height in *; cbn; congruence]|].
  cbn. intros _ t3 [(B3 & S3 & C3) D3]. split.
  - split; [done|]. split; [by rewrite S3, <- S1|]. intros x y Hx Hy. rewrite C3 by done. change (at_ t2 x y) with (at_ t1 x y). rewrite C1 by done.
    replace (m_data t1) with (m_data t) by done. fold y0. unfold row_cell. destruct (Z.eqb_spec y y0) as [-> |]; [|by rewrite andb_false_r].
    by rewrite andb_true_r, (list_lookup_total_correct _ _ _ Hv).
  - intros k Hk. rewrite D3. cbn. rewrite list_lookup_total_insert_ne by done. by rewrite D1.
Qed.

(** The rows of a page. *)
Lemma rows_cells col rows t : base (w := w) (h := h) t -> m_enabled t = true ->
  Forall (fun r => Z.of_nat (length r) <= m_width t) rows -> Z.of_nat (length rows) <= height t ->
  wp (for_each (with_index rows) (fun '(i, row) => show_row col i row)) (fun _ t' =>
    redrawn (fun x y => match rows !! Z.to_nat (y - title_height (m_data t)) with
      | Some row => if title_height (m_data t) <=? y then row_cell col row (m_dirty_width_per_line t !!! Z.to_nat y) x (at_ t x y) else at_ t x y
      | None => at_ t x y end) t t') t.
Proof.
  intros B En Hf Hl. set (th := title_height (m_data t)). pose proof (b_title t B) as Ht. fold th in Ht.
  pose (I := fun (k : nat) s => redrawn (fun x y => match take k rows !! Z.to_nat (y - th) with
      | Some row => if th <=? y then row_cell col row (m_dirty_width_per_line t !!! Z.to_nat y) x (at_ t x y) else at_ t x y
      | None => at_ t x y end) t s /\
    forall n, (k + Z.to_nat th <= n)%nat -> m_dirty_width_per_line s !!! n = m_dirty_width_per_line t !!! n).
  eapply wp_mono; [apply (wp_for_each_index _ I)|].
  - intros k [i row] s Hk [(Bs & Ss & Cs) Ds]. unfold with_index in Hk. apply list_lookup_imap_Some in Hk as (e' & Hk & [= -> ->]).
    pose proof (lookup_lt_Some _ _ _ Hk) as Lk. pose proof (Forall_lookup_1 _ _ _ _ Hf Hk) as Rk. cbn in Rk. pose proof Ss as Ss'. shape_facts Ss'.
    assert (Hh' : height s = height t) by (unfold height; congruence). assert (Et : title_height (m_data s) = th) by (unfold th; congruence).
    eapply wp_mono; [apply show_row_cells; [done|congruence|lia|lia]|]. cbn. rewrite Et. intros _ s' [(B' & S' & C') D'].
    split; [|intros n Hn; rewrite D' by lia; apply Ds; lia]. split; [done|]. split; [congruence|]. intros x y Hx Hy. rewrite C', Cs by done.
    rewrite Nat.add_1_r, (take_S_r _ _ _ Hk). destruct (Z.eqb_spec y (Z.of_nat k + th)) as [-> |Ny].
    + rewrite Ds by lia. replace (Z.to_nat (Z.of_nat k + th - th)) with k by lia. rewrite (list_lookup_middle (take k rows) [] e' k) by (rewrite length_take; lia).
      rewrite (lookup_ge_None_2 (take k rows)) by (rewrite length_take; lia). by rewrite (proj2 (Z.leb_le _ _)) by lia.
    + destruct (decide (th <= y)) as [Ly|Ly]; [|rewrite !(proj2 (Z.leb_gt _ _)) by lia; by repeat case_match].
      destruct (decide (y < Z.of_nat k + th)); [by rewrite lookup_app_l by (rewrite length_take; lia)|].
      rewrite (lookup_ge_None_2 (take k rows ++ [e'])), (lookup_ge_None_2 (take k rows)); [done|rewrite length_take; lia|].
      rewrite length_app, length_take. cbn. lia.
  - split; [|done]. split; [done|]. split; [done|]. intros x y _ _. by rewrite take_0, lookup_nil.
  - cbn. intros _ s [Cs _]. unfold with_index in Cs. by rewrite length_imap, firstn_all in Cs.
Qed.

Lemma same_cells (m : op unit) t : draws (w := w) (h := h) (fun _ => True) m -> base (w := w) (h := h) t ->
  (forall t', m t = Done (tt, t') -> forall x y, at_ t' x y = at_ t x y) -> wp m (fun _ t' => redrawn (at_ t) t t') t.
Proof.
  intros Hm B Hc. destruct (wp_elim _ _ _ (Hm t B I)) as ([] & t' & E & B' & S'). eapply wp_intro; [done|]. split; [done|]. split; [done|]. auto.
Qed.
Lemma check_pos_cells t : tinv (w := w) (h := h) t -> wp check_pos (fun _ t' => redrawn (at_ t) t t') t.
Proof.
  intros It. destruct (wp_elim _ _ _ (check_pos_tinv Hw Hh t It)) as ([] & t' & E & I' & S'). eapply wp_intro; [done|].
  split; [apply I'|]. split; [done|]. intros x y _ _. revert E. destruct It as [B X Y]. unfold check_pos, update_cursor, on_dev, width, mbind, M_bind, get, when.
  rewrite height_eq, (proj2 (Z.leb_gt _ (m_cursor_y t))) by (done || lia). cbn [mret M_ret]. rewrite (proj2 (Z.leb_gt _ (m_cursor_x t))) by lia.
  cbn [mret M_ret]. intros [= <-]. apply place_cursor_cell.
Qed.
Lemma draw_cells t : base (w := w) (h := h) t -> wp draw (fun _ t' => redrawn (at_ t) t t') t.
Proof.
  intros B. apply same_cells; [apply draw_draws|done|]. intros t' E x y. revert E. unfold draw, mbind, M_bind, get, modify, on_dev.
  destruct (_ && _); cbn [when]; [|by intros [= <-]]. intros [= <-]. apply draw_cell.
Qed.

(** The row of the input: the line that is edited, and blanks. *)
Lemma force_redraw_input_cells t : tinv (w := w) (h := h) t -> m_enabled t = true ->
  wp force_redraw_input (fun _ t' => exists col, hd_error (color_stack (m_data t)) = Some col /\
    redrawn (fun x y => if (x <? m_width t) && (y =? m_cursor_y t + title_height (m_data t))
      then over (m_cur_line t) x (blank (bg col)) else at_ t x y) t t') t.
Proof.
  intros It En. unfold force_redraw_input. wp_step. eapply wp_mono; [by apply check_pos_cells|]. cbn. intros _ t1 (B1 & S1 & C1).
  pose proof S1 as S1'. shape_facts S1'. destruct It as [B X Y]. pose proof B as []. wp_steps. apply wp_color; [done|]. intros col Ec.
  assert (m_data t1 = m_data t) as Ed by done. rewrite Ed in Ec. wp_step. unfold width, true_height.
  assert (Ey : Z.min (u32 (m_cursor_y t1 + title_height (m_data t1))) (u32 (m_height t1 - 1)) = m_cursor_y t + title_height (m_data t)).
  { rewrite Ed. replace (m_cursor_y t1) with (m_cursor_y t) by done. replace (m_height t1) with (m_height t) by done. rewrite !uwrap_small by lia. lia. }
  rewrite Ey. eapply wp_mono; [apply clear_line_cells; [done|lia|]; replace (m_width t1) with (m_width t) by done; lia|].
  cbn. intros _ t2 [(B2 & S2 & C2) _]. wp_step. pose proof S2 as S2'. shape_facts S2'.
  replace (m_cursor_y t1) with (m_cursor_y t) by done. replace (m_cur_line t1) with (m_cur_line t) by done. replace (m_width t1) with (m_width t) by done.
  eapply wp_mono; [apply entries_cells; [done|congruence|rewrite length_take; replace (m_width t2) with (m_width t) by congruence; lia|]|].
  { rewrite height_eq by done. replace (m_height t2) with (m_height t) by congruence. replace (m_data t2) with (m_data t) by congruence. lia. }
  cbn. intros _ t3 [(B3 & S3 & C3) _]. eapply wp_mono; [by apply draw_cells|]. cbn. intros _ t4 (B4 & S4 & C4).
  exists col. split; [done|]. split; [done|]. split; [congruence|]. intros x y Hx Hy. rewrite C4, C3, C2, C1 by done.
  replace (m_data t2) with (m_data t) by congruence. replace (m_width t1) with (m_width t) by done. unfold over.
  destruct (y =? _); [|by rewrite !andb_false_r]. rewrite !andb_true_r. destruct (Z.ltb_spec x (m_width t)).
  - by rewrite lookup_take_lt by lia.
  - by rewrite lookup_ge_None_2 by (rewrite length_take; lia).
Qed.

(** The cells of a page: the line that is edited, the rows of [screen], and the rest as it was. *)
Definition page_cell t (screen : list entries) (col : Color) (x y : Z) : V :=
  if y =? m_cursor_y t + title_height (m_data t) then over (m_cur_line t) x (blank col)
  else if title_height (m_data t) <=? y then
    match screen !! Z.to_nat (y - title_height (m_data t)) with
    | Some row => row_cell col row (m_dirty_width_per_line t !!! Z.to_nat y) x (at_ t x y)
    | None => at_ t x y
    end
  else at_ t x y.
Lemma show_history_cells page t : - 2 ^ 31 <= page < 2 ^ 31 -> tinv (w := w) (h := h) t -> m_enabled t = true -> m_scrolling t = true ->
  wp (show_history page) (fun _ t' => exists screen col, get_screen (m_width t) (height t) (limit_page page t) (m_data t) = Done screen /\
    hd_error (color_stack (m_data t)) = Some col /\ m_current_history_page t' = limit_page page t /\
    forall x y, 0 <= x < m_width t -> 0 <= y < m_height t -> at_ t' x y = page_cell t screen (bg col) x y) t.
Proof.
  intros Hp It En Sc. unfold show_history. wp_steps. rewrite Sc. cbn [when]. pose proof (limit_page_range page t Hp) as Lp. set (lp := limit_page page t) in *.
  rewrite (uwrap_small 32 lp) by lia. wp_steps. fold (paged lp t). pose proof (paged_tinv lp t It) as I1. set (t1 := paged lp t) in *.
  pose proof (i_base _ I1) as B1. pose proof (i_base _ It) as []. destruct (get_screen_rows t1 (height t) lp B1 ltac:(lia)) as (screen & Es & Rs).
  eapply wp_on_data; [exact Es|]. cbn. wp_step. apply wp_color; [done|]. intros col Ec. wp_step. unfold true_height.
  eapply wp_mono; [apply rows_cells; [done|done|by apply Forall_take|rewrite length_take, height_eq by done; cbn; lia]|].
  cbn. intros _ t2 (B2 & S2 & C2). assert (I2 : tinv (w := w) (h := h) t2) by (by apply (tinv_of_base Hw Hh t1)). pose proof S2 as S2'. shape_facts S2'.
  eapply wp_mono; [apply force_redraw_input_cells; [done|congruence]|]. cbn. intros _ t3 (col' & Ec' & B3 & S3 & C3). exists screen, col.
  assert (m_data t2 = m_data t) as Ed by done. assert (m_cursor_y t2 = m_cursor_y t) as Ey by done. assert (m_width t2 = m_width t) as Ew by done.
  assert (m_cur_line t2 = m_cur_line t) as El by done. change (m_data t1) with (m_data t) in *. rewrite Ed in Ec'. assert (col' = col) as -> by congruence.
  split; [done|]. split; [done|]. split; [shape_facts S3; congruence|]. intros x y Hx Hy.
  rewrite C3, C2 by lia. rewrite Ed, Ey, Ew, El, (proj2 (Z.ltb_lt x _)) by lia. cbn [andb]. unfold page_cell. destruct (y =? _); [done|].
  change (at_ t1 x y) with (at_ t x y). change (m_dirty_width_per_line t1) with (m_dirty_width_per_line t).
  destruct (Z.leb_spec (title_height (m_data t)) y); [rewrite lookup_take_lt by lia; done|by case_match].
Qed.

(** The end of a line: the line goes to the history, the page follows, and the row of the number
    of the cursor is blank. *)
Lemma new_line_cells t : tinv (w := w) (h := h) t ->
  wp new_line (fun _ t' => exists d col, add_line (m_cur_line t) (m_data t) = Done d /\ hd_error (color_stack d) = Some col /\
    m_data t' = d /\ m_cursor_y t' = m_cursor_y (next_page (set_m_data d t)) /\
    m_current_history_page t' = m_current_history_page (next_page (set_m_data d t)) /\
    forall x, 0 <= x < m_width t -> at_ t' x (m_cursor_y t') = blank (bg col)) t.
Proof.
  intros It. unfold new_line. wp_step.
  destruct (wp_elim _ _ _ (keeps_add_line t It)) as ([] & t1 & E1 & I1). eapply wp_intro; [done|].
  unfold add_line_to_history, mbind, M_bind, get, on_data in E1. destruct (add_line (m_cur_line t) (m_data t)) as [d|] eqn:Ea; [|done].
  injection E1 as <-. apply (new_line_scroll Hw Hh); [done|]. set (t1 := set_m_data d t) in *. intros t3 A3 S3. pose proof A3 as [I3 _]. wp_steps.
  eapply wp_mono; [by apply new_line_event|]. cbn. intros _ t5 ([I5 X5] & Y5 & W5 & D5 & P5). pose proof (i_base _ I5) as B5. wp_step.
  apply wp_color; [done|]. intros col Ec. wp_step. pose proof (i_y _ I5). pose proof B5 as [].
  eapply wp_mono; [apply (clear_line_cells (m_cursor_y t3)); [done|lia|unfold width; lia]|]. cbn. intros _ t6 [(B6 & S6 & C6) _]. wp_steps.
  shape_facts S6. shape_facts S3. assert (E3 : m_data t3 = d /\ m_width t3 = m_width t).
  { unfold next_page, scrolled in *. destruct (m_scrolling (next_row t1)); cbn in *; split; congruence. }
  destruct E3 as [E3 E3w]. exists d, col. rewrite D5, E3 in Ec. subst t1. split_and!; try done; try (cbn [m_cursor_y m_data m_current_history_page set_m_cur_line]; congruence).
  intros x Hx. change (at_ t6 x (m_cursor_y t6) = blank (bg col)). assert (m_cursor_y t6 = m_cursor_y t3) as -> by congruence.
  rewrite C6 by lia. unfold width. rewrite Z.eqb_refl, (proj2 (Z.ltb_lt _ _)) by lia. done.
Qed.
End cells.

(** ** The rows of a page when no line is longer than the screen *)

Lemma split_entry_short width entry : forall row, Z.of_nat (length row) + Z.of_nat (length entry) < width -> split_entry width entry row = [row ++ entry].
Proof.
  induction entry as [|e entry IH]; intros row Hl; cbn [split_entry]; [by rewrite app_nil_r|]. cbn [length] in Hl.
  assert (L : Z.of_nat (length (row ++ [e])) = Z.of_nat (length row) + 1) by (rewrite length_app; cbn; lia).
  rewrite (proj2 (Z.leb_gt _ _)) by lia. rewrite IH by lia. by rewrite <- app_assoc.
Qed.
Lemma screen_loop_short buf hist width ht : CircularBuffer.holds buf hist -> Forall (fun l => Z.of_nat (length l) < width) hist ->
  let kept := CircularBuffer.last_n (length (CircularBuffer.m_data buf)) hist in
  forall n i vec, Z.of_nat (length vec) + Z.of_nat n <= ht -> 0 <= i -> i + Z.of_nat n <= CircularBuffer.size buf ->
    screen_loop n width ht i buf vec = Done (vec ++ take n (drop (Z.to_nat i) kept)).
Proof.
  intros Hb Hf kept. destruct (CircularBuffer.holds_spec buf hist Hb) as [Sz G]. fold kept in Sz, G.
  assert (Hk : Forall (fun l => Z.of_nat (length l) < width) kept) by (by apply Forall_drop).
  induction n as [|n IH]; intros i vec Hv Hi Hs; cbn [screen_loop]; [by rewrite app_nil_r|].
  rewrite (proj2 (Z.ltb_lt _ _)) by lia. destruct (G i ltac:(lia)) as (x & Hx & ->). cbn [mbind outcome_bind].
  pose proof (Forall_lookup_1 _ _ _ _ Hk Hx) as Lx. cbn in Lx. rewrite split_entry_short by (cbn; lia).
  rewrite IH; [|rewrite length_app; cbn; lia|lia|lia]. rewrite <- app_assoc, (drop_S _ _ _ Hx). cbn.
  by replace (Z.to_nat (i + 1)) with (S (Z.to_nat i)) by lia.
Qed.
Lemma get_screen_short data hist width ht offset : CircularBuffer.holds (m_buffer data) hist -> Forall (fun l => Z.of_nat (length l) < width) hist ->
  0 <= ht < 2 ^ 31 -> 0 <= offset < 2 ^ 31 ->
  get_screen width ht offset data =
    Done (take (Z.to_nat ht) (drop (Z.to_nat offset) (CircularBuffer.last_n (length (CircularBuffer.m_data (m_buffer data))) hist))).
Proof.
  intros Hb Hf Hh Ho. unfold get_screen, lines. rewrite uwrap_small by lia. destruct (CircularBuffer.holds_spec _ _ Hb) as [Sz _].
  set (kept := CircularBuffer.last_n _ hist) in *. set (n := Z.min _ _ - offset). destruct (decide (0 < n)).
  - rewrite (screen_loop_short _ hist) by (done || (cbn; lia)). cbn [app]. fold kept. f_equal.
    destruct (decide (n = ht)) as [-> |]; [done|]. rewrite !take_ge; [done|rewrite length_drop; lia|rewrite length_drop; lia].
  - replace (Z.to_nat n) with 0%nat by lia. cbn. f_equal. destruct (decide (ht = 0)) as [-> |]; [done|].
    rewrite drop_ge by lia. by rewrite take_nil.
Qed.

(** ** The theorems *)

(** C33: The screen after a page of the history was asked for: the page is limited to the last one,
    the row of the cursor shows the line that is edited, the rows above and below show the rows
    of the page, with blanks up to the width that was drawn there before, and the title and the
    rows past the page are as they were.  When the lines are shorter than the screen the rows
    are the lines of the history from that page on. *)
Theorem show_history_shows {D} `{Display D} {w h} `{!DisplayBounds D w h} {V} `{!DisplayCells D (w := w) (h := h) V} page (t : Terminal D) :
  w < 2 ^ 31 -> h < 2 ^ 31 -> - 2 ^ 31 <= page < 2 ^ 31 -> tinv (w := w) (h := h) t -> m_enabled t = true -> m_scrolling t = true ->
  exists t' screen col, show_history page t = Done (tt, t') /\ tinv (w := w) (h := h) t' /\
    hd_error (color_stack (m_data t)) = Some col /\ m_current_history_page t' = limit_page page t /\
    (forall x y, 0 <= x < m_width t -> 0 <= y < m_height t -> at_ (w := w) (h := h) t' x y = page_cell (w := w) (h := h) t screen (bg col) x y) /\
    (forall hist, CircularBuffer.holds (m_buffer (m_data t)) hist -> Forall (fun l => Z.of_nat (length l) < m_width t) hist ->
      screen = take (Z.to_nat (height t)) (drop (Z.to_nat (limit_page page t))
        (CircularBuffer.last_n (length (CircularBuffer.m_data (m_buffer (m_data t)))) hist))).
Proof.
  intros Hw Hh Hp It En Sc. destruct (wp_elim _ _ _ (show_history_cells Hw Hh page t Hp It En Sc)) as ([] & t' & E & screen & col & Es & Ec & Ep & C).
  exists t', screen, col. pose proof (keeps_show_history Hw Hh page Hp t It) as It'. unfold wp in It'. rewrite E in It'. split_and!; try done.
  intros hist Hb Hf. pose proof (limit_page_range page t Hp). pose proof (i_base _ It) as B. pose proof B as [].
  rewrite (get_screen_short _ hist) in Es; [by injection Es as <-|done|done|rewrite height_eq by done; lia|lia].
Qed.

(** Once the history fills the screen, a line that ends on the last row is not shown: it is put
    on the row above the cursor with the rest of the page, and then that row is cleared, since
    [new_line] clears the row of the number of the cursor without adding the height of the
    title. *)
Theorem new_line_hides_line {D} `{Display D} {w h} `{!DisplayBounds D w h} {V} `{!DisplayCells D (w := w) (h := h) V} (t : Terminal D) :
  w < 2 ^ 31 -> h < 2 ^ 31 -> tinv (w := w) (h := h) t -> m_scrolling t = true -> title_height (m_data t) = 1 ->
  1 < height t -> m_cursor_y t = height t - 1 -> CircularBuffer.m_size (m_buffer (m_data t)) < 2 ^ 31 ->
  height t - 1 <= lines (m_data t) -> lines (m_data t) - height t + 1 <= m_current_history_page t < 2 ^ 31 - 1 ->
  exists t' col, new_line t = Done (tt, t') /\ add_line (m_cur_line t) (m_data t) = Done (m_data t') /\
    hd_error (color_stack (m_data t')) = Some col /\
    m_current_history_page t' + (m_cursor_y t' - title_height (m_data t')) = lines (m_data t') - 1 /\
    forall x, 0 <= x < m_width t -> at_ (w := w) (h := h) t' x (m_cursor_y t') = blank (bg col).
Proof.
  intros Hw Hh It Sc T1 Ht Hy Hsz Hl Hp. destruct (wp_elim _ _ _ (new_line_cells Hw Hh t It)) as ([] & t' & E & d & col & Ea & Ec & <- & Ey & Ep & C).
  exists t', col. split_and!; try done. pose proof (i_base _ It) as B. pose proof B as []. destruct b_hist0 as [hist Hb].
  pose proof Ea as Ea'. unfold add_line in Ea'. destruct (CircularBuffer.add_holds (m_cur_line t) _ _ Hb) as (buf & Eb & Hb' & Sz). rewrite Eb in Ea'.
  cbn in Ea'. injection Ea' as Ed. assert (Ebuf : m_buffer (m_data t') = buf) by (by rewrite <- Ed). assert (Et : title_height (m_data t') = 1) by (by rewrite <- Ed).
  assert (L : lines (m_data t) <= lines (m_data t') <= lines (m_data t) + 1 /\ lines (m_data t') <= CircularBuffer.m_size (m_buffer (m_data t))).
  { unfold lines. rewrite Ebuf. destruct (CircularBuffer.holds_spec _ _ Hb) as [-> _]. destruct (CircularBuffer.holds_spec _ _ Hb') as [-> _].
    unfold CircularBuffer.last_n. rewrite !length_drop, length_app. unfold CircularBuffer.m_size in *. cbn. lia. }
  rewrite Ey, Ep, Et. rewrite height_eq in * by done. rewrite T1 in *. unfold next_page, scrolled, next_row. cbn. rewrite Sc. cbn. unfold limit_page, height, current_history. cbn. rewrite Et.
  rewrite (uwrap_small 32 (m_height t - 1)), (uwrap_small 32 (m_cursor_y t + 1)), (uwrap_small 32 (m_current_history_page t + 1)) by lia.
  rewrite (swrap_small 32 (m_current_history_page t + 1)) by lia. rewrite (proj2 (Z.ltb_ge _ 0)) by lia. rewrite (uwrap_small 32 (lines (m_data t') - _ + 1)) by lia.
  destruct (Z.ltb_spec (lines (m_data t') - (m_height t - 1) + 1) (m_current_history_page t + 1)); [rewrite swrap_small by lia|]; rewrite uwrap_small by lia; lia.
Qed.

(** A terminal of 80 columns and 25 rows with two lines in its history. *)
Definition text_line (ch : Z) : entries := [mkEntry ch default_color].
Definition two_lines : TerminalData :=
  mkData [] default_color 1 [default_color] (CircularBuffer.mkBuf 2 false [text_line 65; text_line 66; []; []]).
Definition text_terminal : Terminal TextScreen.screen :=
  new_terminal 80 25 two_lines (TextScreen.mkScreen (replicate 2000 0) 0).
Lemma two_lines_holds : CircularBuffer.holds (m_buffer two_lines) [text_line 65; text_line 66].
Proof.
  split; cbn; try done. intros i Hi _. assert (i = 0 \/ i = 1) as [-> | ->] by lia; done.
Qed.
Lemma text_new_ok ih : 1 < ih <= 25 -> new_ok (w := 80) (h := 25) 80 ih two_lines (TextScreen.mkScreen (replicate 2000 0) 0).
Proof.
  intros Hh. split; [lia|cbn; lia|done| |]; [eexists; apply two_lines_holds|]. unfold ok, TextScreen.text_bounds, TextScreen.screen_ok.
  cbn [TextScreen.fb]. apply length_replicate.
Qed.
Lemma text_terminal_tinv : tinv (w := 80) (h := 25) text_terminal.
Proof. apply new_tinv, text_new_ok. lia. Qed.
Lemma show_history_shows_witness :
  exists t' screen col, show_history 0 text_terminal = Done (tt, t') /\ tinv (w := 80) (h := 25) t' /\
    hd_error (color_stack (m_data text_terminal)) = Some col /\ m_current_history_page t' = limit_page 0 text_terminal /\
    (forall x y, 0 <= x < 80 -> 0 <= y < 25 -> at_ (w := 80) (h := 25) t' x y = page_cell (w := 80) (h := 25) text_terminal screen (bg col) x y) /\
    (forall hist, CircularBuffer.holds (m_buffer (m_data text_terminal)) hist -> Forall (fun l => Z.of_nat (length l) < 80) hist ->
      screen = take (Z.to_nat (height text_terminal)) (drop (Z.to_nat (limit_page 0 text_terminal)) (CircularBuffer.last_n 4 hist))).
Proof. apply (show_history_shows (w := 80) (h := 25) 0 text_terminal); [lia|lia|lia|apply text_terminal_tinv|done|done]. Defined.

(** A screen of four rows, with the cursor on the last one. *)
Definition low_terminal : Terminal TextScreen.screen :=
  set_m_cursor_y 2 (new_terminal 80 4 two_lines (TextScreen.mkScreen (replicate 2000 0) 0)).
Lemma low_terminal_tinv : tinv (w := 80) (h := 25) low_terminal.
Proof.
  destruct (new_tinv _ _ _ _ (text_new_ok 4 ltac:(lia))) as [[] ? ?].
  split; [split|..]; done || (cbn; lia).
Qed.
Lemma new_line_hides_line_witness :
  exists t' col, new_line low_terminal = Done (tt, t') /\ add_line [] two_lines = Done (m_data t') /\
    hd_error (color_stack (m_data t')) = Some col /\
    m_current_history_page t' + (m_cursor_y t' - title_height (m_data t')) = lines (m_data t') - 1 /\
    forall x, 0 <= x < 80 -> at_ (w := 80) (h := 25) t' x (m_cursor_y t') = blank (bg col).
Proof.
  apply (new_line_hides_line (w := 80) (h := 25) low_terminal);
    [lia|lia|apply low_terminal_tinv|done|done|vm_compute; done|vm_compute; done|vm_compute; done|vm_compute; done|vm_compute; split; done || discriminate].
Defined.
End TerminalShow.
