(* ===== verification/FileCalls.v ===== *)
(** * FileCalls: the system calls on files ([syscalls/Linux/fs/])

    [open], [close], [lseek], [read], [write], [pipe], [chdir], [fchdir], [chroot], [stat] and
    [getcwd] of the current process, over the descriptor tables of [Process], the search of
    [Vfs] and the pipes of [Pipe].  The contents of the files are behind the interface [Files]
    (the virtual functions of [vfs::node]); symbolic links are the code's own.  A call on a pipe is one turn of its loop. *)
From stdpp Require Import base list gmap.
From Stdlib Require Import ZArith Lia.
From S2P Require Import Prelude Hoare Errno Mem32 DeltaQueue Process Pipe Paths Vfs.
Import Errno Process Paths Vfs.

Module FileCalls.

(** ** Nodes *)

(** The virtual functions of the nodes of the store, by their number, and what [stat] and the file
    system of a node say.  Links are below: they call the functions of their target. *)
Class Files (F : Type) := {
  f_size : Z -> F -> outcome Z;
  f_read_impl : Z -> Z -> Z -> F -> outcome (FSError + list Z);
  f_write_impl : Z -> Z -> list Z -> F -> outcome (option FSError * F);
  f_ids : ref -> F -> Z * Z;
  f_stat : ref -> F -> Z * Z * Z;
}.

(** What a file system promises of its regular files: a read inside the file gives its bytes. *)
Class ReadLaws (F : Type) `{Files F} := {
  regular : Z -> F -> Prop;
  contents : Z -> F -> list Z;
  size_law i f : regular i f -> f_size i f = Done (Z.of_nat (length (contents i f)));
  read_law i off n f : regular i f -> 0 <= off -> 0 <= n -> off + n <= Z.of_nat (length (contents i f)) ->
    f_read_impl i off n f = Done (inr (take (Z.to_nat n) (drop (Z.to_nat off) (contents i f))));
}.

(** What a descriptor points to. *)
Inductive object := ORef (r : ref) | OPipe (p : Pipe.pipe).

(** What a call gives: a value and the bytes it put into the buffer, or one more turn, or it
    waits. *)
Inductive ret := Ret (v : Z) (copied : list Z) | Again | Waits.

Definition O_RDONLY : Z := 0x0000.
Definition O_WRONLY : Z := 0x0001.
Definition O_RDWR : Z := 0x0002.
Definition O_APPEND : Z := 0x0008.
Definition O_CREAT : Z := 0x0200.
Definition O_TRUNC : Z := 0x0400.
Definition O_EXCL : Z := 0x0800.
Definition O_DIRECTORY : Z := 0x10000.
Definition SEEK_SET : Z := 0.
Definition SEEK_CUR : Z := 1.
Definition SEEK_END : Z := 2.
Definition S_IFDIR : Z := 0x4000.
Definition S_IFREG : Z := 0x8000.
Definition S_IFIFO : Z := 0x1000.
Definition S_IFLNK : Z := 0xA000.

(** The fields of [struct stat] that the call sets. *)
Record stat := mkStat { st_dev : Z; st_ino : Z; st_mode : Z; st_nlink : Z; st_uid : Z; st_gid : Z; st_size : Z; st_blksize : Z; st_blocks : Z }.

Section calls.
(** The tree of nodes, the fuel of the searches, and [Memory::check_user_ptr]. *)
Context {F : Type} `{Files F} (s : store) (fuel : nat) (check : Z -> Z -> bool).

(** The state: the processes, the files, the objects that descriptors point to, the named pipes,
    and the working directory and the root of the current process, as the nodes they point to. *)
Record world := mkWorld {
  procs : kernel; files : F; objects : list object; named_pipes : list ((Z * Z) * Z); w_pwd : ref; w_root : ref }.
Definition set_procs (v : kernel) (w : world) : world := mkWorld v (files w) (objects w) (named_pipes w) (w_pwd w) (w_root w).
Definition set_files (v : F) (w : world) : world := mkWorld (procs w) v (objects w) (named_pipes w) (w_pwd w) (w_root w).
Definition set_objects (v : list object) (w : world) : world := mkWorld (procs w) (files w) v (named_pipes w) (w_pwd w) (w_root w).
Definition set_named_pipes (v : list ((Z * Z) * Z)) (w : world) : world := mkWorld (procs w) (files w) (objects w) v (w_pwd w) (w_root w).
Definition set_pwd (v : ref) (w : world) : world := mkWorld (procs w) (files w) (objects w) (named_pipes w) v (w_root w).
Definition set_root (v : ref) (w : world) : world := mkWorld (procs w) (files w) (objects w) (named_pipes w) (w_pwd w) v.
Definition op (A : Type) : Type := M world A.

Definition lift {A} (o : outcome A) : op A := fun w => match o with Done a => Done (a, w) | Fault f => Fault f end.
Definition on_procs {A} (m : M kernel A) : op A :=
  fun w => match m (procs w) with Done (a, k) => Done (a, set_procs k w) | Fault f => Fault f end.
(** [Process::current()]. *)
Definition me : op process := on_procs (c ← gets m_current; deref c).
Definition user_find (path : str) : op query :=
  p ← me; w ← get; lift (Vfs.user_find s fuel (mkId (p_uid p) (p_gid p) (w_pwd w) (w_root w)) path).
Definition my_fd (fd : Z) : op (option FDInfo) := p ← me; w ← get; mret (get_fd (p_fd_table p) fd (procs w)).
Definition my_add_fd (info : FDInfo) : op Z :=
  p ← me; w ← get; let '(fd, k) := add_fd (p_fd_table p) info (procs w) in put (set_procs k w) ;; mret fd.
Definition may (p : process) (r : ref) (t : AccessRequestPerm) : bool :=
  let '(perms, uid, gid) := perms_of s r in check_perms (p_uid p) (p_gid p) perms uid gid t.

(** [std::make_shared]: the place of a new object. *)
Definition new_object (o : object) : op Z :=
  w ← get; put (set_objects (objects w ++ [o]) w) ;; mret (Z.of_nat (length (objects w))).
Definition object_at (h : Z) : op object :=
  fun w => match objects w !! Z.to_nat h with Some o => Done (o, w) | None => Fault BadAccess end.

(** [symlink::actual_target]: [value_or] gives a null pointer, and so does an empty path. *)
Definition actual_target (t : str) : outcome ref :=
  res ← find s fuel t; match res with Some (Some r) => Done r | _ => Fault BadAccess end.
(** [size], the assertions of [node::read] and [node::write], [read_impl] and [write_impl] of any
    node; a link goes through the functions of what it points to, with their assertions but no
    look at the rights; [n] bounds the links on the way. *)
Fixpoint size_of (n : nat) (r : ref) (f : F) : outcome Z :=
  match r, n with
  | Node i, _ => f_size i f
  | Link _ _ _, O => Fault OutOfFuel
  | Link _ t _, S n => q ← actual_target t; size_of n q f
  end.
Definition read_asserts (r : ref) (offset count : Z) (f : F) : outcome unit :=
  t ← type_of s fuel r;
  if bool_decide (t = Directory) then Fault AssertFailed
  else
    n ← size_of fuel r f;
    if negb (Ztrue n) || (u32 (offset + count) <=? n) then Done tt else Fault AssertFailed.
Fixpoint read_impl_of (n : nat) (r : ref) (offset count : Z) (f : F) : outcome (FSError + list Z) :=
  match r, n with
  | Node i, _ => f_read_impl i offset count f
  | Link _ _ _, O => Fault OutOfFuel
  | Link _ t _, S n => q ← actual_target t; _ ← read_asserts q offset count f; read_impl_of n q offset count f
  end.
Fixpoint write_impl_of (n : nat) (r : ref) (offset : Z) (data : list Z) (f : F) : outcome (option FSError * F) :=
  match r, n with
  | Node i, _ => f_write_impl i offset data f
  | Link _ _ _, O => Fault OutOfFuel
  | Link _ t _, S n =>
      q ← actual_target t; _ ← read_asserts q offset (Z.of_nat (length data)) f; write_impl_of n q offset data f
  end.
Definition node_type (o : object) : op ntype :=
  match o with ORef r => lift (type_of s fuel r) | OPipe _ => mret File end.
Definition node_size (o : object) : op Z := 
  w ← get; match o with ORef r => lift (size_of fuel r (files w)) | OPipe _ => mret 0 end.

(** [gsl::span]: a null pointer has no elements, and the size is a [ptrdiff_t]. *)
Definition span_ok (buf count : Z) : bool := if buf =? 0 then count =? 0 else count <? 2 ^ 31.

(** [node::read] and [node::write]. *)
Definition node_assert (o : object) (offset count : Z) : op unit :=
  match o with ORef r => w ← get; lift (read_asserts r offset count (files w)) | OPipe _ => mret tt end.
Definition node_read (h : Z) (o : object) (offset count : Z) : op ret :=
  node_assert o offset count ;;
  match o with
  | ORef r =>
      w ← get; res ← lift (read_impl_of fuel r offset count (files w));
      match res with
      | inl e => mret (Ret (u32 (- to_errno e)) [])
      | inr data => mret (Ret (Z.of_nat (length data)) data)
      end
  | OPipe p =>
      match Pipe.read_impl count p with
      | Pipe.Return (v, data) p => modify (fun w => set_objects (<[Z.to_nat h := OPipe p]> (objects w)) w) ;; mret (Ret v data)
      | Pipe.TooLarge => mret (Ret (u32 (- to_errno TooLarge)) [])
      | Pipe.Retry p => modify (fun w => set_objects (<[Z.to_nat h := OPipe p]> (objects w)) w) ;; mret Again
      | Pipe.Block => mret Waits
      | Pipe.Stop f => fail f
      end
  end.
Definition node_write (h : Z) (o : object) (offset : Z) (data : list Z) : op ret :=
  let count := Z.of_nat (length data) in
  node_assert o offset count ;;
  match o with
  | ORef r =>
      w ← get; res ← lift (write_impl_of fuel r offset data (files w));
      let '(e, f) := res in
      modify (set_files f) ;;
      match e with
      | Some e => mret (Ret (u32 (- to_errno e)) [])
      | None => mret (Ret count [])
      end
  | OPipe p =>
      match Pipe.write_impl data p with
      | Pipe.Return _ p => modify (fun w => set_objects (<[Z.to_nat h := OPipe p]> (objects w)) w) ;; mret (Ret count [])
      | Pipe.TooLarge => mret (Ret (u32 (- to_errno TooLarge)) [])
      | Pipe.Retry p => modify (fun w => set_objects (<[Z.to_nat h := OPipe p]> (objects w)) w) ;; mret Again
      | Pipe.Block => mret Waits
      | Pipe.Stop f => fail f
      end
  end.

(** [vfs::pipe::open_fifo]. *)
Definition open_fifo (r : ref) : op Z :=
  w ← get;
  let key := f_ids r (files w) in
  match List.find (fun p => bool_decide (p.1 = key)) (named_pipes w) with
  | Some (_, h) => mret h
  | None =>
      h ← new_object (OPipe Pipe.new_pipe);
      modify (fun w => set_named_pipes ((key, h) :: named_pipes w) w) ;; mret h
  end.

(** ** The calls

    The result of a call is an [int]; a path argument comes with the result of its check. *)
Definition sys_open (path_ok : bool) (path : str) (flags : Z) : op Z :=
  if negb path_ok then mret (- EFAULT)
  else
    result ← user_find path;
    match result with
    | Error e => mret (- e)
    | Target r =>
        if has flags O_TRUNC then mret (- ENOSYS)
        else if has flags O_CREAT then mret (- ENOSYS)
        else if has flags O_EXCL then mret (- EEXIST)
        else
          t ← lift (type_of s fuel r);
          if has flags O_DIRECTORY && negb (bool_decide (t = Directory)) then mret (- ENOTDIR)
          else
            p ← me;
            let mode := Z.land flags 3 in
            let read := (mode =? O_RDONLY) || (mode =? O_RDWR) in
            let write := (mode =? O_WRONLY) || (mode =? O_RDWR) in
            if read && negb (may p r ReadRequest) then mret (- EACCES)
            else if write && negb (may p r WriteRequest) then mret (- EACCES)
            else
              h ← (if bool_decide (t = FIFO) then open_fifo r else new_object (ORef r));
              my_add_fd (mkFD (Some h) read write (has flags O_APPEND) 0)
    end.
Definition sys_close (fd : Z) : op Z :=
  e ← my_fd fd;
  match e with
  | None => mret (- EBADFD)
  | Some _ => p ← me; on_procs (close_fd (p_fd_table p) fd) ;; mret 0
  end.

(** [entry->cursor = v]. *)
Definition set_cursor (fd : Z) (f : FDInfo) (v : Z) : op unit :=
  p ← me;
  modify (fun w => set_procs (set_fds (p_fd_table p)
    (<[Z.to_nat fd := mkFD (node f) (fd_read f) (fd_write f) (fd_append f) v]> (fds (p_fd_table p) (procs w))) (procs w)) w).
Definition handle (f : FDInfo) : Z := default 0 (node f).
Definition sys_lseek (fd off whence : Z) : op Z :=
  e ← my_fd fd;
  match e with
  | None => mret (- EBADFD)
  | Some f =>
      if negb (whence =? SEEK_CUR) && negb (whence =? SEEK_SET) && negb (whence =? SEEK_END) then mret (- EINVAL)
      else
        o ← object_at (handle f);
        n ← node_size o;
        let new_cursor :=
          if whence =? SEEK_CUR then s32 (s32 (fd_cursor f) + off)
          else if whence =? SEEK_SET then off
          else s32 (u32 (n + off)) in
        if new_cursor <? 0 then mret (- EINVAL)
        else set_cursor fd f new_cursor ;; mret new_cursor
  end.

(** The checks of [read] and [write]; only the first byte of the buffer is checked. *)
Definition sys_read (fd buf count : Z) : op ret :=
  if negb (check buf 1) then mret (Ret (u32 (- EFAULT)) [])
  else
    e ← my_fd fd;
    match e with
    | None => mret (Ret (u32 (- EBADFD)) [])
    | Some f =>
        if negb (fd_read f) then mret (Ret (u32 (- EBADFD)) [])
        else
          o ← object_at (handle f);
          t ← node_type o;
          if bool_decide (t = Directory) then mret (Ret (u32 (- EISDIR)) [])
          else
            n ← node_size o;
            if Ztrue n && (n <? u32 (fd_cursor f + count)) then mret (Ret (u32 (- EIO)) [])
            else assert_ (span_ok buf count) ;; node_read (handle f) o (fd_cursor f) count
    end.
Definition sys_write (fd buf : Z) (data : list Z) : op ret :=
  if negb (check buf 1) then mret (Ret (u32 (- EFAULT)) [])
  else
    e ← my_fd fd;
    match e with
    | None => mret (Ret (u32 (- EBADFD)) [])
    | Some f =>
        if negb (fd_write f) then mret (Ret (u32 (- EBADFD)) [])
        else
          o ← object_at (handle f);
          t ← node_type o;
          if bool_decide (t = Directory) then mret (Ret (u32 (- EINVAL)) [])
          else
            n ← node_size o;
            if Ztrue n && (n <=? u32 (fd_cursor f + Z.of_nat (length data))) then mret (Ret (u32 (- EIO)) [])
            else assert_ (span_ok buf (Z.of_nat (length data))) ;; node_write (handle f) o (fd_cursor f) data
    end.
(** The two descriptors that go to the array. *)
Definition sys_pipe (fd_ok : bool) : op (Z + Z * Z) :=
  if negb fd_ok then mret (inl (- EFAULT))
  else
    h ← new_object (OPipe Pipe.new_pipe);
    a ← my_add_fd (mkFD (Some h) true false false 0);
    b ← my_add_fd (mkFD (Some h) false true false 0);
    mret (inr (a, b)).

Definition chdir_impl (r : ref) : op Z :=
  p ← me; w ← get;
  link ← lift (resolve_symlink s fuel (mkId (p_uid p) (p_gid p) (w_pwd w) (w_root w)) r);
  match link with
  | Error e => mret (- e)
  | Target target =>
      t ← lift (type_of s fuel target);
      if negb (bool_decide (t = Directory)) then mret (- ENOTDIR)
      else modify (set_pwd target) ;; mret 0
  end.
Definition sys_chdir (path_ok : bool) (path : str) : op Z :=
  if negb path_ok then mret (- EFAULT)
  else
    result ← user_find path;
    match result with Error e => mret (- e) | Target r => chdir_impl r end.
Definition sys_fchdir (fd : Z) : op Z :=
  e ← my_fd fd;
  match e with
  | None => mret (- EBADFD)
  | Some f =>
      if negb (fd_read f) then mret (- EBADFD)
      else
        o ← object_at (handle f);
        match o with ORef r => chdir_impl r | OPipe _ => mret (- ENOTDIR) end
  end.
Definition sys_chroot (path_ok : bool) (path : str) : op Z :=
  if negb path_ok then mret (- EFAULT)
  else
    result ← user_find path;
    match result with
    | Error e => mret (- e)
    | Target r =>
        t ← lift (type_of s fuel r);
        if negb (bool_decide (t = Directory)) then mret (- ENOTDIR)
        else modify (set_root r) ;; mret 0
    end.
(** The bytes that go to the buffer, of which the first was checked. *)
Definition sys_getcwd (buf_ok : bool) (size : Z) : op (Z * list Z) :=
  if negb buf_ok then mret (- EFAULT, [])
  else if size =? 0 then mret (- EINVAL, [])
  else
    w ← get; pwd ← lift (path s fuel (w_pwd w));
    if size <? Z.of_nat (length pwd) + 1 then mret (- ERANGE, [])
    else mret (0, pwd ++ [0]).

(** The [switch] of [sys_stat] has no [break]. *)
Definition type_bits (t : ntype) : Z :=
  match t with
  | Unknown | File => Z.lor S_IFREG (Z.lor S_IFDIR (Z.lor S_IFLNK S_IFIFO))
  | Directory => Z.lor S_IFDIR (Z.lor S_IFLNK S_IFIFO)
  | SymLink => Z.lor S_IFLNK S_IFIFO
  | FIFO => S_IFIFO
  end.
Definition sys_stat (path_ok ptr_ok : bool) (path : str) : op (Z + stat) :=
  if negb path_ok || negb ptr_ok then mret (inl (- EFAULT))
  else
    result ← user_find path;
    match result with
    | Error e => mret (inl (- e))
    | Target r =>
        p ← me;
        if negb (may p r ReadRequest) then mret (inl (- EPERM))
        else
          w ← get; t ← lift (type_of s fuel r);
          size ← lift (size_of fuel r (files w));
          let '(perms, uid, gid) := perms_of s r in
          let '(dev, inode) := f_ids r (files w) in
          let '(nlinks, block_size, block_count) := f_stat r (files w) in
          mret (inr (mkStat dev inode (Z.lor perms (type_bits t)) nlinks uid gid size block_size block_count))
    end.
End calls.
Arguments world F : clear implicits.
End FileCalls.
