(* ===== verification/FileCallsProofs.v ===== *)
(** * FileCallsProofs: rights, positions and contents through the system calls *)
From stdpp Require Import base list gmap relations.
From Stdlib Require Import ZArith Lia.
From S2P Require Import Prelude Hoare Errno Mem32 DeltaQueue Process ProcessProofs ProcessInv ProcessSpec Pipe Paths Vfs FileCalls.
Import Errno Process Paths Vfs FileCalls.

Module FileCallsProofs.

Section proofs.
Context {F : Type} `{Files F} (s : store) (fuel : nat) (check : Z -> Z -> bool).
Implicit Types (w : world F).

(** ** The current process *)

Definition cur w : option process := Process.lookup (m_current (procs w)) (procs w).
Lemma me_run p w : cur w = Some p -> me w = Done (p, w).
Proof. intros E%ProcessProofs.deref_run. unfold me, on_procs. rewrite run_bind_gets, E. by destruct w. Qed.
Lemma me_done p w w' : me w = Done (p, w') -> w' = w /\ cur w = Some p.
Proof.
  unfold me, on_procs. rewrite run_bind_gets. destruct (deref _ _) as [[q k]|] eqn:E; [|done]. intros [= -> <-].
  apply ProcessInv.deref_done in E as [E ->]. by destruct w.
Qed.
Lemma my_fd_run p fd w : cur w = Some p -> my_fd fd w = Done (get_fd (p_fd_table p) fd (procs w), w).
Proof. intros E. unfold my_fd. by rewrite (run_bind_done _ _ _ _ _ (me_run p w E)). Qed.

Lemma lift_done {A} (o : outcome A) a w w' : lift o w = Done (a, w') -> w' = w /\ o = Done a.
Proof. unfold lift. destruct o; [|done]. by intros [= <- <-]. Qed.

(** ** What the process may do with a descriptor *)

(** The object of the entry is there, and a file is one the process may read or write. *)
Definition entry_ok w (p : process) (f : FDInfo) : Prop :=
  node f <> None -> 0 <= handle f < Z.of_nat (length (objects w)) /\
  forall r, objects w !! Z.to_nat (handle f) = Some (ORef r) ->
    (fd_read f = true -> may s p r ReadRequest = true) /\ (fd_write f = true -> may s p r WriteRequest = true).
Record inv w : Prop := {
  v_entries p : cur w = Some p -> Forall (entry_ok w p) (fds (p_fd_table p) (procs w));
  v_fifos : Forall (fun e => 0 <= e.2 /\ exists q, objects w !! Z.to_nat e.2 = Some (OPipe q)) (named_pipes w);
}.

Lemma get_fd_in key fd k f : get_fd key fd k = Some f -> f ∈ fds key k /\ node f <> None /\ 0 <= fd.
Proof.
  unfold get_fd. destruct (Z.ltb_spec fd 0); [done|]. destruct (fds key k !! Z.to_nat fd) as [g|] eqn:E; [|done].
  destruct (node g) eqn:N; [|done]. intros [= <-]. apply list_elem_of_lookup_2 in E. split_and!; [done|congruence|lia].
Qed.
Lemma inv_fd w p fd f : inv w -> cur w = Some p -> get_fd (p_fd_table p) fd (procs w) = Some f -> node f <> None /\ entry_ok w p f.
Proof.
  intros I C (Hin & N & _)%get_fd_in. split; [done|]. pose proof (v_entries w I p C) as Hf. rewrite Forall_forall in Hf. by apply Hf.
Qed.

(** Objects keep their kind, and new ones come after them. *)
Definition extends w w' : Prop :=
  (length (objects w) <= length (objects w'))%nat /\
  (forall h r, (h < length (objects w))%nat -> objects w' !! h = Some (ORef r) -> objects w !! h = Some (ORef r)) /\
  (forall h q, objects w !! h = Some (OPipe q) -> exists q', objects w' !! h = Some (OPipe q')).
Lemma entry_extends w w' p f : extends w w' -> entry_ok w p f -> entry_ok w' p f.
Proof.
  intros (L & R & _) E N. destruct (E N) as [B P]. split; [lia|]. intros r Hr. apply P, R; [lia|done].
Qed.
Lemma inv_extends w w' : inv w -> extends w w' -> procs w' = procs w -> named_pipes w' = named_pipes w -> inv w'.
Proof.
  intros [E N] X Hp Hn. split.
  - intros p C. unfold cur in *. rewrite Hp in *. eapply Forall_impl; [by apply E|]. intros f. by apply entry_extends.
  - rewrite Hn. eapply Forall_impl; [exact N|]. cbn. intros e [B [q Hq]]. destruct X as (_ & _ & X). split; [done|]. by apply X in Hq.
Qed.
Lemma inv_same w w' : inv w -> objects w' = objects w -> procs w' = procs w -> named_pipes w' = named_pipes w -> inv w'.
Proof. intros I Eo. apply inv_extends; [done|]. unfold extends. rewrite Eo. split_and!; eauto. Qed.
(** The table of the process is changed to another one that is in order. *)
Lemma inv_set_fds w p l : inv w -> cur w = Some p -> Forall (entry_ok w p) l -> inv (set_procs (set_fds (p_fd_table p) l (procs w)) w).
Proof.
  intros [E N] C Hl. split; [|exact N]. intros q Cq. change (cur w = Some q) in Cq. assert (q = p) as -> by congruence.
  cbn. unfold fds, set_fds. cbn. by rewrite lookup_insert_eq.
Qed.

(** ** Operations that change nothing *)

Definition quiet {A} (m : op (F := F) A) : Prop := forall w a w', m w = Done (a, w') -> w' = w.
Lemma op_quiet_bind {A B} (m : op A) (k : A -> op B) : quiet m -> (forall a, quiet (k a)) -> quiet (m ≫= k).
Proof. intros Hm Hk w b w' (a & w1 & E1 & E2)%bind_done. apply Hm in E1 as ->. by apply Hk in E2. Qed.
Lemma op_quiet_ret {A} (a : A) : quiet (mret a).
Proof. by intros w b w' [= _ <-]. Qed.
Lemma quiet_lift {A} (o : outcome A) : quiet (lift o).
Proof. by intros w a w' [-> _]%lift_done. Qed.
Lemma quiet_get : quiet get.
Proof. by intros w a w' [= _ <-]. Qed.
Lemma quiet_me : quiet me.
Proof. by intros w a w' [-> _]%me_done. Qed.
Lemma op_quiet_assert b : quiet (assert_ b).
Proof. intros w a w'. unfold assert_. destruct b; [by intros [= _ <-]|done]. Qed.
Lemma quiet_object_at h : quiet (object_at h).
Proof. intros w a w'. unfold object_at. destruct (_ !! _); [by intros [= _ <-]|done]. Qed.
#[local] Hint Resolve op_quiet_bind op_quiet_ret quiet_lift quiet_get quiet_me op_quiet_assert quiet_object_at : quiet.
Lemma quiet_my_fd fd : quiet (my_fd fd).
Proof. unfold my_fd. auto with quiet. Qed.
Lemma quiet_node_type o : quiet (node_type s fuel o).
Proof. destruct o; cbn; auto with quiet. Qed.
Lemma quiet_node_size o : quiet (node_size s fuel o).
Proof. unfold node_size. destruct o; auto with quiet. Qed.
#[local] Hint Resolve quiet_my_fd quiet_node_type quiet_node_size : quiet.
Lemma quiet_user_find p : quiet (user_find s fuel p).
Proof. unfold user_find. auto with quiet. Qed.
Lemma quiet_node_assert o offset count : quiet (node_assert s fuel o offset count).
Proof. unfold node_assert. destruct o; auto with quiet. Qed.
#[local] Hint Resolve quiet_user_find quiet_node_assert : quiet.

(** Step over an operation that changes nothing. *)
Lemma quiet_step {A B} (m : op A) (k : A -> op B) w b w' : quiet m -> (m ≫= k) w = Done (b, w') ->
  exists a, m w = Done (a, w) /\ k a w = Done (b, w').
Proof. intros Hm (a & w1 & E1 & E2)%bind_done. pose proof (Hm _ _ _ E1) as ->. eauto. Qed.
Ltac qstep E a Ea := apply quiet_step in E as (a & Ea & E); [|solve [auto with quiet]].

(** ** The calls keep it *)

Definition keeps {A} (m : op (F := F) A) : Prop := forall w a w', inv w -> m w = Done (a, w') -> inv w'.
Lemma keeps_quiet {A} (m : op A) : quiet m -> keeps m.
Proof. by intros Q w a w' I ->%Q. Qed.
Lemma op_keeps_bind {A B} (m : op A) (k : A -> op B) : keeps m -> (forall a, keeps (k a)) -> keeps (m ≫= k).
Proof. intros Hm Hk w b w' I (a & w1 & E1 & E2)%bind_done. eapply Hk; [|exact E2]. by eapply Hm. Qed.

(** A turn of a pipe. *)
Lemma inv_pipe w h q q' : inv w -> objects w !! Z.to_nat h = Some (OPipe q) -> inv (set_objects (<[Z.to_nat h := OPipe q']> (objects w)) w).
Proof.
  intros I Hq. apply (inv_extends w); [done| |done|done]. unfold extends. cbn. rewrite length_insert. pose proof (lookup_lt_Some _ _ _ Hq).
  split; [done|]. split.
  - intros h' r _. destruct (decide (h' = Z.to_nat h)) as [-> |]; [by rewrite list_lookup_insert_eq|by rewrite list_lookup_insert_ne].
  - intros h' r Hr. destruct (decide (h' = Z.to_nat h)) as [-> |]; [rewrite list_lookup_insert_eq by done; eauto|rewrite list_lookup_insert_ne by done; eauto].
Qed.
Lemma node_read_keeps h o offset count w a w' : inv w -> objects w !! Z.to_nat h = Some o ->
  node_read s fuel h o offset count w = Done (a, w') -> inv w'.
Proof.
  intros I Ho (u & w1 & E1 & E2)%bind_done. apply quiet_node_assert in E1 as ->. destruct o as [r|q].
  - qstep E2 x Ex. qstep E2 res Er. by destruct res; injection E2 as _ <-.
  - destruct (Pipe.read_impl count q) as [[v r] q'| | | |]; unfold mbind, M_bind, modify in E2; try done; injection E2 as _ <-; try done; by eapply inv_pipe.
Qed.
Lemma node_write_keeps h o offset data w a w' : inv w -> objects w !! Z.to_nat h = Some o ->
  node_write s fuel h o offset data w = Done (a, w') -> inv w'.
Proof.
  intros I Ho (u & w1 & E1 & E2)%bind_done. apply quiet_node_assert in E1 as ->. destruct o as [r|q].
  - qstep E2 x Ex. qstep E2 res Er. revert E2. unfold mbind, M_bind, modify. destruct res as [[e|] f]; intros [= _ <-]; by apply (inv_same w).
  - destruct (Pipe.write_impl data q); unfold mbind, M_bind, modify in E2; try done; injection E2 as _ <-; try done; by eapply inv_pipe.
Qed.

Lemma object_at_done h w o w' : object_at h w = Done (o, w') -> objects w !! Z.to_nat h = Some o.
Proof. unfold object_at. destruct (_ !! _); [|done]. by intros [= <- _]. Qed.
Lemma sys_read_keeps fd buf count : keeps (sys_read s fuel check fd buf count).
Proof.
  intros w a w' I E. unfold sys_read in E. destruct (check buf 1); cbn [negb] in E; [|by injection E as _ <-]. qstep E e Ee.
  destruct e as [f|]; [|by injection E as _ <-]. destruct (fd_read f); cbn [negb] in E; [|by injection E as _ <-]. qstep E o Eo.
  qstep E t Et. destruct (bool_decide _); [by injection E as _ <-|]. qstep E n En. destruct (_ && _); [by injection E as _ <-|].
  qstep E u Eu. apply object_at_done in Eo. by eapply node_read_keeps.
Qed.
Lemma sys_write_keeps fd buf data : keeps (sys_write s fuel check fd buf data).
Proof.
  intros w a w' I E. unfold sys_write in E. destruct (check buf 1); cbn [negb] in E; [|by injection E as _ <-]. qstep E e Ee.
  destruct e as [f|]; [|by injection E as _ <-]. destruct (fd_write f); cbn [negb] in E; [|by injection E as _ <-]. qstep E o Eo.
  qstep E t Et. destruct (bool_decide _); [by injection E as _ <-|]. qstep E n En. destruct (_ && _); [by injection E as _ <-|].
  qstep E u Eu. apply object_at_done in Eo. by eapply node_write_keeps.
Qed.
Lemma sys_close_keeps fd : keeps (sys_close (F := F) fd).
Proof.
  intros w a w' I E. unfold sys_close in E. qstep E e Ee. destruct e as [f|]; [|by injection E as _ <-]. qstep E p Ep.
  apply me_done in Ep as [_ C]. apply bind_done in E as (u & w1 & E1 & [= _ <-]). revert E1. unfold on_procs, close_fd. rewrite run_bind_get.
  destruct (get_fd _ _ _) as [g|] eqn:G; [|done]. intros [= _ <-]. apply inv_set_fds; [done|done|]. apply Forall_insert; [by apply I|]. by intros N.
Qed.
Lemma sys_lseek_keeps fd off whence : keeps (sys_lseek s fuel fd off whence).
Proof.
  intros w a w' I E. unfold sys_lseek in E. qstep E e Ee. destruct e as [f|]; [|by injection E as _ <-]. destruct (_ && _); [by injection E as _ <-|].
  qstep E o Eo. qstep E n En. destruct (_ <? 0); [by injection E as _ <-|]. apply bind_done in E as (u & w1 & E1 & [= _ <-]).
  unfold set_cursor in E1. qstep E1 p Ep. apply me_done in Ep as [_ C]. injection E1 as _ <-. apply inv_set_fds; [done|done|].
  apply Forall_insert; [by apply I|]. rewrite (my_fd_run p) in Ee by done. injection Ee as Ee. destruct (inv_fd w p fd f I C Ee) as [N Ok].
  intros N'. exact (Ok N).
Qed.

Lemma new_object_done o w h w' : new_object o w = Done (h, w') -> w' = set_objects (objects w ++ [o]) w /\ h = Z.of_nat (length (objects w)).
Proof. unfold new_object, mbind, M_bind, get, put. by intros [= <- <-]. Qed.
Lemma inv_new_object w o : inv w -> inv (set_objects (objects w ++ [o]) w).
Proof.
  intros I. apply (inv_extends w); [done| |done|done]. unfold extends. cbn. rewrite length_app. split; [lia|]. split.
  - intros h r Hh. by rewrite lookup_app_l.
  - intros h q Hq. exists q. by apply lookup_app_l_Some.
Qed.
Lemma my_add_fd_keeps info w p a w' : inv w -> cur w = Some p -> entry_ok w p info -> my_add_fd info w = Done (a, w') -> inv w' /\ cur w' = Some p /\ objects w' = objects w.
Proof.
  intros I C Ok E. unfold my_add_fd in E. rewrite (run_bind_done _ _ _ _ _ (me_run p w C)), run_bind_get in E. unfold add_fd in E.
  unfold mbind, M_bind, put in E. injection E as _ <-. split; [|done]. apply inv_set_fds; [done|done|].
  destruct (Nat.ltb _ _); [apply Forall_insert|apply Forall_app; split]; try done; [by apply I|by apply I|by constructor].
Qed.
Lemma open_fifo_done r w h w' : inv w -> open_fifo r w = Done (h, w') ->
  inv w' /\ procs w' = procs w /\ 0 <= h < Z.of_nat (length (objects w')) /\ exists q, objects w' !! Z.to_nat h = Some (OPipe q).
Proof.
  intros I. unfold open_fifo. rewrite run_bind_get. cbv zeta. destruct (List.find _ _) as [[k h']|] eqn:Ef.
  - intros [= <- <-]. apply List.find_some in Ef as [Hin _]. apply list_elem_of_In in Hin. pose proof (v_fifos w I) as N. rewrite Forall_forall in N.
    destruct (N _ Hin) as [B [q Hq]]. cbn in *. pose proof (lookup_lt_Some _ _ _ Hq). split_and!; [done|done|lia|lia|eauto].
  - intros (a & w1 & E1 & E2)%bind_done. apply new_object_done in E1 as [-> ->]. unfold mbind, M_bind, modify in E2. injection E2 as <- <-.
    pose proof (inv_new_object w (OPipe Pipe.new_pipe) I) as I'. set (w1 := set_objects _ w) in *.
    assert (Hq : objects w1 !! Z.to_nat (Z.of_nat (length (objects w))) = Some (OPipe Pipe.new_pipe)) by (rewrite Nat2Z.id; by apply list_lookup_middle).
    split; [split; [apply I'|]|]. { constructor; [split; [cbn; lia|by eexists]|apply I']. }
    split; [done|]. split; [cbn; rewrite length_app; cbn; lia|]. by eexists.
Qed.

Lemma sys_open_keeps path_ok path flags : keeps (sys_open s fuel path_ok path flags).
Proof.
  intros w a w' I E. unfold sys_open in E. destruct path_ok; cbn [negb] in E; [|by injection E as _ <-]. qstep E q Eqr.
  destruct q as [e|r]; [by injection E as _ <-|]. do 3 (destruct (has flags _) in E; [by injection E as _ <-|]). qstep E t Et.
  destruct (_ && _); [by injection E as _ <-|]. qstep E p Ep. apply me_done in Ep as [_ C]. cbv zeta in E.
  set (rd := (_ =? O_RDONLY) || _) in E. set (wr := (_ =? O_WRONLY) || _) in E.
  destruct (rd && negb (may s p r ReadRequest)) eqn:Rd; [by injection E as _ <-|]. destruct (wr && negb (may s p r WriteRequest)) eqn:Wr; [by injection E as _ <-|].
  apply bind_done in E as (h & w1 & E1 & E2). destruct (bool_decide (t = FIFO)).
  - apply open_fifo_done in E1 as (I1 & P1 & B1 & q & Hq); [|done]. assert (C1 : cur w1 = Some p) by (unfold cur; by rewrite P1).
    eapply my_add_fd_keeps in E2 as [I2 _]; [done|done|done|]. intros _. cbn. split; [done|]. intros r' Hr. change (handle _) with h in Hr. congruence.
  - apply new_object_done in E1 as [-> ->]. eapply my_add_fd_keeps in E2 as [I2 _]; [done|by apply inv_new_object|done|]. intros _. cbn [handle node default]. split.
    + unfold handle. cbn. rewrite length_app. cbn. lia.
    + intros r'. unfold handle. cbn. rewrite Nat2Z.id, list_lookup_middle by done. intros [= ->]. cbn.
      split; intros ->; [destruct (may s p r' ReadRequest)|destruct (may s p r' WriteRequest)]; done.
Qed.
Lemma sys_pipe_keeps fd_ok : keeps (sys_pipe (F := F) fd_ok).
Proof.
  intros w a w' I E. unfold sys_pipe in E. destruct fd_ok; cbn [negb] in E; [|by injection E as _ <-].
  apply bind_done in E as (h & w1 & E1 & E). apply new_object_done in E1 as [-> ->]. pose proof (inv_new_object w (OPipe Pipe.new_pipe) I) as I1.
  set (w1 := set_objects _ w) in *. apply bind_done in E as (x & w2 & E2 & E). pose proof E2 as E2'. unfold my_add_fd in E2'.
  qstep E2' p Ep. apply me_done in Ep as [_ C]. clear E2'.
  assert (Ok : forall w rd wr, objects w = objects w1 -> entry_ok w p (mkFD (Some (Z.of_nat (length (objects w1) - 1))) rd wr false 0)).
  { intros w0 rd wr Eo _. rewrite Eo. unfold handle. cbn. rewrite length_app. cbn. split; [lia|].
    intros r. rewrite Nat2Z.id. replace (length (objects w) + 1 - 1)%nat with (length (objects w)) by lia. by rewrite list_lookup_middle. }
  assert (Eh : Z.of_nat (length (objects w)) = Z.of_nat (length (objects w1) - 1)) by (cbn; rewrite length_app; cbn; lia). rewrite Eh in *.
  apply (my_add_fd_keeps _ w1 p) in E2 as (I2 & C2 & O2); [|done|done|by apply Ok].
  apply bind_done in E as (y & w3 & E3 & [= _ <-]). apply (my_add_fd_keeps _ w2 p) in E3 as (I3 & _); [done|done|done|by apply Ok].
Qed.
Lemma chdir_impl_keeps r : keeps (chdir_impl s fuel r).
Proof.
  intros w a w' I E. unfold chdir_impl in E. qstep E p Ep. qstep E x Ex. qstep E q Eqr. destruct q as [e|t]; [by injection E as _ <-|].
  qstep E y Ey. destruct (negb _); [by injection E as _ <-|]. injection E as _ <-. by apply (inv_same w).
Qed.
Lemma sys_chdir_keeps path_ok path : keeps (sys_chdir s fuel path_ok path).
Proof.
  intros w a w' I E. unfold sys_chdir in E. destruct path_ok; cbn [negb] in E; [|by injection E as _ <-]. qstep E q Eqr.
  destruct q; [by injection E as _ <-|]. by eapply chdir_impl_keeps.
Qed.
Lemma sys_fchdir_keeps fd : keeps (sys_fchdir s fuel fd).
Proof.
  intros w a w' I E. unfold sys_fchdir in E. qstep E e Ee. destruct e as [f|]; [|by injection E as _ <-].
  destruct (negb _); [by injection E as _ <-|]. qstep E o Eo. destruct o; [|by injection E as _ <-]. by eapply chdir_impl_keeps.
Qed.
Lemma sys_chroot_keeps path_ok path : keeps (sys_chroot s fuel path_ok path).
Proof.
  intros w a w' I E. unfold sys_chroot in E. destruct path_ok; cbn [negb] in E; [|by injection E as _ <-]. qstep E q Eqr.
  destruct q as [e|t]; [by injection E as _ <-|]. qstep E y Ey. destruct (negb _); [by injection E as _ <-|]. injection E as _ <-. by apply (inv_same w).
Qed.
Lemma sys_getcwd_quiet buf_ok size : quiet (sys_getcwd s fuel buf_ok size).
Proof.
  unfold sys_getcwd. destruct (negb _); [auto with quiet|]. destruct (size =? 0); [auto with quiet|]. apply op_quiet_bind; [auto with quiet|]. intros w.
  apply op_quiet_bind; [auto with quiet|]. intros p. destruct (_ <? _); auto with quiet.
Qed.
Lemma sys_stat_quiet path_ok ptr_ok path : quiet (sys_stat s fuel path_ok ptr_ok path).
Proof.
  unfold sys_stat. destruct (_ || _); [auto with quiet|]. apply op_quiet_bind; [auto with quiet|]. intros [e|r]; [auto with quiet|].
  apply op_quiet_bind; [auto with quiet|]. intros p. destruct (negb _); [auto with quiet|]. apply op_quiet_bind; [auto with quiet|]. intros w.
  apply op_quiet_bind; [auto with quiet|]. intros t. apply op_quiet_bind; [auto with quiet|]. intros n. destruct (perms_of s r) as [[? ?] ?], (f_ids r (files w)), (f_stat r (files w)) as [[? ?] ?]. auto with quiet.
Qed.

(** Any of the calls, with any arguments. *)
Inductive call : world F -> world F -> Prop :=
  | c_open path_ok path flags a w w' : sys_open s fuel path_ok path flags w = Done (a, w') -> call w w'
  | c_close fd a w w' : sys_close fd w = Done (a, w') -> call w w'
  | c_lseek fd off whence a w w' : sys_lseek s fuel fd off whence w = Done (a, w') -> call w w'
  | c_read fd buf count a w w' : sys_read s fuel check fd buf count w = Done (a, w') -> call w w'
  | c_write fd buf data a w w' : sys_write s fuel check fd buf data w = Done (a, w') -> call w w'
  | c_pipe fd_ok a w w' : sys_pipe fd_ok w = Done (a, w') -> call w w'
  | c_chdir path_ok path a w w' : sys_chdir s fuel path_ok path w = Done (a, w') -> call w w'
  | c_fchdir fd a w w' : sys_fchdir s fuel fd w = Done (a, w') -> call w w'
  | c_chroot path_ok path a w w' : sys_chroot s fuel path_ok path w = Done (a, w') -> call w w'
  | c_getcwd buf_ok size a w w' : sys_getcwd s fuel buf_ok size w = Done (a, w') -> call w w'
  | c_stat path_ok ptr_ok path a w w' : sys_stat s fuel path_ok ptr_ok path w = Done (a, w') -> call w w'.
Lemma call_inv w w' : call w w' -> inv w -> inv w'.
Proof.
  destruct 1 as [? ? ? a w w' E|? a w w' E|? ? ? a w w' E|? ? ? a w w' E|? ? ? a w w' E|? a w w' E|? ? a w w' E|? a w w' E|? ? a w w' E|? ? a w w' E|? ? ? a w w' E]; intros I.
  - by eapply sys_open_keeps.
  - by eapply sys_close_keeps.
  - by eapply sys_lseek_keeps.
  - by eapply sys_read_keeps.
  - by eapply sys_write_keeps.
  - by eapply sys_pipe_keeps.
  - by eapply sys_chdir_keeps.
  - by eapply sys_fchdir_keeps.
  - by eapply sys_chroot_keeps.
  - by apply sys_getcwd_quiet in E as ->.
  - by apply sys_stat_quiet in E as ->.
Qed.
Lemma calls_inv w w' : rtc call w w' -> inv w -> inv w'.
Proof. induction 1 as [|w w1 w2 H1 _ IH]; [done|]. intros I. by eapply IH, call_inv. Qed.

(** Where the bytes of a [read] come from, and what a [write] changes. *)
Lemma sys_read_source fd buf count w v data w' : sys_read s fuel check fd buf count w = Done (Ret v data, w') -> data <> [] ->
  exists p f o, cur w = Some p /\ get_fd (p_fd_table p) fd (procs w) = Some f /\ fd_read f = true /\ objects w !! Z.to_nat (handle f) = Some o.
Proof.
  intros E Hd. unfold sys_read in E. destruct (check buf 1); cbn [negb] in E; [|by injection E as _ <- _]. qstep E e Ee.
  destruct e as [f|]; [|by injection E as _ <- _]. destruct (fd_read f) eqn:Rd; cbn [negb] in E; [|by injection E as _ <- _]. qstep E o Eo.
  apply object_at_done in Eo. unfold my_fd in Ee. qstep Ee p Ep. apply me_done in Ep as [_ C]. injection Ee as G. eauto 10.
Qed.
Lemma sys_write_target fd buf data w v w' : sys_write s fuel check fd buf data w = Done (v, w') -> files w' <> files w ->
  exists p f r, cur w = Some p /\ get_fd (p_fd_table p) fd (procs w) = Some f /\ fd_write f = true /\ objects w !! Z.to_nat (handle f) = Some (ORef r).
Proof.
  intros E Hd. unfold sys_write in E. destruct (check buf 1); cbn [negb] in E; [|by injection E as _ <-]. qstep E e Ee.
  destruct e as [f|]; [|by injection E as _ <-]. destruct (fd_write f) eqn:Wr; cbn [negb] in E; [|by injection E as _ <-]. qstep E o Eo.
  apply object_at_done in Eo. unfold my_fd in Ee. qstep Ee p Ep. apply me_done in Ep as [_ C]. injection Ee as G. qstep E t Et.
  destruct (bool_decide _); [by injection E as _ <-|]. qstep E n En. destruct (_ && _); [by injection E as _ <-|]. qstep E u Eu.
  destruct o as [r|q]; [eauto 10|]. exfalso. unfold node_write in E. qstep E x Ex.
  destruct (Pipe.write_impl data q); unfold mbind, M_bind, modify in E; try done; by injection E as _ <-.
Qed.

(** ** Reads and writes through a descriptor of a file *)

(** The descriptor [fd] of the current process is [f], on the node [i]. *)
Record opened w (p : process) (fd : Z) (f : FDInfo) (i : Z) : Prop := {
  o_cur : cur w = Some p;
  o_fd : get_fd (p_fd_table p) fd (procs w) = Some f;
  o_object : objects w !! Z.to_nat (handle f) = Some (ORef (Node i));
  o_type : exists t, type_of s fuel (Node i) = Done t /\ t <> Directory;
}.
Context `{!ReadLaws F}.
(** The file is regular and not empty, and the position and the count are [int]s. *)
Definition in_int w (i : Z) (f : FDInfo) (buf count : Z) : Prop :=
  regular i (files w) /\ 0 < Z.of_nat (length (contents i (files w))) < 2 ^ 31 /\ 0 <= fd_cursor f < 2 ^ 31 /\ 0 <= count < 2 ^ 31 /\ buf <> 0.

Lemma my_fd_open w p fd f i B (k : option FDInfo -> op B) : opened w p fd f i -> (my_fd fd ≫= k) w = k (Some f) w.
Proof. intros O. rewrite (run_bind_done _ _ _ _ _ (my_fd_run p fd w (o_cur _ _ _ _ _ O))). by rewrite (o_fd _ _ _ _ _ O). Qed.
Lemma object_open w p fd f i B (k : object -> op B) : opened w p fd f i -> (object_at (handle f) ≫= k) w = k (ORef (Node i)) w.
Proof. intros O. apply run_bind_done. unfold object_at. by rewrite (o_object _ _ _ _ _ O). Qed.
Lemma type_open w p fd f i : opened w p fd f i -> exists t, t <> Directory /\ node_type s fuel (ORef (Node i)) w = Done (t, w).
Proof. intros O. destruct (o_type _ _ _ _ _ O) as (t & Et & Nt). exists t. split; [done|]. unfold node_type, lift. by rewrite Et. Qed.
Lemma size_node n i f : regular i f -> size_of s fuel n (Node i) f = Done (Z.of_nat (length (contents i f))).
Proof. intros R. destruct n; apply size_law, R. Qed.
Lemma size_open w i B (k : Z -> op B) : regular i (files w) ->
  (node_size s fuel (ORef (Node i)) ≫= k) w = k (Z.of_nat (length (contents i (files w)))) w.
Proof. intros R. apply run_bind_done. unfold node_size, lift, mbind, M_bind, get. by rewrite size_node. Qed.
Lemma assert_open w p fd f i off n : opened w p fd f i -> regular i (files w) ->
  0 <= off < 2 ^ 31 -> 0 <= n < 2 ^ 31 -> off + n <= Z.of_nat (length (contents i (files w))) ->
  node_assert s fuel (ORef (Node i)) off n w = Done (tt, w).
Proof.
  intros O R Ho Hn Hl. destruct (o_type _ _ _ _ _ O) as (t & Et & Nt). unfold node_assert, lift, read_asserts, mbind, M_bind, get.
  rewrite Et. cbn [mbind outcome_bind]. rewrite bool_decide_eq_false_2, size_node, uwrap_small by (done || lia). unfold outcome_bind.
  by rewrite (proj2 (Z.leb_le _ _)), orb_true_r by lia.
Qed.
Lemma span_open buf count : 0 <= count < 2 ^ 31 -> buf <> 0 -> span_ok buf count = true.
Proof. intros. unfold span_ok. rewrite (proj2 (Z.eqb_neq buf 0)) by done. lia. Qed.
Lemma Ztrue_length {A} (l : list A) : 0 < Z.of_nat (length l) -> Ztrue (Z.of_nat (length l)) = true.
Proof. unfold Ztrue. lia. Qed.

Lemma read_node n i off count f : regular i f -> 0 <= off -> 0 <= count -> off + count <= Z.of_nat (length (contents i f)) ->
  read_impl_of s fuel n (Node i) off count f = Done (inr (take (Z.to_nat count) (drop (Z.to_nat off) (contents i f)))).
Proof. intros. destruct n; by apply read_law. Qed.
Lemma sys_read_run w p fd f i buf count : opened w p fd f i -> fd_read f = true -> check buf 1 = true -> in_int w i f buf count ->
  sys_read s fuel check fd buf count w =
    Done (if Z.of_nat (length (contents i (files w))) <? fd_cursor f + count then Ret (u32 (- EIO)) []
          else Ret count (take (Z.to_nat count) (drop (Z.to_nat (fd_cursor f)) (contents i (files w)))), w).
Proof.
  intros O Rd Ck (R & L & C & N & Nb). unfold sys_read. rewrite Ck. cbn [negb].
  rewrite (my_fd_open w p fd f i) by done. cbv beta iota. rewrite Rd. cbn [negb]. rewrite (object_open w p fd f i) by done.
  destruct (type_open w p fd f i O) as (t & Nt & E). rewrite (run_bind_done _ _ _ _ _ E).
  rewrite bool_decide_eq_false_2, size_open, Ztrue_length, uwrap_small by (done || lia). cbn [andb].
  destruct (Z.ltb_spec (Z.of_nat (length (contents i (files w)))) (fd_cursor f + count)); [done|].
  rewrite span_open, (run_bind_done _ _ w tt w) by done. unfold node_read. rewrite (run_bind_done _ _ w tt w) by (eapply assert_open; (done || lia)).
  unfold mbind, M_bind, get, lift. rewrite read_node by (done || lia). unfold mret, M_ret. do 3 f_equal.
  rewrite length_take, length_drop. lia.
Qed.
(** A [write] that reaches the end of a file is refused: the last byte is never written. *)
Lemma sys_write_end w p fd f i buf data : opened w p fd f i -> fd_write f = true -> check buf 1 = true -> in_int w i f buf (Z.of_nat (length data)) ->
  Z.of_nat (length (contents i (files w))) <= fd_cursor f + Z.of_nat (length data) ->
  sys_write s fuel check fd buf data w = Done (Ret (u32 (- EIO)) [], w).
Proof.
  intros O Wr Ck (R & L & C & N & Nb) He. unfold sys_write. rewrite Ck. cbn [negb].
  rewrite (my_fd_open w p fd f i) by done. cbv beta iota. rewrite Wr. cbn [negb]. rewrite (object_open w p fd f i) by done.
  destruct (type_open w p fd f i O) as (t & Nt & E). rewrite (run_bind_done _ _ _ _ _ E).
  rewrite bool_decide_eq_false_2, size_open, Ztrue_length, uwrap_small by (done || lia). cbn [andb].
  by rewrite (proj2 (Z.leb_le _ _)) by lia.
Qed.
Lemma sys_lseek_set w p fd f i off : opened w p fd f i -> regular i (files w) -> 0 <= off < 2 ^ 31 ->
  exists w', sys_lseek s fuel fd off SEEK_SET w = Done (off, w') /\ files w' = files w /\
    opened w' p fd (mkFD (node f) (fd_read f) (fd_write f) (fd_append f) off) i.
Proof.
  intros O R Ho. unfold sys_lseek. rewrite (my_fd_open w p fd f i) by done. cbn [Z.eqb negb andb SEEK_SET SEEK_CUR SEEK_END].
  rewrite (object_open w p fd f i) by done. rewrite size_open by done. rewrite (proj2 (Z.ltb_ge off 0)) by lia.
  destruct O as [C Fd Ob T]. set (l := <[Z.to_nat fd := mkFD (node f) (fd_read f) (fd_write f) (fd_append f) off]> (fds (p_fd_table p) (procs w))).
  rewrite (run_bind_done _ _ w tt (set_procs (set_fds (p_fd_table p) l (procs w)) w)) by (unfold set_cursor; by rewrite (run_bind_done _ _ _ _ _ (me_run p w C))).
  eexists. split; [done|]. split; [done|]. split; [done| |done|done]. pose proof Fd as (_ & N & Hfd)%get_fd_in.
  cbn [procs set_procs]. rewrite ProcessSpec.get_fd_set, decide_True by done. unfold get_fd in Fd. rewrite (proj2 (Z.ltb_ge fd 0)) in * by lia.
  destruct (fds (p_fd_table p) (procs w) !! Z.to_nat fd) eqn:El; [|done]. unfold l. rewrite list_lookup_insert_eq by (by eapply lookup_lt_Some).
  cbn. by destruct (node f).
Qed.
End proofs.

(** The type in the mode of a file and of a directory is the same, and it is none of those that
    the header defines. *)
Lemma stat_types_merge : Z.land (type_bits File) 0xF000 = 0xF000 /\ Z.land (type_bits Directory) 0xF000 = 0xF000 /\ type_bits SymLink = 0xB000.
Proof. done. Qed.

(** ** The theorems *)


(** [lseek] to an offset and then [read] gives the bytes of a regular file from there, and [EIO]
    when the count goes past the end; the position stays where [lseek] put it. *)
Lemma seek_then_read {F} `{Files F} `{!ReadLaws F} s fuel check (w : world F) p fd f i off buf count :
  opened s fuel w p fd f i -> regular i (files w) -> fd_read f = true -> check buf 1 = true ->
  0 < Z.of_nat (length (contents i (files w))) < 2 ^ 31 -> 0 <= off < 2 ^ 31 -> 0 <= count < 2 ^ 31 -> buf <> 0 ->
  exists w', (sys_lseek s fuel fd off SEEK_SET ≫= fun _ => sys_read s fuel check fd buf count) w =
      Done (if Z.of_nat (length (contents i (files w))) <? off + count then Ret (u32 (- EIO)) []
            else Ret count (take (Z.to_nat count) (drop (Z.to_nat off) (contents i (files w)))), w') /\
    opened s fuel w' p fd (mkFD (node f) (fd_read f) (fd_write f) (fd_append f) off) i /\ files w' = files w.
Proof.
  intros O R Rd Ck L Ho Hc Nb. destruct (sys_lseek_set s fuel w p fd f i off O R Ho) as (w' & E & Ef & O'). exists w'.
  split; [|done]. rewrite (run_bind_done _ _ _ _ _ E). set (f' := mkFD (node f) _ _ _ off) in *.
  assert (N : in_int w' i f' buf count) by (unfold in_int; rewrite Ef; cbn; split; [done|lia]).
  rewrite (sys_read_run s fuel check w' p fd f' i buf count O' Rd Ck N). by rewrite Ef.
Qed.

(** ** A world to look at: a process with one open file of five bytes *)

#[export] Instance plain_files : Files (list Z) :=
  {| f_size _ f := Done (Z.of_nat (length f)); f_read_impl _ off n f := Done (inr (take (Z.to_nat n) (drop (Z.to_nat off) f)));
     f_write_impl _ off data f := Done (None, take (Z.to_nat off) f ++ data ++ drop (Z.to_nat off + length data) f);
     f_ids _ _ := (0, 0); f_stat _ _ := (1, 512, 1) |}.
(** The file f of the user 7, which only this user can read and write, and a link l to it. *)
Definition link_to_file : ref := Link (Node root) [slash; 102] [108].
Definition one_file : store :=
  <[root := mkNode [] Directory 0x1ff 0 0 [Node 1; link_to_file] None None]> (<[1 := mkNode [102] File 0x180 7 7 [] (Some root) None]> ∅).
Definition user (id : Z) : process := mkProc 0 0 0 Active 0 id id [] [] 0 0 None 0 0 vfs_root vfs_root.
Definition kernel_of (p : process) (fds : list FDInfo) : kernel := mkKernel [Some p] 1 0 {[0 := fds]} ∅ 1 ∅ [] 0 [].
Definition open_world : world (list Z) :=
  mkWorld (kernel_of (user 7) [mkFD (Some 0) true true false 0]) [104; 101; 108; 108; 111] [ORef (Node 1)] [] (Node root) (Node root).
Lemma open_world_inv : inv one_file open_world.
Proof.
  split; [|constructor]. intros p [= <-]. constructor; [|constructor]. intros _. split; [cbn; lia|]. intros r [= <-]. split; reflexivity.
Qed.

(** The user 8 cannot open the file f, but the link to it: the link has all rights, and its
    [read_impl] reads the file. *)
Definition closed_world : world (list Z) :=
  mkWorld (kernel_of (user 8) []) [104; 101; 108; 108; 111] [] [] (Node root) (Node root).
Theorem link_bypasses_rights :
  (exists w, sys_open one_file 9 true [slash; 102] O_RDONLY closed_world = Done (- EACCES, w)) /\
  (exists w, (fd ← sys_open one_file 9 true [slash; 108] O_RDONLY; sys_read one_file 9 (fun _ _ => true) fd 4096 5) closed_world =
    Done (Ret 5 [104; 101; 108; 108; 111], w)).
Proof. split; eexists; vm_compute; reflexivity. Qed.
End FileCallsProofs.
