(* ===== verification/Tar.v ===== *)
(** * Tar: the archive file system of the initial disk ([fs/tar/])

    The archive is the list of its bytes.  A node keeps the offset of its data in it; the nodes
    are known by their place in the list that [list_nodes] makes. *)
From stdpp Require Import base list.
From Stdlib Require Import ZArith Lia.
From S2P Require Import Prelude Strto Errno Mem32 DeltaQueue Process Paths Vfs.
Import Paths Vfs.

Module Tar.

(** ** Headers *)

Definition header_size : Z := 512.
(** A field of the header: its offset and its length. *)
Definition field (offset len : nat) (hdr : list Z) : list Z := take len (drop offset hdr).
Definition name_field : list Z -> list Z := field 0 100.
Definition mode_field : list Z -> list Z := field 100 8.
Definition uid_field : list Z -> list Z := field 108 8.
Definition gid_field : list Z -> list Z := field 116 8.
Definition size_field : list Z -> list Z := field 124 12.
Definition mtime_field : list Z -> list Z := field 136 12.
Definition chksum_field : list Z -> list Z := field 148 8.
Definition typeflag_field (hdr : list Z) : Z := nth 156 hdr 0.
Definition linkname_field : list Z -> list Z := field 157 100.
Definition magic_field : list Z -> list Z := field 257 6.

(** The characters before the first zero ([strncpy], [trim_zstr]). *)
Fixpoint zstr (s : list Z) : list Z :=
  match s with [] => [] | c :: s => if c =? 0 then [] else c :: zstr s end.
Definition read_number (s : list Z) : Z := u32 (Strto.strtoull (zstr s) 8).1.

Definition space : Z := 32.
Definition sum (l : list Z) : Z := foldr Z.add 0 l.
Definition check_sum (hdr : list Z) : bool :=
  read_number (chksum_field hdr) =? u32 (sum (take 148 hdr ++ replicate 8 space ++ drop 156 hdr)).

(** "ustar". *)
Definition TMAGIC : list Z := [117; 115; 116; 97; 114].
Definition accept (hdr : list Z) : bool := bool_decide (take 5 (magic_field hdr) = TMAGIC).

Definition REGTYPE : Z := 48.
Definition AREGTYPE : Z := 0.
Definition LNKTYPE : Z := 49.
Definition SYMTYPE : Z := 50.
Definition CHRTYPE : Z := 51.
Definition BLKTYPE : Z := 52.
Definition DIRTYPE : Z := 53.
Definition FIFOTYPE : Z := 54.
Definition CONTTYPE : Z := 55.

(** ** Nodes *)

Record tar_node := mkTar {
  m_type : ntype; m_data_addr : Z; m_size : Z; m_perms : Z; m_uid : Z; m_gid : Z; m_mtime : Z; m_inode : Z;
  m_name : str; m_link_target : str }.

(** The type of a header and whether it is a link; [None] when there is no node for it.  A flag
    that is not listed leaves the type of a new node, which is a file. *)
Definition node_type (flag : Z) : option (ntype * bool) :=
  if (flag =? REGTYPE) || (flag =? AREGTYPE) then Some (File, false)
  else if flag =? DIRTYPE then Some (Directory, false)
  else if (flag =? LNKTYPE) || (flag =? SYMTYPE) then Some (SymLink, true)
  else if (flag =? CHRTYPE) || (flag =? BLKTYPE) || (flag =? FIFOTYPE) || (flag =? CONTTYPE) then None
  else Some (File, false).
Definition header_node (hdr : list Z) (pos : Z) : option tar_node :=
  if nth 0 (name_field hdr) 0 =? 0 then None
  else if negb (check_sum hdr) then None
  else
    match node_type (typeflag_field hdr) with
    | None => None
    | Some (t, link) =>
        Some (mkTar t (pos + header_size) (read_number (size_field hdr)) (u16 (read_number (mode_field hdr)))
          (read_number (uid_field hdr)) (read_number (gid_field hdr)) (read_number (mtime_field hdr)) pos
          (zstr (name_field hdr)) (if link then zstr (linkname_field hdr) else []))
    end.
(** [read_header(m_file.data() + pos)]. *)
Definition header_at (file : list Z) (pos : Z) : outcome (list Z) :=
  if pos + header_size <=? Z.of_nat (length file) then Done (take 512 (drop (Z.to_nat pos) file)) else Fault BadAccess.
Definition read_header (file : list Z) (pos : Z) : outcome (option tar_node) :=
  hdr ← header_at file pos; Done (header_node hdr pos).

Definition round_up (jump : Z) : Z := if Ztrue (jump mod header_size) then jump + (header_size - jump mod header_size) else jump.
(** The loop of [read_dir]: [last] is [addr + size]. *)
Fixpoint read_dir_loop (fuel : nat) (file : list Z) (ptr last : Z) : outcome (list tar_node) :=
  match fuel with
  | O => Fault OutOfFuel
  | S fuel =>
      if ptr <? last then
        hdr ← header_at file ptr;
        match header_node hdr ptr with
        | None => Done []
        | Some node =>
            let ptr := ptr + (header_size + round_up (read_number (size_field hdr))) in
            next ← read_header file ptr;
            rest ← read_dir_loop fuel file (match next with None => ptr + header_size | Some _ => ptr end) last;
            Done (node :: rest)
        end
      else Done []
  end.
Definition read_dir (fuel : nat) (file : list Z) (addr size : Z) : outcome (list tar_node) := read_dir_loop fuel file addr (addr + size).
(** The first header is skipped, but the size is the size of the whole archive. *)
Definition list_nodes (fuel : nat) (file : list Z) : outcome (list tar_node) :=
  read_dir fuel file header_size (Z.of_nat (length file)).

(** ** The tree *)

Definition set_name (v : str) (n : tar_node) : tar_node :=
  mkTar (m_type n) (m_data_addr n) (m_size n) (m_perms n) (m_uid n) (m_gid n) (m_mtime n) (m_inode n) v (m_link_target n).
Definition prune_name (n : tar_node) : outcome tar_node :=
  if bool_decide (m_type n = Directory) then
    match path_list (m_name n) with
    | [] => Fault BadAccess
    | _ :: list => Done (set_name (join list [slash]) n)
    end
  else Done n.
Fixpoint prune_directories_names (dirs : list tar_node) : outcome (list tar_node) :=
  match dirs with
  | [] => Done []
  | n :: dirs => n ← prune_name n; l ← prune_directories_names dirs; Done (n :: l)
  end.

(** [std::find_if]: the first directory whose name ends with [parent_name]. *)
Fixpoint find_dir (parent_name : str) (i : nat) (nodes : list tar_node) : outcome (option nat) :=
  match nodes with
  | [] => Done None
  | n :: nodes =>
      if bool_decide (m_type n = Directory) then
        match last (path_list (m_name n)) with
        | None => Fault BadAccess
        | Some l => if bool_decide (l = parent_name) then Done (Some i) else find_dir parent_name (S i) nodes
        end
      else find_dir parent_name (S i) nodes
  end.
(** The parent of a node: [None] is the root of the archive. *)
Definition parent_of (nodes : list tar_node) (n : tar_node) : outcome (option nat) :=
  match parent_path (m_name n) with
  | None => Fault BadAccess
  | Some p => match last (path_list p) with None => Done None | Some name => find_dir name 0 nodes end
  end.
Fixpoint attach_loop (nodes l : list tar_node) : outcome (list (option nat)) :=
  match l with
  | [] => Done []
  | n :: l => p ← parent_of nodes n; ps ← attach_loop nodes l; Done (p :: ps)
  end.
Definition attach_parents (nodes : list tar_node) : outcome (list (option nat)) := attach_loop nodes nodes.
(** [m_children] of the node [j], or of the root: the nodes whose parent it is, in their order. *)
Definition children (parents : list (option nat)) (j : option nat) : list nat :=
  filter (fun i => parents !! i = Some j) (seq 0 (length parents)).
(** The constructor, once the disk is read: the nodes and their parents. *)
Definition load (fuel : nat) (file : list Z) : outcome (list tar_node * list (option nat)) :=
  nodes ← list_nodes fuel file;
  nodes ← prune_directories_names nodes;
  parents ← attach_parents nodes;
  Done (nodes, parents).

(** ** The virtual functions of a node

    A link goes through [vfs::find] of the path of its directory, [where_], and its target; the
    functions of the node that is found there are arguments. *)
Definition is_link (n : tar_node) : bool := negb (bool_decide (m_link_target n = [])).
Section nodes.
Context (find : str -> outcome (option (option ref))).
Context (read : ref -> Z -> Z -> outcome (FSError + list Z)) (size_of : ref -> outcome Z) (type_of : ref -> outcome ntype) (readdir : ref -> outcome (list ref)).

(** [none] is what the function returns when nothing is found; a null pointer is followed. *)
Definition follow {A} (where_ : str) (n : tar_node) (none : A) (f : ref -> outcome A) : outcome A :=
  result ← find (where_ ++ m_link_target n);
  match result with None => Done none | Some None => Fault BadAccess | Some (Some r) => f r end.
Definition size (where_ : str) (n : tar_node) : outcome Z :=
  if is_link n then follow where_ n 0 size_of else Done (m_size n).
Definition read_impl (file : list Z) (where_ : str) (n : tar_node) (offset count : Z) : outcome (FSError + list Z) :=
  if is_link n then follow where_ n (inl InvalidLink) (fun r => read r offset count)
  else
    size ← size where_ n;
    let amnt := Z.min count size in
    if m_data_addr n + offset + amnt <=? Z.of_nat (length file) then
      Done (inr (take (Z.to_nat amnt) (drop (Z.to_nat (m_data_addr n + offset)) file)))
    else Fault BadAccess.
Definition type (where_ : str) (n : tar_node) : outcome ntype :=
  if is_link n then follow where_ n Unknown type_of else Done (m_type n).
Definition readdir_impl (where_ : str) (n : tar_node) (m_children : list ref) : outcome (list ref) :=
  if is_link n then follow where_ n [] readdir else Done m_children.
End nodes.
Definition name (n : tar_node) : str := match tokenize (m_name n) [slash] false with [] => [] | _ :: _ => default [] (filename (m_name n)) end.
End Tar.
