(* ===== verification/TarProofs.v ===== *)
(** * TarProofs: archives that are written by the standard are read back *)
From stdpp Require Import base list.
From Stdlib Require Import ZArith Lia.
From S2P Require Import Prelude Hoare Strto StrtoProofs Errno Mem32 DeltaQueue Process Pipe Paths Vfs FileCalls FileCallsProofs Tar.
Import Paths Vfs Tar.

Module TarProofs.

(** ** Numbers *)

(** [n] octal digits. *)
Fixpoint octal_digits (n : nat) (v : Z) : list Z :=
  match n with O => [] | S n => octal_digits n (v / 8) ++ [v mod 8] end.
Definition octal (n : nat) (v : Z) : list Z := map Strto.digit_char (octal_digits n v).

Lemma octal_length n : forall v, length (octal n v) = n.
Proof. unfold octal. induction n as [|n IH]; intros v; [done|]. cbn. rewrite length_map, length_app. specialize (IH (v / 8)). rewrite length_map in IH. cbn. lia. Qed.
Lemma octal_digits_range n : forall v, Forall (fun d => 0 <= d < 8) (octal_digits n v).
Proof.
  induction n as [|n IH]; intros v; cbn; [constructor|]. apply Forall_app. split; [apply IH|]. constructor; [apply Z.mod_pos_bound; lia|constructor].
Qed.
Lemma octal_value n : forall v, 0 <= v < 8 ^ Z.of_nat n -> StrtoProofs.value_from 8 0 (octal_digits n v) = v.
Proof.
  induction n as [|n IH]; intros v Hv; cbn [octal_digits].
  - change (8 ^ Z.of_nat 0) with 1 in Hv. assert (v = 0) as -> by lia. done.
  - rewrite StrtoProofs.value_from_snoc. replace (Z.of_nat (S n)) with (Z.of_nat n + 1) in Hv by lia. rewrite Z.pow_add_r in Hv by lia.
    rewrite IH by (Z.div_mod_to_equations; lia). pose proof (Z.div_mod v 8). lia.
Qed.
Lemma octal_nonzero n v : Forall (fun c => c <> 0) (octal n v).
Proof.
  unfold octal. apply Forall_fmap. eapply Forall_impl; [apply octal_digits_range|]. intros d Hd. cbn in *. unfold Strto.digit_char. destruct (Z.ltb_spec d 10); lia.
Qed.

Lemma zstr_app s t : Forall (fun c => c <> 0) s -> zstr (s ++ t) = s ++ zstr t.
Proof. induction 1 as [|c s Hc _ IH]; [done|]. cbn. by rewrite (proj2 (Z.eqb_neq c 0)), IH by done. Qed.
Lemma zstr_pad s n : Forall (fun c => c <> 0) s -> zstr (s ++ replicate n 0) = s.
Proof. intros Hs. rewrite zstr_app by done. destruct n; cbn; by rewrite app_nil_r. Qed.

(** A field of octal digits that ends with a zero. *)
Lemma read_number_octal n v rest : (0 < n)%nat -> 0 <= v < 8 ^ Z.of_nat n -> v < 2 ^ 32 -> read_number (octal n v ++ 0 :: rest) = v.
Proof.
  intros Hn Hv Hw. unfold read_number. rewrite zstr_app by apply octal_nonzero. cbn [zstr Z.eqb]. unfold Strto.strtoull, Strto.with_result. cbn [fst].
  pose proof (StrtoProofs.strtoll_sign 8 false false (octal_digits n v) [] [] ltac:(lia) (Forall_nil_2 _) (octal_digits_range n v)) as E.
  cbn [app] in E. unfold octal. rewrite E; [|destruct n; [lia|cbn; by destruct (octal_digits n (v / 8))]|done|done].
  cbn [fst]. rewrite octal_value by done. rewrite swrap_small by lia. rewrite (uwrap_small 64) by lia. apply uwrap_small. lia.
Qed.

(** ** Headers, as the standard writes them *)

Record entry := mkEntry {
  e_name : list Z; e_flag : Z; e_link : list Z; e_mode : Z; e_uid : Z; e_gid : Z; e_mtime : Z; e_data : list Z }.
Definition pad (n : nat) (s : list Z) : list Z := s ++ replicate (n - length s) 0.
Definition e_size (e : entry) : Z := Z.of_nat (length (e_data e)).

(** The fields of a header, with what is in the place of the sum. *)
Definition header_fields (e : entry) (chksum : list Z) : list (list Z) :=
  [pad 100 (e_name e); octal 7 (e_mode e) ++ [0]; octal 7 (e_uid e) ++ [0]; octal 7 (e_gid e) ++ [0]; octal 11 (e_size e) ++ [0];
   octal 11 (e_mtime e) ++ [0]; chksum; [e_flag e]; pad 100 (e_link e); TMAGIC ++ [0]; [48; 48] ++ replicate 247 0].
Definition header_sum (e : entry) : Z := sum (concat (header_fields e (replicate 8 Tar.space))).
Definition header (e : entry) : list Z := concat (header_fields e (octal 6 (header_sum e) ++ [0; Tar.space])).

Definition is_string (s : list Z) : Prop := Forall (fun c => 0 < c < 256) s /\ (length s <= 100)%nat.
(** The entries that the archive can hold. *)
Record entry_ok (e : entry) : Prop := {
  w_name : is_string (e_name e) /\ e_name e <> [];
  w_link : is_string (e_link e);
  w_flag : 0 <= e_flag e < 256 /\ node_type (e_flag e) <> None;
  w_mode : 0 <= e_mode e < 2 ^ 16;
  w_uid : 0 <= e_uid e < 8 ^ 7;
  w_gid : 0 <= e_gid e < 8 ^ 7;
  w_mtime : 0 <= e_mtime e < 2 ^ 32;
  w_size : e_size e < 2 ^ 32;
}.
(** The node that an entry stands for, at [pos]. *)
Definition entry_node (e : entry) (pos : Z) : tar_node :=
  match node_type (e_flag e) with
  | Some (t, link) => mkTar t (pos + 512) (e_size e) (e_mode e) (e_uid e) (e_gid e) (e_mtime e) pos (e_name e) (if link then e_link e else [])
  | None => mkTar Unknown 0 0 0 0 0 0 0 [] []
  end.

Lemma pad_length n s : (length s <= n)%nat -> length (pad n s) = n.
Proof. intros Hn. unfold pad. rewrite length_app, length_replicate. lia. Qed.
Lemma zstr_padded n s : Forall (fun c => 0 < c < 256) s -> zstr (pad n s) = s.
Proof. intros Hs. apply zstr_pad. eapply Forall_impl; [exact Hs|]. cbn. lia. Qed.

Lemma concat_split {A} (fs : list (list A)) k f : fs !! k = Some f -> concat fs = concat (take k fs) ++ f ++ concat (drop (S k) fs).
Proof. intros Hf. rewrite <- (take_drop_middle fs k f Hf) at 1. by rewrite concat_app. Qed.
Lemma field_concat (fs : list (list Z)) k f off len : fs !! k = Some f -> length (concat (take k fs)) = off -> length f = len ->
  field off len (concat fs) = f.
Proof.
  intros Hf <- <-. rewrite (concat_split fs k f Hf). unfold field. rewrite drop_app_length. by rewrite take_app_length.
Qed.
(** The lengths of the fields of a header. *)
Ltac field_lengths := unfold header_fields, TMAGIC; cbn [take concat]; rewrite ?length_app, ?octal_length, ?pad_length, ?length_replicate by (done || lia); cbn [length]; try lia.
Section header_lemmas.
Context (e : entry) (Ok : entry_ok e) (chk : list Z) (Lc : length chk = 8%nat).
Let Ln : (length (e_name e) <= 100)%nat := proj2 (proj1 (w_name e Ok)).
Let Ll : (length (e_link e) <= 100)%nat := proj2 (w_link e Ok).
Lemma header_length : length (concat (header_fields e chk)) = 512%nat.
Proof. unfold header_fields. field_lengths. Qed.
Lemma header_take : take 148 (concat (header_fields e chk)) = concat (take 6 (header_fields e chk)).
Proof. rewrite (concat_split _ 6 chk) by done. apply take_app_length'. unfold header_fields. field_lengths. Qed.
Lemma header_drop : drop 156 (concat (header_fields e chk)) = concat (drop 7 (header_fields e chk)).
Proof. rewrite (concat_split _ 6 chk) by done. rewrite app_assoc. apply drop_app_length'. unfold header_fields. field_lengths. Qed.
Lemma header_field k f off len : header_fields e chk !! k = Some f -> length (concat (take k (header_fields e chk))) = off -> length f = len ->
  field off len (concat (header_fields e chk)) = f.
Proof. apply field_concat. Qed.
End header_lemmas.

Lemma sum_app l1 l2 : sum (l1 ++ l2) = sum l1 + sum l2.
Proof. induction l1 as [|x l1 IH]; cbn; [done|]. unfold sum in *. lia. Qed.
Lemma sum_bytes l : Forall (fun c => 0 <= c < 256) l -> 0 <= sum l <= 255 * Z.of_nat (length l).
Proof. induction 1 as [|c l Hc _ IH]; cbn [sum foldr length]; [done|]. unfold sum in *. lia. Qed.
Lemma octal_bytes n v : Forall (fun c => 0 <= c < 256) (octal n v).
Proof.
  unfold octal. apply Forall_fmap. eapply Forall_impl; [apply octal_digits_range|]. intros d Hd. cbn in *. unfold Strto.digit_char. destruct (Z.ltb_spec d 10); lia.
Qed.
Lemma pad_bytes n s : Forall (fun c => 0 < c < 256) s -> Forall (fun c => 0 <= c < 256) (pad n s).
Proof. intros Hs. apply Forall_app. split; [eapply Forall_impl; [exact Hs|]; cbn; lia|apply Forall_replicate; lia]. Qed.
Lemma header_sum_range e : entry_ok e -> 0 <= header_sum e < 8 ^ 6.
Proof.
  intros Ok. pose proof (sum_bytes (concat (header_fields e (replicate 8 Tar.space)))) as R. rewrite header_length in R by done.
  enough (Forall (fun c => 0 <= c < 256) (concat (header_fields e (replicate 8 Tar.space)))) as Hf by (specialize (R Hf); unfold header_sum; lia).
  apply Forall_concat. destruct Ok as [[[Nb _] _] [Lb _] [Fl _] _ _ _ _ _]. unfold header_fields, TMAGIC, Tar.space.
  assert (N : forall n v, Forall (fun c => 0 <= c < 256) (octal n v ++ [0])) by (intros n v; apply Forall_app; split; [apply octal_bytes|by repeat constructor]).
  apply Forall_cons_2; [by apply pad_bytes|]. do 5 (apply Forall_cons_2; [apply N|]). apply Forall_cons_2; [apply Forall_replicate; lia|].
  apply Forall_cons_2; [by apply Forall_singleton|]. apply Forall_cons_2; [by apply pad_bytes|].
  apply Forall_cons_2; [cbn [app]; repeat (apply Forall_cons_2; [lia|]); apply Forall_nil_2|]. apply Forall_cons_2; [|apply Forall_nil_2].
  apply Forall_app. split; [repeat (apply Forall_cons_2; [lia|]); apply Forall_nil_2|apply Forall_replicate; lia].
Qed.

Lemma header_node_ok e pos : entry_ok e -> header_node (header e) pos = Some (entry_node e pos).
Proof.
  intros Ok. unfold header. set (chk := octal 6 (header_sum e) ++ [0; Tar.space]).
  assert (Lc : length chk = 8%nat) by (unfold chk; rewrite length_app, octal_length; done).
  pose proof (header_sum_range e Ok) as Rs. pose proof Ok as [[[Nb Nl] Nn] [Lb Ll] [Fl Ft] Md Ud Gd Mt Sz].
  assert (Fk : forall k f off len, header_fields e chk !! k = Some f -> length (concat (take k (header_fields e chk))) = off -> length f = len ->
    field off len (concat (header_fields e chk)) = f) by (intros *; apply header_field; done).
  assert (E0 : name_field (concat (header_fields e chk)) = pad 100 (e_name e)) by (apply (Fk 0%nat); [done|done|by apply pad_length]).
  assert (E1 : mode_field (concat (header_fields e chk)) = octal 7 (e_mode e) ++ [0]) by (apply (Fk 1%nat); [done|field_lengths|by rewrite length_app, octal_length]).
  assert (E2 : uid_field (concat (header_fields e chk)) = octal 7 (e_uid e) ++ [0]) by (apply (Fk 2%nat); [done|field_lengths|by rewrite length_app, octal_length]).
  assert (E3 : gid_field (concat (header_fields e chk)) = octal 7 (e_gid e) ++ [0]) by (apply (Fk 3%nat); [done|field_lengths|by rewrite length_app, octal_length]).
  assert (E4 : size_field (concat (header_fields e chk)) = octal 11 (e_size e) ++ [0]) by (apply (Fk 4%nat); [done|field_lengths|by rewrite length_app, octal_length]).
  assert (E5 : mtime_field (concat (header_fields e chk)) = octal 11 (e_mtime e) ++ [0]) by (apply (Fk 5%nat); [done|field_lengths|by rewrite length_app, octal_length]).
  assert (E6 : chksum_field (concat (header_fields e chk)) = chk) by (apply (Fk 6%nat); [done|field_lengths|done]).
  assert (E7 : typeflag_field (concat (header_fields e chk)) = e_flag e).
  { unfold typeflag_field. rewrite (concat_split _ 7 [e_flag e]) by done. rewrite app_nth2 by field_lengths.
    replace (156 - length _)%nat with 0%nat by field_lengths. done. }
  assert (E8 : linkname_field (concat (header_fields e chk)) = pad 100 (e_link e)) by (apply (Fk 8%nat); [done|field_lengths|by apply pad_length]).
  unfold header_node. rewrite E0. replace (nth 0 (pad 100 (e_name e)) 0 =? 0) with false.
  2: { destruct (e_name e) as [|c l]; [done|]. cbn. inversion Nb; subst. lia. }
  assert (Ck : check_sum (concat (header_fields e chk)) = true).
  { unfold check_sum. rewrite E6, header_take, header_drop by done. unfold chk at 1. rewrite read_number_octal by lia.
    rewrite uwrap_small; [apply Z.eqb_eq; unfold header_sum; f_equal; by rewrite (concat_split _ 6 (replicate 8 Tar.space)) by done|].
    change (concat (take 6 (header_fields e chk)) ++ _ ++ _) with (concat (take 6 (header_fields e (replicate 8 Tar.space))) ++ replicate 8 Tar.space ++ concat (drop 7 (header_fields e (replicate 8 Tar.space)))).
    rewrite <- (concat_split _ 6 (replicate 8 Tar.space)) by done. fold (header_sum e). lia. }
  rewrite Ck, E7, E1, E2, E3, E4, E5, E8. cbn [negb]. unfold entry_node. destruct (node_type (e_flag e)) as [[t link]|]; [|done].
  rewrite !read_number_octal by (unfold e_size in *; lia). rewrite !zstr_padded, uwrap_small by (done || lia). by destruct link.
Qed.

(** ** Archives *)

(** An entry: its header and its data, filled up to whole blocks. *)
Definition blocks (data : list Z) : list Z := data ++ replicate (Z.to_nat (round_up (Z.of_nat (length data))) - length data) 0.
Definition write_entry (e : entry) : list Z := header e ++ blocks (e_data e).
Definition write_entries (es : list entry) : list Z := es ≫= write_entry.
(** The archive: the header of the directory that is archived, the entries, and the two empty
    blocks of the end. *)
Definition archive (first : list Z) (es : list entry) (rest : list Z) : list Z := first ++ write_entries es ++ replicate 1024 0 ++ rest.
(** The nodes of the entries from [pos] on. *)
Fixpoint nodes_at (pos : Z) (es : list entry) : list tar_node :=
  match es with
  | [] => []
  | e :: es => entry_node e pos :: nodes_at (pos + (512 + round_up (e_size e))) es
  end.

Lemma round_up_ge n : 0 <= n -> n <= round_up n.
Proof. intros Hn. unfold round_up, Ztrue, header_size. destruct (Z.eqb_spec (n mod 512) 0); cbn; [lia|]. pose proof (Z.mod_pos_bound n 512). lia. Qed.
Lemma header_len e : entry_ok e -> length (header e) = 512%nat.
Proof. intros Ok. unfold header. rewrite header_length; [done|done|]. by rewrite length_app, octal_length. Qed.
Lemma write_entry_len e : entry_ok e -> Z.of_nat (length (write_entry e)) = 512 + round_up (e_size e).
Proof.
  intros Ok. unfold write_entry, blocks. rewrite !length_app, header_len, length_replicate by done. pose proof (round_up_ge (e_size e) ltac:(unfold e_size; lia)). unfold e_size in *. lia.
Qed.

Lemma header_at_app file pre hdr post : file = pre ++ hdr ++ post -> length hdr = 512%nat -> header_at file (Z.of_nat (length pre)) = Done hdr.
Proof.
  intros -> Lh. unfold header_at, header_size. rewrite (proj2 (Z.leb_le _ _)) by (rewrite !length_app; lia).
  rewrite Nat2Z.id, drop_app_length. f_equal. by apply take_app_length'.
Qed.
Lemma zero_header pos : header_node (replicate 512 0) pos = None.
Proof. done. Qed.
(** An entry at [pos] in the file. *)
Lemma entry_at file pre e post : entry_ok e -> file = pre ++ write_entry e ++ post ->
  header_at file (Z.of_nat (length pre)) = Done (header e) /\ read_header file (Z.of_nat (length pre)) = Done (Some (entry_node e (Z.of_nat (length pre)))).
Proof.
  intros Ok E. assert (Eh : header_at file (Z.of_nat (length pre)) = Done (header e)).
  { apply (header_at_app _ _ _ (blocks (e_data e) ++ post)); [|by apply header_len]. rewrite E. unfold write_entry. by rewrite <- app_assoc. }
  split; [done|]. unfold read_header. rewrite Eh. cbn [mbind outcome_bind]. by rewrite header_node_ok.
Qed.
Lemma zeros_at file pre n post : (512 <= n)%nat -> file = pre ++ replicate n 0 ++ post ->
  header_at file (Z.of_nat (length pre)) = Done (replicate 512 0) /\ read_header file (Z.of_nat (length pre)) = Done None.
Proof.
  intros Hn E. assert (Eh : header_at file (Z.of_nat (length pre)) = Done (replicate 512 0)).
  { apply (header_at_app _ _ _ (replicate (n - 512) 0 ++ post)); [|done]. rewrite E. replace n with (512 + (n - 512))%nat at 1 by lia.
    by rewrite replicate_add, <- app_assoc. }
  split; [done|]. unfold read_header. rewrite Eh. done.
Qed.
Lemma read_end fuel file pre n post last : (512 <= n)%nat -> file = pre ++ replicate n 0 ++ post ->
  read_dir_loop (S fuel) file (Z.of_nat (length pre)) last = Done [].
Proof.
  intros Hn E. cbn [read_dir_loop]. destruct (_ <? last); [|done]. destruct (zeros_at file pre n post Hn E) as [-> _]. cbn [mbind outcome_bind]. by rewrite zero_header.
Qed.

Lemma size_of_header e : entry_ok e -> read_number (size_field (header e)) = e_size e.
Proof.
  intros Ok. pose proof (header_node_ok e 0 Ok) as E. pose proof Ok as [_ _ [_ Ft] _ _ _ _ _]. unfold header_node, entry_node in E.
  destruct (_ =? 0); [done|]. destruct (negb _); [done|]. destruct (node_type (typeflag_field _)) as [[? ?]|]; [|done].
  destruct (node_type (e_flag e)) as [[? ?]|]; [|done]. by injection E.
Qed.
Lemma read_dir_loop_ok rest last es : forall fuel pre, Forall entry_ok es -> es <> [] -> (length es < fuel)%nat ->
  Z.of_nat (length (pre ++ write_entries es)) < last ->
  read_dir_loop fuel (pre ++ write_entries es ++ replicate 1024 0 ++ rest) (Z.of_nat (length pre)) last = Done (nodes_at (Z.of_nat (length pre)) es).
Proof.
  induction es as [|e es IH]; intros fuel pre Hf Hne Hfu Hl; [done|]. apply Forall_cons in Hf as [Ok Hf]. destruct fuel as [|fuel]; [cbn in Hfu; lia|].
  cbn [read_dir_loop nodes_at]. set (file := pre ++ _).
  assert (E : file = pre ++ write_entry e ++ (write_entries es ++ replicate 1024 0 ++ rest)) by (unfold file, write_entries; cbn; by rewrite <- !app_assoc).
  destruct (entry_at file pre e _ Ok E) as [Eh _]. rewrite Eh, (proj2 (Z.ltb_lt _ _)) by (rewrite length_app in Hl; lia). cbn [mbind outcome_bind].
  rewrite header_node_ok, size_of_header by done. set (pre' := pre ++ write_entry e).
  assert (Ep : Z.of_nat (length pre) + (header_size + round_up (e_size e)) = Z.of_nat (length pre')).
  { unfold pre'. rewrite length_app, Nat2Z.inj_add, write_entry_len by done. unfold header_size. lia. }
  assert (E' : file = pre' ++ write_entries es ++ replicate 1024 0 ++ rest) by (rewrite E; unfold pre'; by rewrite <- app_assoc).
  unfold header_size in *. rewrite !Ep. destruct es as [|e' es].
  - destruct (zeros_at file pre' 1024 rest ltac:(lia) E') as [_ ->]. cbn [mbind outcome_bind nodes_at].
    replace (Z.of_nat (length pre') + 512) with (Z.of_nat (length (pre' ++ replicate 512 0))) by (rewrite length_app, length_replicate; lia).
    destruct fuel as [|fuel]; [cbn in Hfu; lia|]. rewrite (read_end fuel file _ 512 rest); [done|lia|]. rewrite E'. cbn [write_entries mbind list_bind app].
    rewrite <- app_assoc. change 1024%nat with (512 + 512)%nat. by rewrite replicate_add, <- app_assoc.
  - apply Forall_cons in Hf as [Ok' Hf']. destruct (entry_at file pre' e' (write_entries es ++ replicate 1024 0 ++ rest) Ok') as [_ ->].
    { rewrite E'. unfold write_entries. cbn. by rewrite <- !app_assoc. }
    cbn [mbind outcome_bind]. rewrite E', IH; [done|by constructor|done|cbn in *; lia|].
    replace (pre' ++ write_entries (e' :: es)) with (pre ++ write_entries (e :: e' :: es)); [done|]. unfold pre', write_entries. cbn. by rewrite <- !app_assoc.
Qed.

Lemma nodes_at_lookup es : forall pos i e, Forall entry_ok es -> es !! i = Some e ->
  nodes_at pos es !! i = Some (entry_node e (pos + Z.of_nat (length (write_entries (take i es))))).
Proof.
  induction es as [|x es IH]; intros pos [|i] e Hf Hi; try done; apply Forall_cons in Hf as [Ok Hf]; cbn [nodes_at].
  - injection Hi as ->. cbn. by rewrite Z.add_0_r.
  - cbn [lookup list_lookup] in Hi |- *. rewrite (IH _ i e Hf Hi). do 2 f_equal. cbn [take].
    change (write_entries (x :: take i es)) with (write_entry x ++ write_entries (take i es)). rewrite length_app, Nat2Z.inj_add, write_entry_len by done. lia.
Qed.
(** An entry that has data of its own. *)
Definition plain (e : entry) : Prop := exists t, node_type (e_flag e) = Some (t, false).
Lemma plain_node e pos : plain e -> is_link (entry_node e pos) = false /\ m_size (entry_node e pos) = e_size e /\ m_data_addr (entry_node e pos) = pos + 512.
Proof. intros [t Et]. unfold entry_node. by rewrite Et. Qed.
Lemma read_entry find read size_of first es rest where_ i e offset count : length first = 512%nat -> Forall entry_ok es -> es !! i = Some e -> plain e ->
  0 <= offset -> 0 <= count -> offset + count <= e_size e ->
  read_impl find read size_of (archive first es rest) where_ (entry_node e (512 + Z.of_nat (length (write_entries (take i es))))) offset count =
    Done (inr (take (Z.to_nat count) (drop (Z.to_nat offset) (e_data e)))).
Proof.
  intros L1 Hf Hi Hp Ho Hc Hs. assert (Ok : entry_ok e) by (rewrite Forall_forall in Hf; apply Hf; by eapply list_elem_of_lookup_2).
  destruct (plain_node e (512 + Z.of_nat (length (write_entries (take i es)))) Hp) as (Lk & Sz & Ad). unfold read_impl, size. rewrite Lk, Sz, Ad.
  cbn [mbind outcome_bind]. rewrite Z.min_l by lia. set (pre := first ++ write_entries (take i es) ++ header e).
  assert (Lp : Z.of_nat (length pre) = 512 + Z.of_nat (length (write_entries (take i es))) + 512) by (unfold pre; rewrite !length_app, header_len by done; lia).
  assert (Ef : exists post, archive first es rest = pre ++ e_data e ++ post).
  { eexists. unfold archive, pre. rewrite <- (take_drop_middle es i e Hi) at 1. unfold write_entries. rewrite bind_app. cbn. unfold write_entry at 2, blocks.
    rewrite <- !app_assoc. reflexivity. }
  destruct Ef as [post ->]. rewrite <- Lp. unfold e_size in Hs. rewrite (proj2 (Z.leb_le _ _)) by (rewrite !length_app; lia). do 2 f_equal.
  replace (Z.to_nat (Z.of_nat (length pre) + offset)) with (length pre + Z.to_nat offset)%nat by lia. rewrite drop_app_add, drop_app_le, take_app_le by (rewrite ?length_drop; lia). done.
Qed.

Lemma list_nodes_ok first es rest fuel : length first = 512%nat -> Forall entry_ok es -> es <> [] -> (length es < fuel)%nat ->
  list_nodes fuel (archive first es rest) = Done (nodes_at 512 es).
Proof.
  intros L1 Hf Hn Hfu. unfold list_nodes, read_dir, header_size. set (last := 512 + _).
  pose proof (read_dir_loop_ok rest last es fuel first Hf Hn Hfu) as E. rewrite L1 in E. apply E.
  unfold last, archive. rewrite !length_app. lia.
Qed.

(** ** The theorems *)

(** C34: An archive that is written as the standard says is read back: after the header of the
    archived directory there is one node for every entry, in their order, with the type, the
    rights, the owner, the time, the name and the link of the entry, and reading one that is not a
    link gives the bytes of the entry.  The loop ends, and reads nothing outside of the archive. *)
Theorem tar_roundtrip find read size_of first es rest fuel :
  length first = 512%nat -> Forall entry_ok es -> es <> [] -> (length es < fuel)%nat ->
  list_nodes fuel (archive first es rest) = Done (nodes_at 512 es) /\
  forall i e, es !! i = Some e -> exists n, nodes_at 512 es !! i = Some n /\ n = entry_node e (m_inode n) /\
    forall where_ offset count, plain e -> 0 <= offset -> 0 <= count -> offset + count <= e_size e ->
      read_impl find read size_of (archive first es rest) where_ n offset count = Done (inr (take (Z.to_nat count) (drop (Z.to_nat offset) (e_data e)))).
Proof.
  intros L1 Hf Hn Hfu. split; [by apply list_nodes_ok|].
  - intros i e Hi. eexists. split; [by apply nodes_at_lookup|]. split; [|intros; by apply read_entry].
    assert (Ok : entry_ok e) by (rewrite Forall_forall in Hf; apply Hf; by eapply list_elem_of_lookup_2). destruct Ok as [_ _ [_ Ft] _ _ _ _ _].
    set (pos := 512 + _). unfold entry_node. by destruct (node_type (e_flag e)) as [[t link]|].
Qed.
Definition hello : entry := mkEntry [97; 47; 104] REGTYPE [] 420 0 0 1546300800 [104; 105].
Lemma hello_ok : entry_ok hello.
Proof.
  split; cbn [hello e_name e_link e_flag e_mode e_uid e_gid e_mtime]; try (unfold e_size; cbn; lia); try lia;
    try (split; [split; [repeat (apply Forall_cons_2; [lia|]); apply Forall_nil_2|cbn; lia]|done]); [split; [apply Forall_nil_2|cbn; lia]|].
  split; [unfold REGTYPE; lia|done].
Qed.
Definition no_find (_ : str) : outcome (option (option ref)) := Done None.
Definition no_read (_ : ref) (_ _ : Z) : outcome (FSError + list Z) := Done (inl NotFound).
Definition no_size (_ : ref) : outcome Z := Done 0.
Lemma tar_roundtrip_witness : list_nodes 2 (archive (replicate 512 0) [hello] []) = Done [mkTar File 1024 2 420 0 0 1546300800 512 [97; 47; 104] []] /\
  forall i e, [hello] !! i = Some e -> exists n, nodes_at 512 [hello] !! i = Some n /\ n = entry_node e (m_inode n) /\
    forall where_ offset count, plain e -> 0 <= offset -> 0 <= count -> offset + count <= e_size e ->
      read_impl no_find no_read no_size (archive (replicate 512 0) [hello] []) where_ n offset count = Done (inr (take (Z.to_nat count) (drop (Z.to_nat offset) (e_data e)))).
Proof.
  apply (tar_roundtrip no_find no_read no_size (replicate 512 0) [hello] [] 2); [apply length_replicate|apply Forall_singleton, hello_ok|done|cbn; lia].
Defined.

(** ** Directories *)

(** A directory of the archive whose last name is [name]. *)
Definition dir_called (name : str) (d : tar_node) : Prop := m_type d = Directory /\ last (path_list (m_name d)) = Some name.
Lemma find_dir_spec name : forall nodes i, Forall (fun d => m_type d = Directory -> path_list (m_name d) <> []) nodes ->
  exists p, find_dir name i nodes = Done p /\
  match p with
  | Some j => (i <= j)%nat /\ (exists d, nodes !! (j - i)%nat = Some d /\ dir_called name d) /\
      forall k d, (k < j - i)%nat -> nodes !! k = Some d -> ¬ dir_called name d
  | None => forall k d, nodes !! k = Some d -> ¬ dir_called name d
  end.
Proof.
  induction nodes as [|x nodes IH]; intros i Hf; cbn [find_dir]; [by exists None|]. apply Forall_cons in Hf as [Hx Hf].
  assert (Step : ¬ dir_called name x -> exists p, find_dir name (S i) nodes = Done p /\
    match p with
    | Some j => (i <= j)%nat /\ (exists d, (x :: nodes) !! (j - i)%nat = Some d /\ dir_called name d) /\
        forall k d, (k < j - i)%nat -> (x :: nodes) !! k = Some d -> ¬ dir_called name d
    | None => forall k d, (x :: nodes) !! k = Some d -> ¬ dir_called name d
    end).
  { intros Nx. destruct (IH (S i) Hf) as (p & E & P). exists p. split; [done|]. destruct p as [j|].
    - destruct P as (Hj & (d & Hd & Cd) & Pk). split; [lia|]. replace (j - i)%nat with (S (j - S i)) by lia. split; [by exists d|].
      intros [|k] d' Hk; cbn; [by intros [= <-]|]. intros Hd'. apply (Pk k); [lia|done].
    - intros [|k] d'; cbn; [by intros [= <-]|]. apply P. }
  destruct (decide (m_type x = Directory)) as [T|T]; [rewrite bool_decide_true by done|rewrite bool_decide_false by done; apply Step; by intros []].
  destruct (last (path_list (m_name x))) as [l|] eqn:El; [|by apply last_None in El; apply Hx in T].
  destruct (decide (l = name)) as [-> |N]; [rewrite bool_decide_true by done|rewrite bool_decide_false by done; apply Step; intros [_ Hl]; congruence].
  exists (Some i). split; [done|]. rewrite Nat.sub_diag. split; [lia|]. split; [by exists x|lia].
Qed.

(** A node goes under the first directory of the archive whose last name is that of its own
    directory, wherever that directory is: of two directories with the same name in different
    places the second one stays empty. *)
Theorem parent_by_last_name nodes node dirs parent_name leaf :
  Forall (Paths.component Paths.slash) (dirs ++ [parent_name]) -> Paths.component Paths.slash leaf ->
  Forall (fun d => m_type d = Directory -> path_list (m_name d) <> []) nodes -> m_name node = join (dirs ++ [parent_name; leaf]) [slash] ->
  exists p, parent_of nodes node = Done p /\
  match p with
  | Some j => (exists d, nodes !! j = Some d /\ dir_called parent_name d) /\ forall k d, (k < j)%nat -> nodes !! k = Some d -> ¬ dir_called parent_name d
  | None => forall k d, nodes !! k = Some d -> ¬ dir_called parent_name d
  end.
Proof.
  intros Hd Hl Hn En. unfold parent_of. assert (J : join (dirs ++ [parent_name; leaf]) [slash] = join (dirs ++ [parent_name]) [slash] ++ slash :: leaf).
  { change [parent_name; leaf] with ([parent_name] ++ [leaf]). rewrite app_assoc, !Paths.join_concat, fmap_app, concat_app. cbn.
    rewrite app_nil_r, <- !app_assoc. done. }
  destruct (Paths.parent_path_filename (join (dirs ++ [parent_name]) [slash]) leaf Hl) as [_ P]. rewrite En, J, P.
  pose proof (Paths.path_list_run (dirs ++ [parent_name]) false true Hd ltac:(by destruct dirs)) as L. cbn [app] in L. rewrite L, last_snoc.
  destruct (find_dir_spec parent_name nodes 0 Hn) as (p & E & H). exists p. split; [done|]. destruct p as [j|]; [|done]. rewrite Nat.sub_0_r in H. by destruct H.
Qed.
Definition dir_node (n : str) : tar_node := mkTar Directory 0 0 0 0 0 0 0 n [].
Definition file_node (n : str) : tar_node := mkTar File 0 0 0 0 0 0 0 n [].
(** a/x, b/x, and the file b/x/f of an archive of r. *)
Definition two_dirs : list tar_node := [dir_node [97; 47; 120]; dir_node [98; 47; 120]].
Lemma parent_by_last_name_witness : exists p, parent_of two_dirs (file_node [114; 47; 98; 47; 120; 47; 102]) = Done p /\ p = Some 0%nat /\
  match p with
  | Some j => (exists d, two_dirs !! j = Some d /\ dir_called [120] d) /\ forall k d, (k < j)%nat -> two_dirs !! k = Some d -> ¬ dir_called [120] d
  | None => forall k d, two_dirs !! k = Some d -> ¬ dir_called [120] d
  end.
Proof.
  destruct (parent_by_last_name two_dirs (file_node [114; 47; 98; 47; 120; 47; 102]) [[114]; [98]] [120] [102]) as (p & E & P).
  - repeat (apply Forall_cons_2; [split; [|done]; unfold slash; repeat (apply Forall_cons_2; [lia|]); apply Forall_nil_2|]). apply Forall_nil_2.
  - split; [|done]. apply Forall_cons_2; [done|apply Forall_nil_2].
  - repeat (apply Forall_cons_2; [done|]). apply Forall_nil_2.
  - done.
  - exists p. split; [exact E|]. split; [|exact P]. vm_compute in E. by injection E as <-.
Defined.

(** ** An archive behind the system calls *)

(** The archive, and its nodes from the number 1 on; [link_path] gives the path of the directory
    of a node. *)
Record volume := mkVolume { v_file : list Z; v_nodes : list tar_node; link_path : tar_node -> str }.
Definition node_of (i : Z) (v : volume) : option tar_node := if i <=? 0 then None else v_nodes v !! Z.to_nat (i - 1).
Section mounted.
Context (find : str -> outcome (option (option ref))) (read : ref -> Z -> Z -> outcome (FSError + list Z)) (size_of : ref -> outcome Z).
(** The nodes of an archive do not override [write_impl], and a new [Stat] has no links and
    blocks. *)
#[export] Instance tar_files : FileCalls.Files volume := {|
  FileCalls.f_size i v := match node_of i v with Some n => size find size_of (link_path v n) n | None => Fault BadAccess end;
  FileCalls.f_read_impl i offset count v :=
    match node_of i v with Some n => read_impl find read size_of (v_file v) (link_path v n) n offset count | None => Fault BadAccess end;
  FileCalls.f_write_impl _ _ _ v := Done (Some UnknownError, v);
  FileCalls.f_ids r v := (0, match r with Node i => from_option m_inode 0 (node_of i v) | Link _ _ _ => 0 end);
  FileCalls.f_stat _ _ := (0, 0, 0) |}.
Definition tar_contents (i : Z) (v : volume) : list Z :=
  match node_of i v with Some n => take (Z.to_nat (m_size n)) (drop (Z.to_nat (m_data_addr n)) (v_file v)) | None => [] end.
Definition tar_regular (i : Z) (v : volume) : Prop :=
  exists n, node_of i v = Some n /\ is_link n = false /\ 0 <= m_data_addr n /\ 0 <= m_size n /\ m_data_addr n + m_size n <= Z.of_nat (length (v_file v)).
#[export] Instance tar_read_laws : FileCalls.ReadLaws volume.
Proof.
  refine {| FileCalls.regular := tar_regular; FileCalls.contents := tar_contents |}; unfold tar_contents.
  - intros i v (n & En & Lk & Ha & Hs & Hl). cbn. rewrite En. unfold size. rewrite Lk, length_take, length_drop. f_equal. lia.
  - intros i off c v (n & En & Lk & Ha & Hs & Hl) Ho Hc. cbn. rewrite En, length_take, length_drop. intros Hb.
    unfold read_impl, size. rewrite Lk. cbn [mbind outcome_bind]. rewrite Z.min_l, (proj2 (Z.leb_le _ _)) by lia.
    do 2 f_equal. rewrite Z2Nat.inj_add, <- drop_drop by lia. rewrite skipn_firstn_comm, take_take. f_equal. lia.
Defined.
End mounted.

(** Only the names of directories are pruned. *)
Lemma prune_lookup nodes : forall nodes' i n, prune_directories_names nodes = Done nodes' -> nodes !! i = Some n -> m_type n <> Directory -> nodes' !! i = Some n.
Proof.
  induction nodes as [|x nodes IH]; intros nodes' i n; [done|]. cbn. destruct (prune_name x) as [y|] eqn:Ex; [|done]. cbn.
  destruct (prune_directories_names nodes) as [l|] eqn:El; [|done]. intros [= <-] Hi T. destruct i as [|i]; cbn in *; [|by eapply IH].
  injection Hi as ->. unfold prune_name in Ex. rewrite bool_decide_eq_false_2 in Ex by done. by injection Ex as ->.
Qed.
Lemma load_file first es rest fuel nodes parents i e : length first = 512%nat -> Forall entry_ok es -> es <> [] -> (length es < fuel)%nat ->
  load fuel (archive first es rest) = Done (nodes, parents) -> es !! i = Some e -> node_type (e_flag e) = Some (File, false) ->
  nodes !! i = Some (entry_node e (512 + Z.of_nat (length (write_entries (take i es))))).
Proof.
  intros L1 Hf Hn Hfu. unfold load. rewrite (list_nodes_ok first es rest fuel L1 Hf Hn Hfu). cbn [mbind outcome_bind].
  destruct (prune_directories_names _) as [l|] eqn:El; [|done]. cbn [mbind outcome_bind]. destruct (attach_parents l); [|done]. intros [= -> _] Hi Et.
  eapply prune_lookup; [exact El|by apply nodes_at_lookup|]. unfold entry_node. by rewrite Et.
Qed.

(** The file of an entry: its bytes are those that the volume has for its node. *)
Lemma tar_file first es rest nodes i e path_of : length first = 512%nat -> Forall entry_ok es -> es !! i = Some e ->
  node_type (e_flag e) = Some (File, false) -> nodes !! i = Some (entry_node e (512 + Z.of_nat (length (write_entries (take i es))))) ->
  let v := mkVolume (archive first es rest) nodes path_of in
  tar_regular (Z.of_nat i + 1) v /\ tar_contents (Z.of_nat i + 1) v = e_data e.
Proof.
  intros L1 Hf Hi Et En v. set (pos := 512 + _) in *. assert (Hp : plain e) by (by exists File). destruct (plain_node e pos Hp) as (Lk & Sz & Ad).
  assert (Nv : node_of (Z.of_nat i + 1) v = Some (entry_node e pos)).
  { unfold node_of. rewrite (proj2 (Z.leb_gt _ _)) by lia. by replace (Z.to_nat (Z.of_nat i + 1 - 1)) with i by lia. }
  pose proof (read_entry no_find no_read no_size first es rest [] i e 0 (e_size e) L1 Hf Hi Hp ltac:(lia) ltac:(unfold e_size; lia) ltac:(lia)) as E.
  fold pos in E. unfold read_impl, size in E. rewrite Lk, Sz, Ad, Z.add_0_r in E. cbn [mbind outcome_bind] in E. rewrite Z.min_id in E.
  destruct (Z.leb_spec (pos + 512 + e_size e) (Z.of_nat (length (archive first es rest)))) as [Hl|]; [|done].
  split.
  - exists (entry_node e pos). rewrite Lk, Sz, Ad. unfold e_size in *. split_and!; [done|done|lia|lia|done].
  - unfold tar_contents. rewrite Nv, Sz, Ad. injection E as E. cbn [v_file v]. rewrite E, drop_0. unfold e_size. by rewrite Nat2Z.id, firstn_all.
Qed.

(** C35: On a mounted archive, [lseek] to an offset of a file and then [read] gives the bytes of
    the file from there, and [EIO] when the count goes past its end; the position stays where
    [lseek] put it. *)
Theorem tar_seek_then_read find read size_of first es rest fuel nodes parents i e path_of s sfuel check (w : FileCalls.world volume) p fd f off buf count :
  length first = 512%nat -> Forall entry_ok es -> es <> [] -> (length es < fuel)%nat ->
  load fuel (archive first es rest) = Done (nodes, parents) -> es !! i = Some e -> node_type (e_flag e) = Some (File, false) ->
  FileCalls.files w = mkVolume (archive first es rest) nodes path_of ->
  FileCallsProofs.opened s sfuel w p fd f (Z.of_nat i + 1) -> Process.fd_read f = true -> check buf 1 = true ->
  0 < e_size e < 2 ^ 31 -> 0 <= off < 2 ^ 31 -> 0 <= count < 2 ^ 31 -> buf <> 0 ->
  exists w', (FileCalls.sys_lseek (H := tar_files find read size_of) s sfuel fd off FileCalls.SEEK_SET ≫=
        fun _ => FileCalls.sys_read (H := tar_files find read size_of) s sfuel check fd buf count) w =
      Done (if e_size e <? off + count then FileCalls.Ret (u32 (- Errno.EIO)) []
            else FileCalls.Ret count (take (Z.to_nat count) (drop (Z.to_nat off) (e_data e))), w') /\
    FileCallsProofs.opened s sfuel w' p fd (Process.mkFD (Process.node f) (Process.fd_read f) (Process.fd_write f) (Process.fd_append f) off) (Z.of_nat i + 1) /\
    FileCalls.files w' = FileCalls.files w.
Proof.
  intros L1 Hf Hn Hfu Ld Hi Et Ew O Rd Ck Sz Ho Hc Nb. pose proof (load_file _ _ _ _ _ _ _ _ L1 Hf Hn Hfu Ld Hi Et) as En.
  destruct (tar_file first es rest nodes i e path_of L1 Hf Hi Et En) as [Reg Cont]. rewrite <- Ew in Reg, Cont.
  pose proof (@FileCallsProofs.seek_then_read volume (tar_files find read size_of) (tar_read_laws find read size_of) s sfuel check w p fd f (Z.of_nat i + 1) off buf count O Reg Rd Ck) as T.
  cbn [FileCalls.contents tar_read_laws] in T. rewrite Cont in T. exact (T Sz Ho Hc Nb).
Qed.
(** The archive of one file, and a process that has it open. *)
Definition hello_volume : volume :=
  mkVolume (archive (replicate 512 0) [hello] []) [entry_node hello 512] (fun _ => []).
Definition hello_store : store :=
  <[root := mkNode [] Directory 0x1ff 0 0 [Node 1] None None]> (<[1 := mkNode [104] File 0x1a4 0 0 [] (Some root) None]> ∅).
Definition hello_world : FileCalls.world volume :=
  FileCalls.mkWorld (FileCallsProofs.kernel_of (FileCallsProofs.user 7) [Process.mkFD (Some 0) true false false 0]) hello_volume
    [FileCalls.ORef (Node 1)] [] (Node root) (Node root).
Lemma tar_seek_then_read_witness : exists w',
  (FileCalls.sys_lseek (H := tar_files no_find no_read no_size) hello_store 9 0 1 FileCalls.SEEK_SET ≫=
     fun _ => FileCalls.sys_read (H := tar_files no_find no_read no_size) hello_store 9 (fun _ _ => true) 0 4096 1) hello_world =
  Done (FileCalls.Ret 1 [105], w').
Proof.
  destruct (tar_seek_then_read no_find no_read no_size (replicate 512 0) [hello] [] 2 [entry_node hello 512] [None] 0 hello (fun _ => [])
    hello_store 9 (fun _ _ => true) hello_world (FileCallsProofs.user 7) 0 (Process.mkFD (Some 0) true false false 0) 1 4096 1) as (w' & E & _).
  - apply length_replicate.
  - apply Forall_singleton, hello_ok.
  - done.
  - cbn. lia.
  - vm_compute. reflexivity.
  - done.
  - done.
  - done.
  - split; [done|done|done|]. by exists File.
  - done.
  - done.
  - unfold e_size. cbn. lia.
  - lia.
  - lia.
  - lia.
  - exists w'. exact E.
Defined.
End TarProofs.
