(* ===== verification/DiskCache.v ===== *)
(** * DiskCache: the write-back cache of a disk

    [kern/drivers/storage/diskcache.cpp]: sectors of a disk kept in memory, with the tick of
    their last use; a sector that was written goes back to the disk when it leaves the cache.
    The cache runs over any instance of [SectorDevice].

    The answers of the rest of the kernel (the tick counter, the use of memory) are the
    functions of an [env], asked with a number that grows with every question, so that a
    theorem for every [env] is a theorem for every behaviour of theirs.  [prune_cache] and
    [remove_entry] end without a [return]; what their caller then sees as the result is not
    given by the code, and is an answer of the [env] too. *)
From stdpp Require Import base list gmap.
From Stdlib Require Import ZArith Lia.
From S2P Require Import Prelude Disk.

Module DiskCache.
Import Disk.

Record env := mkEnv {
  total_ticks : nat -> Z;
  usage_ratio : nat -> Z;
  no_return : nat -> DiskError + unit;
}.

Record CacheEntry := mkEntry { data : list Z; dirty : bool; access_time : Z }.

(** [std::map] with [std::greater]: only the order of [begin()] is used. *)
Definition emplace (t s : Z) (m : gmap Z Z) : gmap Z Z :=
  match m !! t with Some _ => m | None => <[t := s]> m end.
Definition later (a : Z * Z) (b : option (Z * Z)) : option (Z * Z) :=
  match b with Some b => if a.1 <? b.1 then Some b else Some a | None => Some a end.
Definition begin (m : gmap Z Z) : option (Z * Z) := foldr later None (map_to_list m).

Section cache.
Context {D : Type} `{SD : SectorDevice D} (ev : env).

Record DiskCache := mkCache {
  m_disk : D; m_size_ratio : Z; m_cache : gmap Z CacheEntry; m_access_times : gmap Z Z;
  asked : nat;
}.
Definition new_cache (d : D) : DiskCache := mkCache d 30 ∅ ∅ 0.
Definition set_disk d c := mkCache d (m_size_ratio c) (m_cache c) (m_access_times c) (asked c).
Definition set_cache f c := mkCache (m_disk c) (m_size_ratio c) (f (m_cache c)) (m_access_times c) (asked c).
Definition set_times f c := mkCache (m_disk c) (m_size_ratio c) (m_cache c) (f (m_access_times c)) (asked c).

Definition op := M DiskCache.
Definition ask {A} (question : env -> nat -> A) : op A := fun c =>
  Done (question ev (asked c), mkCache (m_disk c) (m_size_ratio c) (m_cache c) (m_access_times c) (S (asked c))).
(** [m_cache.at(sec)]. *)
Definition at_ (sec : Z) : op CacheEntry := fun c =>
  match m_cache c !! sec with Some e => Done (e, c) | None => Fault BadAccess end.
(** A sector operation of the disk. *)
Definition disk_read (sec size : Z) : op (DiskError + list Z) := fun c =>
  match Disk.read_sectors sec size (m_disk c) with Done r => Done (r, c) | Fault f => Fault f end.
Definition disk_write (sec : Z) (l : list Z) : op (DiskError + unit) := fun c =>
  match Disk.write_sectors sec l (m_disk c) with
  | Done (inr d) => Done (inr tt, set_disk d c)
  | Done (inl e) => Done (inl e, c)
  | Fault f => Fault f
  end.

Definition add_to_cache (sec : Z) (l : list Z) (write : bool) : op unit :=
  ticks ← ask total_ticks;
  c ← get;
  match m_cache c !! sec with
  | None =>
      modify (set_times (emplace ticks sec)) ;;
      modify (set_cache <[sec := mkEntry l write ticks]>)
  | Some e =>
      assert_ (bool_decide (is_Some (m_access_times c !! access_time e))) ;;
      modify (set_times (delete (access_time e))) ;;
      modify (set_cache <[sec := mkEntry l write ticks]>) ;;
      modify (set_times (emplace ticks sec))
  end.

Definition remove_entry (id : Z) : op (DiskError + unit) :=
  e ← at_ id;
  r ← (if dirty e then disk_write id (data e) else mret (inr tt));
  match r with
  | inl err => mret (inl err)
  | inr _ =>
      c ← get;
      assert_ (bool_decide (is_Some (m_access_times c !! access_time e))) ;;
      modify (set_times (delete (access_time e))) ;;
      modify (set_cache (delete id)) ;;
      ask no_return
  end.

(** [remove_entry(m_access_times.begin()->second)]. *)
Definition remove_first : op (DiskError + unit) :=
  c ← get;
  match begin (m_access_times c) with Some (_, id) => remove_entry id | None => fail BadAccess end.

(** The loop of [prune_cache]: a unit of fuel per entry, each turn removes one. *)
Fixpoint prune_loop (fuel : nat) : op (DiskError + unit) :=
  c ← get;
  if bool_decide (m_cache c = ∅) then ask no_return else
  usage ← ask usage_ratio;
  if usage <=? m_size_ratio c then ask no_return else
  match fuel with
  | O => fail OutOfFuel
  | S fuel => r ← remove_first; match r with inl e => mret (inl e) | inr _ => prune_loop fuel end
  end.
Definition prune_cache : op (DiskError + unit) :=
  ask usage_ratio ;;
  c ← get; prune_loop (size (m_cache c)).

Fixpoint flush_loop (fuel : nat) : op (DiskError + unit) :=
  c ← get;
  if bool_decide (m_cache c = ∅) then mret (inr tt) else
  match fuel with
  | O => fail OutOfFuel
  | S fuel => r ← remove_first; match r with inl e => mret (inl e) | inr _ => flush_loop fuel end
  end.
Definition flush : op (DiskError + unit) := c ← get; flush_loop (size (m_cache c)).

Definition set_ratio (ratio : Z) : op (DiskError + unit) :=
  modify (fun c => mkCache (m_disk c) ratio (m_cache c) (m_access_times c) (asked c)) ;; prune_cache.

(** [while (m_cache.count(i + len) == 0 && len < count) ++len]. *)
Fixpoint miss_length (cache : gmap Z CacheEntry) (i count : Z) (fuel : nat) (len : Z) : Z :=
  match fuel with
  | O => len
  | S fuel =>
      if bool_decide (cache !! u32 (i + len) = None) && (len <? count)
      then miss_length cache i count fuel (len + 1) else len
  end.

Fixpoint add_chunks (sec : Z) (chunks : list (list Z)) (write : bool) : op unit :=
  match chunks with
  | [] => mret tt
  | l :: chunks => add_to_cache sec l write ;; add_chunks (u32 (sec + 1)) chunks write
  end.
Definition chunks (l : list Z) (d : D) : list (list Z) := split (S (length l)) l (Z.to_nat (sector_size d)).

Fixpoint add_span_loop (fuel : nat) (i last count : Z) : op (DiskError + unit) :=
  if last <=? i then mret (inr tt) else
  match fuel with
  | O => fail OutOfFuel
  | S fuel =>
      c ← get;
      match m_cache c !! i with
      | None =>
          let len := miss_length (m_cache c) i count (Z.to_nat count) 1 in
          r ← disk_read i (sector_size (m_disk c) * len);
          match r with
          | inl e => mret (inl e)
          | inr buffer =>
              add_chunks i (take (Z.to_nat len) (chunks buffer (m_disk c))) false ;;
              add_span_loop fuel (u32 (i + len)) last count
          end
      | Some _ => add_span_loop fuel (i + 1) last count
      end
  end.
Definition add_span (sec count : Z) : op (DiskError + unit) :=
  add_span_loop (Z.to_nat count) sec (u32 (sec + count)) count.

(** The second loop of [read_sectors]; [buf] is what the span of the caller holds. *)
Definition read_sector (sec : Z) (buf : list Z) (i : Z) : op (list Z) :=
  e ← at_ i;
  c ← get;
  match copy_to buf ((i - sec) * sector_size (m_disk c)) (data e) with
  | Fault f => fail f
  | Done buf =>
      ticks ← ask total_ticks;
      modify (set_times (delete (access_time e))) ;;
      modify (set_times (emplace ticks i)) ;;
      modify (set_cache <[i := mkEntry (data e) (dirty e) ticks]>) ;;
      mret buf
  end.
Fixpoint read_loop (fuel : nat) (sec i last : Z) (buf : list Z) : op (list Z) :=
  if last <=? i then mret buf else
  match fuel with
  | O => fail OutOfFuel
  | S fuel => buf ← read_sector sec buf i; read_loop fuel sec (i + 1) last buf
  end.
(** The result and what the span of the caller holds afterwards. *)
Definition cache_read_sectors (sec : Z) (buf : list Z) : op ((DiskError + unit) * list Z) :=
  c ← get;
  let count := Z.of_nat (length buf) / sector_size (m_disk c) in
  r ← add_span sec count;
  match r with
  | inl e => mret (inl e, buf)
  | inr _ =>
      buf ← read_loop (Z.to_nat count) sec sec (u32 (sec + count)) buf;
      r ← prune_cache;
      mret (r, buf)
  end.
Definition cache_write_sectors (sec : Z) (l : list Z) : op (DiskError + unit) :=
  c ← get; add_chunks sec (chunks l (m_disk c)) true ;; prune_cache.

(** ** Sequences of requests *)

Inductive request :=
  | Read (sec : Z) (buf : list Z)
  | Write (sec : Z) (l : list Z)
  | Flush
  | Ratio (ratio : Z).
(** A request, with what the buffer of a read then holds. *)
Definition serve (r : request) : op (option (list Z)) :=
  match r with
  | Read sec buf => r ← cache_read_sectors sec buf; mret (Some r.2)
  | Write sec l => cache_write_sectors sec l ;; mret None
  | Flush => flush ;; mret None
  | Ratio ratio => set_ratio ratio ;; mret None
  end.
Fixpoint serve_all (rs : list request) : op (list (option (list Z))) :=
  match rs with
  | [] => mret []
  | r :: rs => o ← serve r; os ← serve_all rs; mret (o :: os)
  end.
End cache.
Arguments DiskCache D : clear implicits.
End DiskCache.
