(* ===== verification/DiskCacheProofs.v ===== *)
(** * DiskCacheProofs: what a cached disk promises

    The invariant of the cache, kept by every operation, and its refinement of a disk
    without a cache. *)
From stdpp Require Import base list gmap.
From Stdlib Require Import ZArith Lia.
From S2P Require Import Prelude Hoare Disk DiskProofs DiskCache.

Module DiskCacheProofs.
Import Disk DiskProofs DiskCache.

(** ** The first access time *)

Lemma begin_in m t s : begin m = Some (t, s) -> m !! t = Some s.
Proof.
  intros E. apply elem_of_map_to_list. revert E. unfold begin. generalize (map_to_list m). intros l. revert t s.
  induction l as [|[a b] l IH]; intros t s; [done|]. cbn. unfold later. destruct (foldr _ _ l) as [[a' b']|].
  - cbn. destruct (a <? a'); intros [= <- <-]; [right; by apply IH|left].
  - intros [= <- <-]. left.
Qed.
Lemma begin_none m : begin m = None -> m = ∅.
Proof.
  intros E. apply map_to_list_empty_iff. unfold begin in E. destruct (map_to_list m) as [|[a b] l]; [done|].
  cbn in E. unfold later in E. destruct (foldr _ _ l) as [p|]; [|done]. by destruct (_ <? _).
Qed.
(** No access time is after the first one: the map is sorted by [std::greater]. *)
Lemma begin_latest m t s t' s' : begin m = Some (t, s) -> m !! t' = Some s' -> t' <= t.
Proof.
  intros E Hm%elem_of_map_to_list. revert E Hm. unfold begin. generalize (map_to_list m). intros l. revert t s.
  induction l as [|[a b] l IH]; intros t s; [by intros _ ?%not_elem_of_nil|]. cbn. unfold later. destruct (foldr _ _ l) as [[a' b']|] eqn:F.
  - cbn. destruct (Z.ltb_spec a a') as [L|L]; intros [= <- <-] [[= -> ->]|Hl]%elem_of_cons; try lia; specialize (IH _ _ eq_refl Hl); lia.
  - intros [= <- <-] [[= -> ->]|Hl]%elem_of_cons; [lia|]. destruct l as [|x l]; [by apply not_elem_of_nil in Hl|].
    cbn in F. unfold later in F. destruct (foldr _ _ l) as [p|]; [|done]. by destruct (_ <? _).
Qed.

(** ** Sectors of a span *)

(** The [n] pieces of [k] bytes of [l]. *)
Definition pieces (k n : nat) (l : list Z) : list (list Z) := (fun i => take k (drop (i * k) l)) <$> seq 0 n.
Lemma split_pieces k n : forall fuel l, (0 < k)%nat -> length l = (n * k)%nat -> (n < fuel)%nat -> split fuel l k = pieces k n l.
Proof.
  induction n as [|n IH]; intros [|fuel] l Hk Hl Hf; try lia; cbn [split].
  - destruct l; [|done]. destruct (Nat.leb_spec k (length (@nil Z))) as [L|]; [cbn in L; lia|done].
  - destruct (Nat.leb_spec k (length l)); [|nia]. rewrite IH by (rewrite ?length_drop; nia). unfold pieces. cbn [seq fmap list_fmap].
    f_equal. rewrite <- (fmap_S_seq 0 n), <- list_fmap_compose. apply list_fmap_ext. intros i x _. cbn.
    by rewrite drop_drop, (Nat.add_comm k).
Qed.
Lemma pieces_concat k n : forall l, length l = (n * k)%nat -> concat (pieces k n l) = l.
Proof.
  induction n as [|n IH]; intros l Hl; [by destruct l|]. unfold pieces. cbn [seq fmap list_fmap concat]. rewrite drop_0.
  rewrite <- (take_drop k l) at 2. f_equal. rewrite <- (IH (drop k l)) by (rewrite length_drop; nia). f_equal.
  rewrite <- (fmap_S_seq 0 n), <- list_fmap_compose. apply list_fmap_ext. intros i x _. cbn. by rewrite drop_drop, (Nat.add_comm k).
Qed.
Lemma bytes_piece f a k n i : (i < n)%nat -> 0 <= k ->
  take (Z.to_nat k) (drop (i * Z.to_nat k) (bytes f a (Z.of_nat n * k))) = bytes f (a + Z.of_nat i * k) k.
Proof.
  intros Hi Hk. apply list_eq. intros j. destruct (decide (j < Z.to_nat k)%nat) as [Hj|Hj].
  - rewrite lookup_take_lt, lookup_drop, !bytes_lookup by nia. do 2 f_equal. nia.
  - rewrite lookup_take_ge by lia. symmetry. apply lookup_ge_None_2. rewrite bytes_length. lia.
Qed.
Lemma pieces_bytes f a k n : 0 <= k ->
  pieces (Z.to_nat k) n (bytes f a (Z.of_nat n * k)) = (fun i => bytes f (a + Z.of_nat i * k) k) <$> seq 0 n.
Proof. intros Hk. apply list_fmap_ext. intros i x [-> ?]%lookup_seq. by apply bytes_piece. Qed.

Section proofs.
Context {D : Type} `{SD : SectorDevice D} (ev : env) (ss dsz : Z).
Hypothesis ticking : forall n m, (n < m)%nat -> total_ticks ev n < total_ticks ev m.
Implicit Types (c : DiskCache D) (d : D).

Definition sector_ok (s : Z) : Prop := 0 <= s /\ (s + 1) * ss <= dsz.
Definition on_disk d (s : Z) : list Z := bytes (contents d) (s * ss) ss.
(** What a sector holds, for a user of the cache. *)
Definition view c (s : Z) : list Z := match m_cache c !! s with Some e => data e | None => on_disk (m_disk c) s end.

Definition same_view c c' : Prop := forall s, view c' s = view c s.
#[local] Instance same_view_preorder : PreOrder same_view.
Proof. split; [done|]. intros c1 c2 c3 H1 H2 s. by rewrite H2, H1. Qed.
(** The sectors [f] with [l] in the sector [s]. *)
Definition upd (f : Z -> list Z) (s : Z) (l : list Z) : Z -> list Z := fun x => if x =? s then l else f x.

Record disk_ok d : Prop := {
  ok_sd : sd_ok d; ok_ss : sector_size d = ss; ok_dsz : disk_size d = dsz }.
Record entry_fits c (s : Z) (e : CacheEntry) : Prop := {
  ef_sector : sector_ok s;
  ef_length : Z.of_nat (length (data e)) = ss;
  ef_time : m_access_times c !! access_time e = Some s;
  ef_clean : dirty e = false -> data e = on_disk (m_disk c) s }.
Record cache_ok c : Prop := {
  ok_disk : disk_ok (m_disk c);
  ok_entry : forall s e, m_cache c !! s = Some e -> entry_fits c s e;
  ok_time : forall t s, m_access_times c !! t = Some s ->
    t < total_ticks ev (asked c) /\ exists e, m_cache c !! s = Some e /\ access_time e = t }.

Lemma sizes d : disk_ok d -> 0 < ss /\ 0 <= dsz < 2 ^ 31.
Proof. intros [O <- <-]. destruct (sd_sizes d O) as (? & ? & _). done. Qed.
Lemma sector_range d s : disk_ok d -> sector_ok s -> 0 <= s < 2 ^ 31.
Proof. intros O [? ?]. destruct (sizes d O). split; [done|nia]. Qed.

(** A question takes time. *)
Lemma ok_ask c : cache_ok c -> cache_ok (mkCache (m_disk c) (m_size_ratio c) (m_cache c) (m_access_times c) (S (asked c))).
Proof.
  intros [O E T]. split; [done|intros s e He; destruct (E s e He); by split|]. cbn. intros t s Ht. destruct (T t s Ht) as [L X].
  split; [|done]. pose proof (ticking (asked c) (S (asked c))). lia.
Qed.
Lemma ok_ratio ratio c : cache_ok c -> cache_ok (mkCache (m_disk c) ratio (m_cache c) (m_access_times c) (asked c)).
Proof. intros [O E T]. split; [done|intros s e He; destruct (E s e He); by split|done]. Qed.
Lemma wp_ask {A} (q : env -> nat -> A) (Q : A -> DiskCache D -> Prop) c :
  cache_ok c -> (forall a c', cache_ok c' -> same_view c c' -> m_cache c' = m_cache c -> m_size_ratio c' = m_size_ratio c -> Q a c') ->
  wp (ask ev q) Q c.
Proof. intros O H. unfold wp, ask. apply H; try done. by apply ok_ask. Qed.

(** ** An entry is used *)

(** [c] with the sector [s] used now and holding [l]. *)
Definition drop_time c s : gmap Z Z :=
  match m_cache c !! s with Some e => delete (access_time e) (m_access_times c) | None => m_access_times c end.
Definition touch s l w c : DiskCache D :=
  let t := total_ticks ev (asked c) in
  mkCache (m_disk c) (m_size_ratio c) (<[s := mkEntry l w t]> (m_cache c)) (<[t := s]> (drop_time c s)) (S (asked c)).

Lemma no_time_yet c : cache_ok c -> m_access_times c !! total_ticks ev (asked c) = None.
Proof. intros O. destruct (_ !! _) as [s|] eqn:E; [|done]. apply (ok_time c O) in E as [? _]. lia. Qed.
Lemma drop_time_sub c s t x : drop_time c s !! t = Some x -> m_access_times c !! t = Some x.
Proof. unfold drop_time. destruct (m_cache c !! s); [|done]. by intros [_ ?]%lookup_delete_Some. Qed.
Lemma emplace_now c s : cache_ok c -> emplace (total_ticks ev (asked c)) s (drop_time c s) = <[total_ticks ev (asked c) := s]> (drop_time c s).
Proof.
  intros O. unfold emplace. destruct (drop_time _ _ !! _) as [x|] eqn:E; [|done]. apply drop_time_sub in E.
  by rewrite (no_time_yet c O) in E.
Qed.
(** Another entry keeps its access time. *)
Lemma drop_time_other c s s' e : cache_ok c -> m_cache c !! s' = Some e -> s' <> s -> drop_time c s !! access_time e = Some s'.
Proof.
  intros O He N. pose proof (ef_time _ _ _ (ok_entry c O _ _ He)) as T. unfold drop_time. destruct (m_cache c !! s) as [e0|] eqn:E0; [|done].
  rewrite lookup_delete_ne; [done|]. intros X. pose proof (ef_time _ _ _ (ok_entry c O _ _ E0)) as T0. congruence.
Qed.
Lemma drop_time_gone c s t : cache_ok c -> drop_time c s !! t <> Some s.
Proof.
  intros O E. destruct (ok_time c O _ _ (drop_time_sub _ _ _ _ E)) as (_ & e & He & Ht). unfold drop_time in E.
  rewrite He in E. by apply lookup_delete_Some in E as [? _].
Qed.

Lemma touch_ok s l w c : cache_ok c -> sector_ok s -> Z.of_nat (length l) = ss -> (w = false -> l = on_disk (m_disk c) s) ->
  cache_ok (touch s l w c).
Proof.
  intros O S L W. pose proof O as [Od Oe Ot]. split; [done| |].
  - intros s' e'. cbn. intros [[<- <-]|[N He]]%lookup_insert_Some; [split; cbn; try done; by rewrite lookup_insert_eq|].
    destruct (Oe _ _ He). split; try done. cbn. rewrite lookup_insert_ne; [by apply drop_time_other|].
    intros X. rewrite <- X, no_time_yet in ef_time0 by done. done.
  - intros t s'. cbn. pose proof (ticking (asked c) (Datatypes.S (asked c))). intros [[<- <-]|[N Ht]]%lookup_insert_Some.
    + split; [lia|]. eexists. by rewrite lookup_insert_eq.
    + pose proof Ht as Ht'. apply drop_time_sub, Ot in Ht' as (? & e & He & Te). split; [lia|]. exists e.
      rewrite lookup_insert_ne; [done|]. intros <-. by apply drop_time_gone in Ht.
Qed.
Lemma touch_view s l w c x : view (touch s l w c) x = upd (view c) s l x.
Proof.
  unfold view, touch, upd. cbn. destruct (Z.eqb_spec x s) as [-> |N]; [by rewrite lookup_insert_eq|by rewrite lookup_insert_ne].
Qed.

Lemma add_to_cache_run s l w c : cache_ok c -> add_to_cache ev s l w c = Done (tt, touch s l w c).
Proof.
  intros O. unfold add_to_cache. rewrite (run_bind_done _ _ c (total_ticks ev (asked c)) _ eq_refl).
  set (c1 := mkCache _ _ _ _ _). rewrite run_bind_get. pose proof (emplace_now c s O) as P. unfold drop_time in P. cbn [m_cache c1].
  unfold touch, drop_time. destruct (m_cache c !! s) as [e|] eqn:E.
  - rewrite bool_decide_eq_true_2; [|cbn; by rewrite (ef_time _ _ _ (ok_entry c O _ _ E))].
    rewrite <- P. reflexivity.
  - rewrite <- P. reflexivity.
Qed.

(** ** An entry leaves the cache *)

Lemma on_disk_write d d' s l x : disk_ok d ->
  (forall y, contents d' y = overwrite (contents d) (s * sector_size d) l y) -> Z.of_nat (length l) = ss ->
  on_disk d' x = upd (on_disk d) s l x.
Proof.
  intros O C L. destruct (sizes d O) as [P _]. unfold on_disk, upd. rewrite (ok_ss d O) in C. apply list_eq. intros i.
  destruct (decide (i < Z.to_nat ss)%nat) as [Hi|Hi].
  - rewrite bytes_lookup, C by done. unfold overwrite. destruct (Z.eqb_spec x s) as [-> |N].
    + destruct (Z.leb_spec (s * ss) (s * ss + Z.of_nat i)); [|lia]. destruct (Z.ltb_spec (s * ss + Z.of_nat i) (s * ss + Z.of_nat (length l))); [|lia].
      cbn. replace (Z.to_nat _) with i by lia. destruct (nth_lookup_or_length l i 0) as [-> |]; [done|lia].
    + rewrite bytes_lookup by done. destruct (Z.leb_spec (s * ss) (x * ss + Z.of_nat i)), (Z.ltb_spec (x * ss + Z.of_nat i) (s * ss + Z.of_nat (length l))); cbn; try done.
      assert (x < s \/ s < x) as [?|?] by lia; nia.
  - rewrite lookup_ge_None_2 by (rewrite bytes_length; lia). symmetry. apply lookup_ge_None_2.
    destruct (x =? s); rewrite ?bytes_length; lia.
Qed.

Lemma written_back s e c : cache_ok c -> m_cache c !! s = Some e ->
  exists d', (if dirty e then disk_write s (data e) else mret (inr tt)) c = Done (inr tt, set_disk d' c) /\ disk_ok d' /\
    forall x, on_disk d' x = upd (on_disk (m_disk c)) s (data e) x.
Proof.
  intros O He. destruct (ok_entry c O _ _ He) as [[S0 S1] L T C]. pose proof (ok_disk c O) as [Od Oss Odsz]. destruct (dirty e).
  - destruct (sd_write (m_disk c) s (data e)) as (d' & E & O' & E1 & E2 & E3); [done|done|congruence|congruence|].
    exists d'. unfold disk_write. rewrite E. split; [done|]. split; [by split; congruence|]. intros x. by apply on_disk_write.
  - exists (m_disk c). split; [by destruct c|]. split; [done|]. intros x. unfold upd. destruct (Z.eqb_spec x s) as [-> |]; [|done].
    by rewrite C.
Qed.

(** [c] without the sector [s], which the disk [d'] holds. *)
Definition without s d' c : DiskCache D :=
  mkCache d' (m_size_ratio c) (delete s (m_cache c)) (drop_time c s) (asked c).
Lemma without_ok s e d' c : cache_ok c -> m_cache c !! s = Some e -> disk_ok d' ->
  (forall x, on_disk d' x = upd (on_disk (m_disk c)) s (data e) x) -> cache_ok (without s d' c) /\ same_view c (without s d' c).
Proof.
  intros O He Od W. pose proof O as [_ Oe Ot]. split; [split; [done| |]|].
  - intros x e'. cbn. intros [N Hx]%lookup_delete_Some. destruct (Oe _ _ Hx). split; try done; cbn; [by apply drop_time_other|].
    intros C. rewrite W. unfold upd. destruct (Z.eqb_spec x s); [congruence|auto].
  - intros t x Ht. cbn in Ht |- *. destruct (Ot _ _ (drop_time_sub _ _ _ _ Ht)) as (Lt & e' & Hx & Te). split; [done|].
    exists e'. split; [|done]. apply lookup_delete_Some. split; [|done]. intros <-. by apply drop_time_gone in Ht.
  - intros x. unfold view. cbn. destruct (Z.eq_dec x s) as [-> |N].
    + by rewrite lookup_delete_eq, He, W; unfold upd; rewrite Z.eqb_refl.
    + rewrite lookup_delete_ne by done. destruct (_ !! x); [done|]. rewrite W. unfold upd. by destruct (Z.eqb_spec x s).
Qed.

Lemma remove_entry_spec s e c (Q : DiskError + unit -> DiskCache D -> Prop) : cache_ok c -> m_cache c !! s = Some e ->
  (forall r c', cache_ok c' -> same_view c c' -> m_cache c' = delete s (m_cache c) -> Q r c') -> wp (remove_entry ev s) Q c.
Proof.
  intros O He K. destruct (written_back s e c O He) as (d' & E & Od & W). destruct (without_ok s e d' c O He Od W) as [O' V'].
  unfold remove_entry. apply wp_bind. eapply wp_intro; [unfold at_; by rewrite He|]. cbv beta. apply wp_bind.
  eapply wp_intro; [exact E|]. cbv beta iota. do 2 wp_step. apply wp_bind, wp_assert.
  { apply bool_decide_eq_true_2. cbn. by rewrite (ef_time _ _ _ (ok_entry c O _ _ He)). }
  wp_steps. replace (set_cache _ _) with (without s d' c) by (unfold without, drop_time; by rewrite He).
  apply wp_ask; [done|]. intros r c' O2 V2 M2 _. apply K; [done|by etrans|by rewrite M2].
Qed.

Lemma remove_first_spec c (Q : DiskError + unit -> DiskCache D -> Prop) : cache_ok c -> m_cache c <> ∅ ->
  (forall r c', cache_ok c' -> same_view c c' -> (size (m_cache c') < size (m_cache c))%nat -> Q r c') -> wp (remove_first ev) Q c.
Proof.
  intros O N K. unfold remove_first. do 2 wp_step. destruct (begin _) as [[t s]|] eqn:B.
  - apply begin_in, (ok_time c O) in B as (_ & e & He & _). apply (remove_entry_spec s e); [done|done|].
    intros r c' O' V' M'. apply K; try done. rewrite M', map_size_delete, He. 
    assert (size (m_cache c) <> 0%nat) by (by apply map_size_non_empty_iff). cbn in *. lia.
  - apply begin_none in B. apply map_choose in N as (s & e & He). pose proof (ef_time _ _ _ (ok_entry c O _ _ He)) as T.
    by rewrite B in T.
Qed.

Lemma prune_loop_spec fuel c (Q : DiskError + unit -> DiskCache D -> Prop) : cache_ok c -> (size (m_cache c) <= fuel)%nat ->
  (forall r c', cache_ok c' -> same_view c c' -> Q r c') -> wp (prune_loop ev fuel) Q c.
Proof.
  revert c. induction fuel as [|fuel IH]; intros c O F K; cbn [prune_loop]; do 2 wp_step.
  all: destruct (bool_decide_reflect (m_cache c = ∅)) as [E|E]; [apply wp_ask; [done|]; auto|].
  - apply map_size_non_empty_iff in E. lia.
  - apply wp_bind, wp_ask; [done|]. intros u c1 O1 V1 M1 _. destruct (_ <=? _); [apply wp_ask; [done|]; intros; apply K; [done|by etrans]|].
    apply wp_bind, remove_first_spec; [done|congruence|]. intros r c2 O2 V2 S2. rewrite M1 in S2. destruct r as [e|[]].
    + apply wp_ret, K; [done|by etrans].
    + apply IH; [done|lia|]. intros r c3 O3 V3. apply K; [done|]. by do 2 (etrans; [eassumption|]).
Qed.
Lemma prune_cache_spec c (Q : DiskError + unit -> DiskCache D -> Prop) : cache_ok c ->
  (forall r c', cache_ok c' -> same_view c c' -> Q r c') -> wp (prune_cache ev) Q c.
Proof.
  intros O K. unfold prune_cache. apply wp_bind, wp_ask; [done|]. intros _ c1 O1 V1 _ _. do 2 wp_step.
  apply prune_loop_spec; [done|done|]. intros r c2 O2 V2. apply K; [done|by etrans].
Qed.
Lemma flush_spec c (Q : DiskError + unit -> DiskCache D -> Prop) : cache_ok c ->
  (forall r c', cache_ok c' -> same_view c c' -> (r = inr tt -> m_cache c' = ∅) -> Q r c') -> wp (flush ev) Q c.
Proof.
  intros O K. unfold flush. do 2 wp_step. assert (size (m_cache c) <= size (m_cache c))%nat as F by done. revert F.
  generalize (size (m_cache c)) at 2 3. intros fuel. revert c O K. induction fuel as [|fuel IH]; intros c O K F; cbn [flush_loop]; do 2 wp_step.
  all: destruct (bool_decide_reflect (m_cache c = ∅)) as [E|E]; [apply wp_ret; auto; by apply K|].
  - apply map_size_non_empty_iff in E. lia.
  - apply wp_bind, remove_first_spec; [done|done|]. intros r c2 O2 V2 S2. destruct r as [e|[]].
    + by apply wp_ret, K.
    + apply IH; [done| |lia]. intros r c3 O3 V3 E3. apply K; [done|by etrans|done].
Qed.

(** ** Several sectors *)

(** The sectors [f] with [ls] from the sector [s] on. *)
Fixpoint upds (f : Z -> list Z) (s : Z) (ls : list (list Z)) : Z -> list Z :=
  match ls with [] => f | l :: ls => upds (upd f s l) (s + 1) ls end.
Lemma upds_ext f g s ls x : (forall y, f y = g y) -> upds f s ls x = upds g s ls x.
Proof.
  revert f g s. induction ls as [|l ls IH]; intros f g s E; cbn; [done|]. apply IH. intros y. unfold upd. by rewrite E.
Qed.
Lemma upds_same f s ls x : (forall i l, ls !! i = Some l -> f (s + Z.of_nat i) = l) -> upds f s ls x = f x.
Proof.
  revert f s. induction ls as [|l ls IH]; intros f s E; cbn; [done|].
  assert (forall y, upd f s l y = f y) as U.
  { intros y. unfold upd. destruct (Z.eqb_spec y s) as [-> |]; [|done]. rewrite <- (E 0%nat l eq_refl). f_equal. lia. }
  rewrite IH; [apply U|]. intros i l' Hl. rewrite U, <- (E (S i) l' Hl). f_equal. lia.
Qed.

(** What a step that only adds entries leaves as it was. *)
Record grows c c' : Prop := {
  g_disk : m_disk c' = m_disk c;
  g_keys : forall x, is_Some (m_cache c !! x) -> is_Some (m_cache c' !! x) }.
#[local] Instance grows_preorder : PreOrder grows.
Proof. split; [by split|]. intros c1 c2 c3 [D1 K1] [D2 K2]. split; [congruence|auto]. Qed.
Lemma touch_grows s l w c : grows c (touch s l w c).
Proof. split; [done|]. intros x Hx. cbn. by rewrite lookup_insert_is_Some'; right. Qed.

Lemma add_chunks_spec ls w : forall s c, cache_ok c -> 0 <= s -> (s + Z.of_nat (length ls)) * ss <= dsz ->
  (forall i l, ls !! i = Some l -> Z.of_nat (length l) = ss /\ (w = false -> l = on_disk (m_disk c) (s + Z.of_nat i))) ->
  wp (add_chunks ev s ls w) (fun _ c' => cache_ok c' /\ grows c c' /\ (forall x, view c' x = upds (view c) s ls x) /\
    forall i, (i < length ls)%nat -> is_Some (m_cache c' !! (s + Z.of_nat i))) c.
Proof.
  induction ls as [|l ls IH]; intros s c O Hs Hd Hl; cbn [add_chunks]; [apply wp_ret; split_and!; try done; cbn; lia|].
  destruct (sizes _ (ok_disk c O)) as [P R]. cbn [length] in Hd. destruct (Hl 0%nat l eq_refl) as [Ll Lw]. rewrite Z.add_0_r in Lw.
  apply wp_bind. eapply wp_intro; [by apply add_to_cache_run|]. rewrite uwrap_small by nia.
  assert (cache_ok (touch s l w c)) as O1 by (apply touch_ok; try done; split; nia).
  eapply wp_mono; [apply IH; [done|lia|nia|]|].
  - intros i l' Hi. destruct (Hl (S i) l' Hi) as [L' W']. split; [done|]. intros Ew. rewrite (W' Ew). f_equal. lia.
  - intros _ c' (O' & G' & V' & K'). split_and!; [done| |..].
    + etrans; [apply touch_grows|done].
    + intros x. rewrite V'. cbn. apply upds_ext, touch_view.
    + intros [|i] Hi; [rewrite Z.add_0_r; apply (g_keys _ _ G'); cbn; by rewrite lookup_insert_eq|].
      cbn in Hi. replace (s + Z.of_nat (S i)) with (s + 1 + Z.of_nat i) by lia. apply K'. lia.
Qed.

Lemma miss_length_spec cache i count fuel : forall len, 0 <= i -> 0 <= len -> i + len + Z.of_nat fuel < 2 ^ 32 -> len <= count ->
  let n := miss_length cache i count fuel len in
  len <= n <= count /\ forall j, len <= j < n -> cache !! (i + j) = None.
Proof.
  induction fuel as [|fuel IH]; intros len Hi Hl Hb Hc; cbn [miss_length]; [split; [lia|intros; lia]|].
  destruct (bool_decide_reflect (cache !! u32 (i + len) = None)) as [E|E]; cbn [andb]; [|split; [lia|intros; lia]].
  destruct (Z.ltb_spec len count); [|split; [lia|intros; lia]]. destruct (IH (len + 1)) as [Hn Hj]; try lia. split; [lia|].
  intros j Hj'. destruct (Z.eq_dec j len) as [-> |]; [by rewrite uwrap_small in E by lia|apply Hj; lia].
Qed.

(** The sectors read from the disk are added as they are there. *)
Lemma add_missing_spec i n c : cache_ok c -> 0 <= i -> (i + Z.of_nat n) * ss <= dsz ->
  (forall j, (j < n)%nat -> m_cache c !! (i + Z.of_nat j) = None) ->
  wp (add_chunks ev i (pieces (Z.to_nat ss) n (bytes (contents (m_disk c)) (i * ss) (Z.of_nat n * ss))) false)
    (fun _ c' => cache_ok c' /\ grows c c' /\ same_view c c' /\
       forall j, i <= j < i + Z.of_nat n -> is_Some (m_cache c' !! j)) c.
Proof.
  intros O Hi Hd Hm. destruct (sizes _ (ok_disk c O)) as [P R]. rewrite pieces_bytes by lia.
  assert (forall k l, ((fun k => bytes (contents (m_disk c)) (i * ss + Z.of_nat k * ss) ss) <$> seq 0 n) !! k = Some l ->
    (k < n)%nat /\ l = on_disk (m_disk c) (i + Z.of_nat k)) as Lk.
  { intros k l. rewrite list_lookup_fmap_Some. intros (k' & -> & [-> ?]%lookup_seq). split; [lia|]. unfold on_disk. f_equal. lia. }
  eapply wp_mono; [apply add_chunks_spec; [done|done|by rewrite length_fmap, length_seq|]|].
  - intros k l [Hk ->]%Lk. split; [unfold on_disk; rewrite bytes_length; lia|done].
  - intros _ c' (O' & G' & V' & K'). split_and!; [done|done| |].
    + intros x. rewrite V'. apply upds_same. intros k l [Hk ->]%Lk. unfold view. by rewrite Hm.
    + intros j Hj. replace j with (i + Z.of_nat (Z.to_nat (j - i))) by lia. apply K'. rewrite length_fmap, length_seq. lia.
Qed.

Lemma add_span_loop_spec sec count fuel : forall i c, cache_ok c -> 0 <= sec <= i -> sec + count - i <= Z.of_nat fuel ->
  (sec + 2 * count - 1) * ss <= dsz -> (forall j, sec <= j < i -> is_Some (m_cache c !! j)) ->
  wp (add_span_loop ev fuel i (sec + count) count) (fun r c' => r = inr tt /\ cache_ok c' /\ same_view c c' /\ m_disk c' = m_disk c /\
    forall j, sec <= j < sec + count -> is_Some (m_cache c' !! j)) c.
Proof.
  induction fuel as [|fuel IH]; intros i c O Hi Hf Hd Hk; cbn [add_span_loop]; destruct (Z.leb_spec (sec + count) i); try lia.
  1,2: apply wp_ret; split_and!; try done; intros; apply Hk; lia.
  pose proof (ok_disk c O) as [Osd Oss Odsz]. destruct (sizes _ (ok_disk c O)) as [P R]. do 2 wp_step.
  assert (forall c1, cache_ok c1 -> m_disk c1 = m_disk c -> same_view c c1 -> forall i', i < i' -> (forall j, sec <= j < i' -> is_Some (m_cache c1 !! j)) ->
    wp (add_span_loop ev fuel i' (sec + count) count) (fun r c' => r = inr tt /\ cache_ok c' /\ same_view c c' /\ m_disk c' = m_disk c /\
      forall j, sec <= j < sec + count -> is_Some (m_cache c' !! j)) c1) as Next.
  { intros c1 O1 D1 V1 i' Hi' Hk'. eapply wp_mono; [apply IH; try done; lia|]. intros r c' (-> & O' & V' & D' & K').
    split_and!; try done; [by etrans|congruence]. }
  destruct (m_cache c !! i) as [e|] eqn:Ei.
  { apply Next; try done; try lia. intros j Hj. destruct (Z.eq_dec j i) as [-> |]; [by rewrite Ei|apply Hk; lia]. }
  destruct (miss_length_spec (m_cache c) i count (Z.to_nat count) 1) as [Hn Hm]; try nia. set (len := miss_length _ _ _ _ _) in *.
  rewrite Oss, (Z.mul_comm ss). apply wp_bind. eapply wp_intro.
  { unfold disk_read. rewrite <- Oss, sd_read by (try done; rewrite ?Oss; nia). done. }
  cbv beta iota. rewrite Oss. unfold chunks. rewrite Oss, (split_pieces _ (Z.to_nat len)) by (rewrite ?bytes_length; nia).
  rewrite take_ge by (unfold pieces; rewrite length_fmap, length_seq; lia). rewrite (uwrap_small 32) by nia.
  replace (len * ss) with (Z.of_nat (Z.to_nat len) * ss) by lia. apply wp_bind. eapply wp_mono; [apply add_missing_spec; try done; [lia|nia|]|].
  { intros [|j] Hj; [by rewrite Z.add_0_r|]. apply Hm. lia. }
  intros _ c1 (O1 & [D1 K1] & V1 & N1). cbv beta. apply Next; try done; [lia|]. intros j Hj.
  destruct (Z.lt_ge_cases j i); [apply K1, Hk; lia|apply N1; lia].
Qed.

(** ** The operations *)

(** [n] sectors from [s] on. *)
Definition plain_read (f : Z -> list Z) (s : Z) (n : nat) : list Z := concat ((fun i => f (s + Z.of_nat i)) <$> seq 0 n).
Lemma plain_read_S f s n : plain_read f s (S n) = f s ++ plain_read f (s + 1) n.
Proof.
  unfold plain_read. cbn [seq fmap list_fmap concat]. rewrite Z.add_0_r. f_equal. rewrite <- (fmap_S_seq 0 n), <- list_fmap_compose.
  f_equal. apply list_fmap_ext. intros i x _. cbn. f_equal. lia.
Qed.
Lemma plain_read_ext f g s n : (forall x, f x = g x) -> plain_read f s n = plain_read g s n.
Proof. intros E. unfold plain_read. f_equal. apply list_fmap_ext. intros i x _. apply E. Qed.

Lemma read_sector_run sec i e pre rest c : cache_ok c -> m_cache c !! i = Some e -> Z.of_nat (length pre) = (i - sec) * ss ->
  ss <= Z.of_nat (length rest) ->
  read_sector ev sec (pre ++ rest) i c = Done (pre ++ data e ++ drop (Z.to_nat ss) rest, touch i (data e) (dirty e) c).
Proof.
  intros O He Lp Lr. destruct (ok_entry c O _ _ He) as [_ L T _]. unfold read_sector.
  rewrite (run_bind_done _ _ c e c) by (unfold at_; by rewrite He). rewrite run_bind_get, (ok_ss _ (ok_disk c O)), <- Lp.
  unfold copy_to. rewrite length_app. destruct (Z.leb_spec 0 (Z.of_nat (length pre))); [|lia]. destruct (Z.leb_spec (Z.of_nat (length pre) + Z.of_nat (length (data e))) (Z.of_nat (length pre + length rest))); [|lia].
  cbn [andb]. rewrite Nat2Z.id, take_app_length, drop_app_add, <- L, Nat2Z.id. pose proof (emplace_now c i O) as N.
  unfold touch, drop_time in *. rewrite He in *. rewrite <- N. reflexivity.
Qed.
Lemma read_loop_spec sec last fuel : forall i pre rest c, cache_ok c -> last - i = Z.of_nat fuel ->
  Z.of_nat (length pre) = (i - sec) * ss -> Z.of_nat (length rest) = (last - i) * ss -> (forall j, i <= j < last -> is_Some (m_cache c !! j)) ->
  wp (read_loop ev fuel sec i last (pre ++ rest)) (fun buf c' => buf = pre ++ plain_read (view c) i fuel /\ cache_ok c' /\ same_view c c') c.
Proof.
  induction fuel as [|fuel IH]; intros i pre rest c O Hl Lp Lr Hk; cbn [read_loop]; destruct (Z.leb_spec last i); try lia.
  - apply wp_ret. replace (last - i) with 0 in Lr by lia. destruct rest; [done|cbn in Lr; lia].
  - destruct (sizes _ (ok_disk c O)) as [P R]. destruct (Hk i) as [e He]; [lia|]. destruct (ok_entry c O _ _ He) as [S L T C].
    apply wp_bind. eapply wp_intro; [apply read_sector_run; try done; nia|]. cbv beta. rewrite app_assoc.
    eapply wp_mono; [apply IH; [by apply touch_ok|lia|rewrite length_app; lia|rewrite length_drop; nia|]|].
    + intros j Hj. apply (g_keys _ _ (touch_grows i (data e) (dirty e) c)), Hk. lia.
    + assert (same_view c (touch i (data e) (dirty e) c)) as V1.
      { intros x. rewrite touch_view. unfold upd, view. destruct (Z.eqb_spec x i) as [-> |]; [by rewrite He|done]. }
      intros buf c' (-> & O' & V'). split_and!; [|done|by etrans]. rewrite plain_read_S, <- app_assoc. do 2 f_equal.
      * unfold view. by rewrite He.
      * by apply plain_read_ext.
Qed.

Lemma cache_read_spec sec n buf c : cache_ok c -> 0 <= sec -> (1 <= n)%nat -> Z.of_nat (length buf) = Z.of_nat n * ss ->
  (sec + 2 * Z.of_nat n - 1) * ss <= dsz ->
  wp (cache_read_sectors ev sec buf) (fun r c' => r.2 = plain_read (view c) sec n /\ cache_ok c' /\ same_view c c') c.
Proof.
  intros O Hs Hn Hl Hd. destruct (sizes _ (ok_disk c O)) as [P R]. unfold cache_read_sectors. do 2 wp_step.
  rewrite (ok_ss _ (ok_disk c O)), Hl, Z.div_mul by lia. unfold add_span. rewrite uwrap_small by nia. rewrite Nat2Z.id. apply wp_bind.
  eapply wp_mono; [apply add_span_loop_spec; try done; lia|]. intros r c1 (-> & O1 & V1 & D1 & K1). cbv beta iota. apply wp_bind.
  eapply wp_mono; [apply (read_loop_spec sec (sec + Z.of_nat n) n sec [] buf c1); try done; cbn; lia|].
  intros b c2 (-> & O2 & V2). apply wp_bind, prune_cache_spec; [done|]. intros r c3 O3 V3. apply wp_ret. split_and!; [|done|by do 2 (etrans; [eassumption|])].
  cbn. by apply plain_read_ext.
Qed.
Lemma cache_write_spec sec n l c : cache_ok c -> 0 <= sec -> Z.of_nat (length l) = Z.of_nat n * ss -> (sec + Z.of_nat n) * ss <= dsz ->
  wp (cache_write_sectors ev sec l) (fun _ c' => cache_ok c' /\ forall x, view c' x = upds (view c) sec (pieces (Z.to_nat ss) n l) x) c.
Proof.
  intros O Hs Hl Hd. destruct (sizes _ (ok_disk c O)) as [P R]. unfold cache_write_sectors. do 2 wp_step. unfold chunks.
  rewrite (ok_ss _ (ok_disk c O)), (split_pieces _ n) by nia. apply wp_bind.
  eapply wp_mono; [apply add_chunks_spec; [done|done|by unfold pieces; rewrite length_fmap, length_seq|]|].
  - intros i l'. unfold pieces. rewrite list_lookup_fmap_Some. intros (k & -> & [-> ?]%lookup_seq). split; [|done].
    rewrite length_take, length_drop. nia.
  - intros _ c1 (O1 & _ & V1 & _). cbv beta. apply prune_cache_spec; [done|]. intros _ c2 O2 V2. split; [done|]. intros x. by rewrite V2, V1.
Qed.

(** ** Sequences of requests *)

Definition count (l : list Z) : nat := Z.to_nat (Z.of_nat (length l) / ss).
(** Whole sectors of the disk; a read also looks ahead as far as it is long. *)
Definition valid (r : request) : Prop :=
  match r with
  | Read sec buf => 0 <= sec /\ (1 <= count buf)%nat /\ Z.of_nat (length buf) = Z.of_nat (count buf) * ss /\
      (sec + 2 * Z.of_nat (count buf) - 1) * ss <= dsz
  | Write sec l => 0 <= sec /\ Z.of_nat (length l) = Z.of_nat (count l) * ss /\ (sec + Z.of_nat (count l)) * ss <= dsz
  | Flush | Ratio _ => True
  end.
(** The same request to sectors without a cache. *)
Definition answer (f : Z -> list Z) (r : request) : option (list Z) :=
  match r with Read sec buf => Some (plain_read f sec (count buf)) | _ => None end.
Definition after (f : Z -> list Z) (r : request) : Z -> list Z :=
  match r with Write sec l => upds f sec (pieces (Z.to_nat ss) (count l) l) | _ => f end.
Fixpoint answers (f : Z -> list Z) (rs : list request) : list (option (list Z)) :=
  match rs with [] => [] | r :: rs => answer f r :: answers (after f r) rs end.
Definition final (f : Z -> list Z) (rs : list request) : Z -> list Z := foldl after f rs.

Lemma after_ext f g r : (forall x, f x = g x) -> forall x, after f r x = after g r x.
Proof. intros E x. destruct r; cbn; try done. by apply upds_ext. Qed.
Lemma answers_ext rs : forall f g, (forall x, f x = g x) -> answers f rs = answers g rs.
Proof.
  induction rs as [|r rs IH]; intros f g E; cbn; [done|]. f_equal; [|by apply IH, after_ext].
  destruct r; cbn; try done. f_equal. by apply plain_read_ext.
Qed.
Lemma final_ext rs : forall f g, (forall x, f x = g x) -> forall x, final f rs x = final g rs x.
Proof. induction rs as [|r rs IH]; intros f g E x; cbn; [done|]. by apply IH, after_ext. Qed.

Lemma serve_spec r c : cache_ok c -> valid r ->
  wp (serve ev r) (fun o c' => o = answer (view c) r /\ cache_ok c' /\ forall x, view c' x = after (view c) r x) c.
Proof.
  intros O V. destruct r as [sec buf|sec l| |ratio]; cbn [serve valid] in *; apply wp_bind.
  - destruct V as (? & ? & ? & ?). eapply wp_mono; [by apply (cache_read_spec sec (count buf))|]. intros r c' (-> & ? & ?). by apply wp_ret.
  - destruct V as (? & ? & ?). eapply wp_mono; [by apply (cache_write_spec sec (count l))|]. intros r c' [? ?]. by apply wp_ret.
  - apply flush_spec; [done|]. intros r c' ? ? _. by apply wp_ret.
  - unfold set_ratio. wp_steps. apply prune_cache_spec; [by apply ok_ratio|]. intros r c' ? ?. by apply wp_ret.
Qed.
Lemma serve_all_spec rs : forall c, cache_ok c -> Forall valid rs ->
  wp (serve_all ev rs) (fun os c' => os = answers (view c) rs /\ cache_ok c' /\ forall x, view c' x = final (view c) rs x) c.
Proof.
  induction rs as [|r rs IH]; intros c O V; cbn [serve_all]; [by apply wp_ret|]. apply Forall_cons in V as [Vr V].
  apply wp_bind. eapply wp_mono; [by apply serve_spec|]. intros o c1 (-> & O1 & V1). apply wp_bind. eapply wp_mono; [by apply IH|].
  intros os c2 (-> & O2 & V2). apply wp_ret. cbn. split_and!; [by rewrite (answers_ext rs _ _ V1)|done|].
  intros x. rewrite V2. by apply final_ext.
Qed.
Lemma new_cache_ok d : disk_ok d -> cache_ok (new_cache d).
Proof. intros O. split; [done|..]; cbn; intros ? ?; by rewrite lookup_empty. Qed.
End proofs.

(** C22: a disk behind its cache is the disk itself.  Any sequence of reads and writes of
    whole sectors, flushes and changes of the ratio runs without stopping, whatever the use
    of memory is and whatever the functions without a [return] give; every read gives
    what the sectors hold after the writes before it; and a flush that then reports success
    has brought every sector to the disk.  No two accesses may fall into the same tick, and a
    read looks ahead as far as it is long, which must be on the disk ([valid], and
    [look_ahead_leaves_disk] for what happens else). *)
Theorem cache_refines {D} `{SD : SectorDevice D} (ev : env) (d : D) (rs : list request) :
  (forall n m, (n < m)%nat -> total_ticks ev n < total_ticks ev m) -> sd_ok d ->
  Forall (valid (sector_size d) (disk_size d)) rs ->
  exists c1 r c2,
    serve_all ev rs (new_cache d) = Done (answers (sector_size d) (on_disk (sector_size d) d) rs, c1) /\
    flush ev c1 = Done (r, c2) /\
    (r = inr tt -> forall s, on_disk (sector_size d) (m_disk c2) s = final (sector_size d) (on_disk (sector_size d) d) rs s).
Proof.
  intros T O V. set (ss := sector_size d) in *. set (dsz := disk_size d) in *.
  assert (cache_ok ev ss dsz (new_cache d)) as O0 by (by apply new_cache_ok).
  destruct (wp_elim _ _ _ (serve_all_spec ev ss dsz T rs _ O0 V)) as (os & c1 & E1 & -> & O1 & V1).
  destruct (wp_elim _ _ _ (flush_spec ev ss dsz T c1 (fun r c' => same_view ss c1 c' /\ (r = inr tt -> m_cache c' = ∅)) O1
    (fun _ _ _ V2 M2 => conj V2 M2))) as (r & c2 & E2 & V2 & M2).
  exists c1, r, c2. split_and!; [exact E1|exact E2|]. intros Er s. specialize (V2 s). rewrite V1 in V2. unfold view in V2 at 1.
  by rewrite (M2 Er), lookup_empty in V2.
Qed.

(** ** Instances of the theorems *)

(** Memory is always short, and the functions without a [return] give success. *)
Definition busy : env := mkEnv Z.of_nat (fun _ => 100) (fun _ => inr tt).

(** The disk of the witnesses: 16 sectors, the bytes of sector [s] are [s]. *)
Lemma cache_refines_witness : exists c1 r c2,
  serve_all busy [Write 3 (repeat 9 512); Read 2 (repeat 0 1024)] (new_cache numbered) =
    Done (answers 512 (on_disk 512 numbered) [Write 3 (repeat 9 512); Read 2 (repeat 0 1024)], c1) /\
  flush busy c1 = Done (r, c2) /\
  (r = inr tt -> forall s, on_disk 512 (m_disk c2) s = final 512 (on_disk 512 numbered) [Write 3 (repeat 9 512); Read 2 (repeat 0 1024)] s).
Proof.
  apply (@cache_refines MemoryDisk memory_disk busy numbered [Write 3 (repeat 9 512); Read 2 (repeat 0 1024)]).
  - cbn. lia.
  - exact numbered_ok.
  - apply Forall_cons. split; [|apply Forall_singleton]; unfold valid, count; rewrite repeat_length; change (sector_size numbered) with 512;
      change (disk_size numbered) with 8192; change (Z.of_nat 512 / 512) with 1; change (Z.of_nat 1024 / 512) with 2; lia.
Defined.
(** A read of two sectors whose first one is in the cache reads two more from the second on,
    also when that is the last one of the disk. *)
Lemma look_ahead_leaves_disk :
  let ev := mkEnv Z.of_nat (fun _ => 10) (fun _ => inr tt) in
  match cache_write_sectors ev 14 (repeat 9 512) (new_cache numbered) with
  | Done (_, c) => cache_read_sectors ev 14 (repeat 0 1024) c = Fault BadAccess
  | Fault _ => False
  end.
Proof. by vm_compute. Qed.
End DiskCacheProofs.
