(* ===== verification/AddressSpace.v ===== *)
(** * AddressSpace: the memory of the processes

    [kern/tasking/process_pagemapping.cpp], with the parts of [kern/i686/tasking/process.cpp]
    that load a program and clone a process: every process has a table of its user pages,
    which processes may share; the page tables of the machine hold the table of the current
    process.  The model runs on the page tables ([Paging]), the mapping of physical ranges
    ([Memmap]) and the allocator of physical pages ([PhysAlloc]); physical memory is a
    function from addresses to bytes, and the kernel reaches it through its page tables. *)
From stdpp Require Import base list gmap.
From Stdlib Require Import ZArith Lia.
From S2P Require Import Prelude BitArray Paging PagingProofs Memmap PhysAlloc.
Import Paging PagingProofs Memmap PhysAlloc.

Module AddressSpace.

Definition tls_pages : Z := 1.
Definition signal_trampoline_page : Z := KERNEL_VIRTUAL_BASE - 1 * page_size.
Definition user_stack_top : Z := KERNEL_VIRTUAL_BASE - 1 * page_size.

Record MemoryMapping := mkMapping { paddr : Z; flags : Z; owned : bool }.
Abbreviation table := (gmap Z MemoryMapping).

Section spaces.
Context {B : Type} `{BS : BitSet B}.

(** [data->mappings] of a process is a handle to a table, since [clone] may share it. *)
Record machine := mkMachine {
  km : kmem B;
  ram : Z -> Z;
  tables : gmap nat table;
  space_of : gmap Z nat;
  tls_vaddr : gmap Z Z;
  current : option Z;
}.
Definition set_km x m := mkMachine x (ram m) (tables m) (space_of m) (tls_vaddr m) (current m).
Definition set_ram x m := mkMachine (km m) x (tables m) (space_of m) (tls_vaddr m) (current m).
Definition set_tables f m := mkMachine (km m) (ram m) (f (tables m)) (space_of m) (tls_vaddr m) (current m).
Definition set_space_of f m := mkMachine (km m) (ram m) (tables m) (f (space_of m)) (tls_vaddr m) (current m).
Definition set_tls f m := mkMachine (km m) (ram m) (tables m) (space_of m) (f (tls_vaddr m)) (current m).
Definition set_current x m := mkMachine (km m) (ram m) (tables m) (space_of m) (tls_vaddr m) x.
Definition tabs m : paging := pg (km m).

Definition op := M machine.
Definition on_km {A} (o : M (kmem B) A) : op A := fun m =>
  match o (km m) with Done (a, x) => Done (a, set_km x m) | Fault f => Fault f end.
Definition mem_paging {A} (o : M paging A) : op A := on_km (on_paging o).
Definition deref {A} (o : option A) : op A := match o with Some a => mret a | None => fail BadAccess end.

(** ** Bytes, through the page tables *)

Definition poke1 (v x : Z) : op unit := fun m =>
  if is_mapped v (tabs m)
  then Done (tt, set_ram (fun a => if a =? physical_address v (tabs m) then x else ram m a) m)
  else Fault BadAccess.
Definition peek1 (v : Z) : op Z := fun m =>
  if is_mapped v (tabs m) then Done (ram m (physical_address v (tabs m)), m) else Fault BadAccess.
Fixpoint poke (v : Z) (l : list Z) : op unit :=
  match l with [] => mret tt | x :: l => poke1 v x ;; poke (u32 (v + 1)) l end.
Fixpoint peek (v : Z) (n : nat) : op (list Z) :=
  match n with O => mret [] | S n => x ← peek1 v; l ← peek (u32 (v + 1)) n; mret (x :: l) end.
(** What a user program reads at [v]: a page fault when the page is not mapped for it. *)
Definition user_read (v : Z) (m : machine) : option Z :=
  if is_mapped v (tabs m) && user (entries (tabs m) (page_entry v)) then Some (ram m (physical_address v (tabs m))) else None.

(** The byte of [fill_pattern] at offset [o] of a page. *)
Definition fill_byte (o : Z) : Z := Z.land (Z.shiftr fill_pattern (8 * (o mod 4))) 0xFF.
Definition allocate_physical_page : op Z :=
  page ← on_km alloc_physical_page;
  modify (fun m => set_ram (fun a => if (page <=? a) && (a <? page + page_size) then fill_byte (a - page) else ram m a) m) ;;
  mret page.
Definition release_page (p : Z) : op unit := on_km (on_phys (release_physical_page p)) ;; mret tt.

(** ** The table of a process *)

Definition space (pid : Z) : op nat := m ← get; deref (space_of m !! pid).
Definition mappings (pid : Z) : op table := h ← space pid; m ← get; deref (tables m !! h).
Definition m_current_process : op Z := m ← get; deref (current m).
(** [data->mappings.use_count()]. *)
Definition use_count (h : nat) (m : machine) : nat := size (filter (fun x => x.2 = h) (space_of m)).

Definition proc_map_page (pid virt_addr phys_addr fl : Z) (own : bool) : op unit :=
  h ← space pid;
  cur ← m_current_process;
  hc ← space cur;
  when (bool_decide (h = hc)) (mem_paging (map_page phys_addr virt_addr fl)) ;;
  t ← mappings pid;
  assert_ (bool_decide (t !! virt_addr = None)) ;;
  modify (set_tables <[h := <[virt_addr := mkMapping phys_addr (uwrap 31 fl) own]> t]>).

Definition map_address_space (pid : Z) : op unit :=
  t ← mappings pid;
  for_each (map_to_list t) (fun pair => mem_paging (map_page (paddr pair.2) pair.1 (flags pair.2))).
Definition unmap_address_space (pid : Z) : op unit :=
  t ← mappings pid;
  for_each (map_to_list t) (fun pair => mem_paging (unmap_page pair.1)).

(** ** Programs *)

(** [std::min<int>((int)code.size() - i*page_size, page_size)]. *)
Definition copy_size (code : list Z) (i : Z) : Z := Z.min (s32 (Z.of_nat (length code) - i * page_size)) page_size.
Definition map_code_page (pid : Z) (code : list Z) (i : Z) : op unit :=
  phys_addr ← allocate_physical_page;
  let virt_addr := u32 (i * page_size + USER_VIRTUAL_BASE) in
  let n := copy_size code i in
  dest ← mem_paging (mmap phys_addr page_size (Z.lor Read Write));
  (if 0 <? n then
     (if i * page_size + n <=? Z.of_nat (length code) then mret tt else fail BadAccess) ;;
     poke dest (take (Z.to_nat n) (drop (Z.to_nat (i * page_size)) code)) ;;
     poke (u32 (dest + n)) (repeat 0 (Z.to_nat (page_size - n)))
   else poke dest (repeat 0 (Z.to_nat page_size))) ;;
  mem_paging (unmap dest page_size) ;;
  assert_ (Ztrue phys_addr) ;;
  proc_map_page pid virt_addr phys_addr (Z.lor (Z.lor (Z.lor Read Write) Executable) User) true.
Definition map_code (pid : Z) (code : list Z) (allocated_size : Z) : op unit :=
  for_each (seq 0 (Z.to_nat (pages_of allocated_size))) (fun i => map_code_page pid code (Z.of_nat i)).

Definition map_stack_page (pid i : Z) : op unit :=
  phys_addr ← allocate_physical_page;
  let virt_addr := u32 (Z.land (user_stack_top - page_size) (Z.lnot (page_size - 1)) - i * page_size) in
  assert_ (Ztrue phys_addr) ;;
  proc_map_page pid virt_addr phys_addr (Z.lor (Z.lor Read Write) User) true.
Definition map_stack (pid stack_size : Z) : op unit :=
  for_each (seq 0 (Z.to_nat (pages_of stack_size))) (fun i => map_stack_page pid (Z.of_nat i)).

(** [signal_trampoline] is the address of a routine of the kernel. *)
Definition create_mappings (signal_trampoline pid : Z) (code : list Z) (allocated_size stack_size : Z) : op unit :=
  map_code pid code allocated_size ;;
  map_stack pid stack_size ;;
  m ← get;
  proc_map_page pid signal_trampoline_page (physical_address signal_trampoline (tabs m)) (Z.lor (Z.lor Read User) Executable) false.

Definition release_mappings (pid : Z) : op unit :=
  h ← space pid;
  m ← get;
  if Nat.ltb 1 (use_count h m) then mret tt else
  t ← mappings pid;
  for_each (map_to_list t) (fun pair => when (owned pair.2) (release_page (paddr pair.2))) ;;
  modify (set_tables <[h := ∅]>).

(** ** Allocation of user pages *)

Fixpoint free_pages_loop (n : nat) (i count addr counter : Z) (t : table) : option Z :=
  match n with
  | O => None
  | S n =>
      let free := bool_decide (t !! Z.shiftl i 12 = None) in
      let addr := if free && (counter =? 0) then Z.shiftl i 12 else addr in
      let counter := if free then counter + 1 else 0 in
      if counter =? count then Some addr else free_pages_loop n (i + 1) count addr counter t
  end.
Definition user_pages : nat := Z.to_nat (Z.shiftr KERNEL_VIRTUAL_BASE 12 - Z.shiftr USER_VIRTUAL_BASE 12).
Definition allocate_virtual_page (pid count : Z) : op Z :=
  t ← mappings pid;
  match free_pages_loop user_pages (Z.shiftr USER_VIRTUAL_BASE 12) count 0 0 t with
  | Some addr => mret addr
  | None => fail AssertFailed
  end.

Definition allocate_pages (pid pages : Z) : op Z :=
  addr ← allocate_virtual_page pid pages;
  for_each (seq 0 (Z.to_nat pages)) (fun i =>
    physical_page ← allocate_physical_page;
    proc_map_page pid (u32 (addr + Z.of_nat i * page_size)) physical_page (Z.lor (Z.lor Read Write) User) true) ;;
  mret addr.

Definition release_one (pid virtual_page : Z) : op unit :=
  t ← mappings pid;
  assert_ (bool_decide (is_Some (t !! virtual_page))) ;;
  e ← deref (t !! virtual_page);
  release_page (paddr e) ;;
  mem_paging (unmap_page virtual_page) ;;
  assert_ (owned e) ;;
  h ← space pid;
  modify (set_tables <[h := delete virtual_page t]>).
Definition release_pages (pid ptr pages : Z) : op bool :=
  assert_ (ptr mod page_size =? 0) ;;
  for_each (seq 0 (Z.to_nat pages)) (fun i => release_one pid (u32 (ptr + Z.of_nat i * page_size))) ;;
  mret true.

Definition map_range (pid phys len : Z) : op Z :=
  virt ← mem_paging (alloc_virtual_page (pages_of len) true);
  for_each (seq 0 (Z.to_nat (pages_of len))) (fun i =>
    proc_map_page pid (u32 (virt + page_size * Z.of_nat i)) (u32 (phys + page_size * Z.of_nat i)) (Z.lor (Z.lor Read Write) User) false) ;;
  mret virt.

(** ** Copies, thread storage and switches *)

Definition set_mapping (pid virt : Z) (e : MemoryMapping) : op unit :=
  h ← space pid; t ← mappings pid; modify (set_tables <[h := <[virt := e]> t]>).
Definition copy_page (target : Z) (pair : Z * MemoryMapping) : op unit :=
  if negb (owned pair.2) then mret tt else
  set_mapping target pair.1 pair.2 ;;
  page ← allocate_physical_page;
  set_mapping target pair.1 (mkMapping page (flags pair.2) (owned pair.2)) ;;
  src_ptr ← mem_paging (mmap (paddr pair.2) page_size (Z.lor Read Write));
  dest_ptr ← mem_paging (mmap page page_size (Z.lor Read Write));
  l ← peek src_ptr (Z.to_nat page_size);
  poke dest_ptr l ;;
  mem_paging (unmap src_ptr page_size) ;;
  mem_paging (unmap dest_ptr page_size).
Definition copy_page_directory (pid target : Z) : op unit :=
  t ← mappings pid;
  for_each (map_to_list t) (copy_page target).

(** A 32-bit word in memory. *)
Definition word_bytes (x : Z) : list Z := (fun i => Z.land (Z.shiftr x (8 * Z.of_nat i)) 0xFF) <$> seq 0 4.
Definition phys_write (addr : Z) (l : list Z) : op unit :=
  ptr ← mem_paging (mmap addr (Z.of_nat (length l)) Write);
  poke ptr l ;;
  mem_paging (unmap ptr (Z.of_nat (length l))).
(** The loop gives the addresses of the last page. *)
Fixpoint tls_loop (n : nat) (i pid addr : Z) (control : Z * Z) : op (Z * Z) :=
  match n with
  | O => mret control
  | S n =>
      let virtual_page := u32 (addr + i * page_size) in
      physical_page ← allocate_physical_page;
      proc_map_page pid virtual_page physical_page (Z.lor (Z.lor Read Write) User) true ;;
      tls_loop n (i + 1) pid addr (if i =? tls_pages then (virtual_page, physical_page) else control)
  end.
Definition init_tls (pid : Z) : op unit :=
  addr ← allocate_virtual_page pid (tls_pages + 1);
  control ← tls_loop (Z.to_nat (tls_pages + 1)) 0 pid addr (0, 0);
  phys_write control.2 (word_bytes control.1) ;;
  modify (set_tls <[pid := control.1]>).

Definition switch_mappings (prev : option Z) (next : Z) : op unit :=
  match prev with
  | None => map_address_space next
  | Some prev =>
      hp ← space prev;
      hn ← space next;
      when (negb (bool_decide (hp = hn))) (unmap_address_space prev ;; map_address_space next)
  end.

(** ** Life of a process *)

(** [Process::create]: a table of its own. *)
Definition create (pid : Z) : op unit :=
  m ← get;
  let h := fresh (dom (tables m)) in
  modify (set_tables <[h := ∅]>) ;;
  modify (set_space_of <[pid := h]>).
(** [Process::load_user_code]: the memory of the program; the registers are left out. *)
Definition load_user_code (signal_trampoline pid : Z) (code : list Z) (allocated_size : Z) : op unit :=
  cur ← m_current_process;
  when (bool_decide (cur = pid)) (unmap_address_space pid) ;;
  release_mappings pid ;;
  create_mappings signal_trampoline pid code allocated_size (2 * page_size) ;;
  init_tls pid.
(** [LudosRawLoader]: the magic word, the address where the memory of the program ends, and the code. *)
Definition ludos_raw_magic : list Z := [76; 85; 68; 79; 83; 66; 73; 78].
Definition ludos_raw_len : Z := 8 + 4.
Definition raw_accept (file : list Z) : bool :=
  if Z.of_nat (length file) <? ludos_raw_len then false else bool_decide (take 8 file = ludos_raw_magic).
Definition raw_size (file : list Z) : Z :=
  u32 (nth 8 file 0 + 0x100 * nth 9 file 0 + 0x10000 * nth 10 file 0 + 0x1000000 * nth 11 file 0 - 0x8000000).
Definition raw_load (signal_trampoline pid : Z) (file : list Z) : op Z :=
  load_user_code signal_trampoline pid file (raw_size file) ;;
  mret (ludos_raw_len + 0x8000000).

(** The memory of [clone]; the process [new] has just been created. *)
Definition clone_memory (proc new : Z) (clone_vm : bool) : op unit :=
  (if clone_vm then h ← space proc; modify (set_space_of <[new := h]>)
   else copy_page_directory proc new) ;;
  init_tls new.
(** [Process::task_switch]: the part on address spaces. *)
Definition task_switch (next : Z) : op unit :=
  cur ← m_current_process;
  assert_ (negb (next =? cur)) ;;
  switch_mappings (Some cur) next ;;
  modify (set_current (Some next)).
(** [~Process]: the pages go with the last process of the space. *)
Definition destroy (pid : Z) : op unit :=
  release_mappings pid ;;
  modify (set_space_of (delete pid)).
End spaces.
Arguments machine B : clear implicits.
End AddressSpace.
