(* ===== verification/SpaceMemory.v ===== *)
(** * SpaceMemory: bytes of physical pages, through the page tables

    What the kernel does to a physical page it maps for a moment: lemmas on [mmap],
    [poke], [peek] and [unmap] of one page, and on the allocation of pages, over the state of
    [AddressSpace]. *)
From stdpp Require Import base list gmap.
From Stdlib Require Import ZArith Lia.
From S2P Require Import Prelude Hoare BitArray Paging PagingProofs Memmap PhysAlloc Disk DiskProofs AddressSpace.
Import Paging PagingProofs Memmap PhysAlloc DiskProofs AddressSpace.

Module SpaceMemory.

(** The faults of a kernel that runs out of memory. *)
Definition oom (f : fault) : Prop := f = Panic.

Section memory.
Context {B : Type} `{BS : BitSet B}.
Implicit Types (m : machine B) (p : paging).

Definition set_tabs p m : machine B := set_km (mkKmem (pm (km m)) p (frames (km m))) m.
Definition used m (k : Z) : bool := bits (pm (km m)) k.

(** The state of the memory the kernel works with: frame 0 is in use, the tables are well formed and
    the first page of the kernel, which [map_kernel] maps, is present. *)
Record hw m : Prop := {
  hw_phys : phys_ok (pm (km m));
  hw_zero : used m 0 = true;
  hw_pt : pt_inv (tabs m);
  hw_kernel : present (entries (tabs m) (base false)) = true }.

(** The processes and their tables are as before. *)
Record keep m m' : Prop := {
  k_tables : tables m' = tables m;
  k_space : space_of m' = space_of m;
  k_current : current m' = current m }.
#[export] Instance keep_preorder : PreOrder keep.
Proof. split; [done|]. intros m1 m2 m3 [] []. split; congruence. Qed.
(** Pages that are in use are so in the same way; the others may hold remains. *)
Record kstep p p' : Prop := {
  ks_claimed i : os_claimed (entries p' i) = os_claimed (entries p i);
  ks_same i : os_claimed (entries p i) = true -> entries p' i = entries p i }.
#[export] Instance kstep_preorder : PreOrder kstep.
Proof.
  split; [done|]. intros p1 p2 p3 [C1 S1] [C2 S2]. split; intros i; [by rewrite C2|].
  intros H. rewrite S2, S1; [done|done|by rewrite C1].
Qed.

Lemma hw_inv m : hw m -> kernel_inv (tabs m).
Proof. intros []. by split. Qed.
(** A page that is not claimed is not the first of the kernel. *)
Lemma hw_unclaimed m i : hw m -> os_claimed (entries (tabs m) i) = false -> i <> base false.
Proof. intros H Hi ->. pose proof (pi_claimed _ (hw_pt m H) _ (hw_kernel m H)). congruence. Qed.

(** ** Physical pages *)

Lemma run_on_km {A} (o : M (kmem B) A) m a x : o (km m) = Done (a, x) -> on_km o m = Done (a, set_km x m).
Proof. unfold on_km. by intros ->. Qed.
Lemma run_mem_paging {A} (o : M paging A) m a p' : o (tabs m) = Done (a, p') -> mem_paging o m = Done (a, set_tabs p' m).
Proof. intros E. apply run_on_km. unfold on_paging. change (pg (km m)) with (tabs m). by rewrite E. Qed.
Lemma fault_mem_paging {A} (o : M paging A) m f : o (tabs m) = Fault f -> mem_paging o m = Fault f.
Proof. intros E. unfold mem_paging, on_km, on_paging. change (pg (km m)) with (tabs m). by rewrite E. Qed.

(** A page is taken: nothing but its bytes and its bit changes. *)
Record taken_page k m m' : Prop := {
  tp_range : 0 < k < array_size;
  tp_free : used m k = false;
  tp_used j : 0 <= j < array_size -> used m' j = if decide (j = k) then true else used m j;
  tp_hw : hw m';
  tp_keep : keep m m';
  tp_pages : kstep (tabs m) (tabs m');
  tp_ram x : x / page_size <> k -> ram m' x = ram m x }.

Lemma allocate_spec m (F : fault -> Prop) (Q : Z -> machine B -> Prop) : hw m -> F Panic ->
  (forall k m', taken_page k m m' -> Q (k * page_size) m') -> wpf F allocate_physical_page Q m.
Proof.
  intros H HF K. destruct (alloc_physical_page_run (km m) (hw_phys m H) (hw_pt m H))
    as [(k & s' & E & Rk & Fk & U & P' & _ & _ & I' & C & S)|[E _]].
  - unfold allocate_physical_page. apply wpf_bind. eapply wpf_intro; [by apply run_on_km|]. cbv beta. wpf_steps. apply K.
    assert (k <> 0) as Nk. { intros ->. pose proof (hw_zero m H). unfold used in *. congruence. }
    split; [lia|exact Fk|exact U| |done|by split|].
    + split; try done; [|unfold tabs; cbn; rewrite S; [apply (hw_kernel m H)|apply (hw_pt m H), (hw_kernel m H)]]. unfold used. cbn. rewrite U by (unfold array_size; lia). destruct (decide (0 = k)); [lia|apply (hw_zero m H)].
    + intros x Hx. cbn. destruct (Z.leb_spec (k * page_size) x), (Z.ltb_spec x (k * page_size + page_size)); try done.
      exfalso. apply Hx. symmetry. apply Z.div_unique with (x - k * page_size); unfold page_size in *; lia.
  - unfold allocate_physical_page. apply wpf_bind. eapply wpf_fault; [|exact HF]. unfold on_km. by rewrite E.
Qed.

Lemma release_spec k m : hw m -> 0 < k < array_size -> used m k = true ->
  exists m', release_page (k * page_size) m = Done (tt, m') /\ hw m' /\ keep m m' /\ tabs m' = tabs m /\ ram m' = ram m /\
    forall j, 0 <= j < array_size -> used m' j = if decide (j = k) then false else used m j.
Proof.
  intros H Rk Uk. destruct (proj1 (release_physical_page_spec (pm (km m)) k 0 (hw_phys m H) ltac:(lia) ltac:(done)) Uk) as (p' & E & P' & _ & U & _).
  rewrite Z.add_0_r in E. unfold release_page. eexists. split.
  { etrans; [eapply run_bind_done, run_on_km; unfold on_phys; by rewrite E|]. reflexivity. }
  split_and!; try done. split; [done| |exact (hw_pt m H)|exact (hw_kernel m H)]. unfold used. cbn. rewrite U by (unfold array_size; lia).
  destruct (decide (0 = k)); [lia|apply (hw_zero m H)].
Qed.

(** ** One page mapped for the kernel *)

Lemma set_tabs_hw p' m : hw m -> pt_inv p' -> present (entries p' (base false)) = true -> hw (set_tabs p' m).
Proof. intros [] I T. by split. Qed.

Lemma mmap_page_spec k len fl m (F : fault -> Prop) (Q : Z -> machine B -> Prop) :
  hw m -> 0 <= k < array_size -> 0 < len <= page_size -> F Panic ->
  (forall a p', base false <= a < limit false -> os_claimed (entries (tabs m) a) = false -> hw (set_tabs p' m) ->
     (forall i, entries p' i = if i =? a then mapped fl k else entries (tabs m) i) -> Q (a * page_size) (set_tabs p' m)) ->
  wpf F (mem_paging (mmap (k * page_size) len fl)) Q m.
Proof.
  intros H Hk Hl HF K. assert (page_size = 4096) as Ps by done. assert (array_size = 2 ^ 20) as As by done.
  destruct (mmap_effect (k * page_size) len fl (tabs m) (hw_inv m H)) as [(a & p' & E & A1 & A2 & A3 & A4 & A5)|[E _]];
    try lia.
  - assert (mmap_pages (k * page_size) len = 1) as N.
    { unfold mmap_pages. rewrite Z.mod_mul by done. rewrite Z.add_0_r, pages_of_div by lia. unfold page_size.
      symmetry. apply Z.div_unique with (len - 1); lia. }
    rewrite N in *. rewrite Z.mod_mul, Z.add_0_r in E by done. rewrite Z.div_mul in A5 by done.
    assert (os_claimed (entries (tabs m) a) = false) as Fa by (apply A3; lia).
    assert (forall i, entries p' i = if i =? a then mapped fl k else entries (tabs m) i) as En.
    { intros i. rewrite A5. destruct (Z.eqb_spec i a) as [-> |]; [rewrite bool_decide_true by lia; by rewrite Z.sub_diag, Z.add_0_r|by rewrite bool_decide_false by lia]. }
    eapply wpf_intro; [apply run_mem_paging; exact E|]. apply K; try done; [lia|]. apply set_tabs_hw; try done.
    1, 2: apply A4.
  - eapply wpf_fault; [by apply fault_mem_paging|done].
Qed.

Lemma unmap_one_spec a len m : hw m -> 0 <= a < 2 ^ 20 -> a <> base false -> 0 < len <= page_size ->
  os_claimed (entries (tabs m) a) = true ->
  exists p' e, mem_paging (unmap (a * page_size) len) m = Done (tt, set_tabs p' m) /\ os_claimed e = false /\ present e = false /\
    hw (set_tabs p' m) /\ forall i, entries p' i = if i =? a then e else entries (tabs m) i.
Proof.
  intros H Ha Na Hl Hc. assert (pages_of len = 1) as N.
  { rewrite pages_of_div by lia. symmetry. unfold page_size in *. apply Z.div_unique with (len - 1); lia. }
  destruct (unmap_page_spec (a * page_size) (tabs m)) as (e & C & P & E); [by rewrite page_entry_0|]. rewrite page_entry_0 in E.
  eexists _, e. split.
  { apply run_mem_paging. unfold unmap. rewrite N. change (Z.to_nat 1) with 1%nat. cbn [unmap_loop].
    rewrite (run_bind_done _ _ _ _ _ E). reflexivity. }
  split_and!; try done. apply set_tabs_hw; [done| |cbn [entries set_entries]; unfold upd; destruct (Z.eqb_spec (base false) a); [congruence|apply (hw_kernel m H)]].
  split; [|intros u; rewrite last_pos_set_entries; apply (hw_pt m H)]. intros i. cbn. unfold upd. destruct (i =? a); [congruence|apply (hw_pt m H)].
Qed.

(** A page that was mapped for a moment is unmapped again; [f] is the memory then. *)
Record visited f m m' : Prop := {
  vi_hw : hw m'; vi_keep : keep m m'; vi_pages : kstep (tabs m) (tabs m'); vi_used j : used m' j = used m j; vi_ram : ram m' = f }.
Lemma unmap_back a k fl len f p' m (F : fault -> Prop) (Q : unit -> machine B -> Prop) :
  hw m -> base false <= a < limit false -> os_claimed (entries (tabs m) a) = false -> hw (set_tabs p' m) ->
  (forall i, entries p' i = if i =? a then mapped fl k else entries (tabs m) i) -> 0 < len <= page_size ->
  (forall m', visited f m m' -> Q tt m') -> wpf F (mem_paging (unmap (a * page_size) len)) Q (set_ram f (set_tabs p' m)).
Proof.
  intros H Ha Fa H' E Hl K. assert (limit false <= 2 ^ 20) by (by vm_compute). assert (0 <= base false) by (by vm_compute).
  destruct (unmap_one_spec a len (set_ram f (set_tabs p' m))) as (p2 & e & R & C & _ & H2 & E2); try done; [by destruct H'; split|lia| | |].
  { by apply (hw_unclaimed m). } { cbn. rewrite E, Z.eqb_refl. done. }
  eapply wpf_intro; [exact R|]. apply K. split; try done. split; intros i; cbn; rewrite E2; cbn; destruct (Z.eqb_spec i a) as [-> |N]; try congruence.
  - rewrite E. by destruct (Z.eqb_spec i a).
  - intros _. rewrite E. by destruct (Z.eqb_spec i a).
Qed.

(** ** Bytes of a mapped page *)

Lemma page_entry_in a o : 0 <= o < page_size -> page_entry (a * page_size + o) = a.
Proof. apply page_entry_page. Qed.

Lemma poke_spec a k fl l : forall o m, entries (tabs m) a = mapped fl k -> has fl Sentinel = false -> 0 <= k < array_size ->
  0 <= a < 2 ^ 20 -> 0 <= o -> o + Z.of_nat (length l) <= page_size ->
  exists f, poke (u32 (a * page_size + o)) l m = Done (tt, set_ram f m) /\
    forall x, f x = overwrite (ram m) (k * page_size + o) l x.
Proof.
  assert (page_size = 4096) as Ps by done. induction l as [|y l IH]; intros o m E S Hk Ha Ho Hl; cbn [poke].
  { exists (ram m). split; [by destruct m|]. intros x. by rewrite overwrite_nil. }
  cbn [length] in Hl. rewrite (uwrap_small 32 (a * page_size + o)) by lia.
  assert (page_entry (a * page_size + o) = a) as Pe by (apply page_entry_in; lia).
  assert (physical_address (a * page_size + o) (tabs m) = k * page_size + o) as Pa.
  { rewrite (physical_address_mapped _ _ fl k); [| |done|exact Hk]; [|by rewrite Pe]. f_equal.
    rewrite Z.add_comm, Z.mod_add by lia. apply Z.mod_small. lia. }
  set (m1 := set_ram (fun x => if x =? k * page_size + o then y else ram m x) m).
  assert (poke1 (a * page_size + o) y m = Done (tt, m1)) as E1.
  { unfold poke1, is_mapped. rewrite Pe, E, Pa. cbn. by rewrite S. }
  destruct (IH (o + 1) m1) as (f & Ef & Hf); try done; try lia. exists f. split.
  - etrans; [by apply run_bind_done|]. rewrite <- Z.add_assoc. exact Ef.
  - intros x. rewrite Hf, Z.add_assoc. rewrite (overwrite_ext _ (overwrite (ram m) (k * page_size + o) [y])).
    + apply (overwrite_app (ram m) (k * page_size + o) [y] l x).
    + intros z. cbn. unfold overwrite. cbn [length]. change (Z.of_nat 1) with 1. destruct (Z.eqb_spec z (k * page_size + o)) as [-> |].
      * rewrite Z.leb_refl, (proj2 (Z.ltb_lt _ _)), Z.sub_diag by lia. done.
      * destruct (Z.leb_spec (k * page_size + o) z), (Z.ltb_spec z (k * page_size + o + 1)); cbn; try done. lia.
Qed.
Lemma peek_spec a k fl n : forall o m, entries (tabs m) a = mapped fl k -> has fl Sentinel = false -> 0 <= k < array_size ->
  0 <= a < 2 ^ 20 -> 0 <= o -> o + Z.of_nat n <= page_size ->
  peek (u32 (a * page_size + o)) n m = Done (bytes (ram m) (k * page_size + o) (Z.of_nat n), m).
Proof.
  assert (page_size = 4096) as Ps by done. induction n as [|n IH]; intros o m E S Hk Ha Ho Hl; cbn [peek]; [done|].
  rewrite (uwrap_small 32 (a * page_size + o)) by lia.
  assert (page_entry (a * page_size + o) = a) as Pe by (apply page_entry_in; lia).
  assert (physical_address (a * page_size + o) (tabs m) = k * page_size + o) as Pa.
  { rewrite (physical_address_mapped _ _ fl k); [| |done|exact Hk]; [|by rewrite Pe]. f_equal.
    rewrite Z.add_comm, Z.mod_add by lia. apply Z.mod_small. lia. }
  etrans; [apply run_bind_done; unfold peek1, is_mapped; rewrite Pe, E, Pa; cbn; by rewrite S|].
  etrans; [eapply run_bind_done; rewrite <- Z.add_assoc; apply IH; try done; lia|]. unfold mret, M_ret. do 2 f_equal.
  unfold bytes. rewrite !Nat2Z.id. cbn [seq fmap list_fmap]. f_equal; [f_equal; lia|]. rewrite <- fmap_S_seq, <- list_fmap_compose.
  apply list_fmap_ext. intros i x _. cbn. f_equal. lia.
Qed.
End memory.
End SpaceMemory.
