(* ===== verification/SpaceInv.v ===== *)
(** * SpaceInv: the invariant of the address spaces

    Every operation of [AddressSpace] keeps the owned pages apart and the page tables of the
    machine equal to the table of the current process. *)
From stdpp Require Import base list gmap.
From Stdlib Require Import ZArith Lia.
From S2P Require Import Prelude Hoare BitArray Paging PagingProofs Memmap PhysAlloc Disk DiskProofs AddressSpace SpaceMemory.
Import Paging PagingProofs Memmap PhysAlloc DiskProofs AddressSpace SpaceMemory.

Module SpaceInv.

(** The number of user pages. *)
Definition upages : Z := 0xC0000.

Section inv.
Context {B : Type} `{BS : BitSet B}.
Implicit Types (m : machine B) (p : paging) (t : table).

Record page_ok m (v : Z) (e : MemoryMapping) : Prop := {
  po_page : exists i, v = i * page_size /\ 0 <= i < upages;
  po_flags : 0 <= flags e < 2 ^ 31;
  po_owned : owned e = true -> exists k, paddr e = k * page_size /\ 0 < k < array_size /\ used m k = true }.

(** The page [v] of the table [h] owns the frame [k]. *)
Definition owns m (k : Z) (h : nat) (v : Z) : Prop :=
  exists t e, tables m !! h = Some t /\ t !! v = Some e /\ owned e = true /\ paddr e = k * page_size.

(** The page tables hold [t], but for the pages [P] that are claimed and not mapped yet. *)
Definition shows (P : Z -> Prop) t p : Prop := forall i, 0 <= i < upages ->
  match t !! (i * page_size) with
  | Some e => entries p i = mapped (flags e) (Z.shiftr (paddr e) 12)
  | None => present (entries p i) = false /\ (~ P i -> os_claimed (entries p i) = false)
  end.

Record minv (P : Z -> Prop) m : Prop := {
  i_hw : hw m;
  i_pages h t v e : tables m !! h = Some t -> t !! v = Some e -> page_ok m v e;
  i_owner k h v h' v' : owns m k h v -> owns m k h' v' -> h = h' /\ v = v';
  i_space pid h : space_of m !! pid = Some h -> is_Some (tables m !! h);
  i_current : exists c h t, current m = Some c /\ space_of m !! c = Some h /\ tables m !! h = Some t /\ shows P t (tabs m) }.
Definition nothing (i : Z) : Prop := False.

Lemma shows_kstep P t p p' : kstep p p' -> pt_inv p' -> shows P t p -> shows P t p'.
Proof.
  intros [C S] I H i Hi. specialize (H i Hi). destruct (t !! _) as [e|].
  - rewrite S; [done|]. by rewrite H.
  - destruct H as [H1 H2]. rewrite C. split; [|done]. destruct (os_claimed (entries p i)) eqn:E; [by rewrite S|].
    destruct (present (entries p' i)) eqn:Pr; [|done]. apply (pi_claimed _ I) in Pr. rewrite C in Pr. congruence.
Qed.

(** A step that leaves the processes alone. *)
Lemma minv_step P m m' : minv P m -> hw m' -> keep m m' -> kstep (tabs m) (tabs m') ->
  (forall j, 0 <= j < array_size -> used m j = true -> used m' j = true) -> minv P m'.
Proof.
  intros [H Pg O S C] H' [Kt Ks Kc] St U. split; [done| | | |].
  - rewrite Kt. intros h t v e Ht He. destruct (Pg _ _ _ _ Ht He) as [P1 P2 P3]. split; [done|done|].
    intros Ow. destruct (P3 Ow) as (k & -> & Hk & Uk). exists k. split_and!; try done; try lia. apply U; [lia|done].
  - unfold owns. rewrite Kt. exact O.
  - rewrite Kt, Ks. exact S.
  - rewrite Kt, Ks, Kc. destruct C as (c & h & t & ? & ? & ? & Sh). exists c, h, t. split_and!; try done.
    eapply shows_kstep; [done|apply H'|done].
Qed.
Lemma minv_taken P k m m' : minv P m -> taken_page k m m' -> minv P m' /\ forall h v, ~ owns m' k h v.
Proof.
  intros I [Rk Fk U H K St _]. split.
  - apply (minv_step P m); try done. intros j Hj Uj. rewrite U by done. by destruct (decide (j = k)).
  - intros h v (t & e & Ht & He & Ow & Pa). rewrite (k_tables _ _ K) in Ht. destruct (po_owned _ _ _ (i_pages P m I _ _ _ _ Ht He) Ow) as (k' & Pa' & _ & Uk').
    assert (k' = k) as -> by (unfold page_size in *; lia). congruence.
Qed.

(** ** A page enters a table *)

Definition put_map (h : nat) t (v : Z) (e : MemoryMapping) m : machine B := set_tables <[h := <[v := e]> t]> m.
Definition may_own m (e : MemoryMapping) : Prop :=
  owned e = true -> exists k, paddr e = k * page_size /\ 0 < k < array_size /\ used m k = true /\ forall h v, ~ owns m k h v.

Lemma owns_put h t v e m k h' v' : tables m !! h = Some t -> owns (put_map h t v e m) k h' v' ->
  owns m k h' v' \/ (h' = h /\ v' = v /\ owned e = true /\ paddr e = k * page_size).
Proof.
  intros Ht (t' & e' & Ht' & He' & Ow & Pa). cbn in Ht'. apply lookup_insert_Some in Ht' as [[<- <-]|[N Ht']].
  - apply lookup_insert_Some in He' as [[<- <-]|[N He']]; [by right|]. left. by exists t, e'.
  - left. by exists t', e'.
Qed.

(** The invariant but for what the page tables show. *)
Record tinv m : Prop := {
  ti_hw : hw m;
  ti_pages h t v e : tables m !! h = Some t -> t !! v = Some e -> page_ok m v e;
  ti_owner k h v h' v' : owns m k h v -> owns m k h' v' -> h = h' /\ v = v';
  ti_space pid h : space_of m !! pid = Some h -> is_Some (tables m !! h) }.
Lemma minv_tinv P m : minv P m <-> tinv m /\
  exists c h t, current m = Some c /\ space_of m !! c = Some h /\ tables m !! h = Some t /\ shows P t (tabs m).
Proof. split; [intros []; split; [by split|done]|intros [[] ?]; by split]. Qed.

Lemma tinv_put h t i e m : tinv m -> tables m !! h = Some t -> 0 <= i < upages -> t !! (i * page_size) = None ->
  0 <= flags e < 2 ^ 31 -> may_own m e -> tinv (put_map h t (i * page_size) e m).
Proof.
  intros [H Pg O S] Ht Hi Hv Hf Ow. split; [by destruct H; split| | |].
  - intros h' t' v' e'. cbn. intros [[<- <-]|[N Ht']]%lookup_insert_Some.
    + intros [[<- <-]|[N He']]%lookup_insert_Some.
      * split; [by exists i|done|]. intros Oe. destruct (Ow Oe) as (k & ? & ? & ? & _). by exists k.
      * by destruct (Pg _ _ _ _ Ht He').
    + intros He'. by destruct (Pg _ _ _ _ Ht' He').
  - assert (forall k h' v', owns m k h' v' -> owned e = true -> paddr e <> k * page_size) as N.
    { intros k h' v' Hk Oe Pa. destruct (Ow Oe) as (k' & Pa' & _ & _ & X). assert (k' = k) as -> by (unfold page_size in *; lia). by apply (X h' v'). }
    intros k h1 v1 h2 v2 [O1|(-> & -> & ? & ?)]%owns_put [O2|(-> & -> & ? & ?)]%owns_put; try done; [by eapply O| |]; exfalso; by eapply N.
  - intros pid h' Hh. cbn. destruct (decide (h' = h)) as [-> |]; [by rewrite lookup_insert_eq|rewrite lookup_insert_ne by done]. by eapply S.
Qed.

Lemma limits : upages <= base false.
Proof. by vm_compute. Qed.

(** A user page changes in the page tables. *)
Lemma hw_user i x m : hw m -> 0 <= i < upages -> (present x = true -> os_claimed x = true) ->
  hw (set_tabs (set_entries (upd i x (entries (tabs m))) (tabs m)) m).
Proof.
  intros H Hi Hx. pose proof limits. apply set_tabs_hw; [done| |].
  - split; [|intros u; rewrite last_pos_set_entries; apply (hw_pt m H)]. intros j. cbn. unfold upd. destruct (j =? i); [done|apply (hw_pt m H)].
  - cbn [entries set_entries]. unfold upd. destruct (Z.eqb_spec (base false) i); [lia|apply (hw_kernel m H)].
Qed.
Lemma tinv_tabs p' m : tinv m -> hw (set_tabs p' m) -> tinv (set_tabs p' m).
Proof. intros [H Pg O S] H'. split; try done. intros h t v e Ht He. by destruct (Pg _ _ _ _ Ht He). Qed.

Lemma run_space pid h m : space_of m !! pid = Some h -> space pid m = Done (h, m).
Proof. intros E. unfold space. etrans; [apply run_bind_get|]. by rewrite E. Qed.
Lemma run_mappings pid h t m : space_of m !! pid = Some h -> tables m !! h = Some t -> mappings pid m = Done (t, m).
Proof. intros E Et. unfold mappings. etrans; [by apply run_bind_done, run_space|]. etrans; [apply run_bind_get|]. by rewrite Et. Qed.
Lemma run_current c m : current m = Some c -> m_current_process m = Done (c, m).
Proof. intros E. unfold m_current_process. etrans; [apply run_bind_get|]. by rewrite E. Qed.

Lemma shows_insert P t i e p : shows P t p -> 0 <= i < upages ->
  shows P (<[i * page_size := e]> t) (set_entries (upd i (mapped (flags e) (Z.shiftr (paddr e) 12)) (entries p)) p).
Proof.
  intros Sh Hi j Hj. cbn. unfold upd. destruct (Z.eqb_spec j i) as [-> |N]; [by rewrite lookup_insert_eq|].
  rewrite lookup_insert_ne by (unfold page_size; lia). by apply Sh.
Qed.

Lemma proc_map_page_run P pid h t i pa fl own m :
  minv P m -> space_of m !! pid = Some h -> tables m !! h = Some t -> 0 <= i < upages -> t !! (i * page_size) = None ->
  0 <= fl < 2 ^ 31 -> may_own m (mkMapping pa fl own) ->
  exists p', proc_map_page pid (i * page_size) pa fl own m = Done (tt, put_map h t (i * page_size) (mkMapping pa fl own) (set_tabs p' m)) /\
    minv P (put_map h t (i * page_size) (mkMapping pa fl own) (set_tabs p' m)).
Proof.
  intros I Hs Ht Hi Hv Hf Ow. apply minv_tinv in I as (T & c & hc & tc & Hc & Hsc & Htc & Sh).
  set (e := mkMapping pa fl own) in *.
  assert (exists p', when (bool_decide (h = hc)) (mem_paging (map_page pa (i * page_size) fl)) m = Done (tt, set_tabs p' m) /\
    hw (set_tabs p' m) /\ shows P (if decide (h = hc) then <[i * page_size := e]> tc else tc) p') as (p' & E & H' & Sh').
  { destruct (decide (h = hc)) as [-> |N].
    - rewrite bool_decide_true by done. assert (tc = t) as -> by congruence. pose proof (Sh i Hi) as Si. rewrite Hv in Si. eexists. split.
      + apply run_mem_paging, map_page_spec. rewrite page_entry_0. apply Si.
      + rewrite page_entry_0. split; [by apply hw_user; [apply T|..]|by apply (shows_insert P t i e)].
    - rewrite bool_decide_false by done. exists (tabs m). split_and!; [by destruct m as [[] ? ? ? ? ?]|by destruct T as [[] _ _ _]; split|done]. }
  exists p'. split.
  - unfold proc_map_page. etrans; [by apply run_bind_done, run_space|]. etrans; [by apply run_bind_done, run_current|].
    etrans; [by apply run_bind_done, run_space|]. etrans; [by apply run_bind_done|]. etrans; [by eapply run_bind_done, run_mappings|].
    rewrite bool_decide_true by done. rewrite uwrap_small by done. reflexivity.
  - apply minv_tinv. split; [apply tinv_put; try done; by apply tinv_tabs|]. exists c, hc, (if decide (h = hc) then <[i * page_size := e]> tc else tc).
    split_and!; try done. cbn. destruct (decide (h = hc)) as [<- |N]; [|by rewrite lookup_insert_ne].
    assert (tc = t) as -> by congruence. by rewrite lookup_insert_eq.
Qed.

(** ** New pages *)

(** The frame [k] was free and is now in use, with any contents. *)
Record new_frame k m m' : Prop := {
  nf_range : 0 < k < array_size;
  nf_free : used m k = false;
  nf_used : used m' k = true;
  nf_grow j : 0 <= j < array_size -> used m j = true -> used m' j = true;
  nf_keep : keep m m';
  nf_hw : hw m';
  nf_pages : kstep (tabs m) (tabs m');
  nf_ram x : x / page_size <> k -> ram m' x = ram m x }.
Lemma taken_new k m m' : taken_page k m m' -> new_frame k m m'.
Proof.
  intros [Rk Fk U H K St R]. split; try done.
  - rewrite U by lia. by destruct (decide (k = k)).
  - intros j Hj Uj. rewrite U by done. by destruct (decide (j = k)).
Qed.
Lemma new_frame_inv P k m m' : minv P m -> new_frame k m m' -> minv P m' /\ forall h v, ~ owns m' k h v.
Proof.
  intros I [Rk Fk Uk U K H St _]. split; [by apply (minv_step P m)|].
  intros h v (t & e & Ht & He & Ow & Pa). rewrite (k_tables _ _ K) in Ht.
  destruct (po_owned _ _ _ (i_pages P m I _ _ _ _ Ht He) Ow) as (k' & Pa' & _ & Uk').
  assert (k' = k) as -> by (unfold page_size in *; lia). congruence.
Qed.

(** The table [h] got more pages; frames in use keep their bytes. *)
Record grown (h : nat) m m' : Prop := {
  g_space : space_of m' = space_of m;
  g_current : current m' = current m;
  g_others h' : h' <> h -> tables m' !! h' = tables m !! h';
  g_table t : tables m !! h = Some t -> exists t', tables m' !! h = Some t' /\ t ⊆ t';
  g_used k : 0 <= k < array_size -> used m k = true -> used m' k = true;
  g_ram x : 0 <= x / page_size < array_size -> used m (x / page_size) = true -> ram m' x = ram m x }.
#[export] Instance grown_preorder h : PreOrder (grown h).
Proof.
  split; [split; eauto|]. intros m1 m2 m3 [S1 C1 O1 T1 U1 R1] [S2 C2 O2 T2 U2 R2]. split; [congruence|congruence| | | |].
  - intros h' N. by rewrite O2, O1.
  - intros t Ht. destruct (T1 t Ht) as (t2 & Ht2 & S12). destruct (T2 t2 Ht2) as (t3 & ? & ?). exists t3. split; [done|by etrans].
  - auto.
  - intros x Hx Ux. rewrite R2, R1; auto.
Qed.

Lemma map_new P pid h t i fl k m m1 :
  minv P m -> new_frame k m m1 -> space_of m !! pid = Some h -> tables m !! h = Some t -> 0 <= i < upages -> t !! (i * page_size) = None ->
  0 <= fl < 2 ^ 31 ->
  exists m2, proc_map_page pid (i * page_size) (k * page_size) fl true m1 = Done (tt, m2) /\ minv P m2 /\ grown h m m2 /\
    tables m2 = <[h := <[i * page_size := mkMapping (k * page_size) fl true]> t]> (tables m) /\ ram m2 = ram m1 /\ (forall j, used m2 j = used m1 j).
Proof.
  intros I N Hs Ht Hi Hv Hf. destruct (new_frame_inv P k m m1 I N) as [I1 O1]. pose proof N as [Rk Fk Uk U K H St R].
  destruct (proc_map_page_run P pid h t i (k * page_size) fl true m1) as (p' & E & I2); try done.
  { by rewrite (k_space _ _ K). } { by rewrite (k_tables _ _ K). } { intros _. exists k. done. }
  eexists. split; [exact E|]. split; [exact I2|]. split; [|split; [cbn; by rewrite (k_tables _ _ K)|done]].
  split; [apply K|apply K| | | |].
  - intros h' Nh. cbn. by rewrite lookup_insert_ne, (k_tables _ _ K).
  - intros t0 Ht0. assert (t0 = t) as -> by congruence. eexists. cbn. rewrite lookup_insert_eq. split; [done|by apply insert_subseteq].
  - intros j Hj Uj. by apply U.
  - intros x Hx Ux. cbn. apply R. intros Ek. congruence.
Qed.

(** ** The search for free pages *)

Definition free_pages (a n : Z) t : Prop := forall j, a <= j < a + n -> t !! (j * page_size) = None.

Lemma page_shift i : Z.shiftl i 12 = i * page_size.
Proof. by rewrite Z.shiftl_mul_pow2. Qed.

(** The first run of [count] free pages, if there is one. *)
Lemma free_pages_loop_spec n : forall i count addr counter t, 0 <= counter < count ->
  (0 < counter -> addr = (i - counter) * page_size) -> free_pages (i - counter) counter t ->
  match free_pages_loop n i count addr counter t with
  | Some v => exists a, v = a * page_size /\ i - counter <= a /\ a + count <= i + Z.of_nat n /\ free_pages a count t
  | None => forall a, i - counter <= a -> a + count <= i + Z.of_nat n -> ~ free_pages a count t
  end.
Proof.
  induction n as [|n IH]; intros i count addr counter t Hc Ha Hr; cbn [free_pages_loop]; [intros a ? ? _; lia|]. rewrite page_shift.
  case_bool_decide as Fr; cbn [andb].
  - assert (free_pages (i - counter) (counter + 1) t) as Hr'.
    { intros j Hj. destruct (Z.eq_dec j i) as [-> |]; [done|apply Hr; lia]. }
    assert ((if counter =? 0 then i * page_size else addr) = (i - counter) * page_size) as Ea.
    { destruct (Z.eqb_spec counter 0) as [-> |]; [f_equal; lia|apply Ha; lia]. }
    rewrite Ea. destruct (Z.eqb_spec (counter + 1) count) as [<- |N]; [exists (i - counter); split_and!; try done; lia|].
    specialize (IH (i + 1) count ((i - counter) * page_size) (counter + 1) t). replace (i + 1 - (counter + 1)) with (i - counter) in IH by lia.
    specialize (IH ltac:(lia) ltac:(done) Hr'). destruct (free_pages_loop _ _ _ _ _ _).
    + destruct IH as (a & ? & ? & ? & ?). exists a. split_and!; try done; lia.
    + intros a H1 H2. apply IH; lia.
  - destruct (Z.eqb_spec 0 count) as [|_]; [lia|]. specialize (IH (i + 1) count addr 0 t ltac:(lia) ltac:(lia) ltac:(intros j Hj; lia)).
    destruct (free_pages_loop _ _ _ _ _ _).
    + destruct IH as (a & ? & ? & ? & ?). exists a. split_and!; try done; lia.
    + intros a H1 H2 Hf. destruct (Z.le_gt_cases a i) as [L|L]; [|apply (IH a); [lia|lia|done]]. apply Fr. apply Hf. lia.
Qed.

Definition ubase : Z := 0x8000.
Lemma allocate_virtual_page_spec pid h t count m : space_of m !! pid = Some h -> tables m !! h = Some t -> 0 < count ->
  (exists a, allocate_virtual_page pid count m = Done (a * page_size, m) /\ ubase <= a /\ a + count <= upages /\ free_pages a count t) \/
  (allocate_virtual_page pid count m = Fault AssertFailed /\ forall a, ubase <= a -> a + count <= upages -> ~ free_pages a count t).
Proof.
  intros Hs Ht Hc. assert (Z.shiftr USER_VIRTUAL_BASE 12 + Z.of_nat user_pages = upages) as Eu.
  { unfold user_pages. rewrite Z2Nat.id by (by vm_compute). done. }
  pose proof (free_pages_loop_spec user_pages (Z.shiftr USER_VIRTUAL_BASE 12) count 0 0 t ltac:(lia) ltac:(lia) ltac:(intros j Hj; lia)) as L.
  rewrite Eu in L. change (Z.shiftr USER_VIRTUAL_BASE 12) with ubase in *. rewrite Z.sub_0_r in L.
  assert (allocate_virtual_page pid count m =
    match free_pages_loop user_pages ubase count 0 0 t with Some addr => mret addr | None => fail AssertFailed end m) as R.
  { unfold allocate_virtual_page. etrans; [by eapply run_bind_done, run_mappings|]. reflexivity. }
  rewrite R. clear R Eu. destruct (free_pages_loop _ _ _ _ _ _) as [v|].
  - left. destruct L as (a & -> & L1 & L2 & L3). exists a. split; [reflexivity|]. exact (conj L1 (conj L2 L3)).
  - right. split; [reflexivity|exact L].
Qed.
End inv.
End SpaceInv.
