(* ===== verification/SpaceLoad.v ===== *)
(** * SpaceLoad: new pages for a process

    The loops that give pages to a process: allocation, the code of a program, its stack and
    its thread storage. *)
From stdpp Require Import base list gmap.
From Stdlib Require Import ZArith Lia.
From S2P Require Import Prelude Hoare BitArray Paging PagingProofs Memmap PhysAlloc Disk DiskProofs AddressSpace SpaceMemory SpaceInv.
Import Paging PagingProofs Memmap PhysAlloc DiskProofs AddressSpace SpaceMemory SpaceInv.

Module SpaceLoad.
Section load.
Context {B : Type} `{BS : BitSet B} (F : fault -> Prop) (P : Z -> Prop).
Hypothesis may_panic : F Panic.
Implicit Types (m : machine B) (t : table).

Definition RWU : Z := Z.lor (Z.lor Read Write) User.

Lemma user_addr i j : 0 <= i -> 0 <= j -> i + j < upages -> u32 (i * page_size + j * page_size) = (i + j) * page_size.
Proof. intros. unfold upages, page_size in *. rewrite uwrap_small; lia. Qed.

(** A page is allocated and mapped at the page [i]. *)
Lemma alloc_map_spec pid h t i fl m (Q : unit -> machine B -> Prop) :
  minv P m -> space_of m !! pid = Some h -> tables m !! h = Some t -> 0 <= i < upages -> t !! (i * page_size) = None -> 0 <= fl < 2 ^ 31 ->
  (forall k m2, 0 < k < array_size -> minv P m2 -> grown h m m2 -> used m k = false -> used m2 k = true ->
     tables m2 = <[h := <[i * page_size := mkMapping (k * page_size) fl true]> t]> (tables m) -> Q tt m2) ->
  wpf F (page ← allocate_physical_page; proc_map_page pid (i * page_size) page fl true) Q m.
Proof.
  intros I Hs Ht Hi Hv Hf K. apply wpf_bind, allocate_spec; [apply I|done|]. intros k m1 N%taken_new.
  destruct (map_new P pid h t i fl k m m1) as (m2 & E & I2 & G & T2 & R2 & U2); try done.
  eapply wpf_intro; [exact E|]. apply (K k); try done; [apply N|apply N|by rewrite U2, (nf_used _ _ _ N)].
Qed.

(** The pages [a .. a + n - 1] of a table are new. *)
Definition new_pages (a n : Z) (fl : Z) t0 t : Prop := forall v,
  t !! v = t0 !! v \/ exists j k, a <= j < a + n /\ v = j * page_size /\ t !! v = Some (mkMapping (k * page_size) fl true).
Record extended h t0 (a n fl : Z) m0 m : Prop := {
  ex_inv : minv P m;
  ex_grown : grown h m0 m;
  ex_table : exists t, tables m !! h = Some t /\ new_pages a n fl t0 t /\
    forall j, a <= j < a + n -> exists k, t !! (j * page_size) = Some (mkMapping (k * page_size) fl true) }.
Lemma extended_nil h t0 a fl m : minv P m -> tables m !! h = Some t0 -> extended h t0 a 0 fl m m.
Proof. intros I Ht. split; [done|done|]. exists t0. split_and!; [done|by left|lia]. Qed.

Lemma extended_step h t0 a j fl m0 m k m2 : extended h t0 a j fl m0 m -> 0 <= a -> 0 <= j -> t0 !! ((a + j) * page_size) = None ->
  minv P m2 -> grown h m m2 ->
  (exists t, tables m !! h = Some t /\ tables m2 = <[h := <[(a + j) * page_size := mkMapping (k * page_size) fl true]> t]> (tables m)) ->
  extended h t0 a (j + 1) fl m0 m2.
Proof.
  intros [I G (t & Ht & N & A)] Ha Hj H0 I2 G2 (t' & Ht' & T2). assert (t' = t) as -> by congruence. split; [done|by etrans|].
  exists (<[(a + j) * page_size := mkMapping (k * page_size) fl true]> t). rewrite T2, lookup_insert_eq. split_and!; [done| |].
  - intros v. destruct (decide (v = (a + j) * page_size)) as [-> |Nv].
    + right. exists (a + j), k. rewrite lookup_insert_eq. split_and!; try done; lia.
    + rewrite lookup_insert_ne by done. destruct (N v) as [|(j' & k' & ? & ? & ?)]; [by left|]. right. exists j', k'. split_and!; try done; lia.
  - intros i Hi. destruct (Z.eq_dec i (a + j)) as [-> |Ni]; [exists k; by rewrite lookup_insert_eq|].
    rewrite lookup_insert_ne by (unfold page_size; lia). apply A. lia.
Qed.
(** The next page of a run that was free is free. *)
Lemma extended_next h t0 a j fl m0 m t : extended h t0 a j fl m0 m -> 0 <= a -> 0 <= j -> t0 !! ((a + j) * page_size) = None ->
  tables m !! h = Some t -> t !! ((a + j) * page_size) = None.
Proof.
  intros [_ _ (t' & Ht' & N & _)] Ha Hj H0 Ht. assert (t' = t) as -> by congruence.
  destruct (N ((a + j) * page_size)) as [->|(j' & k' & ? & ? & _)]; [done|]. unfold page_size in *. lia.
Qed.

Lemma alloc_loop_spec pid h t0 a n fl m0 (Q : unit -> machine B -> Prop) :
  minv P m0 -> space_of m0 !! pid = Some h -> tables m0 !! h = Some t0 -> 0 <= a -> a + Z.of_nat n <= upages ->
  free_pages a (Z.of_nat n) t0 -> 0 <= fl < 2 ^ 31 -> (forall m, extended h t0 a (Z.of_nat n) fl m0 m -> Q tt m) ->
  wpf F (for_each (seq 0 n) (fun i => page ← allocate_physical_page; proc_map_page pid (u32 (a * page_size + Z.of_nat i * page_size)) page fl true)) Q m0.
Proof.
  intros I Hs Ht Ha Hn Fr Hf K. eapply wpf_mono; [apply (wpf_for_each_index F _ (fun j m => extended h t0 a (Z.of_nat j) fl m0 m))|].
  - intros j x m [-> Lj]%lookup_seq E. cbn [Nat.add]. rewrite user_addr by lia. destruct (ex_table _ _ _ _ _ _ _ E) as (t & Htt & _).
    assert (t0 !! ((a + Z.of_nat j) * page_size) = None) as H0 by (apply Fr; lia).
    apply (alloc_map_spec pid h t); try done; [apply E|by rewrite (g_space _ _ _ (ex_grown _ _ _ _ _ _ _ E))|lia| |].
    + eapply extended_next; [exact E|lia|lia|done|done].
    + intros k m2 Rk I2 G2 _ _ T2. rewrite Nat2Z.inj_add. eapply extended_step; [exact E|lia|lia|done|done|done|]. eauto.
  - by apply extended_nil.
  - intros [] m E. apply K. by rewrite length_seq in E.
Qed.

Lemma allocate_pages_spec pid h t0 pages m0 (Q : Z -> machine B -> Prop) :
  minv P m0 -> space_of m0 !! pid = Some h -> tables m0 !! h = Some t0 -> 0 < pages ->
  ((forall a, ubase <= a -> a + pages <= upages -> ~ free_pages a pages t0) -> F AssertFailed) ->
  (forall a m, ubase <= a -> a + pages <= upages -> free_pages a pages t0 -> extended h t0 a pages RWU m0 m -> Q (a * page_size) m) ->
  wpf F (allocate_pages pid pages) Q m0.
Proof.
  intros I Hs Ht Hp HF K. unfold allocate_pages. apply wpf_bind.
  destruct (allocate_virtual_page_spec pid h t0 pages m0 Hs Ht Hp) as [(a & E & A1 & A2 & A3)|[E N]].
  - eapply wpf_intro; [exact E|]. cbv beta. apply wpf_bind. assert (ubase = 0x8000) by done.
    apply (alloc_loop_spec pid h t0 a); try done; [lia|lia|by rewrite Z2Nat.id by lia|].
    intros m Ex. rewrite Z2Nat.id in Ex by lia. apply wpf_ret. by apply K.
  - eapply wpf_fault; [exact E|]. auto.
Qed.

(** ** Programs *)

Definition RWXU : Z := Z.lor (Z.lor (Z.lor Read Write) Executable) User.
(** The byte [x] of a program: its code, and zeros behind it. *)
Definition program (code : list Z) (x : Z) : Z := nth (Z.to_nat x) code 0.

Lemma visited_new f k m m1 m2 : new_frame k m m1 -> visited f m1 m2 -> (forall x, x / page_size <> k -> f x = ram m1 x) -> new_frame k m m2.
Proof.
  intros [Rk Fk Uk U K H St R] [H2 K2 St2 U2 <-] Rf. split; try done.
  - by rewrite U2.
  - intros j Hj Uj. rewrite U2. auto.
  - by etrans.
  - by etrans.
  - intros x Hx. rewrite Rf, R by done. done.
Qed.

(** The page of memory the loop of [map_code] writes. *)
Lemma code_bytes f k code i x : 0 <= i -> 0 <= k -> Z.of_nat (length code) < 2 ^ 31 -> i * page_size < 2 ^ 31 -> 0 < copy_size code i ->
  copy_size code i <= page_size /\ i * page_size + copy_size code i <= Z.of_nat (length code) /\
  overwrite (overwrite f (k * page_size) (take (Z.to_nat (copy_size code i)) (drop (Z.to_nat (i * page_size)) code))) (k * page_size + copy_size code i)
    (repeat 0 (Z.to_nat (page_size - copy_size code i))) x =
  if x / page_size =? k then program code (i * page_size + x mod page_size) else f x.
Proof.
  intros Hi Hk Hc Hp Hn. assert (page_size = 4096) as Ps by done. unfold copy_size in *. rewrite swrap_small in * by lia. set (n := Z.min _ _) in *.
  split_and!; [lia|lia|]. set (l := take _ _). assert (Z.of_nat (length l) = n) as Ll by (unfold l; rewrite length_take, length_drop; lia).
  rewrite <- Ll at 1. rewrite overwrite_app. pose proof (Z.div_mod x page_size ltac:(lia)) as Dx. pose proof (Z.mod_pos_bound x page_size ltac:(lia)) as Mx.
  unfold overwrite. rewrite length_app, repeat_length. destruct (Z.eqb_spec (x / page_size) k) as [E|E].
  - rewrite E in Dx. rewrite (proj2 (Z.leb_le _ _)), (proj2 (Z.ltb_lt _ _)) by lia. cbn [andb]. unfold program.
    replace (x - k * page_size) with (x mod page_size) by lia. destruct (Z.lt_ge_cases (x mod page_size) n).
    + rewrite app_nth1 by lia. unfold l. rewrite !nth_lookup, lookup_take_lt, lookup_drop by lia. do 2 f_equal. lia.
    + rewrite app_nth2 by lia. rewrite nth_repeat. symmetry. apply nth_overflow. lia.
  - destruct (Z.leb_spec (k * page_size) x), (Z.ltb_spec x (k * page_size + Z.of_nat (length l + Z.to_nat (page_size - n)))); cbn; try done. nia.
Qed.
Lemma bss_bytes f k code i x : 0 <= i -> 0 <= k -> Z.of_nat (length code) < 2 ^ 31 -> i * page_size < 2 ^ 31 -> copy_size code i <= 0 ->
  overwrite f (k * page_size) (repeat 0 (Z.to_nat page_size)) x =
  if x / page_size =? k then program code (i * page_size + x mod page_size) else f x.
Proof.
  intros Hi Hk Hc Hp Hn. assert (page_size = 4096) as Ps by done. unfold copy_size in *. rewrite swrap_small in * by lia.
  pose proof (Z.div_mod x page_size ltac:(lia)) as Dx. pose proof (Z.mod_pos_bound x page_size ltac:(lia)) as Mx.
  unfold overwrite, program. rewrite repeat_length. destruct (Z.eqb_spec (x / page_size) k) as [E|E].
  - rewrite E in Dx. rewrite (proj2 (Z.leb_le _ _)), (proj2 (Z.ltb_lt _ _)) by lia. cbn [andb]. rewrite nth_repeat. symmetry. apply nth_overflow. lia.
  - destruct (Z.leb_spec (k * page_size) x), (Z.ltb_spec x (k * page_size + Z.of_nat (Z.to_nat page_size))); cbn; try done. nia.
Qed.

(** The bytes of one page of the program are written through the page [a] of the kernel. *)
Lemma write_code_spec code i k a fl m : entries (tabs m) a = mapped fl k -> has fl Sentinel = false -> 0 <= k < array_size -> 0 <= a < 2 ^ 20 ->
  0 <= i -> Z.of_nat (length code) < 2 ^ 31 -> i * page_size < 2 ^ 31 ->
  wpf F (let n := copy_size code i in
    if 0 <? n then
      (if i * page_size + n <=? Z.of_nat (length code) then mret tt else fail BadAccess) ;;
      poke (a * page_size) (take (Z.to_nat n) (drop (Z.to_nat (i * page_size)) code)) ;;
      poke (u32 (a * page_size + n)) (repeat 0 (Z.to_nat (page_size - n)))
    else poke (a * page_size) (repeat 0 (Z.to_nat page_size)))
  (fun _ m' => exists f, m' = set_ram f m /\ forall x, f x = if x / page_size =? k then program code (i * page_size + x mod page_size) else ram m x) m.
Proof.
  intros E S Hk Ha Hi Hc Hp. cbv zeta. assert (page_size = 4096) as Ps by done.
  assert (a * page_size = u32 (a * page_size + 0)) as Ea by (rewrite uwrap_small; lia).
  destruct (Z.ltb_spec 0 (copy_size code i)) as [Hn|Hn].
  - pose proof (fun f x => code_bytes f k code i x Hi ltac:(lia) Hc Hp Hn) as Cb. destruct (Cb (ram m) 0) as (N1 & N2 & _).
    rewrite (proj2 (Z.leb_le _ _) N2). apply wpf_bind, wpf_ret. set (l := take _ _).
    assert (Z.of_nat (length l) = copy_size code i) as Ll by (unfold l; rewrite length_take, length_drop; lia).
    apply wpf_bind. rewrite Ea at 1. destruct (poke_spec a k fl l 0 m) as (f1 & E1 & H1); try done; try lia.
    eapply wpf_intro; [exact E1|]. cbv beta.
    destruct (poke_spec a k fl (repeat 0 (Z.to_nat (page_size - copy_size code i))) (copy_size code i) (set_ram f1 m)) as (f2 & E2 & H2);
      try done; try lia; try (rewrite repeat_length; lia).
    eapply wpf_intro; [exact E2|]. exists f2. split; [done|]. intros x. rewrite H2. rewrite <- (proj2 (proj2 (Cb (ram m) x))). cbn [ram set_ram].
    apply overwrite_ext. intros y. by rewrite H1, Z.add_0_r.
  - rewrite Ea. destruct (poke_spec a k fl (repeat 0 (Z.to_nat page_size)) 0 m) as (f & E1 & H1); try done; try lia; try (rewrite repeat_length; lia).
    eapply wpf_intro; [exact E1|]. exists f. split; [done|]. intros x. rewrite H1, Z.add_0_r. apply bss_bytes; try done; lia.
Qed.

Lemma map_code_page_spec pid h t code i m (Q : unit -> machine B -> Prop) :
  minv P m -> space_of m !! pid = Some h -> tables m !! h = Some t -> 0 <= i -> ubase + i < upages -> t !! ((ubase + i) * page_size) = None ->
  Z.of_nat (length code) < 2 ^ 31 -> i * page_size < 2 ^ 31 ->
  (forall k m2, 0 < k < array_size -> minv P m2 -> grown h m m2 -> used m2 k = true ->
     tables m2 = <[h := <[(ubase + i) * page_size := mkMapping (k * page_size) RWXU true]> t]> (tables m) ->
     (forall o, 0 <= o < page_size -> ram m2 (k * page_size + o) = program code (i * page_size + o)) -> Q tt m2) ->
  wpf F (map_code_page pid code i) Q m.
Proof.
  intros I Hs Ht Hi Hu Hv Hc Hp K. unfold map_code_page. assert (page_size = 4096) as Ps by done. assert (array_size = 2 ^ 20) as As by done.
  apply wpf_bind, allocate_spec; [apply I|done|]. intros k m1 N%taken_new. cbv zeta. pose proof (nf_range _ _ _ N) as Rk.
  apply wpf_bind, mmap_page_spec; [apply N|lia|lia|done|]. intros a p' Ha Fa H' E'. apply wpf_bind.
  assert (limit false <= 2 ^ 20) by (by vm_compute). assert (0 <= base false) by (by vm_compute).
  eapply wpf_mono; [apply (write_code_spec code i k a (Z.lor Read Write) (set_tabs p' m1)); try done; try lia|].
  { cbn. rewrite E', Z.eqb_refl. done. }
  intros _ m3 (f & -> & Hf). cbv beta. apply wpf_bind. apply (unmap_back a k (Z.lor Read Write) page_size f p' m1); try done; [apply N|].
  intros m4 V. apply wpf_bind. apply wpf_assert; [|intros _].
  { unfold Ztrue. intros X. destruct (Z.eqb_spec (k * page_size) 0); [lia|done]. }
  assert (new_frame k m m4) as N4.
  { eapply visited_new; [exact N|exact V|]. intros x Hx. rewrite Hf. by destruct (Z.eqb_spec (x / page_size) k). }
  assert (u32 (i * page_size + USER_VIRTUAL_BASE) = (ubase + i) * page_size) as ->.
  { rewrite uwrap_small; unfold ubase, USER_VIRTUAL_BASE, upages in *; lia. }
  destruct (map_new P pid h t (ubase + i) RWXU k m m4) as (m5 & E5 & I5 & G5 & T5 & R5 & U5); try done; [unfold ubase in *; lia|].
  eapply wpf_intro; [exact E5|]. apply (K k); try done; [by rewrite U5, (nf_used _ _ _ N4)|].
  intros o Ho. rewrite R5, (vi_ram _ _ _ V), Hf.
  rewrite (Z.add_comm (k * page_size)), Z.div_add, Z.mod_add, Z.div_small, Z.mod_small by lia. by rewrite Z.eqb_refl.
Qed.

(** The first [n] pages of the program are in memory. *)
Definition loaded code (n : Z) h m : Prop := forall i, 0 <= i < n -> exists t k,
  tables m !! h = Some t /\ t !! ((ubase + i) * page_size) = Some (mkMapping (k * page_size) RWXU true) /\
  0 < k < array_size /\ used m k = true /\ forall o, 0 <= o < page_size -> ram m (k * page_size + o) = program code (i * page_size + o).
Lemma loaded_grown code n h m m' : loaded code n h m -> grown h m m' -> loaded code n h m'.
Proof.
  intros L G i Hi. destruct (L i Hi) as (t & k & Ht & Hv & Rk & Uk & R). destruct (g_table _ _ _ G t Ht) as (t' & Ht' & S).
  exists t', k. split_and!; try done; try lia; [by eapply lookup_weaken|apply (g_used _ _ _ G); [lia|done]|].
  intros o Ho. assert ((k * page_size + o) / page_size = k) as Dk. { rewrite Z.add_comm, Z.div_add, Z.div_small; unfold page_size in *; lia. }
  rewrite (g_ram _ _ _ G); rewrite ?Dk; [by apply R|lia|done].
Qed.

Lemma map_code_spec pid h t0 code size m0 (Q : unit -> machine B -> Prop) :
  let n := pages_of size in
  minv P m0 -> space_of m0 !! pid = Some h -> tables m0 !! h = Some t0 -> 0 <= n -> ubase + n <= upages -> n * page_size <= 2 ^ 31 ->
  free_pages ubase n t0 -> Z.of_nat (length code) < 2 ^ 31 ->
  (forall m, extended h t0 ubase n RWXU m0 m -> loaded code n h m -> Q tt m) -> wpf F (map_code pid code size) Q m0.
Proof.
  intros n I Hs Ht Hn Hu Hp Fr Hc K. unfold map_code. fold n.
  eapply wpf_mono; [apply (wpf_for_each_index F _ (fun j m => extended h t0 ubase (Z.of_nat j) RWXU m0 m /\ loaded code (Z.of_nat j) h m))|].
  - intros j x m [-> Lj]%lookup_seq [E L]. cbn [Nat.add]. destruct (ex_table _ _ _ _ _ _ _ E) as (t & Htt & _). assert (0 <= ubase) by done.
    assert (t0 !! ((ubase + Z.of_nat j) * page_size) = None) as H0 by (apply Fr; lia).
    apply (map_code_page_spec pid h t); try done; try lia; [apply E|by rewrite (g_space _ _ _ (ex_grown _ _ _ _ _ _ _ E))| |unfold page_size in *; lia|].
    + eapply extended_next; [exact E|lia|lia|done|done].
    + intros k m2 Rk I2 G2 U2 T2 R2. rewrite Nat2Z.inj_add. split; [eapply extended_step; [exact E|lia|lia|done|done|done|]; eauto|].
      intros i Hi. destruct (Z.eq_dec i (Z.of_nat j)) as [-> |Ni].
      * eexists _, k. rewrite T2, lookup_insert_eq. split; [done|]. rewrite lookup_insert_eq. done.
      * apply (loaded_grown _ _ _ _ _ L G2). lia.
  - split; [by apply extended_nil|]. intros i Hi. lia.
  - intros [] m [E L]. rewrite length_seq, Z2Nat.id in * by lia. by apply K.
Qed.

(** A page that belongs to somebody else is mapped. *)
Lemma map_foreign pid h t i pa fl m : minv P m -> space_of m !! pid = Some h -> tables m !! h = Some t -> 0 <= i < upages ->
  t !! (i * page_size) = None -> 0 <= fl < 2 ^ 31 ->
  exists m', proc_map_page pid (i * page_size) pa fl false m = Done (tt, m') /\ minv P m' /\ grown h m m' /\
    tables m' = <[h := <[i * page_size := mkMapping pa fl false]> t]> (tables m).
Proof.
  intros I Hs Ht Hi Hv Hf. destruct (proc_map_page_run P pid h t i pa fl false m) as (p' & E & I'); try done.
  eexists. split_and!; [exact E|exact I'| |done]. split; try done.
  - intros h' N. cbn. by rewrite lookup_insert_ne.
  - intros t' Ht'. assert (t' = t) as -> by congruence. eexists. cbn. rewrite lookup_insert_eq. split; [done|by apply insert_subseteq].
Qed.

(** The two pages of the stack of a program. *)
Definition stack_page : Z := 0xBFFFE.
Lemma map_stack_page_spec pid h t i m (Q : unit -> machine B -> Prop) :
  minv P m -> space_of m !! pid = Some h -> tables m !! h = Some t -> 0 <= i <= stack_page -> t !! ((stack_page - i) * page_size) = None ->
  (forall k m2, minv P m2 -> grown h m m2 -> tables m2 = <[h := <[(stack_page - i) * page_size := mkMapping (k * page_size) RWU true]> t]> (tables m) -> Q tt m2) ->
  wpf F (map_stack_page pid i) Q m.
Proof.
  intros I Hs Ht Hi Hv K. unfold map_stack_page. assert (page_size = 4096) as Ps by done. cbv zeta.
  change (Z.land (user_stack_top - page_size) (Z.lnot (page_size - 1))) with (stack_page * page_size). rewrite <- Z.mul_sub_distr_r.
  assert (stack_page = 0xBFFFE) as Sp by done. assert (upages = 0xC0000) as Up by done. rewrite uwrap_small by lia.
  apply wpf_bind, allocate_spec; [apply I|done|]. intros k m1 N%taken_new. apply wpf_bind, wpf_assert.
  { unfold Ztrue. intros X. pose proof (nf_range _ _ _ N). destruct (Z.eqb_spec (k * page_size) 0); [lia|done]. }
  intros _. destruct (map_new P pid h t (stack_page - i) RWU k m m1) as (m2 & E & I2 & G & T2 & _); try done; [lia|].
  eapply wpf_intro; [exact E|]. by apply (K k).
Qed.

Lemma create_mappings_spec tramp pid h code size m0 (Q : unit -> machine B -> Prop) :
  let n := pages_of size in
  minv P m0 -> space_of m0 !! pid = Some h -> tables m0 !! h = Some ∅ -> 0 <= n -> n + ubase + 2 < stack_page -> n * page_size <= 2 ^ 31 ->
  Z.of_nat (length code) < 2 ^ 31 ->
  (forall m t, minv P m -> grown h m0 m -> tables m !! h = Some t -> free_pages (ubase + n) 2 t -> loaded code n h m -> Q tt m) ->
  wpf F (create_mappings tramp pid code size (2 * page_size)) Q m0.
Proof.
  intros n I Hs Ht Hn Hu Hp Hc K. assert (stack_page = 0xBFFFE) as Sp by done. assert (upages = 0xC0000) as Up by done. assert (page_size = 4096) as Ps by done.
  assert (ubase = 0x8000) as Ub by done.
  unfold create_mappings. apply wpf_bind, (map_code_spec pid h ∅); fold n; try done; try lia.
  intros m1 [I1 G1 (t1 & Ht1 & N1 & _)] L1.
  assert (forall v, (forall j, ubase <= j < ubase + n -> v <> j * page_size) -> t1 !! v = None) as Fr.
  { intros v Hv. destruct (N1 v) as [->|(j & k & Hj & -> & _)]; [apply lookup_empty|]. by destruct (Hv j). }
  assert (space_of m1 !! pid = Some h) as Hs1 by (by rewrite (g_space _ _ _ G1)).
  apply wpf_bind. unfold map_stack. change (pages_of (2 * page_size)) with 2. change (seq 0 (Z.to_nat 2)) with [0%nat; 1%nat]. cbn [for_each].
  apply wpf_bind, (map_stack_page_spec pid h t1); try done; try lia; [apply Fr; intros; lia|]. intros k2 m2 I2 G2 T2.
  set (t2 := <[_ := _]> t1) in T2.
  apply wpf_bind, (map_stack_page_spec pid h t2); try done; try lia; [by rewrite (g_space _ _ _ G2)|by rewrite T2, lookup_insert_eq| |].
  { unfold t2. rewrite lookup_insert_ne by lia. apply Fr. intros; lia. }
  intros k3 m3 I3 G3 T3. set (t3 := <[_ := _]> t2) in T3. apply wpf_ret. wpf_steps.
  change signal_trampoline_page with ((stack_page + 1) * page_size).
  destruct (map_foreign pid h t3 (stack_page + 1) (physical_address tramp (tabs m3)) (Z.lor (Z.lor Read User) Executable) m3) as (m4 & E4 & I4 & G4 & T4); try done; try lia.
  { by rewrite (g_space _ _ _ G3), (g_space _ _ _ G2). } { by rewrite T3, lookup_insert_eq. }
  { unfold t3, t2. rewrite !lookup_insert_ne by lia. apply Fr. intros; lia. }
  eapply wpf_intro; [exact E4|]. assert (grown h m1 m4) as G14 by (etrans; [exact G2|etrans; [exact G3|exact G4]]).
  eapply K; [done|by etrans|rewrite T4; apply lookup_insert_eq| |by eapply loaded_grown].
  intros j Hj. unfold t3, t2. rewrite !lookup_insert_ne by lia. apply Fr. intros; lia.
Qed.

(** ** Thread storage *)

Lemma visited_inv f m m' : minv P m -> visited f m m' -> minv P m'.
Proof. intros I [H K St U _]. apply (minv_step P m); try done. intros j _ Uj. by rewrite U. Qed.
(** A page that was not in use at first is written. *)
Lemma grown_visited h k f m0 m m' : grown h m0 m -> visited f m m' -> used m0 k = false ->
  (forall x, x / page_size <> k -> f x = ram m x) -> grown h m0 m'.
Proof.
  intros G [H K _ U <-] Uk R. destruct G as [S C O T Us Rm]. split; [by rewrite (k_space _ _ K)|by rewrite (k_current _ _ K)| | | |].
  - intros h' N. rewrite (k_tables _ _ K). by apply O.
  - rewrite (k_tables _ _ K). exact T.
  - intros j Hj Uj. rewrite U. by apply Us.
  - intros x Hx Ux. rewrite R; [by apply Rm|]. intros E. congruence.
Qed.

Lemma phys_write_spec k l m (Q : unit -> machine B -> Prop) : hw m -> 0 <= k < array_size -> 0 < Z.of_nat (length l) <= page_size ->
  (forall f m', visited f m m' -> (forall x, f x = overwrite (ram m) (k * page_size) l x) -> Q tt m') ->
  wpf F (phys_write (k * page_size) l) Q m.
Proof.
  intros H Hk Hl K. unfold phys_write. assert (array_size = 2 ^ 20) as As by done. assert (page_size = 4096) as Ps by done.
  apply wpf_bind, mmap_page_spec; try done. intros a p' Ha Fa H' E'. assert (limit false <= 2 ^ 20) by (by vm_compute). assert (0 <= base false) by (by vm_compute).
  apply wpf_bind. destruct (poke_spec a k Write l 0 (set_tabs p' m)) as (f & E & R); try done; try lia.
  { cbn. by rewrite E', Z.eqb_refl. }
  eapply wpf_intro; [|].
  { rewrite Z.add_0_r, uwrap_small in E by lia. exact E. }
  cbv beta. apply (unmap_back a k Write _ f p' m); try done. intros m' V. apply (K f m' V). intros x. by rewrite R, Z.add_0_r.
Qed.
Lemma overwrite_frame f k l x : 0 <= k -> Z.of_nat (length l) <= page_size -> x / page_size <> k -> overwrite f (k * page_size) l x = f x.
Proof.
  intros Hk Hl Hx. unfold overwrite. pose proof (Z.div_mod x page_size ltac:(done)). pose proof (Z.mod_pos_bound x page_size ltac:(done)).
  destruct (Z.leb_spec (k * page_size) x), (Z.ltb_spec x (k * page_size + Z.of_nat (length l))); cbn; try done. unfold page_size in *. nia.
Qed.

Lemma init_tls_spec pid h t m0 (Q : unit -> machine B -> Prop) :
  minv P m0 -> space_of m0 !! pid = Some h -> tables m0 !! h = Some t ->
  ((forall a, ubase <= a -> a + 2 <= upages -> ~ free_pages a 2 t) -> F AssertFailed) ->
  (forall m, minv P m -> grown h m0 m -> Q tt m) -> wpf F (init_tls pid) Q m0.
Proof.
  intros I Hs Ht HF K. unfold init_tls. apply wpf_bind. change (tls_pages + 1) with 2. assert (ubase = 0x8000) as Ub by done.
  destruct (allocate_virtual_page_spec pid h t 2 m0 Hs Ht ltac:(lia)) as [(a & E & A1 & A2 & A3)|[E N]]; [|eapply wpf_fault; [exact E|auto]].
  eapply wpf_intro; [exact E|]. cbv beta. change (Z.to_nat 2) with 2%nat. apply wpf_bind. cbn [tls_loop]. cbv zeta.
  apply wpf_bind, allocate_spec; [apply I|done|]. intros k1 m1 N1%taken_new. apply wpf_bind.
  rewrite user_addr by lia. rewrite Z.add_0_r.
  destruct (map_new P pid h t a RWU k1 m0 m1) as (m2 & E2 & I2 & G2 & T2 & _); try done; [lia|apply A3; lia|].
  eapply wpf_intro; [exact E2|]. cbv beta. change (0 =? tls_pages) with false. change (0 + 1 =? tls_pages) with true. cbv iota.
  apply wpf_bind, allocate_spec; [apply I2|done|]. intros k2 m3 N3%taken_new. apply wpf_bind. rewrite user_addr by lia.
  destruct (map_new P pid h (<[a * page_size := mkMapping (k1 * page_size) RWU true]> t) (a + (0 + 1)) RWU k2 m2 m3) as (m4 & E4 & I4 & G4 & T4 & _ & U4); try done.
  { by rewrite (g_space _ _ _ G2). } { by rewrite T2, lookup_insert_eq. } { lia. }
  { rewrite lookup_insert_ne by (unfold page_size; lia). apply A3. lia. }
  eapply wpf_intro; [exact E4|]. cbv beta. apply wpf_ret. cbn [fst snd]. apply wpf_bind.
  assert (used m0 k2 = false) as F2.
  { destruct (used m0 k2) eqn:U; [|done]. pose proof (nf_range _ _ _ N3). pose proof (nf_free _ _ _ N3).
    assert (used m2 k2 = true) by (apply (g_used _ _ _ G2); [lia|done]). congruence. }
  apply phys_write_spec; [apply I4|pose proof (nf_range _ _ _ N3); lia|done|]. intros f m5 V R. apply wpf_modify.
  assert (minv P m5) as I5 by (by eapply visited_inv).
  assert (grown h m0 m5) as G5.
  { eapply (grown_visited h k2); [etrans; [exact G2|exact G4]|exact V|done|]. intros x Hx. rewrite R.
    apply overwrite_frame; [pose proof (nf_range _ _ _ N3); lia|done|done]. }
  apply K; [|by destruct G5; split]. apply (minv_step P m5); try done. by destruct I5 as [[] ? ? ? ?].
Qed.
End load.
End SpaceLoad.
