(* ===== verification/SpaceSwitch.v ===== *)
(** * SpaceSwitch: address spaces change hands

    The page tables of the machine from one table to another, and the release of the pages of
    a table. *)
From stdpp Require Import base list gmap fin_maps.
From Stdlib Require Import ZArith Lia.
From S2P Require Import Prelude Hoare BitArray Paging PagingProofs Memmap PhysAlloc AddressSpace SpaceMemory SpaceInv.
Import Paging PagingProofs Memmap PhysAlloc AddressSpace SpaceMemory SpaceInv.

Module SpaceSwitch.
Section switch.
Context {B : Type} `{BS : BitSet B}.
Implicit Types (m : machine B) (t : table) (l : list (Z * MemoryMapping)).

Definition user_page (v : Z) : Prop := exists i, v = i * page_size /\ 0 <= i < upages.

Lemma set_tabs_id m : set_tabs (tabs m) m = m.
Proof. by destruct m as [[] ? ? ? ? ?]. Qed.

(** One page leaves the page tables. *)
Lemma unmap_user_spec v e t m : hw m -> user_page v -> t !! v = None -> shows nothing (<[v := e]> t) (tabs m) ->
  exists p', mem_paging (unmap_page v) m = Done (tt, set_tabs p' m) /\ hw (set_tabs p' m) /\ shows nothing t p'.
Proof.
  intros H (i & -> & Hi) Hv Sh. pose proof (Sh i Hi) as Si. rewrite lookup_insert_eq in Si.
  destruct (unmap_page_spec (i * page_size) (tabs m)) as (x & C & Pr & E); [by rewrite page_entry_0, Si|]. rewrite page_entry_0 in E.
  eexists. split; [by apply run_mem_paging|]. split; [apply hw_user; try done; congruence|].
  intros j Hj. cbn. unfold upd. destruct (Z.eqb_spec j i) as [-> |N]; [by rewrite Hv|].
  specialize (Sh j Hj). by rewrite lookup_insert_ne in Sh by (unfold page_size; lia).
Qed.
Lemma unmap_list l : forall m, hw m -> NoDup l.*1 -> Forall (fun x => user_page x.1) l -> shows nothing (list_to_map l) (tabs m) ->
  exists p', for_each l (fun pair => mem_paging (unmap_page pair.1)) m = Done (tt, set_tabs p' m) /\ hw (set_tabs p' m) /\ shows nothing ∅ p'.
Proof.
  induction l as [|[v e] l IH]; intros m H Nd Up Sh; cbn [for_each].
  { exists (tabs m). rewrite set_tabs_id. done. }
  cbn in Nd, Sh. apply NoDup_cons in Nd as [Nv Nd]. apply Forall_cons in Up as [Uv Up].
  destruct (unmap_user_spec v e (list_to_map l) m H Uv (not_elem_of_list_to_map_1 l v Nv) Sh) as (p1 & E1 & H1 & S1).
  destruct (IH (set_tabs p1 m) H1 Nd Up S1) as (p2 & E2 & H2 & S2). exists p2. split_and!; try done.
  etrans; [by apply run_bind_done|exact E2].
Qed.

Lemma map_list l : forall t m, hw m -> NoDup l.*1 -> Forall (fun x => user_page x.1 /\ t !! x.1 = None) l -> shows nothing t (tabs m) ->
  exists p', for_each l (fun pair => mem_paging (map_page (paddr pair.2) pair.1 (flags pair.2))) m = Done (tt, set_tabs p' m) /\
    hw (set_tabs p' m) /\ shows nothing (list_to_map l ∪ t) p'.
Proof.
  induction l as [|[v e] l IH]; intros t m H Nd Up Sh; cbn [for_each].
  { exists (tabs m). rewrite set_tabs_id. cbn [list_to_map foldr]. rewrite map_empty_union. done. }
  cbn in Nd. apply NoDup_cons in Nd as [Nv Nd]. apply Forall_cons in Up as [[(i & Ev & Hi) Ft] Up]. cbn in Ev, Ft. subst v.
  pose proof (Sh i Hi) as Si. rewrite Ft in Si. set (p1 := set_entries (upd i (mapped (flags e) (Z.shiftr (paddr e) 12)) (entries (tabs m))) (tabs m)).
  assert (hw (set_tabs p1 m)) as H1 by (by apply hw_user).
  destruct (IH (<[i * page_size := e]> t) (set_tabs p1 m) H1 Nd) as (p2 & E2 & H2 & S2).
  { rewrite Forall_forall in Up |- *. intros x Hx. destruct (Up x Hx) as [U F]. split; [done|]. rewrite lookup_insert_ne; [done|].
    intros Ex. apply Nv. rewrite Ex. by apply list_elem_of_fmap_2. }
  { by apply shows_insert. }
  exists p2. split_and!; try done.
  - etrans; [apply run_bind_done, run_mem_paging, map_page_spec; cbn; by rewrite page_entry_0; apply Si|]. cbn [fst snd]. rewrite page_entry_0. exact E2.
  - cbn. rewrite <- insert_union_l, insert_union_r; [done|]. by apply not_elem_of_list_to_map_1.
Qed.

Lemma table_pages h t m : tinv m -> tables m !! h = Some t -> Forall (fun x => user_page x.1) (map_to_list t).
Proof.
  intros T Ht. apply Forall_forall. intros [v e] Hx%elem_of_map_to_list. destruct (ti_pages m T h t v e Ht Hx) as [X _ _]. exact X.
Qed.
Lemma unmap_space_spec pid h t m : tinv m -> space_of m !! pid = Some h -> tables m !! h = Some t -> shows nothing t (tabs m) ->
  exists p', unmap_address_space pid m = Done (tt, set_tabs p' m) /\ tinv (set_tabs p' m) /\ shows nothing ∅ p'.
Proof.
  intros T Hs Ht Sh. destruct (unmap_list (map_to_list t) m) as (p' & E & H' & S'); try apply T; [apply NoDup_fst_map_to_list|by eapply table_pages|by rewrite list_to_map_to_list|].
  exists p'. split_and!; [|by apply tinv_tabs|done]. unfold unmap_address_space. etrans; [by eapply run_bind_done, run_mappings|exact E].
Qed.
Lemma map_space_spec pid h t m : tinv m -> space_of m !! pid = Some h -> tables m !! h = Some t -> shows nothing ∅ (tabs m) ->
  exists p', map_address_space pid m = Done (tt, set_tabs p' m) /\ tinv (set_tabs p' m) /\ shows nothing t p'.
Proof.
  intros T Hs Ht Sh. destruct (map_list (map_to_list t) ∅ m) as (p' & E & H' & S'); try apply T; [apply NoDup_fst_map_to_list| |done|].
  { eapply Forall_impl; [by eapply table_pages|]. intros x Hx. split; [done|apply lookup_empty]. }
  rewrite list_to_map_to_list, map_union_empty in S'. exists p'. split_and!; [|by apply tinv_tabs|done].
  unfold map_address_space. etrans; [by eapply run_bind_done, run_mappings|exact E].
Qed.

Lemma tinv_current c m : tinv m -> tinv (set_current c m).
Proof. intros [[] Pg O S]. split; try done. intros h t v e Ht He. by destruct (Pg _ _ _ _ Ht He). Qed.

(** A switch never stops, and the page tables are those of the next process. *)
Lemma task_switch_spec next hn m : minv nothing m -> space_of m !! next = Some hn -> current m <> Some next ->
  exists m', task_switch next m = Done (tt, m') /\ minv nothing m' /\ tables m' = tables m /\ space_of m' = space_of m /\
    current m' = Some next /\ ram m' = ram m /\ (forall k, used m' k = used m k).
Proof.
  intros I Hn Nc. apply minv_tinv in I as (T & c & hc & tc & Hc & Hsc & Htc & Sh). destruct (ti_space m T _ _ Hn) as [tn Htn].
  assert (exists p', switch_mappings (Some c) next m = Done (tt, set_tabs p' m) /\ tinv (set_tabs p' m) /\ shows nothing tn p') as (p' & E & T' & S').
  { unfold switch_mappings. destruct (decide (hc = hn)) as [-> |N].
    - exists (tabs m). rewrite set_tabs_id. assert (tn = tc) as -> by congruence. split; [|done].
      etrans; [by apply run_bind_done, run_space|]. etrans; [by apply run_bind_done, run_space|]. by rewrite bool_decide_true.
    - destruct (unmap_space_spec c hc tc m T Hsc Htc Sh) as (p1 & E1 & T1 & S1).
      destruct (map_space_spec next hn tn (set_tabs p1 m) T1 Hn Htn S1) as (p2 & E2 & T2 & S2). exists p2. split; [|done].
      etrans; [by apply run_bind_done, run_space|]. etrans; [by apply run_bind_done, run_space|]. rewrite bool_decide_false by done. cbn [negb when].
      etrans; [by apply run_bind_done|exact E2]. }
  exists (set_current (Some next) (set_tabs p' m)). split; [|split; [|done]].
  - unfold task_switch. etrans; [by apply run_bind_done, run_current|]. assert ((next =? c) = false) as -> by (apply Z.eqb_neq; congruence). cbn [negb].
    etrans; [by apply run_bind_done|]. etrans; [by apply run_bind_done|]. reflexivity.
  - apply minv_tinv. split; [by apply tinv_current|]. by exists next, hn, tn.
Qed.

(** ** Release *)

Definition holds l (k : Z) : Prop := exists v e, (v, e) ∈ l /\ owned e = true /\ paddr e = k * page_size.

(** The frames that a list of pages owns are free again, and no others. *)
Record released l m m' : Prop := {
  re_hw : hw m'; re_keep : keep m m'; re_tabs : tabs m' = tabs m; re_ram : ram m' = ram m;
  re_freed k : 0 <= k < array_size -> holds l k -> used m' k = false;
  re_other k : 0 <= k < array_size -> ~ holds l k -> used m' k = used m k }.

Lemma release_list l : forall m, hw m ->
  (forall v e, (v, e) ∈ l -> owned e = true -> exists k, paddr e = k * page_size /\ 0 < k < array_size /\ used m k = true) ->
  NoDup l.*1 -> (forall v e v' e', (v, e) ∈ l -> (v', e') ∈ l -> owned e = true -> owned e' = true -> paddr e = paddr e' -> v = v') ->
  exists m', for_each l (fun pair => when (owned pair.2) (release_page (paddr pair.2))) m = Done (tt, m') /\ released l m m'.
Proof.
  induction l as [|[v e] l IH]; intros m H Ow Nd Un; cbn [for_each].
  { exists m. split; [done|]. split; try done; intros k _ (v & e & X & _); by apply not_elem_of_nil in X. }
  cbn in Nd. apply NoDup_cons in Nd as [Nv Nd].
  assert (forall v' e', (v', e') ∈ l -> v' <> v) as Nl. { intros v' e' X ->. apply Nv. change v with (v, e').1. by apply list_elem_of_fmap_2. }
  assert (exists m1, when (owned e) (release_page (paddr e)) m = Done (tt, m1) /\ hw m1 /\ keep m m1 /\ tabs m1 = tabs m /\ ram m1 = ram m /\
    forall j, 0 <= j < array_size -> used m1 j = if decide (owned e = true /\ paddr e = j * page_size) then false else used m j)
    as (m1 & E1 & H1 & K1 & T1 & R1 & U1).
  { destruct (owned e) eqn:Oe.
    - destruct (Ow v e) as (k & Pa & Rk & Uk); [left|done|]. rewrite Pa. destruct (release_spec k m H Rk Uk) as (m1 & E & H1 & K & T & R & U).
      exists m1. split_and!; try done. intros j Hj. rewrite U by done.
      destruct (decide (j = k)) as [-> |Nj]; [by rewrite decide_True|]. rewrite decide_False; [done|]. intros [_ X]. unfold page_size in X. lia.
    - exists m. by split_and!. }
  destruct (IH m1 H1) as (m2 & E2 & [H2 K2 T2 R2 F2 O2]); [|done| |].
  - intros v' e' X Oe'. destruct (Ow v' e') as (k & Pa & Rk & Uk); [by right|done|]. exists k. split_and!; try done; try lia.
    rewrite U1 by lia. rewrite decide_False; [done|]. intros [Oe Pe]. apply (Nl v' e' X).
    apply (Un v' e' v e); [by right|left|done|done|congruence].
  - intros v1 e1 v2 e2 X1 X2. apply Un; by right.
  - exists m2. split; [etrans; [by apply run_bind_done|exact E2]|]. split; try done; [by etrans|congruence|congruence| |].
    + intros k Hk (v' & e' & [[= -> ->]|X]%elem_of_cons & Oe & Pe).
      * rewrite O2, U1; [by rewrite decide_True|done|done|]. intros (v' & e' & X & Oe' & Pe'). apply (Nl v' e' X).
        apply (Un v' e' v e); [by right|left|done|done|congruence].
      * apply F2; [done|]. by exists v', e'.
    + intros k Hk Nh. rewrite O2, U1; [|done|done|].
      * rewrite decide_False; [done|]. intros [Oe Pe]. apply Nh. exists v, e. split; [left|done].
      * intros (v' & e' & X & Y). apply Nh. exists v', e'. split; [by right|done].
Qed.

Lemma holds_owns h t m k : tables m !! h = Some t -> holds (map_to_list t) k <-> exists v, owns m k h v.
Proof.
  intros Ht. split.
  - intros (v & e & X%elem_of_map_to_list & Oe & Pe). exists v, t, e. done.
  - intros (v & t' & e & Ht' & He & Oe & Pe). assert (t' = t) as -> by congruence. exists v, e. split; [by apply elem_of_map_to_list|done].
Qed.

Lemma use_count_two pid pid' h m : pid <> pid' -> space_of m !! pid = Some h -> space_of m !! pid' = Some h -> (1 < use_count h m)%nat.
Proof.
  intros N H1 H2. unfold use_count. assert (size ({[pid := h; pid' := h]} : gmap Z nat) <= size (filter (fun x => x.2 = h) (space_of m)))%nat as S.
  { apply map_subseteq_size. apply insert_subseteq_l; [by apply map_lookup_filter_Some|]. apply map_singleton_subseteq_l. by apply map_lookup_filter_Some. }
  rewrite map_size_insert_None, map_size_singleton in S by (by rewrite lookup_singleton_ne). lia.
Qed.

(** What a space that nobody else uses leaves behind. *)
Record cleared h m m' : Prop := {
  cl_inv : tinv m'; cl_tables : tables m' = <[h := ∅]> (tables m); cl_space : space_of m' = space_of m; cl_current : current m' = current m;
  cl_tabs : tabs m' = tabs m; cl_ram : ram m' = ram m;
  cl_freed k v : owns m k h v -> used m' k = false;
  cl_other k : 0 <= k < array_size -> (forall v, ~ owns m k h v) -> used m' k = used m k }.

Lemma owner_range m k h v : tinv m -> owns m k h v -> 0 < k < array_size /\ used m k = true.
Proof.
  intros T (t & e & Ht & He & Oe & Pe). destruct (po_owned _ _ _ (ti_pages m T _ _ _ _ Ht He) Oe) as (k' & Pe' & ? & ?).
  assert (k' = k) as -> by (unfold page_size in *; lia). done.
Qed.

Lemma release_mappings_spec pid h t m : tinv m -> space_of m !! pid = Some h -> tables m !! h = Some t -> (use_count h m <= 1)%nat ->
  exists m', release_mappings pid m = Done (tt, m') /\ cleared h m m'.
Proof.
  intros T Hs Ht Uc. destruct (release_list (map_to_list t) m) as (m1 & E & [H1 K1 T1 R1 F1 O1]); [apply T| |apply NoDup_fst_map_to_list| |].
  { intros v e X%elem_of_map_to_list Oe. exact (po_owned _ _ _ (ti_pages m T _ _ _ _ Ht X) Oe). }
  { intros v e v' e' X%elem_of_map_to_list X'%elem_of_map_to_list Oe Oe' Pe.
    destruct (po_owned _ _ _ (ti_pages m T _ _ _ _ Ht X) Oe) as (k & Pk & _). destruct (ti_owner m T k h v h v'); [by exists t, e|exists t, e'; split_and!; congruence|done]. }
  exists (set_tables <[h := ∅]> m1). split.
  - unfold release_mappings. etrans; [by apply run_bind_done, run_space|]. etrans; [apply run_bind_get|].
    rewrite (proj2 (Nat.ltb_ge _ _)) by lia. etrans; [by eapply run_bind_done, run_mappings|]. etrans; [by apply run_bind_done|]. reflexivity.
  - assert (forall k, 0 <= k < array_size -> (forall v, ~ owns m k h v) -> used m1 k = used m k) as Ot.
    { intros k Hk N. apply O1; [done|]. rewrite holds_owns by done. intros [v X]. by apply (N v). }
    assert (forall k h' v, owns (set_tables <[h := ∅]> m1) k h' v -> h' <> h /\ owns m k h' v) as Ow.
    { intros k h' v (t' & e & Ht' & He & Oe & Pe). cbn in Ht'. rewrite (k_tables _ _ K1) in Ht'. apply lookup_insert_Some in Ht' as [[<- <-]|[N Ht']]; [by rewrite lookup_empty in He|].
      split; [done|]. by exists t', e. }
    split; try done; [|by cbn; rewrite (k_tables _ _ K1)|apply K1|apply K1|].
    + split; [by destruct H1; split| | |].
      * intros h' t' v e. cbn. rewrite (k_tables _ _ K1). intros [[<- <-]|[N Ht']]%lookup_insert_Some He; [by rewrite lookup_empty in He|].
        destruct (ti_pages m T _ _ _ _ Ht' He) as [P1 P2 P3]. split; [done|done|]. intros Oe. destruct (P3 Oe) as (k & Pk & Rk & Uk). exists k. split_and!; try done; try lia.
        change (used m1 k = true). rewrite Ot; [done|lia|]. intros v' X. destruct (ti_owner m T k h v' h' v); [done|by exists t', e|congruence].
      * intros k h1 v1 h2 v2 [_ X1]%Ow [_ X2]%Ow. by apply (ti_owner m T k).
      * intros p h'. cbn. rewrite (k_space _ _ K1), (k_tables _ _ K1). intros X%(ti_space m T).
        destruct (decide (h' = h)) as [-> |]; [by rewrite lookup_insert_eq|by rewrite lookup_insert_ne].
    + intros k v X. apply F1; [pose proof (owner_range _ _ _ _ T X); lia|]. rewrite holds_owns by done. by exists v.
Qed.
End switch.
End SpaceSwitch.
