(* ===== verification/SpaceLife.v ===== *)
(** * SpaceLife: address spaces from [create] to [destroy]

    Loading a program, cloning, giving pages back and ending a process. *)
From stdpp Require Import base list gmap.
From Stdlib Require Import ZArith Lia.
From S2P Require Import Prelude Hoare BitArray Paging PagingProofs Memmap PhysAlloc Disk DiskProofs AddressSpace SpaceMemory SpaceInv SpaceLoad SpaceSwitch.
Import Paging PagingProofs Memmap PhysAlloc DiskProofs AddressSpace SpaceMemory SpaceInv SpaceLoad SpaceSwitch.

Module SpaceLife.
Section life.
Context {B : Type} `{BS : BitSet B} (F : fault -> Prop).
Hypothesis may_panic : F Panic.
Implicit Types (m : machine B) (t : table).

(** The memory of the other spaces is as it was. *)
Record others_keep h m m' : Prop := {
  ok_tables h' : h' <> h -> tables m' !! h' = tables m !! h';
  ok_used k h' v : h' <> h -> owns m k h' v -> used m' k = true;
  ok_ram k h' v o : h' <> h -> owns m k h' v -> 0 <= o < page_size -> ram m' (k * page_size + o) = ram m (k * page_size + o) }.

Lemma frame_div k o : 0 <= o < page_size -> (k * page_size + o) / page_size = k.
Proof. intros Ho. rewrite Z.add_comm, Z.div_add, Z.div_small by (done || lia). lia. Qed.

(** ** Creation and end *)

Lemma create_spec pid m : minv nothing m -> space_of m !! pid = None ->
  exists h m', create pid m = Done (tt, m') /\ minv nothing m' /\ tables m !! h = None /\ tables m' = <[h := ∅]> (tables m) /\
    space_of m' = <[pid := h]> (space_of m) /\ current m' = current m /\ ram m' = ram m.
Proof.
  intros I Hp. pose proof (is_fresh (dom (tables m))) as Fr. set (h := fresh (dom (tables m))) in *. apply not_elem_of_dom in Fr.
  exists h, (set_space_of <[pid := h]> (set_tables <[h := ∅]> m)). split; [unfold create; etrans; [apply run_bind_get|]; reflexivity|]. split; [|done]. destruct I as [H Pg O S (c & hc & tc & Hc & Hsc & Htc & Sh)].
  assert (forall k h' v, owns (set_space_of <[pid := h]> (set_tables <[h := ∅]> m)) k h' v -> owns m k h' v) as Ow.
  { intros k h' v (t & e & Ht & He & X). cbn in Ht. apply lookup_insert_Some in Ht as [[<- <-]|[N Ht]]; [by rewrite lookup_empty in He|by exists t, e]. }
  split; [by destruct H; split| | | |].
  - intros h' t v e. cbn. intros [[<- <-]|[N Ht]]%lookup_insert_Some He; [by rewrite lookup_empty in He|]. by destruct (Pg _ _ _ _ Ht He).
  - intros k h1 v1 h2 v2 X1%Ow X2%Ow. by apply (O k).
  - intros p h'. cbn. intros [[<- <-]|[N X%S]]%lookup_insert_Some; [by rewrite lookup_insert_eq|].
    destruct (decide (h' = h)) as [-> |]; [by rewrite lookup_insert_eq|by rewrite lookup_insert_ne].
  - exists c, hc, tc. cbn. rewrite lookup_insert_ne by congruence. rewrite lookup_insert_ne by congruence. done.
Qed.

Lemma minv_forget pid m : minv nothing m -> current m <> Some pid -> minv nothing (set_space_of (delete pid) m).
Proof.
  intros [H Pg O S (c & hc & tc & Hc & Hsc & Htc & Sh)] N. split; [by destruct H; split| |done| |].
  - intros h t v e Ht He. by destruct (Pg _ _ _ _ Ht He).
  - intros p h. cbn. intros [_ X]%lookup_delete_Some. by eapply S.
  - exists c, hc, tc. cbn. rewrite lookup_delete_ne by congruence. done.
Qed.

(** A space that is not the current one is cleared. *)
Lemma cleared_inv h m m' hc : minv nothing m -> cleared h m m' -> (exists c, current m = Some c /\ space_of m !! c = Some hc) -> hc <> h -> minv nothing m'.
Proof.
  intros I [T Tb Sp Cu Tt _ _ _] (c & Hc & Hs) N. apply minv_tinv in I as (_ & c' & hc' & tc & Hc' & Hs' & Ht & Sh).
  assert (c' = c) as -> by congruence. assert (hc' = hc) as -> by congruence.
  apply minv_tinv. split; [done|]. exists c, hc, tc. rewrite Tb, Sp, Cu, Tt, lookup_insert_ne by done. done.
Qed.

Lemma destroy_spec pid h m : minv nothing m -> space_of m !! pid = Some h -> current m <> Some pid ->
  exists m', destroy pid m = Done (tt, m') /\ minv nothing m' /\ space_of m' = delete pid (space_of m) /\ current m' = current m /\
    ((1 < use_count h m)%nat -> tables m' = tables m /\ forall k, used m' k = used m k) /\
    ((use_count h m <= 1)%nat -> tables m' = <[h := ∅]> (tables m) /\ (forall k v, owns m k h v -> used m' k = false) /\
       forall k, 0 <= k < array_size -> (forall v, ~ owns m k h v) -> used m' k = used m k).
Proof.
  intros I Hs N. pose proof I as X. apply minv_tinv in X as (T & c & hc & tc & Hc & Hsc & _). unfold destroy.
  destruct (Nat.lt_ge_cases 1 (use_count h m)) as [L|L].
  - exists (set_space_of (delete pid) m). split_and!; try done; [|by apply minv_forget|intros X; exfalso; lia].
    etrans; [eapply run_bind_done|reflexivity]. unfold release_mappings. etrans; [by apply run_bind_done, run_space|]. etrans; [apply run_bind_get|].
    by rewrite (proj2 (Nat.ltb_lt _ _)) by done.
  - destruct (ti_space m T _ _ Hs) as [t Ht]. destruct (release_mappings_spec pid h t m T Hs Ht L) as (m1 & E & C).
    exists (set_space_of (delete pid) m1). split_and!; try done; [by etrans; [apply run_bind_done|reflexivity]| | | |intros X; exfalso; lia|].
    + apply minv_forget; [|by rewrite (cl_current _ _ _ C)]. eapply cleared_inv; [exact I|exact C|eauto|].
      intros ->. assert (pid <> c) as Nc by congruence. pose proof (use_count_two pid c h m Nc Hs Hsc). lia.
    + cbn. by rewrite (cl_space _ _ _ C).
    + apply C.
    + intros _. split_and!; [apply C|apply (cl_freed _ _ _ C)|apply (cl_other _ _ _ C)].
Qed.

(** ** Loading *)

Lemma grown_keep h m m' : tinv m -> grown h m m' -> others_keep h m m'.
Proof.
  intros T G. split; [apply (g_others _ _ _ G)| |].
  - intros k h' v _ X. destruct (owner_range m k h' v T X). apply (g_used _ _ _ G); [lia|done].
  - intros k h' v o _ X Ho. destruct (owner_range m k h' v T X). apply (g_ram _ _ _ G); rewrite frame_div by done; [lia|done].
Qed.
Lemma owns_same m m' k h v : tables m' !! h = tables m !! h -> owns m k h v <-> owns m' k h v.
Proof. intros E. unfold owns. by rewrite E. Qed.
Lemma others_keep_trans h m1 m2 m3 : others_keep h m1 m2 -> others_keep h m2 m3 -> others_keep h m1 m3.
Proof.
  intros [T1 U1 R1] [T2 U2 R2]. split.
  - intros h' N. by rewrite T2, T1.
  - intros k h' v N X. apply (U2 k h' v N). by apply (owns_same m1 m2 k h' v (T1 h' N)).
  - intros k h' v o N X Ho. rewrite (R2 k h' v), (R1 k h' v); try done. by apply (owns_same m1 m2 k h' v (T1 h' N)).
Qed.
Lemma cleared_keep h m m' : tinv m -> cleared h m m' -> others_keep h m m'.
Proof.
  intros T C. split.
  - intros h' N. by rewrite (cl_tables _ _ _ C), lookup_insert_ne.
  - intros k h' v N X. destruct (owner_range m k h' v T X). rewrite (cl_other _ _ _ C); [done|lia|].
    intros v' Y. by destruct (ti_owner m T k h v' h' v).
  - intros. by rewrite (cl_ram _ _ _ C).
Qed.

(** The old memory of a process goes, before a program is loaded. *)
Lemma clear_spec pid h c m : minv nothing m -> space_of m !! pid = Some h -> (use_count h m <= 1)%nat -> current m = Some c ->
  wpf F (when (bool_decide (c = pid)) (unmap_address_space pid) ;; release_mappings pid)
    (fun _ m' => minv nothing m' /\ tables m' = <[h := ∅]> (tables m) /\ space_of m' = space_of m /\ current m' = current m /\ others_keep h m m') m.
Proof.
  intros I Hs Uc Hc. pose proof I as X. apply minv_tinv in X as (T & c' & hc & tc & Hc' & Hsc & Htc & Sh). assert (c' = c) as -> by congruence.
  destruct (ti_space m T _ _ Hs) as [t Ht]. apply wpf_bind. destruct (decide (c = pid)) as [-> |N].
  - rewrite bool_decide_true by done. assert (hc = h) as -> by congruence. assert (tc = t) as -> by congruence.
    destruct (unmap_space_spec pid h t m T Hs Ht Sh) as (p1 & E1 & T1 & S1). eapply wpf_intro; [exact E1|]. cbv beta.
    destruct (release_mappings_spec pid h t (set_tabs p1 m) T1 Hs Ht Uc) as (m2 & E2 & C2). eapply wpf_intro; [exact E2|]. pose proof C2 as [T2 Tb Sp Cu Tt _ _ _].
    split_and!; try done; [|by destruct (cleared_keep _ _ _ T1 C2); split]. apply minv_tinv. split; [done|]. exists pid, h, ∅.
    rewrite Cu, Sp, Tb, Tt, lookup_insert_eq. done.
  - rewrite bool_decide_false by done. apply wpf_ret. destruct (release_mappings_spec pid h t m T Hs Ht Uc) as (m2 & E2 & C2).
    eapply wpf_intro; [exact E2|]. split_and!; try apply C2; [|by apply cleared_keep]. eapply cleared_inv; [exact I|exact C2|eauto|].
    intros ->. pose proof (use_count_two c pid h m N Hsc Hs). lia.
Qed.

Lemma load_spec tramp pid h code size m (Q : unit -> machine B -> Prop) :
  let n := pages_of size in
  minv nothing m -> space_of m !! pid = Some h -> (use_count h m <= 1)%nat -> 0 <= n -> n + ubase + 2 < stack_page -> n * page_size <= 2 ^ 31 ->
  Z.of_nat (length code) < 2 ^ 31 ->
  (forall m', minv nothing m' -> loaded code n h m' -> space_of m' = space_of m -> current m' = current m -> others_keep h m m' -> Q tt m') ->
  wpf F (load_user_code tramp pid code size) Q m.
Proof.
  intros n I Hs Uc Hn Hu Hp Hc K. destruct (i_current _ _ I) as (c & hc & tc & Hcc & _). unfold load_user_code.
  apply wpf_bind. eapply wpf_intro; [by apply run_current|]. cbv beta.
  pose proof (clear_spec pid h c m I Hs Uc Hcc) as Cl. apply wpf_bind. unfold wpf in Cl. unfold wpf at 1. unfold mbind, M_bind in Cl.
  destruct (when _ _ m) as [[[] m0]|f]; [|done]. apply wpf_bind. unfold wpf at 1.
  destruct (release_mappings pid m0) as [[[] m1]|f]; [|done]. destruct Cl as (I1 & T1 & S1 & C1 & K1).
  apply wpf_bind, (create_mappings_spec F nothing may_panic tramp pid h); try done; [by rewrite S1|by rewrite T1, lookup_insert_eq|].
  intros m2 t2 I2 G2 Ht2 Fr L2. apply (init_tls_spec F nothing may_panic pid h t2); try done; [by rewrite (g_space _ _ _ G2), S1| |].
  - intros N. exfalso. apply (N (ubase + n)); [lia| |done]. unfold stack_page, upages in *. lia.
  - intros m3 I3 G3. assert (grown h m1 m3) as G13 by (by etrans). apply K; [done|by eapply loaded_grown|by rewrite (g_space _ _ _ G13)|by rewrite (g_current _ _ _ G13)|].
    eapply others_keep_trans; [exact K1|]. apply grown_keep; [|done]. by apply minv_tinv in I1 as [? _].
Qed.
End life.
End SpaceLife.
