(* ===== verification/SpaceClone.v ===== *)
(** * SpaceClone: the memory of a cloned process *)
From stdpp Require Import base list gmap.
From Stdlib Require Import ZArith Lia.
From S2P Require Import Prelude Hoare BitArray Paging PagingProofs Memmap PhysAlloc Disk DiskProofs AddressSpace SpaceMemory SpaceInv SpaceLoad SpaceSwitch SpaceLife.
Import Paging PagingProofs Memmap PhysAlloc DiskProofs AddressSpace SpaceMemory SpaceInv SpaceLoad SpaceSwitch SpaceLife.

Module SpaceClone.
Section clone.
Context {B : Type} `{BS : BitSet B} (F : fault -> Prop).
Hypothesis may_panic : F Panic.
Implicit Types (m : machine B) (t : table).

Definition RW : Z := Z.lor Read Write.
(** The bytes of the frame [k0] are now also those of [k]. *)
Definition copied_frame (k0 k : Z) (f g : Z -> Z) : Prop :=
  (forall o, 0 <= o < page_size -> g (k * page_size + o) = f (k0 * page_size + o)) /\ forall x, x / page_size <> k -> g x = f x.

Lemma overwrite_copy f k0 k : 0 <= k -> copied_frame k0 k f (overwrite f (k * page_size) (bytes f (k0 * page_size) page_size)).
Proof.
  intros Hk. split.
  - intros o Ho. unfold overwrite. rewrite bytes_length. rewrite (proj2 (Z.leb_le _ _)), (proj2 (Z.ltb_lt _ _)) by lia. cbn [andb].
    apply nth_lookup_Some. rewrite bytes_lookup by lia. do 2 f_equal. lia.
  - intros x Hx. apply overwrite_frame; [done|rewrite bytes_length; unfold page_size; lia|done].
Qed.

(** The copy of a page through two pages of the kernel. *)
Lemma copy_frame_spec k0 k m (Q : unit -> machine B -> Prop) : hw m -> 0 <= k0 < array_size -> 0 <= k < array_size ->
  (forall g m', visited g m m' -> copied_frame k0 k (ram m) g -> Q tt m') ->
  wpf F (src_ptr ← mem_paging (mmap (k0 * page_size) page_size RW);
         dest_ptr ← mem_paging (mmap (k * page_size) page_size RW);
         l ← peek src_ptr (Z.to_nat page_size);
         poke dest_ptr l ;;
         mem_paging (unmap src_ptr page_size) ;;
         mem_paging (unmap dest_ptr page_size)) Q m.
Proof.
  intros H Hk0 Hk K. assert (array_size = 2 ^ 20) as As by done. assert (page_size = 4096) as Ps by done.
  assert (limit false <= 2 ^ 20) as Lf by (by vm_compute). assert (0 <= base false) as Bf by (by vm_compute).
  apply wpf_bind, mmap_page_spec; try done; try lia. intros a p1 Ha Fa H1 E1.
  apply wpf_bind, mmap_page_spec; try done; try lia. intros b p2 Hb Fb H2 E2. cbn in Fb, E2.
  assert (b <> a) as Nab. { intros ->. rewrite E1, Z.eqb_refl in Fb. done. }
  change (set_tabs p2 (set_tabs p1 m)) with (set_tabs p2 m) in *.
  assert (entries p2 a = mapped RW k0) as Ea. { rewrite E2, E1, Z.eqb_refl. by destruct (Z.eqb_spec a b); [lia|]. }
  assert (entries p2 b = mapped RW k) as Eb by (by rewrite E2, Z.eqb_refl).
  apply wpf_bind. eapply wpf_intro.
  { pose proof (peek_spec a k0 RW (Z.to_nat page_size) 0 (set_tabs p2 m) Ea eq_refl ltac:(lia) ltac:(lia) ltac:(lia) ltac:(lia)) as X.
    rewrite Z.add_0_r, uwrap_small in X by lia. exact X. }
  cbv beta. rewrite Z2Nat.id, Z.add_0_r by lia. cbn [ram set_tabs set_km]. remember (bytes _ _ _) as l eqn:El.
  assert (length l = Z.to_nat page_size) as Ll by (rewrite El; apply bytes_length).
  destruct (poke_spec b k RW l 0 (set_tabs p2 m)) as (g & Eg & Hg); try done; try lia.
  rewrite Z.add_0_r, uwrap_small in Eg by lia. rewrite Z.add_0_r in Hg.
  apply wpf_bind. eapply wpf_intro; [exact Eg|]. cbv beta.
  assert (forall i, os_claimed (entries (tabs m) i) = false -> i <> base false) as Nl. { intros i Hi. by apply (hw_unclaimed m). }
  assert (os_claimed (entries (tabs m) b) = false) as Fb'. { rewrite E1 in Fb. by destruct (Z.eqb_spec b a); [lia|]. }
  apply wpf_bind. destruct (unmap_one_spec a page_size (set_ram g (set_tabs p2 m))) as (p3 & e3 & R3 & C3 & _ & H3 & E3); try done; try lia; [by destruct H2; split|by apply Nl|cbn; by rewrite Ea|].
  eapply wpf_intro; [exact R3|]. cbv beta.
  destruct (unmap_one_spec b page_size (set_tabs p3 (set_ram g (set_tabs p2 m)))) as (p4 & e4 & R4 & C4 & _ & H4 & E4); try done; try lia; [by apply Nl| |].
  { cbn in E3 |- *. rewrite E3. destruct (Z.eqb_spec b a); [lia|]. by rewrite Eb. }
  eapply wpf_intro; [exact R4|]. apply (K g).
  - split; try done. split; intros i; cbn in *; rewrite E4, E3, E2, E1; destruct (Z.eqb_spec i b) as [Xb|Xb], (Z.eqb_spec i a) as [Xa|Xa]; congruence.
  - pose proof (overwrite_copy (ram m) k0 k ltac:(lia)) as [X1 X2]. split; intros; rewrite Hg, El; auto.
Qed.

Lemma run_set_mapping pid h t v e m : space_of m !! pid = Some h -> tables m !! h = Some t ->
  set_mapping pid v e m = Done (tt, put_map h t v e m).
Proof.
  intros Hs Ht. unfold set_mapping. etrans; [by apply run_bind_done, run_space|]. etrans; [by eapply run_bind_done, run_mappings|]. reflexivity.
Qed.

(** One page of the parent is copied to a table [h] that the machine does not show. *)
Lemma copy_page_spec target h t v e m (Q : unit -> machine B -> Prop) :
  minv nothing m -> space_of m !! target = Some h -> tables m !! h = Some t -> t !! v = None -> page_ok m v e -> owned e = true ->
  (forall c, current m = Some c -> space_of m !! c <> Some h) ->
  (forall k m', 0 < k < array_size -> minv nothing m' -> grown h m m' -> used m' k = true ->
     tables m' = <[h := <[v := mkMapping (k * page_size) (flags e) true]> t]> (tables m) ->
     (forall o, 0 <= o < page_size -> ram m' (k * page_size + o) = ram m (paddr e + o)) -> Q tt m') ->
  wpf F (copy_page target (v, e)) Q m.
Proof.
  intros I Hs Ht Hv [(i & -> & Hi) Pf Po] Oe Nc K. destruct (Po Oe) as (k0 & Pa & Rk0 & Uk0). unfold copy_page. cbn [fst snd]. rewrite Oe. cbn [negb].
  apply wpf_bind. eapply wpf_intro; [by eapply run_set_mapping|]. cbv beta.
  apply wpf_bind, allocate_spec; [by destruct (i_hw _ _ I); split|done|]. intros k m2 N2%taken_new.
  pose proof N2 as [Rk Fk Uk U2 K2 H2 St2 R2]. change (used m k = false) in Fk. apply wpf_bind. eapply wpf_intro.
  { eapply run_set_mapping; [rewrite (k_space _ _ K2); exact Hs|rewrite (k_tables _ _ K2); cbn; apply lookup_insert_eq]. }
  cbv beta. unfold put_map. rewrite insert_insert_eq. set (m3 := set_tables _ m2).
  assert (tables m3 = <[h := <[i * page_size := mkMapping (k * page_size) (flags e) true]> t]> (tables m)) as T3.
  { cbn. rewrite (k_tables _ _ K2). cbn. by rewrite insert_insert_eq. }
  assert (minv nothing m3) as I3.
  { set (m2' := set_tables (fun _ => tables m) m2). assert (new_frame k m m2') as N2'.
    { split; try done; [split; [done|apply K2|apply K2]|by destruct H2; split]. }
    destruct (new_frame_inv nothing k m m2' I N2') as [I2 O2]. apply minv_tinv in I2 as (T2 & c & hc & tc & Hc & Hsc & Htc & Sh).
    assert (hc <> h) as Nh. { intros ->. pose proof (k_current _ _ K2) as Kc. pose proof (k_space _ _ K2) as Ks. cbn in Kc, Ks, Hc, Hsc. apply (Nc c); congruence. }
    assert (m3 = put_map h t (i * page_size) (mkMapping (k * page_size) (flags e) true) m2') as ->.
    { unfold put_map, m3, m2', set_tables. cbn. f_equal. by rewrite <- T3. }
    apply minv_tinv. split; [apply tinv_put; try done; by intros _; exists k|]. exists c, hc, tc. split_and!; try done. cbn. by rewrite lookup_insert_ne. }
  rewrite Pa. apply copy_frame_spec; [apply I3|lia|lia|]. intros g m4 V [Cg Og]. change (ram m3) with (ram m2) in *.
  apply (K k); try done; [by eapply visited_inv| |by rewrite (vi_used _ _ _ V)|by rewrite (k_tables _ _ (vi_keep _ _ _ V))|].
  - eapply (grown_visited h k g m m3); [|exact V|done|done]. split; [apply K2|apply K2| | | |].
    + intros h' N. by rewrite T3, lookup_insert_ne.
    + intros t0 Ht0. assert (t0 = t) as -> by congruence. rewrite T3, lookup_insert_eq. eexists. split; [done|by apply insert_subseteq].
    + intros j Hj Uj. by apply U2.
    + intros x Hx Ux. cbn. apply R2. intros Ex. rewrite Ex in Ux. congruence.
  - intros o Ho. rewrite (vi_ram _ _ _ V), Cg by done. rewrite Pa, R2; [done|]. rewrite frame_div by done. intros ->. congruence.
Qed.

(** The pages [l] of a parent are in the table [h], each in a frame of its own. *)
Definition copies (l : list (Z * MemoryMapping)) h m0 m : Prop := exists t,
  tables m !! h = Some t /\ (forall v, is_Some (t !! v) -> exists e, (v, e) ∈ l /\ owned e = true) /\
  forall v e, (v, e) ∈ l -> owned e = true -> exists k, t !! v = Some (mkMapping (k * page_size) (flags e) true) /\
    0 < k < array_size /\ used m k = true /\ forall o, 0 <= o < page_size -> ram m (k * page_size + o) = ram m0 (paddr e + o).
Lemma copies_grown l h m0 m m' t' : copies l h m0 m -> grown h m m' -> tables m' !! h = Some t' ->
  forall v e, (v, e) ∈ l -> owned e = true -> exists k, t' !! v = Some (mkMapping (k * page_size) (flags e) true) /\
    0 < k < array_size /\ used m' k = true /\ forall o, 0 <= o < page_size -> ram m' (k * page_size + o) = ram m0 (paddr e + o).
Proof.
  intros (t & Ht & _ & C) G Ht' v e X Oe. destruct (C v e X Oe) as (k & Hv & Rk & Uk & R). destruct (g_table _ _ _ G t Ht) as (t2 & Ht2 & S).
  assert (t2 = t') as -> by congruence. exists k. split_and!; try lia; [by eapply lookup_weaken|apply (g_used _ _ _ G); [lia|done]|].
  intros o Ho. rewrite (g_ram _ _ _ G); rewrite ?frame_div by done; [by apply R|lia|done].
Qed.

Lemma take_snoc {A} (l : list A) j x : l !! j = Some x -> take (j + 1) l = take j l ++ [x].
Proof. intros H. rewrite Nat.add_1_r. by apply take_S_r. Qed.

Lemma copies_step l h v e k m0 m m' :
  copies l h m0 m -> grown h m m' -> owned e = true -> (forall e', (v, e') ∉ l) -> 0 < k < array_size -> used m' k = true ->
  (exists t, tables m !! h = Some t /\ tables m' = <[h := <[v := mkMapping (k * page_size) (flags e) true]> t]> (tables m)) ->
  (forall o, 0 <= o < page_size -> ram m' (k * page_size + o) = ram m0 (paddr e + o)) -> copies (l ++ [(v, e)]) h m0 m'.
Proof.
  intros C G Oe Nv Rk Uk (t & Ht & T') R. set (t' := <[v := _]> t) in T'. assert (tables m' !! h = Some t') as Ht' by (by rewrite T', lookup_insert_eq).
  pose proof (copies_grown l h m0 m m' t' C G Ht') as Old. destruct C as (t1 & Ht1 & D & _). assert (t1 = t) as -> by congruence.
  exists t'. split_and!; [done| |].
  - intros v' [x Hx]. unfold t' in Hx. apply lookup_insert_Some in Hx as [[<- _]|[_ Hx]].
    + exists e. split; [apply elem_of_app; right; left|done].
    + destruct (D v') as (e' & X & ?); [done|]. exists e'. split; [apply elem_of_app; by left|done].
  - intros v' e' [X|X]%elem_of_app Oe'; [by apply Old|]. apply list_elem_of_singleton in X as [= -> ->]. exists k. split_and!; try done; try lia. apply lookup_insert_eq.
Qed.
Lemma copies_skip l h v e m0 m : copies l h m0 m -> owned e = false -> copies (l ++ [(v, e)]) h m0 m.
Proof.
  intros (t & Ht & D & C) Oe. exists t. split_and!; [done| |].
  - intros v' X. destruct (D v' X) as (e' & Y & ?). exists e'. split; [apply elem_of_app; by left|done].
  - intros v' e' [X|X]%elem_of_app Oe'; [by apply C|]. apply list_elem_of_singleton in X as [= -> ->]. congruence.
Qed.

Lemma copy_directory_spec pid target hs h ts m0 (Q : unit -> machine B -> Prop) :
  minv nothing m0 -> space_of m0 !! pid = Some hs -> tables m0 !! hs = Some ts -> space_of m0 !! target = Some h -> tables m0 !! h = Some ∅ -> h <> hs ->
  (forall c, current m0 = Some c -> space_of m0 !! c <> Some h) ->
  (forall m, minv nothing m -> grown h m0 m -> copies (map_to_list ts) h m0 m -> Q tt m) ->
  wpf F (copy_page_directory pid target) Q m0.
Proof.
  intros I Hs Hts Ht Hte Nh Nc K. unfold copy_page_directory. apply wpf_bind. eapply wpf_intro; [by eapply run_mappings|]. cbv beta. set (l := map_to_list ts).
  eapply wpf_mono; [apply (wpf_for_each_index F _ (fun j m => minv nothing m /\ grown h m0 m /\ copies (take j l) h m0 m))|].
  - intros j [v e] m Hj (Im & Gm & Cm). rewrite (take_snoc l j (v, e)) by done.
    assert (ts !! v = Some e) as He by (apply elem_of_map_to_list; by eapply list_elem_of_lookup_2).
    destruct (owned e) eqn:Oe; [|unfold copy_page; cbn [snd]; rewrite Oe; apply wpf_ret; split_and!; [done|done|by apply copies_skip]].
    pose proof Cm as (t & Htt & D & _).
    assert (forall e', (v, e') ∉ take j l) as Nv.
    { intros e' (i & Hi)%list_elem_of_lookup. apply lookup_take_Some in Hi as [Hi Li]. pose proof (NoDup_fst_map_to_list ts) as Nd. fold l in Nd.
      assert (i = j); [|lia]. eapply (NoDup_lookup l.*1); [done|by rewrite list_lookup_fmap, Hi|by rewrite list_lookup_fmap, Hj]. }
    assert (page_ok m v e) as Pv. { apply (i_pages _ _ Im hs ts); [|done]. by rewrite (g_others _ _ _ Gm). }
    apply (copy_page_spec target h t v e m); try done; [by rewrite (g_space _ _ _ Gm)| |rewrite (g_space _ _ _ Gm), (g_current _ _ _ Gm); done|].
    + destruct (t !! v) as [x|] eqn:Hx; [|done]. destruct (D v) as (e' & X & _); [done|]. by apply Nv in X.
    + intros k m' Rk I' G' Uk T' R. split_and!; [done|by etrans|]. eapply copies_step; try done; [eauto|]. intros o Ho. rewrite R by done.
      destruct (po_owned _ _ _ (i_pages _ _ I _ _ _ _ Hts He) Oe) as (k0 & -> & Rk0 & Uk0).
      apply (g_ram _ _ _ Gm); rewrite frame_div by done; [lia|done].
  - split_and!; [done|done|]. exists ∅. split_and!; [done|by intros v [x Hx]; rewrite lookup_empty in Hx|]. intros v e X. by apply not_elem_of_nil in X.
  - intros [] m (Im & Gm & Cm). rewrite take_ge in Cm by done. by apply K.
Qed.
End clone.
End SpaceClone.
