(* ===== verification/SpaceUser.v ===== *)
(** * SpaceUser: what a process asks for

    Pages given back, ranges of physical memory and clones: the invariant holds whenever the
    call returns. *)
From stdpp Require Import base list gmap.
From Stdlib Require Import ZArith Lia.
From S2P Require Import Prelude Hoare BitArray Paging PagingProofs Memmap PhysAlloc Disk DiskProofs AddressSpace SpaceMemory SpaceInv SpaceLoad SpaceSwitch SpaceLife SpaceClone.
Import Paging PagingProofs Memmap PhysAlloc DiskProofs AddressSpace SpaceMemory SpaceInv SpaceLoad SpaceSwitch SpaceLife SpaceClone.

Module SpaceUser.
Section user.
Context {B : Type} `{BS : BitSet B}.
Implicit Types (m : machine B) (t : table).

(** Any fault: a statement about the runs that return. *)
Definition any (f : fault) : Prop := True.
Lemma wpf_any {A} (o : op A) (Q : A -> machine B -> Prop) m : (forall a m', o m = Done (a, m') -> Q a m') -> wpf any o Q m.
Proof. intros H. unfold wpf. destruct (o m) as [[a m']|f]; [by apply H|done]. Qed.

(** The process is the current one, and nobody is left out of the account. *)
Definition stable m m' : Prop := minv nothing m' /\ space_of m' = space_of m /\ current m' = current m.

(** ** Pages given back *)

Lemma tinv_delete h t i e k m m1 : tinv m -> tables m !! h = Some t -> t !! (i * page_size) = Some e -> owned e = true -> paddr e = k * page_size ->
  hw m1 -> keep m m1 -> (forall j, 0 <= j < array_size -> used m1 j = if decide (j = k) then false else used m j) ->
  tinv (set_tables <[h := delete (i * page_size) t]> m1).
Proof.
  intros T Ht He Oe Pe H1 K1 U1.
  assert (owns m k h (i * page_size)) as Ok by (by exists t, e).
  assert (forall k' h' v', owns (set_tables <[h := delete (i * page_size) t]> m1) k' h' v' -> owns m k' h' v' /\ (h' = h -> v' <> i * page_size)) as Ow.
  { intros k' h' v' (t' & e' & Ht' & He' & Oe' & Pe'). cbn in Ht'. rewrite (k_tables _ _ K1) in Ht'. apply lookup_insert_Some in Ht' as [[<- <-]|[N Ht']].
    - apply lookup_delete_Some in He' as [N He']. split; [by exists t, e'|congruence].
    - split; [by exists t', e'|congruence]. }
  assert (forall h' t' v' e', tables (set_tables <[h := delete (i * page_size) t]> m1) !! h' = Some t' -> t' !! v' = Some e' ->
    exists t0, tables m !! h' = Some t0 /\ t0 !! v' = Some e') as Old.
  { intros h' t' v' e'. cbn. rewrite (k_tables _ _ K1). intros [[<- <-]|[N Ht']]%lookup_insert_Some; [intros [_ ?]%lookup_delete_Some; by exists t|by exists t']. }
  split; [by destruct H1; split| | |].
  - intros h' t' v' e' Ht' He'. destruct (Old _ _ _ _ Ht' He') as (t0 & Ht0 & He0). destruct (ti_pages m T _ _ _ _ Ht0 He0) as [P1 P2 P3].
    split; [done|done|]. intros Oe'. destruct (P3 Oe') as (k' & Pk & Rk & Uk). exists k'. split_and!; try done; try lia.
    change (used m1 k' = true). rewrite U1 by lia. destruct (decide (k' = k)) as [-> |]; [|done].
    destruct (Ow k h' v') as [X N]; [by exists t', e'|]. destruct (ti_owner m T k h' v' h (i * page_size) X Ok) as [E1 E2]. by destruct (N E1).
  - intros k' h1 v1 h2 v2 [X1 _]%Ow [X2 _]%Ow. by apply (ti_owner m T k').
  - intros p h'. cbn. rewrite (k_space _ _ K1), (k_tables _ _ K1). intros X%(ti_space m T).
    destruct (decide (h' = h)) as [-> |]; [by rewrite lookup_insert_eq|by rewrite lookup_insert_ne].
Qed.

(** A page that is owned is given back without a fault. *)
Lemma release_owned_spec pid h t i e m : minv nothing m -> current m = Some pid -> space_of m !! pid = Some h -> tables m !! h = Some t ->
  t !! (i * page_size) = Some e -> 0 <= i < upages -> owned e = true ->
  exists m', release_one pid (i * page_size) m = Done (tt, m') /\ stable m m'.
Proof.
  intros I Hc Hs Ht He Hi Oe. apply minv_tinv in I as (T & c & hc & tc & Hc' & Hsc & Htc & Sh). assert (c = pid) as -> by congruence.
  assert (hc = h) as -> by congruence. assert (tc = t) as -> by congruence.
  destruct (po_owned _ _ _ (ti_pages m T _ _ _ _ Ht He) Oe) as (k & Pk & Rk & Uk).
  destruct (release_spec k m (ti_hw m T) Rk Uk) as (m1 & E1 & H1 & K1 & T1 & R1 & U1).
  assert (shows nothing (<[i * page_size := e]> (delete (i * page_size) t)) (tabs m1)) as Sh1 by (by rewrite T1, insert_delete_id).
  destruct (unmap_user_spec (i * page_size) e (delete (i * page_size) t) m1 H1) as (p2 & E2 & H2 & S2); [by exists i|apply lookup_delete_eq|done|].
  exists (set_tables <[h := delete (i * page_size) t]> (set_tabs p2 m1)). split.
  - unfold release_one. etrans; [by eapply run_bind_done, run_mappings|]. rewrite He. cbn [bool_decide]. rewrite bool_decide_true by done.
    etrans; [by apply run_bind_done|]. etrans; [by apply run_bind_done|]. rewrite Pk. etrans; [by apply run_bind_done|]. etrans; [by apply run_bind_done|].
    rewrite Oe. etrans; [by apply run_bind_done|]. etrans; [apply run_bind_done, run_space; cbn; by rewrite (k_space _ _ K1)|]. reflexivity.
  - split; [|split; [apply K1|apply K1]]. apply minv_tinv. split.
    + apply (tinv_delete h t i e k m); try done. split; apply K1.
    + exists pid, h, (delete (i * page_size) t). cbn. rewrite (k_current _ _ K1), (k_space _ _ K1), lookup_insert_eq. done.
Qed.
Lemma release_one_spec pid h v m : minv nothing m -> current m = Some pid -> space_of m !! pid = Some h ->
  wpf any (release_one pid v) (fun _ m' => stable m m') m.
Proof.
  intros I Hc Hs. destruct (i_space _ _ I _ _ Hs) as [t Ht]. destruct (t !! v) as [e|] eqn:He.
  - destruct (i_pages _ _ I _ _ _ _ Ht He) as [(i & -> & Hi) _ _]. destruct (owned e) eqn:Oe.
    + destruct (release_owned_spec pid h t i e m) as (m' & E & S); try done. by eapply wpf_intro.
    + unfold release_one. apply wpf_bind. eapply wpf_intro; [by eapply run_mappings|]. cbv beta. rewrite He.
      apply wpf_bind, wpf_any. intros [] m1 _. apply wpf_bind, wpf_any. intros e' m2 [= <- <-]. rewrite Oe.
      do 2 (apply wpf_bind, wpf_any; intros ? ? _). done.
  - unfold release_one. apply wpf_bind. eapply wpf_intro; [by eapply run_mappings|]. cbv beta. rewrite He. done.
Qed.
Lemma release_pages_spec pid h ptr pages m : minv nothing m -> current m = Some pid -> space_of m !! pid = Some h ->
  wpf any (release_pages pid ptr pages) (fun _ m' => stable m m') m.
Proof.
  intros I Hc Hs. unfold release_pages. apply wpf_bind, wpf_assert; [done|intros _]. apply wpf_bind.
  eapply wpf_mono; [apply (wpf_for_each_index any _ (fun _ m' => stable m m'))|].
  - intros j x m1 _ (I1 & S1 & C1). eapply wpf_mono; [apply (release_one_spec pid h); [done|congruence|congruence]|].
    intros [] m2 (I2 & S2 & C2). split_and!; [done|congruence|congruence].
  - done.
  - intros [] m1 S1. by apply wpf_ret.
Qed.

(** ** Ranges of physical memory *)

Lemma minv_claimed a n m p1 : minv nothing m -> allocated true n a (tabs m) p1 -> 0 < n ->
  minv (fun i => a <= i < a + n) (set_tabs p1 m).
Proof.
  intros I (A1 & A2 & A3 & A4 & A5) Hn. apply minv_tinv in I as (T & c & hc & tc & Hc & Hsc & Htc & Sh).
  assert (limit true = upages) as Lt by done. pose proof limits as Lf. apply minv_tinv. split.
  - apply tinv_tabs; [done|]. apply set_tabs_hw; [apply T|done|]. rewrite A4, bool_decide_false by lia. exact (hw_kernel m (ti_hw m T)).
  - exists c, hc, tc. split_and!; try done. intros i Hi. specialize (Sh i Hi). cbn. rewrite A4. destruct (tc !! (i * page_size)) as [e|] eqn:He.
    + rewrite bool_decide_false; [done|]. intros X. apply A3 in X. by rewrite Sh in X.
    + destruct Sh as [S1 S2]. case_bool_decide; [split; [done|by intros []]|]. split; [done|]. intros _. apply S2. by intros [].
Qed.
Lemma minv_settle P m : minv P m -> (forall c h t i, current m = Some c -> space_of m !! c = Some h -> tables m !! h = Some t -> P i -> is_Some (t !! (i * page_size))) ->
  minv nothing m.
Proof.
  intros I H. apply minv_tinv in I as (T & c & h & t & Hc & Hs & Ht & Sh). apply minv_tinv. split; [done|]. exists c, h, t. split_and!; try done.
  intros i Hi. specialize (Sh i Hi). specialize (H c h t i Hc Hs Ht). destruct (t !! _) as [e|]; [done|]. destruct Sh as [S1 S2]. split; [done|].
  intros _. apply S2. intros X. by destruct (H X).
Qed.

(** A page that is present cannot be mapped by the current process, and mapping another one keeps it. *)
Lemma proc_map_page_done pid h v pa fl own m m' : current m = Some pid -> space_of m !! pid = Some h -> proc_map_page pid v pa fl own m = Done (tt, m') ->
  present (entries (tabs m) (page_entry v)) = false /\ current m' = current m /\ space_of m' = space_of m /\
  forall i, i <> page_entry v -> entries (tabs m') i = entries (tabs m) i.
Proof.
  intros Hc Hs E. unfold proc_map_page in E. apply bind_done in E as (h1 & m1 & E1 & E). rewrite (run_space pid h m Hs) in E1. injection E1 as <- <-.
  apply bind_done in E as (c & m1 & E1 & E). rewrite (run_current pid m Hc) in E1. injection E1 as <- <-.
  apply bind_done in E as (h1 & m1 & E1 & E). rewrite (run_space pid h m Hs) in E1. injection E1 as <- <-. rewrite bool_decide_true in E by done.
  apply bind_done in E as ([] & m1 & E1 & E). cbn [when] in E1. destruct (present (entries (tabs m) (page_entry v))) eqn:Pr.
  - rewrite (fault_mem_paging _ m AssertFailed) in E1; [done|]. unfold map_page. by rewrite run_bind_gets, Pr.
  - rewrite (run_mem_paging _ m _ _ (map_page_spec pa v fl (tabs m) Pr)) in E1. injection E1 as <-.
    apply bind_done in E as (t & m2 & E2 & E). assert (m2 = set_tabs (set_entries (upd (page_entry v) (mapped fl (Z.shiftr pa 12)) (entries (tabs m))) (tabs m)) m) as ->.
    { unfold mappings in E2. apply bind_done in E2 as (h2 & m3 & E3 & E2). rewrite (run_space pid h) in E3 by done. injection E3 as <- <-.
      apply bind_done in E2 as (m4 & m5 & E4 & E2). injection E4 as <- <-. destruct (tables _ !! h); [by injection E2 as <- <-|done]. }
    apply bind_done in E as ([] & m3 & E3 & E). destruct (bool_decide _); [|done]. injection E3 as <-. injection E as <-.
    split_and!; try done. intros i N. cbn. unfold upd. by rewrite (proj2 (Z.eqb_neq _ _)).
Qed.

(** A range that runs over the end of the user's region is never mapped: its page behind the end is
    the first page of the kernel. *)
Lemma map_wrapped_faults pid h phys fl n c m : current m = Some pid -> space_of m !! pid = Some h -> present (entries (tabs m) (base false)) = true ->
  0 < c -> (Z.to_nat c < n)%nat -> c <= limit true ->
  wpf any (for_each (seq 0 n) (fun i => proc_map_page pid (u32 ((limit true - c) * page_size + page_size * Z.of_nat i)) (u32 (phys + page_size * Z.of_nat i)) fl false))
    (fun _ _ => False) m.
Proof.
  intros Hc Hs Pb C1 C2 C3. assert (base false = limit true) as Bl by done. assert (limit true = 0xC0000) as L by done. eapply wpf_mono.
  - apply (wpf_for_each_index any _ (fun j m' => current m' = Some pid /\ space_of m' !! pid = Some h /\ present (entries (tabs m') (base false)) = true /\ (j <= Z.to_nat c)%nat)).
    + intros j x m1 [-> Lj]%lookup_seq (Hc1 & Hs1 & P1 & J1). cbn [Nat.add]. apply wpf_any. intros [] m2 E.
      destruct (proc_map_page_done pid h _ _ _ _ m1 m2 Hc1 Hs1 E) as (A & B1 & B2 & B3).
      assert (u32 ((limit true - c) * page_size + page_size * Z.of_nat j) = (limit true - c + Z.of_nat j) * page_size) as Eu.
      { rewrite uwrap_small; unfold page_size; lia. }
      rewrite Eu, page_entry_0 in A, B3. assert (limit true - c + Z.of_nat j <> base false) as N by congruence.
      split_and!; [congruence|congruence| |lia]. by rewrite B3.
    + by split_and!; [..|lia].
  - intros _ m' (_ & _ & _ & J). rewrite length_seq in J. lia.
Qed.

Lemma map_range_spec pid h phys len m : minv nothing m -> current m = Some pid -> space_of m !! pid = Some h -> 0 <= len ->
  wpf any (map_range pid phys len) (fun _ m' => stable m m') m.
Proof.
  intros I Hc Hs Hl. unfold map_range. set (n := pages_of len). apply wpf_bind.
  assert (0 <= n) as Hn. { pose proof (pages_of_bounds len Hl). unfold n, page_size in *. lia. }
  destruct (Z.eq_dec n 0) as [-> |N0]; [by eapply wpf_fault; [apply fault_mem_paging; reflexivity|]|].
  destruct (alloc_virtual_page_cases true n (tabs m) (hw_pt m (i_hw _ _ I)) ltac:(lia)) as [(a & p1 & E & Al)|[[E _]|(c & p1 & E & W)]]; [|by eapply wpf_fault; [apply fault_mem_paging; exact E|]|].
  2: { destruct W as (_ & W2 & W3 & _ & _ & _ & W). eapply wpf_intro; [by apply run_mem_paging|]. cbv beta. apply wpf_bind.
       eapply wpf_mono; [apply (map_wrapped_faults pid h phys RWU (Z.to_nat n) c)|]; try done; try lia.
       - change (tabs (set_tabs p1 m)) with p1. rewrite W. pose proof (hw_kernel m (i_hw _ _ I)). by case_bool_decide.
       - pose proof (pi_last _ (hw_pt m (i_hw _ _ I)) true). assert (0 <= base true) by done. lia. }
  eapply wpf_intro; [by apply run_mem_paging|]. cbv beta. apply wpf_bind. pose proof (minv_claimed a n m p1 I Al ltac:(lia)) as I1. set (P := fun i => a <= i < a + n) in I1.
  destruct (i_space _ _ I _ _ Hs) as [t Ht]. destruct Al as (A1 & A2 & A3 & _). assert (limit true = upages) as Lt by done. assert (0 <= base true) by done.
  eapply wpf_mono; [apply (wpf_for_each_index any _ (fun j m' => minv P m' /\ space_of m' = space_of m /\ current m' = current m /\
    exists t', tables m' !! h = Some t' /\ (forall i, a <= i < a + Z.of_nat j -> is_Some (t' !! (i * page_size))) /\
      forall i, a + Z.of_nat j <= i < a + n -> t' !! (i * page_size) = None))|].
  - intros j x m1 [-> Lj]%lookup_seq (Im & Sm & Cm & t1 & Ht1 & D1 & F1). cbn [Nat.add].
    rewrite (Z.mul_comm page_size (Z.of_nat j)), user_addr by lia.
    destruct (map_foreign P pid h t1 (a + Z.of_nat j) (u32 (phys + page_size * Z.of_nat j)) RWU m1) as (m2 & E2 & I2 & G2 & T2); try done; try lia; [congruence|apply F1; lia|].
    rewrite (Z.mul_comm page_size (Z.of_nat j)) in E2. eapply wpf_intro; [exact E2|]. split_and!; [done|by rewrite (g_space _ _ _ G2)|by rewrite (g_current _ _ _ G2)|].
    eexists. rewrite T2, lookup_insert_eq. split_and!; [done| |].
    + intros i Hi. destruct (Z.eq_dec i (a + Z.of_nat j)) as [-> |Ni]; [by rewrite lookup_insert_eq|]. rewrite lookup_insert_ne by (unfold page_size; lia). apply D1. lia.
    + intros i Hi. rewrite lookup_insert_ne by (unfold page_size; lia). apply F1. lia.
  - split_and!; try done. exists t. split_and!; [done|lia|]. intros i Hi. destruct (t !! (i * page_size)) as [e|] eqn:He; [|done].
    destruct (i_current _ _ I) as (c & hc & tc & Hc' & Hsc & Htc & Sh). assert (c = pid) as -> by congruence. assert (hc = h) as -> by congruence.
    assert (tc = t) as -> by congruence. specialize (Sh i ltac:(lia)). rewrite He in Sh. specialize (A3 i ltac:(lia)). by rewrite Sh in A3.
  - intros [] m' (Im & Sm & Cm & t1 & Ht1 & D1 & _). apply wpf_ret. split_and!; try done. eapply minv_settle; [exact Im|].
    intros c h' t' i Hc' Hs' Ht' Pi. assert (c = pid) as -> by congruence. assert (h' = h) as -> by congruence. assert (t' = t1) as -> by congruence.
    apply D1. rewrite length_seq, Z2Nat.id by lia. exact Pi.
Qed.

(** ** Clones *)

Definition short (f : fault) : Prop := f = Panic \/ f = AssertFailed.
Lemma minv_share pid h m : minv nothing m -> current m <> Some pid -> is_Some (tables m !! h) -> minv nothing (set_space_of <[pid := h]> m).
Proof.
  intros [H Pg O S (c & hc & tc & Hc & Hsc & Htc & Sh)] N Hh. split; [by destruct H; split| |done| |].
  - intros h' t v e Ht He. by destruct (Pg _ _ _ _ Ht He).
  - intros p h'. cbn. intros [[<- <-]|[_ X]]%lookup_insert_Some; [done|by eapply S].
  - exists c, hc, tc. cbn. rewrite lookup_insert_ne by congruence. done.
Qed.
Lemma clone_shared_spec proc new h m : minv nothing m -> space_of m !! proc = Some h -> current m <> Some new ->
  wpf short (clone_memory proc new true) (fun _ m' => minv nothing m' /\ space_of m' = <[new := h]> (space_of m) /\ current m' = current m) m.
Proof.
  intros I Hs Nc. destruct (i_space _ _ I _ _ Hs) as [t Ht]. unfold clone_memory. apply wpf_bind, wpf_bind. eapply wpf_intro; [by apply run_space|]. cbv beta. wpf_steps.
  apply (init_tls_spec short nothing ltac:(by left) new h t); [by apply minv_share|apply lookup_insert_eq|done|by right|].
  intros m' I' G'. split_and!; [done|by rewrite (g_space _ _ _ G')|by rewrite (g_current _ _ _ G')].
Qed.
Lemma clone_copy_spec proc new hs ts h m : minv nothing m -> space_of m !! proc = Some hs -> tables m !! hs = Some ts -> space_of m !! new = Some h ->
  tables m !! h = Some ∅ -> h <> hs -> (forall c, current m = Some c -> space_of m !! c <> Some h) ->
  wpf short (clone_memory proc new false) (fun _ m' => minv nothing m' /\ grown h m m' /\ exists m1, copies (map_to_list ts) h m m1 /\ grown h m1 m') m.
Proof.
  intros I Hs Hts Hn Ht Nh Nc. unfold clone_memory. apply wpf_bind, (copy_directory_spec short ltac:(by left) proc new hs h ts); try done.
  intros m1 I1 G1 C1. pose proof C1 as (t1 & Ht1 & _). apply (init_tls_spec short nothing ltac:(by left) new h t1); try done; [by rewrite (g_space _ _ _ G1)|by right|].
  intros m2 I2 G2. split_and!; [done|by etrans|by exists m1].
Qed.
End user.
End SpaceUser.
