(* ===== verification/SpaceSpec.v ===== *)
(** * SpaceSpec: what the address spaces promise

    The states the kernel reaches by creating, loading, cloning, switching and ending processes,
    the isolation of their memory, and what a program finds in it. *)
From stdpp Require Import base list gmap.
From Stdlib Require Import ZArith Lia.
From S2P Require Import Prelude Hoare BitArray Paging PagingProofs Memmap PhysAlloc Disk DiskProofs AddressSpace SpaceMemory SpaceInv SpaceLoad SpaceSwitch SpaceLife SpaceClone SpaceUser.
Import Paging PagingProofs Memmap PhysAlloc DiskProofs AddressSpace SpaceMemory SpaceInv SpaceLoad SpaceSwitch SpaceLife SpaceClone SpaceUser.

Module SpaceSpec.
Section spec.
Context {B : Type} `{BS : BitSet B}.
Implicit Types (m : machine B) (t : table).

(** The kernel before its first process: the memory is as the boot leaves it ([init_booted]), no user
    page is claimed; one kernel task runs, without pages. *)
Record booted m : Prop := {
  b_hw : hw m;
  b_tables : tables m = {[ 0%nat := ∅ ]};
  b_space : space_of m = {[ 0 := 0%nat ]};
  b_current : current m = Some 0;
  b_user i : 0 <= i < upages -> os_claimed (entries (tabs m) i) = false }.

(** A program fits below its stack, with two pages for its thread storage. *)
Definition fits (code : list Z) (size : Z) : Prop :=
  let n := pages_of size in
  0 <= n /\ n + ubase + 2 < stack_page /\ n * page_size <= 2 ^ 31 /\ Z.of_nat (length code) < 2 ^ 31.

(** The states the kernel can reach. *)
Inductive reachable : machine B -> Prop :=
  | r_boot m : booted m -> reachable m
  | r_create m pid m' : reachable m -> space_of m !! pid = None -> create pid m = Done (tt, m') -> reachable m'
  | r_load m tramp pid h code size m' : reachable m -> space_of m !! pid = Some h -> use_count h m = 1%nat -> fits code size ->
      load_user_code tramp pid code size m = Done (tt, m') -> reachable m'
  | r_alloc m pid pages a m' : reachable m -> current m = Some pid -> 0 < pages -> allocate_pages pid pages m = Done (a, m') -> reachable m'
  | r_free m pid ptr pages b m' : reachable m -> current m = Some pid -> release_pages pid ptr pages m = Done (b, m') -> reachable m'
  | r_range m pid phys len v m' : reachable m -> current m = Some pid -> 0 <= len ->
      map_range pid phys len m = Done (v, m') -> reachable m'
  | r_fork m proc new hs h m' : reachable m -> space_of m !! proc = Some hs -> space_of m !! new = Some h -> tables m !! h = Some ∅ ->
      proc <> new -> use_count h m = 1%nat -> current m <> Some new -> clone_memory proc new false m = Done (tt, m') -> reachable m'
  | r_thread m proc new hs m' : reachable m -> space_of m !! proc = Some hs -> current m <> Some new ->
      clone_memory proc new true m = Done (tt, m') -> reachable m'
  | r_switch m next m' : reachable m -> task_switch next m = Done (tt, m') -> reachable m'
  | r_destroy m pid m' : reachable m -> is_Some (space_of m !! pid) -> current m <> Some pid -> destroy pid m = Done (tt, m') -> reachable m'.

Lemma booted_inv m : booted m -> minv nothing m.
Proof.
  intros [H Tb Sp Cu Us]. split; [done| | | |].
  - rewrite Tb. intros h t v e [<- <-]%lookup_singleton_Some He. by rewrite lookup_empty in He.
  - intros k h v h' v' (t & e & Ht & He & _). rewrite Tb in Ht. apply lookup_singleton_Some in Ht as [<- <-]. by rewrite lookup_empty in He.
  - rewrite Tb, Sp. intros pid h [<- <-]%lookup_singleton_Some. by rewrite lookup_singleton_eq.
  - exists 0, 0%nat, ∅. rewrite Tb, Sp, !lookup_singleton_eq. split_and!; try done. intros i Hi. rewrite lookup_empty. specialize (Us i Hi).
    split; [|done]. destruct (present _) eqn:E; [|done]. apply (pi_claimed _ (hw_pt m H)) in E. congruence.
Qed.

Lemma other_space new h c m : use_count h m = 1%nat -> space_of m !! new = Some h -> c <> new -> space_of m !! c <> Some h.
Proof. intros Uc Hn N Hc. pose proof (use_count_two c new h m N Hc Hn). lia. Qed.

Lemma space_reachable_inv m : reachable m -> minv nothing m.
Proof.
  induction 1 as [m Hb|m pid m' _ IH Hp E|m tr pid h code size m' _ IH Hs Uc (F1 & F2 & F3 & F4) E|m pid pages a m' _ IH Hc Hp E|m pid ptr pages b m' _ IH Hc E|
    m pid phys len v m' _ IH Hc Hl E|m proc new hs h m' _ IH Hs Hn Ht Np Uc Nc E|m proc new hs m' _ IH Hs Nc E|m next m' _ IH E|m pid m' _ IH [h Hs] Nc E].
  - by apply booted_inv.
  - destruct (create_spec pid m IH Hp) as (h & m1 & E1 & I1 & _). congruence.
  - eapply (wpf_done oom _ (fun _ m1 => minv nothing m1)); [|exact E]. apply (load_spec oom ltac:(done) tr pid h); try done; lia.
  - destruct (i_current _ _ IH) as (c & h & t & Hc' & Hs & Ht & _). assert (c = pid) as -> by congruence.
    eapply (wpf_done short _ (fun _ m1 => minv nothing m1)); [|exact E]. apply (allocate_pages_spec short nothing ltac:(by left) pid h t); try done; [by right|]. intros a' m1 _ _ _ Ex. apply Ex.
  - destruct (i_current _ _ IH) as (c & h & t & Hc' & Hs & _). assert (c = pid) as -> by congruence.
    eapply (wpf_done any) in E; [|by apply (release_pages_spec pid h)]. apply E.
  - destruct (i_current _ _ IH) as (c & h & t & Hc' & Hs & _). assert (c = pid) as -> by congruence.
    eapply (wpf_done any) in E; [|by apply (map_range_spec pid h)]. apply E.
  - destruct (i_space _ _ IH _ _ Hs) as [ts Hts]. eapply (wpf_done short) in E; [|apply (clone_copy_spec proc new hs ts h); try done]; [apply E| |].
    + intros <-. by apply (other_space new h proc m).
    + intros c Hc. apply (other_space new h c m); congruence.
  - eapply (wpf_done short) in E; [|by apply (clone_shared_spec proc new hs)]. apply E.
  - destruct (space_of m !! next) as [hn|] eqn:Hn; [destruct (decide (current m = Some next)) as [Hc|Nc]|].
    + unfold task_switch in E. apply bind_done in E as (c & m1 & E1 & E). rewrite (run_current next m Hc) in E1. injection E1 as <- <-.
      by rewrite Z.eqb_refl in E.
    + destruct (task_switch_spec next hn m IH Hn Nc) as (m1 & E1 & I1 & _). congruence.
    + unfold task_switch in E. apply bind_done in E as (c & m1 & E1 & E). destruct (i_current _ _ IH) as (c' & h & t & Hc & Hs & _).
      rewrite (run_current c' m Hc) in E1. injection E1 as <- <-. apply bind_done in E as ([] & m1 & E1 & E). destruct (negb _); [|done]. injection E1 as <-.
      apply bind_done in E as ([] & m2 & E2 & _). unfold switch_mappings in E2. apply bind_done in E2 as (h1 & m3 & E3 & E2). rewrite (run_space c' h m Hs) in E3. injection E3 as <- <-.
      apply bind_done in E2 as (h2 & m4 & E4 & _). unfold space, mbind, M_bind, get in E4. by rewrite Hn in E4.
  - destruct (destroy_spec pid h m IH Hs Nc) as (m1 & E1 & I1 & _). congruence.
Qed.

(** C2: the memory of the processes is kept apart.  In every state the kernel reaches, a frame that
    a page owns is in use and is not frame 0, and no other page of any table owns it, so that
    processes with different address spaces share no memory of their own; and the user part of the page
    tables is the table of the current process, page for page. *)
Theorem spaces_isolated m : reachable m ->
  (forall k h v, owns m k h v -> 0 < k < array_size /\ used m k = true /\ forall h' v', owns m k h' v' -> h' = h /\ v' = v) /\
  exists c h t, current m = Some c /\ space_of m !! c = Some h /\ tables m !! h = Some t /\
    forall i, 0 <= i < upages ->
      match t !! (i * page_size) with
      | Some e => entries (tabs m) i = mapped (flags e) (Z.shiftr (paddr e) 12)
      | None => present (entries (tabs m) i) = false /\ os_claimed (entries (tabs m) i) = false
      end.
Proof.
  intros R%space_reachable_inv. pose proof R as X. apply minv_tinv in X as (T & c & h & t & Hc & Hs & Ht & Sh). split.
  - intros k h0 v O. destruct (owner_range m k h0 v T O). split_and!; try done; try lia. intros h' v' O'. by apply (ti_owner m T k).
  - exists c, h, t. split_and!; try done. intros i Hi. specialize (Sh i Hi). destruct (t !! _); [done|]. destruct Sh as [S1 S2]. split; [done|]. apply S2. by intros [].
Qed.

Lemma page_of x : 0 <= x -> page_entry (USER_VIRTUAL_BASE + x) = ubase + x / page_size /\ (USER_VIRTUAL_BASE + x) mod page_size = x mod page_size.
Proof.
  intros Hx. change USER_VIRTUAL_BASE with (ubase * page_size). split.
  - rewrite (Z.div_mod x page_size) at 1 by done. rewrite Z.add_assoc, (Z.mul_comm page_size), <- Z.mul_add_distr_r. apply page_entry_page. by apply Z.mod_pos_bound.
  - rewrite Z.add_comm, Z.mod_add by done. done.
Qed.
Lemma loaded_read code n h t m x : loaded code n h m -> tables m !! h = Some t -> shows nothing t (tabs m) -> 0 <= x < n * page_size -> ubase + n <= upages ->
  user_read (USER_VIRTUAL_BASE + x) m = Some (program code x).
Proof.
  intros L Ht Sh Hx Hn. destruct (page_of x) as [Pe Pm]; [lia|]. pose proof (Z.mod_pos_bound x page_size ltac:(done)) as Mx. pose proof (Z.div_mod x page_size ltac:(done)) as Dx.
  assert (0 <= x / page_size < n) as Hi. { split; [apply Z.div_pos; [lia|done]|apply Z.div_lt_upper_bound; [done|lia]]. }
  destruct (L _ Hi) as (t' & k & Ht' & Hv & Rk & _ & R). assert (t' = t) as -> by congruence. assert (0 <= ubase) by done.
  specialize (Sh (ubase + x / page_size) ltac:(lia)). rewrite Hv in Sh. cbn in Sh. change (Z.shiftr (k * page_size) 12) with (page_entry (k * page_size)) in Sh. rewrite page_entry_0 in Sh.
  unfold user_read, is_mapped. rewrite Pe, Sh. cbn [present user mapped]. change (negb (has RWXU Sentinel) && has RWXU User) with true. cbv iota.
  rewrite (physical_address_mapped _ _ RWXU k); [|by rewrite Pe|done|unfold array_size in Rk; lia]. rewrite Pm, R by done. do 2 f_equal. lia.
Qed.

Lemma load_switch_run (tramp pid : Z) (h : nat) (code : list Z) (size : Z) m :
  reachable m -> space_of m !! pid = Some h -> use_count h m = 1%nat -> current m <> Some pid -> fits code size ->
  match (load_user_code tramp pid code size ;; task_switch pid) m with
  | Done (_, m') =>
      (forall x, 0 <= x < pages_of size * page_size -> user_read (USER_VIRTUAL_BASE + x) m' = Some (nth (Z.to_nat x) code 0)) /\
      (forall k h' v o, h' <> h -> owns m k h' v -> 0 <= o < page_size ->
         owns m' k h' v /\ ram m' (k * page_size + o) = ram m (k * page_size + o))
  | Fault f => f = Panic
  end.
Proof.
  intros R%space_reachable_inv Hs Uc Nc (F1 & F2 & F3 & F4).
  apply (wpf_bind oom _ _ (fun _ m' => (forall x, 0 <= x < pages_of size * page_size -> user_read (USER_VIRTUAL_BASE + x) m' = Some (program code x)) /\
    forall k h' v o, h' <> h -> owns m k h' v -> 0 <= o < page_size -> owns m' k h' v /\ ram m' (k * page_size + o) = ram m (k * page_size + o))).
  apply (load_spec oom ltac:(done) tramp pid h); try done; [lia|]. intros m1 I1 L1 S1 C1 K1.
  destruct (task_switch_spec pid h m1 I1) as (m2 & E2 & I2 & T2 & S2 & C2 & R2 & U2); [congruence|congruence|]. eapply wpf_intro; [exact E2|]. split.
  - intros x Hx. destruct (i_current _ _ I2) as (c & hc & t & Hc & Hsc & Ht & Sh). assert (c = pid) as -> by congruence. assert (hc = h) as -> by congruence.
    apply (loaded_read code (pages_of size) h t); try done; [|unfold stack_page, upages in *; lia].
    intros i Hi. destruct (L1 i Hi) as (t' & k & ? & ? & ? & ? & ?). exists t', k. rewrite T2, U2, R2. done.
  - intros k h' v o N O Ho. split; [apply (owns_same m m2); [by rewrite T2, (ok_tables _ _ _ K1)|done]|]. rewrite R2. by apply (ok_ram _ _ _ K1 k h' v).
Qed.

(** C3: a loaded program is where it belongs.  When the kernel loads a program into a process with an address space of
    its own and switches to it, the program reads its code from [USER_VIRTUAL_BASE] on and
    zeros behind it up to the last page it asked for; the memory of the processes in other
    address spaces is as it was.  Only a lack of memory can stop the kernel. *)
Theorem load_shows_program (tramp pid : Z) (h : nat) (code : list Z) (size : Z) m :
  reachable m -> space_of m !! pid = Some h -> use_count h m = 1%nat -> current m <> Some pid -> fits code size ->
  match (load_user_code tramp pid code size ;; task_switch pid) m with
  | Done (_, m') =>
      (forall x, 0 <= x < pages_of size * page_size -> user_read (USER_VIRTUAL_BASE + x) m' = Some (nth (Z.to_nat x) code 0)) /\
      (forall k h' v o, h' <> h -> owns m k h' v -> 0 <= o < page_size ->
         owns m' k h' v /\ ram m' (k * page_size + o) = ram m (k * page_size + o))
  | Fault f => f = Panic
  end.
Proof. apply load_switch_run. Qed.

(** A program in the format of the kernel starts behind its header. *)
Lemma raw_program_starts (tramp pid : Z) (h : nat) (file : list Z) m :
  reachable m -> space_of m !! pid = Some h -> use_count h m = 1%nat -> current m <> Some pid ->
  raw_accept file = true -> fits file (raw_size file) -> 13 <= raw_size file ->
  match (entry ← raw_load tramp pid file; task_switch pid ;; mret entry) m with
  | Done (entry, m') => user_read entry m' = Some (nth 12 file 0)
  | Fault f => f = Panic
  end.
Proof.
  intros R Hs Uc Nc _ Hf Hz. pose proof (load_switch_run tramp pid h file (raw_size file) m R Hs Uc Nc Hf) as L. unfold raw_load. unfold mbind, M_bind in *.
  destruct (load_user_code _ _ _ _ m) as [[[] m1]|f]; [|done]. cbn. destruct (task_switch pid m1) as [[[] m2]|f]; [|done]. destruct L as [L _].
  apply (L 12). destruct Hf as (_ & _ & _ & _). pose proof (pages_of_bounds (raw_size file) ltac:(lia)). unfold page_size in *. lia.
Qed.


(** C4: a fork copies the memory.  After [clone] without [CLONE_VM], every page the parent owns is in
    the table of the child, with the same rights and the same bytes, in a frame of its own;
    the parent keeps its pages and their bytes.  The kernel stops only for lack of memory, or of two free
    user pages for the thread storage of the child. *)
Theorem fork_copies_memory m (proc new : Z) (hs h : nat) ts :
  reachable m -> space_of m !! proc = Some hs -> tables m !! hs = Some ts -> space_of m !! new = Some h -> tables m !! h = Some ∅ ->
  proc <> new -> use_count h m = 1%nat -> current m <> Some new ->
  match clone_memory proc new false m with
  | Done (_, m') => tables m' !! hs = Some ts /\ exists t, tables m' !! h = Some t /\
      forall v e, ts !! v = Some e -> owned e = true -> exists k,
        t !! v = Some (mkMapping (k * page_size) (flags e) true) /\ k * page_size <> paddr e /\
        forall o, 0 <= o < page_size -> ram m' (k * page_size + o) = ram m (paddr e + o) /\ ram m' (paddr e + o) = ram m (paddr e + o)
  | Fault f => f = Panic \/ f = AssertFailed
  end.
Proof.
  intros R%space_reachable_inv Hs Hts Hn Ht Np Uc Nc.
  assert (h <> hs) as Nh. { intros <-. by apply (other_space new h proc m). }
  eapply (wpf_mono short (clone_memory proc new false)); [apply (clone_copy_spec proc new hs ts h); try done; intros c Hc; apply (other_space new h c m); congruence|].
  intros _ m' (I' & G' & m1 & C1 & G1). assert (tables m' !! hs = Some ts) as Hts' by (by rewrite (g_others _ _ _ G')). split; [done|].
  destruct (g_table _ _ _ G' ∅ Ht) as (t & Ht' & _). exists t. split; [done|]. intros v e He Oe.
  destruct (copies_grown (map_to_list ts) h m m1 m' t C1 G1 Ht' v e) as (k & Hv & Rk & Uk & Rm); [by apply elem_of_map_to_list|done|]. exists k. split_and!; [done| |].
  - intros Pe. destruct (i_owner _ _ I' k h v hs v); [by eexists t, _|by exists ts, e|done].
  - intros o Ho. split; [by apply Rm|]. destruct (po_owned _ _ _ (i_pages _ _ R _ _ _ _ Hts He) Oe) as (k0 & -> & Rk0 & Uk0).
    apply (g_ram _ _ _ G'); rewrite frame_div by done; [lia|done].
Qed.

(** The copy of a table has no page that the parent does not own; so a child starts without the
    page of the signal trampoline. *)
Lemma copy_drops_foreign m (proc new : Z) (hs h : nat) ts :
  reachable m -> space_of m !! proc = Some hs -> tables m !! hs = Some ts -> space_of m !! new = Some h -> tables m !! h = Some ∅ ->
  proc <> new -> use_count h m = 1%nat -> current m <> Some new ->
  forall e m', ts !! signal_trampoline_page = Some e -> owned e = false -> copy_page_directory proc new m = Done (tt, m') ->
  exists t, tables m' !! h = Some t /\ t !! signal_trampoline_page = None.
Proof.
  intros R%space_reachable_inv Hs Hts Hn Ht Np Uc Nc e m' He Oe E. assert (h <> hs) as Nh. { intros <-. by apply (other_space new h proc m). }
  eapply (wpf_done oom _ (fun _ m1 => copies (map_to_list ts) h m m1)) in E.
  - destruct E as (t & Ht' & D & _). exists t. split; [done|]. destruct (t !! _) as [x|] eqn:Hx; [|done]. destruct (D signal_trampoline_page) as (e' & X & Oe'); [done|].
    apply elem_of_map_to_list in X. congruence.
  - apply (copy_directory_spec oom ltac:(done) proc new hs h ts); try done. intros c Hc. apply (other_space new h c m); congruence.
Qed.
End spec.

(** ** A kernel that has just started *)

(** What the boot builds, the bitmap from the memory map of the boot loader and the tables with
    the kernel mapped, is such a state. *)
Definition boot_machine {B} (p : phys B) (e : Z) : machine B :=
  mkMachine (mkKmem p (create_paging_info e) (fun _ => None)) (fun _ => 0) {[ 0%nat := ∅ ]} {[ 0 := 0%nat ]} ∅ (Some 0).
Lemma user_unclaimed e i : 0 <= i < upages -> os_claimed (entries (create_paging_info e) i) = false.
Proof.
  intros Hi. unfold create_paging_info, map_kernel. cbn [entries]. assert (KERNEL_VIRTUAL_BASE / page_size = upages) as -> by done.
  destruct (Z.leb_spec 0 (i - upages)); [lia|done].
Qed.
Lemma boot_machine_booted {B} `{BitSet B} (p : phys B) e : 0 <= e -> phys_ok p -> bits p 0 = true -> booted (boot_machine p e).
Proof.
  intros He Hp H0. destruct (create_paging_info_inv e He) as [I K]. split; try done. intros i. apply user_unclaimed.
Qed.
Lemma init_booted {B} `{BitSet B} (p p' : phys B) e l : phys_ok p -> Forall zone_ok (filter (fun z => mm_type z = 1) l) -> 0 <= e < 2 ^ 31 ->
  init_alloc_bitmap e l p = Done (tt, p') -> booted (boot_machine p' e).
Proof.
  intros Hp Hz He E. destruct (init_alloc_bitmap_spec e l p Hp Hz He) as (p1 & E1 & Hp' & F). rewrite E in E1. injection E1 as <-.
  apply boot_machine_booted; [lia|done|]. destruct (bits p' 0) eqn:B0; [done|]. destruct (F 0) as [X _]; [unfold array_size; lia|done|lia].
Qed.

Definition start_phys : phys (list Z) := mkPhys (1 :: BitArray.bitarray0 32 (array_size - 32)) 0 0.
Definition start : machine (list Z) := boot_machine start_phys 0x400000.
(** The same with a second process. *)
Definition start_two : machine (list Z) :=
  mkMachine (mkKmem start_phys boot (fun _ => None)) (fun _ => 0) {[ 1%nat := ∅; 0%nat := ∅ ]} {[ 1 := 1%nat; 0 := 0%nat ]} ∅ (Some 0).

Lemma start_booted : booted start.
Proof. apply boot_machine_booted; [lia|split; [vm_compute; reflexivity|unfold array_size; cbn; lia]|vm_compute; reflexivity]. Qed.
Lemma start_two_reachable : reachable start_two.
Proof. apply (r_create start 1); [apply r_boot, start_booted|done|reflexivity]. Qed.

(** The state after an operation that returns. *)
Definition after {A} (o : outcome (A * machine (list Z))) : machine (list Z) := match o with Done (_, m) => m | Fault _ => start end.
Definition returns {A} (o : outcome (A * machine (list Z))) : bool := match o with Done _ => true | Fault _ => false end.
Lemma returns_unit (o : outcome (unit * machine (list Z))) : returns o = true -> o = Done (tt, after o).
Proof. by destruct o as [[[] m]|]. Qed.

(** A program of two pages runs in the second process. *)
Definition program_code : list Z := [0x90; 0xC3].
Definition program_loaded : machine (list Z) := after (load_user_code 0xC0100000 1 program_code 6000 start_two).
Definition program_runs : machine (list Z) := after ((load_user_code 0xC0100000 1 program_code 6000 ;; task_switch 1) start_two).
Lemma load_returns : returns (load_user_code 0xC0100000 1 program_code 6000 start_two) = true.
Proof. vm_compute. reflexivity. Qed.
Lemma runs_returns : returns ((load_user_code 0xC0100000 1 program_code 6000 ;; task_switch 1) start_two) = true.
Proof. vm_compute. reflexivity. Qed.
Lemma program_fits : fits program_code 6000.
Proof. by vm_compute. Qed.
Lemma program_runs_reachable : reachable program_runs.
Proof.
  assert (reachable program_loaded) as R.
  { apply (r_load start_two 0xC0100000 1 1 program_code 6000 program_loaded start_two_reachable eq_refl eq_refl program_fits). apply returns_unit, load_returns. }
  apply (r_switch _ 1 _ R). pose proof (returns_unit _ runs_returns) as E. fold program_runs in E.
  apply bind_done in E as ([] & m1 & E1 & E2). unfold program_loaded. rewrite E1. exact E2.
Qed.
(** The frame behind a page of a table, if the page is owned. *)
Definition owned_frame (m : machine (list Z)) (h : nat) (v : Z) : option Z :=
  t ← tables m !! h; e ← t !! v; if owned e then Some (paddr e) else None.
Lemma owned_frame_owns m h v k : owned_frame m h v = Some (k * page_size) -> owns m k h v.
Proof.
  unfold owned_frame. destruct (tables m !! h) as [t|] eqn:Ht; [cbn|done]. destruct (t !! v) as [e|] eqn:He; [cbn|done].
  destruct (owned e) eqn:Oe; [|done]. intros [= P]. by exists t, e.
Qed.

Lemma spaces_isolated_witness :
  owns program_runs 1 1 USER_VIRTUAL_BASE /\ owns program_runs 2 1 (USER_VIRTUAL_BASE + page_size) /\
  (forall h' v', owns program_runs 1 h' v' -> h' = 1%nat /\ v' = USER_VIRTUAL_BASE) /\
  exists c h t, current program_runs = Some c /\ space_of program_runs !! c = Some h /\ tables program_runs !! h = Some t /\
    forall i, 0 <= i < upages ->
      match t !! (i * page_size) with
      | Some e => entries (tabs program_runs) i = mapped (flags e) (Z.shiftr (paddr e) 12)
      | None => present (entries (tabs program_runs) i) = false /\ os_claimed (entries (tabs program_runs) i) = false
      end.
Proof.
  assert (owns program_runs 1 1 USER_VIRTUAL_BASE) as O1 by (apply owned_frame_owns; vm_compute; reflexivity).
  assert (owns program_runs 2 1 (USER_VIRTUAL_BASE + page_size)) as O2 by (apply owned_frame_owns; vm_compute; reflexivity).
  destruct (spaces_isolated program_runs program_runs_reachable) as [A B]. split_and!; [exact O1|exact O2|apply (A 1 _ _ O1)|exact B].
Defined.

Lemma load_shows_program_witness :
  (load_user_code 0xC0100000 1 program_code 6000 ;; task_switch 1) start_two = Done (tt, program_runs) /\
  (forall x, 0 <= x < pages_of 6000 * page_size -> user_read (USER_VIRTUAL_BASE + x) program_runs = Some (nth (Z.to_nat x) program_code 0)) /\
  (forall k h' v o, h' <> 1%nat -> owns start_two k h' v -> 0 <= o < page_size ->
     owns program_runs k h' v /\ ram program_runs (k * page_size + o) = ram start_two (k * page_size + o)).
Proof.
  pose proof (load_shows_program 0xC0100000 1 1 program_code 6000 start_two start_two_reachable eq_refl eq_refl
    ltac:(discriminate) program_fits) as H.
  pose proof (returns_unit _ runs_returns) as E. fold program_runs in E. rewrite E in H. split; [exact E|exact H].
Defined.

(** The first process has a page of its own, at 0x8000000, and forks. *)
Definition with_page : machine (list Z) := after (allocate_pages 0 1 start_two).
Definition forked : machine (list Z) := after (clone_memory 0 1 false with_page).
Lemma with_page_reachable : reachable with_page.
Proof.
  destruct (allocate_pages 0 1 start_two) as [[a m]|f] eqn:E.
  - apply (r_alloc start_two 0 1 a with_page start_two_reachable); [done|lia|]. unfold with_page. by rewrite E.
  - exfalso. assert (returns (allocate_pages 0 1 start_two) = true) as R by (vm_compute; reflexivity). by rewrite E in R.
Qed.
Lemma fork_returns : returns (clone_memory 0 1 false with_page) = true.
Proof. vm_compute. reflexivity. Qed.
Lemma with_page_table : tables with_page !! 0%nat = Some {[ USER_VIRTUAL_BASE := mkMapping page_size RWU true ]}.
Proof. vm_compute. reflexivity. Qed.

Lemma fork_copies_memory_witness :
  clone_memory 0 1 false with_page = Done (tt, forked) /\
  exists t k, tables forked !! 1%nat = Some t /\
    t !! USER_VIRTUAL_BASE = Some (mkMapping (k * page_size) RWU true) /\ k <> 1 /\
    forall o, 0 <= o < page_size -> ram forked (k * page_size + o) = ram with_page (page_size + o) /\ ram forked (page_size + o) = ram with_page (page_size + o).
Proof.
  pose proof (fork_copies_memory with_page 0 1 0 1 {[ USER_VIRTUAL_BASE := mkMapping page_size RWU true ]} with_page_reachable
    ltac:(vm_compute; reflexivity) with_page_table ltac:(vm_compute; reflexivity) ltac:(vm_compute; reflexivity) ltac:(discriminate)
    ltac:(vm_compute; reflexivity) ltac:(vm_compute; discriminate)) as H.
  pose proof (returns_unit _ fork_returns) as E. fold forked in E. rewrite E in H. split; [exact E|].
  destruct H as (_ & t & Ht & H). destruct (H USER_VIRTUAL_BASE (mkMapping page_size RWU true) (lookup_singleton_eq _ _) eq_refl) as (k & H1 & H2 & H3).
  exists t, k. split; [exact Ht|]. split; [exact H1|]. split; [|exact H3]. intros ->. by apply H2.
Defined.
End SpaceSpec.
