(* ===== verification/Printf.v ===== *)
(** * Printf: formatted output, [libc/stdio/printf.cpp]

    The formatter walks the format string with its terminating zero, takes its
    arguments from the variable argument list and hands every character to a
    sink [putf], whose state is passed along; [sprintf], [snprintf] and the
    stream and terminal outputs are the same formatter with different sinks.  A
    read past the terminating zero, past the argument list, or of storage
    that was never written is [BadAccess].

    [int], [long], [size_t] and pointers are 32 bits wide, [long long] 64.
    The text of a [double] is the argument [ftoa] of the formatter: its
    arithmetic in x87 registers depends on where the compiler spills them. *)
From stdpp Require Import base list.
From Stdlib Require Import ZArith Lia.
From S2P Require Import Prelude Mem32 Strto.
Import Strto.

Module Printf.

(** ** [struct param]

    [base] has no value before the first integer conversion; [uc] is read only
    after a hexadecimal conversion has set it.  The buffer [bf] is passed
    beside the record, as the characters before its terminating zero. *)
Record param := mk_param {
  lz : bool; alt : bool; uc : bool; align_left : bool;
  width : Z; precision : Z; sign : Z; base : option Z }.

Definition set_lz (p : param) := mk_param true p.(alt) p.(uc) p.(align_left) p.(width) p.(precision) p.(sign) p.(base).
Definition set_alt (p : param) := mk_param p.(lz) true p.(uc) p.(align_left) p.(width) p.(precision) p.(sign) p.(base).
Definition set_left (p : param) := mk_param p.(lz) p.(alt) p.(uc) true p.(width) p.(precision) p.(sign) p.(base).
Definition set_uc (b : bool) (p : param) := mk_param p.(lz) p.(alt) b p.(align_left) p.(width) p.(precision) p.(sign) p.(base).
Definition set_width (w : Z) (p : param) := mk_param p.(lz) p.(alt) p.(uc) p.(align_left) w p.(precision) p.(sign) p.(base).
Definition set_precision (n : Z) (p : param) := mk_param p.(lz) p.(alt) p.(uc) p.(align_left) p.(width) n p.(sign) p.(base).
Definition set_sign (c : Z) (p : param) := mk_param p.(lz) p.(alt) p.(uc) p.(align_left) p.(width) p.(precision) c p.(base).
Definition set_base (b : Z) (p : param) := mk_param p.(lz) p.(alt) p.(uc) p.(align_left) p.(width) p.(precision) p.(sign) (Some b).
(** "Init parameter struct" of a conversion. *)
Definition reset (p : param) := mk_param false false p.(uc) false 0 p.(precision) 0 p.(base).

(** ** Integers to text *)

(** [while (num / d >= p->base) d *= p->base;] on [w]-bit numbers. *)
Fixpoint scale (fuel : nat) (w num b d : Z) : outcome Z :=
  match fuel with
  | O => Fault OutOfFuel
  | S fuel => if b <=? num / d then scale fuel w num b (uwrap w (d * b)) else Done d
  end.

Definition digit (up : bool) (dgt : Z) : Z := u8 (dgt + (if dgt <? 10 then 48 else (if up then 65 else 97) - 10)).

(** [while (d != 0)]: the characters written to the buffer. *)
Fixpoint emit (fuel : nat) (num b d n : Z) (up : bool) : outcome (list Z) :=
  match fuel with
  | O => Fault OutOfFuel
  | S fuel =>
      if d =? 0 then Done []
      else
        let dgt := s32 (num / d) in
        let num := num mod d in
        let d := d / b in
        if negb (n =? 0) || (0 <? dgt) || (d =? 0)
        then bf ← emit fuel num b d (n + 1) up; mret (digit up dgt :: bf)
        else emit fuel num b d n up
  end.

Definition u2a (w num : Z) (p : param) : outcome (list Z) :=
  b ← match p.(base) with Some b => Done b | None => Fault BadAccess end;
  d ← scale 65 w num b 1;
  emit 66 num b d 0 p.(uc).

Definition ulli2a (num : Z) (p : param) : outcome (list Z) := u2a 64 num p.
Definition uli2a (num : Z) (p : param) : outcome (list Z) := u2a 32 num p.
Definition ui2a (num : Z) (p : param) : outcome (list Z) := u2a 32 num p.

Definition lli2a (num : Z) (p : param) : outcome (list Z * param) :=
  let '(num, p) := if num <? 0 then (s64 (- num), set_sign 45 p) else (num, p) in
  bf ← ulli2a (u64 num) p; mret (bf, p).
Definition li2a (num : Z) (p : param) : outcome (list Z * param) :=
  let '(num, p) := if num <? 0 then (s32 (- num), set_sign 45 p) else (num, p) in
  bf ← uli2a (u32 num) p; mret (bf, p).
Definition i2a (num : Z) (p : param) : outcome (list Z * param) :=
  let '(num, p) := if num <? 0 then (s32 (- num), set_sign 45 p) else (num, p) in
  bf ← ui2a (u32 num) p; mret (bf, p).

(** ** Reading the format *)

Definition is_digit (ch : Z) : bool := (48 <=? ch) && (ch <=? 57).

Definition a2d (ch : Z) : Z :=
  if (48 <=? ch) && (ch <=? 57) then ch - 48
  else if (97 <=? ch) && (ch <=? 102) then ch - 97 + 10
  else if (65 <=? ch) && (ch <=? 70) then ch - 65 + 10
  else -1.

(** The result is the character that ended the number, what follows it and the
    number. *)
Fixpoint a2u (ch : Z) (src : list Z) (b num : Z) : outcome (Z * list Z * Z) :=
  let dgt := a2d ch in
  if dgt <? 0 then Done (ch, src, num)
  else if b <? dgt then Done (ch, src, num)
  else match src with
       | [] => Fault BadAccess
       | c :: src => a2u c src b (u32 (u32 (num * b) + dgt))
       end.

(** [ch = *(fmt++)]. *)
Definition next (fmt : list Z) : outcome (Z * list Z) :=
  match fmt with [] => Fault BadAccess | ch :: fmt => Done (ch, fmt) end.

Fixpoint flags (fmt : list Z) (p : param) : outcome (Z * list Z * param) :=
  match fmt with
  | [] => Fault BadAccess
  | ch :: fmt =>
      if ch =? 0 then Done (ch, fmt, p)
      else if ch =? 45 then flags fmt (set_left p)
      else if ch =? 48 then flags fmt (set_lz p)
      else if ch =? 35 then flags fmt (set_alt p)
      else Done (ch, fmt, p)
  end.

(** [do { ch = *(fmt++); prec[idx++] = ch; } while digit], with [char prec[64]]. *)
Fixpoint read_prec (fmt prec : list Z) : outcome (Z * list Z * list Z) :=
  match fmt with
  | [] => Fault BadAccess
  | ch :: fmt =>
      if (64 <=? length prec)%nat then Fault BadAccess
      else if is_digit ch then read_prec fmt (prec ++ [ch])
      else Done (ch, fmt, prec ++ [ch])
  end.

(** [p.precision = atoi(prec)]: the array ends at the character that is not a digit; after
    a sign [atoi] reads on behind it. *)
Definition prec_value (prec : list Z) : outcome Z :=
  match prec with
  | [c] => if (c =? 45) || (c =? 43) then Fault BadAccess else Done (u32 (atoi prec))
  | _ => Done (u32 (atoi prec))
  end.

Definition dot_part (ch : Z) (fmt : list Z) (p : param) : outcome (Z * list Z * param) :=
  if ch =? 46 then
    '(ch, fmt, prec) ← read_prec fmt [];
    n ← prec_value prec;
    mret (ch, fmt, set_precision n (set_lz p))
  else mret (ch, fmt, p).

Definition width_part (ch : Z) (fmt : list Z) (p : param) : outcome (Z * list Z * param) :=
  if is_digit ch then
    '(ch, fmt, w) ← a2u ch fmt 10 0; mret (ch, fmt, set_width w p)
  else mret (ch, fmt, p).

(** [z], [l] and [ll]; [lng] is 0, 1 or 2. *)
Definition length_part (ch : Z) (fmt : list Z) : outcome (Z * list Z * Z) :=
  if ch =? 122 then '(ch, fmt) ← next fmt; mret (ch, fmt, 1)
  else if ch =? 108 then
    '(ch, fmt) ← next fmt;
    if ch =? 108 then '(ch, fmt) ← next fmt; mret (ch, fmt, 2) else mret (ch, fmt, 1)
  else mret (ch, fmt, 0).

(** Everything between the percent sign and the [switch]. *)
Definition directive (fmt : list Z) (p : param) : outcome (Z * list Z * param * Z) :=
  '(ch, fmt, p) ← flags fmt (reset p);
  '(ch, fmt, p) ← width_part ch fmt p;
  '(ch, fmt, p) ← dot_part ch fmt p;
  '(ch, fmt, lng) ← length_part ch fmt;
  mret (ch, fmt, p, lng).

(** The base [putchw] compares, read only for the alternate form. *)
Definition alt_base (p : param) : outcome Z :=
  if p.(alt) then match p.(base) with Some b => Done b | None => Fault BadAccess end else Done 0.

(** [while ( *bf++ && n > 0) n--]. *)
Fixpoint fill_count (bf : list Z) (n : Z) : Z :=
  match bf with
  | [] => n
  | _ :: bf => if 0 <? n then fill_count bf (n - 1) else n
  end.

(** An argument of the call: a 32-bit word, a 64-bit number, a double, a string. *)
Inductive varg (D : Type) : Type :=
  | VWord (z : Z)
  | VLongLong (z : Z)
  | VDouble (d : D)
  | VStr (s : list Z).
Arguments VWord {D} z.
Arguments VLongLong {D} z.
Arguments VDouble {D} d.
Arguments VStr {D} s.

Definition arg_word {D} (va : list (varg D)) : outcome (Z * list (varg D)) :=
  match va with VWord z :: va => Done (u32 z, va) | _ => Fault BadAccess end.
Definition arg_long_long {D} (va : list (varg D)) : outcome (Z * list (varg D)) :=
  match va with VLongLong z :: va => Done (u64 z, va) | _ => Fault BadAccess end.
Definition arg_double {D} (va : list (varg D)) : outcome (D * list (varg D)) :=
  match va with VDouble d :: va => Done (d, va) | _ => Fault BadAccess end.
Definition arg_str {D} (va : list (varg D)) : outcome (list Z * list (varg D)) :=
  match va with VStr s :: va => Done (s, va) | _ => Fault BadAccess end.

(** The three unsigned and the three signed conversions, chosen by [lng]. *)
Definition unsigned_arg {D} (lng : Z) (p : param) (va : list (varg D)) : outcome (list Z * list (varg D)) :=
  if 2 =? lng then '(n, va) ← arg_long_long va; bf ← ulli2a n p; mret (bf, va)
  else if 1 =? lng then '(n, va) ← arg_word va; bf ← uli2a n p; mret (bf, va)
  else '(n, va) ← arg_word va; bf ← ui2a n p; mret (bf, va).
Definition signed_arg {D} (lng : Z) (p : param) (va : list (varg D)) : outcome (list Z * param * list (varg D)) :=
  if 2 =? lng then '(n, va) ← arg_long_long va; '(bf, p) ← lli2a (s64 n) p; mret (bf, p, va)
  else if 1 =? lng then '(n, va) ← arg_word va; '(bf, p) ← li2a (s32 n) p; mret (bf, p, va)
  else '(n, va) ← arg_word va; '(bf, p) ← i2a (s32 n) p; mret (bf, p, va).

(** ** The formatter *)
Section format.
Context {D T : Type}.
(** The sink of the characters, and the text of a double with a precision. *)
Variable putf : Z -> T -> T.
Variable ftoa : D -> Z -> list Z.

Definition put_all (l : list Z) (s : T) : T := fold_left (fun s c => putf c s) l s.
(** [while (n-- > 0) putf(putp, c)]. *)
Definition put_fill (n c : Z) (s : T) : T := put_all (repeat c (Z.to_nat n)) s.

Definition putchw (bf : list Z) (p : param) (s : T) : outcome T :=
  let n := fill_count bf (s32 p.(width)) in
  let n := if Ztrue p.(sign) then s32 (n - 1) else n in
  b ← alt_base p;
  let n := if p.(alt) && (b =? 16) then s32 (n - 2) else if p.(alt) && (b =? 8) then s32 (n - 1) else n in
  let s := if negb p.(lz) && negb p.(align_left) then put_fill n 32 s else s in
  let s := if Ztrue p.(sign) then putf p.(sign) s else s in
  let s := if p.(alt) && (b =? 16) then putf (if p.(uc) then 88 else 120) (putf 48 s)
           else if p.(alt) && (b =? 8) then putf 48 s else s in
  let s := if p.(lz) then put_fill n 48 s else s in
  let s := put_all bf s in
  mret (if negb p.(lz) && p.(align_left) then put_fill n 32 s else s).

(** The [switch] on the conversion character, except [case 0]. *)
Definition convert (ch lng : Z) (p : param) (va : list (varg D)) (s : T) : outcome (param * list (varg D) * T) :=
  if ch =? 117 then                                       (* u *)
    let p := set_base 10 p in
    '(bf, va) ← unsigned_arg lng p va; s ← putchw bf p s; mret (p, va, s)
  else if (ch =? 100) || (ch =? 105) then                 (* d, i *)
    let p := set_base 10 p in
    '(bf, p, va) ← signed_arg lng p va; s ← putchw bf p s; mret (p, va, s)
  else if (ch =? 112) || (ch =? 120) || (ch =? 88) || (ch =? 98) then   (* p, x, X, b *)
    let '(p, lng) := if ch =? 112 then (set_alt p, 0) else (p, lng) in
    let p := set_uc (ch =? 88) (set_base (if ch =? 98 then 2 else 16) p) in
    '(bf, va) ← unsigned_arg lng p va; s ← putchw bf p s; mret (p, va, s)
  else if (ch =? 102) || (ch =? 70) then                  (* f, F *)
    '(d, va) ← arg_double va; s ← putchw (ftoa d (s32 p.(precision))) p s; mret (p, va, s)
  else if ch =? 111 then                                  (* o *)
    let p := set_base 8 p in
    '(n, va) ← arg_word va; bf ← ui2a n p; s ← putchw bf p s; mret (p, va, s)
  else if ch =? 99 then                                   (* c *)
    '(n, va) ← arg_word va; mret (p, va, putf (u8 n) s)
  else if ch =? 115 then                                  (* s *)
    '(bf, va) ← arg_str va; s ← putchw bf p s; mret (p, va, s)
  else if ch =? 37 then mret (p, va, putf ch s)
  else mret (p, va, s).

Fixpoint tfp_loop (fuel : nat) (fmt : list Z) (p : param) (va : list (varg D)) (s : T) : outcome T :=
  match fuel with
  | O => Fault OutOfFuel
  | S fuel =>
      '(ch, fmt) ← next fmt;
      if ch =? 0 then Done s
      else if negb (ch =? 37) then tfp_loop fuel fmt p va (putf ch s)
      else
        '(ch, fmt, p, lng) ← directive fmt p;
        if ch =? 0 then Done s
        else '(p, va, s) ← convert ch lng p va s; tfp_loop fuel fmt p va s
  end.

(** [fmt] is the format without its terminating zero. *)
Definition tfp_format (fmt : list Z) (va : list (varg D)) (s : T) : outcome T :=
  tfp_loop (S (S (length fmt))) (fmt ++ [0]) (mk_param false false false false 0 6 0 None) va s.
End format.

(** ** Strings in memory *)
Section strings.
Context {D : Type} (ftoa : D -> Z -> list Z).

Record vsnprintf_data := mk_sn { sn_mem : memory; dest : Z; dest_capacity : Z; num_chars : Z }.

Definition _vsnprintf_putcf (c : Z) (data : vsnprintf_data) : vsnprintf_data :=
  mk_sn (if data.(num_chars) <? data.(dest_capacity)
         then store8 data.(sn_mem) (data.(dest) + data.(num_chars)) c else data.(sn_mem))
    data.(dest) data.(dest_capacity) (u32 (data.(num_chars) + 1)).

(** The result is the returned [int] and the memory. *)
Definition tfp_vsnprintf (str size : Z) (fmt : list Z) (va : list (varg D)) (m : memory) : outcome (Z * memory) :=
  if size <? 1 then mret (0, m)
  else
    data ← tfp_format _vsnprintf_putcf ftoa fmt va (mk_sn m str (u32 (size - 1)) 0);
    let m := data.(sn_mem) in
    let m := if data.(num_chars) <? data.(dest_capacity)
             then store8 m (data.(dest) + data.(num_chars)) 0
             else store8 m (data.(dest) + data.(dest_capacity)) 0 in
    mret (s32 data.(num_chars), m).

Record vsprintf_data := mk_s { s_mem : memory; s_dest : Z; s_chars : Z }.

Definition _vsprintf_putcf (c : Z) (data : vsprintf_data) : vsprintf_data :=
  mk_s (store8 data.(s_mem) (data.(s_dest) + data.(s_chars)) c) data.(s_dest) (u32 (data.(s_chars) + 1)).

Definition tfp_vsprintf (str : Z) (fmt : list Z) (va : list (varg D)) (m : memory) : outcome (Z * memory) :=
  data ← tfp_format _vsprintf_putcf ftoa fmt va (mk_s m str 0);
  mret (s32 data.(s_chars), store8 data.(s_mem) (data.(s_dest) + data.(s_chars)) 0).

(** [fprintf]: the text is formatted into [char buf[1024]] and [size] bytes of the
    buffer are written, [size] being what [vsnprintf] returns.  [write] is the
    system call: the descriptor and the bytes, giving its result. *)
Definition fprintf (write : Z -> list Z -> Z) (fd buf : Z) (fmt : list Z) (va : list (varg D)) (m : memory) : outcome Z :=
  '(r, m) ← tfp_vsnprintf buf 1024 fmt va m;
  let size := u32 r in
  if 1024 <? size then Fault BadAccess
  else
    let ret := write fd (map (fun i => load8 m (buf + Z.of_nat i)) (seq 0 (Z.to_nat size))) in
    mret (if ret =? -1 then -1 else s32 size).

(** [puts]. *)
Definition puts {T} (putf : Z -> T -> T) (string : list Z) (s : T) : outcome T :=
  tfp_format putf ftoa [37; 115; 10] [VStr string] s.
End strings.

End Printf.
