(* ===== verification/PrintfProofs.v ===== *)
(** * PrintfProofs: the formatter of [Printf] prints what its format means

    Five modules: the digit loops ([PrintfDigits]), the meaning of formats ([PrintfSpec]), the formatter
    ([PrintfProofs]), numbers that are read back ([PrintfParse]), and the sinks of [snprintf] and
    [fprintf] ([PrintfSinks]). *)
From stdpp Require Import base list.
From Stdlib Require Import ZArith Lia.
From S2P Require Import Prelude Strto StrtoProofs Printf Mem32.


(** * PrintfDigits: the digit loops of [libc/stdio/printf.cpp]

    The loops that print an integer produce its numeral: the digits in the
    base, most significant first, without leading zeros.  The powers they
    compute stay below the number, so that the multiplication does not wrap. *)
Import Printf StrtoProofs.

Module PrintfDigits.

(** The numeral of [n], by repeated division; 64 digits are enough below [2^64]. *)
Fixpoint numeral_from (fuel : nat) (b n : Z) : list Z :=
  match fuel with
  | O => []
  | S fuel => if n <? b then [n] else numeral_from fuel b (n / b) ++ [n mod b]
  end.
Definition numeral (b n : Z) : list Z := numeral_from 64 b n.

(** [k] digits of [n], most significant first: what the division loop reads off. *)
Fixpoint radix (k : nat) (b n : Z) : list Z :=
  match k with
  | O => []
  | S k => n / b ^ Z.of_nat k :: radix k b (n mod b ^ Z.of_nat k)
  end.

Lemma pow_pos b (k : nat) : 0 < b -> 0 < b ^ Z.of_nat k.
Proof. intros. apply Z.pow_pos_nonneg; lia. Qed.
Lemma pow_S b (k : nat) : b ^ Z.of_nat (S k) = b * b ^ Z.of_nat k.
Proof. rewrite Nat2Z.inj_succ, Z.pow_succ_r by lia. done. Qed.
Lemma pow_two_le b (k : nat) : 2 <= b -> 2 ^ Z.of_nat k <= b ^ Z.of_nat k.
Proof. intros. apply Z.pow_le_mono_l. lia. Qed.
Lemma pow_exceeds b num (k : nat) : 2 <= b -> num < 2 ^ Z.of_nat k -> num < b ^ Z.of_nat k.
Proof. intros Hb Hn. pose proof (pow_two_le b k Hb). lia. Qed.

Lemma radix_snoc k b n : 2 <= b -> 0 <= n < b ^ Z.of_nat (S k) ->
  radix (S k) b n = radix k b (n / b) ++ [n mod b].
Proof.
  intros Hb. revert n. induction k as [|k IH]; intros n Hn.
  - simpl in *. rewrite Z.div_1_r, Z.mod_small by lia. done.
  - pose proof (pow_pos b k ltac:(lia)) as P. rewrite pow_S in Hn.
    pose proof (pow_pos b (S k) ltac:(lia)) as PS.
    change (radix (S (S k)) b n) with (n / b ^ Z.of_nat (S k) :: radix (S k) b (n mod b ^ Z.of_nat (S k))).
    rewrite IH by (apply Z.mod_pos_bound; lia). cbn [radix]. rewrite pow_S.
    rewrite Z.rem_mul_r, (Z.mul_comm b ((n / b) mod _)) by lia.
    rewrite Z.div_add, Z.mod_add by lia.
    rewrite (Z.div_small (n mod b)), Z.mod_mod by (try apply Z.mod_pos_bound; lia).
    rewrite Z.add_0_l, Z.div_div by lia. done.
Qed.

(** [k + 1] is the number of digits of [n]. *)
Definition has_digits (b n : Z) (k : nat) : Prop :=
  0 <= n < b ^ Z.of_nat (S k) /\ (k = 0%nat \/ b ^ Z.of_nat k <= n).

Lemma numeral_radix b k n fuel : 2 <= b -> has_digits b n k -> (k < fuel)%nat ->
  numeral_from fuel b n = radix (S k) b n.
Proof.
  intros Hb. revert n fuel. induction k as [|k IH]; intros n [|fuel] [Hn Hk] Hf; try lia; cbn [numeral_from].
  - rewrite Z.pow_1_r in Hn. destruct (Z.ltb_spec n b); [|lia]. simpl. by rewrite Z.div_1_r.
  - destruct Hk as [|Hk]; [lia|]. rewrite pow_S in Hk. pose proof (pow_pos b k ltac:(lia)) as P.
    destruct (Z.ltb_spec n b); [nia|].
    rewrite radix_snoc by lia. f_equal. apply IH; [|lia]. split.
    + split; [apply Z.div_pos; lia|]. apply Z.div_lt_upper_bound; [lia|]. rewrite <- pow_S. lia.
    + right. apply Z.div_le_lower_bound; lia.
Qed.

(** ** The two loops *)

Lemma scale_spec fuel w num b j : 2 <= b -> 0 <= num < 2 ^ w ->
  (j = 0%nat \/ b ^ Z.of_nat j <= num) -> num < b ^ Z.of_nat (j + fuel) -> (0 < fuel)%nat ->
  exists k, scale fuel w num b (b ^ Z.of_nat j) = Done (b ^ Z.of_nat k) /\ has_digits b num k.
Proof.
  intros Hb Hn. revert j. induction fuel as [|fuel IH]; intros j Hj Hf Hp; [lia|]. cbn [scale].
  pose proof (pow_pos b j ltac:(lia)) as P.
  destruct (Z.leb_spec b (num / b ^ Z.of_nat j)) as [L|L].
  - assert (b ^ Z.of_nat (S j) <= num) as Hle.
    { rewrite pow_S. pose proof (Z.mul_div_le num _ P). nia. }
    assert (uwrap w (b ^ Z.of_nat j * b) = b ^ Z.of_nat (S j)) as ->.
    { rewrite pow_S in *. rewrite uwrap_small by nia. lia. }
    assert (0 < fuel)%nat. { destruct fuel; [|lia]. rewrite Nat.add_1_r in Hf. lia. }
    apply IH; [by right| |done]. by rewrite Nat.add_succ_comm.
  - exists j. split; [done|]. split; [|done]. split; [lia|]. rewrite pow_S.
    pose proof (Z.mul_succ_div_gt num (b ^ Z.of_nat j) P). nia.
Qed.

Lemma emit_zero fuel num b n up : (0 < fuel)%nat -> emit fuel num b 0 n up = Done [].
Proof. by destruct fuel; [lia|]. Qed.

Lemma emit_spec fuel num b k n up : 2 <= b <= 16 -> 0 <= num < b ^ Z.of_nat (S k) -> 0 <= n ->
  (0 < n \/ k = 0%nat \/ b ^ Z.of_nat k <= num) -> (S k < fuel)%nat ->
  emit fuel num b (b ^ Z.of_nat k) n up = Done (map (digit up) (radix (S k) b num)).
Proof.
  intros Hb. revert num n fuel. induction k as [|k IH]; intros num n [|fuel] Hn Hn0 Hk Hf; try lia.
  - simpl in Hn. cbn [emit radix]. change (b ^ Z.of_nat 0) with 1. change (1 =? 0) with false. cbv iota.
    rewrite Z.div_1_r, (Z.div_small 1 b) by lia. rewrite Z.eqb_refl, orb_true_r. cbv iota.
    rewrite emit_zero by lia. rewrite swrap_small by lia. done.
  - pose proof (pow_pos b k ltac:(lia)) as P. pose proof (pow_pos b (S k) ltac:(lia)) as PS.
    rewrite (pow_S b (S k)) in Hn. cbn [emit]. rewrite (proj2 (Z.eqb_neq _ _)) by lia.
    assert (0 <= num / b ^ Z.of_nat (S k) < b) as Hq.
    { split; [apply Z.div_pos; lia|]. apply Z.div_lt_upper_bound; lia. }
    rewrite (swrap_small 32) by lia.
    assert (b ^ Z.of_nat (S k) / b = b ^ Z.of_nat k) as ->.
    { rewrite pow_S, (Z.mul_comm b). apply Z.div_mul. lia. }
    assert (negb (n =? 0) || (0 <? num / b ^ Z.of_nat (S k)) || (b ^ Z.of_nat k =? 0) = true) as ->.
    { destruct Hk as [Hk|[Hk|Hk]]; [|lia|].
      - by rewrite (proj2 (Z.eqb_neq _ _)) by lia.
      - rewrite (proj2 (Z.ltb_lt 0 _)); [by rewrite orb_true_r|]. apply Z.div_str_pos. lia. }
    rewrite IH; [done|apply Z.mod_pos_bound; lia|lia|lia|lia].
Qed.

(** The integer conversions write the numeral of the number. *)
Lemma u2a_spec w num p b : base p = Some b -> 2 <= b <= 16 -> 0 <= w <= 64 -> 0 <= num < 2 ^ w ->
  u2a w num p = Done (map (digit p.(uc)) (numeral b num)).
Proof.
  intros Hp Hb Hw Hn. unfold u2a. rewrite Hp. cbn [mbind outcome_bind].
  assert (num < 2 ^ 64) as H64 by (pose proof (Z.pow_le_mono_r 2 w 64); lia).
  assert (num < b ^ Z.of_nat (0 + 65)) as Hpow by (apply pow_exceeds; simpl; lia).
  destruct (scale_spec 65 w num b 0) as (k & E & Hk); [lia|done|by left|done|lia|].
  change (b ^ Z.of_nat 0) with 1 in E. rewrite E. cbn [mbind outcome_bind].
  assert (k < 64)%nat as Hlt.
  { destruct Hk as [_ [->|Hk]]; [lia|]. destruct (decide (k < 64)%nat) as [|Hge]; [done|exfalso].
    pose proof (pow_two_le b k ltac:(lia)). pose proof (Z.pow_le_mono_r 2 64 (Z.of_nat k)). lia. }
  destruct Hk as [Hk1 Hk2]. rewrite emit_spec; [|done|done|lia|tauto|lia].
  unfold numeral. rewrite (numeral_radix b k); [done|lia|done|lia].
Qed.

(** ** Numerals and their values *)

Lemma numeral_value b n : 2 <= b -> 0 <= n < 2 ^ 64 ->
  Forall (fun d => 0 <= d < b) (numeral b n) /\ value_from b 0 (numeral b n) = n /\ numeral b n <> [].
Proof.
  intros Hb. unfold numeral. change 64 with (Z.of_nat 64).
  assert (forall fuel, 0 <= n < 2 ^ Z.of_nat (S fuel) ->
    Forall (fun d => 0 <= d < b) (numeral_from (S fuel) b n) /\
    value_from b 0 (numeral_from (S fuel) b n) = n /\ numeral_from (S fuel) b n <> []) as G.
  2: { apply (G 63%nat). }
  intros fuel. revert n. induction fuel as [|fuel IH]; intros n Hn.
  - simpl in *. destruct (Z.ltb_spec n b); [|lia]. split_and!; [repeat constructor; lia|done|done].
  - rewrite pow_S in Hn. remember (S fuel) as fu. cbn [numeral_from]. destruct (Z.ltb_spec n b).
    { split_and!; [repeat constructor; lia|done|done]. }
    destruct (IH (n / b)) as (F & V & N).
    { split; [apply Z.div_pos; lia|]. apply Z.div_lt_upper_bound; [lia|]. nia. }
    split_and!.
    + apply Forall_app. split; [done|]. constructor; [apply Z.mod_pos_bound; lia|constructor].
    + rewrite value_from_snoc, V. pose proof (Z.div_mod n b). lia.
    + by destruct (numeral_from fu b (n / b)).
Qed.

End PrintfDigits.

(** * PrintfSpec: what a format string means

    Formats as data: literal characters and conversion directives with their
    flags, width, precision and size; the string that spells them; and the
    text they stand for.  [PrintfProofs] relates the formatter of [Printf] to
    this meaning. *)
Import Printf StrtoProofs PrintfDigits.

Module PrintfSpec.

Inductive flag := Minus | Zero | Hash.
Inductive size := Int | SizeT | Long | LongLong.
Inductive conv := Cu | Cd | Ci | Cx | CX | Cb | Cp | Co | Cc | Cs | Cf | CF | Cpercent.

#[export] Instance flag_eq_dec : EqDecision flag.
Proof. solve_decision. Defined.
#[export] Instance size_eq_dec : EqDecision size.
Proof. solve_decision. Defined.
#[export] Instance conv_eq_dec : EqDecision conv.
Proof. solve_decision. Defined.

(** The width and the precision are lists of decimal digits. *)
Record dir := mk_dir {
  d_flags : list flag; d_width : list Z; d_prec : option (list Z); d_size : size; d_conv : conv }.
Inductive item := Lit (c : Z) | Dir (d : dir).

(** ** Spelling *)

Definition flag_char (f : flag) : Z := match f with Minus => 45 | Zero => 48 | Hash => 35 end.
Definition size_chars (s : size) : list Z :=
  match s with Int => [] | SizeT => [122] | Long => [108] | LongLong => [108; 108] end.
Definition conv_char (c : conv) : Z :=
  match c with
  | Cu => 117 | Cd => 100 | Ci => 105 | Cx => 120 | CX => 88 | Cb => 98 | Cp => 112 | Co => 111
  | Cc => 99 | Cs => 115 | Cf => 102 | CF => 70 | Cpercent => 37
  end.
Definition digit_chars (ds : list Z) : list Z := map (fun d => d + 48) ds.
Definition prec_chars (o : option (list Z)) : list Z :=
  match o with None => [] | Some ds => 46 :: digit_chars ds end.
Definition dir_chars (d : dir) : list Z :=
  map flag_char d.(d_flags) ++ digit_chars d.(d_width) ++ prec_chars d.(d_prec) ++
  size_chars d.(d_size) ++ [conv_char d.(d_conv)].
Definition item_chars (i : item) : list Z :=
  match i with Lit c => [c] | Dir d => 37 :: dir_chars d end.
Definition format_chars (l : list item) : list Z := l ≫= item_chars.

(** ** Meaning *)

Definition has (f : flag) (d : dir) : bool := bool_decide (f ∈ d.(d_flags)).
(** A precision sets the zero padding as well. *)
Definition zeros (d : dir) : bool := has Zero d || bool_decide (is_Some d.(d_prec)).
Definition width_of (d : dir) : Z := value_from 10 0 d.(d_width).

(** [body] after its sign and prefix, filled to the width of the directive. *)
Definition padded (left zero : bool) (w : Z) (sgn pre body : list Z) : list Z :=
  let n := Z.to_nat (w - Z.of_nat (length (sgn ++ pre ++ body))) in
  if zero then sgn ++ pre ++ repeat 48 n ++ body
  else if left then (sgn ++ pre ++ body) ++ repeat 32 n
  else repeat 32 n ++ sgn ++ pre ++ body.
Definition pad (d : dir) : list Z -> list Z -> list Z -> list Z := padded (has Minus d) (zeros d) (width_of d).

Definition digits_text (up : bool) (b n : Z) : list Z := map (digit up) (numeral b n).

Section meaning.
Context {D : Type} (ftoa : D -> Z -> list Z).

Definition number_arg (s : size) (va : list (varg D)) : option (Z * Z * list (varg D)) :=
  match s, va with
  | LongLong, VLongLong z :: va => Some (u64 z, s64 z, va)
  | LongLong, _ => None
  | _, VWord z :: va => Some (u32 z, s32 z, va)
  | _, _ => None
  end.

Definition unsigned_text (d : dir) (up : bool) (b : Z) (pre : list Z) (va : list (varg D)) : option (list Z * list (varg D)) :=
  '(u, _, va) ← number_arg d.(d_size) va; Some (pad d [] pre (digits_text up b u), va).
Definition signed_text (d : dir) (va : list (varg D)) : option (list Z * list (varg D)) :=
  '(_, n, va) ← number_arg d.(d_size) va;
  Some (pad d (if n <? 0 then [45] else []) [] (digits_text false 10 (Z.abs n)), va).

(** The text of a directive and the arguments that remain. *)
Definition dir_text (d : dir) (va : list (varg D)) : option (list Z * list (varg D)) :=
  match d.(d_conv) with
  | Cu => unsigned_text d false 10 [] va
  | Cd | Ci => signed_text d va
  | Cx => unsigned_text d false 16 (if has Hash d then [48; 120] else []) va
  | CX => unsigned_text d true 16 (if has Hash d then [48; 88] else []) va
  | Cb => unsigned_text d false 2 [] va
  | Cp => unsigned_text d false 16 [48; 120] va
  | Co => unsigned_text d false 8 (if has Hash d then [48] else []) va
  | Cc => match va with VWord z :: va => Some ([u8 z], va) | _ => None end
  | Cs => match va with VStr s :: va => Some (pad d [] [] s, va) | _ => None end
  | Cf | CF =>
      match va, d.(d_prec) with
      | VDouble x :: va, Some ds => Some (pad d [] [] (ftoa x (value_from 10 0 ds)), va)
      | _, _ => None
      end
  | Cpercent => Some ([37], va)
  end.

Fixpoint format_text (l : list item) (va : list (varg D)) : option (list Z) :=
  match l with
  | [] => Some []
  | Lit c :: l => t ← format_text l va; Some (c :: t)
  | Dir d :: l => '(t1, va) ← dir_text d va; t2 ← format_text l va; Some (t1 ++ t2)
  end.
End meaning.

(** ** Well-formed directives *)

Definition decimal (ds : list Z) : Prop := Forall (fun d => 0 <= d < 10) ds /\ value_from 10 0 ds < 2 ^ 31.

(** The width does not start with a zero, which would be a flag; the precision
    fits its buffer; [#] belongs to the integers, and [o] and [p] take words. *)
Definition wf_dir (d : dir) : Prop :=
  decimal d.(d_width) /\ d.(d_width) !! 0%nat <> Some 0 /\
  match d.(d_prec) with None => True | Some ds => decimal ds /\ (length ds <= 63)%nat end /\
  match d.(d_conv) with
  | Cs | Cf | CF => has Hash d = false
  | Co | Cp => d.(d_size) <> LongLong
  | _ => True
  end.
Definition wf_item (i : item) : Prop :=
  match i with Lit c => c <> 0 /\ c <> 37 | Dir d => wf_dir d end.

End PrintfSpec.

(** * PrintfProofs: the formatter prints what its format means *)
Import Printf StrtoProofs PrintfDigits PrintfSpec.

Module PrintfProofs.

(** ** Padding *)

Lemma fill_count_spec bf n : 0 <= n -> fill_count bf n = Z.max 0 (n - Z.of_nat (length bf)).
Proof.
  revert n. induction bf as [|c bf IH]; intros n Hn; cbn [fill_count length]; [lia|].
  destruct (Z.ltb_spec 0 n); [rewrite IH by lia|]; lia.
Qed.

Lemma put_all_app {T} (putf : Z -> T -> T) l1 l2 s : put_all putf (l1 ++ l2) s = put_all putf l2 (put_all putf l1 s).
Proof. apply fold_left_app. Qed.

(** The sign and the prefix that [putchw] prints. *)
Definition sign_text (p : param) : list Z := if Ztrue p.(sign) then [p.(sign)] else [].
Definition prefix_text (p : param) (b : Z) : list Z :=
  if p.(alt) && (b =? 16) then [48; if p.(uc) then 88 else 120]
  else if p.(alt) && (b =? 8) then [48] else [].

(** The number of fill characters, as [putchw] computes it. *)
Lemma fill_length p b bf : 0 <= p.(width) < 2 ^ 31 ->
  Z.to_nat (let n := fill_count bf (s32 p.(width)) in
            let n := if Ztrue p.(sign) then s32 (n - 1) else n in
            if p.(alt) && (b =? 16) then s32 (n - 2) else if p.(alt) && (b =? 8) then s32 (n - 1) else n) =
  Z.to_nat (p.(width) - Z.of_nat (length (sign_text p ++ prefix_text p b ++ bf))).
Proof.
  intros Hw. rewrite (swrap_small 32 (width p)) by lia. rewrite fill_count_spec by lia. cbv zeta.
  unfold sign_text, prefix_text. rewrite !length_app.
  set (n := Z.max 0 _). assert (0 <= n < 2 ^ 31) by lia.
  destruct (Ztrue (sign p)), (alt p && (b =? 16)), (alt p && (b =? 8)); cbn [length];
    rewrite ?(swrap_small 32 (n - 1)), ?(swrap_small 32 (n - 2)), ?(swrap_small 32 (n - 1 - 1)),
      ?(swrap_small 32 (n - 1 - 2)) by lia; lia.
Qed.

Lemma putchw_spec {T} (putf : Z -> T -> T) bf p s b : 0 <= p.(width) < 2 ^ 31 ->
  (p.(alt) = true -> p.(base) = Some b) ->
  putchw putf bf p s =
    Done (put_all putf (padded p.(align_left) p.(lz) p.(width) (sign_text p) (prefix_text p b) bf) s).
Proof.
  intros Hw Hb. unfold putchw.
  assert (alt_base p = Done (if alt p then b else 0)) as ->.
  { unfold alt_base. destruct (alt p); [by rewrite Hb|done]. }
  cbn [mbind outcome_bind]. unfold put_fill, padded. rewrite <- fill_length by done. cbv zeta.
  set (n := Z.to_nat _). set (n' := Z.to_nat _).
  assert (n = n') as <- by (unfold n, n'; by destruct (alt p)).
  clearbody n. unfold mret, outcome_ret. f_equal. unfold sign_text, prefix_text.
  destruct (lz p), (align_left p), (Ztrue (sign p)), (alt p); simpl;
    try (destruct (b =? 16); [|destruct (b =? 8)]; simpl);
    rewrite ?put_all_app; try done.
Qed.

(** ** Reading a directive *)

(** A character that can follow the width or the precision. *)
Definition plain (c : Z) : Prop :=
  is_digit c = false /\ (a2d c < 0 \/ 10 < a2d c) /\ c ∉ [0; 35; 43; 45; 46; 48].

Definition lng_of (sz : size) : Z := match sz with Int => 0 | SizeT | Long => 1 | LongLong => 2 end.

Lemma size_conv_head sz cv rest : exists c r,
  size_chars sz ++ conv_char cv :: rest = c :: r /\ plain c /\ length_part c r = Done (conv_char cv, rest, lng_of sz).
Proof.
  destruct sz; simpl; eexists _, _; (split; [reflexivity|]); destruct cv;
    (split; [split_and!; [done|first [by left|by right]|by apply (bool_decide_unpack _)]|done]).
Qed.

(** A character that is no flag. *)
Definition no_flag (c : Z) : Prop := c ∉ [0; 35; 45; 48].

Lemma flag_in_cons (f g : flag) fl : bool_decide (f ∈ g :: fl) = bool_decide (f = g) || bool_decide (f ∈ fl).
Proof. rewrite <- bool_decide_or. apply bool_decide_ext, elem_of_cons. Qed.

Lemma flags_spec fl c rest p : no_flag c -> flags (map flag_char fl ++ c :: rest) p =
  Done (c, rest, mk_param (p.(lz) || bool_decide (Zero ∈ fl)) (p.(alt) || bool_decide (Hash ∈ fl)) p.(uc)
    (p.(align_left) || bool_decide (Minus ∈ fl)) p.(width) p.(precision) p.(sign) p.(base)).
Proof.
  intros Hc. revert p. induction fl as [|f fl IH]; intros p; cbn [map app flags].
  - unfold no_flag in Hc. rewrite !not_elem_of_cons in Hc. destruct Hc as (H0 & H1 & H2 & H3 & _).
    rewrite !(proj2 (Z.eqb_neq _ _)) by done. destruct p; simpl. by rewrite !orb_false_r.
  - rewrite !flag_in_cons. destruct f; cbn [flag_char Z.eqb Pos.eqb]; rewrite IH; destruct p; simpl;
      by rewrite ?orb_true_r.
Qed.

Lemma value_from_ge ds v : Forall (fun d => 0 <= d < 10) ds -> 0 <= v -> v <= value_from 10 v ds.
Proof.
  intros F. revert v. induction F as [|d ds Hd F IH]; intros v Hv; simpl; [lia|].
  specialize (IH (v * 10 + d)). unfold value_from in *. lia.
Qed.

Lemma a2d_digit d : 0 <= d < 10 -> a2d (d + 48) = d.
Proof. intros. unfold a2d. rewrite !(proj2 (Z.leb_le _ _)) by lia. simpl. lia. Qed.
Lemma is_digit_digit d : 0 <= d < 10 -> is_digit (d + 48) = true.
Proof. intros. unfold is_digit. by rewrite !(proj2 (Z.leb_le _ _)) by lia. Qed.

Lemma a2u_digits d ds c rest v : Forall (fun d => 0 <= d < 10) (d :: ds) -> 0 <= v ->
  value_from 10 v (d :: ds) < 2 ^ 31 -> a2d c < 0 \/ 10 < a2d c ->
  a2u (d + 48) (digit_chars ds ++ c :: rest) 10 v = Done (c, rest, value_from 10 v (d :: ds)).
Proof.
  intros F Hv Hlt Hc. revert d v F Hv Hlt. induction ds as [|d' ds IH]; intros d v F Hv Hlt;
    inversion F as [|? ? Hd F']; subst; pose proof (value_from_ge _ (v * 10 + d) F') as G;
    cbn [value_from fold_left] in *; fold (value_from 10 (v * 10 + d)) in *.
  - cbn [digit_chars map app a2u]. rewrite a2d_digit by done.
    rewrite (proj2 (Z.ltb_ge _ _)), (proj2 (Z.ltb_ge 10 _)) by lia. simpl in Hlt.
    rewrite (uwrap_small 32 (v * 10)), uwrap_small by lia.
    destruct Hc as [Hc|Hc].
    + destruct rest; simpl; by rewrite (proj2 (Z.ltb_lt (a2d c) 0)) by done.
    + destruct rest; simpl; by rewrite (proj2 (Z.ltb_ge (a2d c) 0)), (proj2 (Z.ltb_lt 10 _)) by lia.
  - cbn [digit_chars map app a2u]. rewrite a2d_digit by done.
    rewrite (proj2 (Z.ltb_ge _ _)), (proj2 (Z.ltb_ge 10 _)) by lia.
    rewrite (uwrap_small 32 (v * 10)), uwrap_small by lia.
    apply IH; [done|lia|done].
Qed.

Lemma read_prec_digits ds c rest acc : Forall (fun d => 0 <= d < 10) ds -> is_digit c = false ->
  (length acc + length ds <= 63)%nat ->
  read_prec (digit_chars ds ++ c :: rest) acc = Done (c, rest, acc ++ digit_chars ds ++ [c]).
Proof.
  intros F Hc. revert acc. induction F as [|d ds Hd F IH]; intros acc Hl; cbn [digit_chars map app read_prec length] in *;
    (destruct (Nat.leb_spec 64 (length acc)); [lia|]).
  - by rewrite Hc.
  - rewrite is_digit_digit by done. unfold digit_chars in IH. rewrite IH by (rewrite length_app; simpl; lia).
    by rewrite <- app_assoc.
Qed.

Lemma isdigit_digit d : 0 <= d < 10 -> Strto.isdigit (d + 48) = true.
Proof. intros. unfold Strto.isdigit, Strto._ASCIIRANGE. rewrite uwrap_small by lia. apply Z.ltb_lt. lia. Qed.

Lemma atoi_loop_digits ds c v : Forall (fun d => 0 <= d < 10) ds -> Strto.isdigit c = false ->
  Strto.atoi_loop (digit_chars ds ++ [c]) (s64 v) = s64 (value_from 10 v ds).
Proof.
  intros F Hc. revert v. induction F as [|d ds Hd F IH]; intros v; cbn [digit_chars map app Strto.atoi_loop].
  - by rewrite Hc.
  - rewrite isdigit_digit by done. rewrite Z.add_simpl_r, s64_step. apply IH.
Qed.

Lemma isdigit_plain c : plain c -> 0 <= c < 256 -> Strto.isdigit c = false.
Proof.
  intros (Hd & _) Hc. unfold is_digit in Hd. unfold Strto.isdigit, Strto._ASCIIRANGE, uwrap.
  apply Z.ltb_ge. apply andb_false_iff in Hd as [Hd|Hd]; apply Z.leb_gt in Hd.
  - rewrite <- (Z.mod_add _ 1), Z.mod_small by lia. lia.
  - rewrite Z.mod_small by lia. lia.
Qed.

Lemma prec_value_digits ds c : decimal ds -> plain c -> 0 <= c < 256 ->
  prec_value (digit_chars ds ++ [c]) = Done (value_from 10 0 ds).
Proof.
  intros [F Hlt] Hp Hc. pose proof (value_from_ge ds 0 F ltac:(lia)) as G.
  assert (u32 (Strto.atoi (digit_chars ds ++ [c])) = value_from 10 0 ds) as Ea.
  { unfold Strto.atoi.
    assert (forall x l, digit_chars ds ++ [c] = x :: l -> (x =? 45) = false /\ (x =? 43) = false) as Hx.
    { intros x l E. destruct F as [|d ds' Hd F]; simpl in E; injection E as <- <-.
      - destruct Hp as (_ & _ & Hp). rewrite !not_elem_of_cons in Hp. split; apply Z.eqb_neq; tauto.
      - split; apply Z.eqb_neq; lia. }
    destruct (digit_chars ds ++ [c]) as [|x l] eqn:E; [by destruct ds|].
    destruct (Hx x l eq_refl) as [-> ->]. rewrite <- E.
    change 0 with (s64 0) at 1. rewrite atoi_loop_digits by (done || by apply isdigit_plain).
    rewrite Z.mul_1_r, (swrap_small 64 (value_from 10 0 ds)), swrap_small, uwrap_small by lia. done. }
  unfold prec_value. rewrite Ea. destruct ds as [|d [|d' ds]]; simpl; try done.
  destruct Hp as (_ & _ & Hp). rewrite !not_elem_of_cons in Hp.
  by rewrite !(proj2 (Z.eqb_neq _ _)) by tauto.
Qed.

(** The parameters after the directive has been read. *)
Definition dir_param (d : dir) (p : param) : param :=
  mk_param (zeros d) (has Hash d) p.(uc) (has Minus d) (width_of d)
    (match d.(d_prec) with None => p.(precision) | Some ds => value_from 10 0 ds end) 0 p.(base).

Lemma dot_part_spec o sz cv rest p :
  match o with None => True | Some ds => decimal ds /\ (length ds <= 63)%nat end ->
  exists c r, prec_chars o ++ size_chars sz ++ conv_char cv :: rest = c :: r /\
    no_flag c /\ is_digit c = false /\ (a2d c < 0 \/ 10 < a2d c) /\
    exists c' r', size_chars sz ++ conv_char cv :: rest = c' :: r' /\
      length_part c' r' = Done (conv_char cv, rest, lng_of sz) /\
      dot_part c r p = Done (c', r', match o with None => p | Some ds => set_precision (value_from 10 0 ds) (set_lz p) end).
Proof.
  intros Ho. destruct (size_conv_head sz cv rest) as (c & r & E & Hp & Hl).
  assert (0 <= c < 256) as Hc by (destruct sz; simpl in E; injection E as <- <-; [destruct cv; simpl|..]; lia).
  rewrite E. destruct o as [ds|]; cbn [prec_chars app].
  - destruct Ho as [Ho Hlen]. eexists _, _. split; [done|].
    split; [by apply (bool_decide_unpack _)|]. split; [done|]. split; [by left|].
    exists c, r. split; [done|]. split; [done|]. unfold dot_part. cbn [Z.eqb Pos.eqb].
    rewrite (read_prec_digits ds c r []) by (try apply Ho; try apply Hp; simpl; lia).
    cbn [mbind outcome_bind app]. by rewrite prec_value_digits.
  - destruct Hp as (H1 & H2 & H3). rewrite !not_elem_of_cons in H3. eexists _, _. split; [done|].
    split. { unfold no_flag. rewrite !not_elem_of_cons. tauto. }
    split; [done|]. split; [done|]. exists c, r. split; [done|]. split; [done|].
    unfold dot_part. by rewrite (proj2 (Z.eqb_neq c 46)) by tauto.
Qed.

Lemma directive_spec d rest p : wf_dir d ->
  directive (dir_chars d ++ rest) p = Done (conv_char d.(d_conv), rest, dir_param d p, lng_of d.(d_size)).
Proof.
  destruct d as [fl w o sz cv]. intros (Hw & Hw0 & Ho & _). unfold dir_chars. cbn [d_flags d_width d_prec d_size d_conv] in *.
  rewrite <- !app_assoc. cbn [app]. unfold directive.
  set (p1 := mk_param (bool_decide (Zero ∈ fl)) (bool_decide (Hash ∈ fl)) p.(uc) (bool_decide (Minus ∈ fl))
    (value_from 10 0 w) p.(precision) 0 p.(base)).
  destruct (dot_part_spec o sz cv rest p1 Ho) as (c & r & E & Hf & Hd & Ha & c' & r' & E' & Hl & Hdot). rewrite E.
  destruct w as [|x w]; cbn [digit_chars map app].
  - rewrite flags_spec by done. cbn [mbind outcome_bind]. unfold width_part. rewrite Hd. cbn [mbind outcome_bind mret outcome_ret].
    match goal with |- context[dot_part c r ?q] => change q with p1 end. rewrite Hdot. cbn [mbind outcome_bind]. rewrite Hl.
    cbn [mbind outcome_bind]. unfold dir_param, zeros, has. cbn. by destruct o; rewrite ?orb_true_r, ?orb_false_r.
  - destruct Hw as [F Hw]. inversion F as [|? ? Hx F']; subst. simpl in Hw0.
    rewrite flags_spec.
    2: { unfold no_flag. rewrite !not_elem_of_cons. split_and!; try lia; [congruence || (intros ?; apply Hw0; f_equal; lia)|by apply not_elem_of_nil]. }
    cbn [mbind outcome_bind]. unfold width_part. rewrite is_digit_digit by done.
    change (map (fun d => d + 48) w) with (digit_chars w).
    rewrite (a2u_digits x w c r 0) by (done || lia). cbn [mbind outcome_bind mret outcome_ret set_width].
    match goal with |- context[dot_part c r ?q] => change q with p1 end. rewrite Hdot. cbn [mbind outcome_bind]. rewrite Hl.
    cbn [mbind outcome_bind]. unfold dir_param, zeros, has. cbn. by destruct o; rewrite ?orb_true_r, ?orb_false_r.
Qed.

(** ** Converting an argument *)

Lemma swrap_uwrap w z : 0 < w -> swrap w (uwrap w z) = swrap w z.
Proof.
  intros Hw. unfold swrap, uwrap. assert (0 < 2 ^ w) by (apply Z.pow_pos_nonneg; lia).
  by rewrite Zplus_mod_idemp_l.
Qed.

Lemma uwrap_opp_swrap w n : 0 < w -> - 2 ^ (w - 1) <= n < 0 -> uwrap w (swrap w (- n)) = - n.
Proof.
  intros Hw Hn. assert (2 ^ w = 2 * 2 ^ (w - 1)) as E by (rewrite <- Z.pow_succ_r by lia; f_equal; lia).
  destruct (decide (n = - 2 ^ (w - 1))) as [->|Hne].
  - rewrite Z.opp_involutive. unfold swrap, uwrap. rewrite <- (Z.mod_add _ 1) by lia.
    replace (_ - 2 ^ (w - 1) + 1 * 2 ^ w) with ((2 ^ (w - 1) + 2 ^ (w - 1)) mod 2 ^ w + 2 ^ (w - 1)) by lia.
    replace (2 ^ (w - 1) + 2 ^ (w - 1)) with (2 ^ w) by lia. rewrite Z.mod_same, Z.mod_small; lia.
  - rewrite swrap_small, uwrap_small by lia. done.
Qed.

Lemma uwrap_abs w n : 0 < w -> - 2 ^ (w - 1) <= n < 2 ^ (w - 1) ->
  uwrap w (if n <? 0 then swrap w (- n) else n) = Z.abs n.
Proof.
  intros Hw Hn. assert (2 ^ w = 2 * 2 ^ (w - 1)) as E by (rewrite <- Z.pow_succ_r by lia; f_equal; lia).
  destruct (Z.ltb_spec n 0); [rewrite uwrap_opp_swrap|rewrite uwrap_small]; lia.
Qed.

Lemma digits_text_low up b n : 2 <= b <= 10 -> 0 <= n < 2 ^ 64 -> map (digit up) (numeral b n) = digits_text false b n.
Proof.
  intros Hb Hn. destruct (numeral_value b n) as (F & _); [lia|done|]. unfold digits_text.
  induction F as [|d ds Hd F IH]; simpl; [done|]. rewrite IH. unfold digit. by rewrite (proj2 (Z.ltb_lt d 10)) by lia.
Qed.

Section convert.
Context {D T : Type} (putf : Z -> T -> T) (ftoa : D -> Z -> list Z).
Implicit Types (va : list (varg D)).

Lemma number_arg_range sz va u n va' : number_arg sz va = Some (u, n, va') ->
  0 <= u < 2 ^ 64 /\ - 2 ^ 63 <= n < 2 ^ 63.
Proof.
  intros E. assert (exists w z, 0 < w <= 64 /\ u = uwrap w z /\ n = swrap w z) as (w & z & Hw & -> & ->).
  { destruct sz, va as [|[z|z|x|s'] va]; try done; injection E as <- <- <-; first [by exists 32, z|by exists 64, z]. }
  pose proof (uwrap_range w z ltac:(lia)). pose proof (swrap_range w z ltac:(lia)).
  pose proof (Z.pow_le_mono_r 2 w 64). pose proof (Z.pow_le_mono_r 2 (w - 1) 63). lia.
Qed.

Lemma unsigned_arg_spec sz p va u n va' b : number_arg sz va = Some (u, n, va') ->
  base p = Some b -> 2 <= b <= 16 -> unsigned_arg (lng_of sz) p va = Done (digits_text p.(uc) b u, va').
Proof.
  intros E Hp Hb. destruct sz, va as [|[z|z|x|s'] va]; try done; injection E as <- <- <-;
    unfold unsigned_arg; simpl; unfold ui2a, uli2a, ulli2a;
    by (rewrite (u2a_spec _ _ p b) by (done || lia || (apply uwrap_range; lia))).
Qed.

(** The three signed conversions at their width. *)
Lemma signed_digits w n p : (w = 32 \/ w = 64) -> base p = Some 10 -> - 2 ^ (w - 1) <= n < 2 ^ (w - 1) ->
  (let '(n, p) := if n <? 0 then (swrap w (- n), set_sign 45 p) else (n, p) in
   bf ← u2a w (uwrap w n) p; mret (bf, p)) =
  Done (digits_text false 10 (Z.abs n), if n <? 0 then set_sign 45 p else p).
Proof.
  intros Hw Hp Hn. pose proof (uwrap_abs w n ltac:(lia) Hn) as E.
  assert (2 ^ w = 2 * 2 ^ (w - 1)) as E2 by (rewrite <- Z.pow_succ_r by lia; f_equal; lia).
  assert (2 ^ w <= 2 ^ 64) by (apply Z.pow_le_mono_r; lia).
  destruct (n <? 0) eqn:L; cbv iota zeta beta; rewrite E; erewrite u2a_spec by (done || lia);
    cbn [mbind outcome_bind]; by rewrite digits_text_low by lia.
Qed.

Lemma signed_arg_spec sz p va u n va' : number_arg sz va = Some (u, n, va') -> base p = Some 10 ->
  signed_arg (lng_of sz) p va =
    Done (digits_text false 10 (Z.abs n), if n <? 0 then set_sign 45 p else p, va').
Proof.
  intros E Hp. destruct sz, va as [|[z|z|x|s'] va]; try done; injection E as <- <- <-;
    unfold signed_arg; cbn [lng_of Z.eqb Pos.eqb arg_word arg_long_long mbind outcome_bind];
    rewrite swrap_uwrap by lia; unfold i2a, li2a, lli2a, ui2a, uli2a, ulli2a;
    rewrite signed_digits by (auto || by apply swrap_range); done.
Qed.

Lemma wf_width d : wf_dir d -> 0 <= width_of d < 2 ^ 31.
Proof. intros ([F Hw] & _). pose proof (value_from_ge _ 0 F). unfold width_of. lia. Qed.

(** The parameters of the conversion [d] once its base is set. *)
Definition fits (d : dir) (q : param) : Prop :=
  q.(lz) = zeros d /\ q.(align_left) = has Minus d /\ q.(width) = width_of d /\ q.(sign) = 0.

Lemma fits_putchw d q bf b s : wf_dir d -> fits d q -> (q.(alt) = true -> q.(base) = Some b) ->
  putchw putf bf q s = Done (put_all putf (pad d [] (prefix_text q b) bf) s).
Proof.
  intros W (Hl & Ha & Hw & Hs) Hb. pose proof (wf_width d W). rewrite (putchw_spec putf bf q s b); [|by rewrite Hw|done].
  unfold pad, sign_text. by rewrite Hl, Ha, Hw, Hs.
Qed.

Lemma convert_unsigned d q sz b up pre va t va' s : wf_dir d -> fits d q -> base q = Some b -> 2 <= b <= 16 ->
  (uc q = up \/ b <= 10) -> prefix_text q b = pre ->
  (forall va, number_arg (D:=D) d.(d_size) va = number_arg sz va) -> unsigned_text d up b pre va = Some (t, va') ->
  ('(bf, va) ← unsigned_arg (lng_of sz) q va; s ← putchw putf bf q s; mret (q, va, s)) =
    Done (q, va', put_all putf t s).
Proof.
  intros W F Hb Hr Hu <- Hsz E. unfold unsigned_text in E. rewrite Hsz in E.
  destruct (number_arg sz va) as [[[u n] va1]|] eqn:En; [|done]. cbn [mbind option_bind] in E. injection E as <- <-.
  rewrite (unsigned_arg_spec _ _ _ _ _ _ _ En Hb Hr). cbn [mbind outcome_bind].
  rewrite (fits_putchw d q _ b) by done. cbn [mbind outcome_bind]. unfold mret, outcome_ret. do 3 f_equal.
  destruct (number_arg_range _ _ _ _ _ En). f_equal.
  destruct Hu as [<-|Hu]; [done|]. unfold digits_text at 1. rewrite digits_text_low by lia.
  symmetry. unfold digits_text at 1. by rewrite digits_text_low by lia.
Qed.

Lemma convert_signed d q va t va' s : wf_dir d -> fits d q -> base q = Some 10 ->
  signed_text d va = Some (t, va') -> exists q',
  ('(bf, p, va) ← signed_arg (lng_of d.(d_size)) q va; s ← putchw putf bf p s; mret (p, va, s)) =
    Done (q', va', put_all putf t s).
Proof.
  intros W F Hb E. unfold signed_text in E.
  destruct (number_arg (d_size d) va) as [[[u n] va1]|] eqn:En; [|done]. cbn [mbind option_bind] in E. injection E as <- <-.
  rewrite (signed_arg_spec _ _ _ _ _ _ En Hb). cbn [mbind outcome_bind].
  pose proof (wf_width d W). destruct F as (Hl & Ha & Hw & Hs).
  exists (if n <? 0 then set_sign 45 q else q). rewrite (putchw_spec putf _ _ s 10).
  - cbn [mbind outcome_bind]. unfold mret, outcome_ret. do 3 f_equal. unfold pad. rewrite <- Hl, <- Ha, <- Hw.
    assert (forall q', prefix_text q' 10 = []) as -> by (intros q'; unfold prefix_text; by destruct (alt q')).
    assert (sign_text q = []) as Hsq by (unfold sign_text; by rewrite Hs).
    destruct (n <? 0); [done|by rewrite Hsq].
  - destruct (n <? 0); cbn [set_sign width]; by rewrite Hw.
  - by destruct (n <? 0).
Qed.

Lemma convert_double d p va t va' s : wf_dir d -> d.(d_conv) = Cf \/ d.(d_conv) = CF ->
  match va, d.(d_prec) with
  | VDouble x :: va, Some ds => Some (pad d [] [] (ftoa x (value_from 10 0 ds)), va)
  | _, _ => None
  end = Some (t, va') ->
  exists p', ('(x, va) ← arg_double va; s ← putchw putf (ftoa x (s32 (precision (dir_param d p)))) (dir_param d p) s;
    mret (dir_param d p, va, s)) = Done (p', va', put_all putf t s).
Proof.
  intros W Hc E. destruct va as [|[] va]; try done. destruct (d_prec d) as [ds|] eqn:Ep; [|done]. injection E as <- <-.
  assert (has Hash d = false) as Hh by (destruct W as (_ & _ & _ & Hcv); by destruct Hc as [Hc|Hc]; rewrite Hc in Hcv).
  exists (dir_param d p). cbn [arg_double mbind outcome_bind]. cbn [dir_param precision]. rewrite Ep.
  rewrite swrap_small.
  - rewrite (fits_putchw d _ _ 0 s W); [|done|cbn; by rewrite Hh]. cbn [mbind outcome_bind].
    unfold prefix_text. cbn [dir_param alt]. by rewrite Hh.
  - lia.
  - destruct W as (_ & _ & Hp & _). rewrite Ep in Hp. destruct Hp as [[F Hlt] _].
    pose proof (value_from_ge ds 0 F). lia.
Qed.

Ltac solve_conversion d :=
  try done; try lia; try (by left); try (by right); 
  try (unfold prefix_text; cbn [set_base set_uc set_alt dir_param alt uc]; by destruct (has Hash d)).

(** A directive prints its text and takes its arguments. *)
Lemma convert_spec d p va t va' s : wf_dir d -> dir_text ftoa d va = Some (t, va') ->
  exists p', convert putf ftoa (conv_char d.(d_conv)) (lng_of d.(d_size)) (dir_param d p) va s =
    Done (p', va', put_all putf t s).
Proof.
  intros W E. assert (fits d (dir_param d p)) as F by done. unfold dir_text in E. unfold convert.
  destruct (d_conv d) eqn:Ecv; cbn [conv_char Z.eqb Pos.eqb orb]; cbv zeta.
  - eexists. refine (convert_unsigned d _ (d_size d) _ _ _ _ _ _ _ W _ _ _ _ _ _ E); solve_conversion d.
  - eapply convert_signed; done.
  - eapply convert_signed; done.
  - eexists. refine (convert_unsigned d _ (d_size d) _ _ _ _ _ _ _ W _ _ _ _ _ _ E); solve_conversion d.
  - eexists. refine (convert_unsigned d _ (d_size d) _ _ _ _ _ _ _ W _ _ _ _ _ _ E); solve_conversion d.
  - eexists. refine (convert_unsigned d _ (d_size d) _ _ _ _ _ _ _ W _ _ _ _ _ _ E); solve_conversion d.
  - eexists. refine (convert_unsigned d _ Int _ _ _ _ _ _ _ W _ _ _ _ _ _ E); solve_conversion d.
    intros va1. destruct W as (_ & _ & _ & Hcv). rewrite Ecv in Hcv. by destruct (d_size d).
  - eexists. 
    rewrite <- (convert_unsigned d (set_base 8 (dir_param d p)) Int 8 false (if has Hash d then [48] else []) va t va' s W); solve_conversion d.
    + destruct va as [|[]]; try done. unfold unsigned_arg. cbn [lng_of Z.eqb Pos.eqb arg_word mbind outcome_bind].
      by destruct (ui2a _ _).
    + intros va1. destruct W as (_ & _ & _ & Hcv). rewrite Ecv in Hcv. by destruct (d_size d).
  - destruct va as [|[] va]; try done. injection E as <- <-. eexists. cbn. unfold mret, outcome_ret.
    do 3 f_equal. unfold uwrap. by rewrite Z.mod_mod_divide by (by exists (2 ^ 24)).
  - assert (has Hash d = false) as Hh by (destruct W as (_ & _ & _ & Hcv); by rewrite Ecv in Hcv).
    destruct va as [|[] va]; try done. injection E as <- <-. exists (dir_param d p). cbn [arg_str mbind outcome_bind].
    rewrite (fits_putchw d _ _ 0 s W); [|done|cbn; by rewrite Hh]. cbn [mbind outcome_bind].
    unfold prefix_text. cbn [dir_param alt]. by rewrite Hh.
  - apply (convert_double d); auto.
  - apply (convert_double d); auto.
  - injection E as <- <-. by eexists.
Qed.

(** ** The whole format *)

Lemma tfp_loop_spec l p va t s fuel : Forall wf_item l -> format_text ftoa l va = Some t ->
  (length (format_chars l) < fuel)%nat ->
  tfp_loop putf ftoa fuel (format_chars l ++ [0]) p va s = Done (put_all putf t s).
Proof.
  intros W. revert p va t s fuel. induction W as [|[c|d] l Hi W IH]; intros p va t s [|fuel] E Hf; try lia.
  - injection E as <-. done.
  - cbn [format_text] in E. destruct (format_text ftoa l va) as [t'|] eqn:Et; [|done]. injection E as <-.
    destruct Hi as [H0 H37]. assert (format_chars (Lit c :: l) = c :: format_chars l) as Ef by done.
    rewrite Ef in *. cbn [app tfp_loop next mbind outcome_bind length] in *.
    rewrite (proj2 (Z.eqb_neq c 0)), (proj2 (Z.eqb_neq c 37)) by done. cbn [negb].
    rewrite IH with (t := t'); [done|done|lia].
  - cbn [format_text] in E. destruct (dir_text ftoa d va) as [[t1 va1]|] eqn:Ed; [|done].
    cbn [mbind option_bind] in E. destruct (format_text ftoa l va1) as [t2|] eqn:Et; [|done]. injection E as <-.
    assert (format_chars (Dir d :: l) = 37 :: dir_chars d ++ format_chars l) as Ef by done.
    rewrite Ef in *. cbn [app tfp_loop next mbind outcome_bind length] in *.
    change (37 =? 0) with false. change (37 =? 37) with true. cbn [negb].
    rewrite <- app_assoc, directive_spec by done. cbn [mbind outcome_bind].
    destruct (convert_spec d p va t1 va1 s Hi Ed) as (p' & Ec).
    assert ((conv_char (d_conv d) =? 0) = false) as -> by (by destruct (d_conv d)).
    rewrite Ec. cbn [mbind outcome_bind]. rewrite IH with (t := t2); [by rewrite put_all_app|done|].
    rewrite length_app in Hf. lia.
Qed.

Lemma tfp_format_text l va t s : Forall wf_item l -> format_text ftoa l va = Some t ->
  tfp_format putf ftoa (format_chars l) va s = Done (put_all putf t s).
Proof. intros W E. unfold tfp_format. apply tfp_loop_spec; [done|done|lia]. Qed.
End convert.

End PrintfProofs.


(** * PrintfParse: printed integers are read back by [strtoll] *)
Import Strto Printf StrtoProofs PrintfDigits PrintfSpec PrintfProofs.

Module PrintfParse.

(** ** The characters of a number *)

(** [c] is read as the digit [d] in [base], wherever it stands in the number. *)
Definition char_ok (b c d : Z) : Prop :=
  index_narrow b c = Some d /\ isspace c = false /\ c <> 45 /\ c <> 43 /\ c <> 120.

#[export] Instance char_ok_dec b c d : Decision (char_ok b c d).
Proof. apply _. Defined.

Lemma digit_ok_table :
  forallb (fun b => forallb (fun d => forallb (fun up => bool_decide (char_ok b (digit up d) d)) [true; false])
    (seqZ 0 b)) (seqZ 2 15) = true.
Proof. vm_compute. reflexivity. Qed.

Lemma digit_ok b up d : 2 <= b <= 16 -> 0 <= d < b -> char_ok b (digit up d) d.
Proof.
  intros Hb Hd. pose proof digit_ok_table as T. rewrite forallb_forall in T.
  specialize (T b). rewrite <- list_elem_of_In, elem_of_seqZ in T. specialize (T ltac:(lia)).
  rewrite forallb_forall in T. specialize (T d). rewrite <- list_elem_of_In, elem_of_seqZ in T.
  specialize (T ltac:(lia)). rewrite forallb_forall in T. apply (bool_decide_eq_true_1 _), (T up).
  destruct up; simpl; auto.
Qed.

Lemma zero_ok b : 2 <= b <= 16 -> char_ok b 48 0.
Proof. intros. by apply (digit_ok b false 0); [|lia]. Qed.

Lemma parse_digits_chars b cs ds rest v :
  Forall2 (char_ok b) cs ds -> not_digit b rest ->
  parse_digits index_narrow b (cs ++ rest) (s64 v) = (s64 (value_from b v ds), rest).
Proof.
  intros F Hr. revert v. induction F as [|c d cs ds Hc F IH]; intros v; simpl.
  - destruct rest as [|c rest]; simpl; [done|]. simpl in Hr. by rewrite Hr.
  - destruct Hc as (-> & _). rewrite s64_step. by rewrite IH.
Qed.

(** The prefix that [parse_prefix] removes, if there is one. *)
Definition prefix_ok (b : Z) (pre : list Z) : Prop := pre = [] \/ (b = 16 /\ pre = [48; 120]).

Lemma parse_prefix_chars b pre cs ds rest : 2 <= b <= 16 -> prefix_ok b pre -> Forall2 (char_ok b) cs ds ->
  cs <> [] -> cur rest <> 120 -> parse_prefix b (pre ++ cs ++ rest) = (b, cs ++ rest).
Proof.
  intros Hb Hp F Hn Hr. unfold parse_prefix. assert ((b =? 0) = false) as E0 by (apply Z.eqb_neq; lia).
  rewrite E0. cbn [orb]. destruct Hp as [->|[-> ->]]; [|reflexivity].
  assert (forall str, (let '(b', str) := (b, str) in
    ((if (if b' =? 0 then if cur str =? 48 then 8 else b' else b') =? 0 then 10
      else if b' =? 0 then if cur str =? 48 then 8 else b' else b'), str)) = (b, str)) as K.
  { intros str. cbv iota zeta. rewrite E0. cbv iota. by rewrite E0. }
  destruct (b =? 16); [|apply K]. cbn [app].
  destruct F as [|c d cs ds Hc F]; [done|]. cbn [app]. destruct F as [|c' d' cs ds Hc' F]; cbn [app].
  - destruct rest as [|c' rest]; [apply K|]. simpl in Hr.
    rewrite (proj2 (Z.eqb_neq c' 120)), andb_false_r by done. apply K.
  - destruct Hc' as (_ & _ & _ & _ & Hx). rewrite (proj2 (Z.eqb_neq c' 120)), andb_false_r by done. apply K.
Qed.

Lemma strtoll_chars b (neg : bool) spaces pre cs ds rest : 2 <= b <= 16 ->
  Forall (fun c => isspace c = true) spaces -> prefix_ok b pre -> Forall2 (char_ok b) cs ds -> cs <> [] ->
  not_digit b rest -> cur rest <> 120 ->
  strtoll (spaces ++ (if neg then [45] else []) ++ pre ++ cs ++ rest) b =
    (s64 (if neg then - value_from b 0 ds else value_from b 0 ds), Some rest).
Proof.
  intros Hb Hs Hp F Hn Hd Hx. unfold strtoll, strtoll_gen.
  rewrite (proj2 (Z.eqb_neq b 0)), (proj2 (Z.ltb_ge b 2)), (proj2 (Z.ltb_ge 36 b)) by lia. cbn [negb orb andb].
  rewrite skip_spaces_app by done.
  assert (exists x l, pre ++ cs ++ rest = x :: l /\ isspace x = false /\ x <> 45 /\ x <> 43) as (x & l & E & H1 & H2 & H3).
  { destruct F as [|c d cs ds Hc F]; [done|]. destruct Hc as (_ & ? & ? & ? & _).
    destruct Hp as [->|[_ ->]]; eexists _, _; (split; [reflexivity|]); split_and!; done. }
  pose proof (parse_prefix_chars b pre cs ds rest Hb Hp F Hn Hx) as EP. rewrite E in *.
  assert (parse_digits index_narrow b (cs ++ rest) 0 = (s64 (value_from b 0 ds), rest)) as ED
    by (change 0 with (s64 0) at 1; by apply parse_digits_chars).
  destruct neg; cbn [app skip_spaces].
  - change (isspace 45) with false. cbn [parse_sign]. change (45 =? 45) with true. cbv iota.
    rewrite EP, ED. by rewrite s64_opp.
  - rewrite H1. cbn [parse_sign]. rewrite (proj2 (Z.eqb_neq x 45)), (proj2 (Z.eqb_neq x 43)) by done. cbv iota.
    by rewrite EP, ED.
Qed.

(** ** Padding *)

Lemma spaces_space n : Forall (fun c => isspace c = true) (repeat 32 n).
Proof. induction n; simpl; constructor; done. Qed.

Lemma zeros_ok b n : 2 <= b <= 16 -> Forall2 (char_ok b) (repeat 48 n) (repeat 0 n).
Proof. intros Hb. induction n; simpl; constructor; auto using zero_ok. Qed.

Lemma digits_ok b up ds : 2 <= b <= 16 -> Forall (fun d => 0 <= d < b) ds -> Forall2 (char_ok b) (map (digit up) ds) ds.
Proof. intros Hb. induction 1; simpl; constructor; auto using digit_ok. Qed.

Lemma value_from_zeros b n ds : value_from b 0 (repeat 0 n ++ ds) = value_from b 0 ds.
Proof. induction n as [|n IH]; simpl; [done|]. unfold value_from in *. simpl. by rewrite Z.add_0_r. Qed.

(** Blanks in front, zeros after the prefix or blanks behind do not change what is read. *)
Lemma strtoll_padded b (left zero neg up : bool) w pre k ds : 2 <= b <= 16 ->
  Forall (fun d => 0 <= d < b) ds -> ds <> [] -> prefix_ok b pre ->
  (strtoll (padded left zero w (if neg then [45] else []) (pre ++ repeat 48 k) (map (digit up) ds)) b).1 =
    s64 (if neg then - value_from b 0 ds else value_from b 0 ds).
Proof.
  intros Hb F Hn Hp. unfold padded. set (n := Z.to_nat _). clearbody n.
  set (sgn := if neg then [45] else []).
  assert (forall (j i m : nat), (strtoll (repeat 32 i ++ sgn ++ pre ++ (repeat 48 j ++ map (digit up) ds) ++ repeat 32 m) b).1 =
    s64 (if neg then - value_from b 0 ds else value_from b 0 ds)) as G.
  { intros j i m. unfold sgn. rewrite (strtoll_chars b neg _ pre _ (repeat 0 j ++ ds)); simpl.
    - by rewrite value_from_zeros.
    - done.
    - apply spaces_space.
    - done.
    - apply Forall2_app; auto using zeros_ok, digits_ok.
    - destruct ds; [done|]. by destruct j.
    - destruct m; [done|]. cbn [repeat not_digit]. assert (forall k, (k <= 36)%nat -> memchr alphabet 32 k = None) as A.
      { intros k' Hk. do 37 (destruct k' as [|k']; [done|]). lia. }
      unfold index_narrow. change (tolower 32) with 32. apply A. lia.
    - by destruct m. }
  destruct zero; [|destruct left].
  - rewrite <- (G (k + n)%nat 0%nat 0%nat). simpl. by rewrite repeat_app, app_nil_r, <- !app_assoc.
  - rewrite <- (G k 0%nat n). simpl. by rewrite <- !app_assoc.
  - rewrite <- (G k n 0%nat). by rewrite app_nil_r, <- !app_assoc.
Qed.

(** ** Printing and parsing *)

(** The base of an integer conversion, and whether it is signed. *)
Definition integer_conv (cv : conv) : option (Z * bool) :=
  match cv with
  | Cd | Ci => Some (10, true)
  | Cu => Some (10, false)
  | Cx | CX | Cp => Some (16, false)
  | Cb => Some (2, false)
  | Co => Some (8, false)
  | _ => None
  end.

(** The sink that keeps the characters. *)
Definition snoc (c : Z) (l : list Z) : list Z := l ++ [c].

Lemma put_all_snoc t l : put_all snoc t l = l ++ t.
Proof.
  revert l. induction t as [|c t IH]; intros l; cbn [put_all fold_left]; [by rewrite app_nil_r|].
  change (put_all snoc t (snoc c l) = l ++ c :: t). rewrite IH. unfold snoc. by rewrite <- app_assoc.
Qed.

Section parse.
Context {D : Type} (ftoa : D -> Z -> list Z).
Implicit Types (va : list (varg D)).

Lemma unsigned_text_parses d up b pre k va u n va' : 2 <= b <= 16 -> prefix_ok b pre ->
  number_arg d.(d_size) va = Some (u, n, va') ->
  exists t, unsigned_text d up b (pre ++ repeat 48 k) va = Some (t, va') /\ (strtoull t b).1 = u.
Proof.
  intros Hb Hp En. unfold unsigned_text. rewrite En. cbn [mbind option_bind]. eexists. split; [done|].
  destruct (number_arg_range _ _ _ _ _ En) as [Hu _]. destruct (numeral_value b u) as (F & V & N); [lia|done|].
  unfold strtoull, with_result. cbn [fst]. unfold pad, digits_text.
  rewrite (strtoll_padded b _ _ false up _ pre k _ Hb F N Hp). cbv iota. rewrite V.
  destruct (swrap_mod 64 u) as [j ->]; [lia|]. unfold uwrap. rewrite Z.mod_add, Z.mod_small by lia. done.
Qed.

Lemma signed_text_parses d va u n va' : number_arg d.(d_size) va = Some (u, n, va') ->
  exists t, signed_text d va = Some (t, va') /\ (strtoll t 10).1 = n.
Proof.
  intros En. unfold signed_text. rewrite En. cbn [mbind option_bind]. eexists. split; [done|].
  destruct (number_arg_range _ _ _ _ _ En) as [_ Hn].
  destruct (numeral_value 10 (Z.abs n)) as (F & V & N); [lia|lia|]. unfold pad, digits_text.
  pose proof (strtoll_padded 10 (has Minus d) (zeros d) (n <? 0) false (width_of d) [] 0 _ ltac:(lia) F N (or_introl eq_refl)) as E.
  cbn [app repeat] in E. rewrite E, V. destruct (Z.ltb_spec n 0); rewrite swrap_small; lia.
Qed.

(** C25: Printed integers are read back: whatever the flags, width and size of a directive [%d], [%i],
    [%u], [%x], [%X], [%b], [%p] or [%o], the text that [tfp_format] prints for an argument is
    parsed by [strtoll] or [strtoull], in the base of the conversion, to the value of the
    argument, the most negative number and the largest 64-bit number included.  ([%#X] is
    excepted: [strtoll] does not know the prefix [0X].) *)
Theorem printed_number_parses d va u n va' b (sg : bool) : wf_dir d ->
  integer_conv d.(d_conv) = Some (b, sg) -> (d.(d_conv) = CX -> has Hash d = false) ->
  number_arg d.(d_size) va = Some (u, n, va') ->
  exists t, tfp_format snoc ftoa (format_chars [Dir d]) va [] = Done t /\
    if sg then (strtoll t b).1 = n else (strtoull t b).1 = u.
Proof.
  intros W Hi Hx En.
  assert (exists t, dir_text ftoa d va = Some (t, va') /\ if sg then (strtoll t b).1 = n else (strtoull t b).1 = u)
    as (t & Et & Hp).
  2: { exists t. split; [|done]. rewrite (tfp_format_text snoc ftoa [Dir d] va t []); [by rewrite put_all_snoc| |].
       - by constructor.
       - cbn [format_text]. rewrite Et. cbn [mbind option_bind]. by rewrite app_nil_r. }
  unfold dir_text. destruct (d_conv d); try done; injection Hi as <- <-.
  - eapply (unsigned_text_parses d false 10 [] 0); [lia|by left|done].
  - by eapply signed_text_parses.
  - by eapply signed_text_parses.
  - destruct (has Hash d).
    + eapply (unsigned_text_parses d false 16 [48; 120] 0); [lia|by right|done].
    + eapply (unsigned_text_parses d false 16 [] 0); [lia|by left|done].
  - rewrite Hx by done. eapply (unsigned_text_parses d true 16 [] 0); [lia|by left|done].
  - eapply (unsigned_text_parses d false 2 [] 0); [lia|by left|done].
  - eapply (unsigned_text_parses d false 16 [48; 120] 0); [lia|by right|done].
  - destruct (has Hash d).
    + eapply (unsigned_text_parses d false 8 [] 1); [lia|by left|done].
    + eapply (unsigned_text_parses d false 8 [] 0); [lia|by left|done].
Qed.
End parse.

(** [%#12x] of the largest word, and [%d] of the most negative one. *)
Lemma printed_number_parses_witness :
  (exists t, tfp_format snoc (fun (_ : unit) _ => []) [37; 35; 49; 50; 120] [VWord 0xffffffff] [] = Done t /\
    (strtoull t 16).1 = 0xffffffff) /\
  (exists t, tfp_format snoc (fun (_ : unit) _ => []) [37; 100] [VWord 0x80000000] [] = Done t /\
    (strtoll t 10).1 = -2147483648).
Proof.
  split.
  - apply (printed_number_parses (fun (_ : unit) _ => []) (mk_dir [Hash] [1; 2] None Int Cx) [VWord 0xffffffff] 0xffffffff (-1) [] 16 false);
      [|reflexivity|discriminate|reflexivity].
    repeat constructor; simpl; try lia; done.
  - apply (printed_number_parses (fun (_ : unit) _ => []) (mk_dir [] [] None Int Cd) [VWord 0x80000000] 0x80000000 (-2147483648) [] 10 true);
      [|reflexivity|discriminate|reflexivity].
    repeat constructor; simpl; try lia; done.
Defined.

(** [%#X] is read back as 0: the prefix [0X] ends the number. *)
Lemma upper_prefix_not_parsed :
  tfp_format snoc (fun (_ : unit) _ => []) [37; 35; 88] [VWord 31] [] = Done [48; 88; 49; 70] /\
  strtoull [48; 88; 49; 70] 16 = (0, Some [88; 49; 70]).
Proof. split; vm_compute; reflexivity. Qed.

End PrintfParse.

(** * PrintfSinks: [snprintf] and the other sinks of the formatter

    The characters a format produces do not depend on the sink; what a sink
    does with them follows by induction on the text.  [snprintf] stays inside
    its buffer and terminates the string for every format. *)
Import Printf StrtoProofs PrintfDigits PrintfSpec PrintfProofs PrintfParse.

Module PrintfSinks.

(** ** Every sink receives the same text *)

Definition omap {A B} (f : A -> B) (o : outcome A) : outcome B :=
  match o with Done a => Done (f a) | Fault e => Fault e end.

Section simulation.
Context {D T1 T2 : Type} (putf1 : Z -> T1 -> T1) (putf2 : Z -> T2 -> T2) (h : T1 -> T2).
Context (ftoa : D -> Z -> list Z).
Hypothesis h_put : forall c s, h (putf1 c s) = putf2 c (h s).

Lemma put_all_sim l s : put_all putf2 l (h s) = h (put_all putf1 l s).
Proof.
  revert s. induction l as [|c l IH]; intros s; [done|].
  change (put_all putf2 l (putf2 c (h s)) = h (put_all putf1 l (putf1 c s))). by rewrite <- h_put.
Qed.

Lemma putchw_sim bf p s : putchw putf2 bf p (h s) = omap h (putchw putf1 bf p s).
Proof.
  unfold putchw. destruct (alt_base p) as [b|e]; [|done]. cbn [mbind outcome_bind omap mret outcome_ret].
  f_equal. unfold put_fill.
  destruct (lz p), (align_left p), (Ztrue (sign p)), (alt p); cbn [negb andb];
    try (destruct (b =? 16); [|destruct (b =? 8)]); by rewrite <- ?put_all_sim, ?h_put, <- ?put_all_sim, ?h_put.
Qed.

Lemma convert_sim ch lng p va s :
  convert putf2 ftoa ch lng p va (h s) = omap (fun '(p, va, s) => (p, va, h s)) (convert putf1 ftoa ch lng p va s).
Proof.
  unfold convert.
  repeat match goal with |- context[if ?b then _ else _] => destruct b; cbv zeta iota end;
    try done; try (by rewrite <- h_put);
    repeat (match goal with
            | |- context[mbind _ ?o] => destruct o as [?|?]; [|done]; cbn [mbind outcome_bind]
            | x : _ * _ |- _ => destruct x
            end);
    cbn [mbind outcome_bind omap mret outcome_ret]; rewrite ?putchw_sim, <- ?h_put;
    try done; by destruct (putchw _ _ _ _).
Qed.

Lemma tfp_loop_sim fuel fmt p va s :
  tfp_loop putf2 ftoa fuel fmt p va (h s) = omap h (tfp_loop putf1 ftoa fuel fmt p va s).
Proof.
  revert fmt p va s. induction fuel as [|fuel IH]; intros fmt p va s; [done|]. cbn [tfp_loop].
  destruct (next fmt) as [[ch fmt1]|]; [|done]. cbn [mbind outcome_bind].
  destruct (ch =? 0); [done|]. destruct (negb (ch =? 37)); [by rewrite <- h_put, IH|].
  destruct (directive fmt1 p) as [[[[ch1 fmt2] p2] lng]|]; [|done]. cbn [mbind outcome_bind].
  destruct (ch1 =? 0); [done|]. rewrite convert_sim.
  destruct (convert putf1 ftoa ch1 lng p2 va s) as [[[p3 va3] s3]|]; [|done]. apply IH.
Qed.
End simulation.

(** The text of a format, and what any sink makes of it. *)
Definition text {D} (ftoa : D -> Z -> list Z) (fmt : list Z) (va : list (varg D)) : outcome (list Z) :=
  tfp_format snoc ftoa fmt va [].

Lemma tfp_format_sink {D T} (putf : Z -> T -> T) (ftoa : D -> Z -> list Z) fmt va s :
  tfp_format putf ftoa fmt va s = omap (fun t => put_all putf t s) (text ftoa fmt va).
Proof.
  unfold text, tfp_format. rewrite <- (tfp_loop_sim snoc putf (fun t => put_all putf t s)); [done|].
  intros c l. unfold snoc. by rewrite put_all_app.
Qed.

(** ** The formatter ends *)

Definition ends {A} (o : outcome A) : Prop := o <> Fault OutOfFuel.

(** A reader of the format ends, and leaves at most [n] characters. *)
Definition leaves {A} (rest : A -> list Z) (n : nat) (o : outcome A) : Prop :=
  match o with Done a => (length (rest a) <= n)%nat | Fault e => e <> OutOfFuel end.

Lemma ends_bind {A B} (o : outcome A) (k : A -> outcome B) : ends o -> (forall a, o = Done a -> ends (k a)) -> ends (o ≫= k).
Proof. intros H K. destruct o as [a|e]; [by apply K|]. intros E. apply H. by injection E as ->. Qed.

Lemma leaves_bind {A B} (r1 : A -> list Z) (r2 : B -> list Z) n o (k : A -> outcome B) :
  leaves r1 n o -> (forall a, (length (r1 a) <= n)%nat -> leaves r2 n (k a)) -> leaves r2 n (o ≫= k).
Proof. intros H K. destruct o as [a|e]; [by apply K|done]. Qed.

Lemma leaves_mono {A} (r : A -> list Z) n m o : leaves r n o -> (n <= m)%nat -> leaves r m o.
Proof. destruct o; simpl; [lia|done]. Qed.

Definition rest3 {A} (x : Z * list Z * A) : list Z := x.1.2.
Definition rest4 {A B} (x : Z * list Z * A * B) : list Z := x.1.1.2.

Lemma flags_leaves fmt p : leaves rest3 (length fmt - 1) (flags fmt p).
Proof.
  revert p. induction fmt as [|c fmt IH]; intros p; cbn [flags length]; [done|].
  destruct (c =? 0); [unfold rest3; simpl; lia|].
  destruct (c =? 45); [eapply leaves_mono; [apply IH|lia]|].
  destruct (c =? 48); [eapply leaves_mono; [apply IH|lia]|].
  destruct (c =? 35); [eapply leaves_mono; [apply IH|lia]|]. unfold rest3. simpl. lia.
Qed.

Lemma a2u_leaves ch fmt b num : leaves rest3 (length fmt) (a2u ch fmt b num).
Proof.
  revert ch num. induction fmt as [|c fmt IH]; intros ch num; cbn [a2u]; cbv zeta;
    (destruct (a2d ch <? 0); [unfold rest3; simpl; lia|]);
    (destruct (b <? a2d ch); [unfold rest3; simpl; lia|]); [done|].
  eapply leaves_mono; [apply IH|simpl; lia].
Qed.

Lemma read_prec_leaves fmt prec : leaves rest3 (length fmt) (read_prec fmt prec).
Proof.
  revert prec. induction fmt as [|c fmt IH]; intros prec; cbn [read_prec]; [done|].
  destruct (64 <=? length prec)%nat; [done|]. destruct (is_digit c).
  - eapply leaves_mono; [apply IH|simpl; lia].
  - unfold rest3. simpl. lia.
Qed.

Lemma length_part_leaves ch fmt : leaves rest3 (length fmt) (length_part ch fmt).
Proof.
  unfold length_part. destruct (ch =? 122), (ch =? 108), fmt as [|c [|c' fmt]]; simpl;
    try (destruct (c =? 108)); unfold rest3; simpl; try done; lia.
Qed.

Lemma directive_leaves fmt p : leaves rest4 (length fmt - 1) (directive fmt p).
Proof.
  unfold directive. eapply leaves_bind; [apply flags_leaves|]. intros [[c1 r1] p1] H1. unfold rest3 in H1. simpl in H1.
  eapply (leaves_bind rest3).
  { unfold width_part. destruct (is_digit c1); [|done].
    eapply leaves_bind; [eapply leaves_mono; [apply a2u_leaves|done]|]. by intros [[c r] q] H. }
  intros [[c2 r2] p2] H2. unfold rest3 in H2. simpl in H2. eapply (leaves_bind rest3).
  { unfold dot_part. destruct (c2 =? 46); [|done].
    eapply leaves_bind; [eapply leaves_mono; [apply read_prec_leaves|done]|]. intros [[c r] q] H.
    unfold prec_value. destruct q as [|x [|]]; try done. by destruct (_ || _). }
  intros [[c3 r3] p3] H3. unfold rest3 in H3. simpl in H3.
  eapply (leaves_bind rest3); [eapply leaves_mono; [apply length_part_leaves|done]|]. by intros [[c4 r4] p4] H4.
Qed.

Lemma u2a_ends w num p b : base p = Some b -> 2 <= b <= 16 -> 0 <= w <= 64 -> ends (u2a w (uwrap w num) p).
Proof. intros Hb Hr Hw. by rewrite (u2a_spec w _ p b) by (done || (apply uwrap_range; lia)). Qed.

Lemma unsigned_arg_ends {D} lng p (va : list (varg D)) b : base p = Some b -> 2 <= b <= 16 -> ends (unsigned_arg lng p va).
Proof.
  intros Hb Hr. unfold unsigned_arg. destruct (2 =? lng), (1 =? lng), va as [|[]]; try done;
    cbn [arg_word arg_long_long mbind outcome_bind]; (apply ends_bind; [by eapply u2a_ends|done]).
Qed.

Lemma signed_arg_ends {D} lng p (va : list (varg D)) : base p = Some 10 -> ends (signed_arg lng p va).
Proof.
  intros Hb. unfold signed_arg. destruct (2 =? lng), (1 =? lng), va as [|[]]; try done;
    cbn [arg_word arg_long_long mbind outcome_bind]; unfold i2a, li2a, lli2a;
    match goal with |- context[if ?b then _ else _] => destruct b end;
    (apply ends_bind; [apply ends_bind; [by eapply (u2a_ends _ _ _ 10)|done]|by intros []]).
Qed.

Lemma putchw_ends {T} (putf : Z -> T -> T) bf p s : ends (putchw putf bf p s).
Proof. unfold putchw, alt_base. destruct (alt p); [|done]. by destruct (base p). Qed.

Lemma convert_ends {D T} (putf : Z -> T -> T) ftoa ch lng p (va : list (varg D)) s : ends (convert putf ftoa ch lng p va s).
Proof.
  assert (forall bf q (va : list (varg D)), ends (s ← putchw putf bf q s; mret (q, va, s))) as K.
  { intros bf q va'. apply ends_bind; [apply putchw_ends|done]. }
  unfold convert. destruct (ch =? 117).
  { apply ends_bind; [by eapply (unsigned_arg_ends _ _ _ 10)|]. intros []. done. }
  destruct (_ || _).
  { apply ends_bind; [by apply signed_arg_ends|]. intros [[]]. done. }
  destruct (_ || _).
  { destruct (ch =? 112); (apply ends_bind; [eapply unsigned_arg_ends; [done|by destruct (ch =? 98)]|]); intros []; done. }
  destruct (_ || _); [destruct va as [|[]]; try done; apply K|].
  destruct (ch =? 111).
  { destruct va as [|[]]; try done. cbn [arg_word mbind outcome_bind].
    apply ends_bind; [by eapply (u2a_ends 32)|]. done. }
  destruct (ch =? 99); [by destruct va as [|[]]|]. destruct (ch =? 115); [destruct va as [|[]]; try done; apply K|].
  by destruct (ch =? 37).
Qed.

Lemma tfp_loop_ends {D T} (putf : Z -> T -> T) ftoa fuel fmt p (va : list (varg D)) s :
  (length fmt < fuel)%nat -> ends (tfp_loop putf ftoa fuel fmt p va s).
Proof.
  revert fmt p va s. induction fuel as [|fuel IH]; intros fmt p va s Hf; [lia|]. cbn [tfp_loop].
  destruct fmt as [|ch fmt]; [done|]. cbn [next mbind outcome_bind length] in *.
  destruct (ch =? 0); [done|]. destruct (negb (ch =? 37)); [apply IH; lia|].
  pose proof (directive_leaves fmt p) as L.
  destruct (directive fmt p) as [[[[c r] q] lng]|e]; [|by intros [=->]]. unfold leaves, rest4 in L. simpl in L.
  cbn [mbind outcome_bind]. destruct (c =? 0); [done|]. apply ends_bind; [apply convert_ends|].
  intros [[p' va'] s'] _. apply IH. lia.
Qed.

Lemma tfp_format_ends {D T} (putf : Z -> T -> T) ftoa fmt (va : list (varg D)) s : ends (tfp_format putf ftoa fmt va s).
Proof. apply tfp_loop_ends. rewrite length_app. simpl. lia. Qed.

(** ** [snprintf] *)

Section snprintf.
Context {D : Type} (ftoa : D -> Z -> list Z).

(** The state of the sink after a text: the characters that fit, in order. *)
Lemma vsnprintf_puts t m str cap n : 0 <= n -> n + Z.of_nat (length t) < 2 ^ 31 ->
  exists m', put_all _vsnprintf_putcf t (mk_sn m str cap n) = mk_sn m' str cap (n + Z.of_nat (length t)) /\
    (forall i c, t !! i = Some c -> n + Z.of_nat i < cap -> load8 m' (str + n + Z.of_nat i) = u8 c) /\
    (forall a, a < str + n \/ str + Z.min (n + Z.of_nat (length t)) cap <= a -> load8 m' a = load8 m a).
Proof.
  revert m n. induction t as [|c t IH]; intros m n Hn Hl.
  - exists m. simpl. rewrite Z.add_0_r. done.
  - cbn [length] in Hl.
    assert (put_all _vsnprintf_putcf (c :: t) (mk_sn m str cap n) =
      put_all _vsnprintf_putcf t (mk_sn (if n <? cap then store8 m (str + n) c else m) str cap (n + 1))) as ->.
    { unfold put_all. cbn [fold_left]. unfold _vsnprintf_putcf at 2. cbn [num_chars dest_capacity sn_mem dest].
      by rewrite uwrap_small by lia. }
    destruct (IH (if n <? cap then store8 m (str + n) c else m) (n + 1)) as (m' & E & Hin & Hout); [lia|lia|].
    exists m'. split_and!.
    + rewrite E. f_equal. simpl. lia.
    + intros [|i] c' Hc Hlt; simpl in Hc.
      * injection Hc as <-. rewrite Hout by lia. rewrite (proj2 (Z.ltb_lt n cap)) by lia.
        rewrite Z.add_0_r. apply load8_store8_eq.
      * replace (str + n + Z.of_nat (S i)) with (str + (n + 1) + Z.of_nat i) by lia. apply Hin; [done|lia].
    + intros a Ha. cbn [length] in Ha. rewrite Hout by lia. destruct (Z.ltb_spec n cap); [|done].
      apply load8_store8_ne. lia.
Qed.

Lemma vsnprintf_text fmt va t str size m : text ftoa fmt va = Done t ->
  1 <= size < 2 ^ 32 -> Z.of_nat (length t) < 2 ^ 31 ->
  exists m', tfp_vsnprintf ftoa str size fmt va m = Done (Z.of_nat (length t), m') /\
    (forall i c, t !! i = Some c -> Z.of_nat i < size - 1 -> load8 m' (str + Z.of_nat i) = u8 c) /\
    load8 m' (str + Z.min (Z.of_nat (length t)) (size - 1)) = 0 /\
    (forall a, a < str \/ str + Z.min (Z.of_nat (length t)) (size - 1) < a -> load8 m' a = load8 m a).
Proof.
  intros E Hs Hl. unfold tfp_vsnprintf. rewrite (proj2 (Z.ltb_ge size 1)) by lia.
  rewrite tfp_format_sink, E. cbn [omap mbind outcome_bind]. rewrite (uwrap_small 32) by lia.
  destruct (vsnprintf_puts t m str (size - 1) 0) as (m1 & -> & Hin & Hout); [lia|lia|].
  cbn [sn_mem num_chars dest dest_capacity]. rewrite Z.add_0_l, (swrap_small 32) by lia.
  set (e := Z.min (Z.of_nat (length t)) (size - 1)).
  assert ((if Z.of_nat (length t) <? size - 1 then store8 m1 (str + Z.of_nat (length t)) 0
           else store8 m1 (str + (size - 1)) 0) = store8 m1 (str + e) 0) as ->.
  { unfold e. destruct (Z.ltb_spec (Z.of_nat (length t)) (size - 1)); do 2 f_equal; lia. }
  eexists. split; [done|]. split_and!.
  - intros i c Hi Hlt. pose proof (lookup_lt_Some _ _ _ Hi). rewrite load8_store8_ne by (unfold e; lia).
    rewrite <- (Hin i c) by (done || lia). f_equal. lia.
  - apply load8_store8_eq.
  - intros a Ha. rewrite load8_store8_ne by lia. apply Hout. unfold e in *. lia.
Qed.

Lemma text_of_format l va t : Forall wf_item l -> format_text ftoa l va = Some t -> text ftoa (format_chars l) va = Done t.
Proof. intros W E. unfold text. rewrite (tfp_format_text snoc ftoa l va t) by done. by rewrite put_all_snoc. Qed.

(** C24: [snprintf] prints what its format means, and truncates it to its buffer: for every well-formed format and
    arguments it accepts, the first [size - 1] characters of the text are in the buffer, followed by a
    terminating zero, no other byte of the memory changes, and the length of the whole text
    is returned. *)
Theorem snprintf_renders l va t str size m : Forall wf_item l -> format_text ftoa l va = Some t ->
  1 <= size < 2 ^ 32 -> Z.of_nat (length t) < 2 ^ 31 ->
  exists m', tfp_vsnprintf ftoa str size (format_chars l) va m = Done (Z.of_nat (length t), m') /\
    (forall i c, t !! i = Some c -> Z.of_nat i < size - 1 -> load8 m' (str + Z.of_nat i) = u8 c) /\
    load8 m' (str + Z.min (Z.of_nat (length t)) (size - 1)) = 0 /\
    (forall a, a < str \/ str + Z.min (Z.of_nat (length t)) (size - 1) < a -> load8 m' a = load8 m a).
Proof. intros W E. apply vsnprintf_text. by apply text_of_format. Qed.

(** The sink writes below its capacity, whatever it has counted. *)
Lemma vsnprintf_stays t m str cap n : 0 <= n -> exists m' n',
  put_all _vsnprintf_putcf t (mk_sn m str cap n) = mk_sn m' str cap n' /\ 0 <= n' /\
  (forall a, a < str \/ str + cap <= a -> load8 m' a = load8 m a).
Proof.
  revert m n. induction t as [|c t IH]; intros m n Hn; [by exists m, n|].
  change (put_all _vsnprintf_putcf (c :: t) (mk_sn m str cap n)) with
    (put_all _vsnprintf_putcf t (mk_sn (if n <? cap then store8 m (str + n) c else m) str cap (u32 (n + 1)))).
  destruct (IH (if n <? cap then store8 m (str + n) c else m) (u32 (n + 1))) as (m' & n' & E & Hn' & Hout);
    [apply uwrap_range; lia|].
  exists m', n'. split_and!; [done|done|]. intros a Ha. rewrite Hout by done.
  destruct (Z.ltb_spec n cap); [|done]. apply load8_store8_ne. lia.
Qed.

(** The array [prec] has no room for 64 digits and the character after them. *)
Lemma read_prec_long ds : forall prec rest, Forall (fun c => is_digit c = true) ds -> (64 <= length prec + length ds)%nat ->
  read_prec (ds ++ rest) prec = Fault BadAccess.
Proof.
  induction ds as [|c ds IH]; intros prec rest Hd Hl; cbn [app length] in *.
  - destruct rest as [|c rest]; [done|]. cbn [read_prec]. by rewrite (proj2 (Nat.leb_le _ _)) by lia.
  - apply Forall_cons in Hd as [Hc Hd]. cbn [read_prec]. destruct (_ <=? _)%nat; [done|]. rewrite Hc. apply IH; [done|]. rewrite length_app. cbn. lia.
Qed.
Lemma long_precision_faults va ds rest : Forall (fun c => is_digit c = true) ds -> (64 <= length ds)%nat ->
  text ftoa ([37; 46] ++ ds ++ rest) va = Fault BadAccess.
Proof.
  intros Hd Hl. unfold text, tfp_format. cbn [app length]. rewrite <- app_assoc. set (fuel := S (S (S (length (ds ++ rest))))).
  set (p := mk_param false false false false 0 6 0 None). set (fmt := ds ++ rest ++ [0]).
  assert (E : directive (46 :: fmt) p = Fault BadAccess); [|cbn [tfp_loop next mbind outcome_bind]; change (37 =? 0) with false; change (37 =? 37) with true; cbn [negb]; by rewrite E].
  unfold directive. change (flags (46 :: fmt) (reset p)) with (Done (46, fmt, reset p)). cbn [mbind outcome_bind].
  change (width_part 46 fmt (reset p)) with (Done (46, fmt, reset p)). cbn [mbind outcome_bind].
  unfold dot_part, fmt. change (46 =? 46) with true. cbv iota. by rewrite (read_prec_long ds [] _ Hd).
Qed.

(** C26: On any format string, well-formed or not, and any arguments [snprintf] comes to an end, and
    it returns exactly when the formatter gets through the format: it finds the arguments that the
    format asks for, and the digits of each precision fit its array of 64 characters.  When it
    returns it has written nothing outside the [size] bytes of its buffer, which holds a terminated
    string if it has any byte.  A precision of 64 digits or more overflows the array of the
    formatter, whatever the arguments and the buffer. *)
Theorem snprintf_in_bounds fmt va str size m : 0 <= size < 2 ^ 32 ->
  ends (tfp_vsnprintf ftoa str size fmt va m) /\
  (completes (tfp_vsnprintf ftoa str size fmt va m) <-> size = 0 \/ completes (text ftoa fmt va)) /\
  (forall r m', tfp_vsnprintf ftoa str size fmt va m = Done (r, m') ->
    (forall a, a < str \/ str + size <= a -> load8 m' a = load8 m a) /\
    (0 < size -> exists e, 0 <= e < size /\ load8 m' (str + e) = 0)) /\
  (forall ds rest, Forall (fun c => is_digit c = true) ds -> (64 <= length ds)%nat -> 0 < size ->
    tfp_vsnprintf ftoa str size ([37; 46] ++ ds ++ rest) va m = Fault BadAccess).
Proof.
  intros Hs. enough (ends (tfp_vsnprintf ftoa str size fmt va m) /\
    (completes (tfp_vsnprintf ftoa str size fmt va m) <-> size = 0 \/ completes (text ftoa fmt va)) /\
    (forall r m', tfp_vsnprintf ftoa str size fmt va m = Done (r, m') ->
      (forall a, a < str \/ str + size <= a -> load8 m' a = load8 m a) /\
      (0 < size -> exists e, 0 <= e < size /\ load8 m' (str + e) = 0))) as (H1 & H2 & H3).
  { split_and!; [done|done..|]. intros ds rest Hd Hl Hz. unfold tfp_vsnprintf. rewrite (proj2 (Z.ltb_ge _ _)) by lia.
    by rewrite tfp_format_sink, long_precision_faults. }
  unfold tfp_vsnprintf. destruct (Z.ltb_spec size 1) as [H1|H1].
  { split_and!; [done|split; [by left; lia|by eexists]|]. intros r m' [= <- <-]. split; [done|lia]. }
  rewrite tfp_format_sink. pose proof (tfp_format_ends snoc ftoa fmt va []) as He. fold (text ftoa fmt va) in He.
  destruct (text ftoa fmt va) as [t|e]; cbn [omap mbind outcome_bind].
  2: { split_and!; [by intros [=->]| |done]. split; [by intros []|]. intros [?|[]]; [lia|done]. }
  split_and!; [done|split; [by right; eexists|by eexists]|].
  destruct (vsnprintf_stays t m str (u32 (size - 1)) 0) as (m1 & n1 & -> & Hn & Hout); [lia|].
  cbn [sn_mem num_chars dest dest_capacity]. intros r m' [= <- <-]. rewrite uwrap_small in * by lia. split.
  - intros a Ha. destruct (Z.ltb_spec n1 (size - 1)); rewrite load8_store8_ne by lia; apply Hout; lia.
  - intros _. exists (if n1 <? size - 1 then n1 else size - 1).
    destruct (Z.ltb_spec n1 (size - 1)); (split; [lia|apply load8_store8_eq]).
Qed.

(** ** [fprintf] *)

(** [fprintf] writes a text shorter than its buffer to the stream. *)
Lemma fprintf_writes write fd buf fmt va t m : text ftoa fmt va = Done t -> Z.of_nat (length t) < 1024 ->
  fprintf ftoa write fd buf fmt va m =
    Done (if write fd (map (uwrap 8) t) =? -1 then -1 else Z.of_nat (length t)).
Proof.
  intros E Hl. unfold fprintf.
  destruct (vsnprintf_text fmt va t buf 1024 m E) as (m1 & -> & Hin & _); [lia|lia|].
  cbn [mbind outcome_bind]. rewrite (uwrap_small 32), (proj2 (Z.ltb_ge 1024 _)), (swrap_small 32), Nat2Z.id by lia.
  assert (map (fun i => load8 m1 (buf + Z.of_nat i)) (seq 0 (length t)) = map (uwrap 8) t) as ->; [|done].
  change (map ?f ?l) with (f <$> l). apply list_eq. intros i. rewrite !list_lookup_fmap.
  destruct (t !! i) as [c|] eqn:Ei.
  - pose proof (lookup_lt_Some _ _ _ Ei) as Hi. rewrite (lookup_seq_lt _ _ _ Hi). simpl. f_equal. apply (Hin i c); [done|lia].
  - apply lookup_ge_None in Ei. by rewrite lookup_seq_ge.
Qed.

(** A longer text makes [fprintf] write what lies behind its buffer on the stack. *)
Lemma fprintf_overreads write fd buf fmt va t m : text ftoa fmt va = Done t ->
  1024 < Z.of_nat (length t) < 2 ^ 31 -> fprintf ftoa write fd buf fmt va m = Fault BadAccess.
Proof.
  intros E Hl. unfold fprintf.
  destruct (vsnprintf_text fmt va t buf 1024 m E) as (m1 & -> & _); [lia|lia|].
  cbn [mbind outcome_bind]. by rewrite (uwrap_small 32), (proj2 (Z.ltb_lt 1024 _)) by lia.
Qed.
End snprintf.

(** ** Deviations from the C standard *)

(** The width accepts [a] and [A] as a digit ten: [%1ac] has width 20. *)
Lemma width_accepts_a : directive [49; 97; 115; 0] (reset (mk_param false false false false 0 6 0 None)) =
  Done (115, [0], mk_param false false false false 20 6 0 None, 0).
Proof. vm_compute. reflexivity. Qed.

(** A precision stays in force for the directives that follow it. *)
Lemma precision_sticks (d : unit) :
  text (fun _ p => [48 + p]) [37; 46; 50; 102; 37; 102] [VDouble d; VDouble d] = Done [50; 50].
Proof. vm_compute. reflexivity. Qed.

(** [#] on a string prints the prefix of an earlier hexadecimal conversion. *)
Lemma prefix_sticks :
  text (fun (_ : unit) _ => []) [37; 120; 37; 35; 115] [VWord 10; VStr [122]] = Done [97; 48; 120; 122].
Proof. vm_compute. reflexivity. Qed.

(** ** Witnesses *)

Definition no_float (d : unit) (p : Z) : list Z := [].
(** [x=%#06llx, %-4d|] *)
Definition sample_items : list item :=
  [Lit 120; Lit 61; Dir (mk_dir [Hash; Zero] [6] None LongLong Cx); Lit 44; Dir (mk_dir [Minus] [4] None Int Cd); Lit 124].
Definition sample_args : list (varg unit) := [VLongLong 171; VWord (-7)].
Definition sample_text : list Z := [120; 61; 48; 120; 48; 48; 97; 98; 44; 45; 55; 32; 32; 124].

Lemma sample_items_wf : Forall wf_item sample_items.
Proof. repeat constructor; simpl; try lia; done. Qed.

Lemma snprintf_renders_witness : exists m',
  tfp_vsnprintf no_float 100 10 (format_chars sample_items) sample_args ∅ = Done (14, m') /\
  (forall i c, sample_text !! i = Some c -> Z.of_nat i < 9 -> load8 m' (100 + Z.of_nat i) = u8 c) /\
  load8 m' 109 = 0 /\ (forall a, a < 100 \/ 109 < a -> load8 m' a = load8 ∅ a).
Proof.
  apply (snprintf_renders no_float sample_items sample_args sample_text 100 10 ∅); [apply sample_items_wf|reflexivity|lia|simpl; lia].
Defined.

Lemma snprintf_in_bounds_witness :
  ends (tfp_vsnprintf no_float 100 3 [37; 115; 37] [VStr [97; 98; 99]] ∅) /\
  forall r m', tfp_vsnprintf no_float 100 3 [37; 115; 37] [VStr [97; 98; 99]] ∅ = Done (r, m') ->
    forall a, a < 100 \/ 103 <= a -> load8 m' a = load8 ∅ a.
Proof.
  destruct (snprintf_in_bounds no_float [37; 115; 37] [VStr [97; 98; 99]] 100 3 ∅) as (H1 & _ & H2 & _); [lia|].
  split; [exact H1|]. intros r m' E. apply (H2 r m' E).
Defined.

End PrintfSinks.
