(* ===== verification/MessageBus.v ===== *)
(** * MessageBus: [libk++/include/messagebus.hpp], [messagebus.tpp] and [libk++/src/messagebus.cpp]

    Handlers are registered per type of event and called in the order of their
    registration, those of low priority after the others.  A handler is a value
    that the client of the bus interprets as an operation on its state, which holds
    the bus: a handler may send, register and remove.  An entry of a list is known by
    a number of its own, as an iterator is by its node. *)
From stdpp Require Import base list sets.
From Stdlib Require Import ZArith Lia.
From S2P Require Import Prelude.

Module MessageBus.

Inductive Priority := Normal | Last.

Record Entry (H : Type) := mk_entry { entry_id : nat; handler : H; priority : Priority }.
Arguments mk_entry {H} entry_id handler priority.
Arguments entry_id {H} e.
Arguments handler {H} e.
Arguments priority {H} e.

(** [std::unordered_map<type_id_t, std::list<Entry>>], and the number of the next node. *)
Record bus (Ty H : Type) := mk_bus { handlers : Ty -> list (Entry H); next_id : nat }.
Arguments mk_bus {Ty H} handlers next_id.
Arguments handlers {Ty H} b.
Arguments next_id {Ty H} b.

Definition empty_bus {Ty H} : bus Ty H := mk_bus (fun _ => []) 0.

(** The type and the iterator. *)
Record Handle (Ty : Type) := mk_handle { handle_type : Ty; handle_entry : nat }.
Arguments mk_handle {Ty} handle_type handle_entry.
Arguments handle_type {Ty} h.
Arguments handle_entry {Ty} h.

Section bus.
Context {Ty H : Type} `{EqDecision Ty}.

Definition set_list (ty : Ty) (l : list (Entry H)) (b : bus Ty H) : bus Ty H :=
  mk_bus (fun t => if decide (t = ty) then l else b.(handlers) t) b.(next_id).

Definition register_handler (ty : Ty) (h : H) (prio : Priority) (b : bus Ty H) : Handle Ty * bus Ty H :=
  (mk_handle ty b.(next_id),
   let b' := set_list ty (b.(handlers) ty ++ [mk_entry b.(next_id) h prio]) b in
   mk_bus b'.(handlers) (S b.(next_id))).

Definition has_entry (i : nat) (l : list (Entry H)) : bool := existsb (fun e => entry_id e =? i)%nat l.

(** [erase] of an iterator that is no longer in the list is undefined. *)
Definition remove_handler (hd : Handle Ty) (b : bus Ty H) : outcome (bus Ty H) :=
  let l := b.(handlers) hd.(handle_type) in
  if has_entry hd.(handle_entry) l
  then Done (set_list hd.(handle_type) (List.filter (fun e => negb (entry_id e =? hd.(handle_entry))%nat) l) b)
  else Fault BadAccess.

(** The destructor of [RAIIHandle]. *)
Definition release (hd : option (Handle Ty)) (b : bus Ty H) : outcome (bus Ty H) :=
  match hd with Some hd => remove_handler hd b | None => Done b end.

(** The entries behind the iterator [cur], none when it was erased; the list from its
    beginning for a loop that has not started. *)
Fixpoint after (i : nat) (l : list (Entry H)) : option (list (Entry H)) :=
  match l with
  | [] => None
  | e :: l => if (entry_id e =? i)%nat then Some l else after i l
  end.
Definition remaining (cur : option nat) (l : list (Entry H)) : option (list (Entry H)) :=
  match cur with None => Some l | Some i => after i l end.
End bus.

Section send.
Context {St Ty H : Type} (bus_of : St -> bus Ty H) (run : H -> M St unit).

(** [for (const auto& callback : handlers[...])], over the list as it is when the
    iterator moves. *)
Fixpoint send_loop (fuel : nat) (ty : Ty) (cur : option nat) (counter : Z) (late : list H) : M St (Z * list H) :=
  match fuel with
  | O => fail OutOfFuel
  | S fuel =>
      l ← gets (fun s => handlers (bus_of s) ty);
      match remaining cur l with
      | None => fail BadAccess
      | Some [] => mret (counter, late)
      | Some (e :: _) =>
          match e.(priority) with
          | Last => send_loop fuel ty (Some e.(entry_id)) (u32 (counter + 1)) (late ++ [e.(handler)])
          | Normal => _ ← run e.(handler); send_loop fuel ty (Some e.(entry_id)) (u32 (counter + 1)) late
          end
      end
  end.

Definition send (fuel : nat) (ty : Ty) : M St Z :=
  '(counter, late) ← send_loop fuel ty None 0 [];
  _ ← for_each late run;
  mret counter.

(** ** What [send] does when the handlers leave the list alone *)

(** The handlers in the order they are called. *)
Definition is_late (e : Entry H) : bool := match e.(priority) with Last => true | Normal => false end.
Definition call_order (l : list (Entry H)) : list H :=
  map handler (List.filter (fun e => negb (is_late e)) l) ++ map handler (List.filter is_late l).

Definition keeps_list (ty : Ty) (h : H) : Prop :=
  forall s s', run h s = Done (tt, s') -> handlers (bus_of s') ty = handlers (bus_of s) ty.

Lemma after_app (l1 : list (Entry H)) e l2 : NoDup (entry_id <$> l1 ++ e :: l2) ->
  after (entry_id e) (l1 ++ e :: l2) = Some l2.
Proof.
  intros N. induction l1 as [|x l1 IH]; simpl; [by rewrite Nat.eqb_refl|].
  simpl in N. apply NoDup_cons in N as [Hx N]. destruct (Nat.eqb_spec (entry_id x) (entry_id e)) as [E|].
  - destruct Hx. rewrite E. apply list_elem_of_fmap. exists e. split; [done|]. apply elem_of_app. right. left.
  - by apply IH.
Qed.

(** The iterator after the entries [l1] have been visited. *)
Definition cursor (l1 : list (Entry H)) : option nat := entry_id <$> last l1.

Lemma remaining_cursor (l1 l2 : list (Entry H)) : NoDup (entry_id <$> l1 ++ l2) -> remaining (cursor l1) (l1 ++ l2) = Some l2.
Proof.
  intros N. destruct l1 as [|e l1] using rev_ind; [done|]. unfold cursor. rewrite last_snoc. cbn [fmap option_fmap option_map remaining].
  rewrite <- app_assoc in *. by apply after_app.
Qed.

Definition count (n : nat) (c : Z) : Z := Nat.iter n (fun c => u32 (c + 1)) c.

Lemma send_loop_run ty fuel l1 l2 counter late s :
  NoDup (entry_id <$> l1 ++ l2) -> handlers (bus_of s) ty = l1 ++ l2 ->
  (forall e, e ∈ l2 -> keeps_list ty e.(handler)) -> (length l2 < fuel)%nat ->
  send_loop fuel ty (cursor l1) counter late s =
    (_ ← for_each (map handler (List.filter (fun e => negb (is_late e)) l2)) run;
     mret (count (length l2) counter, late ++ map handler (List.filter is_late l2))) s.
Proof.
  revert fuel l1 counter late s. induction l2 as [|e l2 IH]; intros [|fuel] l1 counter late s N E K Hf;
    cbn [length] in Hf; try lia; cbn [send_loop]; unfold gets at 1, mbind at 1, M_bind at 1; rewrite E, remaining_cursor by done.
  - simpl. by rewrite app_nil_r.
  - assert (cursor (l1 ++ [e]) = Some (entry_id e)) as Ec by (unfold cursor; by rewrite last_snoc).
    assert (l1 ++ e :: l2 = (l1 ++ [e]) ++ l2) as Ea by (by rewrite <- app_assoc).
    assert (count (length (e :: l2)) counter = count (length l2) (u32 (counter + 1))) as ->
      by (cbn [length]; unfold count; by rewrite Nat.iter_succ_r).
    rewrite Ea in N, E. cbn [List.filter].
    destruct (priority e) eqn:Ep.
    + assert (is_late e = false) as -> by (unfold is_late; by rewrite Ep). cbn [negb map for_each].
      unfold mbind, M_bind. destruct (run (handler e) s) as [[[] s1]|f] eqn:Er; [|done].
      rewrite <- Ec. rewrite IH; [done|done| |set_solver|lia].
      rewrite <- E. by eapply (K e); [left|].
    + assert (is_late e = true) as -> by (unfold is_late; by rewrite Ep). cbn [negb map].
      rewrite <- Ec, IH; [|done|done|set_solver|lia]. by rewrite <- app_assoc.
Qed.
(** Every handler is called once with the event, those of normal priority in the
    order of registration and then the others. *)
Lemma send_run ty fuel s : NoDup (entry_id <$> handlers (bus_of s) ty) ->
  (forall e, e ∈ handlers (bus_of s) ty -> keeps_list ty e.(handler)) ->
  (length (handlers (bus_of s) ty) < fuel)%nat ->
  send fuel ty s =
    (_ ← for_each (call_order (handlers (bus_of s) ty)) run; mret (count (length (handlers (bus_of s) ty)) 0)) s.
Proof.
  intros N K Hf. set (l := handlers (bus_of s) ty) in *. unfold send, call_order.
  pose proof (send_loop_run ty fuel [] l 0 [] s N eq_refl K Hf) as E. change (cursor []) with (@None nat) in E.
  unfold mbind, M_bind in *. rewrite E. clear E. generalize (map handler (List.filter is_late l)). intros late.
  generalize s. induction (map handler (List.filter (fun e => negb (is_late e)) l)) as [|h hs IH]; intros s1; [done|].
  cbn [app for_each]. unfold mbind, M_bind. destruct (run h s1) as [[[] s2]|f]; [|done]. apply IH.
Qed.
End send.

(** ** Registration *)
Section registration.
Context {Ty H : Type} `{EqDecision Ty}.
Implicit Types b : bus Ty H.

(** The nodes of a list are different, and older than the next one. *)
Definition wf_bus b : Prop := forall ty,
  NoDup (entry_id <$> handlers b ty) /\ Forall (fun e => (entry_id e < next_id b)%nat) (handlers b ty).

Lemma wf_empty : wf_bus (@empty_bus Ty H).
Proof. intros ty. split; constructor. Qed.

Lemma wf_register ty h prio b : wf_bus b -> wf_bus (register_handler ty h prio b).2.
Proof.
  intros W t. destruct (W t) as [N F]. destruct (W ty) as [Nt Ft]. simpl. case_decide as E.
  - subst t. split.
    + rewrite fmap_app. apply NoDup_app. split_and!; [done| |apply NoDup_singleton].
      intros x Hx Hn. simpl in Hn. apply list_elem_of_singleton in Hn as ->.
      apply list_elem_of_fmap in Hx as (e & Ee & He). rewrite Forall_forall in F. specialize (F e He). lia.
    + apply Forall_app. split; [|repeat constructor]. eapply Forall_impl; [done|]. simpl. lia.
  - split; [done|]. eapply Forall_impl; [done|]. simpl. lia.
Qed.

Lemma filter_ids_keep i (l : list (Entry H)) : Forall (fun e => (entry_id e < i)%nat) l ->
  List.filter (fun e => negb (entry_id e =? i)%nat) l = l.
Proof.
  induction 1 as [|e l He F IH]; simpl; [done|]. destruct (Nat.eqb_spec (entry_id e) i); [lia|]. simpl. by rewrite IH.
Qed.

(** A handler that is removed leaves the other handlers as they were. *)
Lemma remove_register ty h prio b : wf_bus b ->
  exists b', remove_handler (register_handler ty h prio b).1 (register_handler ty h prio b).2 = Done b' /\
    forall t, handlers b' t = handlers b t.
Proof.
  intros W. unfold remove_handler. simpl. rewrite decide_True by done.
  assert (has_entry (next_id b) (handlers b ty ++ [mk_entry (next_id b) h prio]) = true) as ->.
  { unfold has_entry. rewrite existsb_app. simpl. by rewrite Nat.eqb_refl, orb_true_r. }
  eexists. split; [done|]. intros t. simpl. case_decide as E; [|done].
  subst t. rewrite List.filter_app. simpl. rewrite Nat.eqb_refl, app_nil_r. apply filter_ids_keep, W.
Qed.
End registration.

End MessageBus.
