(* ===== verification/Keyboard.v ===== *)
(** * Keyboard: from the bytes of the PS/2 keyboard to typed characters

    [kern/i686/pc/devices/ps2keyboard.cpp] turns scan codes into positions,
    [kern/drivers/kbd/kbd_mappings.cpp] positions into keys,
    [kern/drivers/kbd/text_handler.cpp] keys into characters, and
    [kern/drivers/kbd/led_handler.hpp] the lock keys into lights; they talk to each other
    through the message bus.  A key event is pressed ([true]) or released. *)
From stdpp Require Import base list.
From Stdlib Require Import ZArith Lia.
From S2P Require Import Prelude MessageBus.
Import MessageBus.

Module Keyboard.

(** ** [enum Key] *)

Definition KeyUnknown : Z := 0.
Definition KeyA : Z := 1.
Definition KeyB : Z := 2.
Definition KeyC : Z := 3.
Definition KeyD : Z := 4.
Definition KeyE : Z := 5.
Definition KeyF : Z := 6.
Definition KeyG : Z := 7.
Definition KeyH : Z := 8.
Definition KeyI : Z := 9.
Definition KeyJ : Z := 10.
Definition KeyK : Z := 11.
Definition KeyL : Z := 12.
Definition KeyM : Z := 13.
Definition KeyN : Z := 14.
Definition KeyO : Z := 15.
Definition KeyP : Z := 16.
Definition KeyQ : Z := 17.
Definition KeyR : Z := 18.
Definition KeyS : Z := 19.
Definition KeyT : Z := 20.
Definition KeyU : Z := 21.
Definition KeyV : Z := 22.
Definition KeyW : Z := 23.
Definition KeyX : Z := 24.
Definition KeyY : Z := 25.
Definition KeyZ : Z := 26.
Definition KeyNum0 : Z := 27.
Definition KeyNum1 : Z := 28.
Definition KeyNum2 : Z := 29.
Definition KeyNum3 : Z := 30.
Definition KeyNum4 : Z := 31.
Definition KeyNum5 : Z := 32.
Definition KeyNum6 : Z := 33.
Definition KeyNum7 : Z := 34.
Definition KeyNum8 : Z := 35.
Definition KeyNum9 : Z := 36.
Definition KeyEscape : Z := 37.
Definition KeyLControl : Z := 38.
Definition KeyLShift : Z := 39.
Definition KeyLAlt : Z := 40.
Definition KeyLSystem : Z := 41.
Definition KeyRControl : Z := 42.
Definition KeyRShift : Z := 43.
Definition KeyRAlt : Z := 44.
Definition KeyRSystem : Z := 45.
Definition KeyMenu : Z := 46.
Definition KeyLBracket : Z := 47.
Definition KeyRBracket : Z := 48.
Definition KeySemiColon : Z := 49.
Definition KeyComma : Z := 50.
Definition KeyPeriod : Z := 51.
Definition KeyQuote : Z := 52.
Definition KeySlash : Z := 53.
Definition KeyBackSlash : Z := 54.
Definition KeyTilde : Z := 55.
Definition KeyEqual : Z := 56.
Definition KeyDash : Z := 57.
Definition KeySpace : Z := 58.
Definition KeyReturn : Z := 59.
Definition KeyBackSpace : Z := 60.
Definition KeyTab : Z := 61.
Definition KeyPageUp : Z := 62.
Definition KeyPageDown : Z := 63.
Definition KeyEnd : Z := 64.
Definition KeyHome : Z := 65.
Definition KeyInsert : Z := 66.
Definition KeyDelete : Z := 67.
Definition KeyAdd : Z := 68.
Definition KeySubtract : Z := 69.
Definition KeyMultiply : Z := 70.
Definition KeyDivide : Z := 71.
Definition KeyBang : Z := 72.
Definition KeyLeft : Z := 73.
Definition KeyRight : Z := 74.
Definition KeyUp : Z := 75.
Definition KeyDown : Z := 76.
Definition KeyNumpad0 : Z := 77.
Definition KeyNumpad1 : Z := 78.
Definition KeyNumpad2 : Z := 79.
Definition KeyNumpad3 : Z := 80.
Definition KeyNumpad4 : Z := 81.
Definition KeyNumpad5 : Z := 82.
Definition KeyNumpad6 : Z := 83.
Definition KeyNumpad7 : Z := 84.
Definition KeyNumpad8 : Z := 85.
Definition KeyNumpad9 : Z := 86.
Definition KeyF1 : Z := 87.
Definition KeyF2 : Z := 88.
Definition KeyF3 : Z := 89.
Definition KeyF4 : Z := 90.
Definition KeyF5 : Z := 91.
Definition KeyF6 : Z := 92.
Definition KeyF7 : Z := 93.
Definition KeyF8 : Z := 94.
Definition KeyF9 : Z := 95.
Definition KeyF10 : Z := 96.
Definition KeyF11 : Z := 97.
Definition KeyF12 : Z := 98.
Definition KeyF13 : Z := 99.
Definition KeyF14 : Z := 100.
Definition KeyF15 : Z := 101.
Definition KeyPause : Z := 102.
Definition KeyMajLock : Z := 103.
Definition KeyScrollLock : Z := 104.
Definition KeyPrintScreen : Z := 105.
Definition KeyNumLock : Z := 106.
Definition KeyCount : Z := 107.

(** ** Positions and mappings *)

(** [kbd::pos]. *)
Definition pos (row col : Z) : Z := u8 (Z.lor (Z.shiftl (Z.land col 7) 5) (Z.land row 31)).

(** [kpp::array<Key, 256>]: the key of every position. *)
Definition Mapping : Type := Z -> Z.
Definition def (map : Mapping) (d : Z * Z * Z) : Mapping :=
  let '(x, y, key) := d in fun p => if p =? pos x y then key else map p.

(** The definitions of [kbd::mappings::azerty], in order. *)
Definition azerty_defs : list (Z * Z * Z) :=
  [(0, 0, KeyEscape); (1, 2, KeyA); (2, 2, KeyZ); (3, 2, KeyE); (4, 2, KeyR); (5, 2, KeyT); (6, 2, KeyY);
    (7, 2, KeyU); (8, 2, KeyI); (9, 2, KeyO); (10, 2, KeyP); (1, 3, KeyQ); (2, 3, KeyS); (3, 3, KeyD);
    (4, 3, KeyF); (5, 3, KeyG); (6, 3, KeyH); (7, 3, KeyJ); (8, 3, KeyK); (9, 3, KeyL); (10, 3, KeyM);
    (2, 4, KeyW); (3, 4, KeyX); (4, 4, KeyC); (5, 4, KeyV); (6, 4, KeyB); (7, 4, KeyN); (17, 5, KeyNumpad0);
    (17, 4, KeyNumpad1); (18, 4, KeyNumpad2); (19, 4, KeyNumpad3); (17, 3, KeyNumpad4); (18, 3, KeyNumpad5);
    (19, 3, KeyNumpad6); (17, 2, KeyNumpad7); (18, 2, KeyNumpad8); (19, 2, KeyNumpad9); (1, 0, KeyF1);
    (2, 0, KeyF2); (3, 0, KeyF3); (4, 0, KeyF4); (5, 0, KeyF5); (6, 0, KeyF6); (7, 0, KeyF7); (8, 0, KeyF8);
    (9, 0, KeyF9); (10, 0, KeyF10); (11, 0, KeyF11); (12, 0, KeyF12); (15, 4, KeyUp); (15, 5, KeyDown);
    (14, 5, KeyLeft); (16, 5, KeyRight); (18, 1, KeyDivide); (19, 1, KeyMultiply); (20, 1, KeySubtract);
    (20, 3, KeyAdd); (16, 1, KeyPageUp); (16, 2, KeyPageDown); (15, 2, KeyEnd); (15, 1, KeyHome);
    (14, 1, KeyInsert); (14, 2, KeyDelete); (3, 5, KeySpace); (12, 3, KeyReturn); (13, 1, KeyBackSpace);
    (0, 2, KeyTab); (10, 4, KeySlash); (13, 2, KeyBackSlash); (0, 1, KeyTilde); (12, 1, KeyEqual);
    (11, 1, KeyDash); (9, 4, KeySemiColon); (8, 4, KeyComma); (19, 5, KeyPeriod); (11, 3, KeyQuote);
    (11, 2, KeyLBracket); (12, 2, KeyRBracket); (13, 5, KeyRControl); (12, 4, KeyRShift); (10, 5, KeyRAlt);
    (0, 5, KeyLControl); (0, 4, KeyLShift); (2, 5, KeyLAlt); (11, 4, KeyBang); (1, 1, KeyNum1);
    (2, 1, KeyNum2); (3, 1, KeyNum3); (4, 1, KeyNum4); (5, 1, KeyNum5); (6, 1, KeyNum6); (7, 1, KeyNum7);
    (8, 1, KeyNum8); (9, 1, KeyNum9); (10, 1, KeyNum0); (0, 3, KeyMajLock); (14, 0, KeyPrintScreen);
    (15, 0, KeyScrollLock); (16, 0, KeyPause); (17, 1, KeyNumLock)].

(** [Mapping map;] leaves the positions that are not defined with the values [map0] of the memory. *)
Definition azerty (map0 : Mapping) : Mapping := fold_left def azerty_defs map0.

(** ** Events *)

Inductive LEDState := Ignore | Off | On.
Record LEDChangeEvent := mk_leds { led_kbd_id : Z; num_change : LEDState; caps_change : LEDState; scroll_change : LEDState }.

Inductive event :=
  | DriverKbdEvent (kbd_id position : Z) (pressed : bool)
  | KeyEvent (kbd_id key : Z) (pressed : bool)
  | TextEnteredEvent (c : Z)
  | LEDChange (e : LEDChangeEvent).

Inductive event_type := DriverKbdEvent_t | KeyEvent_t | TextEnteredEvent_t | LEDChange_t.
#[export] Instance event_type_eq_dec : EqDecision event_type.
Proof. solve_decision. Defined.

Definition type_id (e : event) : event_type :=
  match e with
  | DriverKbdEvent _ _ _ => DriverKbdEvent_t
  | KeyEvent _ _ _ => KeyEvent_t
  | TextEnteredEvent _ => TextEnteredEvent_t
  | LEDChange _ => LEDChange_t
  end.

(** The functions that are registered: the closure of [install_mapping], [TextHandler::handle_key],
    the closure of [install_led_handler], the one of [PS2Keyboard], and the two of
    [global_init]: the one that hands the character to the terminal, and the one for the keys that
    move in the terminal, reset the machine or stop the kernel. *)
Inductive Handler :=
  | MappingHandler (mapping : Mapping) (kbd_id : Z)
  | HandleKey
  | LedHandler
  | PS2LedHandler
  | TextListener
  | KeyCommands.

(** What the handlers of [global_init] call: the functions of [term()], and [kmsgbus.send] of the
    message to reset, whose handlers are those of the power management. *)
Inductive output :=
  | add_input (c : Z)
  | force_redraw_input
  | scroll_history (n : Z)
  | move_cursor (n : Z)
  | forward_delete
  | send_ResetMessage.

(** ** State *)

(** The static members of [TextHandler]. *)
Record text_state := mk_text {
  lshift : bool; rshift : bool; lalt : bool; ralt : bool; lctrl : bool; rctrl : bool; capslock : bool; numlock : bool }.

Record system := mk_system {
  kmsgbus : bus event_type Handler;
  current_handle : Z -> option (Handle event_type);
  text : text_state;
  caps_led : Z -> bool; num_led : Z -> bool; scroll_led : Z -> bool;
  leds : Z; last_is_e0 : bool;
  key_assocs : Z -> Z; e0_key_assocs : Z -> Z;
  data_port : list Z;       (* the bytes sent to the keyboard *)
  outputs : list output }.  (* the calls of the handlers of [global_init] *)

Definition set_bus b (s : system) := mk_system b s.(current_handle) s.(text) s.(caps_led) s.(num_led) s.(scroll_led) s.(leds) s.(last_is_e0) s.(key_assocs) s.(e0_key_assocs) s.(data_port) s.(outputs).
Definition set_text t (s : system) := mk_system s.(kmsgbus) s.(current_handle) t s.(caps_led) s.(num_led) s.(scroll_led) s.(leds) s.(last_is_e0) s.(key_assocs) s.(e0_key_assocs) s.(data_port) s.(outputs).
Definition set_caps_led f (s : system) := mk_system s.(kmsgbus) s.(current_handle) s.(text) f s.(num_led) s.(scroll_led) s.(leds) s.(last_is_e0) s.(key_assocs) s.(e0_key_assocs) s.(data_port) s.(outputs).
Definition set_num_led f (s : system) := mk_system s.(kmsgbus) s.(current_handle) s.(text) s.(caps_led) f s.(scroll_led) s.(leds) s.(last_is_e0) s.(key_assocs) s.(e0_key_assocs) s.(data_port) s.(outputs).
Definition set_scroll_led f (s : system) := mk_system s.(kmsgbus) s.(current_handle) s.(text) s.(caps_led) s.(num_led) f s.(leds) s.(last_is_e0) s.(key_assocs) s.(e0_key_assocs) s.(data_port) s.(outputs).
Definition set_led_bits l (s : system) := mk_system s.(kmsgbus) s.(current_handle) s.(text) s.(caps_led) s.(num_led) s.(scroll_led) l s.(last_is_e0) s.(key_assocs) s.(e0_key_assocs) s.(data_port) s.(outputs).
Definition set_e0 b (s : system) := mk_system s.(kmsgbus) s.(current_handle) s.(text) s.(caps_led) s.(num_led) s.(scroll_led) s.(leds) b s.(key_assocs) s.(e0_key_assocs) s.(data_port) s.(outputs).
Definition set_assocs a e (s : system) := mk_system s.(kmsgbus) s.(current_handle) s.(text) s.(caps_led) s.(num_led) s.(scroll_led) s.(leds) s.(last_is_e0) a e s.(data_port) s.(outputs).
Definition set_port p (s : system) := mk_system s.(kmsgbus) s.(current_handle) s.(text) s.(caps_led) s.(num_led) s.(scroll_led) s.(leds) s.(last_is_e0) s.(key_assocs) s.(e0_key_assocs) p s.(outputs).
Definition set_outputs t (s : system) := mk_system s.(kmsgbus) s.(current_handle) s.(text) s.(caps_led) s.(num_led) s.(scroll_led) s.(leds) s.(last_is_e0) s.(key_assocs) s.(e0_key_assocs) s.(data_port) t.

(** ** [TextHandler] *)

Definition handle_modifiers (key : Z) (pressed : bool) (t : text_state) : text_state :=
  let '(mk_text ls rs la ra lc rc cl nl) := t in
  if (key =? KeyMajLock) && pressed then mk_text ls rs la ra lc rc (negb cl) nl
  else if key =? KeyLShift then mk_text pressed rs la ra lc rc cl nl
  else if key =? KeyRShift then mk_text ls pressed la ra lc rc cl nl
  else if (key =? KeyNumLock) && pressed then mk_text ls rs la ra lc rc cl (negb nl)
  else if key =? KeyLAlt then mk_text ls rs pressed ra lc rc cl nl
  else if key =? KeyRAlt then mk_text ls rs la pressed lc rc cl nl
  else if key =? KeyLControl then mk_text ls rs la ra pressed rc cl nl
  else if key =? KeyRControl then mk_text ls rs la ra lc pressed cl nl
  else t.

(** The [switch] of [handle_key]: the character that is sent, if any. *)
Definition switch_char (caps alt : bool) (key : Z) : option Z :=
  if key =? KeyLBracket then Some 94
  else if key =? KeyRBracket then Some 36
  else if key =? KeySemiColon then Some (if caps then 46 else 59)
  else if key =? KeyComma then Some (if caps then 63 else 44)
  else if key =? KeyBang then Some 33
  else if key =? KeyQuote then (if caps then Some 37 else None)
  else if key =? KeyDash then Some (if alt then 93 else 41)
  else if key =? KeyEqual then Some (if caps then 43 else if alt then 125 else 61)
  else if key =? KeyTilde then Some (if caps then 126 else 0xE9)
  else if key =? KeyBackSlash then Some 42
  else if key =? KeySlash then Some (if caps then 47 else 58)
  else if key =? KeyTab then Some 9
  else if key =? KeyBackSpace then Some 8
  else if key =? KeyReturn then Some 10
  else if key =? KeySpace then Some 32
  else if key =? KeyAdd then Some 43
  else if key =? KeySubtract then Some 45
  else if key =? KeyMultiply then Some 42
  else if key =? KeyDivide then Some 47
  else if key =? KeyNum0 then Some (if alt then 64 else 0xE0)
  else if key =? KeyNum1 then Some 38
  else if key =? KeyNum2 then Some (if alt then 126 else 0xE9)
  else if key =? KeyNum3 then Some (if alt then 35 else 34)
  else if key =? KeyNum4 then Some (if alt then 123 else 39)
  else if key =? KeyNum5 then Some (if alt then 91 else 40)
  else if key =? KeyNum6 then Some (if alt then 124 else 45)
  else if key =? KeyNum7 then Some (if alt then 96 else 0xE8)
  else if key =? KeyNum8 then Some (if alt then 92 else 95)
  else if key =? KeyNum9 then Some (if alt then 94 else 0xE7)
  else None.

Definition text_char (t : text_state) (key : Z) : option Z :=
  let caps := xorb (t.(lshift) || t.(rshift)) t.(capslock) in
  let alt := t.(lalt) || t.(ralt) in
  if (KeyA <=? key) && (key <=? KeyZ) then Some (key - KeyA + 65 + (if caps then 0 else 0x20))
  else if (KeyNum0 <=? key) && (key <=? KeyNum9) && caps then Some (key - KeyNum0 + 48)
  else if (KeyNumpad0 <=? key) && (key <=? KeyNumpad9) && t.(numlock) then Some (key - KeyNumpad0 + 48)
  else switch_char caps alt key.

(** ** The lights of the PS/2 keyboard *)

Definition ScrollLockLed : Z := 1.
Definition NumLockLed : Z := 2.
Definition CapsLockLed : Z := 4.
Definition LedCommand : Z := 0xED.

(** [outb] after the controller is ready, which the model does not wait for. *)
Definition set_leds (l : Z) : M system unit :=
  _ ← modify (fun s => set_port (s.(data_port) ++ [LedCommand]) s);
  modify (fun s => set_port (s.(data_port) ++ [l]) s).

Definition toggle_led (led : Z) (value : bool) : M system unit :=
  _ ← modify (fun s => set_led_bits (u8 (Z.land s.(leds) (Z.lnot led))) s);
  _ ← modify (fun s => set_led_bits (u8 (Z.lor s.(leds) (Z.land led (if value then 0xFF else 0)))) s);
  l ← gets leds;
  set_leds l.

Definition is_on (c : LEDState) : bool := match c with On => true | _ => false end.
Definition toggle_change (led : Z) (c : LEDState) : M system unit :=
  match c with Ignore => mret tt | _ => toggle_led led (is_on c) end.

Definition ps2_led_handler (e : LEDChangeEvent) : M system unit :=
  _ ← toggle_change CapsLockLed e.(caps_change);
  _ ← toggle_change ScrollLockLed e.(scroll_change);
  toggle_change NumLockLed e.(num_change).

(** ** [install_led_handler] *)

Definition max_kbd_count : Z := 256.
(** [led[kbd_id] = !led[kbd_id]]. *)
Definition flip (f : Z -> bool) (i : Z) : Z -> bool := fun j => if j =? i then negb (f j) else f j.
Definition shown (b : bool) : LEDState := if b then On else Off.

(** An access to a static array of [max_kbd_count] lights. *)
Definition led_slot (kbd_id : Z) : M system unit := if max_kbd_count <=? kbd_id then fail BadAccess else mret tt.

Definition led_lock (kbd_id key : Z) : M system LEDChangeEvent :=
  if key =? KeyMajLock then
    _ ← led_slot kbd_id;
    _ ← modify (fun s => set_caps_led (flip s.(caps_led) kbd_id) s);
    s ← get; mret (mk_leds kbd_id Ignore (shown (s.(caps_led) kbd_id)) Ignore)
  else if key =? KeyNumLock then
    _ ← led_slot kbd_id;
    _ ← modify (fun s => set_num_led (flip s.(num_led) kbd_id) s);
    s ← get; mret (mk_leds kbd_id (shown (s.(num_led) kbd_id)) Ignore Ignore)
  else if key =? KeyScrollLock then
    _ ← led_slot kbd_id;
    _ ← modify (fun s => set_scroll_led (flip s.(scroll_led) kbd_id) s);
    s ← get; mret (mk_leds kbd_id Ignore Ignore (shown (s.(scroll_led) kbd_id)))
  else mret (mk_leds kbd_id Ignore Ignore Ignore).

(** ** [Keyboard]: what the rest of the kernel asks *)

Definition shift (s : system) : bool := s.(text).(lshift) || s.(text).(rshift).
Definition alt (s : system) : bool := s.(text).(lalt) || s.(text).(ralt).
Definition caps (s : system) : bool := xorb (shift s) s.(text).(capslock).
Definition ctrl (s : system) : bool := s.(text).(lctrl) || s.(text).(rctrl).

(** ** The keys of [global_init] *)

Definition call_out (o : output) : M system unit := modify (fun s => set_outputs (s.(outputs) ++ [o]) s).
Definition key_commands (key : Z) (pressed : bool) : M system unit :=
  s ← get;
  when pressed
    (if key =? KeyPageUp then call_out (scroll_history (-10))
     else if key =? KeyPageDown then call_out (scroll_history 10)
     else if key =? KeyRight then call_out (move_cursor 1)
     else if key =? KeyLeft then call_out (move_cursor (-1))
     else if (key =? KeyDelete) && ctrl s && alt s then call_out send_ResetMessage
     else if key =? KeyDelete then _ ← call_out forward_delete; call_out force_redraw_input
     else if (key =? KeyP) && ctrl s && alt s then fail Panic
     else mret tt).

(** ** Sending

    A handler sends events of its own; [depth] bounds how deep the sends are nested: a driver
    event causes a key event, which causes the events of the text and the lights. *)

Fixpoint call (depth : nat) (e : event) (h : Handler) : M system unit :=
  match depth with
  | O => fail OutOfFuel
  | S depth =>
      let send_event e :=
        n ← gets (fun s => length (handlers s.(kmsgbus) (type_id e)));
        _ ← send kmsgbus (call depth e) (S n) (type_id e); mret tt in
      match h, e with
      | MappingHandler mapping id, DriverKbdEvent kbd_id position pressed =>
          when ((kbd_id =? id) && Ztrue (mapping position)) (send_event (KeyEvent kbd_id (mapping position) pressed))
      | HandleKey, KeyEvent kbd_id key pressed =>
          _ ← modify (fun s => set_text (handle_modifiers key pressed s.(text)) s);
          t ← gets text;
          if pressed
          then match text_char t key with Some c => send_event (TextEnteredEvent c) | None => mret tt end
          else mret tt
      | LedHandler, KeyEvent kbd_id key pressed =>
          when pressed (e ← led_lock kbd_id key; send_event (LEDChange e))
      | PS2LedHandler, LEDChange e => ps2_led_handler e
      | TextListener, TextEnteredEvent c => _ ← call_out (add_input c); call_out force_redraw_input
      | KeyCommands, KeyEvent _ key pressed => key_commands key pressed
      | _, _ => fail BadAccess
      end
  end.

(** [kmsgbus.send(e)]. *)
Definition send_event (e : event) : M system unit :=
  n ← gets (fun s => length (handlers s.(kmsgbus) (type_id e)));
  _ ← send kmsgbus (call 3 e) (S n) (type_id e); mret tt.

(** ** [PS2Keyboard] *)

(** The calls of [define_assoc] and of [define_e0_assoc]. *)
Definition assoc_defs : list (Z * Z * Z) :=
  [(0x01, 0, 0); (0x02, 1, 1); (0x03, 2, 1); (0x04, 3, 1); (0x05, 4, 1); (0x06, 5, 1); (0x07, 6, 1);
    (0x08, 7, 1); (0x09, 8, 1); (0x0A, 9, 1); (0x0B, 10, 1); (0x0C, 11, 1); (0x0D, 12, 1); (0x0E, 13, 1);
    (0x0F, 0, 2); (0x10, 1, 2); (0x11, 2, 2); (0x12, 3, 2); (0x13, 4, 2); (0x14, 5, 2); (0x15, 6, 2);
    (0x16, 7, 2); (0x17, 8, 2); (0x18, 9, 2); (0x19, 10, 2); (0x1A, 11, 2); (0x1B, 12, 2); (0x1C, 12, 3);
    (0x1D, 0, 5); (0x1E, 1, 3); (0x1F, 2, 3); (0x20, 3, 3); (0x21, 4, 3); (0x22, 5, 3); (0x23, 6, 3);
    (0x24, 7, 3); (0x25, 8, 3); (0x26, 9, 3); (0x27, 10, 3); (0x28, 11, 3); (0x29, 0, 1); (0x2A, 0, 4);
    (0x2B, 13, 2); (0x2C, 2, 4); (0x2D, 3, 4); (0x2E, 4, 4); (0x2F, 5, 4); (0x30, 6, 4); (0x31, 7, 4);
    (0x32, 8, 4); (0x33, 9, 4); (0x34, 10, 4); (0x35, 11, 4); (0x36, 12, 4); (0x37, 19, 1); (0x38, 2, 5);
    (0x39, 3, 5); (0x3A, 0, 3); (0x3B, 1, 0); (0x3C, 2, 0); (0x3D, 3, 0); (0x3E, 4, 0); (0x3F, 5, 0);
    (0x40, 6, 0); (0x41, 7, 0); (0x42, 8, 0); (0x43, 9, 0); (0x44, 10, 0); (0x45, 17, 1); (0x46, 15, 0);
    (0x47, 17, 2); (0x48, 18, 2); (0x49, 19, 2); (0x4A, 20, 1); (0x4B, 17, 3); (0x4C, 18, 3); (0x4D, 19, 3);
    (0x4E, 20, 3); (0x4F, 17, 4); (0x50, 18, 4); (0x51, 19, 4); (0x52, 17, 5); (0x53, 19, 5); (0x57, 11, 0);
    (0x58, 12, 0)].
Definition e0_assoc_defs : list (Z * Z * Z) :=
  [(0x1C, 20, 5); (0x1D, 13, 5); (0x35, 18, 1); (0x38, 10, 5); (0x47, 15, 1); (0x48, 15, 4); (0x49, 16, 1);
    (0x4B, 14, 5); (0x4D, 16, 5); (0x4F, 15, 2); (0x50, 15, 5); (0x51, 16, 2); (0x52, 14, 1); (0x53, 14, 2)].

Definition define (a : Z -> Z) (d : Z * Z * Z) : Z -> Z :=
  let '(code, x, y) := d in fun c => if c =? code then pos x y else a c.
Definition init_assocs : M system unit :=
  modify (set_assocs (fold_left define assoc_defs (fun _ => 0xFF)) (fold_left define e0_assoc_defs (fun _ => 0xFF))).

(** The interrupt handler; [code] is the byte of the data port. *)
Definition isr (code : Z) : M system unit :=
  if code =? 0xE0 then modify (set_e0 true)
  else
    let '(code, pressed) := if 0x80 <=? code then (code - 0x80, false) else (code, true) in
    s ← get;
    _ ← (if s.(last_is_e0) && negb (s.(e0_key_assocs) code =? 0xFF)
         then send_event (DriverKbdEvent 0 (s.(e0_key_assocs) code) pressed)
         else when (negb (s.(key_assocs) code =? 0xFF)) (send_event (DriverKbdEvent 0 (s.(key_assocs) code) pressed)));
    modify (set_e0 false).

(** ** Registration *)

Definition register (ty : event_type) (h : Handler) : M system unit :=
  modify (fun s => set_bus (register_handler ty h Normal s.(kmsgbus)).2 s).

(** [kbd::install_mapping]: the handle of the new handler is not kept. *)
Definition install_mapping (mapping : Mapping) (kbd_id : Z) : M system unit :=
  s ← get;
  _ ← match s.(current_handle) kbd_id with
      | Some hd => match remove_handler hd s.(kmsgbus) with Done b => modify (set_bus b) | Fault f => fail f end
      | None => mret tt
      end;
  register DriverKbdEvent_t (MappingHandler mapping kbd_id).

(** The constructor of [PS2Keyboard]; its command to the controller and the mask of the interrupt
    controller are not part of the state. *)
Definition PS2Keyboard : M system unit :=
  _ ← init_assocs;
  _ ← register LEDChange_t PS2LedHandler;
  set_leds 0.

(** The part of [global_init] that starts the keyboard, after the driver. *)
Definition init_keyboard (map0 : Mapping) : M system unit :=
  _ ← PS2Keyboard;
  _ ← install_mapping (azerty map0) 0;
  _ ← register KeyEvent_t HandleKey;
  _ ← register KeyEvent_t LedHandler;
  _ ← register TextEnteredEvent_t TextListener;
  register KeyEvent_t KeyCommands.

(** The members before any constructor has run. *)
Definition power_on : system :=
  mk_system empty_bus (fun _ => None) (mk_text false false false false false false false false)
    (fun _ => false) (fun _ => false) (fun _ => false) 0 false (fun _ => 0) (fun _ => 0) [] [].

End Keyboard.

(** * KeyboardProofs: what is typed, and what the lights show

    The reference reads the history of the keys: a modifier is down when its last
    event was a press, a lock is on after an odd number of presses. *)
Import MessageBus Keyboard.

Module KeyboardProofs.

(** ** The reference *)

Abbreviation history := (list (Z * bool)).

Definition held (k : Z) (h : history) : bool := default false (snd <$> last (filter (fun e => e.1 = k) h)).
Definition toggled (k : Z) (h : history) : bool := Nat.odd (length (filter (fun e => e = (k, true)) h)).

Definition mods (h : history) : text_state :=
  mk_text (held KeyLShift h) (held KeyRShift h) (held KeyLAlt h) (held KeyRAlt h) (held KeyLControl h)
    (held KeyRControl h) (toggled KeyMajLock h) (toggled KeyNumLock h).

(** Ctrl and Alt are both down. *)
Definition ctrl_alt (h : history) : bool :=
  (held KeyLControl h || held KeyRControl h) && (held KeyLAlt h || held KeyRAlt h).

(** What the last key of [h] gives: its character, and its command. *)
Definition typed_by (h : history) (key : Z) : list output :=
  match text_char (mods h) key with Some c => [add_input c; force_redraw_input] | None => [] end.
Definition command_table : list (Z * list output) :=
  [(KeyPageUp, [scroll_history (-10)]); (KeyPageDown, [scroll_history 10]); (KeyRight, [move_cursor 1]); (KeyLeft, [move_cursor (-1)])].
Definition commanded_by (h : history) (key : Z) : list output :=
  if key =? KeyDelete then (if ctrl_alt h then [send_ResetMessage] else [forward_delete; force_redraw_input])
  else default [] (snd <$> List.find (fun e => key =? e.1) command_table).

(** The calls for the keys of [rest] after those of [past], and whether one of them is the key that
    stops the kernel. *)
Fixpoint outputs_from (past rest : history) : list output :=
  match rest with
  | [] => []
  | e :: rest =>
      (if e.2 then typed_by (past ++ [e]) e.1 ++ commanded_by (past ++ [e]) e.1 else []) ++ outputs_from (past ++ [e]) rest
  end.
Fixpoint panics_from (past rest : history) : bool :=
  match rest with
  | [] => false
  | e :: rest => (e.2 && (e.1 =? KeyP) && ctrl_alt (past ++ [e])) || panics_from (past ++ [e]) rest
  end.
(** The text: the characters among the calls. *)
Definition typed_text (h : history) : list Z := omap (fun o => match o with add_input c => Some c | _ => None end) (outputs_from [] h).

(** The byte of the lights. *)
Definition led_byte (h : history) : Z :=
  b2z (toggled KeyScrollLock h) + 2 * b2z (toggled KeyNumLock h) + 4 * b2z (toggled KeyMajLock h).

(** The keys of a sequence of scan codes. *)
Definition positions : Z -> Z := fold_left define assoc_defs (fun _ => 0xFF).
Definition e0_positions : Z -> Z := fold_left define e0_assoc_defs (fun _ => 0xFF).
Definition position (e0 : bool) (code : Z) : Z :=
  if e0 && negb (e0_positions code =? 0xFF) then e0_positions code else positions code.

Section keystrokes.
Context (mapping : Mapping).
Definition key_of (e0 : bool) (code : Z) (pressed : bool) : history :=
  let p := position e0 code in
  if (p =? 0xFF) || (mapping p =? 0) then [] else [(mapping p, pressed)].
Fixpoint keystrokes (e0 : bool) (codes : list Z) : history :=
  match codes with
  | [] => []
  | c :: codes =>
      if c =? 0xE0 then keystrokes true codes
      else key_of e0 (if 0x80 <=? c then c - 0x80 else c) (c <? 0x80) ++ keystrokes false codes
  end.
End keystrokes.

(** ** Histories *)

Lemma held_snoc k h k' p : held k (h ++ [(k', p)]) = if k' =? k then p else held k h.
Proof.
  unfold held. rewrite filter_app. destruct (Z.eqb_spec k' k) as [->|Hne].
  - rewrite (filter_cons_True _ (k, p)), filter_nil by done. by rewrite last_snoc.
  - rewrite (filter_cons_False _ (k', p)) by done. by rewrite filter_nil, app_nil_r.
Qed.

Lemma toggled_snoc k h k' p : toggled k (h ++ [(k', p)]) = xorb ((k' =? k) && p) (toggled k h).
Proof.
  unfold toggled. rewrite filter_app, length_app, Nat.odd_add, xorb_comm. f_equal.
  destruct (Z.eqb_spec k' k) as [->|Hne], p; simpl.
  - by rewrite (filter_cons_True _ (k, true)).
  - by rewrite (filter_cons_False _ (k, false)).
  - by rewrite (filter_cons_False _ (k', true)) by congruence.
  - by rewrite (filter_cons_False _ (k', false)) by congruence.
Qed.

Lemma mods_snoc h k p : mods (h ++ [(k, p)]) = handle_modifiers k p (mods h).
Proof.
  unfold mods. rewrite !held_snoc, !toggled_snoc. unfold handle_modifiers.
  repeat match goal with |- context[k =? ?c] => destruct (Z.eqb_spec k c) as [->|?] end;
    try done; by destruct p.
Qed.

Lemma outputs_from_snoc past h e : outputs_from past (h ++ [e]) =
  outputs_from past h ++ (if e.2 then typed_by (past ++ h ++ [e]) e.1 ++ commanded_by (past ++ h ++ [e]) e.1 else []).
Proof.
  revert past. induction h as [|x h IH]; intros past; simpl; [by rewrite app_nil_r|].
  by rewrite IH, <- !app_assoc.
Qed.
Lemma panics_from_app past h1 h2 : panics_from past (h1 ++ h2) = panics_from past h1 || panics_from (past ++ h1) h2.
Proof.
  revert past. induction h1 as [|x h1 IH]; intros past; simpl; [by rewrite app_nil_r|].
  by rewrite IH, <- app_assoc, orb_assoc.
Qed.

(** ** The running keyboard *)

(** The bus after [init_keyboard]. *)
Definition boot_bus (mapping : Mapping) (ty : event_type) : list (Entry Handler) :=
  match ty with
  | LEDChange_t => [mk_entry 0 PS2LedHandler Normal]
  | DriverKbdEvent_t => [mk_entry 1 (MappingHandler mapping 0) Normal]
  | KeyEvent_t => [mk_entry 2 HandleKey Normal; mk_entry 3 LedHandler Normal; mk_entry 5 KeyCommands Normal]
  | TextEnteredEvent_t => [mk_entry 4 TextListener Normal]
  end.

(** The state after the keys [h]; [e0] tells whether the last byte was the prefix. *)
Record tracks (mapping : Mapping) (h : history) (e0 : bool) (s : system) : Prop := {
  tr_bus : forall ty, handlers s.(kmsgbus) ty = boot_bus mapping ty;
  tr_text : s.(text) = mods h;
  tr_caps : s.(caps_led) 0 = toggled KeyMajLock h;
  tr_num : s.(num_led) 0 = toggled KeyNumLock h;
  tr_scroll : s.(scroll_led) 0 = toggled KeyScrollLock h;
  tr_leds : s.(leds) = led_byte h;
  tr_port : last s.(data_port) = Some (led_byte h);
  tr_e0 : s.(last_is_e0) = e0;
  tr_assocs : s.(key_assocs) = positions;
  tr_e0_assocs : s.(e0_key_assocs) = e0_positions;
  tr_outputs : s.(outputs) = outputs_from [] h }.

(** The kernel stops when [bad], and else the operation ends in a state of [P]. *)
Definition stops_or (bad : bool) (m : M system unit) (s : system) (P : system -> Prop) : Prop :=
  if bad then m s = Fault Panic else exists s', m s = Done (tt, s') /\ P s'.
Lemma stops_or_bind b1 b2 m1 (m2 : unit -> M system unit) s P Q : stops_or b1 m1 s P ->
  (forall s', P s' -> stops_or b2 (m2 tt) s' Q) -> stops_or (b1 || b2) (m1 ≫= m2) s Q.
Proof.
  unfold stops_or, mbind, M_bind. destruct b1; cbn [orb]; [by intros ->|]. intros (s' & E & HP) H. specialize (H s' HP). by rewrite E.
Qed.
Lemma stops_or_get b (m : system -> M system unit) s P : stops_or b (m s) s P -> stops_or b (get ≫= m) s P.
Proof. done. Qed.
Lemma stops_or_impl b m s (P Q : system -> Prop) : stops_or b m s P -> (forall s', P s' -> Q s') -> stops_or b m s Q.
Proof. unfold stops_or. destruct b; [done|]. intros (s' & E & H) HQ. eauto. Qed.

(** A send to one handler, and to three of which only the last one may stop the kernel, when they
    leave their list alone. *)
Abbreviation send_to run ty := (n ← gets (fun s => length (handlers s.(kmsgbus) ty)); _ ← send kmsgbus run (S n) ty; mret tt).
Lemma send_one bad (run : Handler -> M system unit) ty i a s P :
  handlers s.(kmsgbus) ty = [mk_entry i a Normal] ->
  stops_or bad (run a) s (fun s1 => handlers s1.(kmsgbus) ty = handlers s.(kmsgbus) ty /\ P s1) ->
  stops_or bad (send_to run ty) s P.
Proof.
  intros E R. unfold stops_or, send, mbind, M_bind, gets in *. rewrite E. cbn [length send_loop].
  unfold mbind, M_bind, gets. rewrite E. cbn [remaining priority handler entry_id]. destruct bad; [by rewrite R|].
  destruct R as (s1 & -> & E1 & HP). exists s1. split; [|done].
  cbn [send_loop]. unfold mbind, M_bind, gets. rewrite E1, E. cbn [remaining after entry_id]. by rewrite Nat.eqb_refl.
Qed.
Lemma send_three bad (run : Handler -> M system unit) ty i j k a b c s s1 s2 P : i <> j /\ i <> k /\ j <> k ->
  handlers s.(kmsgbus) ty = [mk_entry i a Normal; mk_entry j b Normal; mk_entry k c Normal] ->
  run a s = Done (tt, s1) -> handlers s1.(kmsgbus) ty = handlers s.(kmsgbus) ty ->
  run b s1 = Done (tt, s2) -> handlers s2.(kmsgbus) ty = handlers s.(kmsgbus) ty ->
  stops_or bad (run c) s2 (fun s3 => handlers s3.(kmsgbus) ty = handlers s.(kmsgbus) ty /\ P s3) ->
  stops_or bad (send_to run ty) s P.
Proof.
  intros (Hij & Hik & Hjk) E R1 E1 R2 E2 R3.
  unfold stops_or, send, mbind, M_bind, gets in *. rewrite E. cbn [length send_loop].
  unfold mbind, M_bind, gets. rewrite E. cbn [remaining priority handler entry_id]. rewrite R1.
  cbn [send_loop]. unfold mbind, M_bind, gets. rewrite E1, E. cbn [remaining after entry_id]. rewrite Nat.eqb_refl.
  cbn [priority handler entry_id]. rewrite R2.
  cbn [send_loop]. unfold mbind, M_bind, gets. rewrite E2, E. cbn [remaining after entry_id].
  rewrite (proj2 (Nat.eqb_neq i j)), Nat.eqb_refl by done. cbn [priority handler entry_id]. destruct bad; [by rewrite R3|].
  destruct R3 as (s3 & -> & E3 & HP). exists s3. split; [|done].
  cbn [send_loop]. unfold mbind, M_bind, gets. rewrite E3, E. cbn [remaining after entry_id].
  by rewrite (proj2 (Nat.eqb_neq i k)), (proj2 (Nat.eqb_neq j k)), Nat.eqb_refl by done.
Qed.

(** *** A character *)

Lemma handle_key_run mapping h e0 s d k p : tracks mapping h e0 s ->
  call (S (S d)) (KeyEvent 0 k p) HandleKey s =
    Done (tt, set_outputs (s.(outputs) ++ if p then typed_by (h ++ [(k, p)]) k else [])
                (set_text (mods (h ++ [(k, p)])) s)).
Proof.
  intros T. cbn [call]. rewrite run_bind_modify, run_bind_gets. cbn [set_text text].
  rewrite (tr_text _ _ _ _ T), <- mods_snoc. unfold typed_by. destruct p; [|by rewrite app_nil_r; destruct s].
  destruct (text_char (mods (h ++ [(k, true)])) k) as [c|]; [|simpl; by rewrite app_nil_r; destruct s].
  set (s1 := set_text _ s). set (s2 := set_outputs _ s1).
  destruct (send_one false (call (S d) (TextEnteredEvent c)) TextEnteredEvent_t 4 TextListener s1 (fun s' => s' = s2)) as (s' & E & ->).
  - apply (tr_bus _ _ _ _ T TextEnteredEvent_t).
  - exists s2. split; [|done]. unfold s2. cbn [call]. unfold call_out, mbind, M_bind, modify. cbn. by rewrite <- app_assoc.
  - exact E.
Qed.

(** *** A command *)

Lemma key_commands_run h s k p : s.(text) = mods (h ++ [(k, p)]) ->
  stops_or (p && (k =? KeyP) && ctrl_alt (h ++ [(k, p)])) (key_commands k p) s
    (fun s' => s' = set_outputs (s.(outputs) ++ if p then commanded_by (h ++ [(k, p)]) k else []) s).
Proof.
  intros T. set (h' := h ++ [(k, p)]) in *. assert (C : ctrl s && alt s = ctrl_alt h') by (unfold ctrl, alt; by rewrite T).
  unfold key_commands, when. apply stops_or_get. unfold stops_or. destruct p; cbn [andb].
  2: { exists s. split; [done|]. rewrite app_nil_r. by destruct s. }
  rewrite <- !andb_assoc, C. unfold commanded_by, command_table, call_out. cbn [List.find fst].
  repeat match goal with |- context[k =? ?c] => destruct (Z.eqb_spec k c) as [->|?]; [|] end; cbn;
    destruct (ctrl_alt h'); try done; eexists; (split; [reflexivity|]); unfold set_outputs; cbn; rewrite <- ?app_assoc, ?app_nil_r; by destruct s.
Qed.

(** *** The lights *)

Lemma led_byte_snoc h k p : led_byte (h ++ [(k, p)]) =
  b2z (xorb ((k =? KeyScrollLock) && p) (toggled KeyScrollLock h)) +
  2 * b2z (xorb ((k =? KeyNumLock) && p) (toggled KeyNumLock h)) +
  4 * b2z (xorb ((k =? KeyMajLock) && p) (toggled KeyMajLock h)).
Proof. unfold led_byte. by rewrite !toggled_snoc. Qed.

(** The part of the state that belongs to the lights follows the history [h]. *)
Definition lit (h : history) (s : system) : Prop :=
  s.(caps_led) 0 = toggled KeyMajLock h /\ s.(num_led) 0 = toggled KeyNumLock h /\
  s.(scroll_led) 0 = toggled KeyScrollLock h /\ s.(leds) = led_byte h /\ last s.(data_port) = Some (led_byte h).
(** Nothing else changes. *)
Definition only_lights (s s' : system) : Prop :=
  s'.(kmsgbus) = s.(kmsgbus) /\ s'.(text) = s.(text) /\ s'.(last_is_e0) = s.(last_is_e0) /\
  s'.(key_assocs) = s.(key_assocs) /\ s'.(e0_key_assocs) = s.(e0_key_assocs) /\ s'.(outputs) = s.(outputs).

(** The lights the driver shows after a change. *)
Definition led_after (led : Z) (c : LEDState) (l : Z) : Z :=
  match c with
  | Ignore => l
  | _ => u8 (Z.lor (u8 (Z.land l (Z.lnot led))) (Z.land led (if is_on c then 0xFF else 0)))
  end.

(** A step of the driver: the arrays of the lock keys stay, the port shows the byte [l]. *)
Definition driver_step (s s' : system) (l : Z) : Prop :=
  only_lights s s' /\ s'.(caps_led) = s.(caps_led) /\ s'.(num_led) = s.(num_led) /\ s'.(scroll_led) = s.(scroll_led) /\
  s'.(leds) = l /\ (last s.(data_port) = Some s.(leds) -> last s'.(data_port) = Some l).

Lemma toggle_change_run led c s : exists s', toggle_change led c s = Done (tt, s') /\ driver_step s s' (led_after led c s.(leds)).
Proof.
  destruct c; eexists; (split; [reflexivity|]); (split; [done|]); split_and!; try done;
    intros _; cbn [data_port set_port set_led_bits leds]; by rewrite last_snoc.
Qed.

Lemma driver_step_trans s1 s2 s3 l f : driver_step s1 s2 l -> driver_step s2 s3 (f s2.(leds)) -> driver_step s1 s3 (f l).
Proof.
  intros ((A1 & A2 & A3 & A4 & A5 & A6) & B1 & B2 & B3 & B4 & B5) ((C1 & C2 & C3 & C4 & C5 & C6) & D1 & D2 & D3 & D4 & D5).
  rewrite B4 in D4, D5. split; [split_and!; congruence|]. split_and!; try congruence. auto.
Qed.

Lemma ps2_led_run e s : exists s', ps2_led_handler e s = Done (tt, s') /\ driver_step s s'
  (led_after NumLockLed e.(num_change) (led_after ScrollLockLed e.(scroll_change) (led_after CapsLockLed e.(caps_change) s.(leds)))).
Proof.
  destruct (toggle_change_run CapsLockLed (caps_change e) s) as (s1 & E1 & D1).
  destruct (toggle_change_run ScrollLockLed (scroll_change e) s1) as (s2 & E2 & D2).
  destruct (toggle_change_run NumLockLed (num_change e) s2) as (s3 & E3 & D3).
  exists s3. split.
  - unfold ps2_led_handler. etrans; [eapply run_bind_done, E1|]. etrans; [eapply run_bind_done, E2|]. done.
  - eapply driver_step_trans; [|apply D3]. by eapply driver_step_trans.
Qed.

Lemma led_lock_run k s : exists e s', led_lock 0 k s = Done (e, s') /\ only_lights s s' /\
  s'.(leds) = s.(leds) /\ s'.(data_port) = s.(data_port) /\
  s'.(caps_led) 0 = xorb (k =? KeyMajLock) (s.(caps_led) 0) /\ s'.(num_led) 0 = xorb (k =? KeyNumLock) (s.(num_led) 0) /\
  s'.(scroll_led) 0 = xorb (k =? KeyScrollLock) (s.(scroll_led) 0) /\
  e.(caps_change) = (if k =? KeyMajLock then shown (s'.(caps_led) 0) else Ignore) /\
  e.(num_change) = (if k =? KeyNumLock then shown (s'.(num_led) 0) else Ignore) /\
  e.(scroll_change) = (if k =? KeyScrollLock then shown (s'.(scroll_led) 0) else Ignore).
Proof.
  unfold led_lock. destruct (Z.eqb_spec k KeyMajLock) as [->|]; [|destruct (Z.eqb_spec k KeyNumLock) as [->|];
    [|destruct (Z.eqb_spec k KeyScrollLock) as [->|]]];
    eexists _, _; (split; [reflexivity|]); (split; [by split_and!|]); cbn [set_caps_led set_num_led set_scroll_led caps_led num_led scroll_led flip];
    split_and!; rewrite ?xorb_false_l, ?xorb_true_l; done.
Qed.

Lemma led_handler_run mapping h s d k p : handlers s.(kmsgbus) LEDChange_t = boot_bus mapping LEDChange_t -> lit h s ->
  exists s', call (S (S d)) (KeyEvent 0 k p) LedHandler s = Done (tt, s') /\ lit (h ++ [(k, p)]) s' /\ only_lights s s'.
Proof.
  intros B (Hc & Hn & Hs & Hl & Hp). cbn [call]. destruct p; cbn [when].
  2: { exists s. split; [done|]. split; [|by split_and!]. unfold lit, led_byte. rewrite !toggled_snoc, !andb_false_r, !xorb_false_l.
       by split_and!. }
  destruct (led_lock_run k s) as (e & s1 & E1 & (O1 & O2 & O3 & O4 & O5 & O6) & L1 & P1 & C1 & N1 & S1 & Ec & En & Es).
  destruct (ps2_led_run e s1) as (s2 & E2 & (Q1 & Q2 & Q3 & Q4 & Q5 & Q6) & C2 & N2 & S2 & L2 & P2).
  exists s2. split; [|split].
  - etrans; [eapply run_bind_done, E1|].
    destruct (send_one false (call (S d) (LEDChange e)) LEDChange_t 0 PS2LedHandler s1 (fun s' => s' = s2)) as (s' & E & ->);
      [by rewrite O1, B|exists s2; by rewrite Q1|exact E].
  - assert (leds s2 = led_byte (h ++ [(k, true)])) as E.
    { rewrite L2, Ec, En, Es, C1, N1, S1, L1, Hl, Hc, Hn, Hs, led_byte_snoc, !andb_true_r. unfold led_byte.
      destruct (Z.eqb_spec k KeyMajLock) as [->|]; [|destruct (Z.eqb_spec k KeyNumLock) as [->|];
        [|destruct (k =? KeyScrollLock)]];
        destruct (toggled KeyScrollLock h), (toggled KeyNumLock h), (toggled KeyMajLock h); reflexivity. }
    unfold lit. rewrite C2, N2, S2, C1, N1, S1, !toggled_snoc, !andb_true_r, Hc, Hn, Hs.
    split_and!; [done|done|done|done|]. rewrite P2, <- L2; [by rewrite E|]. by rewrite P1, L1, Hl.
  - split_and!; congruence.
Qed.

(** *** A key *)

Lemma key_event_run mapping h e0 s d k p : tracks mapping h e0 s ->
  stops_or (panics_from h [(k, p)]) (send_to (call (S (S d)) (KeyEvent 0 k p)) KeyEvent_t) s (tracks mapping (h ++ [(k, p)]) e0).
Proof.
  intros T. pose proof (handle_key_run mapping h e0 s d k p T) as E1. set (s1 := set_outputs _ _) in E1.
  destruct (led_handler_run mapping h s1 d k p) as (s2 & E2 & (Hc & Hn & Hs & Hl & Hp) & (O1 & O2 & O3 & O4 & O5 & O6)).
  { apply T. }
  { destruct T; by split_and!. }
  cbn [panics_from]. rewrite orb_false_r.
  eapply (send_three _ _ KeyEvent_t 2 3 5 HandleKey LedHandler KeyCommands _ s1 s2);
    [done|apply (tr_bus _ _ _ _ T KeyEvent_t)|done|done|done|by rewrite O1|].
  eapply stops_or_impl; [apply (key_commands_run h s2 k p); by rewrite O2|]. intros s3 ->. cbn [set_outputs kmsgbus]. split; [by rewrite O1|].
  split; try done; cbn [set_outputs kmsgbus text last_is_e0 key_assocs e0_key_assocs outputs].
  - intros ty. rewrite O1. apply T.
  - rewrite O3. apply T.
  - rewrite O4. apply T.
  - rewrite O5. apply T.
  - rewrite O6. cbn [s1 set_outputs outputs]. rewrite (tr_outputs _ _ _ _ T), outputs_from_snoc. cbn [snd fst app].
    destruct p; by rewrite <- app_assoc.
Qed.

(** *** A byte of the keyboard *)

Lemma driver_event_run mapping h e0 s p pressed : tracks mapping h e0 s ->
  let l := if mapping p =? 0 then [] else [(mapping p, pressed)] in
  stops_or (panics_from h l) (send_event (DriverKbdEvent 0 p pressed)) s (tracks mapping (h ++ l) e0).
Proof.
  intros T l. unfold send_event. eapply (send_one _ _ DriverKbdEvent_t 1 (MappingHandler mapping 0)); [apply (tr_bus _ _ _ _ T DriverKbdEvent_t)|].
  apply (stops_or_impl _ _ _ (tracks mapping (h ++ l) e0)); [|intros s' T'; split; [by rewrite (tr_bus _ _ _ _ T), (tr_bus _ _ _ _ T')|exact T']].
  unfold l. cbn [call]. unfold Ztrue. destruct (mapping p =? 0) eqn:E0; cbn [negb andb when Z.eqb].
  - exists s. split; [done|]. by rewrite app_nil_r.
  - by apply (key_event_run mapping h e0 s 0).
Qed.

Lemma tracks_e0 mapping h e0 e0' s : tracks mapping h e0 s -> tracks mapping h e0' (set_e0 e0' s).
Proof. intros []. by split. Qed.

(** The keys of one byte. *)
Definition byte_keys (mapping : Mapping) (e0 : bool) (c : Z) : history :=
  if c =? 0xE0 then [] else key_of mapping e0 (if 0x80 <=? c then c - 0x80 else c) (c <? 0x80).
Lemma isr_run mapping h e0 s c : tracks mapping h e0 s ->
  stops_or (panics_from h (byte_keys mapping e0 c)) (isr c) s (tracks mapping (h ++ byte_keys mapping e0 c) (c =? 0xE0)).
Proof.
  intros T. unfold isr, byte_keys. destruct (Z.eqb_spec c 0xE0) as [->|Hc].
  { eexists. split; [reflexivity|]. rewrite app_nil_r. by eapply tracks_e0. }
  set (code := if 0x80 <=? c then c - 0x80 else c). set (pressed := c <? 0x80).
  assert ((if 0x80 <=? c then (c - 0x80, false) else (c, true)) = (code, pressed)) as ->.
  { unfold code, pressed. destruct (Z.leb_spec 0x80 c), (Z.ltb_spec c 0x80); try done; lia. }
  cbv iota beta. apply stops_or_get. rewrite <- (orb_false_r (panics_from _ _)). eapply (stops_or_bind _ false _ _ _ (tracks mapping (h ++ key_of mapping e0 code pressed) e0)).
  - rewrite (tr_e0 _ _ _ _ T), (tr_assocs _ _ _ _ T), (tr_e0_assocs _ _ _ _ T). unfold key_of, position.
    destruct (e0 && negb (e0_positions code =? 0xFF)) eqn:E0.
    + apply andb_true_iff in E0 as [_ E0]. apply negb_true_iff in E0. rewrite E0. cbn [orb]. by apply driver_event_run.
    + destruct (positions code =? 0xFF); cbn [negb when orb]; [|by apply driver_event_run].
      exists s. split; [done|]. by rewrite app_nil_r.
  - intros s' T'. exists (set_e0 false s'). split; [done|]. by eapply tracks_e0.
Qed.

Lemma keystrokes_cons mapping e0 c codes : keystrokes mapping e0 (c :: codes) = byte_keys mapping e0 c ++ keystrokes mapping (c =? 0xE0) codes.
Proof. unfold byte_keys. cbn [keystrokes]. by destruct (c =? 0xE0). Qed.
Lemma isr_all_run mapping codes h e0 s : tracks mapping h e0 s ->
  stops_or (panics_from h (keystrokes mapping e0 codes)) (for_each codes isr) s
    (fun s' => exists e0', tracks mapping (h ++ keystrokes mapping e0 codes) e0' s').
Proof.
  revert h e0 s. induction codes as [|c codes IH]; intros h e0 s T.
  - exists s. split; [done|]. exists e0. by rewrite app_nil_r.
  - rewrite keystrokes_cons, panics_from_app. cbn [for_each].
    eapply stops_or_bind; [by apply isr_run|]. intros s1 T1. rewrite app_assoc. by apply IH.
Qed.

Lemma init_tracks map0 : exists s, init_keyboard map0 power_on = Done (tt, s) /\ tracks (azerty map0) [] false s.
Proof.
  eexists. split; [reflexivity|]. split; try done. intros ty. by destruct ty.
Qed.

(** C23: The keyboard types what its keys say and shows its locks.  After the kernel has started the
    keyboard and any bytes have arrived from it: when P was pressed while Ctrl and Alt were down,
    the kernel has stopped with a panic; else no handler has failed and no send was nested too
    deeply, the terminal has received, in order, the text of the keys pressed and the moves of the
    keys that scroll, move the cursor and delete, each character chosen by the modifiers whose last
    event was a press and by the locks pressed an odd number of times, the reset was asked for at
    each Ctrl+Alt+Delete, and the last byte sent to the keyboard lights exactly the locks that are
    on. *)
Theorem typing_spec map0 codes :
  let h := keystrokes (azerty map0) false codes in
  let boot := _ ← init_keyboard map0; for_each codes isr in
  if panics_from [] h then boot power_on = Fault Panic
  else exists s, boot power_on = Done (tt, s) /\ s.(outputs) = outputs_from [] h /\ s.(text) = mods h /\
    last s.(data_port) = Some (b2z (toggled KeyScrollLock h) + 2 * b2z s.(text).(numlock) + 4 * b2z s.(text).(capslock)).
Proof.
  cbv zeta. destruct (init_tracks map0) as (s0 & E0 & T0).
  pose proof (isr_all_run (azerty map0) codes [] false s0 T0) as R. unfold stops_or in R. cbn [app] in R.
  rewrite (run_bind_done _ _ _ _ _ E0). destruct (panics_from _ _); [done|]. destruct R as (s & E & e0 & T).
  exists s. rewrite (tr_text _ _ _ _ T). split_and!; [done|apply T|done|]. by rewrite (tr_port _ _ _ _ T).
Qed.

(** The three keys together, and the text of two letters. *)
Lemma panic_keys : panics_from [] (keystrokes (azerty (fun _ => 0)) false [0x1D; 0x38; 0x19]) = true.
Proof. vm_compute. reflexivity. Qed.
Lemma two_letters : typed_text (keystrokes (azerty (fun _ => 0)) false [0x2A; 0x1E; 0x9E; 0xAA; 0x30]) = [81; 98].
Proof. vm_compute. reflexivity. Qed.

(** ** The tables *)

(** No position is defined twice in the mapping, and no scan code twice in the driver;
    every position the driver knows is defined in the mapping but for the Enter key of the keypad. *)
Lemma azerty_positions : NoDup (map (fun '(x, y, _) => pos x y) azerty_defs).
Proof. apply (bool_decide_unpack _). vm_compute. exact I. Qed.
Lemma assoc_codes : NoDup (map (fun '(c, _, _) => c) assoc_defs) /\ NoDup (map (fun '(c, _, _) => c) e0_assoc_defs).
Proof. split; apply (bool_decide_unpack _); vm_compute; exact I. Qed.
Lemma undefined_positions :
  filter (fun p => p ∉ map (fun '(x, y, _) => pos x y) azerty_defs)
    (map (fun '(_, x, y) => pos x y) (assoc_defs ++ e0_assoc_defs)) = [pos 20 5].
Proof. vm_compute. reflexivity. Qed.

(** Hence the key of that position is whatever was in the memory. *)
Lemma keypad_enter_unset map0 : azerty map0 (pos 20 5) = map0 (pos 20 5).
Proof. reflexivity. Qed.

(** ** Deviations *)

(** A second mapping is added to the first one: every key is then typed twice. *)
Lemma second_mapping_doubles :
  exists s, (_ ← init_keyboard (fun _ => 0); _ ← install_mapping (azerty (fun _ => 0)) 0; isr 0x1E) power_on = Done (tt, s) /\
    s.(outputs) = [add_input 113; force_redraw_input; add_input 113; force_redraw_input].
Proof. eexists. split; vm_compute; reflexivity. Qed.

(** The prefixed codes [E0 2A] and [E0 AA] that a keyboard sends around the keys of the
    cursor are taken for the left shift key. *)
Lemma fake_shift : keystrokes (azerty (fun _ => 0)) false [0xE0; 0x2A; 0xE0; 0x48] = [(KeyLShift, true); (KeyUp, true)].
Proof. vm_compute. reflexivity. Qed.

(** The full stop of the keypad types nothing. *)
Lemma period_types_nothing t : text_char t KeyPeriod = None.
Proof. destruct t. unfold text_char. vm_compute. done. Qed.

End KeyboardProofs.
