(* ===== verification/Env.v ===== *)
(** * Env: the variables of the kernel, [kern/utils/env.cpp], and the level of the log

    The command line of the boot loader is a list of words [key=value] or [key].
    The messages about changed variables are kept in the order they are sent. *)
From stdpp Require Import base gmap list.
From Stdlib Require Import ZArith Lia.
From S2P Require Import Prelude Strto Paths.
Import Paths.

Module Env.

Record env := mk_env { kenv : gmap (list Z) (list Z); changes : list (list Z * list Z) }.

Definition ksetenv (key val : str) (e : env) : env :=
  mk_env (<[key := val]> e.(kenv)) (e.(changes) ++ [(key, val)]).

Definition kgetenv (s : str) (e : env) : option str := e.(kenv) !! s.

(** One word of the command line; [values[0]] and [values[1]] exist. *)
Definition read_entry (e : env) (entry : str) : outcome env :=
  let values := tokenize entry [61] false in
  let values := if (length values =? 1)%nat then values ++ [[]] else values in
  match values with
  | k :: v :: _ => Done (ksetenv k v e)
  | _ => Fault BadAccess
  end.

Fixpoint read_entries (entries : list str) (e : env) : outcome env :=
  match entries with
  | [] => Done e
  | w :: entries => e ← read_entry e w; read_entries entries e
  end.

Definition read_from_cmdline (cmdline : str) (e : env) : outcome env :=
  read_entries (tokenize cmdline [32] true) (mk_env ∅ e.(changes)).

(** ** [read_logging_config] *)

Definition Always : Z := 0.
Definition Notice : Z := 1.
Definition Info : Z := 2.
Definition Debug : Z := 3.

Definition strtolower (s : str) : str := map Strto.tolower s.
(** "loglevel", "none", "notice", "info", "debug". *)
Definition s_loglevel : str := [108; 111; 103; 108; 101; 118; 101; 108].
Definition s_none : str := [110; 111; 110; 101].
Definition s_notice : str := [110; 111; 116; 105; 99; 101].
Definition s_info : str := [105; 110; 102; 111].
Definition s_debug : str := [100; 101; 98; 117; 103].

Definition read_logging_config (e : env) (log_level : Z) : Z :=
  match kgetenv s_loglevel e with
  | None => log_level
  | Some v =>
      let level := strtolower v in
      let l := if bool_decide (level = s_none) then Always else log_level in
      let l := if bool_decide (level = s_notice) then Notice else l in
      let l := if bool_decide (level = s_info) then Info else l in
      if bool_decide (level = s_debug) then Debug else l
  end.

(** ** The words of a command line *)

(** A word with its value, or without one. *)
Definition word (w : str * option str) : str := w.1 ++ match w.2 with Some v => 61 :: v | None => [] end.
Definition assignment (w : str * option str) : str * str := (w.1, default [] w.2).

(** Keys and values hold neither blanks nor equals signs; a word alone is not empty. *)
Definition wf_word (w : str * option str) : Prop :=
  Forall (fun c => c <> 32 /\ c <> 61) w.1 /\
  match w.2 with Some v => Forall (fun c => c <> 32 /\ c <> 61) v | None => w.1 <> [] end.

Lemma clean_of d (s : str) : Forall (fun c => c <> 32 /\ c <> 61) s -> d = 32 \/ d = 61 -> Forall (fun c => c <> d) s.
Proof. intros F Hd. eapply Forall_impl; [done|]. simpl. intros c [? ?]. by destruct Hd as [->| ->]. Qed.

Lemma read_entry_run e w : wf_word w -> read_entry e (word w) = Done (ksetenv w.1 (default [] w.2) e).
Proof.
  destruct w as [k [v|]]; intros [Hk Hv]; simpl in *; unfold read_entry, word; simpl.
  - rewrite tokenize_step by (apply clean_of; auto). rewrite orb_true_r. cbn [app].
    destruct v as [|c v]; [done|]. by rewrite tokenize_last by (done || (apply clean_of; auto)).
  - rewrite app_nil_r, tokenize_last by (done || (apply clean_of; auto)). done.
Qed.

Lemma word_component w : wf_word w -> component 32 (word w).
Proof.
  destruct w as [k [v|]]; intros [Hk Hv]; unfold word; simpl in *; split.
  - apply Forall_app. split; [apply clean_of; auto|]. constructor; [done|]. apply clean_of; auto.
  - by destruct k.
  - rewrite app_nil_r. apply clean_of; auto.
  - by rewrite app_nil_r.
Qed.

Lemma tokenize_words ws : Forall wf_word ws -> tokenize (join (map word ws) [32]) [32] true = map word ws.
Proof.
  intros W. assert (Forall (component 32) (map word ws)) as C.
  { apply Forall_fmap. eapply Forall_impl; [done|]. intros w. apply word_component. }
  destruct (decide (map word ws = [])) as [E|N]; [by rewrite E|]. destruct (exists_last N) as (init & t & E).
  rewrite E in *. apply Forall_app in C as [Ci Ct]. apply Forall_singleton in Ct as [Ct Nt].
  rewrite join_concat, tokenize_join by done. by rewrite tokenize_last.
Qed.

Lemma read_entries_run ws e : Forall wf_word ws ->
  read_entries (map word ws) e = Done (fold_left (fun e w => ksetenv w.1 (default [] w.2) e) ws e).
Proof.
  intros W. revert e. induction W as [|w ws Hw W IH]; intros e; simpl; [done|].
  rewrite read_entry_run by done. apply IH.
Qed.

Lemma kgetenv_fold ws e k : kgetenv k (fold_left (fun e w => ksetenv w.1 (default [] w.2) e) ws e) =
  match last (filter (fun a => a.1 = k) (map assignment ws)) with Some a => Some a.2 | None => kgetenv k e end.
Proof.
  revert e. induction ws as [|w ws IH] using rev_ind; intros e; simpl; [done|].
  rewrite fold_left_app, map_app, filter_app. simpl. unfold kgetenv at 1, ksetenv at 1. cbn [kenv].
  destruct (decide (w.1 = k)) as [<-|Hne].
  - rewrite lookup_insert_eq. rewrite (filter_cons_True _ (assignment w)) by done. by rewrite filter_nil, last_snoc.
  - rewrite lookup_insert_ne by done. rewrite (filter_cons_False _ (assignment w)) by done.
    rewrite filter_nil, app_nil_r. apply IH.
Qed.

(** C29: The command line is read back: after [read_from_cmdline] of words [key=value] and [key], whatever
    the variables were before, [kgetenv] gives for every key the value of the last word that
    sets it, the empty string for a word without a value and nothing for a key that
    does not occur; the changes are announced in the order of the words. *)
Theorem cmdline_roundtrip ws e : Forall wf_word ws ->
  exists e', read_from_cmdline (join (map word ws) [32]) e = Done e' /\
    (forall k, kgetenv k e' = snd <$> last (filter (fun a => a.1 = k) (map assignment ws))) /\
    e'.(changes) = e.(changes) ++ map assignment ws.
Proof.
  intros W. unfold read_from_cmdline. rewrite tokenize_words, read_entries_run by done. eexists. split; [done|]. split.
  - intros k. rewrite kgetenv_fold. by destruct (last _).
  - clear W. generalize (changes e). induction ws as [|w ws IH] using rev_ind; intros l; simpl; [by rewrite app_nil_r|].
    rewrite fold_left_app, map_app. simpl. rewrite IH. by rewrite <- app_assoc.
Qed.

(** [a=1 quiet a=2]. *)
Lemma cmdline_roundtrip_witness :
  exists e', read_from_cmdline [97; 61; 49; 32; 113; 32; 97; 61; 50] (mk_env ∅ []) = Done e' /\
    (forall k, kgetenv k e' = snd <$> last (filter (fun a => a.1 = k) [([97], [49]); ([113], []); ([97], [50])])) /\
    e'.(changes) = [([97], [49]); ([113], []); ([97], [50])].
Proof.
  apply (cmdline_roundtrip [([97], Some [49]); ([113], None); ([97], Some [50])] (mk_env ∅ [])).
  repeat constructor; simpl; lia || done.
Defined.

(** A value ends at its second equals sign. *)
Lemma second_equals_cut :
  exists e', read_from_cmdline [97; 61; 98; 61; 99] (mk_env ∅ []) = Done e' /\ kgetenv [97] e' = Some [98].
Proof. eexists. split; vm_compute; reflexivity. Qed.

End Env.
