(* ===== verification/Mbr.v ===== *)
(** * Mbr: the partitions of a disk, [kern/fs/mbr/mbr.cpp]

    The table of partitions in the first sector, read from any disk; a
    partition is a slice of the disk. *)
From stdpp Require Import base list.
From Stdlib Require Import ZArith Lia.
From S2P Require Import Prelude Disk DiskProofs.
Import Disk DiskProofs.

Module Mbr.

(** ** [Partition::Data] *)

Record Data := mk_data {
  boot_flag : Z; start_head : Z; start_sector : Z; start_cylinder : Z; system_id : Z;
  end_head : Z; end_sector : Z; end_cylinder : Z; relative_sector : Z; sector_count : Z }.

(** The packed structure at [i] of the buffer; the bit fields are filled from the low bits. *)
Definition get8 (buf : list Z) (i : nat) : Z := nth i buf 0.
Definition get16 (buf : list Z) (i : nat) : Z := get8 buf i + 256 * get8 buf (i + 1).
Definition get32 (buf : list Z) (i : nat) : Z := get16 buf i + 65536 * get16 buf (i + 2).
Definition data_at (buf : list Z) (i : nat) : Data :=
  mk_data (get8 buf i) (get8 buf (i + 1)) (get16 buf (i + 2) mod 64) (get16 buf (i + 2) / 64) (get8 buf (i + 4))
    (get8 buf (i + 5)) (get16 buf (i + 6) mod 64) (get16 buf (i + 6) / 64) (get32 buf (i + 8)) (get32 buf (i + 12)).

Section partitions.
Context {D : Type} `{SD : SectorDevice D}.

(** A partition is a slice with the data of its entry and its number. *)
Record Partition := mk_partition { slice : DiskSlice D; data : Data; partition_number : Z }.

Definition addresses : list nat := [0x1BE; 0x1CE; 0x1DE; 0x1EE]%nat.

(** The loop, from index [i] on. *)
Fixpoint partition_loop (d : D) (buf : list Z) (i : Z) (l : list nat) : list Partition :=
  match l with
  | [] => []
  | a :: l =>
      let data := data_at buf a in
      (if data.(boot_flag) =? 0x80
       then [mk_partition (mkSlice d data.(relative_sector) data.(sector_count)) data (u8 (i + 1))] else [])
      ++ partition_loop d buf (i + 1) l
  end.

(** [disk.read(0, 512)] into a fresh buffer; an error of the disk gives no partitions. *)
Definition read_partitions (d : D) : outcome (list Partition) :=
  result ← read 0 (repeat 0 512) d;
  match result with
  | inl _ => Done []
  | inr buf =>
      if bool_decide (buf = []) then Done []
      else if negb (get8 buf 0x1fe =? 0x55) && negb (get8 buf 0x1ff =? 0xAA) then Done []
      else Done (partition_loop d buf 0 addresses)
  end.

(** ** What a table means *)

(** The sixteen bytes of an entry. *)
Definition b8 (v : Z) (k : Z) : Z := v / 256 ^ k mod 256.
Definition data_bytes (e : Data) : list Z :=
  let s := e.(start_sector) + 64 * e.(start_cylinder) in
  let t := e.(end_sector) + 64 * e.(end_cylinder) in
  [e.(boot_flag); e.(start_head); b8 s 0; b8 s 1; e.(system_id); e.(end_head); b8 t 0; b8 t 1;
   b8 e.(relative_sector) 0; b8 e.(relative_sector) 1; b8 e.(relative_sector) 2; b8 e.(relative_sector) 3;
   b8 e.(sector_count) 0; b8 e.(sector_count) 1; b8 e.(sector_count) 2; b8 e.(sector_count) 3].

Definition wf_data (e : Data) : Prop :=
  0 <= e.(start_sector) < 64 /\ 0 <= e.(start_cylinder) < 1024 /\ 0 <= e.(end_sector) < 64 /\ 0 <= e.(end_cylinder) < 1024 /\
  0 <= e.(relative_sector) < 2 ^ 32 /\ 0 <= e.(sector_count) < 2 ^ 32.

Lemma bytes16 v : 0 <= v < 65536 -> b8 v 0 + 256 * b8 v 1 = v.
Proof.
  intros Hv. unfold b8. change (256 ^ 0) with 1. change (256 ^ 1) with 256. Z.div_mod_to_equations. lia.
Qed.

Lemma bytes32 v : 0 <= v < 2 ^ 32 -> b8 v 0 + 256 * b8 v 1 + 65536 * (b8 v 2 + 256 * b8 v 3) = v.
Proof.
  intros Hv. unfold b8. change (256 ^ 0) with 1. change (256 ^ 1) with 256. change (256 ^ 2) with 65536.
  change (256 ^ 3) with 16777216. Z.div_mod_to_equations. lia.
Qed.

Lemma fields v lo hi : v = lo + 64 * hi -> 0 <= lo < 64 -> v mod 64 = lo /\ v / 64 = hi.
Proof. intros -> Hl. Z.div_mod_to_equations. lia. Qed.

(** An entry whose bytes are in the buffer is read back. *)
Lemma data_at_bytes buf a e : wf_data e -> (forall k, (k < 16)%nat -> get8 buf (a + k) = nth k (data_bytes e) 0) ->
  data_at buf a = e.
Proof.
  intros (H1 & H2 & H3 & H4 & H5 & H6) E. unfold data_at, get32, get16.
  rewrite <- !Nat.add_assoc. cbn [Nat.add]. rewrite !E by lia.
  rewrite <- (Nat.add_0_r a) at 1. rewrite E by lia. cbn [nth data_bytes].
  rewrite !bytes32 by done. rewrite !bytes16 by lia.
  destruct (fields (start_sector e + 64 * start_cylinder e) _ _ eq_refl H1) as [-> ->].
  destruct (fields (end_sector e + 64 * end_cylinder e) _ _ eq_refl H3) as [-> ->]. by destruct e.
Qed.

Lemma get8_bytes f n i : (i < Z.to_nat n)%nat -> get8 (bytes f 0 n) i = f (Z.of_nat i).
Proof. intros Hi. unfold get8. apply nth_lookup_Some. by apply bytes_lookup. Qed.

(** The partitions a table of entries stands for: those with the boot flag, numbered by their place. *)
Fixpoint active (d : D) (i : Z) (es : list Data) : list Partition :=
  match es with
  | [] => []
  | e :: es =>
      (if e.(boot_flag) =? 0x80 then [mk_partition (mkSlice d e.(relative_sector) e.(sector_count)) e i] else [])
      ++ active d (i + 1) es
  end.

(** The first sector of the disk holds the table [es] and the signature. *)
Definition has_table (d : D) (es : list Data) : Prop :=
  length es = 4%nat /\ Forall wf_data es /\
  (forall i, (i < 64)%nat -> contents d (0x1BE + Z.of_nat i) = nth i (es ≫= data_bytes) 0) /\
  contents d 0x1fe = 0x55 /\ contents d 0x1ff = 0xAA.

Lemma table_entry_at d es j e : has_table d es -> es !! j = Some e -> data_at (bytes (contents d) 0 512) (0x1BE + 16 * j) = e.
Proof.
  intros (L & W & T & _) Hj. assert (j < 4)%nat as Hj4 by (rewrite <- L; by eapply lookup_lt_Some).
  assert (wf_data e) as We by (by eapply Forall_lookup_1).
  destruct es as [|e1 [|e2 [|e3 [|e4 [|]]]]]; try done. apply data_at_bytes; [done|]. intros k Hk.
  rewrite get8_bytes by lia. replace (Z.of_nat (0x1BE + 16 * j + k)) with (0x1BE + Z.of_nat (16 * j + k)) by lia.
  rewrite T by lia. destruct j as [|[|[|[|]]]]; try lia; injection Hj as ->;
    do 16 (destruct k as [|k]; [reflexivity|]); lia.
Qed.

(** C27: The table of partitions is read: on a disk whose first sector holds four entries and the signature,
    [read_partitions] finds exactly the entries with the boot flag, numbered by their
    place in the table, with all their fields; and a partition that lies inside the disk is a disk of its own,
    whose bytes are those of the disk from its first sector on. *)
Theorem partitions_spec d es : sd_ok d -> 512 <= disk_size d -> has_table d es ->
  read_partitions d = Done (active d 1 es) /\
  forall p, p ∈ active d 1 es ->
    (p.(data).(relative_sector) + p.(data).(sector_count)) * sector_size d <= disk_size d ->
    sd_ok p.(slice) /\ disk_size p.(slice) = p.(data).(sector_count) * sector_size d /\
    forall x, contents p.(slice) x = contents d (p.(data).(relative_sector) * sector_size d + x).
Proof.
  intros O Hs T. pose proof (table_entry_at d es) as G. pose proof (fun j e => G j e T) as G'. clear G.
  destruct T as (L & W & _ & S1 & S2). split.
  - unfold read_partitions. rewrite read_aligned_run; [|done|lia|apply Z.divide_0_r|rewrite repeat_length; lia].
    rewrite repeat_length. change (Z.of_nat 512) with 512. cbn [mbind outcome_bind].
    rewrite bool_decide_false by (intros E; apply (f_equal length) in E; by rewrite bytes_length in E).
    rewrite !get8_bytes by lia. change (Z.of_nat 0x1fe) with 0x1fe. rewrite S1. cbn [Z.eqb Pos.eqb negb andb].
    destruct es as [|e1 [|e2 [|e3 [|e4 [|]]]]]; try done. unfold addresses. cbn [partition_loop active].
    pose proof (G' 0%nat e1 eq_refl) as E1. pose proof (G' 1%nat e2 eq_refl) as E2.
    pose proof (G' 2%nat e3 eq_refl) as E3. pose proof (G' 3%nat e4 eq_refl) as E4.
    cbn [Nat.mul Nat.add] in E1, E2, E3, E4. by rewrite E1, E2, E3, E4.
  - intros p Hp Hin.
    assert (exists e i, e ∈ es /\ p = mk_partition (mkSlice d e.(relative_sector) e.(sector_count)) e i) as (e & i & He & ->).
    { clear -Hp. revert Hp. generalize 1. induction es as [|e es IH]; intros i Hp; [by apply not_elem_of_nil in Hp|].
      cbn [active] in Hp. apply elem_of_app in Hp as [Hp|Hp].
      - destruct (boot_flag e =? 0x80); [|by apply not_elem_of_nil in Hp]. apply list_elem_of_singleton in Hp as ->.
        exists e, i. split; [left|done].
      - destruct (IH _ Hp) as (e' & i' & He & ->). exists e', i'. split; [by right|done]. }
    assert (wf_data e) as (_ & _ & _ & _ & H5 & H6) by (by eapply Forall_forall). cbn [data slice] in *.
    split_and!; [|done|done]. split_and!; [done|cbn; lia|cbn; lia|done].
Qed.

End partitions.

(** A memory disk with one active partition of sectors 2 and 3. *)
Definition sample_entry (flag rel n : Z) : Data := mk_data flag 1 2 3 0x83 4 5 6 rel n.
Definition sample_table : list Data := [sample_entry 0 1 1; sample_entry 0x80 2 2; sample_entry 0 0 0; sample_entry 0 0 0].
Definition sample_disk : MemoryDisk :=
  mkMemDisk (fun x => if x =? 0x1fe then 0x55 else if x =? 0x1ff then 0xAA
                      else if (0x1BE <=? x) && (x <? 0x1fe) then nth (Z.to_nat (x - 0x1BE)) (sample_table ≫= data_bytes) 0 else x / 512)
    2048 false.

Lemma sample_has_table : has_table sample_disk sample_table.
Proof.
  split_and!; [done| | |done|done].
  - repeat constructor; simpl; lia.
  - intros i Hi. do 64 (destruct i as [|i]; [reflexivity|]). lia.
Qed.

Lemma partitions_spec_witness :
  read_partitions sample_disk = Done [mk_partition (mkSlice sample_disk 2 2) (sample_entry 0x80 2 2) 2].
Proof.
  assert (sd_ok sample_disk) as O by (split; [done|]; split; [simpl; lia|by exists 4]).
  apply (partitions_spec sample_disk sample_table O ltac:(simpl; lia) sample_has_table).
Defined.

(** One byte of the signature is enough. *)
Lemma half_signature_accepted :
  exists p, read_partitions (mkMemDisk (fun x => if x =? 0x1ff then 0 else m_data sample_disk x) 2048 false) = Done [p].
Proof. eexists. vm_compute. reflexivity. Qed.

(** A partition without the boot flag is not found. *)
Lemma inactive_not_found : exists e, e ∈ sample_table /\ sector_count e = 1 /\
  forall p, p ∈ active sample_disk 1 sample_table -> data p <> e.
Proof.
  exists (sample_entry 0 1 1). split; [left|]. split; [done|].
  intros p Hp. cbn in Hp. apply list_elem_of_singleton in Hp as ->. done.
Qed.

End Mbr.
