(* ===== verification/Elf.v ===== *)
(** * Elf: headers, sections and symbols, [kern/elf/elf.cpp] and [symbol_table.cpp]

    The structures are read from the memory, a function from addresses to
    bytes.  [mmap] gives the address under which a physical range is visible to the
    kernel, and is never null; the range is unmapped again when the symbols have been copied.
    A null pointer that is followed is [BadAccess]. *)
From stdpp Require Import base gmap list.
From Stdlib Require Import ZArith Lia.
From S2P Require Import Prelude.

Module Elf.

(** ** Structures *)

Definition SHT_SYMTAB : Z := 2.
Definition SHT_STRTAB : Z := 3.
Definition STT_FILE : Z := 4.
Definition ET_REL : Z := 1.
Definition ET_EXEC : Z := 2.
Definition EM_386 : Z := 3.
Definition EV_CURRENT : Z := 1.
Definition ELFCLASS32 : Z := 1.
Definition ELFDATA2LSB : Z := 1.
Definition ELF32_ST_TYPE (info : Z) : Z := Z.land info 0x0F.

Record Elf32_Shdr := mk_shdr {
  sh_name : Z; sh_type : Z; sh_flags : Z; sh_addr : Z; sh_offset : Z; sh_size : Z; sh_link : Z; sh_info : Z;
  sh_addralign : Z; sh_entsize : Z }.
Record Elf32_Sym := mk_sym { st_name : Z; st_value : Z; st_size : Z; st_info : Z; st_other : Z; st_shndx : Z }.

Record SymbolInfo := mk_info { name : list Z; file : list Z; offset : Z }.

(** [std::unordered_map<uintptr_t, SymbolInfo>]. *)
Abbreviation table := (gmap Z SymbolInfo).

Section memory.
Context (load : Z -> Z) (mmap : Z -> Z -> Z).

Definition get16 (p : Z) : Z := load p + 256 * load (p + 1).
Definition get32 (p : Z) : Z := get16 p + 65536 * get16 (p + 2).

Definition shdr_at (p : Z) : Elf32_Shdr :=
  mk_shdr (get32 p) (get32 (p + 4)) (get32 (p + 8)) (get32 (p + 12)) (get32 (p + 16)) (get32 (p + 20)) (get32 (p + 24))
    (get32 (p + 28)) (get32 (p + 32)) (get32 (p + 36)).
Definition sym_at (p : Z) : Elf32_Sym :=
  mk_sym (get32 p) (get32 (p + 4)) (get32 (p + 8)) (load (p + 12)) (load (p + 13)) (get16 (p + 14)).

(** [elf::section]: a pointer to the first section of the type, or null. *)
Fixpoint section_loop (n : nat) (p type : Z) : Z :=
  match n with
  | O => 0
  | S n => if sh_type (shdr_at p) =? type then p else section_loop n (p + 40) type
  end.
Definition section (base size type : Z) : Z := section_loop (Z.to_nat size) base type.

Definition has_symbol_table (base sh_num : Z) : bool := negb (section base sh_num SHT_SYMTAB =? 0).

Definition check_file (hdr : Z) : bool :=
  negb (hdr =? 0) && (load hdr =? 0x7F) && (load (hdr + 1) =? 69) && (load (hdr + 2) =? 76) && (load (hdr + 3) =? 70).
Definition check_supported (hdr : Z) : bool :=
  check_file hdr && (load (hdr + 4) =? ELFCLASS32) && (load (hdr + 5) =? ELFDATA2LSB) && (get16 (hdr + 18) =? EM_386) &&
  (load (hdr + 6) =? EV_CURRENT) && ((get16 (hdr + 16) =? ET_REL) || (get16 (hdr + 16) =? ET_EXEC)).
(** [e_phoff] and [e_phentsize]. *)
Definition program_header (base idx : Z) : Z := u32 (base + get32 (base + 28) + u32 (idx * get16 (base + 42))).

(** [kpp::string(lookup_str(strtable, offset))]: the characters before the zero. *)
Fixpoint string_at (fuel : nat) (p : Z) : outcome (list Z) :=
  match fuel with
  | O => Fault OutOfFuel
  | S fuel => if load p =? 0 then Done [] else s ← string_at fuel (p + 1); mret (load p :: s)
  end.

Definition str_table (file hdr strtableidx : Z) : Z :=
  let sh := shdr_at (hdr + 40 * strtableidx) in
  if negb (sh_addr sh =? 0) then mmap (sh_addr sh) (sh_entsize sh) else sh_offset sh + file.

(** [elf::symbol]: [sh] is the header of the table with its [sh_addr] as it is now. *)
Definition symbol (current_elf_file : Z) (sh : Elf32_Shdr) (num : Z) : outcome Z :=
  if sh_entsize sh =? 0 then Fault BadAccess
  else if sh_size sh / sh_entsize sh <=? num then Done 0
  else if negb (sh_addr sh =? 0) then Done (sh_addr sh + 16 * num)
  else Done (sh_offset sh + current_elf_file + 16 * num).

(** ** [get_symbol_table] *)

(** The body of the loop; the state is [current_symbol_file] and the table. *)
Definition add_symbol (fuel : nat) (strtable : Z) (s : Elf32_Sym) (st : list Z * table) : outcome (list Z * table) :=
  let '(current, t) := st in
  if st_name s =? 0 then Done st
  else if ELF32_ST_TYPE (st_info s) =? STT_FILE then
    f ← string_at fuel (strtable + st_name s); mret (f, t)
  else if negb (st_value s =? 0) then
    n ← string_at fuel (strtable + st_name s); mret (current, <[st_value s := mk_info n current (st_value s)]> t)
  else Done st.

Fixpoint symbols_loop (fuel : nat) (file : Z) (sh : Elf32_Shdr) (strtable : Z) (n : nat) (j : Z) (st : list Z * table) :
  outcome (list Z * table) :=
  match n with
  | O => Done st
  | S n =>
      p ← symbol file sh j;
      if p =? 0 then Fault BadAccess
      else st ← add_symbol fuel strtable (sym_at p) st; symbols_loop fuel file sh strtable n (j + 1) st
  end.

Definition with_addr (a : Z) (s : Elf32_Shdr) : Elf32_Shdr :=
  mk_shdr (sh_name s) (sh_type s) (sh_flags s) a (sh_offset s) (sh_size s) (sh_link s) (sh_info s) (sh_addralign s) (sh_entsize s).

Definition get_symbol_table (fuel : nat) (file base sh_num : Z) : outcome table :=
  if (base =? 0) || (sh_num =? 0) then Done ∅
  else
    let strp := section base sh_num SHT_STRTAB in
    if strp =? 0 then Fault BadAccess
    else
      let str := shdr_at strp in
      let strtable := if negb (sh_addr str =? 0) then mmap (sh_addr str) (sh_size str) else file + sh_offset str in
      let symp := section base sh_num SHT_SYMTAB in
      if symp =? 0 then Done ∅
      else
        let sh := with_addr (mmap (sh_addr (shdr_at symp)) (sh_size (shdr_at symp))) (shdr_at symp) in
        if sh_entsize sh =? 0 then Fault BadAccess
        else
          '(_, t) ← symbols_loop fuel file sh strtable (Z.to_nat (sh_size sh / sh_entsize sh)) 0 ([], ∅);
          mret t.

Definition get_symbol_table_file (fuel : nat) (data : Z) : outcome table :=
  if negb (check_supported data) then Done ∅
  else get_symbol_table fuel data (data + get32 (data + 32)) (get16 (data + 48)).
End memory.

(** [SymbolTable::get_function]: [while (addr-- > KERNEL_VIRTUAL_BASE)]. *)
Definition KERNEL_VIRTUAL_BASE : Z := 0xC0000000.
Fixpoint get_function_loop (n : nat) (addr : Z) (t : table) : option SymbolInfo :=
  match n with
  | O => None
  | S n =>
      if KERNEL_VIRTUAL_BASE <? addr then
        match t !! (addr - 1) with Some i => Some i | None => get_function_loop n (addr - 1) t end
      else None
  end.
Definition get_function (addr : Z) (t : table) : option SymbolInfo := get_function_loop (Z.to_nat addr) addr t.

End Elf.

(** * ElfProofs: the symbol of an address *)
Import Elf.

Module ElfProofs.

(** ** The nearest symbol *)

(** [i] is the entry of [t] with the greatest address below [addr] in the kernel. *)
Definition nearest (t : table) (addr : Z) (i : SymbolInfo) : Prop :=
  exists k, KERNEL_VIRTUAL_BASE <= k < addr /\ t !! k = Some i /\ forall k', k < k' < addr -> t !! k' = None.

Lemma get_function_loop_spec n addr t i : addr - KERNEL_VIRTUAL_BASE <= Z.of_nat n ->
  get_function_loop n addr t = Some i <-> nearest t addr i.
Proof.
  revert addr. induction n as [|n IH]; intros addr Hn; cbn [get_function_loop].
  - split; [done|]. intros (k & Hk & _). lia.
  - destruct (Z.ltb_spec KERNEL_VIRTUAL_BASE addr) as [Hlt|Hge].
    2: { split; [done|]. intros (k & Hk & _). lia. }
    destruct (t !! (addr - 1)) as [j|] eqn:E.
    + split.
      * intros [= ->]. exists (addr - 1). split; [lia|]. split; [done|]. intros k' Hk'. lia.
      * intros (k & Hk & Ek & Hn'). destruct (decide (k = addr - 1)) as [->|Hne]; [congruence|].
        rewrite Hn' in E by lia. done.
    + rewrite IH by lia. split; intros (k & Hk & Ek & Hn').
      * exists k. split; [lia|]. split; [done|]. intros k' Hk'.
        destruct (decide (k' = addr - 1)) as [->|]; [done|]. apply Hn'. lia.
      * exists k. split; [destruct (decide (k = addr - 1)) as [->|]; [congruence|lia]|]. split; [done|].
        intros k' Hk'. apply Hn'. lia.
Qed.

Lemma get_function_spec addr t i : get_function addr t = Some i <-> nearest t addr i.
Proof. apply get_function_loop_spec. unfold KERNEL_VIRTUAL_BASE. lia. Qed.

(** ** The table *)

(** A symbol with its name. *)
Abbreviation named := (Elf32_Sym * list Z)%type.
Definition is_file (x : named) : Prop := st_name x.1 <> 0 /\ ELF32_ST_TYPE (st_info x.1) = STT_FILE.
Definition defines (v : Z) (x : named) : Prop :=
  st_name x.1 <> 0 /\ ELF32_ST_TYPE (st_info x.1) <> STT_FILE /\ st_value x.1 = v /\ v <> 0.
#[export] Instance is_file_dec x : Decision (is_file x).
Proof. unfold is_file. apply _. Defined.

(** The source file of what follows the symbols [l]: the last file symbol. *)
Definition file_after (l : list named) : list Z := default [] (snd <$> last (filter is_file l)).

(** The entry of [v] after the symbols [l]: the last symbol that has this address, with the file before it. *)
Definition entry_of (l : list named) (v : Z) (i : SymbolInfo) : Prop :=
  exists l1 x l2, l = l1 ++ x :: l2 /\ defines v x /\ Forall (fun y => ~ defines v y) l2 /\ i = mk_info x.2 (file_after l1) v.

(** A table that follows the symbols [l]. *)
Definition follows (l : list named) (st : list Z * table) : Prop :=
  st.1 = file_after l /\ forall v i, st.2 !! v = Some i <-> entry_of l v i.

Lemma follows_nil : follows [] ([], ∅).
Proof.
  split; [done|]. intros v i. simpl. rewrite lookup_empty. split; [done|]. intros (l1 & x & l2 & E & _). by destruct l1.
Qed.

Lemma entry_of_snoc_skip l y v i : ~ defines v y -> entry_of (l ++ [y]) v i <-> entry_of l v i.
Proof.
  intros Hy. split.
  - intros (l1 & x & l2 & E & Hx & F & ->). destruct l2 as [|z l2] using rev_ind.
    + apply app_inj_tail in E as [_ ->]. done.
    + rewrite app_comm_cons, app_assoc in E. apply app_inj_tail in E as [-> ->].
      apply Forall_app in F as [F _]. by exists l1, x, l2.
  - intros (l1 & x & l2 & -> & Hx & F & ->). exists l1, x, (l2 ++ [y]). rewrite <- app_assoc. split; [done|].
    split; [done|]. split; [|done]. apply Forall_app. by split; [|constructor].
Qed.

Lemma entry_of_snoc_new l y v i : defines v y -> entry_of (l ++ [y]) v i <-> i = mk_info y.2 (file_after l) v.
Proof.
  intros Hy. split.
  - intros (l1 & x & l2 & E & Hx & F & ->). destruct l2 as [|z l2] using rev_ind.
    + by apply app_inj_tail in E as [-> ->].
    + rewrite app_comm_cons, app_assoc in E. apply app_inj_tail in E as [-> ->].
      apply Forall_app in F as [_ F]. inversion F. done.
  - intros ->. exists l, y, []. split; [done|]. split; [done|]. by split; [constructor|].
Qed.

Lemma file_after_snoc l y : file_after (l ++ [y]) = if decide (is_file y) then y.2 else file_after l.
Proof.
  unfold file_after. rewrite filter_app. case_decide as H.
  - rewrite (filter_cons_True _ y), filter_nil by done. by rewrite last_snoc.
  - rewrite (filter_cons_False _ y), filter_nil by done. by rewrite app_nil_r.
Qed.

Section table.
Context (load : Z -> Z) (fuel : nat) (strtable : Z).

Lemma add_symbol_follows l x st : follows l st ->
  (st_name x.1 <> 0 -> string_at load fuel (strtable + st_name x.1) = Done x.2) ->
  exists st', add_symbol load fuel strtable x.1 st = Done st' /\ follows (l ++ [x]) st'.
Proof.
  intros [Hf Ht] Hs. destruct st as [current t]. simpl in Hf. unfold add_symbol.
  destruct (Z.eqb_spec (st_name x.1) 0) as [E0|N0].
  { eexists. split; [done|]. split.
    - rewrite file_after_snoc, decide_False; [done|]. by intros [? _].
    - intros v i. rewrite Ht, entry_of_snoc_skip; [done|]. by intros [? _]. }
  rewrite Hs by done. destruct (Z.eqb_spec (ELF32_ST_TYPE (st_info x.1)) STT_FILE) as [EF|NF].
  { eexists. split; [reflexivity|]. split.
    - rewrite file_after_snoc, decide_True; done.
    - intros v i. simpl. rewrite (Ht v i), entry_of_snoc_skip; [done|]. by intros (_ & ? & _). }
  assert (file_after (l ++ [x]) = file_after l) as Efile by (rewrite file_after_snoc, decide_False; [done|by intros []]).
  destruct (Z.eqb_spec (st_value x.1) 0) as [EV|NV]; cbn [negb].
  { eexists. split; [done|]. split; [by rewrite Efile|].
    intros v i. rewrite (Ht v i), entry_of_snoc_skip; [done|]. intros (_ & _ & ? & ?). congruence. }
  eexists. split; [reflexivity|]. split; [by rewrite Efile|]. intros v i. simpl.
  destruct (decide (v = st_value x.1)) as [->|Hne].
  - rewrite lookup_insert_eq, entry_of_snoc_new by done. rewrite Hf. split; congruence.
  - rewrite lookup_insert_ne by done. rewrite (Ht v i), entry_of_snoc_skip; [done|]. intros (_ & _ & ? & _). congruence.
Qed.

(** The symbols [syms] lie in the memory from [p] on, and their names in the string table. *)
Definition symbols_at (p : Z) (syms : list named) : Prop :=
  forall j x, syms !! j = Some x ->
    sym_at load (p + 16 * Z.of_nat j) = x.1 /\ (st_name x.1 <> 0 -> string_at load fuel (strtable + st_name x.1) = Done x.2).

Lemma symbols_loop_follows efile sh l syms st : follows l st -> symbols_at (sh_addr sh) (l ++ syms) -> 0 < sh_addr sh ->
  sh_entsize sh <> 0 -> Z.of_nat (length (l ++ syms)) = sh_size sh / sh_entsize sh ->
  exists st', symbols_loop load fuel efile sh strtable (length syms) (Z.of_nat (length l)) st = Done st' /\ follows (l ++ syms) st'.
Proof.
  intros Hf Hat Ha He Hlen. revert l st Hf Hat Hlen. induction syms as [|x syms IH]; intros l st Hf Hat Hlen.
  - exists st. by rewrite app_nil_r.
  - cbn [length symbols_loop]. unfold symbol. rewrite (proj2 (Z.eqb_neq _ 0)) by done.
    rewrite length_app in Hlen. cbn [length] in Hlen.
    rewrite (proj2 (Z.leb_gt _ _)), (proj2 (Z.eqb_neq (sh_addr sh) 0)) by lia. cbn [negb mbind outcome_bind].
    rewrite (proj2 (Z.eqb_neq _ 0)) by lia.
    destruct (Hat (length l) x) as [Es En]; [by apply list_lookup_middle|].
    rewrite Es. destruct (add_symbol_follows l x st Hf En) as (st1 & -> & Hf1). cbn [mbind outcome_bind].
    assert (l ++ x :: syms = (l ++ [x]) ++ syms) as Eapp by (by rewrite <- app_assoc).
    rewrite Eapp in *. replace (Z.of_nat (length l) + 1) with (Z.of_nat (length (l ++ [x]))) by (rewrite length_app; simpl; lia).
    apply IH; [done|done|]. rewrite !length_app in *. simpl in *. lia.
Qed.
End table.

#[export] Instance defines_dec v x : Decision (defines v x).
Proof. unfold defines. apply _. Defined.

Lemma undefined_entry l v : Forall (fun y => ~ defines v y) l <-> forall i, ~ entry_of l v i.
Proof.
  split.
  - intros F i (l1 & x & l2 & -> & Hx & _). apply Forall_app in F as [_ F]. inversion F. done.
  - intros H. induction l as [|y l IH] using rev_ind; [constructor|].
    destruct (decide (defines v y)) as [Hd|Hn].
    + destruct (H (mk_info y.2 (file_after l) v)). by apply entry_of_snoc_new.
    + apply Forall_app. split; [|by constructor]. apply IH. intros i Hi. apply (H i). by apply entry_of_snoc_skip.
Qed.

(** C28: The symbol table names addresses: when the sections of the kernel hold the symbols [syms] and their
    names, [get_symbol_table] ends with a table in which [get_function] finds for an address
    the symbol with the greatest address below it, the last one in the table when several share
    the address, with its name and the name of the source file whose symbol comes last before it; and
    it finds nothing exactly when no symbol of the kernel lies below the address. *)
Theorem symbol_lookup_spec load mmap fuel efile base n syms :
  let strp := section load base n SHT_STRTAB in
  let symp := section load base n SHT_SYMTAB in
  let str := shdr_at load strp in
  let sh := shdr_at load symp in
  base <> 0 -> n <> 0 -> strp <> 0 -> symp <> 0 -> sh_addr str <> 0 ->
  0 < mmap (sh_addr sh) (sh_size sh) -> sh_entsize sh <> 0 ->
  Z.of_nat (length syms) = sh_size sh / sh_entsize sh ->
  symbols_at load fuel (mmap (sh_addr str) (sh_size str)) (mmap (sh_addr sh) (sh_size sh)) syms ->
  exists t, get_symbol_table load mmap fuel efile base n = Done t /\
    forall addr i, get_function addr t = Some i <->
      exists k, KERNEL_VIRTUAL_BASE <= k < addr /\ entry_of syms k i /\
        forall k', k < k' < addr -> Forall (fun y => ~ defines k' y) syms.
Proof.
  intros strp symp str sh Hb Hn Hstr Hsym Ha Hm He Hlen Hat. unfold get_symbol_table.
  fold strp symp. fold str sh. cbv zeta. cbn [with_addr sh_entsize sh_size]. fold (with_addr (mmap (sh_addr sh) (sh_size sh)) sh).
  rewrite (proj2 (Z.eqb_neq base 0)), (proj2 (Z.eqb_neq n 0)), (proj2 (Z.eqb_neq strp 0)), (proj2 (Z.eqb_neq symp 0)),
    (proj2 (Z.eqb_neq (sh_addr str) 0)), (proj2 (Z.eqb_neq (sh_entsize sh) 0)) by done. cbn [orb negb].
  destruct (symbols_loop_follows load fuel (mmap (sh_addr str) (sh_size str)) efile
    (with_addr (mmap (sh_addr sh) (sh_size sh)) sh) [] syms ([], ∅)) as ([f t] & E & _ & Ht); try done.
  { apply follows_nil. }
  assert (Z.to_nat (sh_size sh / sh_entsize sh) = length syms) as -> by lia.
  change 0 with (Z.of_nat (length (@nil (Elf32_Sym * list Z)))) at 1. rewrite E. cbn [mbind outcome_bind].
  exists t. split; [done|]. intros addr i. rewrite get_function_spec. unfold nearest. simpl in Ht.
  assert (forall k', t !! k' = None <-> Forall (fun y => ~ defines k' y) syms) as Hnone.
  { intros k'. rewrite undefined_entry. split.
    - intros E' j Hj. apply Ht in Hj. congruence.
    - intros H. destruct (t !! k') as [j|] eqn:E'; [|done]. destruct (H j). by apply Ht. }
  split; intros (k & Hk & H1 & H2); exists k; (split; [done|]); (split; [by apply Ht|]); intros k' Hk'; apply Hnone, H2, Hk'.
Qed.

(** ** A kernel with two functions *)

Definition le32 (v : Z) : list Z := [v mod 256; v / 256 mod 256; v / 65536 mod 256; v / 16777216 mod 256].
Definition shdr_bytes (type addr size entsize : Z) : list Z :=
  le32 0 ++ le32 type ++ le32 0 ++ le32 addr ++ le32 0 ++ le32 size ++ le32 0 ++ le32 0 ++ le32 0 ++ le32 entsize.
Definition sym_bytes (name value info : Z) : list Z := le32 name ++ le32 value ++ le32 0 ++ [info; 0; 0; 0].

(** Two headers at 4096, the symbols at 4176 and the names at 4240: file "a", functions "f" and "g". *)
Definition sample_bytes : list Z :=
  shdr_bytes 3 4240 7 0 ++ shdr_bytes 2 4176 64 16 ++
  sym_bytes 0 0 0 ++ sym_bytes 1 0 4 ++ sym_bytes 3 0xC0000010 2 ++ sym_bytes 5 0xC0000020 2 ++
  [0; 97; 0; 102; 0; 103; 0].
Definition sample_load (p : Z) : Z := if p <? 4096 then 0 else nth (Z.to_nat (p - 4096)) sample_bytes 0.
Definition sample_syms : list (Elf32_Sym * list Z) :=
  [(mk_sym 0 0 0 0 0 0, []); (mk_sym 1 0 0 4 0 0, [97]); (mk_sym 3 0xC0000010 0 2 0 0, [102]);
   (mk_sym 5 0xC0000020 0 2 0 0, [103])].

Lemma symbol_lookup_spec_witness :
  exists t, get_symbol_table sample_load (fun a _ => a) 4 0 4096 2 = Done t /\
    get_function 0xC0000018 t = Some (mk_info [102] [97] 0xC0000010).
Proof.
  destruct (symbol_lookup_spec sample_load (fun a _ => a) 4 0 4096 2 sample_syms) as (t & E & H).
  1-5: vm_compute; discriminate.
  - vm_compute. reflexivity.
  - vm_compute. discriminate.
  - vm_compute. reflexivity.
  - intros j x Hj. do 4 (destruct j as [|j]; [injection Hj as <-; split; [vm_compute; reflexivity|intros _; vm_compute; reflexivity]|]).
    discriminate.
  - exists t. split; [exact E|]. apply H. clear E H t. exists 0xC0000010. split; [unfold KERNEL_VIRTUAL_BASE; lia|]. split.
    + exists (take 2 sample_syms), (mk_sym 3 0xC0000010 0 2 0 0, [102]), (drop 3 sample_syms).
      split; [reflexivity|]. split; [split_and!; discriminate || reflexivity|]. split; [|reflexivity].
      repeat constructor. intros (_ & _ & V & _). discriminate V.
    + intros k' Hk'. repeat constructor; intros (N & F & V & Z0); cbn [fst st_name st_value] in *; lia || congruence.
Defined.

(** The symbols of a file are not found in the file: its table has no address, and
    the address that takes its place is that of the first physical page. *)
Lemma file_symbols_elsewhere (mmap : Z -> Z -> Z) (data : Z) s :
  sh_addr s = 0 -> 0 < mmap 0 (sh_size s) -> sh_entsize s = 16 -> 0 < sh_size s / 16 ->
  symbol data (with_addr (mmap (sh_addr s) (sh_size s)) s) 0 = Done (mmap 0 (sh_size s)).
Proof.
  intros Ha Hm He Hs. unfold symbol. cbn [with_addr sh_entsize sh_size sh_addr]. rewrite He, Ha. cbn [Z.eqb].
  rewrite (proj2 (Z.leb_gt _ _)) by lia. rewrite (proj2 (Z.eqb_neq _ 0)) by lia. cbn [negb]. f_equal. lia.
Qed.

End ElfProofs.
