(* ===== verification/StringView.v ===== *)
(** * StringView: [libk++/include/kstring/kstring_view.tpp]

    A view is an address and a size over the memory of [Mem32]; [size_t] is 32 bits
    wide and [npos] is its greatest value.  The paths and words of the kernel are cut with
    [find_first_of] and [substr], and compared with [compare]. *)
From stdpp Require Import base gmap list.
From Stdlib Require Import ZArith Lia.
From S2P Require Import Prelude Mem32 CString Paths.
Import CString.

Module StringView.

Record view := mk_view { m_str : Z; m_size : Z }.
Definition npos : Z := 2 ^ 32 - 1.

Definition size (s : view) : Z := s.(m_size).
Definition empty (s : view) : bool := s.(m_size) =? 0.
(** [m_str[i]], with the address computed in 32 bits. *)
Definition char (m : memory) (s : view) (i : Z) : Z := load8 m (u32 (s.(m_str) + i)).
Definition at_ (m : memory) (s : view) (pos : Z) : outcome Z :=
  if pos <? s.(m_size) then Done (char m s pos) else Fault AssertFailed.
Definition front (m : memory) (s : view) : Z := char m s 0.
Definition back (m : memory) (s : view) : Z := char m s (u32 (s.(m_size) - 1)).

Definition remove_prefix (n : Z) (s : view) : view := mk_view (u32 (s.(m_str) + n)) (u32 (s.(m_size) - n)).
Definition remove_suffix (n : Z) (s : view) : view := mk_view s.(m_str) (u32 (s.(m_size) - n)).

(** [copy]: at most one character more than [count]. *)
Definition copy (dest count pos : Z) (s : view) (m : memory) : outcome (Z * memory) :=
  if negb (pos <? s.(m_size)) then Fault AssertFailed
  else
    let rcount := Z.min (u32 (s.(m_size) - pos)) (u32 (count + 1)) in
    Done (rcount, copy_up (Z.to_nat rcount) dest (s.(m_str) + pos) m).

Definition substr (pos len : Z) (s : view) : outcome view :=
  let max_length := if s.(m_size) <? pos then 0 else s.(m_size) - pos in
  if negb (pos <? s.(m_size)) then Fault AssertFailed
  else Done (mk_view (u32 (s.(m_str) + pos)) (if max_length <? len then max_length else len)).

(** ** Comparison *)

Definition compare (fuel : nat) (m : memory) (s v : view) : outcome Z :=
  let rlen := Z.min s.(m_size) v.(m_size) in
  c ← strncmp fuel s.(m_str) v.(m_str) rlen m;
  mret (if negb (c =? 0) then c
        else if s.(m_size) <? v.(m_size) then -1 else if v.(m_size) <? s.(m_size) then 1 else 0).

Definition compare_sub (fuel : nat) (m : memory) (pos1 count1 : Z) (s v : view) : outcome Z :=
  s ← substr pos1 count1 s; compare fuel m s v.
Definition compare_subs (fuel : nat) (m : memory) (pos1 count1 pos2 count2 : Z) (s v : view) : outcome Z :=
  s ← substr pos1 count1 s; v ← substr pos2 count2 v; compare fuel m s v.

Definition op_eq fuel m s v : outcome bool := c ← compare fuel m s v; mret (c =? 0).
Definition op_ne fuel m s v : outcome bool := c ← compare fuel m s v; mret (negb (c =? 0)).
Definition op_lt fuel m s v : outcome bool := c ← compare fuel m s v; mret (c <? 0).
Definition op_gt fuel m s v : outcome bool := c ← compare fuel m s v; mret (0 <? c).
Definition op_le fuel m s v : outcome bool := c ← compare fuel m s v; mret (c <=? 0).
Definition op_ge fuel m s v : outcome bool := c ← compare fuel m s v; mret (0 <=? c).

(** ** Searching *)

(** [for (j = 0; j < v.size(); ++j) if (v[j] == c) ...]. *)
Fixpoint has_char (m : memory) (v : view) (n : nat) (j c : Z) : bool :=
  match n with
  | O => false
  | S n => if char m v j =? c then true else has_char m v n (j + 1) c
  end.
Definition one_of (m : memory) (v : view) (c : Z) : bool := has_char m v (Z.to_nat v.(m_size)) 0 c.

Fixpoint first_of_loop (m : memory) (s v : view) (n : nat) (i : Z) : Z :=
  match n with
  | O => npos
  | S n => if one_of m v (char m s i) then i else first_of_loop m s v n (i + 1)
  end.
Definition find_first_of (m : memory) (s v : view) (pos : Z) : Z :=
  first_of_loop m s v (Z.to_nat (s.(m_size) - pos)) pos.

(** The index is unsigned: the test [i >= 0] always holds, and the loop goes on below the
    beginning of the view. *)
Fixpoint last_of_loop (fuel : nat) (m : memory) (s v : view) (i : Z) : outcome Z :=
  match fuel with
  | O => Fault OutOfFuel
  | S fuel => if one_of m v (char m s i) then Done i else last_of_loop fuel m s v (u32 (i - 1))
  end.
Definition find_last_of (fuel : nat) (m : memory) (s v : view) (pos : Z) : outcome Z :=
  last_of_loop fuel m s v (Z.min (u32 (s.(m_size) - 1)) pos).

(** The inner loop returns after its first turn unless the first character of [v] is found. *)
Fixpoint first_not_of_loop (m : memory) (s v : view) (n : nat) (i : Z) : Z :=
  match n with
  | O => npos
  | S n =>
      if (v.(m_size) =? 0) || (char m v 0 =? char m s i) then first_not_of_loop m s v n (i + 1) else i
  end.
Definition find_first_not_of (m : memory) (s v : view) (pos : Z) : Z :=
  first_not_of_loop m s v (Z.to_nat (s.(m_size) - pos)) pos.

Fixpoint last_not_of_loop (fuel : nat) (m : memory) (s v : view) (i : Z) : outcome Z :=
  match fuel with
  | O => Fault OutOfFuel
  | S fuel =>
      if (v.(m_size) =? 0) || (char m v 0 =? char m s i) then last_not_of_loop fuel m s v (u32 (i - 1)) else Done i
  end.
Definition find_last_not_of (fuel : nat) (m : memory) (s v : view) (pos : Z) : outcome Z :=
  last_not_of_loop fuel m s v (Z.min (u32 (s.(m_size) - 1)) pos).

(** [for (; j >= 0; --j) if (v[j] != m_str[i+j]) break]: ends only at a difference. *)
Fixpoint match_back (fuel : nat) (m : memory) (s v : view) (i j : Z) : outcome Z :=
  match fuel with
  | O => Fault OutOfFuel
  | S fuel => if char m v j =? char m s (u32 (i + j)) then match_back fuel m s v i (u32 (j - 1)) else Done j
  end.
Fixpoint find_loop (fuel : nat) (m : memory) (s v : view) (n : nat) (i : Z) : outcome Z :=
  match n with
  | O => Done npos
  | S n =>
      j ← match_back fuel m s v i (u32 (v.(m_size) - 1));
      if u32 (j + 1) =? 0 then Done i else find_loop fuel m s v n (i + 1)
  end.
Definition find (fuel : nat) (m : memory) (s v : view) (pos : Z) : outcome Z :=
  find_loop fuel m s v (Z.to_nat (u32 (s.(m_size) - v.(m_size)) - pos)) pos.

(** [v] is compared backwards from [i], and the index is unsigned here too. *)
Fixpoint match_down (m : memory) (s v : view) (n : nat) (i j : Z) : bool :=
  match n with
  | O => true
  | S n => if char m v j =? char m s (u32 (i - j)) then match_down m s v n i (j + 1) else false
  end.
Fixpoint rfind_loop (fuel : nat) (m : memory) (s v : view) (i : Z) : outcome Z :=
  match fuel with
  | O => Fault OutOfFuel
  | S fuel => if match_down m s v (Z.to_nat v.(m_size)) i 0 then Done i else rfind_loop fuel m s v (u32 (i - 1))
  end.
Definition rfind (fuel : nat) (m : memory) (s v : view) (pos : Z) : outcome Z :=
  rfind_loop fuel m s v (Z.min (u32 (u32 (s.(m_size) - v.(m_size)) - 1)) pos).

(** ** [tokenize] of [utils/stlutils.hpp], over views *)

Fixpoint tokenize_loop (fuel : nat) (m : memory) (str delimiters : view) (trimEmpty : bool) (lastPos : Z) : outcome (list view) :=
  match fuel with
  | O => Done []
  | S fuel =>
      if lastPos <? str.(m_size) then
        let pos := find_first_of m str delimiters lastPos in
        let pos := if pos =? npos then str.(m_size) else pos in
        tok ← (if negb (pos =? lastPos) || negb trimEmpty
               then t ← substr lastPos (pos - lastPos) str; mret [t] else mret []);
        rest ← tokenize_loop fuel m str delimiters trimEmpty (pos + 1);
        mret (tok ++ rest)
      else Done []
  end.
(** A turn takes at least one character. *)
Definition tokenize (m : memory) (str delimiters : view) (trimEmpty : bool) : outcome (list view) :=
  tokenize_loop (Z.to_nat str.(m_size)) m str delimiters trimEmpty 0.

(** ** The characters of a view *)

Definition chars (m : memory) (s : view) : list Z :=
  map (fun i => load8 m (s.(m_str) + Z.of_nat i)) (seq 0 (Z.to_nat s.(m_size))).
(** The view lies in the address space. *)
Definition wf_view (s : view) : Prop := 0 <= s.(m_str) /\ 0 <= s.(m_size) /\ s.(m_str) + s.(m_size) < 2 ^ 32.

Lemma chars_lookup m s (i : nat) : wf_view s -> Z.of_nat i < m_size s -> chars m s !! i = Some (char m s (Z.of_nat i)).
Proof.
  intros (H1 & H2 & H3) Hi. unfold chars, char. change (map ?f ?l) with (f <$> l).
  rewrite list_lookup_fmap, lookup_seq_lt by lia. simpl. by rewrite uwrap_small by lia.
Qed.
Lemma chars_length m s : length (chars m s) = Z.to_nat (m_size s).
Proof. unfold chars. by rewrite length_map, length_seq. Qed.

(** ** [find_first_of] *)

Lemma has_char_spec m v n j c : has_char m v n j c = true <-> exists k : nat, (k < n)%nat /\ char m v (j + Z.of_nat k) = c.
Proof.
  revert j. induction n as [|n IH]; intros j; cbn [has_char].
  - split; [done|]. intros (k & Hk & _). lia.
  - destruct (Z.eqb_spec (char m v j) c) as [E|N].
    + split; [|done]. intros _. exists 0%nat. split; [lia|]. by rewrite Z.add_0_r.
    + rewrite IH. split.
      * intros (k & Hk & E). exists (S k). split; [lia|]. rewrite <- E. f_equal. lia.
      * intros ([|k] & Hk & E); [by rewrite Z.add_0_r in E|]. exists k. split; [lia|]. rewrite <- E. f_equal. lia.
Qed.

Lemma one_of_spec m v c : wf_view v -> one_of m v c = true <-> c ∈ chars m v.
Proof.
  intros W. unfold one_of. rewrite has_char_spec, list_elem_of_lookup. split.
  - intros (k & Hk & E). exists k. rewrite chars_lookup by (done || lia). by rewrite <- E.
  - intros (k & Hk). pose proof (lookup_lt_Some _ _ _ Hk) as Hl. rewrite chars_length in Hl.
    exists k. split; [done|]. rewrite chars_lookup in Hk by (done || lia). by injection Hk as <-.
Qed.

Lemma first_of_loop_spec m s v n i : wf_view v ->
  let r := first_of_loop m s v n i in
  (r = npos /\ forall k, i <= k < i + Z.of_nat n -> char m s k ∉ chars m v) \/
  (i <= r < i + Z.of_nat n /\ char m s r ∈ chars m v /\ forall k, i <= k < r -> char m s k ∉ chars m v).
Proof.
  intros W. revert i. induction n as [|n IH]; intros i; cbn [first_of_loop]; [left; split; [done|lia]|].
  destruct (one_of m v (char m s i)) eqn:E.
  - right. split; [lia|]. split; [by apply one_of_spec|]. intros k Hk. lia.
  - assert (char m s i ∉ chars m v) as N by (intros H; apply one_of_spec in H; [congruence|done]).
    destruct (IH (i + 1)) as [[Hr Hk]|(Hr & Hin & Hk)].
    + left. split; [done|]. intros k Hk'. destruct (decide (k = i)) as [->|]; [done|]. apply Hk. lia.
    + right. split; [lia|]. split; [done|]. intros k Hk'. destruct (decide (k = i)) as [->|]; [done|]. apply Hk. lia.
Qed.

(** ** Comparison *)

(** The order of strings of signed characters. *)
Fixpoint lex (l1 l2 : list Z) : comparison :=
  match l1, l2 with
  | [], [] => Eq
  | [], _ :: _ => Lt
  | _ :: _, [] => Gt
  | c1 :: l1, c2 :: l2 => if s8 c1 =? s8 c2 then lex l1 l2 else s8 c1 ?= s8 c2
  end.
Definition sign_of (z : Z) : comparison := z ?= 0.

(** The bytes at [a], the first [n] of them, not zero. *)
Definition bytes_at (m : memory) (a : Z) (n : nat) : list Z := map (fun i => load8 m (a + Z.of_nat i)) (seq 0 n).

Lemma bytes_at_S m a n : bytes_at m a (S n) = load8 m a :: bytes_at m (a + 1) n.
Proof.
  unfold bytes_at. cbn [seq map]. rewrite Z.add_0_r. f_equal. rewrite <- seq_shift, map_map. apply map_ext.
  intros i. f_equal. lia.
Qed.

Lemma strncmp_loop_sign m n : forall a b i fuel, (0 < n)%nat -> 0 <= i -> i + Z.of_nat n < 2 ^ 32 -> (n <= fuel)%nat ->
  (forall k, (k < n)%nat -> load8 m (a + Z.of_nat k) <> 0 /\ load8 m (b + Z.of_nat k) <> 0) ->
  exists z, strncmp_loop fuel a b i (i + Z.of_nat n) m = Done z /\ sign_of z = lex (bytes_at m a n) (bytes_at m b n).
Proof.
  induction n as [|n IH]; intros a b i [|fuel] Hn Hi Hl Hf Hz; try lia. cbn [strncmp_loop].
  rewrite !bytes_at_S. cbn [lex]. unfold char_at.
  destruct (Z.eqb_spec (s8 (load8 m a)) (s8 (load8 m b))) as [E|N]; cbn [negb].
  2: { eexists. split; [reflexivity|]. destruct (Z.ltb_spec (s8 (load8 m a)) (s8 (load8 m b))) as [L|L]; symmetry.
       - by apply Z.compare_lt_iff.
       - apply Z.compare_gt_iff. lia. }
  rewrite uwrap_small by lia. destruct (Z.eqb_spec (i + 1) (i + Z.of_nat (S n))) as [El|Nl].
  { exists 0. split; [done|]. assert (n = 0%nat) as -> by lia. done. }
  destruct (Hz 1%nat) as [Ha Hb]; [lia|]. change (Z.of_nat 1) with 1 in *.
  pose proof (load8_range m (a + 1)). pose proof (load8_range m (b + 1)).
  rewrite (proj2 (Z.eqb_neq (s8 (load8 m (a + 1))) 0)) by (intros Z0; by apply Ha, s8_zero).
  rewrite (proj2 (Z.eqb_neq (s8 (load8 m (b + 1))) 0)) by (intros Z0; by apply Hb, s8_zero). cbn [negb andb].
  replace (i + Z.of_nat (S n)) with (i + 1 + Z.of_nat n) by lia. apply IH; [lia|lia|lia|lia|].
  intros k Hk. destruct (Hz (S k)) as [H1 H2]; [lia|]. rewrite Nat2Z.inj_succ in H1, H2.
  split; [by replace (a + 1 + Z.of_nat k) with (a + Z.succ (Z.of_nat k)) by lia
         |by replace (b + 1 + Z.of_nat k) with (b + Z.succ (Z.of_nat k)) by lia].
Qed.

Lemma lex_take l1 l2 n : n = Nat.min (length l1) (length l2) ->
  lex l1 l2 = match lex (take n l1) (take n l2) with Eq => Nat.compare (length l1) (length l2) | c => c end.
Proof.
  revert l2 n. induction l1 as [|c1 l1 IH]; intros [|c2 l2] n ->; try done.
  cbn [length Nat.min take lex]. destruct (Z.eqb_spec (s8 c1) (s8 c2)) as [|N]; [by apply IH|].
  destruct (Z.compare_spec (s8 c1) (s8 c2)); [done|done|done].
Qed.

Lemma take_chars m s (n : nat) : Z.of_nat n <= m_size s -> take n (chars m s) = bytes_at m (m_str s) n.
Proof.
  intros Hn. unfold chars, bytes_at. change (@map nat Z) with (@fmap list _ nat Z). rewrite <- fmap_take. f_equal.
  rewrite take_seq. f_equal. lia.
Qed.

Lemma compare_lex fuel m s v : 0 < m_size s < 2 ^ 31 -> 0 < m_size v < 2 ^ 31 ->
  Forall (fun c => c <> 0) (chars m s) -> Forall (fun c => c <> 0) (chars m v) ->
  Z.min (m_size s) (m_size v) <= Z.of_nat fuel ->
  exists z, compare fuel m s v = Done z /\ sign_of z = lex (chars m s) (chars m v).
Proof.
  intros Hs Hv Fs Fv Hf. set (n := Z.to_nat (Z.min (m_size s) (m_size v))).
  assert (forall w k, Forall (fun c => c <> 0) (chars m w) -> Z.of_nat k < m_size w -> load8 m (m_str w + Z.of_nat k) <> 0) as G.
  { intros w k F Hk. eapply (Forall_lookup_1 _ _ k) in F; [exact F|]. unfold chars. change (map ?f ?l) with (f <$> l).
    by rewrite list_lookup_fmap, lookup_seq_lt by lia. }
  destruct (strncmp_loop_sign m n (m_str s) (m_str v) 0 fuel) as (z & E & Hz); try (unfold n; lia).
  { intros k Hk. split; apply G; (done || (unfold n in Hk; lia)). }
  unfold compare, strncmp. replace (Z.min (m_size s) (m_size v)) with (0 + Z.of_nat n) by (unfold n; lia).
  rewrite E. cbn [mbind outcome_bind]. eexists. split; [done|].
  rewrite (lex_take _ _ n) by (rewrite !chars_length; unfold n; lia).
  rewrite !take_chars, <- Hz by (unfold n; lia). rewrite !chars_length.
  destruct (Z.eqb_spec z 0) as [->|Nz]; cbn [negb sign_of Z.compare].
  - rewrite Z2Nat.inj_compare by lia. destruct (Z.ltb_spec (m_size s) (m_size v)).
    + symmetry. by apply Z.compare_lt_iff.
    + destruct (Z.ltb_spec (m_size v) (m_size s)); symmetry; [by apply Z.compare_gt_iff|]. apply Z.compare_eq_iff. lia.
  - unfold sign_of. destruct (Z.compare_spec z 0); [lia|done|done].
Qed.

(** ** Cutting *)

Lemma drop_chars m s (i : nat) : wf_view s -> Z.of_nat i < m_size s ->
  drop i (chars m s) = char m s (Z.of_nat i) :: drop (S i) (chars m s).
Proof. intros W Hi. apply drop_S. by apply chars_lookup. Qed.

Lemma drop_chars_end m s (i : nat) : m_size s <= Z.of_nat i -> drop i (chars m s) = [].
Proof. intros Hi. apply drop_ge. rewrite chars_length. lia. Qed.

(** [find_first_of] is the cut of [Paths]: what is before the delimiter, and what is behind. *)
Lemma cut_found m s v (i k : nat) : wf_view s -> (i <= k)%nat -> Z.of_nat k <= m_size s ->
  (forall j, Z.of_nat i <= j < Z.of_nat k -> char m s j ∉ chars m v) ->
  (Z.of_nat k < m_size s -> char m s (Z.of_nat k) ∈ chars m v) ->
  Paths.cut (chars m v) (drop i (chars m s)) = (take (k - i) (drop i (chars m s)), drop (S k) (chars m s)).
Proof.
  intros W Hik Hk Hno Hyes. remember (k - i)%nat as n eqn:En. revert i Hik Hno En. induction n as [|n IH]; intros i Hik Hno En.
  - assert (i = k) as -> by lia. destruct (decide (Z.of_nat k < m_size s)) as [Hlt|Hge].
    + rewrite drop_chars by done. cbn [Paths.cut take]. by rewrite bool_decide_true by (by apply Hyes).
    + rewrite !drop_chars_end by lia. done.
  - rewrite drop_chars by (done || lia). cbn [Paths.cut take]. rewrite bool_decide_false by (apply Hno; lia).
    by rewrite IH by (intros; (apply Hno; lia) || lia).
Qed.

Lemma chars_sub m s i n : wf_view s -> 0 <= i -> 0 <= n -> i + n <= m_size s ->
  chars m (mk_view (u32 (m_str s + i)) n) = take (Z.to_nat n) (drop (Z.to_nat i) (chars m s)).
Proof.
  intros (H1 & H2 & H3) Hi Hn Hin. apply list_eq. intros k. unfold chars at 1. cbn [m_str m_size].
  change (map ?f ?l) with (f <$> l). rewrite list_lookup_fmap. destruct (decide (k < Z.to_nat n)%nat) as [Hk|Hk].
  - rewrite lookup_seq_lt by done. rewrite lookup_take_lt, lookup_drop by done. rewrite chars_lookup by (done || lia).
    simpl. f_equal. unfold char. rewrite !(uwrap_small 32) by lia. f_equal. lia.
  - rewrite lookup_seq_ge by lia. rewrite lookup_take_ge by lia. done.
Qed.

(** Where the search ends: at the delimiter or at the end of the view. *)
Lemma find_first_of_run m s v pos : wf_view s -> wf_view v -> 0 <= pos <= m_size s ->
  let r := find_first_of m s v pos in
  let e := if r =? npos then m_size s else r in
  pos <= e <= m_size s /\ (forall k, pos <= k < e -> char m s k ∉ chars m v) /\ (e < m_size s -> char m s e ∈ chars m v).
Proof.
  intros (H1 & H2 & H3) Wv Hp. cbv zeta. unfold find_first_of.
  destruct (first_of_loop_spec m s v (Z.to_nat (m_size s - pos)) pos Wv) as [[-> Hk]|(Hr & Hin & Hk)].
  - rewrite Z.eqb_refl. split; [lia|]. split; [|lia]. intros k Hk'. apply Hk. lia.
  - rewrite (proj2 (Z.eqb_neq _ npos)) by (unfold npos; lia). split; [lia|]. by split.
Qed.

Lemma tokenize_loop_run m s v trim fuel pos : wf_view s -> wf_view v -> 0 <= pos ->
  exists ts, tokenize_loop fuel m s v trim pos = Done ts /\
    map (chars m) ts = Paths.tokenize_loop fuel (chars m v) trim (drop (Z.to_nat pos) (chars m s)).
Proof.
  intros W Wv. revert pos. induction fuel as [|fuel IH]; intros pos Hp; [by exists []|]. cbn [tokenize_loop].
  destruct (Z.ltb_spec pos (m_size s)) as [Hlt|Hge].
  2: { exists []. split; [done|]. rewrite drop_chars_end by lia. done. }
  destruct (find_first_of_run m s v pos W Wv) as (He & Hno & Hyes); [lia|]. cbv zeta in *.
  set (e := if find_first_of m s v pos =? npos then m_size s else find_first_of m s v pos) in *.
  destruct (IH (e + 1)) as (rest & Er & Em); [lia|].
  assert (Paths.cut (chars m v) (drop (Z.to_nat pos) (chars m s)) =
    (take (Z.to_nat (e - pos)) (drop (Z.to_nat pos) (chars m s)), drop (Z.to_nat (e + 1)) (chars m s))) as Ec.
  { rewrite (cut_found m s v (Z.to_nat pos) (Z.to_nat e)); rewrite ?Z2Nat.id by lia; try done; try lia.
    f_equal; f_equal; lia. }
  assert (exists c l, drop (Z.to_nat pos) (chars m s) = c :: l) as (c & l & Ed).
  { eexists _, _. apply drop_chars; [done|lia]. }
  cbn [Paths.tokenize_loop]. rewrite Ed in *. rewrite Ec.
  match goal with |- context[@bool_decide ?P ?dec] => assert (@bool_decide P dec = (e =? pos)) as -> end.
  { destruct (Z.eqb_spec e pos) as [->|Ne]; [apply bool_decide_true; by rewrite Z.sub_diag|]. apply bool_decide_false.
    destruct (Z.to_nat (e - pos)) eqn:En; [lia|done]. }
  destruct (negb (e =? pos) || negb trim) eqn:Et.
  - unfold substr. rewrite (proj2 (Z.ltb_ge (m_size s) pos)), (proj2 (Z.ltb_lt pos (m_size s))) by lia. cbn [negb].
    rewrite (proj2 (Z.ltb_ge (m_size s - pos) (e - pos))) by lia. cbn [mbind outcome_bind mret outcome_ret]. rewrite Er.
    cbn [mbind outcome_bind mret outcome_ret app]. eexists. split; [done|]. cbn [map]. rewrite Em. f_equal.
    rewrite chars_sub by (done || lia). by rewrite Ed.
  - cbn [mbind outcome_bind mret outcome_ret]. rewrite Er. cbn [mbind outcome_bind mret outcome_ret app]. by eexists.
Qed.

(** C30: The words and the components of paths are cut as they should be: [tokenize] over the bytes of the memory, with
    [find_first_of] and [substr] of the string views, returns views whose characters are the
    tokens of the lists of characters; no assertion of [substr] fails, for any string, delimiters and both
    settings of [trimEmpty]. *)
Theorem tokenize_refines m s v trim : wf_view s -> wf_view v ->
  exists ts, tokenize m s v trim = Done ts /\ map (chars m) ts = Paths.tokenize (chars m s) (chars m v) trim.
Proof.
  intros W Wv. unfold tokenize, Paths.tokenize. rewrite chars_length.
  destruct (tokenize_loop_run m s v trim (Z.to_nat (m_size s)) 0 W Wv) as (ts & E & Em); [lia|]. by exists ts.
Qed.

(** "a/b" with the delimiter "/". *)
Definition sample_memory : memory := <[100 := 97]> (<[101 := 47]> (<[102 := 98]> (<[200 := 47]> ∅))).
Lemma tokenize_refines_witness : exists ts,
  tokenize sample_memory (mk_view 100 3) (mk_view 200 1) true = Done ts /\ map (chars sample_memory) ts = [[97]; [98]].
Proof. apply (tokenize_refines sample_memory (mk_view 100 3) (mk_view 200 1) true); split_and!; simpl; lia. Defined.

(** [==] and [<] are those of the strings, for views that are not empty. *)
Lemma lex_eq l1 l2 : Forall (fun c => 0 <= c < 256) l1 -> Forall (fun c => 0 <= c < 256) l2 -> lex l1 l2 = Eq <-> l1 = l2.
Proof.
  intros F1. revert l2. induction F1 as [|c1 l1 H1 F1 IH]; intros l2 F2; destruct F2 as [|c2 l2 H2 F2]; try done. cbn [lex].
  assert (s8 c1 = s8 c2 <-> c1 = c2) as E.
  { split; [|congruence]. unfold swrap. change (2 ^ (8 - 1)) with 128. change (2 ^ 8) with 256. Z.div_mod_to_equations. lia. }
  destruct (Z.eqb_spec (s8 c1) (s8 c2)) as [Es|Ns].
  - rewrite (IH l2 F2). apply E in Es as ->. split; congruence.
  - split; [|intros [= -> _]; done]. intros C. apply Z.compare_eq in C. done.
Qed.

Lemma chars_bytes m s : Forall (fun c => 0 <= c < 256) (chars m s).
Proof. unfold chars. apply Forall_fmap, Forall_true. intros i. apply load8_range. Qed.

Lemma op_eq_spec fuel m s v : 0 < m_size s < 2 ^ 31 -> 0 < m_size v < 2 ^ 31 ->
  Forall (fun c => c <> 0) (chars m s) -> Forall (fun c => c <> 0) (chars m v) ->
  Z.min (m_size s) (m_size v) <= Z.of_nat fuel ->
  op_eq fuel m s v = Done (bool_decide (chars m s = chars m v)) /\
  op_lt fuel m s v = Done (match lex (chars m s) (chars m v) with Lt => true | _ => false end).
Proof.
  intros Hs Hv Fs Fv Hf. destruct (compare_lex fuel m s v) as (z & E & Hz); try done.
  unfold op_eq, op_lt. rewrite E. cbn [mbind outcome_bind mret outcome_ret].
  pose proof (lex_eq _ _ (chars_bytes m s) (chars_bytes m v)) as L. rewrite <- Hz in *. unfold sign_of in *.
  split; [|done]. f_equal. destruct (Z.eqb_spec z 0) as [->|N]; symmetry.
  - apply bool_decide_true. by apply L.
  - apply bool_decide_false. intros C. apply L, Z.compare_eq in C. done.
Qed.

(** ** Deviations *)

(** An empty view is compared by what lies behind it: two empty views may differ, and an empty view may be
    greater than another one. *)
Lemma empty_compare_overreads :
  op_eq 3 sample_memory (mk_view 101 0) (mk_view 102 0) = Done false /\
  compare 3 sample_memory (mk_view 100 0) (mk_view 200 1) = Done 1.
Proof. split; vm_compute; reflexivity. Qed.

(** [find] does not try the last position, and a match counts only if the bytes before the two views differ. *)
Lemma find_misses_last : find 10 sample_memory (mk_view 100 3) (mk_view 102 1) 0 = Done npos.
Proof. vm_compute. reflexivity. Qed.
Lemma find_needs_difference :
  find 300 sample_memory (mk_view 100 3) (mk_view 100 1) 0 = Fault OutOfFuel.
Proof. vm_compute. reflexivity. Qed.

(** [find_last_of] and [rfind] go on below the view: the index they return is then no position of it. *)
Lemma find_last_of_underruns : find_last_of 10 sample_memory (mk_view 102 1) (mk_view 200 1) 5 = Done npos /\
  find_last_of 10 sample_memory (mk_view 102 1) (mk_view 100 1) 5 = Done (npos - 1).
Proof. split; vm_compute; reflexivity. Qed.

(** [find_first_not_of] looks at the first character of its set only. *)
Lemma first_not_of_first : find_first_not_of sample_memory (mk_view 101 1) (mk_view 100 3) 0 = 0 /\
  47 ∈ chars sample_memory (mk_view 100 3).
Proof. split; [vm_compute; reflexivity|]. apply (bool_decide_unpack _). vm_compute. exact I. Qed.

End StringView.
